(* ===== verification/_CoqProject ===== *)
-Q . S2P
Prelude.v
PyVal.v
Mongo.v
Effects.v
MongoRef.v
Concurrency.v
Trace.v
Schema.v
Json.v
Base64.v
Jwt.v
PyRe.v
PyDec.v
PyDate.v
IpAddress.v
Vault.v
Refresh.v
RefreshProofs.v
RepricerEngine.v
Idempotency.v
Claims.v
ClaimsConcurrency.v
Broker.v
RepricerConsumer.v
RepricerProofs.v
AutoReply.v
RateLimit.v
Retry.v
Webhooks.v
HistoryPlan.v
HistoryWork.v
WebhookProofs.v
WebhookOnce.v
SyncJobs.v
SyncJobsProofs.v
OrderRanges.v
RecoveryJobs.v
HistoryModels.v
Transactions.v
HistoryStore.v
StockTimePlan.v
StockTimeEngine.v
StockTimeRollback.v
RecoveryQueue.v
RecoveryWork.v
RangeStore.v
HistoryOrders.v
HistoryProofs.v
RecoveryProofs.v
RecoveryClaims.v
RecoveryTurns.v
RecoveryDemo.v
StockTimeCalls.v
StockTimeForward.v
StockTimeRestore.v
StockTimeRoundTrip.v
StockTimeClaims.v
StockTimeDemo.v
HistorySteps.v
RangeProofs.v
HistoryClaims.v
RangeClaims.v
HistorySend.v
HistoryLedger.v
Proxy.v
ProxyProofs.v
TokenIssue.v
TokenIssueProofs.v
HistorySpend.v
BootstrapState.v
BootstrapDispatch.v
BootstrapDispatchProofs.v
AccountEvents.v
BootstrapRunner.v
BootstrapProofs.v
Certificates.v
CoverageProofs.v
Devoluciones.v
DevolucionesProofs.v
DevolucionesClaims.v
