(* ===== verification/Prelude.v ===== *)
(** * zeler-platform: a verification development

    zeler-platform runs modules (repricer, auto-reply, sheets, publicador) on
    top of MercadoLibre.  A _gateway_ owns the accounts: it keeps their tokens
    encrypted, refreshes them, receives MercadoLibre's notifications and puts
    them on RabbitMQ, and proxies the modules' requests under a token, a scope
    list, a rate limit and, for historical requests, a prepaid plan.  A
    _bootstrap_ service loads a newly linked account.  The _modules_ consume
    events under a lease, so that a side effect happens once.  All of them share
    MongoDB, and most of what can go wrong is two of them interleaving there, or
    a call that takes effect and loses its reply.  The development models those
    services as programs over that shared store.

    ** How the code is modelled

    - Values: [PyVal.val] are the Python and BSON values, [doc] a dict with
      string keys, [exn] the exceptions with their class hierarchy, [result] a
      fallible operation.  Texts are sequences of bytes: code points above 255
      are not represented.  Instants and durations are whole microseconds.
    - Effects: an [async] function is an [Effects.prog], a tree of calls
      (MongoDB, clock, sleep, [uuid4], transactions, external services [E]).
      It is read in four ways: [wp] (every run, one program), [reach] and [cwp]
      (interleavings of a pool, with a ghost state per program), [guarded] (what
      every single call does, so under any interference), [runs]/[reaches] of
      [Trace.v] (histories, with no assumption at all on the answers).
      [MongoRef.run] executes the same tree.
    - Transactions: where the code keeps its state in [with_transaction], the
      store is a record of typed collections and a transaction one function of
      it, a [Transactions.stx], that commits or leaves the store alone; each
      starts by writing a document (the job, the admission guard, the fence) on
      which MongoDB makes concurrent ones conflict.  A step of a worker is a
      [Transactions.sact]: it visits the store several times, others commit
      between two visits, a visit may fail before or after its commit, and the
      driver may run a callback again.
    - MongoDB and the driver are outside the repository: [Mongo.mongo_spec] is
      their documented behaviour (queries, updates, upserts, unique indexes,
      and connections lost before or after a call took effect).  [MongoRef.v]
      has an executable server that satisfies it, on which witnesses run.
    - Other services are parameters of a program, each a type of calls with an
      [ExtSpec] of what is relied on: RabbitMQ ([Broker], [Webhooks]), Cloud KMS
      and ES256 ([Jwt], [Vault]), MercadoLibre over httpx ([Retry], [Refresh],
      [Proxy]), Cloud Run ([BootstrapDispatch]).  Hashes, ciphers, BSON
      bytes, [build_request], the local time zone and email date parsing are
      classes or arguments.

    ** Files and the code they model (under src/)

    - Foundations.  [Prelude] texts and automation; [PyVal], [PyDate], [PyDec],
      [PyRe], [Json], [Base64], [IpAddress] the parts of Python's
      language and library that the code uses; [Mongo], [MongoRef], [Effects],
      [Concurrency], [Trace], [Schema] the calculus above.
    - Events (core/.../events).  [Idempotency] the completed-event marker
      (idempotency.py); [Claims] the leases and the gates (claims.py,
      claim_gate.py); [ClaimsConcurrency] concurrent deliveries.
    - Modules.  [Broker] what the consumers share; [RepricerEngine] (engine.py),
      [RepricerConsumer] and [RepricerProofs] (modules/repricer/.../consumer.py);
      [AutoReply] (modules/autoreply/.../consumer.py).
    - Gateway.  [Jwt] (core/.../auth/jwt.py); [Vault]
      (tokens/encryption.py); [Refresh], [RefreshProofs] (tokens/refresh_worker.py);
      [RateLimit] (proxy/rate_limit.py); [Retry] (proxy/retry.py); [HistoryPlan]
      (core/.../history_onboarding.py), [HistoryWork], [HistorySpend]
      (core/.../history_work_intent.py), [HistorySend], [HistoryLedger], [Proxy],
      [ProxyProofs] (proxy/router.py); [TokenIssue], [TokenIssueProofs]
      (internal/router.py, core/.../auth/module_admin.py); [Webhooks],
      [WebhookProofs], [WebhookOnce] (webhooks/); [AccountEvents] (oauth/events.py).
    - Bootstrap.  [BootstrapDispatch], [BootstrapDispatchProofs] (dispatcher.py,
      accounts_consumer.py, cloud_run_jobs_client.py); [BootstrapState]
      (state_machine.py), [BootstrapRunner], [BootstrapProofs] (runner.py).
    - Sheets (modules/sheets).  [SyncJobs], [SyncJobsProofs] the sync jobs
      (sync_jobs.py).  The recovery queue (formulas/recovery.py):
      [RecoveryJobs] how an attempt finishes, the requests and their keys,
      [RecoveryQueue] admission and reports, [RecoveryWork] claims, leases and
      checkpoints; [RecoveryProofs] its calls and its invariant,
      [RecoveryClaims], [RecoveryTurns], [RecoveryDemo] the theorems.  The
      history acquisition: [HistoryModels] (core/.../models/sheets_history.py),
      [HistoryStore] (history_acquisition.py, history_continuation.py),
      [OrderRanges] (history_order_subdivision.py), [RangeStore]
      (history_range_store.py), [HistoryOrders] the producer
      (history_orders.py); [HistoryProofs] the calculus at this store,
      [HistorySteps] the reachable stores, [RangeProofs], [HistoryClaims],
      [RangeClaims] the theorems and a small acquisition for the witnesses.  The
      stock-time reconciliation (_stock_time_forward_engine.py): [StockTimePlan]
      the sealed plan of updates and tombstones, [StockTimeEngine] the
      collections and the forward run, [StockTimeRollback] the rollback and the
      callers of both; [StockTimeCalls] what each collection call does,
      [StockTimeForward] the forward steps, [StockTimeRestore],
      [StockTimeRoundTrip] their reversal, [StockTimeClaims] whole runs with lost
      replies and the theorems, [StockTimeDemo] a small run for the witnesses.
    - Returns (core/...).  [Certificates] the windows of a run
      (devoluciones_runs.py), the coverage certificates, their selection and the
      evidence of a run (devoluciones_certificates.py); [Devoluciones] the lease
      of an operation and its guarded writes (devoluciones_readiness.py), the
      stored runs and certificates, the marker transitions
      (read_model_freshness.py); [CoverageProofs], [DevolucionesProofs] how
      certificates cover and what every transaction keeps, [DevolucionesClaims]
      the theorems and a small seller for the witnesses.  Here the store is the
      whole database and a transaction a sequence of calls of [MongoRef]'s server.

    Definitions keep the names of the code; a long handler is cut into the
    definitions its phases suggest, composed as the handler composes them.
    Logging, metrics and tracing are left out everywhere.

    ** What the theorems show

    - Exclusion and exactly-once: two deliveries of an event never run its side
      effect together, nor again after one completed ([ClaimsConcurrency]); a
      notification is published at most once ([WebhookOnce]); work credit is
      spent once, all or nothing ([HistorySpend]); messages are settled once
      ([RepricerProofs], [AutoReply], [BootstrapDispatchProofs]).
    - Side effects that are the decided ones: the price posted is the one the
      engine decides for the item, rule, limits and allies as stored
      ([RepricerProofs]), the answer posted that of the first listed template
      that hits the resource fetched ([AutoReply]).
    - Refinement of abstract specifications: the marker and the lease
      ([Idempotency], [Claims]).
    - Invariants and bounds under interference: the job's lifecycle and retry
      budget ([BootstrapProofs]), the ledger of a plan ([HistoryLedger]), the
      requests of a window ([RateLimit]), the executions of a job
      ([BootstrapDispatchProofs]), the prices ([RepricerEngine]), the schema of
      stored notifications ([WebhookOnce]), the active jobs of a seller
      ([RecoveryClaims]).
    - Accounts of an acquisition: its counts are the receipts staged
      ([HistoryClaims]), its ranges tile the interval and a finished enumeration
      covers it ([RangeProofs], [RangeClaims]), a stale head or a lost lease
      writes nothing ([HistoryClaims], [RecoveryTurns]), the chunks of a catalog
      are decided in order, once each, however often they are retried
      ([RecoveryTurns]).  The operations are those of orders: another source
      moves its own heads.
    - Authority: what precedes every upstream request ([ProxyProofs]), every
      token handed out ([TokenIssueProofs]), every accepted token ([Jwt], whose
      segments and signed text are spelled out)
      and every announced account ([AccountEvents]).
    - Reconciliation that can be undone: a rollback that returns has restored
      every document the forward run changed, one that raises restores all or
      none of them, a run leaves whole steps of its plan behind however
      it is cut, a superseded attempt commits nothing and metrics that drifted
      since the plan was sealed survive ([StockTimeClaims]).
    - Coverage: the certificates chosen for an interval cover a prefix of it
      without a gap, as few as can be, and a certificate serves once made
      ([CoverageProofs]); a claim changed under the library's care is served by
      none, a superseded owner changes nothing, the library neither removes a
      certificate nor changes its evidence, and a run is walked window by window
      ([DevolucionesClaims]).  What the writers of the callers and the other
      workers may do is a hypothesis of each: they leave the operations, or the
      certificate in question, to the library.
    - Round trips and agreement: minted tokens verify, sealed tokens open
      ([Jwt], [Vault]), the Mongo query of the execution limit agrees with
      its Python check ([HistoryPlan]), gateway and history fence classify an
      event alike ([WebhookProofs]).
    - Progress and termination: a pass of the refresh worker decides every due
      account ([RefreshProofs]), a job run ends ([BootstrapProofs]), retries and
      waits end ([Retry], [ProxyProofs]), a claim ends ([RecoveryTurns]).
    - Some theorems state what the code does against its intention (a late
      update resets a rate window, a redelivery raises with a naive client, ...);
      they are findings of the modelling.

    ** Bounds and fuel

    Loops of the code become structural recursion where they have a bound of
    their own: the attempts of an acquisition, of a retry, of a stage list.
    Where they do not, fuel is the count the code cannot exceed, and a theorem
    says it is enough: [run_job] has the retry budget plus one
    ([run_job_completes]), the wait for a refresh 26 polls of 200 ms for its 5
    seconds ([refresh_wait_ends]), [Json.loads] the length of the text plus one
    ([loads_dumps]), a glob the length of its pattern ([glob_fuel]), a claim one
    more than the jobs stored ([claim_ends]), a selection one more than the
    certificates ([cover_spec]), a partition the ten-day rounds of its interval
    ([windows_tile]).  Integers
    are unbounded as in Python; what MongoDB stores is kept to 64 bits
    ([int64_ok]).

    ** Not modelled, and why

    Field declarations (pydantic models, generated schemas), process start-up,
    health checks and queue declarations have no logic of their own.  The stages
    of the bootstrap are programs with laws.  Of sheets, the formula handlers
    and their read models, the projections of the event consumer and the
    backfills are long field-by-field translations of MercadoLibre's payloads,
    whose reference would be the same code again; the worker loops around the
    modelled stores, the publication of acquired orders (which runs those
    projections), the artifact checks before a stock-time run and the Google and
    extension endpoints are left out with them, and so is the acquisition of
    questions (history_questions.py), which stages in the same collections and
    hands its heads over by its own rules.  Documents do not expire: the TTL
    indexes, as the 45 days of webhook_events, are not represented.  Left out as
    well are the CRUD APIs, the OAuth
    callback up to [emit_accounts_linked], the publicador (whose listings come
    from an AI service), the acquisition of returns and the replay tool.
    infra/ is operator tooling. *)

From Stdlib Require Export ZArith Lia Bool Ascii String.
From stdpp Require Export base gmap strings list fin_maps numbers pretty.

From Hammer Require Export Tactics.

#[global] Open Scope Z_scope.
#[export] Set Default Goal Selector "!".

(** Evaluation by the kernel alone. *)
Ltac by_vm := match goal with |- _ = ?x => vm_cast_no_check (eq_refl x) end.

(** The development's lemma databases: [pystr] rewrites string recognisers,
    [zeler] closes the routine goals of the components. *)
Create HintDb zeler.
Create Rewrite HintDb pystr.

(** ** Generic tactics *)

(** Case analysis on the innermost [match]/[if] of the goal, keeping equations. *)
Ltac case_goal :=
  match goal with
  | |- context [ match ?x with _ => _ end ] =>
      lazymatch x with
      | context [ match _ with _ => _ end ] => fail
      | _ => let E := fresh "E" in destruct x eqn:E
      end
  end.

Ltac case_hyp H :=
  match type of H with
  | context [ match ?x with _ => _ end ] =>
      lazymatch x with
      | context [ match _ with _ => _ end ] => fail
      | _ => let E := fresh "E" in destruct x eqn:E
      end
  end.

(** Turn the boolean tests of the code into propositions, in the hypotheses
    and in the goal. *)
Ltac bool_to_prop :=
  repeat match goal with
  | H : _ && _ = true |- _ => apply andb_true_iff in H; destruct H
  | H : _ || _ = false |- _ => apply orb_false_iff in H; destruct H
  | H : _ && _ = false |- _ => apply andb_false_iff in H
  | H : _ || _ = true |- _ => apply orb_true_iff in H
  | H : negb _ = true |- _ => apply negb_true_iff in H
  | H : negb _ = false |- _ => apply negb_false_iff in H
  | H : (_ <? _) = true |- _ => apply Z.ltb_lt in H
  | H : (_ <? _) = false |- _ => apply Z.ltb_ge in H
  | H : (_ <=? _) = true |- _ => apply Z.leb_le in H
  | H : (_ <=? _) = false |- _ => apply Z.leb_gt in H
  | H : (_ =? _) = true |- _ => apply Z.eqb_eq in H
  | H : (_ =? _) = false |- _ => apply Z.eqb_neq in H
  | H : String.eqb _ _ = true |- _ => apply String.eqb_eq in H
  | H : String.eqb _ _ = false |- _ => apply String.eqb_neq in H
  end.

(** ** Lists and options *)

Definition is_some {A} (o : option A) : bool :=
  match o with Some _ => true | None => false end.

Definition default_to {A} (d : A) (o : option A) : A :=
  match o with Some x => x | None => d end.

(** Python's [any(p(x) for x in l)] and [all(...)]. *)
Definition any {A} (p : A -> bool) (l : list A) : bool := existsb p l.
Definition all {A} (p : A -> bool) (l : list A) : bool := forallb p l.

Lemma any_true {A} (p : A -> bool) l :
  any p l = true <-> exists x, In x l /\ p x = true.
Proof. apply existsb_exists. Qed.

Lemma any_false {A} (p : A -> bool) l :
  any p l = false <-> forall x, In x l -> p x = false.
Proof.
  split.
  - intros H x Hx. destruct (p x) eqn:E; [|done].
    rewrite <- H. symmetry. apply any_true. eauto.
  - intros H. destruct (any p l) eqn:E; [|done].
    apply any_true in E as (x & Hx & Hp). rewrite (H x Hx) in Hp. done.
Qed.

Definition string_in (s : string) (l : list string) : bool :=
  existsb (String.eqb s) l.

Lemma string_in_iff s l : string_in s l = true <-> In s l.
Proof.
  unfold string_in. rewrite existsb_exists. split.
  - intros (x & Hx & He). apply String.eqb_eq in He. by subst.
  - intros H. exists s. split; [done|apply String.eqb_refl].
Qed.

Lemma string_in_false s l : string_in s l = false <-> ~ In s l.
Proof. rewrite <- string_in_iff. destruct (string_in s l); intuition congruence. Qed.

(** [dict.fromkeys(l)]: the first occurrence of each element, in order. *)
Fixpoint nub_from (seen l : list string) : list string :=
  match l with
  | [] => []
  | x :: xs => if string_in x seen then nub_from seen xs else x :: nub_from (x :: seen) xs
  end.
Definition fromkeys (l : list string) : list string := nub_from [] l.

(** ** Finite maps *)

Lemma map_fold_andb {A} (p : string -> A -> bool) (d : gmap string A) :
  map_fold (fun k x ok => ok && p k x) true d = true <->
  forall k x, d !! k = Some x -> p k x = true.
Proof.
  apply (map_fold_weak_ind (fun b d => b = true <-> forall k x, d !! k = Some x -> p k x = true)).
  - split; [|done]. intros _ k x. by rewrite lookup_empty.
  - intros k x d' b Hk IH. rewrite andb_true_iff, IH. split.
    + intros [H Hp] k' x'. destruct (decide (k = k')) as [->|Hne].
      * rewrite lookup_insert_eq. by intros [= ->].
      * rewrite lookup_insert_ne by done. apply H.
    + intros H. split.
      * intros k' x' Hk'. apply H. rewrite lookup_insert_ne; [done|congruence].
      * apply H. apply lookup_insert_eq.
Qed.

(** Two maps of one size are equal when the second extends the first. *)
Lemma map_eq_size {A} (d d' : gmap string A) :
  size d = size d' -> (forall k x, d !! k = Some x -> d' !! k = Some x) -> d = d'.
Proof.
  intros Hs H. apply map_subseteq_size_eq; [by apply map_subseteq_spec|lia].
Qed.

(** ** Python strings

    A [str] is a sequence of code points below 256 ([Ascii.ascii]): every
    string the modelled code compares or recognises is ASCII. *)

Fixpoint string_forallb (p : ascii -> bool) (s : string) : bool :=
  match s with
  | EmptyString => true
  | String c s => p c && string_forallb p s
  end.

Definition char_in (lo hi : nat) (c : ascii) : bool :=
  let n := nat_of_ascii c in Nat.leb lo n && Nat.leb n hi.
Definition is_digit (c : ascii) : bool := char_in 48 57 c.
Definition is_hex_lower (c : ascii) : bool := is_digit c || char_in 97 102 c.
(** [str.isspace] on the first 256 code points. *)
Definition is_space (c : ascii) : bool :=
  char_in 9 13 c || char_in 28 32 c || char_in 133 133 c || char_in 160 160 c.

Fixpoint lstrip (s : string) : string :=
  match s with
  | String c s' => if is_space c then lstrip s' else s
  | EmptyString => EmptyString
  end.
Fixpoint rstrip (s : string) : string :=
  match s with
  | EmptyString => EmptyString
  | String c s' =>
      match rstrip s' with
      | EmptyString => if is_space c then EmptyString else String c EmptyString
      | t => String c t
      end
  end.
(** [str.strip()]. *)
Definition strip (s : string) : string := rstrip (lstrip s).

Definition string_is_empty (s : string) : bool :=
  match s with EmptyString => true | _ => false end.
(** [not s.strip()]. *)
Definition blank (s : string) : bool := string_is_empty (strip s).

Definition lower_char (c : ascii) : ascii :=
  if char_in 65 90 c then ascii_of_nat (nat_of_ascii c + 32) else c.
Fixpoint lower (s : string) : string :=
  match s with
  | EmptyString => EmptyString
  | String c s => String (lower_char c) (lower s)
  end.

(** [s.startswith(p)] and [s.removeprefix(p)]. *)
Fixpoint strip_prefix (p s : string) : option string :=
  match p, s with
  | EmptyString, _ => Some s
  | String a p', String b s' => if Ascii.eqb a b then strip_prefix p' s' else None
  | String _ _, EmptyString => None
  end.
Definition startswith (p s : string) : bool := is_some (strip_prefix p s).

Fixpoint string_rev_app (s acc : string) : string :=
  match s with
  | EmptyString => acc
  | String c s => string_rev_app s (String c acc)
  end.
Definition string_rev (s : string) : string := string_rev_app s EmptyString.
(** [s.endswith(p)]. *)
Definition endswith (p s : string) : bool := startswith (string_rev p) (string_rev s).

(** [sub in s]. *)
Fixpoint contains (sub s : string) : bool :=
  startswith sub s || match s with EmptyString => false | String _ s' => contains sub s' end.

(** [s.split(sep)] for a one-character separator. *)
Fixpoint split_char (sep : ascii) (s : string) : list string :=
  match s with
  | EmptyString => [EmptyString]
  | String c s' =>
      if Ascii.eqb c sep then EmptyString :: split_char sep s'
      else match split_char sep s' with
           | w :: ws => String c w :: ws
           | [] => [String c EmptyString]
           end
  end.
(** [s.lstrip(c)]. *)
Fixpoint lstrip_char (c : ascii) (s : string) : string :=
  match s with
  | String d s' => if Ascii.eqb d c then lstrip_char c s' else s
  | EmptyString => EmptyString
  end.

Definition split_dots (s : string) : list string := split_char "."%char s.

(** [re.fullmatch(r"[0-9]+", s)]. *)
Definition digits1 (s : string) : bool :=
  negb (string_is_empty s) && string_forallb is_digit s.
(** [re.fullmatch(r"[a-f0-9]{32}", s)]. *)
Definition hex32 (s : string) : bool :=
  Nat.eqb (String.length s) 32 && string_forallb is_hex_lower s.

(** [int(s)] on a string of decimal digits. *)
Fixpoint decimal_value (acc : Z) (s : string) : Z :=
  match s with
  | EmptyString => acc
  | String c s => decimal_value (acc * 10 + (Z.of_nat (nat_of_ascii c) - 48)) s
  end.
Definition int_of_digits (s : string) : Z := decimal_value 0 s.

(** [str(z)] of an integer. *)
Definition str_of_Z (z : Z) : string := pretty z.

Lemma str_of_Z_inj a b : str_of_Z a = str_of_Z b -> a = b.
Proof. apply (inj pretty). Qed.

Lemma append_nil (s : string) : (EmptyString ++ s)%string = s.
Proof. reflexivity. Qed.
Lemma append_cons c (p s : string) : (String c p ++ s)%string = String c (p ++ s)%string.
Proof. reflexivity. Qed.

Lemma string_length_app (s t : string) :
  String.length (s ++ t)%string = (String.length s + String.length t)%nat.
Proof. induction s as [|c s IH]; [done|]. rewrite append_cons. simpl. by rewrite IH. Qed.

Lemma strip_prefix_app p s : strip_prefix p (p ++ s)%string = Some s.
Proof.
  induction p as [|c p IH]; [by destruct s|].
  rewrite append_cons. simpl. by rewrite Ascii.eqb_refl.
Qed.

Lemma strip_prefix_Some p s t : strip_prefix p s = Some t -> s = (p ++ t)%string.
Proof.
  revert s. induction p as [|a p IH]; intros s H.
  - rewrite append_nil. destruct s; simpl in H; congruence.
  - rewrite append_cons. destruct s as [|b s]; simpl in H; [done|].
    destruct (Ascii.eqb a b) eqn:E; [|done].
    apply Ascii.eqb_eq in E as ->. by rewrite (IH _ H).
Qed.

Lemma string_app_inj_l (p s t : string) : (p ++ s)%string = (p ++ t)%string -> s = t.
Proof. induction p as [|c p IH]; [done|]. rewrite !append_cons. intros [=]. auto. Qed.

(** Splitting at a separator. *)
Lemma split_char_here sep a b :
  string_forallb (fun c => negb (Ascii.eqb c sep)) a = true ->
  split_char sep (a ++ String sep b)%string = a :: split_char sep b.
Proof.
  induction a as [|c a IH]; intros Ha.
  - rewrite append_nil. simpl. by rewrite Ascii.eqb_refl.
  - rewrite append_cons. simpl in *. apply andb_true_iff in Ha as [Hc Ha]. apply negb_true_iff in Hc. by rewrite Hc, IH.
Qed.
Lemma split_char_none sep a :
  string_forallb (fun c => negb (Ascii.eqb c sep)) a = true -> split_char sep a = [a].
Proof.
  induction a as [|c a IH]; [done|]. simpl. intros Ha. apply andb_true_iff in Ha as [Hc Ha]. apply negb_true_iff in Hc.
  by rewrite Hc, IH.
Qed.

Lemma split_join c s : String.concat (String c EmptyString) (split_char c s) = s.
Proof.
  induction s as [|d s IH]; [done|]. simpl. destruct (Ascii.eqb_spec d c) as [->|Hne].
  - revert IH. destruct (split_char c s) as [|w ws] eqn:Hs; simpl; [by intros <-|]. by intros ->.
  - destruct (split_char c s) as [|w [|w' ws]]; simpl in *; by subst.
Qed.
#[export] Hint Rewrite String.eqb_refl strip_prefix_app : pystr.
