(* ===== verification/PyVal.v ===== *)
(** Python values and BSON documents.

    [val] is the type of the values that flow between the code and MongoDB;
    [doc] is a [dict] with string keys.  The file gives Python's equality,
    truthiness and [str], the exceptions ([exn], with the class hierarchy the
    handlers test by [isinstance]) and the [result] of a fallible operation. *)

From S2P Require Export Prelude.

(** ** Values *)

(** A [datetime] is an instant in microseconds since 1970-01-01T00:00 and a
    flag: aware values denote that UTC instant, naive values carry the wall
    clock reading only. *)
Inductive val : Set :=
| VNone
| VBool (b : bool)
| VInt (z : Z)
| VStr (s : string)
| VDate (aware : bool) (us : Z)
| VList (l : list val)
| VDict (d : gmap string val).

Abbreviation doc := (gmap string val).

(** [d.get(k)]: [None] when the key is absent. *)
Definition doc_get (d : doc) (k : string) : val := default_to VNone (d !! k).
(** [k in d]. *)
Definition has_key (d : doc) (k : string) : bool := is_some (d !! k).
(** [d.get(k, dflt)]. *)
Definition doc_get_or (d : doc) (k : string) (dflt : val) : val := default_to dflt (d !! k).
(** A dict display [{k1: v1, ...}]: a later binding of a key wins. *)
Definition mk_doc (kvs : list (string * val)) : doc :=
  foldl (fun d kv => <[kv.1 := kv.2]> d) ∅ kvs.
(** [{**d, k1: v1, ...}]. *)
Definition doc_update (d : doc) (kvs : list (string * val)) : doc :=
  foldl (fun d kv => <[kv.1 := kv.2]> d) d kvs.

(** ** Python equality

    [==] on these values: booleans are the integers 0 and 1, naive and aware
    datetimes never compare equal, dictionaries compare without order. *)
Definition as_int (v : val) : option Z :=
  match v with
  | VBool b => Some (Z.b2z b)
  | VInt z => Some z
  | _ => None
  end.

Fixpoint py_eq (a b : val) : bool :=
  match a, b with
  | VNone, VNone => true
  | (VBool _ | VInt _), (VBool _ | VInt _) =>
      match as_int a, as_int b with Some x, Some y => x =? y | _, _ => false end
  | VStr s, VStr t => String.eqb s t
  | VDate w x, VDate w' y => Bool.eqb w w' && (x =? y)
  | VList l, VList l' =>
      (fix eq_list l l' :=
         match l, l' with
         | [], [] => true
         | x :: xs, y :: ys => py_eq x y && eq_list xs ys
         | _, _ => false
         end) l l'
  | VDict d, VDict d' =>
      Nat.eqb (size d) (size d') &&
      map_fold (fun k x ok =>
        ok && match d' !! k with Some y => py_eq x y | None => false end) true d
  | _, _ => false
  end.

Lemma py_eq_str a s : py_eq a (VStr s) = true <-> a = VStr s.
Proof.
  split; [|intros ->; apply String.eqb_refl].
  destruct a; simpl; try done. intros H. apply String.eqb_eq in H. by subst.
Qed.

Lemma py_eq_none a : py_eq a VNone = true <-> a = VNone.
Proof. by destruct a. Qed.

(** Structural equality: BSON equality of two stored values (booleans are no
    integers there). *)
Fixpoint val_eqb (a b : val) : bool :=
  match a, b with
  | VNone, VNone => true
  | VBool x, VBool y => Bool.eqb x y
  | VInt x, VInt y => x =? y
  | VStr s, VStr t => String.eqb s t
  | VDate w x, VDate w' y => Bool.eqb w w' && (x =? y)
  | VList l, VList l' =>
      (fix eq_list l l' :=
         match l, l' with
         | [], [] => true
         | x :: xs, y :: ys => val_eqb x y && eq_list xs ys
         | _, _ => false
         end) l l'
  | VDict d, VDict d' =>
      Nat.eqb (size d) (size d') &&
      map_fold (fun k x ok =>
        ok && match d' !! k with Some y => val_eqb x y | None => false end) true d
  | _, _ => false
  end.

Fixpoint val_size (v : val) : nat :=
  match v with
  | VList l => S (foldr (fun x n => val_size x + n)%nat 0%nat l)
  | VDict d => S (map_fold (fun _ x n => val_size x + n)%nat 0%nat d)
  | _ => 1%nat
  end.

Lemma map_fold_sum_le (d : doc) k v :
  d !! k = Some v -> (val_size v <= map_fold (fun _ x n => val_size x + n) 0 d)%nat.
Proof.
  revert k v. apply (map_fold_weak_ind
    (fun n d => forall k v, d !! k = Some v -> (val_size v <= n)%nat)).
  - intros k v. by rewrite lookup_empty.
  - intros k x d' n Hk IH k' v. destruct (decide (k = k')) as [->|Hne].
    + rewrite lookup_insert_eq. intros [= ->]. lia.
    + rewrite lookup_insert_ne by done. intros H. specialize (IH _ _ H). lia.
Qed.

(** Induction on values through the lists and dictionaries they nest. *)
Lemma val_nested_ind (P : val -> Prop) :
  (forall v, match v with VList _ | VDict _ => False | _ => True end -> P v) ->
  (forall l, Forall P l -> P (VList l)) ->
  (forall d : doc, (forall k v, d !! k = Some v -> P v) -> P (VDict d)) ->
  forall v, P v.
Proof.
  intros Hbase Hlist Hdict v.
  remember (val_size v) as n eqn:Hn. revert v Hn.
  induction n as [n IH] using lt_wf_ind. intros v ->.
  destruct v; try (by apply Hbase).
  - apply Hlist. assert (Hl : forall x, x ∈ l -> (val_size x < val_size (VList l))%nat).
    { clear. simpl. induction l as [|y l IHl]; intros x Hx; [by apply not_elem_of_nil in Hx|].
      apply elem_of_cons in Hx as [->|Hx]; simpl; [lia|]. specialize (IHl _ Hx). lia. }
    apply Forall_forall. intros x Hx. by eapply IH; [apply Hl|].
  - apply Hdict. intros k v Hk. eapply IH; [|done]. simpl.
    pose proof (map_fold_sum_le _ _ _ Hk). lia.
Qed.

Lemma val_eqb_eq a b : val_eqb a b = true <-> a = b.
Proof.
  revert b. induction a as [a Ha|l IH|d IH] using val_nested_ind; intros b.
  - destruct a, b; simpl; try tauto; split; intros H; bool_to_prop; simplify_eq; try done;
      rewrite ?andb_true_iff; repeat split; rewrite ?eqb_reflx, ?Z.eqb_refl, ?String.eqb_refl; try done.
    all: try (apply eqb_prop in H; by subst). all: destruct aware, aware0; simpl in *; congruence.
  - destruct b; simpl; try done. revert l0. induction IH as [|x l Hx _ IHl]; intros [|y l0]; simpl; try done.
    specialize (IHl l0). rewrite andb_true_iff, Hx, IHl. split; [intros [-> [= ->]]|intros [= -> ->]]; done.
  - destruct b as [| | | | | |d']; simpl; try done.
    rewrite andb_true_iff, Nat.eqb_eq, map_fold_andb. split.
    + intros [Hs H]. f_equal. apply map_eq_size; [done|]. intros k x Hk.
      specialize (H k x Hk). case_hyp H; [|done]. by rewrite (IH _ _ Hk) in H; subst.
    + intros [= ->]. split; [done|]. intros k x Hk. rewrite Hk. by apply (IH _ _ Hk).
Qed.

#[export] Instance val_eq_dec : EqDecision val.
Proof. intros a b. destruct (val_eqb a b) eqn:E; [left|right]; rewrite <- val_eqb_eq; congruence. Defined.

Lemma val_eqb_refl a : val_eqb a a = true.
Proof. by apply val_eqb_eq. Qed.
Lemma val_eqb_neq a b : val_eqb a b = false <-> a <> b.
Proof. rewrite <- val_eqb_eq. destruct (val_eqb a b); intuition congruence. Qed.

(** Truth value testing. *)
Definition truthy (v : val) : bool :=
  match v with
  | VNone => false
  | VBool b => b
  | VInt z => negb (z =? 0)
  | VStr s => negb (string_is_empty s)
  | VDate _ _ => true
  | VList l => match l with [] => false | _ => true end
  | VDict d => negb (Nat.eqb (size d) 0)
  end.

(** [a or b]. *)
Definition py_or (a b : val) : val := if truthy a then a else b.

Definition is_none (v : val) : bool := match v with VNone => true | _ => false end.
Definition is_str (v : val) : bool := match v with VStr _ => true | _ => false end.
Definition is_dict (v : val) : bool := match v with VDict _ => true | _ => false end.
Definition is_list (v : val) : bool := match v with VList _ => true | _ => false end.
Definition is_date (v : val) : bool := match v with VDate _ _ => true | _ => false end.
(** [type(v) is int]: a [bool] is not an [int] here. *)
Definition is_exact_int (v : val) : bool := match v with VInt _ => true | _ => false end.
Definition is_exact_bool (v : val) : bool := match v with VBool _ => true | _ => false end.

Definition str_of (v : val) : option string := match v with VStr s => Some s | _ => None end.

(** [str(v)].  CPython's rendering of datetimes and containers is not needed
    by any modelled branch; it is a parameter. *)
Class PyRepr := repr_of : val -> string.

Definition py_str `{PyRepr} (v : val) : string :=
  match v with
  | VNone => "None"
  | VBool b => if b then "True" else "False"
  | VInt z => str_of_Z z
  | VStr s => s
  | _ => repr_of v
  end.

#[export] Hint Resolve String.eqb_refl : zeler.

(** ** Datetimes *)

(** [v.replace(tzinfo=UTC) if v.tzinfo is None else v.astimezone(UTC)]: the
    instant the value denotes once naive values are read as UTC. *)
Definition utc_instant (v : val) : option Z :=
  match v with VDate _ us => Some us | _ => None end.

Definition second : Z := 1000000.
Definition millisecond : Z := 1000.
Definition minute : Z := 60 * second.
Definition hour : Z := 60 * minute.
Definition day : Z := 24 * hour.

(** ** Exceptions *)

Record exn := Exn { exn_cls : string; exn_msg : string; exn_args : list val }.

(** The proper base classes of the exception classes the code raises or
    catches ([Exception] itself is implied). *)
Definition exn_bases (cls : string) : list string :=
  match cls with
  | "DuplicateKeyError" => ["WriteError"; "OperationFailure"; "PyMongoError"]
  | "WriteError" => ["OperationFailure"; "PyMongoError"]
  | "OperationFailure" => ["PyMongoError"]
  | "AutoReconnect" => ["ConnectionFailure"; "PyMongoError"]
  | "InvalidTransitionError" => ["ValueError"]
  | "IllegalTransition" => ["InvalidTransitionError"; "ValueError"]
  | "BootstrapTerminalFailure" => ["RuntimeError"]
  | "BootstrapPublishError" => ["RuntimeError"]
  | "UnknownWebhookTopicError" => ["ValueError"]
  | "HistoryWorkWaitError" => ["ValueError"]
  | "HistoryPolicyWaitError" => ["LocalQuotaTimeoutError"; "ValueError"]
  | "RunBindingDriftError" => ["ValueError"]
  | "ManifestConflictError" => ["ValueError"]
  | "SaturatedOrderHourError" => ["HistoryLimitError"; "ValueError"]
  | "RangeSourceDriftError" => ["HistoryConflictError"; "ValueError"]
  | "ValidationError" | "HistoryConflictError" | "HistoryLimitError" | "OrderEnumerationDriftError"
  | "RecoveryCapacityError" | "PublicadorBatchError" | "LegacyBatchContractError" | "CoverageUnavailableError" => ["ValueError"]
  | "DevolucionesLeaseConflictError" | "DevolucionesLeaseLostError" => ["RuntimeError"]
  | "ConnectError" | "ReadError" => ["NetworkError"; "TransportError"; "RequestError"; "HTTPError"]
  | "TimeoutException" => ["TransportError"; "RequestError"; "HTTPError"]
  | "TransportError" => ["RequestError"; "HTTPError"]
  | "JSONDecodeError" | "UnicodeDecodeError" | "UnicodeEncodeError" | "binascii.Error" => ["ValueError"]
  | "ExpiredJWTError" | "WrongAudienceError" => ["InvalidJWTError"]
  | "HTTPStatusError" => ["HTTPError"]
  | "WebhookPublishReturnedError" | "WebhookPublishRejectedError" => ["WebhookPublishError"; "RuntimeError"]
  | _ => []
  end%string.

Definition isinstance (e : exn) (cls : string) : bool :=
  String.eqb cls "Exception" || String.eqb cls (exn_cls e) || string_in cls (exn_bases (exn_cls e)).

Definition mk_exn (cls msg : string) : exn := Exn cls msg [].

(** ** Results *)

Inductive result (A : Type) : Type :=
| Ok (a : A)
| Err (e : exn).
Arguments Ok {A} a.
Arguments Err {A} e.

Definition result_bind {A B} (r : result A) (k : A -> result B) : result B :=
  match r with Ok a => k a | Err e => Err e end.

Declare Scope result_scope.
Delimit Scope result_scope with result.
Notation "'let!' x ':=' r 'in' k" := (result_bind r (fun x => k))
  (at level 10, x name, r at level 100, k at level 200) : result_scope.
Notation "'let!' ' p ':=' r 'in' k" := (result_bind r (fun p => k))
  (at level 10, p strict pattern, r at level 100, k at level 200) : result_scope.
Notation "'check!' b 'else' e 'in' k" := (if b then k else Err e)
  (at level 10, b at level 100, e at level 100, k at level 200) : result_scope.
Open Scope result_scope.

Definition raise_value {A} (msg : string) : result A := Err (mk_exn "ValueError" msg).
Definition raise_type {A} (msg : string) : result A := Err (mk_exn "TypeError" msg).
Definition raise_key {A} (k : string) : result A := Err (mk_exn "KeyError" k).

(** [d[k]]: [KeyError] when the key is absent. *)
Definition doc_at (d : doc) (k : string) : result val :=
  match d !! k with Some v => Ok v | None => raise_key k end.

(** Ordering of two datetimes, [TypeError] when one is naive and the other
    aware or when an operand is no datetime. *)
Definition date_gt (a b : val) : result bool :=
  match a, b with
  | VDate w x, VDate w' y =>
      if Bool.eqb w w' then Ok (y <? x)
      else raise_type "can't compare offset-naive and offset-aware datetimes"
  | _, _ => raise_type "'>' not supported"
  end.

(** A value used where the libraries require a text. *)
Definition as_text (v : val) : result string :=
  match v with VStr s => Ok s | _ => raise_type "a string is required" end.

(** The digits of an integer literal: single underscores may separate them. *)
Fixpoint int_digits (acc : Z) (after_digit : bool) (s : string) : option Z :=
  match s with
  | EmptyString => if after_digit then Some acc else None
  | String c s' =>
      if is_digit c then int_digits (acc * 10 + (Z.of_nat (nat_of_ascii c) - 48)) true s'
      else if Ascii.eqb c "_" && after_digit then int_digits acc false s'
      else None
  end.
Definition int_literal (s : string) : option Z :=
  match strip s with
  | String "-" u => option_map Z.opp (int_digits 0 false u)
  | String "+" u => int_digits 0 false u
  | u => int_digits 0 false u
  end.

(** [int(v)]. *)
Definition py_int (v : val) : result Z :=
  match v with
  | VInt z => Ok z
  | VBool b => Ok (Z.b2z b)
  | VStr s =>
      match int_literal s with
      | Some z => Ok z
      | None => raise_value "invalid literal for int()"
      end
  | _ => raise_type "int() argument must be a string or a number"
  end.

Lemma result_bind_Ok {A B} (r : result A) (k : A -> result B) b :
  result_bind r k = Ok b -> exists a, r = Ok a /\ k a = Ok b.
Proof. destruct r; simpl; [eauto|done]. Qed.

Ltac result_inv :=
  repeat match goal with
  | H : Ok _ = Ok _ |- _ => injection H as H; try subst
  | H : Err _ = Err _ |- _ => injection H as H; try subst
  | H : Ok _ = Err _ |- _ => discriminate H
  | H : Err _ = Ok _ |- _ => discriminate H
  | H : result_bind ?r _ = Ok _ |- _ =>
      let a := fresh "a" in let E := fresh "E" in
      apply result_bind_Ok in H as (a & E & H)
  end.

(** ** Dictionary lookups *)

Lemma doc_get_insert d k v : doc_get (<[k := v]> d) k = v.
Proof. unfold doc_get. by rewrite lookup_insert_eq. Qed.
Lemma doc_get_insert_ne d k k' v : k <> k' -> doc_get (<[k := v]> d) k' = doc_get d k'.
Proof. intros H. unfold doc_get. by rewrite lookup_insert_ne. Qed.
Lemma doc_get_lookup d k v : d !! k = Some v -> doc_get d k = v.
Proof. intros H. unfold doc_get. by rewrite H. Qed.

(** Evaluate the lookups of concrete keys in updated dictionaries. *)
Ltac doc_simp :=
  repeat first
    [ rewrite doc_get_insert
    | rewrite doc_get_insert_ne by discriminate
    | rewrite lookup_insert_eq
    | rewrite lookup_insert_ne by discriminate
    | rewrite lookup_empty ].
Ltac doc_simp_in H :=
  repeat first
    [ rewrite doc_get_insert in H
    | rewrite doc_get_insert_ne in H by discriminate
    | rewrite lookup_insert_eq in H
    | rewrite lookup_insert_ne in H by discriminate
    | rewrite lookup_empty in H ].
