(* ===== verification/Mongo.v ===== *)
(** MongoDB as the code sees it through motor.

    The server and its driver are not part of the repository.  This file states
    the documented behaviour the code relies on: the query language ([matches]),
    the update language ([apply_update]) and, for every driver call, the relation
    [mongo_spec] between the collections before the call, the collections after
    it and the response.  The relation is loose where the documentation is: any
    matching document may be chosen, a secondary unique index may refuse a
    write, a call may fail with a connection error whether or not its write was
    applied.  [MongoRef.v] gives an executable server that obeys it. *)

From S2P Require Export PyVal.
From Stdlib Require Export Sorted.

(** ** Stored values

    BSON dates carry milliseconds; a naive datetime is read as UTC.  The driver
    decodes dates as naive values unless the client was built with
    [tz_aware=True]. *)

Definition floor_ms (us : Z) : Z := us / millisecond * millisecond.
Lemma floor_ms_idem us : floor_ms (floor_ms us) = floor_ms us.
Proof. unfold floor_ms, millisecond. rewrite Z.div_mul; lia. Qed.
Lemma floor_ms_mono a b : a <= b -> floor_ms a <= floor_ms b.
Proof. intros Hab. unfold floor_ms, millisecond. apply Z.mul_le_mono_nonneg_r; [lia|]. apply Z.div_le_mono; lia. Qed.

Fixpoint bson_encode (v : val) : val :=
  match v with
  | VDate _ us => VDate true (floor_ms us)
  | VList l => VList (bson_encode <$> l)
  | VDict d => VDict (bson_encode <$> d)
  | _ => v
  end.

Fixpoint bson_decode (tz_aware : bool) (v : val) : val :=
  match v with
  | VDate _ us => VDate tz_aware us
  | VList l => VList (bson_decode tz_aware <$> l)
  | VDict d => VDict (bson_decode tz_aware <$> d)
  | _ => v
  end.

Definition encode_doc (d : doc) : doc := bson_encode <$> d.
Definition decode_doc (tz : bool) (d : doc) : doc := bson_decode tz <$> d.

(** ** Comparison order of BSON values

    Values of different types compare by type; inside a type by the key below.
    Arrays and documents of the modelled collections are never ordered: they
    share one key per type. *)

Definition char_code (c : ascii) : Z := Z.of_nat (nat_of_ascii c).
Fixpoint string_codes (s : string) : list Z :=
  match s with EmptyString => [] | String c s => char_code c :: string_codes s end.

Definition type_rank (v : val) : Z :=
  match v with
  | VNone => 0 | VInt _ => 1 | VStr _ => 2 | VDict _ => 3 | VList _ => 4
  | VBool _ => 5 | VDate _ _ => 6
  end.
Definition sort_key (v : val) : list Z :=
  type_rank v ::
  match v with
  | VInt z => [z]
  | VStr s => string_codes s
  | VBool b => [Z.b2z b]
  | VDate _ us => [us]
  | _ => []
  end.

Fixpoint lex_cmp (a b : list Z) : comparison :=
  match a, b with
  | [], [] => Eq
  | [], _ => Lt
  | _, [] => Gt
  | x :: a, y :: b => match x ?= y with Eq => lex_cmp a b | c => c end
  end.

Definition bson_cmp (a b : val) : comparison := lex_cmp (sort_key a) (sort_key b).

(** ** Query language *)

Abbreviation path := (list string).

(** The values a dotted path reaches: arrays on the way are traversed. *)
Fixpoint path_vals (p : path) (v : val) : list val :=
  match p with
  | [] => [v]
  | k :: p' =>
      let step x := match x with
                    | VDict d => match d !! k with Some y => path_vals p' y | None => [] end
                    | _ => []
                    end in
      match v with
      | VList l => concat (step <$> l)
      | _ => step v
      end
  end.

(** Aggregation expressions: [$field], literals, [$$NOW] and the operators used.
    A missing field is [None]. *)
Inductive aexpr :=
| AField (p : path)
| ALit (v : val)
| ANow
| AEq (a b : aexpr)
| ALt (a b : aexpr)
| ALte (a b : aexpr)
| AAdd (a b : aexpr)
| ADateAdd (a : aexpr) (seconds : Z)  (* $dateAdd *)
| AIfNull (a b : aexpr)
| ACond (c a b : aexpr)
| ARoot.

Fixpoint path_get (p : path) (v : val) : option val :=
  match p with
  | [] => Some v
  | k :: p' => match v with VDict d => match d !! k with Some x => path_get p' x | None => None end | _ => None end
  end.

Definition agg_true (v : option val) : bool :=
  match v with
  | None | Some VNone | Some (VBool false) => false
  | Some (VInt z) => negb (z =? 0)
  | Some _ => true
  end.

(** A missing operand sorts before every value. *)
Definition agg_cmp (a b : option val) : comparison :=
  match a, b with
  | None, None => Eq
  | None, Some _ => Lt
  | Some _, None => Gt
  | Some x, Some y => bson_cmp x y
  end.
Definition agg_eq (a b : option val) : bool :=
  match a, b with
  | None, None => true
  | Some x, Some y => val_eqb x y
  | _, _ => false
  end.

Fixpoint aeval (now : Z) (d : doc) (e : aexpr) : option val :=
  match e with
  | AField p => path_get p (VDict d)
  | ALit v => Some (bson_encode v)
  | ANow => Some (VDate true (floor_ms now))
  | AEq a b => Some (VBool (agg_eq (aeval now d a) (aeval now d b)))
  | ALt a b => Some (VBool match agg_cmp (aeval now d a) (aeval now d b) with Lt => true | _ => false end)
  | ALte a b => Some (VBool match agg_cmp (aeval now d a) (aeval now d b) with Gt => false | _ => true end)
  | AAdd a b =>
      match aeval now d a, aeval now d b with
      | Some (VInt x), Some (VInt y) => Some (VInt (x + y))
      | _, _ => Some VNone
      end
  | ADateAdd a n => match aeval now d a with Some (VDate aware us) => Some (VDate aware (us + n * second)) | _ => Some VNone end
  | AIfNull a b =>
      match aeval now d a with
      | None | Some VNone => aeval now d b
      | Some v => Some v
      end
  | ACond c a b => if agg_true (aeval now d c) then aeval now d a else aeval now d b
  | ARoot => Some (VDict d)
  end.

Inductive rel := RLt | RLte | RGt | RGte.

Inductive filter :=
| FEq (p : path) (v : val)            (* {p: v} *)
| FNe (p : path) (v : val)            (* {p: {$ne: v}} *)
| FIn (p : path) (vs : list val)      (* {p: {$in: vs}} *)
| FRel (r : rel) (p : path) (v : val) (* {p: {$lt: v}}, ... *)
| FExists (p : path) (b : bool)       (* {p: {$exists: b}} *)
| FTypeInt (p : path)                 (* {p: {$type: ["int", "long"]}} *)
| FAnd (fs : list filter)
| FOr (fs : list filter)
| FExpr (e : aexpr).                  (* {$expr: e} *)

(** A query value meets a stored value, or an element of a stored array. *)
Definition meets (test : val -> bool) (c : val) : bool :=
  test c || match c with VList l => existsb test l | _ => false end.

Definition rel_test (r : rel) (v c : val) : bool :=
  (type_rank c =? type_rank v) &&
  match r, bson_cmp c v with
  | RLt, Lt | RLte, (Lt | Eq) | RGt, Gt | RGte, (Gt | Eq) => true
  | _, _ => false
  end.

Definition is_nil {A} (l : list A) : bool := match l with [] => true | _ => false end.

(** [{p: v}]: [null] also meets a missing field. *)
Definition match_eq (d : doc) (p : path) (v : val) : bool :=
  let cs := path_vals p (VDict d) in
  existsb (meets (val_eqb (bson_encode v))) cs || (is_none v && is_nil cs).

Fixpoint matches (now : Z) (f : filter) (d : doc) : bool :=
  match f with
  | FEq p v => match_eq d p v
  | FNe p v => negb (match_eq d p v)
  | FIn p vs => existsb (match_eq d p) vs
  | FRel r p v => existsb (meets (rel_test r (bson_encode v))) (path_vals p (VDict d))
  | FExists p b => Bool.eqb b (negb (is_nil (path_vals p (VDict d))))
  | FTypeInt p => existsb (meets is_exact_int) (path_vals p (VDict d))
  | FAnd fs => forallb (fun f => matches now f d) fs
  | FOr fs => existsb (fun f => matches now f d) fs
  | FExpr e => agg_true (aeval now d e)
  end.

(** What a condition on a top-level field reads. *)
Lemma match_eq_same d d' k v : d' !! k = d !! k -> match_eq d' [k] v = match_eq d [k] v.
Proof. intros Hk. unfold match_eq. cbn. by rewrite Hk. Qed.

Lemma match_str d k a b : doc_get d k = VStr b -> match_eq d [k] (VStr a) = true -> a = b.
Proof.
  intros Hs Hm. unfold match_eq in Hm. cbn in Hm. unfold doc_get in Hs. destruct (d !! k) as [v|]; [|done].
  cbn in Hs. subst v. cbn in Hm. unfold meets in Hm. cbn in Hm. rewrite !orb_false_r in Hm. by apply String.eqb_eq in Hm.
Qed.

Lemma encode_doc_field d k : encode_doc d !! k = option_map bson_encode (d !! k).
Proof. unfold encode_doc. by rewrite lookup_fmap. Qed.

(** ** Update language *)

Inductive upd :=
| USet (p : path) (v : val)
| USetOnInsert (p : path) (v : val)
| UInc (p : path) (z : Z)
| UUnset (p : path)
| UMax (p : path) (v : val)
| UCurrentDate (p : path).

Inductive update :=
| UOps (ops : list upd)
| UPipe (stage : list (string * aexpr)). (* one [$set] stage on top-level fields *)

(** Change the value at a path.  Missing documents on the way are created; a
    path through any other value is an error. *)
Fixpoint path_alter (p : path) (f : option val -> option val) (d : doc) : option doc :=
  match p with
  | [] => None
  | [k] => match f (d !! k) with Some v => Some (<[k := v]> d) | None => None end
  | k :: p' =>
      match d !! k with
      | None => d' ← path_alter p' f ∅; Some (<[k := VDict d']> d)
      | Some (VDict sub) => d' ← path_alter p' f sub; Some (<[k := VDict d']> d)
      | Some _ => None
      end
  end.
Fixpoint path_unset (p : path) (d : doc) : doc :=
  match p with
  | [] => d
  | [k] => delete k d
  | k :: p' =>
      match d !! k with
      | Some (VDict sub) => <[k := VDict (path_unset p' sub)]> d
      | _ => d
      end
  end.

Definition int64_ok (z : Z) : bool := (- 2 ^ 63 <=? z) && (z <? 2 ^ 63).

Definition apply_upd (now : Z) (inserting : bool) (u : upd) (d : doc) : option doc :=
  match u with
  | USet p v => path_alter p (fun _ => Some (bson_encode v)) d
  | USetOnInsert p v =>
      if inserting then path_alter p (fun _ => Some (bson_encode v)) d else Some d
  | UInc p z =>
      path_alter p (fun o => match o with
                             | None => Some (VInt z)
                             | Some (VInt x) => if int64_ok (x + z) then Some (VInt (x + z)) else None
                             | Some _ => None
                             end) d
  | UUnset p => Some (path_unset p d)
  | UMax p v =>
      path_alter p (fun o => match o with
                             | None => Some (bson_encode v)
                             | Some x => Some match bson_cmp x (bson_encode v) with Lt => bson_encode v | _ => x end
                             end) d
  | UCurrentDate p => path_alter p (fun _ => Some (VDate true (floor_ms now))) d
  end.

Fixpoint apply_upds (now : Z) (inserting : bool) (us : list upd) (d : doc) : option doc :=
  match us with
  | [] => Some d
  | u :: us => d' ← apply_upd now inserting u d; apply_upds now inserting us d'
  end.

(** A [$set] stage evaluates every expression on the incoming document; a
    field whose expression is missing is left as it was. *)
Definition apply_stage (now : Z) (stage : list (string * aexpr)) (d : doc) : doc :=
  foldl (fun acc kv => match aeval now d kv.2 with Some v => <[kv.1 := v]> acc | None => acc end)
    d stage.

(** A stage leaves the fields it does not name. *)
Lemma apply_stage_other now stage (d : doc) k : forallb (fun kv => negb (String.eqb kv.1 k)) stage = true -> apply_stage now stage d !! k = d !! k.
Proof.
  unfold apply_stage. assert (Hfold : forall acc : doc, forallb (fun kv => negb (String.eqb kv.1 k)) stage = true ->
    foldl (fun acc kv => match aeval now d kv.2 with Some v => <[kv.1:=v]> acc | None => acc end) acc stage !! k = acc !! k); [|apply Hfold].
  induction stage as [|[k' e] stage IH]; intros acc Hs; cbn; [done|]. cbn in Hs. apply andb_true_iff in Hs as [Hk Hs]. rewrite IH by done.
  destruct (aeval now d e); [|done]. apply lookup_insert_ne. apply negb_true_iff in Hk. by apply String.eqb_neq.
Qed.

Definition apply_update (now : Z) (inserting : bool) (u : update) (d : doc) : option doc :=
  match u with
  | UOps us => apply_upds now inserting us d
  | UPipe stage => Some (apply_stage now stage d)
  end.

(** The document an upsert starts from: the equality conditions of the query. *)
Fixpoint eq_fields (f : filter) : list (path * val) :=
  match f with
  | FEq p v => [(p, v)]
  | FAnd fs => concat (eq_fields <$> fs)
  | _ => []
  end.
Definition upsert_seed (f : filter) : option doc :=
  foldl (fun acc pv => d ← acc; path_alter pv.1 (fun _ => Some (bson_encode pv.2)) d)
    (Some ∅) (eq_fields f).
Definition upsert_doc (now : Z) (f : filter) (u : update) : option doc :=
  d ← upsert_seed f; apply_update now true u d.

(** ** Collections

    Every modelled document has a string [_id]. *)

Abbreviation database := (gmap (string * string) doc).

Definition doc_id (d : doc) : option string :=
  match d !! "_id" with Some (VStr s) => Some s | _ => None end.

Abbreviation sort_spec := (list (path * bool)). (* [true]: ascending *)

Definition sort_val (p : path) (d : doc) : val := default_to VNone (path_get p (VDict d)).
Fixpoint doc_cmp (s : sort_spec) (a b : doc) : comparison :=
  match s with
  | [] => Eq
  | (p, asc) :: s' =>
      match bson_cmp (sort_val p a) (sort_val p b) with
      | Eq => doc_cmp s' a b
      | c => if asc then c else CompOpp c
      end
  end.
Definition doc_le (s : sort_spec) (a b : doc) : bool :=
  match doc_cmp s a b with Gt => false | _ => true end.

Record update_result := UpdateResult { matched_count : Z; modified_count : Z; did_upsert : bool }.

(** ** Driver calls *)

Inductive mongo_op : Type -> Type :=
| MFindOne (c : string) (f : filter) (s : sort_spec) : mongo_op (option doc)
| MFind (c : string) (f : filter) (s : sort_spec) : mongo_op (list doc)
| MCount (c : string) (f : filter) : mongo_op Z
| MInsertOne (c : string) (d : doc) : mongo_op unit
| MUpdateOne (c : string) (f : filter) (u : update) (upsert : bool) : mongo_op update_result
| MUpdateMany (c : string) (f : filter) (u : update) : mongo_op update_result
| MFindOneAndUpdate (c : string) (f : filter) (u : update) (upsert after : bool) : mongo_op (option doc)
| MReplaceOne (c : string) (f : filter) (d : doc) (upsert : bool) : mongo_op update_result
| MDeleteOne (c : string) (f : filter) : mongo_op Z.

(** The collection a call addresses. *)
Definition collection_of {X : Type} (m : mongo_op X) : string :=
  match m with
  | MFindOne c _ _ | MFind c _ _ | MCount c _ | MInsertOne c _ | MUpdateOne c _ _ _ | MUpdateMany c _ _
  | MFindOneAndUpdate c _ _ _ _ | MReplaceOne c _ _ _ | MDeleteOne c _ => c
  end.

Definition duplicate_key {A} : result A := Err (mk_exn "DuplicateKeyError" "E11000 duplicate key error").
Definition write_error {A} : result A := Err (mk_exn "WriteError" "write rejected").
Definition auto_reconnect {A} : result A := Err (mk_exn "AutoReconnect" "connection closed").

(** What the deployment fixes: whether the client decodes aware datetimes, and
    the secondary unique indexes ([unique_ok db c i d]: the document [d] may
    take the place of document [i] of collection [c]). *)
Class MongoConf := {
  tz_aware : bool;
  unique_ok : database -> string -> string -> doc -> bool;
}.

Section Spec.
Context `{MongoConf}.
Variable now : Z.

Definition selected (db : database) (c : string) (f : filter) (i : string) (d : doc) : Prop :=
  db !! (c, i) = Some d /\ matches now f d = true.
Definition none_selected (db : database) (c : string) (f : filter) : Prop :=
  forall i d, db !! (c, i) = Some d -> matches now f d = false.

(** Writing [d'] over (or as) document [i]. *)
Definition stores {X : Type} (db : database) (c i : string) (d' : doc) (x : X)
    (db' : database) (r : result X) : Prop :=
  if unique_ok db c i d' then db' = <[(c, i) := d']> db /\ r = Ok x
  else db' = db /\ r = duplicate_key.

(** An update of the selected document: [_id] is immutable. *)
Definition updates {X : Type} (db : database) (c i : string) (d : doc) (u : update)
    (x : doc -> X) (db' : database) (r : result X) : Prop :=
  match apply_update now false u d with
  | Some d' =>
      if decide (d' !! "_id" = d !! "_id") then stores db c i d' (x d') db' r
      else db' = db /\ r = write_error
  | None => db' = db /\ r = write_error
  end.

(** An insertion: the [_id] index is unique. *)
Definition inserts {X : Type} (db : database) (c : string) (d : option doc)
    (x : doc -> X) (db' : database) (r : result X) : Prop :=
  match d with
  | None => db' = db /\ r = write_error
  | Some d =>
      match doc_id d with
      | None => exists i, db !! (c, i) = None /\
          stores db c i (<["_id" := VStr i]> d) (x (<["_id" := VStr i]> d)) db' r
      | Some i =>
          if is_some (db !! (c, i)) then db' = db /\ r = duplicate_key
          else stores db c i d (x d) db' r
      end
  end.

Definition dec (d : doc) : doc := decode_doc tz_aware d.

(** The calls that reach the server and come back. *)
Definition mongo_ok {X : Type} (m : mongo_op X) : database -> database -> result X -> Prop :=
  match m in mongo_op X return database -> database -> result X -> Prop with
  | MFindOne c f s => fun db db' r =>
      db' = db /\
      ((none_selected db c f /\ r = Ok None) \/
       (exists i d, selected db c f i d /\
          (forall j e, selected db c f j e -> doc_le s d e = true) /\ r = Ok (Some (dec d))))
  | MFind c f s => fun db db' r =>
      db' = db /\ exists ds,
        (forall d, d ∈ ds <-> exists i, selected db c f i d) /\
        StronglySorted (fun a b => doc_le s a b = true) ds /\ r = Ok (dec <$> ds)
  | MCount c f => fun db db' r =>
      db' = db /\ exists is_ : list string,
        NoDup is_ /\ (forall i, i ∈ is_ <-> exists d, selected db c f i d) /\
        r = Ok (Z.of_nat (length is_))
  | MInsertOne c d => fun db db' r => inserts db c (Some (encode_doc d)) (fun _ => tt) db' r
  | MUpdateOne c f u upsert => fun db db' r =>
      (exists i d, selected db c f i d /\
         updates db c i d u (fun d' => UpdateResult 1 (if decide (d' = d) then 0 else 1) false) db' r) \/
      (none_selected db c f /\
         if upsert then inserts db c (upsert_doc now f u) (fun _ => UpdateResult 0 0 true) db' r
         else db' = db /\ r = Ok (UpdateResult 0 0 false))
  | MUpdateMany c f u => fun db db' r =>
      (exists n m, r = Ok (UpdateResult n m false) /\ 0 <= m <= n /\
         (m = 0 <-> db' = db) /\
         (forall c' i, c' <> c -> db' !! (c', i) = db !! (c', i)) /\
         (forall i, match db !! (c, i) with
                    | Some d => if matches now f d
                                then exists d', apply_update now false u d = Some d' /\ db' !! (c, i) = Some d'
                                else db' !! (c, i) = Some d
                    | None => db' !! (c, i) = None
                    end)) \/
      ((exists i d, selected db c f i d /\ apply_update now false u d = None) /\
         db' = db /\ r = write_error)
  | MFindOneAndUpdate c f u upsert after => fun db db' r =>
      (exists i d, selected db c f i d /\
         updates db c i d u (fun d' => Some (dec (if after then d' else d))) db' r) \/
      (none_selected db c f /\
         if upsert then inserts db c (upsert_doc now f u)
                          (fun d' => if after then Some (dec d') else None) db' r
         else db' = db /\ r = Ok None)
  | MReplaceOne c f d upsert => fun db db' r =>
      (exists i d0, selected db c f i d0 /\
         stores db c i (<["_id" := VStr i]> (encode_doc d)) (UpdateResult 1 1 false) db' r) \/
      (none_selected db c f /\
         if upsert then inserts db c (Some (encode_doc d)) (fun _ => UpdateResult 0 0 true) db' r
         else db' = db /\ r = Ok (UpdateResult 0 0 false))
  | MDeleteOne c f => fun db db' r =>
      (exists i d, selected db c f i d /\ db' = delete (c, i) db /\ r = Ok 1) \/
      (none_selected db c f /\ db' = db /\ r = Ok 0)
  end.

(** A call may also lose its connection, before or after it took effect. *)
Definition mongo_spec {X : Type} (m : mongo_op X) (db db' : database) (r : result X) : Prop :=
  mongo_ok m db db' r \/
  (r = auto_reconnect /\ (db' = db \/ exists r', mongo_ok m db db' r')).

(** The other collections are not touched. *)
Lemma stores_frame {X} db c i d' (x : X) db' r c' j :
  stores db c i d' x db' r -> c <> c' -> db' !! (c', j) = db !! (c', j).
Proof. unfold stores. destruct (unique_ok _ _ _ _); intros [-> _] Hc; [|done]. rewrite lookup_insert_ne; congruence. Qed.
Lemma updates_frame {X} db c i d u (x : doc -> X) db' r c' j :
  updates db c i d u x db' r -> c <> c' -> db' !! (c', j) = db !! (c', j).
Proof.
  unfold updates. intros Hu Hc. repeat case_match; try (by destruct Hu as [-> _]); (eapply stores_frame; eassumption).
Qed.
Lemma inserts_frame {X} db c d (x : doc -> X) db' r c' j :
  inserts db c d x db' r -> c <> c' -> db' !! (c', j) = db !! (c', j).
Proof.
  unfold inserts. intros Hu Hc. repeat case_match; try (by destruct Hu as [-> _]); try (eapply stores_frame; eassumption).
  destruct Hu as (i & _ & Hu). (eapply stores_frame; eassumption).
Qed.
Lemma mongo_spec_frame {X} (m : mongo_op X) db db' r c' j :
  mongo_spec m db db' r -> collection_of m <> c' -> db' !! (c', j) = db !! (c', j).
Proof.
  assert (Hok : forall r, mongo_ok m db db' r -> collection_of m <> c' -> db' !! (c', j) = db !! (c', j)).
  { clear r. intros r. destruct m; cbn [mongo_ok collection_of]; intros Hm Hc.
    - by destruct Hm as [-> _].
    - by destruct Hm as [-> _].
    - by destruct Hm as [-> _].
    - (eapply inserts_frame; eassumption).
    - destruct Hm as [(i & d & _ & Hm)|[_ Hm]]; [(eapply updates_frame; eassumption)|].
      destruct upsert; [(eapply inserts_frame; eassumption)|by destruct Hm as [-> _]].
    - destruct Hm as [(n & k & _ & _ & _ & Hf & _)|(_ & -> & _)]; [|done]. apply Hf. congruence.
    - destruct Hm as [(i & d & _ & Hm)|[_ Hm]]; [(eapply updates_frame; eassumption)|].
      destruct upsert; [(eapply inserts_frame; eassumption)|by destruct Hm as [-> _]].
    - destruct Hm as [(i & d0 & _ & Hm)|[_ Hm]]; [(eapply stores_frame; eassumption)|].
      destruct upsert; [(eapply inserts_frame; eassumption)|by destruct Hm as [-> _]].
    - destruct Hm as [(i & d & _ & -> & _)|(_ & -> & _)]; [|done]. rewrite lookup_delete_ne; congruence. }
  intros [Hm|[_ [->|[r' Hm]]]]; eauto.
Qed.
End Spec.
