(* ===== verification/Effects.v ===== *)
(** Effectful programs and their specification.

    An [async] function is a [prog]: a tree whose nodes are the calls that
    leave the process (MongoDB, the clock, [uuid4], [asyncio.sleep], external
    services) and whose leaves return or raise.  Loops of the code are bounded,
    so the trees are finite.  The same tree is given three readings:
    - [wp]: what holds after every possible run ([op_spec] says which responses
      each call may give), with its structural rules;
    - [pstep] / [pool_step]: one call at a time, interleaved with other programs;
    - [run]: execution against concrete handlers (in [MongoRef.v]). *)

From S2P Require Export Mongo.

(** ** Programs *)

Inductive tx_op := TxBegin | TxCommit | TxAbort.

Inductive op (E : Type -> Type) : Type -> Type :=
| OMongo {X} (m : mongo_op X) : op E X
| ONow : op E Z
| OSleep (us : Z) : op E unit
| OUuid : op E string
| OTx (t : tx_op) : op E unit
| OExt {X} (e : E X) : op E X.
Arguments OMongo {E X} m.
Arguments ONow {E}.
Arguments OSleep {E} us.
Arguments OUuid {E}.
Arguments OTx {E} t.
Arguments OExt {E X} e.

Inductive prog (E : Type -> Type) (A : Type) : Type :=
| Ret (a : A)
| Raise (e : exn)
| Vis {X} (o : op E X) (k : result X -> prog E A).
Arguments Ret {E A} a.
Arguments Raise {E A} e.
Arguments Vis {E A X} o k.

Fixpoint bind {E A B} (p : prog E A) (k : A -> prog E B) : prog E B :=
  match p with
  | Ret a => k a
  | Raise e => Raise e
  | Vis o h => Vis o (fun r => bind (h r) k)
  end.

(** [try: p except Exception as e: h(e)]; a handler re-raises what it does not
    catch. *)
Fixpoint catch {E A} (p : prog E A) (h : exn -> prog E A) : prog E A :=
  match p with
  | Ret a => Ret a
  | Raise e => h e
  | Vis o k => Vis o (fun r => catch (k r) h)
  end.

(** The outcome of [p] as a value. *)
Fixpoint attempt {E A} (p : prog E A) : prog E (result A) :=
  match p with
  | Ret a => Ret (Ok a)
  | Raise e => Ret (Err e)
  | Vis o k => Vis o (fun r => attempt (k r))
  end.

Definition perform {E X} (o : op E X) : prog E X :=
  Vis o (fun r => match r with Ok x => Ret x | Err e => Raise e end).

Definition of_result {E A} (r : result A) : prog E A :=
  match r with Ok a => Ret a | Err e => Raise e end.

Definition mongo {E X} (m : mongo_op X) : prog E X := perform (OMongo m).
Definition now_utc {E} : prog E Z := perform ONow.
Definition sleep {E} (us : Z) : prog E unit := perform (OSleep us).
Definition uuid4_hex {E} : prog E string := perform OUuid.
Definition ext {E : Type -> Type} {X} (e : E X) : prog E X := perform (OExt e).

Declare Scope prog_scope.
Delimit Scope prog_scope with prog.
Notation "'let*' x ':=' p 'in' k" := (bind p (fun x => k))
  (at level 10, x name, p at level 100, k at level 200) : prog_scope.
Notation "'let*' ' x ':=' p 'in' k" := (bind p (fun x => k))
  (at level 10, x strict pattern, p at level 100, k at level 200) : prog_scope.
Notation "'do*' p 'in' k" := (bind p (fun _ => k))
  (at level 10, p at level 100, k at level 200) : prog_scope.
Open Scope prog_scope.

(** [async with session.start_transaction(): p]: the writes of [p] commit
    together, or not at all when [p] raises.  A commit can lose its reply: it
    then raises, with the writes kept or dropped. *)
Definition transaction {E A} (p : prog E A) : prog E A :=
  do* perform (OTx TxBegin) in
  let* r := attempt p in
  match r with
  | Ok a => do* perform (OTx TxCommit) in Ret a
  | Err e => do* perform (OTx TxAbort) in Raise e
  end.

(** ** Worlds and responses *)

Record world (S : Type) := World {
  w_db : database;
  w_now : Z;
  w_snap : option database; (* the snapshot of the open transaction *)
  w_ext : S;
}.
Arguments World {S} _ _ _ _.
Arguments w_db {S} _.
Arguments w_now {S} _.
Arguments w_snap {S} _.
Arguments w_ext {S} _.

(** The external services a component calls: their state and responses. *)
Class ExtSpec (E : Type -> Type) (S : Type) :=
  ext_spec : forall X, E X -> S -> S -> result X -> Prop.
Arguments ext_spec {E S _} X _ _ _ _.

(** No external service. *)
Inductive noE : Type -> Type := .
#[export] Instance noE_spec : ExtSpec noE unit := fun X e => match e with end.

Section Spec.
Context {E : Type -> Type} {S : Type} `{MongoConf} `{ExtSpec E S}.

Definition same_but_time (w w' : world S) : Prop :=
  w_db w' = w_db w /\ w_snap w' = w_snap w /\ w_ext w' = w_ext w /\ w_now w <= w_now w'.

(** The clock never runs backwards; it may advance during any call. *)
Definition op_spec {X} (o : op E X) (w w' : world S) : result X -> Prop :=
  match o in op _ X return result X -> Prop with
  | OMongo m => fun r =>
      mongo_spec (w_now w') m (w_db w) (w_db w') r /\
      w_snap w' = w_snap w /\ w_ext w' = w_ext w /\ w_now w <= w_now w'
  | ONow => fun r => same_but_time w w' /\ r = Ok (w_now w')
  | OSleep us => fun r => same_but_time w w' /\ w_now w + us <= w_now w' /\ r = Ok tt
  | OUuid => fun r => same_but_time w w' /\ exists s, hex32 s = true /\ r = Ok s
  | OTx t => fun r =>
      w_ext w' = w_ext w /\ w_now w <= w_now w' /\
      match t with
      | TxBegin => w_db w' = w_db w /\ w_snap w' = Some (w_db w) /\ r = Ok tt
      | TxAbort => w_db w' = default (w_db w) (w_snap w) /\ w_snap w' = None /\ r = Ok tt
      | TxCommit =>
          w_snap w' = None /\
          ((w_db w' = w_db w /\ (r = Ok tt \/ r = auto_reconnect)) \/
           (w_db w' = default (w_db w) (w_snap w) /\
            (r = Err (mk_exn "OperationFailure" "WriteConflict") \/ r = auto_reconnect)))
      end
  | OExt e => fun r =>
      ext_spec _ e (w_ext w) (w_ext w') r /\
      w_db w' = w_db w /\ w_snap w' = w_snap w /\ w_now w <= w_now w'
  end.

(** [wp p Q w]: every run of [p] from [w] ends, in a state and with an
    outcome that satisfy [Q]. *)
Fixpoint wp {A} (p : prog E A) (Q : world S -> result A -> Prop) (w : world S) : Prop :=
  match p with
  | Ret a => Q w (Ok a)
  | Raise e => Q w (Err e)
  | Vis o k => forall w' r, op_spec o w w' r -> wp (k r) Q w'
  end.

Lemma wp_mono {A} (p : prog E A) (Q R : world S -> result A -> Prop) w :
  wp p Q w -> (forall w' r, Q w' r -> R w' r) -> wp p R w.
Proof.
  revert w. induction p as [a|e|X o k IH]; simpl; intros w Hp Himp; [by apply Himp..|].
  intros w' r Hr. eapply IH; eauto.
Qed.

Lemma wp_and {A} (p : prog E A) (Q R : world S -> result A -> Prop) w :
  wp p Q w -> wp p R w -> wp p (fun w r => Q w r /\ R w r) w.
Proof. revert w. induction p as [a|e|X o k IH]; simpl; intros w HQ HR; eauto. Qed.

Lemma wp_bind {A B} (p : prog E A) (k : A -> prog E B) Q w :
  wp (bind p k) Q w <->
  wp p (fun w' r => match r with Ok a => wp (k a) Q w' | Err e => Q w' (Err e) end) w.
Proof.
  revert w. induction p as [a|e|X o h IH]; simpl; intros w; [done..|].
  split; intros Hw w' r Hr; apply IH; eauto.
Qed.

Lemma wp_catch {A} (p : prog E A) (h : exn -> prog E A) Q w :
  wp (catch p h) Q w <->
  wp p (fun w' r => match r with Ok a => Q w' (Ok a) | Err e => wp (h e) Q w' end) w.
Proof.
  revert w. induction p as [a|e|X o k IH]; simpl; intros w; [done..|].
  split; intros Hw w' r Hr; apply IH; eauto.
Qed.

Lemma wp_attempt {A} (p : prog E A) Q w :
  wp (attempt p) Q w <-> wp p (fun w' r => Q w' (Ok r)) w.
Proof.
  revert w. induction p as [a|e|X o k IH]; simpl; intros w; [done..|].
  split; intros Hw w' r Hr; apply IH; eauto.
Qed.

Lemma wp_perform {X} (o : op E X) Q w :
  (forall w' r, op_spec o w w' r -> Q w' r) -> wp (perform o) Q w.
Proof. intros Hq w' r Hr. specialize (Hq w' r Hr). by destruct r. Qed.

Lemma wp_of_result {A} (r : result A) Q w : Q w r -> wp (of_result r) Q w.
Proof. by destruct r. Qed.

(** *** Interleaving *)

(** One call of one program. *)
Definition pstep {A} (p : prog E A) (w : world S) (p' : prog E A) (w' : world S) : Prop :=
  match p with
  | Vis o k => exists r, op_spec o w w' r /\ p' = k r
  | _ => False
  end.

Definition pool_step {A} (ps : list (prog E A)) (w : world S)
    (ps' : list (prog E A)) (w' : world S) : Prop :=
  exists i p p', ps !! i = Some p /\ pstep p w p' w' /\ ps' = <[i := p']> ps.
End Spec.

(** ** Rules for the frequent calls *)

Section Rules.
Context {E : Type -> Type} {S : Type} `{MongoConf} `{ExtSpec E S}.
Implicit Types w : world S.

Lemma wp_now {B} (k : Z -> prog E B) Q w :
  (forall w', same_but_time w w' -> wp (k (w_now w')) Q w') ->
  wp (bind now_utc k) Q w.
Proof. intros Hk. apply wp_bind, wp_perform. intros w' r [Hs ->]. by apply Hk. Qed.

Lemma wp_sleep {B} us (k : unit -> prog E B) Q w :
  (forall w', same_but_time w w' -> w_now w + us <= w_now w' -> wp (k tt) Q w') ->
  wp (bind (sleep us) k) Q w.
Proof. intros Hk. apply wp_bind, wp_perform. intros w' r (Hs & Ht & ->). by apply Hk. Qed.

Lemma wp_uuid {B} (k : string -> prog E B) Q w :
  (forall w' s, same_but_time w w' -> hex32 s = true -> wp (k s) Q w') ->
  wp (bind uuid4_hex k) Q w.
Proof. intros Hk. apply wp_bind, wp_perform. intros w' r (Hs & s & Hh & ->). by apply Hk. Qed.
End Rules.

Section MongoRules.
Context {E : Type -> Type} {S : Type} `{MongoConf} `{ExtSpec E S}.
Implicit Types w : world S.

(** Everything but the collections is as before, and time went on. *)
Definition db_step w w' : Prop :=
  w_snap w' = w_snap w /\ w_ext w' = w_ext w /\ w_now w <= w_now w'.

Lemma same_but_time_db w w' : same_but_time w w' <-> w_db w' = w_db w /\ db_step w w'.
Proof. unfold same_but_time, db_step. tauto. Qed.
Lemma same_but_time_refl w : same_but_time w w.
Proof. repeat split; lia. Qed.
Lemma same_but_time_trans w w' w'' :
  same_but_time w w' -> same_but_time w' w'' -> same_but_time w w''.
Proof. intros (? & ? & ? & ?) (? & ? & ? & ?). repeat split; congruence || lia. Qed.

(** A driver call comes back, or loses its connection. *)
Lemma wp_mongo {X B : Type} (m : mongo_op X) (k : X -> prog E B) Q w :
  (forall w' r, mongo_ok (w_now w') m (w_db w) (w_db w') r -> db_step w w' ->
    match r with Ok x => wp (k x) Q w' | Err e => Q w' (Err e) end) ->
  (forall w', db_step w w' ->
    w_db w' = w_db w \/ (exists r, mongo_ok (w_now w') m (w_db w) (w_db w') r) ->
    Q w' auto_reconnect) ->
  wp (bind (mongo m) k) Q w.
Proof.
  intros Hok Hlost. apply wp_bind, wp_perform. intros w' r ([Hm|[-> Hm]] & Hs & He & Ht).
  - by apply Hok.
  - by apply Hlost.
Qed.
End MongoRules.

(** *** Documents addressed by their [_id] *)

(** Every stored document carries the [_id] it is stored under. *)
Definition db_wf (db : database) : Prop :=
  forall c i d, db !! (c, i) = Some d -> doc_id d = Some i.

Definition db_wfb (db : database) : bool :=
  forallb (fun x : (string * string) * doc =>
    match doc_id x.2 with Some i => String.eqb i x.1.2 | None => false end) (map_to_list db).
Lemma db_wfb_ok db : db_wfb db = true -> db_wf db.
Proof.
  unfold db_wfb. rewrite forallb_forall. intros Hall c i d Hd.
  specialize (Hall ((c, i), d)). rewrite <- list_elem_of_In, elem_of_map_to_list in Hall.
  specialize (Hall Hd). simpl in Hall. destruct (doc_id d) as [j|]; [|done].
  by apply String.eqb_eq in Hall as ->.
Qed.

(** A query that pins [_id]. *)
Definition keyed (f : filter) (i : string) : Prop :=
  forall now d, matches now f d = true -> forall j, doc_id d = Some j -> j = i.

(** The document of [_id] [i] when the query selects it. *)
Definition at_id (now : Z) (db : database) (c i : string) (f : filter) : option doc :=
  match db !! (c, i) with
  | Some d => if matches now f d then Some d else None
  | None => None
  end.

Lemma match_eq_id d i j : doc_id d = Some j -> match_eq d ["_id"%string] (VStr i) = true -> j = i.
Proof.
  unfold doc_id, match_eq. simpl. destruct (d !! "_id"%string) as [v|]; [|done].
  destruct v; try done. intros [= ->]. unfold meets. simpl. rewrite !orb_false_r.
  intros Hq. by apply String.eqb_eq in Hq.
Qed.

Lemma keyed_id i : keyed (FEq ["_id"%string] (VStr i)) i.
Proof. intros now d Hm j Hj. by eapply match_eq_id. Qed.

Lemma keyed_and i fs : keyed (FAnd (FEq ["_id"%string] (VStr i) :: fs)) i.
Proof.
  intros now d Hm j Hj. simpl in Hm. apply andb_true_iff in Hm as [Hm _]. by eapply match_eq_id.
Qed.
#[export] Hint Resolve keyed_id keyed_and : zeler.

Section Keyed.
Context `{MongoConf}.

Lemma selected_keyed now db c f i j d :
  db_wf db -> keyed f i -> selected now db c f j d <-> (j = i /\ at_id now db c i f = Some d).
Proof.
  intros Hwf Hk. unfold selected, at_id. split.
  - intros [Hd Hm]. assert (j = i) as -> by (eapply Hk; eauto). by rewrite Hd, Hm.
  - intros [-> Ha]. destruct (db !! (c, i)) as [e|] eqn:Hd; [|done].
    destruct (matches now f e) eqn:Hm; [|done]. injection Ha as ->. done.
Qed.

Lemma none_selected_keyed now db c f i :
  db_wf db -> keyed f i -> none_selected now db c f <-> at_id now db c i f = None.
Proof.
  intros Hwf Hk. unfold none_selected, at_id. split.
  - intros Hn. destruct (db !! (c, i)) as [d|] eqn:Hd; [|done]. by rewrite (Hn _ _ Hd).
  - intros Ha j d Hd. destruct (matches now f d) eqn:Hm; [|done].
    assert (j = i) as -> by (eapply Hk; eauto). rewrite Hd, Hm in Ha. done.
Qed.

(** The fault-free outcomes of the keyed calls, as functions of the document. *)

Lemma mongo_ok_find_one now c f s i db db' r :
  db_wf db -> keyed f i ->
  mongo_ok now (MFindOne c f s) db db' r ->
  db' = db /\ r = Ok (dec <$> at_id now db c i f).
Proof.
  intros Hwf Hk [-> [[Hn ->]|(j & d & Hs & _ & ->)]]; split; try done.
  - apply none_selected_keyed with (i := i) in Hn as ->; done.
  - apply selected_keyed with (i := i) in Hs as [_ ->]; done.
Qed.

Lemma mongo_ok_delete_one now c f i db db' r :
  db_wf db -> keyed f i ->
  mongo_ok now (MDeleteOne c f) db db' r ->
  match at_id now db c i f with
  | Some _ => db' = delete (c, i) db /\ r = Ok 1
  | None => db' = db /\ r = Ok 0
  end.
Proof.
  intros Hwf Hk [(j & d & Hs & -> & ->)|(Hn & -> & ->)].
  - by apply selected_keyed with (i := i) in Hs as [-> ->].
  - by apply none_selected_keyed with (i := i) in Hn as ->.
Qed.

Lemma mongo_ok_find_one_and_update now c f u upsert after i db db' r :
  db_wf db -> keyed f i ->
  mongo_ok now (MFindOneAndUpdate c f u upsert after) db db' r ->
  match at_id now db c i f with
  | Some d => updates now db c i d u (fun d' => Some (dec (if after then d' else d))) db' r
  | None => if upsert then inserts db c (upsert_doc now f u)
                             (fun d' => if after then Some (dec d') else None) db' r
            else db' = db /\ r = Ok None
  end.
Proof.
  intros Hwf Hk [(j & d & Hs & Hu)|(Hn & Hu)].
  - by apply selected_keyed with (i := i) in Hs as [-> ->].
  - by apply none_selected_keyed with (i := i) in Hn as ->.
Qed.

Lemma mongo_ok_update_one now c f u upsert i db db' r :
  db_wf db -> keyed f i ->
  mongo_ok now (MUpdateOne c f u upsert) db db' r ->
  match at_id now db c i f with
  | Some d => updates now db c i d u
                (fun d' => UpdateResult 1 (if decide (d' = d) then 0 else 1) false) db' r
  | None => if upsert then inserts db c (upsert_doc now f u) (fun _ => UpdateResult 0 0 true) db' r
            else db' = db /\ r = Ok (UpdateResult 0 0 false)
  end.
Proof.
  intros Hwf Hk [(j & d & Hs & Hu)|(Hn & Hu)].
  - by apply selected_keyed with (i := i) in Hs as [-> ->].
  - by apply none_selected_keyed with (i := i) in Hn as ->.
Qed.
End Keyed.

Section KeyedRules.
Context {E : Type -> Type} {S : Type} `{MongoConf} `{ExtSpec E S}.
Implicit Types w : world S.

(** A keyed read: the document as it is now, or a lost connection. *)
Lemma wp_find_one {B : Type} c f s i (k : option doc -> prog E B) Q w :
  db_wf (w_db w) -> keyed f i ->
  (forall w', same_but_time w w' ->
    wp (k (dec <$> at_id (w_now w') (w_db w) c i f)) Q w') ->
  (forall w', same_but_time w w' -> Q w' auto_reconnect) ->
  wp (bind (mongo (MFindOne c f s)) k) Q w.
Proof.
  intros Hwf Hk Hok Hlost. apply wp_mongo.
  - intros w' r Hm Hs. apply mongo_ok_find_one with (i := i) in Hm as [Hdb ->]; [|done..].
    apply Hok, same_but_time_db. done.
  - intros w' Hs [Hdb|[r Hm]]; apply Hlost, same_but_time_db; [done|].
    by apply mongo_ok_find_one with (i := i) in Hm as [Hdb _].
Qed.

Lemma at_id_eq now db c i : db_wf db -> at_id now db c i (FEq ["_id"%string] (VStr i)) = db !! (c, i).
Proof.
  intros Hwf. unfold at_id. destruct (db !! (c, i)) as [d|] eqn:Hd; [|done].
  apply Hwf in Hd. unfold doc_id in Hd. simpl. unfold match_eq. simpl.
  destruct (d !! "_id"%string) as [v|]; [|done]. destruct v; try done. injection Hd as ->.
  unfold meets. simpl. by rewrite String.eqb_refl.
Qed.

Lemma doc_get_dec d k : doc_get (dec d) k = bson_decode tz_aware (doc_get d k).
Proof. unfold dec, decode_doc, doc_get. rewrite lookup_fmap. by destruct (d !! k). Qed.
Lemma has_key_dec d k : has_key (dec d) k = has_key d k.
Proof. unfold dec, decode_doc, has_key. rewrite lookup_fmap. by destruct (d !! k). Qed.
Lemma py_eq_dec_str v s : py_eq (bson_decode tz_aware v) (VStr s) = py_eq v (VStr s).
Proof. by destruct v. Qed.
End KeyedRules.

Section WfPreserved.
Context `{MongoConf}.

Lemma db_wf_insert db c i d : db_wf db -> doc_id d = Some i -> db_wf (<[(c, i) := d]> db).
Proof.
  intros Hwf Hd c' i' d'. destruct (decide ((c, i) = (c', i'))) as [[= <- <-]|Hne].
  - rewrite lookup_insert_eq. by intros [= <-].
  - rewrite lookup_insert_ne by done. apply Hwf.
Qed.

Lemma db_wf_delete db k : db_wf db -> db_wf (delete k db).
Proof. intros Hwf c i d Hd. apply lookup_delete_Some in Hd as [_ Hd]. by apply (Hwf c). Qed.

Lemma stores_wf {X} db c i d' (x : X) db' r :
  db_wf db -> doc_id d' = Some i -> stores db c i d' x db' r -> db_wf db'.
Proof.
  unfold stores. intros Hwf Hd. destruct (unique_ok _ _ _ _); intros [-> _]; [|done].
  by apply db_wf_insert.
Qed.

Lemma updates_wf {X} now db c i d u (x : doc -> X) db' r :
  db_wf db -> db !! (c, i) = Some d -> updates now db c i d u x db' r -> db_wf db'.
Proof.
  unfold updates. intros Hwf Hd. destruct (apply_update _ _ _ _) as [d'|]; [|by intros [-> _]].
  destruct (decide _) as [Hid|]; [|by intros [-> _]].
  apply stores_wf; [done|]. unfold doc_id. rewrite Hid. by apply (Hwf c).
Qed.

Lemma inserts_wf {X} db c d (x : doc -> X) db' r :
  db_wf db -> inserts db c d x db' r -> db_wf db'.
Proof.
  unfold inserts. intros Hwf. destruct d as [d|]; [|by intros [-> _]].
  destruct (doc_id d) as [i|] eqn:Hd.
  - destruct (is_some _); [by intros [-> _]|]. by apply stores_wf.
  - intros (i & _ & Hs). eapply stores_wf; [done| |done]. unfold doc_id. by rewrite lookup_insert_eq.
Qed.

Lemma mongo_ok_wf {X} now (m : mongo_op X) db db' r :
  db_wf db -> mongo_ok now m db db' r ->
  match m with MUpdateMany _ _ _ => True | _ => db_wf db' end.
Proof.
  intros Hwf. destruct m; unfold mongo_ok.
  - by intros [-> _].
  - by intros [-> _].
  - by intros [-> _].
  - intros Hi. by eapply inserts_wf.
  - intros [(i & d & [Hd _] & Hu)|[_ Hu]]; [by eapply updates_wf|].
    destruct upsert; [by eapply inserts_wf|by destruct Hu as [-> _]].
  - done.
  - intros [(i & d & [Hd _] & Hu)|[_ Hu]]; [by eapply updates_wf|].
    destruct upsert; [by eapply inserts_wf|by destruct Hu as [-> _]].
  - intros [(i & d0 & [Hd _] & Hu)|[_ Hu]].
    + eapply stores_wf; [done| |done]. unfold doc_id. by rewrite lookup_insert_eq.
    + destruct upsert; [by eapply inserts_wf|by destruct Hu as [-> _]].
  - intros [(i & d & _ & -> & _)|(_ & -> & _)]; [by apply db_wf_delete|done].
Qed.
End WfPreserved.

(** *** What an update leaves alone *)

Definition upd_path (u : upd) : path :=
  match u with
  | USet p _ | USetOnInsert p _ | UInc p _ | UUnset p | UMax p _ | UCurrentDate p => p
  end.
(** The top-level field an operator writes. *)
Definition upd_field (u : upd) : string := default_to EmptyString (head (upd_path u)).

Lemma path_alter_frame p f d d' k :
  path_alter p f d = Some d' -> default_to EmptyString (head p) <> k -> d' !! k = d !! k.
Proof.
  intros Hp Hk. destruct p as [|x p]; [done|]. simpl in Hk.
  assert (Hcase : exists v, d' = <[x := v]> d).
  { destruct p as [|y p].
    - simpl in Hp. destruct (f (d !! x)); [|done]. injection Hp as <-. eauto.
    - cbn [path_alter] in Hp. destruct (d !! x) as [[]|]; try done;
        (apply bind_Some in Hp as (d1 & _ & Hd); injection Hd as <-; eauto). }
  destruct Hcase as [v ->]. by rewrite lookup_insert_ne.
Qed.

Lemma path_unset_frame p d k : default_to EmptyString (head p) <> k -> path_unset p d !! k = d !! k.
Proof.
  intros Hk. destruct p as [|x p]; [done|]. simpl in Hk. destruct p as [|y p]; simpl.
  - by rewrite lookup_delete_ne.
  - destruct (d !! x) as [[]|]; try done. by rewrite lookup_insert_ne.
Qed.

Lemma apply_upd_frame now ins u d d' k :
  apply_upd now ins u d = Some d' -> upd_field u <> k -> d' !! k = d !! k.
Proof.
  unfold upd_field. destruct u; simpl; intros Ha Hk; try (by eapply path_alter_frame).
  - destruct ins; [by eapply path_alter_frame|congruence].
  - injection Ha as <-. by apply path_unset_frame.
Qed.

Lemma apply_upds_frame now ins us d d' k :
  apply_upds now ins us d = Some d' -> Forall (fun u => upd_field u <> k) us -> d' !! k = d !! k.
Proof.
  revert d. induction us as [|u us IH]; intros d Ha Hus; simpl in Ha; [congruence|].
  apply Forall_cons in Hus as [Hu Hus]. destruct (apply_upd now ins u d) as [d1|] eqn:Hd; [|done].
  simpl in Ha. rewrite (IH _ Ha Hus). by eapply apply_upd_frame.
Qed.

Lemma apply_upds_app now ins us vs d :
  apply_upds now ins (us ++ vs) d = (d' ← apply_upds now ins us d; apply_upds now ins vs d').
Proof.
  revert d. induction us as [|u us IH]; intros d; simpl; [done|].
  destruct (apply_upd now ins u d); simpl; [apply IH|done].
Qed.

(** A field set once keeps the value. *)
Lemma apply_upds_set now ins k v us d d' :
  apply_upds now ins (USet [k] v :: us) d = Some d' -> Forall (fun u => upd_field u <> k) us ->
  d' !! k = Some (bson_encode v).
Proof.
  simpl. intros Ha Hus. rewrite (apply_upds_frame _ _ _ _ _ _ Ha Hus). apply lookup_insert_eq.
Qed.

Lemma match_eq_top_str d k s v :
  d !! k = Some v -> match v with VList _ => False | _ => True end ->
  match_eq d [k] (VStr s) = val_eqb (VStr s) v.
Proof.
  intros Hd Hv. unfold match_eq. simpl. rewrite Hd. simpl. unfold meets.
  destruct v; simpl; rewrite ?orb_false_r; done.
Qed.

Lemma match_eq_str_field d k s t :
  d !! k = Some (VStr s) -> match_eq d [k] (VStr t) = String.eqb t s.
Proof. intros Hd. by rewrite (match_eq_top_str _ _ _ _ Hd). Qed.

Lemma bson_cmp_int x y : bson_cmp (VInt x) (VInt y) = (x ?= y).
Proof. unfold bson_cmp. simpl. by destruct (x ?= y). Qed.

Lemma agg_lt_int now d a b x y :
  aeval now d a = Some (VInt x) -> aeval now d b = Some (VInt y) ->
  agg_true (aeval now d (ALt a b)) = (x <? y).
Proof. cbn [aeval]. intros -> ->. simpl. rewrite bson_cmp_int. by unfold Z.ltb; destruct (x ?= y). Qed.

Lemma apply_update_frame now ins us d d' k :
  apply_update now ins (UOps us) d = Some d' -> Forall (fun u => upd_field u <> k) us -> d' !! k = d !! k.
Proof. apply apply_upds_frame. Qed.
Lemma apply_update_set now ins k v us d d' :
  apply_update now ins (UOps (USet [k] v :: us)) d = Some d' -> Forall (fun u => upd_field u <> k) us ->
  d' !! k = Some (bson_encode v).
Proof. apply apply_upds_set. Qed.
