(* ===== verification/MongoRef.v ===== *)
(** An executable server for the driver calls of [Mongo.v], proved to obey
    [mongo_ok], and the execution [run] of programs against it.  The witnesses
    evaluate on it; it also shows that the specification has a model. *)

From S2P Require Export Effects.

(** ** The sort order is a total preorder *)

Lemma lex_cmp_eq a b : lex_cmp a b = Eq <-> a = b.
Proof.
  revert b. induction a as [|x a IH]; intros [|y b]; simpl; try done.
  destruct (x ?= y) eqn:Hc.
  - apply Z.compare_eq in Hc as ->. rewrite IH. split; [by intros ->|by intros [=]].
  - split; [done|]. intros [= -> ->]. by rewrite Z.compare_refl in Hc.
  - split; [done|]. intros [= -> ->]. by rewrite Z.compare_refl in Hc.
Qed.

Lemma lex_cmp_antisym a b : lex_cmp b a = CompOpp (lex_cmp a b).
Proof.
  revert b. induction a as [|x a IH]; intros [|y b]; simpl; try done.
  rewrite (Z.compare_antisym x y). by destruct (x ?= y); simpl.
Qed.

Lemma lex_cmp_trans a b c : lex_cmp a b = Lt -> lex_cmp b c = Lt -> lex_cmp a c = Lt.
Proof.
  revert b c. induction a as [|x a IH]; intros [|y b] [|z c]; simpl; try done.
  destruct (Z.compare_spec x y), (Z.compare_spec y z), (Z.compare_spec x z);
    subst; try done; try lia. apply IH.
Qed.

Lemma doc_cmp_antisym s a b : doc_cmp s b a = CompOpp (doc_cmp s a b).
Proof.
  induction s as [|[p asc] s IH]; simpl; [done|].
  unfold bson_cmp. rewrite (lex_cmp_antisym (sort_key (sort_val p a))).
  by destruct (lex_cmp _ _), asc; simpl.
Qed.

Lemma doc_le_total s a b : doc_le s a b = false -> doc_le s b a = true.
Proof. unfold doc_le. rewrite (doc_cmp_antisym s a b). by destruct (doc_cmp s a b). Qed.

Lemma doc_le_trans s a b c : doc_le s a b = true -> doc_le s b c = true -> doc_le s a c = true.
Proof.
  unfold doc_le. induction s as [|[p asc] s IH]; simpl; [done|]. unfold bson_cmp.
  set (ka := sort_key (sort_val p a)). set (kb := sort_key (sort_val p b)).
  set (kc := sort_key (sort_val p c)).
  destruct (lex_cmp ka kb) eqn:Hab.
  - apply lex_cmp_eq in Hab as ->. destruct (lex_cmp kb kc); [apply IH|done..].
  - destruct (lex_cmp kb kc) eqn:Hbc.
    + apply lex_cmp_eq in Hbc as <-. rewrite Hab. done.
    + rewrite (lex_cmp_trans _ _ _ Hab Hbc). done.
    + destruct asc; done.
  - destruct (lex_cmp kb kc) eqn:Hbc.
    + apply lex_cmp_eq in Hbc as <-. rewrite Hab. done.
    + destruct asc; done.
    + destruct asc; [done|]. rewrite lex_cmp_antisym in Hab, Hbc.
      assert (Hca : lex_cmp kc ka = Lt).
      { apply lex_cmp_trans with kb; [destruct (lex_cmp kc kb)|destruct (lex_cmp kb ka)]; done. }
      rewrite lex_cmp_antisym, Hca. done.
Qed.

(** ** The server *)

Section Ref.
Context `{MongoConf}.
Variable now : Z.

Definition rows (db : database) (c : string) : list (string * doc) :=
  omap (fun x : (string * string) * doc =>
          if String.eqb x.1.1 c then Some (x.1.2, x.2) else None) (map_to_list db).
Definition hits (db : database) (c : string) (f : filter) : list (string * doc) :=
  List.filter (fun x => matches now f x.2) (rows db c).

Fixpoint insert_row (s : sort_spec) (x : string * doc) (l : list (string * doc)) :=
  match l with
  | [] => [x]
  | y :: l' => if doc_le s x.2 y.2 then x :: l else y :: insert_row s x l'
  end.
Definition sort_rows (s : sort_spec) (l : list (string * doc)) : list (string * doc) :=
  foldr (insert_row s) [] l.
Definition selection (db : database) (c : string) (f : filter) (s : sort_spec) :=
  sort_rows s (hits db c f).

Definition ref_store {X : Type} (db : database) (c i : string) (d' : doc) (x : X) : database * result X :=
  if unique_ok db c i d' then (<[(c, i) := d']> db, Ok x) else (db, duplicate_key).
Definition ref_update {X : Type} (db : database) (c i : string) (d : doc) (u : update) (x : doc -> X) :
    database * result X :=
  match apply_update now false u d with
  | Some d' =>
      if decide (d' !! "_id"%string = d !! "_id"%string) then ref_store db c i d' (x d')
      else (db, write_error)
  | None => (db, write_error)
  end.
(** A generated identifier longer than every stored one. *)
Definition fresh_id (db : database) : string :=
  String.concat "" (map_to_list db ≫= fun x => [x.1.2; "0"%string]).
Definition ref_insert {X : Type} (db : database) (c : string) (d : option doc) (x : doc -> X) :
    database * result X :=
  match d with
  | None => (db, write_error)
  | Some d =>
      match doc_id d with
      | None => ref_store db c (fresh_id db) (<["_id"%string := VStr (fresh_id db)]> d)
                  (x (<["_id"%string := VStr (fresh_id db)]> d))
      | Some i => if is_some (db !! (c, i)) then (db, duplicate_key) else ref_store db c i d (x d)
      end
  end.

Definition ref_mongo {X : Type} (m : mongo_op X) (db : database) : database * result X :=
  match m in mongo_op X return database * result X with
  | MFindOne c f s => (db, Ok (dec ∘ snd <$> head (selection db c f s)))
  | MFind c f s => (db, Ok (dec ∘ snd <$> selection db c f s))
  | MCount c f => (db, Ok (Z.of_nat (length (hits db c f))))
  | MInsertOne c d => ref_insert db c (Some (encode_doc d)) (fun _ => tt)
  | MUpdateOne c f u upsert =>
      match head (hits db c f) with
      | Some (i, d) => ref_update db c i d u
          (fun d' => UpdateResult 1 (if decide (d' = d) then 0 else 1) false)
      | None => if upsert then ref_insert db c (upsert_doc now f u) (fun _ => UpdateResult 0 0 true)
                else (db, Ok (UpdateResult 0 0 false))
      end
  | MUpdateMany c f u =>
      let hs := hits db c f in
      if forallb (fun x => is_some (apply_update now false u x.2)) hs then
        let changed := List.filter (fun x : string * doc =>
          negb (bool_decide (apply_update now false u x.2 = Some x.2))) hs in
        (map_imap (fun (k : string * string) d =>
           if String.eqb k.1 c && matches now f d then apply_update now false u d else Some d) db,
         Ok (UpdateResult (Z.of_nat (length hs)) (Z.of_nat (length changed)) false))
      else (db, write_error)
  | MFindOneAndUpdate c f u upsert after =>
      match head (hits db c f) with
      | Some (i, d) => ref_update db c i d u (fun d' => Some (dec (if after then d' else d)))
      | None => if upsert then ref_insert db c (upsert_doc now f u)
                                 (fun d' => if after then Some (dec d') else None)
                else (db, Ok None)
      end
  | MReplaceOne c f d upsert =>
      match head (hits db c f) with
      | Some (i, _) => ref_store db c i (<["_id"%string := VStr i]> (encode_doc d)) (UpdateResult 1 1 false)
      | None => if upsert then ref_insert db c (Some (encode_doc d)) (fun _ => UpdateResult 0 0 true)
                else (db, Ok (UpdateResult 0 0 false))
      end
  | MDeleteOne c f =>
      match head (hits db c f) with
      | Some (i, _) => (delete (c, i) db, Ok 1)
      | None => (db, Ok 0)
      end
  end.

(** ** It obeys the specification *)

Lemma elem_of_rows db c i d : (i, d) ∈ rows db c <-> db !! (c, i) = Some d.
Proof.
  unfold rows. rewrite list_elem_of_omap. split.
  - intros ([[c' i'] d'] & Hin & Hx). simpl in Hx. destruct (String.eqb c' c) eqn:Hc; [|done].
    apply String.eqb_eq in Hc as ->. injection Hx as -> ->. by apply elem_of_map_to_list in Hin.
  - intros Hd. exists ((c, i), d). split; [by apply elem_of_map_to_list|].
    simpl. by rewrite String.eqb_refl.
Qed.

Lemma elem_of_hits db c f i d : (i, d) ∈ hits db c f <-> selected now db c f i d.
Proof.
  unfold hits, selected. rewrite list_elem_of_In, filter_In, <- list_elem_of_In, elem_of_rows. done.
Qed.

Lemma elem_of_insert_row s x l y : y ∈ insert_row s x l <-> y = x \/ y ∈ l.
Proof.
  induction l as [|z l IH]; simpl; [by rewrite list_elem_of_singleton, elem_of_nil; tauto|].
  destruct (doc_le s x.2 z.2); rewrite !elem_of_cons; [tauto|]. rewrite IH. tauto.
Qed.

Lemma elem_of_selection db c f s i d : (i, d) ∈ selection db c f s <-> selected now db c f i d.
Proof.
  rewrite <- elem_of_hits. unfold selection, sort_rows. induction (hits db c f) as [|x l IH]; simpl; [done|].
  rewrite elem_of_insert_row, IH, elem_of_cons. done.
Qed.

Lemma insert_row_sorted s x l :
  StronglySorted (fun a b : string * doc => doc_le s a.2 b.2 = true) l ->
  StronglySorted (fun a b : string * doc => doc_le s a.2 b.2 = true) (insert_row s x l).
Proof.
  induction 1 as [|y l Hs IH Hy]; simpl; [repeat constructor|].
  destruct (doc_le s x.2 y.2) eqn:Hxy.
  - constructor; [by constructor|]. constructor; [done|].
    eapply List.Forall_impl; [|done]. intros z Hz. by eapply doc_le_trans.
  - constructor; [done|]. rewrite List.Forall_forall in Hy |- *. intros z Hz.
    apply list_elem_of_In, elem_of_insert_row in Hz as [->|Hz]; [by apply doc_le_total|].
    by apply Hy, list_elem_of_In.
Qed.

Lemma selection_sorted db c f s :
  StronglySorted (fun a b : string * doc => doc_le s a.2 b.2 = true) (selection db c f s).
Proof.
  unfold selection, sort_rows. induction (hits db c f) as [|x l IH]; simpl; [constructor|].
  by apply insert_row_sorted.
Qed.

Lemma hits_none db c f : hits db c f = [] -> none_selected now db c f.
Proof.
  intros Hh i d Hd. destruct (matches now f d) eqn:Hm; [|done].
  assert ((i, d) ∈ hits db c f) as Hin by by apply elem_of_hits.
  rewrite Hh in Hin. by apply not_elem_of_nil in Hin.
Qed.

Lemma hits_head db c f :
  match head (hits db c f) with
  | Some (i, d) => selected now db c f i d
  | None => none_selected now db c f
  end.
Proof.
  destruct (hits db c f) as [|[i d] l] eqn:Hh; simpl; [by apply hits_none|].
  apply elem_of_hits. rewrite Hh. apply elem_of_cons. by left.
Qed.

Lemma ref_store_ok {X} db c i d' (x : X) :
  stores db c i d' x (ref_store db c i d' x).1 (ref_store db c i d' x).2.
Proof. unfold stores, ref_store. by destruct (unique_ok _ _ _ _). Qed.

Lemma ref_update_ok {X} db c i d u (x : doc -> X) :
  updates now db c i d u x (ref_update db c i d u x).1 (ref_update db c i d u x).2.
Proof.
  unfold updates, ref_update. destruct (apply_update _ _ _ _); [|done].
  destruct (decide _); [apply ref_store_ok|done].
Qed.

Lemma fresh_id_fresh db c : db !! (c, fresh_id db) = None.
Proof.
  destruct (db !! (c, fresh_id db)) as [d|] eqn:Hd; [exfalso|done].
  apply elem_of_map_to_list, list_elem_of_split in Hd as (l1 & l2 & Hl).
  assert (Hlen : forall l, (String.length (String.concat "" l) =
    foldr (fun s n => String.length s + n) 0 l)%nat).
  { clear. induction l as [|t l IH]; [done|]. destruct l as [|u l].
    - simpl. lia.
    - change (String.concat "" (t :: u :: l)) with (t ++ ("" ++ String.concat "" (u :: l)))%string.
      rewrite append_nil, string_length_app, IH. done. }
  assert (Hf : String.length (fresh_id db) =
    foldr (fun s n => String.length s + n)%nat 0%nat (map_to_list db ≫= fun x => [x.1.2; "0"%string])).
  { apply Hlen. }
  rewrite Hl in Hf. rewrite bind_app in Hf. simpl in Hf. rewrite foldr_app in Hf. simpl in Hf.
  assert (Hge : forall l n, (n <= foldr (fun s n => String.length s + n) n l)%nat).
  { clear. induction l as [|t l IH]; intros n; simpl; [lia|]. specialize (IH n). lia. }
  specialize (Hge (l1 ≫= λ x, [x.1.2; "0"%string])). 
  match type of Hf with _ = foldr _ ?n _ => specialize (Hge n) end. lia.
Qed.

Lemma ref_insert_ok {X} db c d (x : doc -> X) :
  inserts db c d x (ref_insert db c d x).1 (ref_insert db c d x).2.
Proof.
  unfold inserts, ref_insert. destruct d as [d|]; [|done].
  destruct (doc_id d) as [i|].
  - destruct (is_some _); [done|apply ref_store_ok].
  - exists (fresh_id db). split; [apply fresh_id_fresh|apply ref_store_ok].
Qed.

Lemma ref_update_many_lookup db c f u k :
  map_imap (fun (k : string * string) d =>
    if String.eqb k.1 c && matches now f d then apply_update now false u d else Some d) db !! k =
  (db !! k ≫= fun d => if String.eqb k.1 c && matches now f d then apply_update now false u d else Some d).
Proof. apply map_lookup_imap. Qed.

Lemma ref_mongo_update_many_ok c f u db :
  mongo_ok now (MUpdateMany c f u) db (ref_mongo (MUpdateMany c f u) db).1
    (ref_mongo (MUpdateMany c f u) db).2.
Proof.
  unfold ref_mongo, mongo_ok. destruct (forallb _ _) eqn:Hall; simpl.
  - left. rewrite forallb_forall in Hall.
    assert (Happ : forall i d, selected now db c f i d -> is_some (apply_update now false u d) = true).
    { intros i d Hs%elem_of_hits. by apply (Hall (i, d)), list_elem_of_In. }
    eexists _, _. split; [done|]. split; [|split; [|split]].
    + split; [lia|]. apply Nat2Z.inj_le, List.filter_length_le.
    + split.
      * intros Hz. apply map_eq. intros [c' i]. rewrite ref_update_many_lookup.
        destruct (db !! (c', i)) as [d|] eqn:Hd; simpl; [|done].
        destruct (String.eqb c' c && matches now f d) eqn:Hm; [|done].
        apply andb_true_iff in Hm as [Hc Hm]. apply String.eqb_eq in Hc as ->.
        destruct (decide (apply_update now false u d = Some d)) as [|Hne]; [done|exfalso].
        assert (Hin : In (i, d) (List.filter (fun x : string * doc =>
          negb (bool_decide (apply_update now false u x.2 = Some x.2))) (hits db c f))).
        { apply filter_In. split; [by apply list_elem_of_In, elem_of_hits|]. simpl.
          by rewrite bool_decide_eq_false_2. }
        destruct (List.filter _ _); [done|simpl in Hz; lia].
      * intros Hdb. destruct (List.filter _ _) as [|[i d] l] eqn:Hf; [done|exfalso].
        assert (Hin : In (i, d) ((i, d) :: l)) by by left. rewrite <- Hf in Hin.
        apply filter_In in Hin as [Hin Hne]. apply list_elem_of_In, elem_of_hits in Hin as [Hd Hm].
        simpl in Hne. apply negb_true_iff, bool_decide_eq_false_1 in Hne. apply Hne.
        pose proof (ref_update_many_lookup db c f u (c, i)) as Hl.
        rewrite Hdb, Hd in Hl. simpl in Hl. by rewrite String.eqb_refl, Hm in Hl.
    + intros c' i Hc. rewrite ref_update_many_lookup. destruct (db !! (c', i)) as [d|]; simpl; [|done].
      destruct (String.eqb c' c) eqn:He; [apply String.eqb_eq in He; congruence|done].
    + intros i. rewrite ref_update_many_lookup. destruct (db !! (c, i)) as [d|] eqn:Hd; simpl; [|done].
      rewrite String.eqb_refl. simpl. destruct (matches now f d) eqn:Hm; [|done].
      specialize (Happ i d (conj Hd Hm)). destruct (apply_update now false u d) as [d'|]; [|done]. eauto.
  - right. split; [|done]. assert (Hex : exists x, In x (hits db c f) /\
      is_some (apply_update now false u x.2) = false).
    { clear -Hall. induction (hits db c f) as [|x l IH]; simpl in *; [done|].
      apply andb_false_iff in Hall as [Hx|Hl]; [by exists x; auto|].
      destruct (IH Hl) as (y & Hy & Hf). by exists y; auto. }
    destruct Hex as ([i d] & Hin & Hf). exists i, d. split; [by apply elem_of_hits, list_elem_of_In|].
    by destruct (apply_update _ _ _ _).
Qed.

Lemma elem_of_hits_fst db c f i :
  i ∈ (hits db c f).*1 <-> exists d, selected now db c f i d.
Proof.
  rewrite list_elem_of_fmap. split.
  - intros ([i' d] & -> & Hin). exists d. by apply elem_of_hits.
  - intros [d Hs]. exists (i, d). split; [done|by apply elem_of_hits].
Qed.

Lemma hits_NoDup db c f : NoDup (hits db c f).*1.
Proof.
  unfold hits, rows. pose proof (NoDup_fst_map_to_list db) as Hnd.
  induction (map_to_list db) as [|[[c' i] d] l IH]; simpl in *; [constructor|].
  apply NoDup_cons in Hnd as [Hnin Hnd]. specialize (IH Hnd).
  destruct (String.eqb c' c) eqn:Hc; [|done]. simpl. destruct (matches now f d); [|done].
  simpl. constructor; [|done]. intros Hin. apply Hnin.
  apply list_elem_of_fmap in Hin as ([i' d'] & -> & Hin).
  apply list_elem_of_In, filter_In in Hin as [Hin _].
  apply list_elem_of_In, list_elem_of_omap in Hin as ([[c'' i''] d''] & Hin & Hx). simpl in Hx.
  destruct (String.eqb c'' c) eqn:Hc'; [|done]. injection Hx as -> ->.
  apply String.eqb_eq in Hc, Hc'. subst.
  apply list_elem_of_fmap. by exists ((c, i'), d').
Qed.

Theorem ref_mongo_ok {X : Type} (m : mongo_op X) db :
  mongo_ok now m db (ref_mongo m db).1 (ref_mongo m db).2.
Proof.
  destruct m as [c f s|c f s|c f|c d|c f u b|c f u|c f u b a|c f d b|c f].
  - split; [done|]. simpl. pose proof (elem_of_selection db c f s) as Hel.
    pose proof (selection_sorted db c f s) as Hso.
    destruct (selection db c f s) as [|[i d] l]; simpl.
    + left. split; [|done]. intros i d Hd. destruct (matches now f d) eqn:Hm; [|done].
      assert (Hin : (i, d) ∈ ([] : list (string * doc))) by by apply Hel. by apply not_elem_of_nil in Hin.
    + right. exists i, d. split; [apply Hel, elem_of_cons; by left|]. split; [|done].
      intros j e Hs%Hel. apply elem_of_cons in Hs as [[= -> ->]|Hs].
      * destruct (doc_le s d d) eqn:Hr; [done|]. by rewrite (doc_le_total s d d Hr) in Hr.
      * inversion Hso as [|? ? _ Hall]; subst. rewrite List.Forall_forall in Hall.
        apply (Hall (j, e)). by apply list_elem_of_In.
  - split; [done|]. exists (selection db c f s).*2. split; [|split].
    + intros d. rewrite list_elem_of_fmap. split.
      * intros ([i d'] & -> & Hin). exists i. by apply elem_of_selection in Hin.
      * intros [i Hs]. exists (i, d). split; [done|]. by apply elem_of_selection.
    + pose proof (selection_sorted db c f s) as Hso. induction Hso as [|x l _ IH Hx]; simpl; [constructor|].
      constructor; [done|]. apply List.Forall_forall. intros d Hd.
      apply list_elem_of_In, list_elem_of_fmap in Hd as (y & -> & Hy).
      rewrite List.Forall_forall in Hx. apply Hx. by apply list_elem_of_In.
    + simpl. by rewrite list_fmap_compose.
  - split; [done|]. exists (hits db c f).*1. split; [apply hits_NoDup|]. split.
    + apply elem_of_hits_fst.
    + simpl. by rewrite length_fmap.
  - apply ref_insert_ok.
  - simpl. pose proof (hits_head db c f) as Hh. destruct (head _) as [[i d]|].
    + left. exists i, d. split; [done|apply ref_update_ok].
    + right. split; [done|]. destruct b; [apply ref_insert_ok|done].
  - apply ref_mongo_update_many_ok.
  - simpl. pose proof (hits_head db c f) as Hh. destruct (head _) as [[i d]|].
    + left. exists i, d. split; [done|apply ref_update_ok].
    + right. split; [done|]. destruct b; [apply ref_insert_ok|done].
  - simpl. pose proof (hits_head db c f) as Hh. destruct (head _) as [[i d0]|].
    + left. exists i, d0. split; [done|apply ref_store_ok].
    + right. split; [done|]. destruct b; [apply (ref_insert_ok db c (Some (encode_doc d)) (fun _ => UpdateResult 0 0 true))|done].
  - simpl. pose proof (hits_head db c f) as Hh. destruct (head _) as [[i d]|].
    + left. by exists i, d.
    + by right.
Qed.
End Ref.

(** ** Running programs *)

(** The concrete behaviour of the external services and of [uuid4]. *)
Class ExtRun (E : Type -> Type) (S : Type) := {
  ext_run : forall X, E X -> S -> S * result X;
  uuid_run : S -> string;
}.
Arguments ext_run {E S _} X _ _.

Section Run.
Context {E : Type -> Type} {S : Type} `{MongoConf} `{ExtRun E S}.

Definition run_op {X} (o : op E X) (w : world S) : world S * result X :=
  match o in op _ X return world S * result X with
  | OMongo m =>
      let '(db, r) := ref_mongo (w_now w) m (w_db w) in
      (World db (w_now w) (w_snap w) (w_ext w), r)
  | ONow => (w, Ok (w_now w))
  | OSleep us => (World (w_db w) (w_now w + Z.max 0 us) (w_snap w) (w_ext w), Ok tt)
  | OUuid => (w, Ok (uuid_run (w_ext w)))
  | OTx TxBegin => (World (w_db w) (w_now w) (Some (w_db w)) (w_ext w), Ok tt)
  | OTx TxCommit => (World (w_db w) (w_now w) None (w_ext w), Ok tt)
  | OTx TxAbort => (World (default (w_db w) (w_snap w)) (w_now w) None (w_ext w), Ok tt)
  | OExt e =>
      let '(s, r) := ext_run _ e (w_ext w) in
      (World (w_db w) (w_now w) (w_snap w) s, r)
  end.

Fixpoint run {A} (p : prog E A) (w : world S) : world S * result A :=
  match p with
  | Ret a => (w, Ok a)
  | Raise e => (w, Err e)
  | Vis o k => let '(w', r) := run_op o w in run (k r) w'
  end.

(** A run is one of the runs [wp] speaks about. *)
Context `{ExtSpec E S}.
Hypothesis ext_sound : forall X (e : E X) s,
  ext_spec X e s (ext_run X e s).1 (ext_run X e s).2.
Hypothesis uuid_sound : forall s, hex32 (uuid_run s) = true.

Lemma run_op_sound {X} (o : op E X) w : op_spec o w (run_op o w).1 (run_op o w).2.
Proof.
  destruct o as [X m| |us| |t|X e]; simpl.
  - pose proof (ref_mongo_ok (w_now w) m (w_db w)) as Hm.
    destruct (ref_mongo _ _ _) as [db r]. simpl in *. by repeat split; try left.
  - by repeat split.
  - repeat split; simpl; lia.
  - repeat split; [simpl; lia|]. exists (uuid_run (w_ext w)). auto.
  - destruct t; simpl; repeat split; simpl; try lia. left. by split; [|left].
  - pose proof (ext_sound _ e (w_ext w)) as He. destruct (ext_run _ _ _) as [s r]. by repeat split.
Qed.

Theorem wp_run {A} (p : prog E A) (Q : world S -> result A -> Prop) w :
  wp p Q w -> Q (run p w).1 (run p w).2.
Proof.
  revert w. induction p as [a|e|X o k IH]; simpl; intros w Hp; [done..|].
  pose proof (run_op_sound o w) as Ho. destruct (run_op o w) as [w' r]. by apply IH, Hp.
Qed.
End Run.

(** Configurations of the witnesses. *)
#[export] Instance noE_run : ExtRun noE unit := {
  ext_run := fun X e => match e with end;
  uuid_run := fun _ => "0123456789abcdef0123456789abcdef"%string;
}.
Definition aware_conf : MongoConf := {| tz_aware := true; unique_ok := fun _ _ _ _ => true |}.
Definition naive_conf : MongoConf := {| tz_aware := false; unique_ok := fun _ _ _ _ => true |}.
Lemma noE_run_ext X (e : noE X) s : ext_spec X e s (ext_run X e s).1 (ext_run X e s).2.
Proof. destruct e. Qed.
Lemma noE_run_uuid (s : unit) : hex32 (uuid_run s) = true.
Proof. reflexivity. Qed.
