(* ===== verification/Concurrency.v ===== *)
(** Concurrent runs of programs against one store.

    [reach horizon] interleaves the calls of a pool of programs, one call at a
    time, as long as the clock stays below [horizon].  [cwp] is the proof rule:
    every program carries a ghost state, and each of its calls re-establishes
    an invariant that ties the ghost states of all programs to the world. *)

From S2P Require Export MongoRef.

Section Conc.
Context {E : Type -> Type} {S : Type} `{MongoConf} `{ExtSpec E S} {G : Type}.
Variable Inv : list G -> world S -> Prop.
Variable horizon : Z.

(** One step of one program of the pool, before the horizon. *)
Definition live_step {A} (c c' : list (prog E A) * world S) : Prop :=
  pool_step c.1 c.2 c'.1 c'.2 /\ w_now c'.2 < horizon.
Definition reach {A} : relation (list (prog E A) * world S) := rtc live_step.

Fixpoint cwp {A} (p : prog E A) (Q : G -> result A -> Prop) (i : nat) (g : G) : Prop :=
  match p with
  | Ret a => Q g (Ok a)
  | Raise e => Q g (Err e)
  | Vis o k => forall gs w w' r,
      gs !! i = Some g -> Inv gs w -> op_spec o w w' r -> w_now w' < horizon ->
      exists g', Inv (<[i := g']> gs) w' /\ cwp (k r) Q i g'
  end.

Lemma cwp_mono {A} (p : prog E A) (Q R : G -> result A -> Prop) i g :
  cwp p Q i g -> (forall g' r, Q g' r -> R g' r) -> cwp p R i g.
Proof.
  revert g. induction p as [a|e|X o k IH]; simpl; intros g Hp Hqr; [by apply Hqr..|].
  intros gs w w' r Hg Hi Ho Hl. destruct (Hp gs w w' r Hg Hi Ho Hl) as (g' & Hi' & Hk). eauto.
Qed.

Lemma cwp_bind {A B} (p : prog E A) (k : A -> prog E B) Q i g :
  cwp p (fun g' r => match r with Ok a => cwp (k a) Q i g' | Err e => Q g' (Err e) end) i g ->
  cwp (bind p k) Q i g.
Proof.
  revert g. induction p as [a|e|X o h IH]; simpl; intros g Hp; [done..|].
  intros gs w w' r Hg Hi Ho Hl. destruct (Hp gs w w' r Hg Hi Ho Hl) as (g' & Hi' & Hk). eauto.
Qed.

Lemma cwp_catch {A} (p : prog E A) (h : exn -> prog E A) Q i g :
  cwp p (fun g' r => match r with Ok a => Q g' (Ok a) | Err e => cwp (h e) Q i g' end) i g ->
  cwp (catch p h) Q i g.
Proof.
  revert g. induction p as [a|e|X o k IH]; simpl; intros g Hp; [done..|].
  intros gs w w' r Hg Hi Ho Hl. destruct (Hp gs w w' r Hg Hi Ho Hl) as (g' & Hi' & Hk). eauto.
Qed.

Lemma cwp_attempt {A} (p : prog E A) Q i g :
  cwp p (fun g' r => Q g' (Ok r)) i g -> cwp (attempt p) Q i g.
Proof.
  revert g. induction p as [a|e|X o k IH]; simpl; intros g Hp; [done..|].
  intros gs w w' r Hg Hi Ho Hl. destruct (Hp gs w w' r Hg Hi Ho Hl) as (g' & Hi' & Hk). eauto.
Qed.

Lemma cwp_perform {X} (o : op E X) Q i g :
  (forall gs w w' r,
    gs !! i = Some g -> Inv gs w -> op_spec o w w' r -> w_now w' < horizon ->
    exists g', Inv (<[i := g']> gs) w' /\ Q g' r) ->
  cwp (perform o) Q i g.
Proof.
  intros Hp gs w w' r Hg Hi Ho Hl. destruct (Hp gs w w' r Hg Hi Ho Hl) as (g' & Hi' & Hq).
  exists g'. split; [done|]. by destruct r.
Qed.

Lemma cwp_of_result {A} (r : result A) Q i g : Q g r -> cwp (of_result r) Q i g.
Proof. by destruct r. Qed.

(** The pool keeps the invariant, and every program its proof. *)
Definition pool_ok {A} (Q : nat -> G -> result A -> Prop) (c : list (prog E A) * world S) : Prop :=
  exists gs, length gs = length c.1 /\ Inv gs c.2 /\ forall i p, c.1 !! i = Some p -> exists g, gs !! i = Some g /\ cwp p (Q i) i g.

Lemma live_step_ok {A} (Q : nat -> G -> result A -> Prop) c c' :
  pool_ok Q c -> live_step c c' -> pool_ok Q c'.
Proof.
  destruct c as [ps w], c' as [ps' w']. intros (gs & Hlen & Hi & Hp) [(i & p & p' & Hlk & Hst & Hps) Hl].
  cbn [fst snd] in *. subst ps'. destruct p as [a|e|X o k]; simpl in Hst; try done.
  destruct Hst as (r & Ho & ->). destruct (Hp _ _ Hlk) as (g & Hg & Hc). simpl in Hc.
  destruct (Hc gs w w' r Hg Hi Ho Hl) as (g' & Hi' & Hk). exists (<[i := g']> gs). cbn [fst snd].
  split; [by rewrite !length_insert|]. split; [done|].
  intros j q Hq. cbn [fst snd] in Hq. destruct (decide (i = j)) as [<-|Hne].
  - rewrite list_lookup_insert_eq in Hq by (by eapply lookup_lt_Some). injection Hq as <-.
    exists g'. rewrite list_lookup_insert_eq by (by eapply lookup_lt_Some). done.
  - rewrite list_lookup_insert_ne in Hq by done. rewrite list_lookup_insert_ne by done. by apply Hp.
Qed.

Lemma reach_ok {A} (Q : nat -> G -> result A -> Prop) c c' :
  pool_ok Q c -> reach c c' -> pool_ok Q c'.
Proof. intros Hok Hr. induction Hr; [done|]. eauto using live_step_ok. Qed.
End Conc.

(** The pool keeps its size. *)
Lemma reach_length {E : Type -> Type} {S : Type} `{MongoConf} `{ExtSpec E S} {A} horizon (c c' : list (prog E A) * world S) :
  reach horizon c c' -> length c'.1 = length c.1.
Proof. induction 1 as [c|c c1 c' [(i & p & p' & _ & _ & Hps) _] _ IH]; [done|]. by rewrite IH, Hps, length_insert. Qed.

(** A program run to its end by the reference handlers, among the others. *)
Section RunOne.
Context {E : Type -> Type} {S : Type} `{MongoConf} `{ExtRun E S} `{ExtSpec E S}.
Hypothesis ext_sound : forall X (e : E X) s, ext_spec X e s (ext_run X e s).1 (ext_run X e s).2.
Hypothesis uuid_sound : forall s, hex32 (uuid_run s) = true.

Definition done_with {A} (r : result A) : prog E A :=
  match r with Ok a => Ret a | Err e => Raise e end.

Lemma run_op_now {X} (o : op E X) (w : world S) : w_now w <= w_now (run_op o w).1.
Proof.
  destruct o as [X m| |us| |t|X e]; simpl; try lia.
  - by destruct (ref_mongo _ _ _).
  - by destruct t.
  - by destruct (ext_run _ _ _).
Qed.

Lemma run_now {A} (p : prog E A) (w : world S) : w_now w <= w_now (run p w).1.
Proof.
  revert w. induction p as [a|e|X o k IH]; simpl; intros w; [lia..|].
  pose proof (run_op_now o w) as Ho. destruct (run_op o w) as [w' r]. simpl in Ho.
  specialize (IH r w'). lia.
Qed.

Lemma reach_run {A} horizon ps i (p : prog E A) (w : world S) :
  ps !! i = Some p -> w_now (run p w).1 < horizon ->
  reach horizon (ps, w) (<[i := done_with (run p w).2]> ps, (run p w).1).
Proof.
  revert ps w. induction p as [a|e|X o k IH]; intros ps w Hi Hl; simpl in *.
  1-2: rewrite list_insert_id by done; apply rtc_refl.
  pose proof (run_op_sound (E := E) ext_sound uuid_sound o w) as Ho.
  pose proof (run_now (k (run_op o w).2) (run_op o w).1) as Hnow.
  destruct (run_op o w) as [w1 r]. simpl in Ho, Hnow.
  assert (Hlen : (i < length ps)%nat) by (by eapply lookup_lt_Some).
  eapply rtc_l with (y := (<[i := k r]> ps, w1)).
  - split; simpl; [|lia]. exists i, (Vis o k), (k r). split; [done|]. split; [|done]. by exists r.
  - specialize (IH r (<[i := k r]> ps) w1). rewrite list_insert_insert_eq in IH.
    apply IH; [by apply list_lookup_insert_eq|done].
Qed.
End RunOne.

(** ** Guarantees of single calls

    [guarded R p]: every call of [p], whatever happened before it, moves the
    world by [R].  Such guarantees hold in every interleaving. *)
Section Guarded.
Context {E : Type -> Type} {S : Type} `{MongoConf} `{ExtSpec E S}.
Variable R : world S -> world S -> Prop.

Fixpoint guarded {A} (p : prog E A) : Prop :=
  match p with
  | Vis o k => (forall w w' r, op_spec o w w' r -> R w w') /\ forall r, guarded (k r)
  | _ => True
  end.

Lemma guarded_bind {A B} (p : prog E A) (k : A -> prog E B) :
  guarded p -> (forall a, guarded (k a)) -> guarded (bind p k).
Proof. intros Hp Hk. induction p as [a|e|X o h IH]; simpl in *; [auto|done|]. destruct Hp. auto. Qed.

Lemma guarded_catch {A} (p : prog E A) (h : exn -> prog E A) :
  guarded p -> (forall e, guarded (h e)) -> guarded (catch p h).
Proof. intros Hp Hh. induction p as [a|e|X o k IH]; simpl in *; [done|auto|]. destruct Hp. auto. Qed.

Lemma guarded_perform {X} (o : op E X) :
  (forall w w' r, op_spec o w w' r -> R w w') -> guarded (perform o).
Proof. intros Ho. split; [done|]. by intros [x|e]. Qed.

Lemma guarded_of_result {A} (r : result A) : guarded (of_result r).
Proof. by destruct r. Qed.

Lemma guarded_wp {A} (p : prog E A) w :
  (forall w, R w w) -> (forall w w' w'', R w w' -> R w' w'' -> R w w'') ->
  guarded p -> wp p (fun w' _ => R w w') w.
Proof.
  intros Hrefl Htrans. revert w. induction p as [a|e|X o k IH]; simpl; intros w Hp; [done..|].
  destruct Hp as [Ho Hk]. intros w' r Hr. eapply wp_mono; [by apply IH|]. simpl. eauto.
Qed.

(** Every step of a guarded pool moves the world by [R]. *)
Lemma guarded_pool_step {A} (ps ps' : list (prog E A)) w w' :
  Forall guarded ps -> pool_step ps w ps' w' -> R w w' /\ Forall guarded ps'.
Proof.
  intros Hps (i & p & p' & Hi & Hst & ->). pose proof (Forall_lookup_1 _ _ _ _ Hps Hi) as Hp.
  destruct p as [a|e|X o k]; simpl in Hst; try done. destruct Hst as (r & Hr & ->).
  destruct Hp as [Ho Hk]. split; [eauto|]. by apply Forall_insert.
Qed.

Definition pool_reach {A} : relation (list (prog E A) * world S) :=
  rtc (fun c c' => pool_step c.1 c.2 c'.1 c'.2).

(** An invariant that [R] keeps holds along every interleaving. *)
Lemma guarded_pool_inv {A} (I : world S -> Prop) (c c' : list (prog E A) * world S) :
  (forall w w', I w -> R w w' -> I w') ->
  pool_reach c c' -> Forall guarded c.1 -> I c.2 -> Forall guarded c'.1 /\ I c'.2.
Proof.
  intros HI Hr. induction Hr as [c|c c1 c' Hst Hr IH]; intros Hg Hi; [done|].
  destruct (guarded_pool_step _ _ _ _ Hg Hst) as [HR Hg1]. eauto.
Qed.
End Guarded.

Lemma guarded_mono {E : Type -> Type} {S : Type} `{MongoConf} `{ExtSpec E S} {A}
    (R R' : world S -> world S -> Prop) (p : prog E A) :
  (forall w w', R w w' -> R' w w') -> guarded R p -> guarded R' p.
Proof. intros Hr. induction p as [a|e|X o k IH]; simpl; [done..|]. intros [Ho Hk]. split; eauto. Qed.

Lemma reach_pool {E : Type -> Type} {S : Type} `{MongoConf} `{ExtSpec E S} {A} horizon
    (c c' : list (prog E A) * world S) : reach horizon c c' -> pool_reach c c'.
Proof. intros Hr. induction Hr as [c|c c1 c' [Hst _] _ IH]; [apply rtc_refl|]. by eapply rtc_l. Qed.

(** ** Programs that do not touch the external services *)

Definition ext_same {S : Type} (w w' : world S) : Prop := w_ext w' = w_ext w.

Section Quiet.
Context {E : Type -> Type} {S : Type} `{MongoConf} `{ExtSpec E S}.
Abbreviation quiet := (guarded (S := S) ext_same).

Lemma quiet_mongo {X} (m : mongo_op X) : quiet (mongo (E := E) m).
Proof. apply guarded_perform. by intros w w' r (_ & _ & He & _). Qed.
Lemma quiet_now : quiet (now_utc (E := E)).
Proof. apply guarded_perform. by intros w w' r [(_ & _ & He & _) _]. Qed.
Lemma quiet_sleep us : quiet (sleep (E := E) us).
Proof. apply guarded_perform. by intros w w' r [(_ & _ & He & _) _]. Qed.
Lemma quiet_uuid : quiet (uuid4_hex (E := E)).
Proof. apply guarded_perform. by intros w w' r [(_ & _ & He & _) _]. Qed.
Lemma guarded_attempt {R : world S -> world S -> Prop} {A} (p : prog E A) : guarded R p -> guarded R (attempt p).
Proof. induction p as [a|e|X o k IH]; simpl; [done..|]. intros [Ho Hk]. split; auto. Qed.

(** A quiet prefix. *)
Lemma wp_quiet {A} (p : prog E A) Q (w : world S) :
  quiet p -> (forall w' r, w_ext w' = w_ext w -> Q w' r) -> wp p Q w.
Proof.
  intros Hq HQ. eapply wp_mono; [apply (guarded_wp ext_same); [done| |done]|].
  - intros w1 w2 w3. unfold ext_same. congruence.
  - intros w' r. apply HQ.
Qed.
Lemma wp_quiet_bind {A B} (p : prog E A) (k : A -> prog E B) Q (w : world S) :
  quiet p -> (forall w' a, w_ext w' = w_ext w -> wp (k a) Q w') ->
  (forall w' e, w_ext w' = w_ext w -> Q w' (Err e)) -> wp (bind p k) Q w.
Proof. intros Hq Hk He. apply wp_bind. apply wp_quiet; [done|]. intros w' [a|e]; auto. Qed.
End Quiet.

#[export] Hint Resolve quiet_mongo quiet_now quiet_sleep quiet_uuid guarded_of_result : zeler.

(** Peel a program built from quiet calls. *)
Ltac quiet_step :=
  first
    [ solve [auto with zeler]
    | exact I
    | done
    | apply guarded_bind; [|intros ?]
    | apply guarded_catch; [|intros ?]
    | apply guarded_attempt
    | case_match ].
Ltac quiet_tac := repeat quiet_step.

(** ** Programs that only use some collections *)

Section Within.
Context {E : Type -> Type}.
Variable cols : list string.

Definition permitted {X : Type} (o : op E X) : Prop :=
  match o with
  | OMongo m => In (collection_of m) cols
  | ONow | OSleep _ | OUuid => True
  | OTx _ | OExt _ => False
  end.
Fixpoint within {A} (p : prog E A) : Prop :=
  match p with
  | Vis o k => permitted o /\ forall r, within (k r)
  | _ => True
  end.

Lemma within_bind {A B} (p : prog E A) (k : A -> prog E B) :
  within p -> (forall a, within (k a)) -> within (bind p k).
Proof. intros Hp Hk. induction p as [a|e|X o h IH]; simpl in *; [auto|done|]. destruct Hp. auto. Qed.
Lemma within_catch {A} (p : prog E A) (h : exn -> prog E A) :
  within p -> (forall e, within (h e)) -> within (catch p h).
Proof. intros Hp Hh. induction p as [a|e|X o k IH]; simpl in *; [done|auto|]. destruct Hp. auto. Qed.
Lemma within_attempt {A} (p : prog E A) : within p -> within (attempt p).
Proof. induction p as [a|e|X o k IH]; simpl; [done..|]. intros [Ho Hk]. split; auto. Qed.
Lemma within_mongo {X} (m : mongo_op X) : In (collection_of m) cols -> within (mongo m).
Proof. intros Hm. split; [done|]. by intros [x|e]. Qed.
Lemma within_now : within now_utc.
Proof. split; [done|]. by intros [x|e]. Qed.
Lemma within_sleep us : within (sleep us).
Proof. split; [done|]. by intros [x|e]. Qed.
Lemma within_uuid : within uuid4_hex.
Proof. split; [done|]. by intros [x|e]. Qed.
Lemma within_of_result {A} (r : result A) : within (of_result r).
Proof. by destruct r. Qed.

Context {S : Type} `{MongoConf} `{ExtSpec E S}.
Lemma within_guarded {A} (R : world S -> world S -> Prop) (p : prog E A) :
  (forall X (o : op E X) w w' r, permitted o -> op_spec o w w' r -> R w w') -> within p -> guarded R p.
Proof. intros HR. induction p as [a|e|X o k IH]; simpl; [done..|]. intros [Ho Hk]. split; eauto. Qed.

Lemma permitted_quiet {X} (o : op E X) (w w' : world S) r : permitted o -> op_spec o w w' r -> ext_same w w'.
Proof.
  destruct o; simpl; try done; intros _; unfold ext_same.
  - by intros (_ & _ & ? & _).
  - by intros [(_ & _ & ? & _) _].
  - by intros [(_ & _ & ? & _) _].
  - by intros [(_ & _ & ? & _) _].
Qed.
Lemma within_quiet {A} (p : prog E A) : within p -> guarded (S := S) ext_same p.
Proof. apply within_guarded. intros X o w w' r. apply permitted_quiet. Qed.
End Within.

(** The documents of a collection are the same before and after. *)
Definition coll_same {S : Type} (c : string) (w w' : world S) : Prop :=
  forall i, w_db w' !! (c, i) = w_db w !! (c, i).
Definition calm {S : Type} (c : string) (w w' : world S) : Prop := ext_same w w' /\ coll_same c w w'.

Section Calm.
Context {E : Type -> Type} {S : Type} `{MongoConf} `{ExtSpec E S}.
Lemma calm_refl c (w : world S) : calm c w w.
Proof. by split. Qed.
Lemma calm_trans c (w1 w2 w3 : world S) : calm c w1 w2 -> calm c w2 w3 -> calm c w1 w3.
Proof. intros [H1 H2] [H3 H4]. split; [unfold ext_same in *; congruence|]. intros i. by rewrite H4, H2. Qed.

Lemma within_calm {A} cols c (p : prog E A) : within cols p -> ~ In c cols -> guarded (S := S) (calm c) p.
Proof.
  intros Hp Hc. revert Hp. apply within_guarded. intros X o w w' r Ho Hop.
  split; [by eapply permitted_quiet|]. intros i. destruct o; simpl in *; try done.
  - destruct Hop as (Hm & _). eapply mongo_spec_frame; [exact Hm|]. intros <-. done.
  - by destruct Hop as [(-> & _) _].
  - by destruct Hop as [(-> & _) _].
  - by destruct Hop as [(-> & _) _].
Qed.
Lemma calm_now c : guarded (E := E) (S := S) (calm c) now_utc.
Proof. apply (within_calm []); [apply within_now|by intros []]. Qed.
Lemma calm_mongo {X} c (m : mongo_op X) : collection_of m <> c -> guarded (E := E) (S := S) (calm c) (mongo m).
Proof. intros Hm. apply (within_calm [collection_of m]); [apply within_mongo; by left|]. intros [?|[]]. congruence. Qed.
Lemma wp_calm {A} c (p : prog E A) (w : world S) : guarded (calm c) p -> wp p (fun w' _ => calm c w w') w.
Proof. apply guarded_wp; [apply calm_refl|apply calm_trans]. Qed.
Lemma wp_calm_bind {A B} c (p : prog E A) (k : A -> prog E B) Q (w : world S) :
  guarded (calm c) p -> (forall w' a, calm c w w' -> wp (k a) Q w') -> (forall w' e, calm c w w' -> Q w' (Err e)) ->
  wp (bind p k) Q w.
Proof. intros Hp Hk He. apply wp_bind. eapply wp_mono; [by apply wp_calm|]. intros w' [a|e] Hw; auto. Qed.
End Calm.

(** ** Calls aside

    A stretch of calls that keeps the invariant, whatever the others hold,
    needs no ghost state of its own. *)
Section Aside.
Context {E : Type -> Type} {S : Type} `{MongoConf} `{ExtSpec E S} {G : Type}.
Variable Inv : list G -> world S -> Prop.
Variable horizon : Z.

Lemma cwp_aside (R : world S -> world S -> Prop) {A} (p : prog E A) (Q : G -> result A -> Prop) i g :
  (forall gs w w', Inv gs w -> R w w' -> Inv gs w') -> guarded R p -> (forall r, Q g r) -> cwp Inv horizon p Q i g.
Proof using Type.
  intros HR. induction p as [a|e|X o k IH]; intros Hp HQ; [apply HQ..|]. destruct Hp as [Ho Hk]. intros gs w w' r Hg Hi Hr _.
  exists g. rewrite list_insert_id by done. split; [eapply HR; [exact Hi|by eapply Ho]|]. apply IH; [apply Hk|exact HQ].
Qed.

(** What a program holds can be forgotten before its first call. *)
Lemma cwp_forget {A} (p : prog E A) (Q : result A -> Prop) i g g0 :
  (forall gs w, gs !! i = Some g -> Inv gs w -> Inv (<[i := g0]> gs) w) ->
  cwp Inv horizon p (fun _ r => Q r) i g0 -> cwp Inv horizon p (fun _ r => Q r) i g.
Proof using Type.
  intros Hdrop. destruct p as [a|e|X o k]; [done..|]. intros Hp gs w w' r Hg Hi Hr Hl.
  destruct (Hp (<[i := g0]> gs) w w' r) as (g' & Hi' & Hk); [apply list_lookup_insert_eq; by eapply lookup_lt_Some|by apply Hdrop|done..|].
  rewrite list_insert_insert_eq in Hi'. eauto.
Qed.

(** The calls that leave the store and the services as they are. *)
Variable R : world S -> world S -> Prop.
Hypothesis same_aside : forall w w' : world S, w_db w' = w_db w -> w_ext w' = w_ext w -> R w w'.
Lemma aside_now : guarded (E := E) R now_utc.
Proof using same_aside. apply guarded_perform. intros w w' r [(? & _ & ? & _) _]. by apply same_aside. Qed.
Lemma aside_sleep us : guarded (E := E) R (sleep us).
Proof using same_aside. apply guarded_perform. intros w w' r [(? & _ & ? & _) _]. by apply same_aside. Qed.
Lemma aside_uuid : guarded (E := E) R uuid4_hex.
Proof using same_aside. apply guarded_perform. intros w w' r [(? & _ & ? & _) _]. by apply same_aside. Qed.
End Aside.

#[export] Hint Resolve within_now within_sleep within_uuid within_of_result : zeler.
Ltac within_step :=
  first
    [ solve [auto with zeler]
    | exact I
    | done
    | apply within_mongo; simpl; tauto
    | apply within_bind; [|intros ?]
    | apply within_catch; [|intros ?]
    | apply within_attempt
    | case_match ].
Ltac within_tac := repeat within_step.

(** ** Collections whose documents only move by a relation

    [doc_step c R]: no document of the collection disappears, and each one is
    unchanged or moves by [R].  As a guarantee of single calls it holds in
    every interleaving. *)
Definition doc_step {S : Type} (c : string) (R : doc -> doc -> Prop) (w w' : world S) : Prop :=
  db_wf (w_db w) -> db_wf (w_db w') /\
  forall i d, w_db w !! (c, i) = Some d -> exists d', w_db w' !! (c, i) = Some d' /\ (d' = d \/ R d d').

(** The calls whose effect on [c] is bounded by [R]. *)
Definition moves_by {X : Type} (c : string) (R : doc -> doc -> Prop) (m : mongo_op X) : Prop :=
  match m with
  | MFindOne _ _ _ | MFind _ _ _ | MCount _ _ | MInsertOne _ _ => True
  | MUpdateOne c' f u _ | MFindOneAndUpdate c' f u _ _ =>
      c' = c -> forall now d d', matches now f d = true -> apply_update now false u d = Some d' -> R d d'
  | MUpdateMany _ _ _ => False
  | MReplaceOne c' _ _ _ | MDeleteOne c' _ => c' <> c
  end.

Section DocStep.
Context {E : Type -> Type} {S : Type} `{MongoConf} `{ExtSpec E S}.
Variable c : string.
Variable R : doc -> doc -> Prop.
Implicit Types w : world S.

Lemma doc_step_refl w : doc_step c R w w.
Proof. intros Hwf. split; [done|]. eauto. Qed.

(** The effect of a call on the documents of [c]. *)
Definition moved (db db' : database) : Prop :=
  forall i d, db !! (c, i) = Some d -> exists d', db' !! (c, i) = Some d' /\ (d' = d \/ R d d').

Lemma moved_same db : moved db db.
Proof. intros i d Hd. eauto. Qed.
Lemma moved_fresh db c' j d' : (c' = c -> db !! (c', j) = None) -> moved db (<[(c', j) := d']> db).
Proof.
  intros Hf i d Hd. destruct (decide ((c', j) = (c, i))) as [[= -> ->]|Hne]; [by rewrite Hf in Hd|].
  rewrite lookup_insert_ne by done. eauto.
Qed.
Lemma moved_over db c' j d d' : db !! (c', j) = Some d -> (c' = c -> R d d') -> moved db (<[(c', j) := d']> db).
Proof.
  intros Hj Hr i e He. destruct (decide ((c', j) = (c, i))) as [[= -> ->]|Hne].
  - rewrite lookup_insert_eq. simplify_eq. eauto.
  - rewrite lookup_insert_ne by done. eauto.
Qed.
Lemma moved_inserts {X} db c' d (x : doc -> X) db' r : inserts db c' d x db' r -> moved db db'.
Proof.
  unfold inserts, stores. intros Hi. destruct d as [d|]; [|destruct Hi as [-> _]; apply moved_same].
  destruct (doc_id d) as [i|].
  - destruct (db !! (c', i)) eqn:Hl; simpl in Hi; [destruct Hi as [-> _]; apply moved_same|].
    destruct (unique_ok _ _ _ _); destruct Hi as [-> _]; [by apply moved_fresh|apply moved_same].
  - destruct Hi as (i & Hl & Hi). destruct (unique_ok _ _ _ _); destruct Hi as [-> _]; [by apply moved_fresh|apply moved_same].
Qed.
Lemma moved_updates {X} now db c' j d u (x : doc -> X) db' r :
  db !! (c', j) = Some d -> (c' = c -> forall d', apply_update now false u d = Some d' -> R d d') ->
  updates now db c' j d u x db' r -> moved db db'.
Proof.
  unfold updates, stores. intros Hj Hr Hu. destruct (apply_update _ _ _ _) as [d'|] eqn:Ha;
    [|destruct Hu as [-> _]; apply moved_same].
  destruct (decide _); [|destruct Hu as [-> _]; apply moved_same].
  destruct (unique_ok _ _ _ _); destruct Hu as [-> _]; [|apply moved_same]. eapply moved_over; eauto.
Qed.
Lemma moved_ok {X} now (m : mongo_op X) db db' r : moves_by c R m -> mongo_ok now m db db' r -> moved db db'.
Proof.
  destruct m; cbn [moves_by mongo_ok]; intros Hm Ho.
  - destruct Ho as [-> _]. apply moved_same.
  - destruct Ho as [-> _]. apply moved_same.
  - destruct Ho as [-> _]. apply moved_same.
  - by eapply moved_inserts.
  - destruct Ho as [(i & d & [Hd Hs] & Ho)|[_ Ho]]; [eapply moved_updates; eauto|].
    destruct upsert; [by eapply moved_inserts|destruct Ho as [-> _]; apply moved_same].
  - done.
  - destruct Ho as [(i & d & [Hd Hs] & Ho)|[_ Ho]]; [eapply moved_updates; eauto|].
    destruct upsert; [by eapply moved_inserts|destruct Ho as [-> _]; apply moved_same].
  - destruct Ho as [(i & d0 & [Hd _] & Ho)|[_ Ho]].
    + unfold stores in Ho. destruct (unique_ok _ _ _ _); destruct Ho as [-> _]; [|apply moved_same]. by eapply moved_over.
    + destruct upsert; [by eapply moved_inserts|destruct Ho as [-> _]; apply moved_same].
  - destruct Ho as [(i & d & _ & -> & _)|(_ & -> & _)]; [|apply moved_same]. intros k e Hk.
    rewrite lookup_delete_ne by congruence. eauto.
Qed.

Lemma guarded_moves {X} (m : mongo_op X) : moves_by c R m -> guarded (E := E) (doc_step c R) (mongo m).
Proof.
  intros Hm. apply guarded_perform. intros w w' r ([Ho|[_ [Hd|[r' Ho]]]] & _) Hwf.
  - split; [|by eapply moved_ok]. pose proof (mongo_ok_wf _ _ _ _ _ Hwf Ho) as Hwf'. by destruct m.
  - rewrite Hd. split; [done|apply moved_same].
  - split; [|by eapply moved_ok]. pose proof (mongo_ok_wf _ _ _ _ _ Hwf Ho) as Hwf'. by destruct m.
Qed.
Lemma guarded_step_now : guarded (E := E) (doc_step c R) now_utc.
Proof.
  apply guarded_perform. intros w w' r [(Hdb & _) _] Hwf. rewrite Hdb. split; [done|apply moved_same].
Qed.
End DocStep.
#[export] Hint Resolve guarded_step_now : zeler.
