(* ===== verification/Trace.v ===== *)
(** Histories of a program: the calls it made and the responses it got, without
    any assumption on the responses.  [runs p h r] is a whole run; [reaches f p
    h v] a run up to a call that the classifier [f] picks out.  A property of
    every [reaches] is what a program guarantees before it makes a call. *)

From S2P Require Export Concurrency.

(** ** Calls, runs and reached calls *)

Inductive call (E : Type -> Type) : Type :=
| Call {X} (o : op E X) (r : result X).
Arguments Call {E X} o r.

Section Histories.
Context {E : Type -> Type}.
Abbreviation history := (list (call E)).

Fixpoint runs {A} (p : prog E A) (h : history) (x : result A) : Prop :=
  match p with
  | Ret a => h = [] /\ x = Ok a
  | Raise e => h = [] /\ x = Err e
  | Vis o k => exists r h', h = Call o r :: h' /\ runs (k r) h' x
  end.

(** ** Structural rules *)

Lemma runs_bind {A B} (p : prog E A) (k : A -> prog E B) h x :
  runs (bind p k) h x <->
  exists h1 h2 r, h = h1 ++ h2 /\ runs p h1 r /\
    match r with Ok a => runs (k a) h2 x | Err e => h2 = [] /\ x = Err e end.
Proof.
  revert h. induction p as [a|e|X o c IH]; intros h; simpl.
  - split; [intros Hk; by exists [], h, (Ok a)|]. by intros (h1 & h2 & r & -> & [-> ->] & Hk).
  - split; [intros [-> ->]; by exists [], [], (Err e)|]. by intros (h1 & h2 & r & -> & [-> ->] & -> & ->).
  - split.
    + intros (r & h' & -> & Hr). apply IH in Hr as (h1 & h2 & y & -> & H1 & H2).
      exists (Call o r :: h1), h2, y. split; [done|]. split; [eauto|done].
    + intros (h1 & h2 & y & -> & (r & h' & -> & H1) & H2). exists r, (h' ++ h2). split; [done|].
      apply IH. eauto 10.
Qed.

Lemma runs_attempt {A} (p : prog E A) h x :
  runs (attempt p) h x <-> exists r, runs p h r /\ x = Ok r.
Proof.
  revert h. induction p as [a|e|X o c IH]; intros h; simpl.
  - split; [intros [-> ->]; by exists (Ok a)|]. by intros (r & [-> ->] & ->).
  - split; [intros [-> ->]; by exists (Err e)|]. by intros (r & [-> ->] & ->).
  - split.
    + intros (r & h' & -> & Hr). apply IH in Hr as (y & Hy & ->). eauto 8.
    + intros (y & (r & h' & -> & Hr) & ->). exists r, h'. split; [done|]. apply IH. eauto.
Qed.

Lemma runs_catch {A} (p : prog E A) (g : exn -> prog E A) h x :
  runs (catch p g) h x <->
  exists h1 h2 r, h = h1 ++ h2 /\ runs p h1 r /\
    match r with Ok a => h2 = [] /\ x = Ok a | Err e => runs (g e) h2 x end.
Proof.
  revert h. induction p as [a|e|X o c IH]; intros h; simpl.
  - split; [intros [-> ->]; by exists [], [], (Ok a)|]. by intros (h1 & h2 & r & -> & [-> ->] & -> & ->).
  - split; [intros Hk; by exists [], h, (Err e)|]. by intros (h1 & h2 & r & -> & [-> ->] & Hk).
  - split.
    + intros (r & h' & -> & Hr). apply IH in Hr as (h1 & h2 & y & -> & H1 & H2).
      exists (Call o r :: h1), h2, y. split; [done|]. split; [eauto|done].
    + intros (h1 & h2 & y & -> & (r & h' & -> & H1) & H2). exists r, (h' ++ h2). split; [done|].
      apply IH. eauto 10.
Qed.

Lemma runs_of_result {A} (r x : result A) h : runs (of_result r) h x <-> h = [] /\ x = r.
Proof. by destruct r. Qed.
Lemma runs_perform {X} (o : op E X) h x : runs (perform o) h x <-> h = [Call o x].
Proof.
  split; [intros (r & h' & -> & Hr); by destruct r, Hr as [-> ->]|].
  intros ->. exists x, []. split; [done|]. by destruct x.
Qed.

(** What follows a program only has to keep the relation after its runs. *)
Lemma guarded_bind_runs {S : Type} `{MongoConf} `{ExtSpec E S} (R : world S -> world S -> Prop) {A B} (p : prog E A) (k : A -> prog E B) :
  guarded R p -> (forall a h, runs p h (Ok a) -> guarded R (k a)) -> guarded R (bind p k).
Proof.
  induction p as [a|e|X o c IH]; simpl; intros Hp Hk; [by apply (Hk a [])|done|].
  destruct Hp as [Ho Hc]. split; [done|]. intros r. apply IH; [done|]. intros a h Hr. apply (Hk a (Call o r :: h)). eauto.
Qed.

(** ** Up to a chosen call *)

Section Reaches.
Context {V : Type} (f : forall X, op E X -> option V).

Fixpoint reaches {A} (p : prog E A) (h : history) (v : V) : Prop :=
  match p with
  | Ret _ | Raise _ => False
  | Vis o k => (h = [] /\ f _ o = Some v) \/ exists r h', h = Call o r :: h' /\ reaches (k r) h' v
  end.

Lemma reaches_bind {A B} (p : prog E A) (k : A -> prog E B) h v :
  reaches (bind p k) h v <->
  reaches p h v \/ exists h1 h2 a, h = h1 ++ h2 /\ runs p h1 (Ok a) /\ reaches (k a) h2 v.
Proof.
  revert h. induction p as [a|e|X o c IH]; intros h; simpl.
  - split; [intros Hk; right; by exists [], h, a|]. intros [[]|(h1 & h2 & b & -> & [-> [= ->]] & Hk)]. done.
  - split; [done|]. intros [[]|(h1 & h2 & b & -> & [_ [=]] & _)].
  - split.
    + intros [?|(r & h' & -> & Hr)]; [by left; left|]. apply IH in Hr as [Hr|(h1 & h2 & a & -> & H1 & H2)].
      * left. right. eauto.
      * right. exists (Call o r :: h1), h2, a. split; [done|]. split; [eauto|done].
    + intros [[?|(r & h' & -> & Hr)]|(h1 & h2 & a & -> & (r & h' & -> & H1) & H2)].
      * by left.
      * right. exists r, h'. split; [done|]. apply IH. by left.
      * right. exists r, (h' ++ h2). split; [done|]. apply IH. right. eauto 8.
Qed.

Lemma reaches_attempt {A} (p : prog E A) h v : reaches (attempt p) h v <-> reaches p h v.
Proof.
  revert h. induction p as [a|e|X o c IH]; intros h; simpl; [done..|].
  split; (intros [?|(r & h' & -> & Hr)]; [by left|right]); apply IH in Hr; eauto.
Qed.

Lemma reaches_catch {A} (p : prog E A) (g : exn -> prog E A) h v :
  reaches (catch p g) h v <->
  reaches p h v \/ exists h1 h2 e, h = h1 ++ h2 /\ runs p h1 (Err e) /\ reaches (g e) h2 v.
Proof.
  revert h. induction p as [a|e|X o c IH]; intros h; simpl.
  - split; [done|]. intros [[]|(h1 & h2 & b & -> & [_ [=]] & _)].
  - split; [intros Hk; right; by exists [], h, e|]. intros [[]|(h1 & h2 & b & -> & [-> [= ->]] & Hk)]. done.
  - split.
    + intros [?|(r & h' & -> & Hr)]; [by left; left|]. apply IH in Hr as [Hr|(h1 & h2 & a & -> & H1 & H2)].
      * left. right. eauto.
      * right. exists (Call o r :: h1), h2, a. split; [done|]. split; [eauto|done].
    + intros [[?|(r & h' & -> & Hr)]|(h1 & h2 & a & -> & (r & h' & -> & H1) & H2)].
      * by left.
      * right. exists r, h'. split; [done|]. apply IH. by left.
      * right. exists r, (h' ++ h2). split; [done|]. apply IH. right. eauto 8.
Qed.

Lemma reaches_of_result {A} (r : result A) h v : reaches (of_result r) h v -> False.
Proof. by destruct r. Qed.
Lemma reaches_perform {X} (o : op E X) h v : reaches (perform o) h v <-> h = [] /\ f _ o = Some v.
Proof.
  split; [|by left]. intros [?|(r & h' & -> & Hr)]; [done|by destruct r].
Qed.

(** ** Programs that never make a chosen call *)

Fixpoint silent {A} (p : prog E A) : Prop :=
  match p with
  | Ret _ | Raise _ => True
  | Vis o k => f _ o = None /\ forall r, silent (k r)
  end.

Lemma silent_never {A} (p : prog E A) h v : silent p -> reaches p h v -> False.
Proof.
  revert h. induction p as [a|e|X o c IH]; intros h; simpl; [done..|].
  intros [Ho Hs] [[_ Hv]|(r & h' & -> & Hr)]; [congruence|eauto].
Qed.
Lemma silent_bind {A B} (p : prog E A) (k : A -> prog E B) :
  silent p -> (forall a, silent (k a)) -> silent (bind p k).
Proof. induction p as [a|e|X o c IH]; simpl; intros Hp Hk; [done..|]. destruct Hp. split; auto. Qed.
Lemma silent_catch {A} (p : prog E A) (g : exn -> prog E A) :
  silent p -> (forall e, silent (g e)) -> silent (catch p g).
Proof. induction p as [a|e|X o c IH]; simpl; intros Hp Hk; [done..|]. destruct Hp. split; auto. Qed.
Lemma silent_attempt {A} (p : prog E A) : silent p -> silent (attempt p).
Proof. induction p as [a|e|X o c IH]; simpl; intros Hp; [done..|]. destruct Hp. split; auto. Qed.
Lemma silent_of_result {A} (r : result A) : silent (of_result r).
Proof. by destruct r. Qed.
Lemma silent_perform {X} (o : op E X) : f _ o = None -> silent (perform o).
Proof. intros Ho. split; [done|]. by intros []. Qed.

Lemma reaches_silent_bind {A B} (p : prog E A) (k : A -> prog E B) h v :
  silent p -> reaches (bind p k) h v -> exists h1 h2 a, h = h1 ++ h2 /\ runs p h1 (Ok a) /\ reaches (k a) h2 v.
Proof. intros Hs [Hr|Hr]%reaches_bind; [by apply silent_never in Hr|done]. Qed.

(** ** Counting the chosen calls *)

Definition made (h : history) : list V := omap (fun c => match c with Call o _ => f _ o end) h.

Lemma made_app h1 h2 : made (h1 ++ h2) = made h1 ++ made h2.
Proof. apply omap_app. Qed.

Lemma silent_made {A} (p : prog E A) h x : silent p -> runs p h x -> made h = [].
Proof.
  revert h. induction p as [a|e|X o c IH]; intros h; simpl.
  - by intros _ [-> _].
  - by intros _ [-> _].
  - intros [Ho Hs] (r & h' & -> & Hr). unfold made. simpl. rewrite Ho. by eapply IH.
Qed.

(** A call made in a run was reached. *)
Lemma made_reached {A} (p : prog E A) h x v : runs p h x -> In v (made h) -> exists h1 h2, h = h1 ++ h2 /\ reaches p h1 v.
Proof.
  revert h. induction p as [a|e|X o c IH]; intros h; simpl.
  - by intros [-> _] [].
  - by intros [-> _] [].
  - intros (r & h' & -> & Hr) Hin. unfold made in Hin. simpl in Hin. destruct (f _ o) as [v'|] eqn:Ho.
    + destruct Hin as [->|Hin]; [exists [], (Call o r :: h'); eauto|].
      destruct (IH r h' Hr Hin) as (h1 & h2 & -> & H1). exists (Call o r :: h1), h2. eauto 6.
    + destruct (IH r h' Hr Hin) as (h1 & h2 & -> & H1). exists (Call o r :: h1), h2. eauto 6.
Qed.
End Reaches.
End Histories.
Abbreviation history E := (list (call E)).

#[export] Hint Resolve silent_of_result : zeler.

(** Decide that a program makes no chosen call, through its structure; the
    database [silent] knows the programs of other files. *)
Create HintDb silent.
Ltac silence :=
  repeat lazymatch goal with
  | |- silent _ (bind _ _) => apply silent_bind; [|intros ?]
  | |- silent _ (catch _ _) => apply silent_catch; [|intros ?]
  | |- silent _ (attempt _) => apply silent_attempt
  | |- silent _ (of_result _) => apply silent_of_result
  | |- silent _ (perform _) => apply silent_perform; reflexivity
  | |- silent _ now_utc => apply silent_perform; reflexivity
  | |- silent _ (sleep _) => apply silent_perform; reflexivity
  | |- silent _ uuid4_hex => apply silent_perform; reflexivity
  | |- silent _ (mongo _) => apply silent_perform; reflexivity
  | |- silent _ (ext _) => apply silent_perform; reflexivity
  | |- silent _ (Ret _) => exact I
  | |- silent _ (Raise _) => exact I
  | |- silent _ (match ?x with _ => _ end) => destruct x
  | |- silent _ (let _ := _ in _) => cbv zeta
  end; auto with silent.

(** Calls that leave for an external service. *)
Definition leaves {E : Type -> Type} {X : Type} (o : op E X) : option unit := match o with OExt _ => Some tt | _ => None end.
Lemma silent_weaken {E : Type -> Type} {V W A : Type} (f : forall X, op E X -> option V) (g : forall X, op E X -> option W)
    (p : prog E A) :
  (forall X (o : op E X), g X o = None -> f X o = None) -> silent g p -> silent f p.
Proof. intros Hfg. induction p as [a|e|X o k IH]; simpl; [done..|]. intros [Ho Hk]. split; auto. Qed.

(** Reduce [runs] and [reaches] hypotheses through the program's structure. *)
Ltac runs_inv :=
  repeat match goal with
  | H : runs (bind _ _) _ _ |- _ =>
      let h1 := fresh "h" in let h2 := fresh "h" in let r := fresh "r" in
      let H1 := fresh "H" in apply runs_bind in H as (h1 & h2 & r & -> & H1 & H); destruct r
  | H : runs (attempt _) _ _ |- _ =>
      let r := fresh "r" in let Hr := fresh "H" in apply runs_attempt in H as (r & H & Hr)
  | H : runs (catch _ _) _ _ |- _ =>
      let h1 := fresh "h" in let h2 := fresh "h" in let r := fresh "r" in
      let H1 := fresh "H" in apply runs_catch in H as (h1 & h2 & r & -> & H1 & H); destruct r
  | H : runs (of_result _) _ _ |- _ => apply runs_of_result in H as [-> H]
  | H : runs (perform _) _ _ |- _ => apply runs_perform in H as ->
  | H : runs (mongo _) _ _ |- _ => apply runs_perform in H as ->
  | H : runs (ext _) _ _ |- _ => apply runs_perform in H as ->
  | H : runs (sleep _) _ _ |- _ => apply runs_perform in H as ->
  | H : runs now_utc _ _ |- _ => apply runs_perform in H as ->
  | H : runs (Ret _) _ _ |- _ => destruct H as [-> H]
  | H : runs (Raise _) _ _ |- _ => destruct H as [-> H]
  | H : _ = _ /\ _ = Err _ |- _ => destruct H as [-> H]
  | H : _ = _ /\ _ = Ok _ |- _ => destruct H as [-> H]
  | H : Ok _ = Ok _ |- _ => injection H as H
  | H : Err _ = Err _ |- _ => injection H as H
  | H : Ok _ = Err _ |- _ => discriminate H
  | H : Err _ = Ok _ |- _ => discriminate H
  end.

(** ** Executed prefixes *)

(** The history of the execution against the concrete handlers, up to the first
    chosen call. *)
Section Drive.
Context {E : Type -> Type} {S : Type} `{MongoConf} `{ExtRun E S} {V : Type} (f : forall X, op E X -> option V).

Fixpoint run_until {A} (p : prog E A) (w : world S) : history E * option V :=
  match p with
  | Ret _ | Raise _ => ([], None)
  | Vis o k =>
      match f _ o with
      | Some v => ([], Some v)
      | None => let '(w', r) := run_op o w in let '(h, v) := run_until (k r) w' in (Call o r :: h, v)
      end
  end.

Lemma run_until_reaches {A} (p : prog E A) w v : (run_until p w).2 = Some v -> reaches f p (run_until p w).1 v.
Proof.
  revert w. induction p as [a|e|X o k IH]; intros w; simpl; [done..|].
  destruct (f X o) eqn:Ho; simpl; [intros [= ->]; by left|].
  destruct (run_op o w) as [w' r] eqn:Hr. specialize (IH r w'). destruct (run_until (k r) w') as [h v'] eqn:Hu.
  simpl in *. intros ->. right. eauto.
Qed.

Fixpoint run_history {A} (p : prog E A) (w : world S) : history E * result A :=
  match p with
  | Ret a => ([], Ok a)
  | Raise e => ([], Err e)
  | Vis o k => let '(w', r) := run_op o w in let '(h, x) := run_history (k r) w' in (Call o r :: h, x)
  end.
Lemma run_history_runs {A} (p : prog E A) w : runs p (run_history p w).1 (run_history p w).2.
Proof.
  revert w. induction p as [a|e|X o k IH]; intros w; simpl; [done..|].
  destruct (run_op o w) as [w' r] eqn:Hr. specialize (IH r w'). destruct (run_history (k r) w') as [h x].
  simpl in *. eauto.
Qed.
End Drive.
