(* ===== verification/Schema.v ===== *)
(** The document schemas of src/infra/mongo/schemas: BSON types, validation of
    a document, and the typing of a collection as an invariant of calls. *)

From S2P Require Export Concurrency.

#[local] Open Scope Z_scope.

(** ** Types *)

Inductive bson_type := BtObjectId | BtString | BtNull | BtDate | BtObject | BtArray | BtBool | BtInt | BtLong.

(** The type of a stored value.  Integers of 32 bits are stored as [int], the
    others as [long]; the driver refuses what 64 bits cannot hold. *)
Definition has_type (v : val) (t : bson_type) : bool :=
  match v, t with
  | VStr _, BtString | VNone, BtNull | VDate _ _, BtDate | VDict _, BtObject | VList _, BtArray | VBool _, BtBool => true
  | VInt z, BtInt => (- 2 ^ 31 <=? z) && (z <? 2 ^ 31)
  | VInt _, BtLong => true
  | _, _ => false
  end.

Record schema := { properties : list (string * list bson_type); required : list string }.

Definition conforms (s : schema) (d : doc) : bool :=
  forallb (fun p => match d !! p.1 with Some v => existsb (has_type v) p.2 | None => true end) (properties s) &&
  forallb (has_key d) (required s).

(** webhook_events.json *)
Definition webhook_events_schema : schema := {|
  properties := [("_id", [BtObjectId; BtString]); ("classification", [BtString; BtNull]); ("published_at", [BtDate; BtNull]);
    ("raw_body", [BtObject]); ("received_at", [BtDate]); ("resource", [BtString]); ("schema_version", [BtInt]);
    ("source_ip", [BtString]); ("topic", [BtString]); ("user_id", [BtString; BtLong; BtInt])];
  required := ["_id"; "topic"; "user_id"; "resource"; "received_at"; "raw_body"; "source_ip"; "schema_version"] |}%string.

(** A new value of a field that the schema allows there. *)
Lemma conforms_insert s d k v :
  (forall ts, In (k, ts) (properties s) -> existsb (has_type v) ts = true) -> conforms s d = true -> conforms s (<[k := v]> d) = true.
Proof.
  intros Hv. unfold conforms. rewrite !andb_true_iff, !forallb_forall. intros [Hp Hr]. split.
  - intros [k' ts] Hin. simpl. destruct (decide (k' = k)) as [->|Hne]; [rewrite lookup_insert_eq; by apply Hv|].
    rewrite lookup_insert_ne by done. exact (Hp (k', ts) Hin).
  - intros k' Hin. unfold has_key. destruct (decide (k' = k)) as [->|Hne]; [by rewrite lookup_insert_eq|].
    rewrite lookup_insert_ne by done. by apply Hr.
Qed.

(** ** Typed collections *)

Definition typed (c : string) (s : schema) (db : database) : Prop := forall i d, db !! (c, i) = Some d -> conforms s d = true.

Section Typed.
Context `{MongoConf}.
Variable c : string.
Variable s : schema.

Lemma typed_stores {X} db i d (x : X) db' r : typed c s db -> conforms s d = true -> stores db c i d x db' r -> typed c s db'.
Proof using Type.
  intros Ht Hd. unfold stores. destruct (unique_ok _ _ _ _); intros [-> _]; [|done]. intros j e.
  destruct (decide (j = i)) as [->|Hne]; [rewrite lookup_insert_eq; by intros [= <-]|].
  rewrite lookup_insert_ne by congruence. apply Ht.
Qed.

(** An update keeps the collection typed when it keeps every typed document
    typed and, if it may insert, inserts typed documents. *)
Lemma typed_update_one now f u (upsert : bool) db db' r :
  typed c s db -> mongo_ok now (MUpdateOne c f u upsert) db db' r ->
  (forall d d', conforms s d = true -> apply_update now false u d = Some d' -> conforms s d' = true) ->
  (upsert = true -> forall d', upsert_doc now f u = Some d' -> is_some (doc_id d') = true /\ conforms s d' = true) ->
  typed c s db'.
Proof using Type.
  intros Ht Hm Hup Hins. destruct Hm as [(i & d & [Hd _] & Hu)|[_ Hu]].
  - unfold updates in Hu. destruct (apply_update _ _ _ _) as [d'|] eqn:Ha; [|by destruct Hu as [-> _]].
    destruct (decide _); [|by destruct Hu as [-> _]]. eapply typed_stores; [exact Ht| |exact Hu]. eapply Hup; [by eapply Ht|done].
  - destruct upsert; [|by destruct Hu as [-> _]]. unfold inserts in Hu.
    destruct (upsert_doc now f u) as [d'|] eqn:Hd; [|by destruct Hu as [-> _]].
    destruct (Hins eq_refl d' eq_refl) as [Hid Hok]. destruct (doc_id d') as [i|]; [|done].
    destruct (is_some _); [by destruct Hu as [-> _]|]. by eapply typed_stores.
Qed.

Context {E : Type -> Type} {S : Type} `{ExtSpec E S}.
Definition stays_typed (w w' : world S) : Prop := typed c s (w_db w) -> typed c s (w_db w').

Lemma typed_same {X} (o : op E X) :
  (forall w w' r, op_spec o w w' r -> w_db w' = w_db w) -> guarded stays_typed (perform o).
Proof using Type. intros Ho. apply guarded_perform. intros w w' r Hr Ht. by rewrite (Ho _ _ _ Hr). Qed.
Lemma typed_now : guarded stays_typed (now_utc (E := E)).
Proof using Type. apply typed_same. by intros w w' r [(? & _) _]. Qed.
Lemma typed_ext {X} (e : E X) : guarded stays_typed (ext e).
Proof using Type. apply typed_same. by intros w w' r (_ & ? & _). Qed.
Lemma typed_update f u (upsert : bool) :
  (forall now d d', conforms s d = true -> apply_update now false u d = Some d' -> conforms s d' = true) ->
  (upsert = true -> forall now d', upsert_doc now f u = Some d' -> is_some (doc_id d') = true /\ conforms s d' = true) ->
  guarded stays_typed (mongo (E := E) (MUpdateOne c f u upsert)).
Proof using Type.
  intros Hup Hins. apply guarded_perform. intros w w' r ([Hm|[_ [Hdb|[r' Hm]]]] & _) Ht; [| by rewrite Hdb|];
    (eapply typed_update_one; [exact Ht|exact Hm|apply Hup|]; intros Hu; by apply Hins).
Qed.
End Typed.
