(* ===== verification/Json.v ===== *)
(** Python's json and base64 modules, as the token code uses them: compact
    [json.dumps], [json.loads], and the URL-safe alphabet without padding. *)

From S2P Require Export Prelude.

#[local] Open Scope Z_scope.

(** ** Values *)

(** An object keeps its pairs in order; [JFloat] keeps the literal. *)
Inductive json : Set :=
| JNull
| JBool (b : bool)
| JInt (z : Z)
| JFloat (literal : string)
| JStr (s : string)
| JArr (l : list json)
| JObj (fields : list (string * json)).

(** The value a Python dict built from the pairs holds: the last one. *)
Fixpoint field (fields : list (string * json)) (k : string) : option json :=
  match fields with
  | [] => None
  | (k', v) :: fields =>
      match field fields k with
      | Some w => Some w
      | None => if String.eqb k k' then Some v else None
      end
  end.

(** ** [json.dumps(value, separators=(",", ":"))] *)

Definition chr (n : nat) : string := String (ascii_of_nat n) EmptyString.
Definition quote : ascii := ascii_of_nat 34.
Definition backslash : ascii := ascii_of_nat 92.
Definition hex_digit (n : nat) : ascii := ascii_of_nat (if Nat.ltb n 10 then 48 + n else 87 + n).

(** A character of a string, escaped as [ensure_ascii] does. *)
Definition escape (c : ascii) : string :=
  let n := nat_of_ascii c in
  if Nat.eqb n 34 then String backslash (chr 34)
  else if Nat.eqb n 92 then String backslash (chr 92)
  else if Nat.eqb n 10 then String backslash "n"
  else if Nat.eqb n 13 then String backslash "r"
  else if Nat.eqb n 9 then String backslash "t"
  else if Nat.eqb n 8 then String backslash "b"
  else if Nat.eqb n 12 then String backslash "f"
  else if char_in 32 126 c then String c EmptyString
  else String backslash (String "u" (String "0" (String "0"
         (String (hex_digit (n / 16)) (String (hex_digit (n mod 16)) EmptyString))))).
Fixpoint escaped (s : string) : string :=
  match s with
  | EmptyString => EmptyString
  | String c s => (escape c ++ escaped s)%string
  end.
Definition dumps_str (s : string) : string := String quote (escaped s ++ String quote EmptyString)%string.

Fixpoint commas (l : list string) : string :=
  match l with
  | [] => EmptyString
  | [x] => x
  | x :: l => (x ++ String "," (commas l))%string
  end.

Fixpoint dumps (j : json) : string :=
  match j with
  | JNull => "null"
  | JBool true => "true"
  | JBool false => "false"
  | JInt z => str_of_Z z
  | JFloat s => s
  | JStr s => dumps_str s
  | JArr l => String "[" (commas (map dumps l) ++ "]")%string
  | JObj fields =>
      String "{" (commas (map (fun kv => (dumps_str kv.1 ++ String ":" (dumps kv.2))%string) fields) ++ "}")%string
  end.

(** ** [json.loads] *)

Definition is_ws (c : ascii) : bool := let n := nat_of_ascii c in
  Nat.eqb n 32 || Nat.eqb n 9 || Nat.eqb n 10 || Nat.eqb n 13.
Fixpoint skip_ws (s : string) : string :=
  match s with
  | String c s' => if is_ws c then skip_ws s' else s
  | EmptyString => EmptyString
  end.

Definition hex_value (c : ascii) : option nat :=
  let n := nat_of_ascii c in
  if char_in 48 57 c then Some (n - 48)%nat
  else if char_in 97 102 c then Some (n - 87)%nat
  else if char_in 65 70 c then Some (n - 55)%nat
  else None.

Definition simple_escape (c : ascii) : option ascii :=
  let n := nat_of_ascii c in
  if Nat.eqb n 34 then Some c else if Nat.eqb n 92 then Some c else if Nat.eqb n 47 then Some c
  else if Nat.eqb n 98 then Some (ascii_of_nat 8) else if Nat.eqb n 102 then Some (ascii_of_nat 12)
  else if Nat.eqb n 110 then Some (ascii_of_nat 10) else if Nat.eqb n 114 then Some (ascii_of_nat 13)
  else if Nat.eqb n 116 then Some (ascii_of_nat 9) else None.

(** The characters of a string up to its closing quote, and what follows it.
    An escape beyond U+00FF has no [str] in the model and is refused. *)
Fixpoint scan_string (s : string) : option (string * string) :=
  match s with
  | EmptyString => None
  | String c s1 =>
      if Ascii.eqb c quote then Some (EmptyString, s1)
      else if Ascii.eqb c backslash then
        match s1 with
        | String e s2 =>
            if Ascii.eqb e "u" then
              match s2 with
              | String a (String b (String x (String y s3))) =>
                  match hex_value a, hex_value b, hex_value x, hex_value y with
                  | Some 0%nat, Some 0%nat, Some hx, Some hy =>
                      match scan_string s3 with
                      | Some (w, r) => Some (String (ascii_of_nat (16 * hx + hy)) w, r)
                      | None => None
                      end
                  | _, _, _, _ => None
                  end
              | _ => None
              end
            else
              match simple_escape e, scan_string s2 with
              | Some d, Some (w, r) => Some (String d w, r)
              | _, _ => None
              end
        | EmptyString => None
        end
      else if Nat.ltb (nat_of_ascii c) 32 then None
      else match scan_string s1 with Some (w, r) => Some (String c w, r) | None => None end
  end.

Fixpoint take_digits (s : string) : string * string :=
  match s with
  | String c s' => if is_digit c then let '(d, r) := take_digits s' in (String c d, r) else (EmptyString, s)
  | EmptyString => (EmptyString, EmptyString)
  end.

(** A number: a sign, an integer without leading zero, a fraction, an exponent. *)
Definition scan_fraction (s : string) : string * string :=
  match s with
  | String "." s' => let '(d, r) := take_digits s' in if string_is_empty d then (EmptyString, s) else (String "." d, r)
  | _ => (EmptyString, s)
  end.
Definition scan_exponent (s : string) : string * string :=
  match s with
  | String c s' =>
      if Ascii.eqb c "e" || Ascii.eqb c "E" then
        let '(sign, s2) := match s' with
                           | String x s2 => if Ascii.eqb x "-" || Ascii.eqb x "+" then (String x EmptyString, s2) else (EmptyString, s')
                           | EmptyString => (EmptyString, s')
                           end in
        let '(d, r) := take_digits s2 in
        if string_is_empty d then (EmptyString, s) else (String c (sign ++ d), r)
      else (EmptyString, s)
  | EmptyString => (EmptyString, s)
  end%string.
Definition scan_number (s : string) : option (json * string) :=
  let '(neg, s1) := match s with String "-" s1 => (true, s1) | _ => (false, s) end in
  let '(ds, r) := match s1 with
                  | String "0" r => ("0"%string, r)
                  | _ => take_digits s1
                  end in
  if string_is_empty ds then None
  else
    let '(frac, r) := scan_fraction r in
    let '(expo, r) := scan_exponent r in
    if string_is_empty (frac ++ expo)
    then Some (JInt (if neg then - int_of_digits ds else int_of_digits ds), r)
    else Some (JFloat ((if neg then "-" else "") ++ ds ++ frac ++ expo)%string, r).

Definition literal (word : string) (v : json) (s : string) : option (json * string) :=
  match strip_prefix word s with Some r => Some (v, r) | None => None end.

(** The elements and members that follow an opening bracket, with the value
    parser of what they hold. *)
Section Containers.
Variable value : string -> option (json * string).
Fixpoint elements (n : nat) (s : string) : option (list json * string) :=
  match n with
  | O => None
  | S n =>
      match value (skip_ws s) with
      | Some (v, r) =>
          match skip_ws r with
          | String "," r => match elements n r with Some (l, r) => Some (v :: l, r) | None => None end
          | String "]" r => Some ([v], r)
          | _ => None
          end
      | None => None
      end
  end.
Fixpoint members (n : nat) (s : string) : option (list (string * json) * string) :=
  match n with
  | O => None
  | S n =>
      match skip_ws s with
      | String c r =>
          if Ascii.eqb c quote then
            match scan_string r with
            | Some (k, r) =>
                match skip_ws r with
                | String ":" r =>
                    match value (skip_ws r) with
                    | Some (v, r) =>
                        match skip_ws r with
                        | String "," r => match members n r with Some (l, r) => Some ((k, v) :: l, r) | None => None end
                        | String "}" r => Some ([(k, v)], r)
                        | _ => None
                        end
                    | None => None
                    end
                | _ => None
                end
            | None => None
            end
          else None
      | EmptyString => None
      end
  end.
End Containers.

(** [fuel] bounds the nesting and the length of the containers. *)
Fixpoint scan_value (fuel : nat) (s : string) : option (json * string) :=
  match fuel with
  | O => None
  | S fuel =>
      match s with
      | EmptyString => None
      | String c r =>
          if Ascii.eqb c quote then match scan_string r with Some (w, r) => Some (JStr w, r) | None => None end
          else if Ascii.eqb c "[" then
            match skip_ws r with
            | String "]" r => Some (JArr [], r)
            | _ => match elements (scan_value fuel) fuel r with Some (l, r) => Some (JArr l, r) | None => None end
            end
          else if Ascii.eqb c "{" then
            match skip_ws r with
            | String "}" r => Some (JObj [], r)
            | _ => match members (scan_value fuel) fuel r with Some (l, r) => Some (JObj l, r) | None => None end
            end
          else if Ascii.eqb c "n" then literal "null" JNull s
          else if Ascii.eqb c "t" then literal "true" (JBool true) s
          else if Ascii.eqb c "f" then literal "false" (JBool false) s
          else if Ascii.eqb c "N" then literal "NaN" (JFloat "NaN") s
          else if Ascii.eqb c "I" then literal "Infinity" (JFloat "Infinity") s
          else match literal "-Infinity" (JFloat "-Infinity") s with
               | Some x => Some x
               | None => scan_number s
               end
      end
  end.

Definition loads (s : string) : option json :=
  match scan_value (S (String.length s)) (skip_ws s) with
  | Some (v, r) => if string_is_empty (skip_ws r) then Some v else None
  | None => None
  end.

Definition q (s : string) : string := String quote (s ++ String quote EmptyString)%string.
Example loads_sample :
  loads ("{ " ++ q "a" ++ " : [1, -20, 3.5e2, true,null] , " ++ q "b" ++ ":" ++ q "x\u0041\n" ++ "}")
  = Some (JObj [("a", JArr [JInt 1; JInt (-20); JFloat "3.5e2"; JBool true; JNull]);
                ("b", JStr (String "x" (String "A" (chr 10))))])%string.
Proof. vm_compute. reflexivity. Qed.
Example dumps_sample :
  loads (dumps (JObj [("iss", JStr "module:sheets"); ("exp", JInt (-12)); ("scopes", JArr [JStr "a"; JStr (chr 233)])]))%string
  = Some (JObj [("iss", JStr "module:sheets"); ("exp", JInt (-12)); ("scopes", JArr [JStr "a"; JStr (chr 233)])])%string.
Proof. vm_compute. reflexivity. Qed.

(** ** What is dumped is read back *)

Lemma scan_escape c rest :
  scan_string (escape c ++ rest)%string
  = match scan_string rest with Some (w, r) => Some (String c w, r) | None => None end.
Proof. destruct c as [[] [] [] [] [] [] [] []]; reflexivity. Qed.

Lemma string_app_assoc (a b c : string) : ((a ++ b) ++ c)%string = (a ++ (b ++ c))%string.
Proof. induction a as [|x a IH]; [done|]. by rewrite !append_cons, IH. Qed.

Lemma scan_escaped s rest : scan_string (escaped s ++ String quote rest)%string = Some (s, rest).
Proof.
  induction s as [|c s IH]; [done|]. cbn [escaped]. by rewrite string_app_assoc, scan_escape, IH.
Qed.

(** Decimal digits, most significant first. *)
Definition starts_digit (s : string) : bool := match s with String c _ => is_digit c | EmptyString => false end.

Lemma take_digits_app d rest :
  string_forallb is_digit d = true -> starts_digit rest = false -> take_digits (d ++ rest)%string = (d, rest).
Proof.
  intros Hd Hr. induction d as [|c d IH].
  - rewrite append_nil. destruct rest as [|c rest]; [done|]. simpl in *. by rewrite Hr.
  - rewrite append_cons. simpl in *. apply andb_true_iff in Hd as [Hc Hd]. by rewrite Hc, IH.
Qed.

Lemma pretty_char x : (x < 10)%N ->
  is_digit (pretty_N_char x) = true /\ Z.of_nat (nat_of_ascii (pretty_N_char x)) - 48 = Z.of_N x /\
  ((0 < x)%N -> pretty_N_char x <> "0"%char).
Proof.
  intros Hx.
  assert (x = 0 \/ x = 1 \/ x = 2 \/ x = 3 \/ x = 4 \/ x = 5 \/ x = 6 \/ x = 7 \/ x = 8 \/ x = 9)%N as Hc by lia.
  repeat destruct Hc as [-> | Hc]; try subst x; by repeat split.
Qed.

Lemma decimal_app d c acc :
  decimal_value acc (d ++ String c EmptyString)%string
  = decimal_value acc d * 10 + (Z.of_nat (nat_of_ascii c) - 48).
Proof. revert acc. induction d as [|x d IH]; intros acc; [done|]. rewrite append_cons. simpl. apply IH. Qed.
Lemma forallb_app p d e : string_forallb p (d ++ e)%string = string_forallb p d && string_forallb p e.
Proof. induction d as [|x d IH]; [done|]. rewrite append_cons. simpl. by rewrite IH, andb_assoc. Qed.

Lemma pretty_digits (x : N) s : exists d,
  pretty_N_go x s = (d ++ s)%string /\ string_forallb is_digit d = true /\ decimal_value 0 d = Z.of_N x /\
  match d with EmptyString => x = 0%N | String c _ => c <> "0"%char end.
Proof.
  revert s. induction (N.lt_wf_0 x) as [x _ IH]; intros s.
  destruct (decide (x = 0)%N) as [->|Hx]; [by exists EmptyString|].
  rewrite pretty_N_go_step by lia.
  destruct (IH (x `div` 10)%N ltac:(apply N.div_lt; lia) (String (pretty_N_char (x `mod` 10)) s)) as (d & -> & Hd & Hv & Hz).
  destruct (pretty_char (x `mod` 10)) as (Hc & Hcv & Hcz); [apply N.mod_lt; lia|].
  exists (d ++ String (pretty_N_char (x `mod` 10)) EmptyString)%string. split; [by rewrite string_app_assoc|].
  split; [|split].
  - rewrite forallb_app, Hd. simpl. by rewrite Hc.
  - rewrite decimal_app, Hv, Hcv. pose proof (N.div_mod' x 10). lia.
  - destruct d as [|c d]; [|done]. rewrite append_nil. apply Hcz. pose proof (N.div_mod' x 10). lia.
Qed.

(** A number ends where no digit, fraction or exponent follows. *)
Definition ends_number (s : string) : bool :=
  match s with
  | String c _ => negb (is_digit c || Ascii.eqb c "." || Ascii.eqb c "e" || Ascii.eqb c "E")
  | EmptyString => true
  end.
Lemma ends_scan s : ends_number s = true ->
  starts_digit s = false /\ scan_fraction s = (EmptyString, s) /\ scan_exponent s = (EmptyString, s).
Proof.
  destruct s as [|c s]; [done|]. simpl. rewrite negb_true_iff, !orb_false_iff. intros [[[Hd Hp] He] HE].
  split; [done|]. rewrite He, HE. split; [|done].
  destruct (Ascii.eqb_spec c "."); [done|]. destruct c as [[] [] [] [] [] [] [] []]; try reflexivity; done.
Qed.

Lemma scan_pretty (p : positive) rest : ends_number rest = true ->
  exists c d, pretty p = String c d /\ is_digit c = true /\
    scan_number (pretty p ++ rest)%string = Some (JInt (Zpos p), rest) /\
    scan_number (String "-" (pretty p ++ rest))%string = Some (JInt (Zneg p), rest).
Proof.
  intros Hr. unfold pretty, pretty_positive, pretty, pretty_N. rewrite decide_False by done.
  destruct (pretty_digits (N.pos p) EmptyString) as (d & -> & Hd & Hv & Hz). destruct d as [|c d]; [done|].
  destruct (ends_scan rest Hr) as (Hsd & Hf & He).
  assert (Happ : forall a : string, (a ++ EmptyString)%string = a) by (intros a; induction a as [|x a IH]; [done|]; by rewrite append_cons, IH).
  rewrite Happ. exists c, d. split; [done|]. pose proof Hd as Hd'. simpl in Hd'. apply andb_true_iff in Hd' as [Hc _].
  assert (Hnum : forall neg : bool,
    (let '(ds, r) := match (String c d ++ rest)%string with String "0" r => ("0"%string, r) | _ => take_digits (String c d ++ rest)%string end in
     if string_is_empty ds then None
     else let '(frac, r) := scan_fraction r in let '(expo, r) := scan_exponent r in
       if string_is_empty (frac ++ expo) then Some (JInt (if neg then - int_of_digits ds else int_of_digits ds), r)
       else Some (JFloat ((if neg then "-" else "") ++ ds ++ frac ++ expo)%string, r))
    = Some (JInt (if neg then Zneg p else Zpos p), rest)).
  { intros neg. rewrite (take_digits_app (String c d) rest Hd Hsd), append_cons.
    replace (match String c (d ++ rest) with String "0" r => ("0"%string, r) | _ => (String c d, rest) end) with (String c d, rest).
    2: { destruct c as [[] [] [] [] [] [] [] []]; try reflexivity; done. }
    simpl string_is_empty. rewrite Hf, He. simpl string_is_empty. cbv iota. unfold int_of_digits. rewrite Hv. by destruct neg. }
  split; [done|]. split; [|exact (Hnum true)].
  unfold scan_number. pose proof (Hnum false) as Hn. rewrite append_cons in *.
  destruct c as [[] [] [] [] [] [] [] []]; done.
Qed.

Fixpoint exact (j : json) : bool :=
  match j with
  | JFloat _ => false
  | JArr l => forallb exact l
  | JObj fields => forallb (fun kv => exact kv.2) fields
  | _ => true
  end.
Fixpoint jsize (j : json) : nat :=
  match j with
  | JArr l => S (list_sum (map jsize l))
  | JObj fields => S (list_sum (map (fun kv => jsize kv.2) fields))
  | _ => 1
  end.

Lemma jsize_pos j : (1 <= jsize j)%nat.
Proof. destruct j; simpl; lia. Qed.

(** The first character of a dumped value. *)
Definition value_head (c : ascii) : bool := negb (is_ws c || Ascii.eqb c "]" || Ascii.eqb c "}").
Lemma digit_head c : is_digit c = true -> value_head c = true.
Proof. destruct c as [[] [] [] [] [] [] [] []]; done. Qed.
Lemma dumps_head j : exact j = true -> exists c t, dumps j = String c t /\ value_head c = true.
Proof.
  destruct j as [|[]|z|l|s|l|fields]; simpl; try done; intros _; try by eexists _, _.
  destruct z as [|p|p].
  - by exists "0"%char, EmptyString.
  - destruct (scan_pretty p EmptyString eq_refl) as (c & d & Hp & Hc & _). exists c, d. split; [exact Hp|]. by apply digit_head.
  - by eexists _, _.
Qed.
Lemma skip_value j rest : exact j = true -> skip_ws (dumps j ++ rest)%string = (dumps j ++ rest)%string.
Proof.
  intros Hj. destruct (dumps_head j Hj) as (c & t & -> & Hc). rewrite append_cons. simpl.
  unfold value_head in Hc. by destruct (is_ws c).
Qed.
Lemma not_bracket j rest : exact j = true ->
  (forall r, (dumps j ++ rest)%string <> String "]" r) /\ (forall r, (dumps j ++ rest)%string <> String "}" r).
Proof.
  intros Hj. destruct (dumps_head j Hj) as (c & t & -> & Hc). split; intros r [= -> _]; done.
Qed.

Lemma commas_cons s l : l <> [] -> commas (s :: l) = (s ++ String "," (commas l))%string.
Proof. by destruct l. Qed.
Lemma commas_length {A} (f : A -> string) (g : A -> nat) l :
  (forall x, In x l -> (g x <= String.length (f x))%nat) -> (list_sum (map g l) <= String.length (commas (map f l)))%nat.
Proof.
  induction l as [|x l IH]; [done|]. intros Hl. specialize (IH (fun y Hy => Hl y (or_intror Hy))).
  pose proof (Hl x (or_introl eq_refl)) as Hx. destruct l as [|y l]; [simpl; lia|].
  change (map f (x :: y :: l)) with (f x :: map f (y :: l)). rewrite commas_cons, string_length_app by done.
  change (map g (x :: y :: l)) with (g x :: map g (y :: l)). cbn [String.length list_sum foldr] in *. unfold list_sum in *. lia.
Qed.

Lemma dumps_length j : exact j = true -> (jsize j <= String.length (dumps j))%nat.
Proof.
  revert j. fix IH 1. intros [|[]|z|l|s|l|fields] Hj; simpl in *; try done; try lia.
  - destruct (dumps_head (JInt z) Hj) as (c & t & Hd & _). simpl in Hd. rewrite Hd. simpl. lia.
  - rewrite string_length_app. simpl.
    assert (Hs : (list_sum (map jsize l) <= String.length (commas (map dumps l)))%nat); [|lia].
    apply commas_length. induction l as [|x l IHl]; [done|]. simpl in Hj. apply andb_true_iff in Hj as [Hx Hl].
    intros y [<-|Hy]; [by apply IH|by apply IHl].
  - rewrite string_length_app. simpl.
    set (show := fun kv : string * json => (dumps_str kv.1 ++ String ":" (dumps kv.2))%string).
    assert (Hs : (list_sum (map (fun kv => jsize kv.2) fields) <= String.length (commas (map show fields)))%nat); [|lia].
    apply commas_length. induction fields as [|x l IHl]; [done|]. simpl in Hj. apply andb_true_iff in Hj as [Hx Hl].
    intros y [<-|Hy]; [|by apply IHl]. unfold show. rewrite string_length_app. simpl. pose proof (IH x.2 Hx). lia.
Qed.

Section Containers.
Variable value : string -> option (json * string).
Definition reads (j : json) : Prop :=
  exact j = true /\ forall rest, ends_number rest = true -> value (dumps j ++ rest)%string = Some (j, rest).

Lemma elements_dumps l n rest :
  Forall reads l -> l <> [] -> (length l <= n)%nat ->
  elements value n (commas (map dumps l) ++ String "]" rest)%string = Some (l, rest).
Proof.
  intros Hl. revert n. induction Hl as [|x l [Hx Hv] Hl IH]; [done|]. intros n _ Hn. destruct n as [|n]; [simpl in Hn; lia|].
  assert (Hstep : forall tail, ends_number tail = true -> elements value (S n) (dumps x ++ tail)%string =
    match skip_ws tail with
    | String "," r => match elements value n r with Some (l, r) => Some (x :: l, r) | None => None end
    | String "]" r => Some ([x], r)
    | _ => None
    end) by (intros tail Ht; cbn [elements]; by rewrite skip_value, Hv).
  destruct l as [|y l]; [by rewrite Hstep|].
  change (map dumps (x :: y :: l)) with (dumps x :: map dumps (y :: l)).
  rewrite commas_cons, string_app_assoc, append_cons, Hstep by done. change (skip_ws (String "," ?s)) with (String "," s). cbv iota.
  rewrite IH; [done|done|simpl in *; lia].
Qed.

Lemma members_dumps (l : list (string * json)) n rest :
  Forall (fun kv => reads kv.2) l -> l <> [] -> (length l <= n)%nat ->
  members value n (commas (map (fun kv => (dumps_str kv.1 ++ String ":" (dumps kv.2))%string) l) ++ String "}" rest)%string
  = Some (l, rest).
Proof.
  intros Hl. revert n. induction Hl as [|[k x] l [Hx Hv] Hl IH]; [done|]. intros n _ Hn. destruct n as [|n]; [simpl in Hn; lia|].
  set (show := fun kv : string * json => (dumps_str kv.1 ++ String ":" (dumps kv.2))%string) in *. cbn [fst snd] in *.
  assert (Hstep : forall tail, ends_number tail = true -> members value (S n) (show (k, x) ++ tail)%string =
    match skip_ws tail with
    | String "," r => match members value n r with Some (l, r) => Some ((k, x) :: l, r) | None => None end
    | String "}" r => Some ([(k, x)], r)
    | _ => None
    end).
  { intros tail Ht. unfold show. cbn [fst snd]. unfold dumps_str. rewrite string_app_assoc, !append_cons, string_app_assoc, !append_cons.
    cbn [members]. change (skip_ws (String quote ?s)) with (String quote s). cbv iota.
    change (Ascii.eqb quote quote) with true. cbv iota. rewrite append_nil. rewrite scan_escaped.
    change (skip_ws (String ":" ?s)) with (String ":" s). cbv iota. by rewrite skip_value, Hv. }
  destruct l as [|y l].
  - cbn [map commas]. rewrite Hstep by done. done.
  - change (map show ((k, x) :: y :: l)) with (show (k, x) :: map show (y :: l)).
    rewrite commas_cons, string_app_assoc, append_cons, Hstep by done. change (skip_ws (String "," ?s)) with (String "," s). cbv iota.
    rewrite IH; [done|done|simpl in *; lia].
Qed.
End Containers.

Lemma scan_dumps fuel j : exact j = true -> (jsize j <= fuel)%nat -> reads (scan_value fuel) j.
Proof.
  revert j. induction fuel as [|fuel IH]; intros j Hj Hf; [pose proof (jsize_pos j); lia|].
  split; [done|]. intros rest Hr.
  assert (Hsub : forall l : list json, forallb exact l = true -> (list_sum (map jsize l) <= fuel)%nat ->
    Forall (reads (scan_value fuel)) l /\ (length l <= fuel)%nat).
  { clear -IH. induction l as [|x l IHl]; intros Hl Hs; [split; [done|simpl; lia]|].
    simpl in *. apply andb_true_iff in Hl as [Hx Hl]. pose proof (jsize_pos x). destruct (IHl Hl ltac:(lia)) as [Hall Hlen].
    split; [constructor; [apply IH; [done|lia]|done]|].
    assert (length l <= list_sum (map jsize l))%nat; [|lia].
    clear. induction l as [|y l IH]; simpl; [lia|]. pose proof (jsize_pos y). lia. }
  destruct j as [|[]|z|lit|s|l|fields]; try done.
  - destruct z as [|p|p]; cbn [dumps].
    + unfold str_of_Z, pretty, pretty_Z. rewrite append_cons, append_nil. cbn.
      destruct (ends_scan rest Hr) as (_ & Hfr & Hex). unfold scan_number. by rewrite Hfr, Hex.
    + destruct (scan_pretty p rest Hr) as (c & d & Hp & Hc & Hscan & _). change (str_of_Z (Zpos p)) with (pretty p).
      rewrite <- Hscan, Hp, append_cons. cbn [scan_value].
      destruct c as [[] [] [] [] [] [] [] []]; try done.
    + destruct (scan_pretty p rest Hr) as (c & d & Hp & Hc & _ & Hscan).
      change (str_of_Z (Zneg p)) with (String "-" (pretty p)). rewrite append_cons, <- Hscan, Hp, append_cons. cbn [scan_value].
      change (Ascii.eqb "-" ?x) with false. cbv iota. destruct c as [[] [] [] [] [] [] [] []]; try done.
  - cbn [dumps]. unfold dumps_str. rewrite append_cons, string_app_assoc, append_cons, append_nil. cbn [scan_value].
    change (Ascii.eqb quote quote) with true. cbv iota. by rewrite scan_escaped.
  - cbn [dumps]. rewrite append_cons, string_app_assoc, append_cons, append_nil. cbn [scan_value exact jsize] in *.
    change (Ascii.eqb "[" quote) with false. cbv iota. change (Ascii.eqb "[" "[") with true. cbv iota.
    destruct l as [|x l]; [done|]. destruct (Hsub _ Hj ltac:(lia)) as [Hall Hlen].
    rewrite elements_dumps by done.
    destruct (skip_ws _) as [|c r] eqn:Hsk; [done|].
    destruct (decide (c = "]"%char)) as [->|Hne].
    2: { destruct c as [[] [] [] [] [] [] [] []]; try done. }
    exfalso. simpl in Hj. apply andb_true_iff in Hj as [Hx _].
    destruct l as [|y l]; [cbn [map commas] in Hsk; rewrite skip_value in Hsk by done; by apply (not_bracket x) in Hsk|].
    change (map dumps (x :: y :: l)) with (dumps x :: map dumps (y :: l)) in Hsk.
    rewrite commas_cons, string_app_assoc, skip_value in Hsk by done. by apply (not_bracket x) in Hsk.
  - cbn [dumps]. rewrite append_cons, string_app_assoc, append_cons, append_nil. cbn [scan_value exact jsize] in *.
    change (Ascii.eqb "{" quote) with false. cbv iota. change (Ascii.eqb "{" "[") with false. change (Ascii.eqb "{" "{") with true. cbv iota.
    destruct fields as [|[k x] fields]; [done|].
    assert (Hobj : Forall (fun kv : string * json => reads (scan_value fuel) kv.2) ((k, x) :: fields) /\
                   (length ((k, x) :: fields) <= fuel)%nat).
    { assert (Hm : forall l : list (string * json), forallb exact (map snd l) = forallb (fun kv => exact kv.2) l)
        by (clear; intros l; induction l as [|y l IHl]; [done|]; simpl; by rewrite IHl).
      destruct (Hsub (map snd ((k, x) :: fields))) as [Hall Hlen]; [by rewrite Hm|rewrite map_map; lia|].
      rewrite length_map in Hlen. split; [|done]. exact (proj1 (List.Forall_map snd _ _) Hall). }
    destruct Hobj as [Hall Hlen]. rewrite members_dumps by done.
    destruct (skip_ws _) as [|c r] eqn:Hsk; [done|].
    assert (c = quote) as ->; [|done].
    destruct fields; unfold dumps_str in Hsk; cbn [map commas fst] in Hsk; rewrite ?string_app_assoc, !append_cons in Hsk;
      simpl in Hsk; congruence.
Qed.

(** What is dumped, without floats, is what is read back. *)
Lemma loads_dumps j : exact j = true -> loads (dumps j) = Some j.
Proof.
  intros Hj. assert (Happ : forall a : string, (a ++ EmptyString)%string = a)
    by (intros a; induction a as [|x a IH]; [done|]; by rewrite append_cons, IH).
  unfold loads. rewrite <- (Happ (dumps j)) at 2. rewrite (skip_value j EmptyString Hj).
  destruct (scan_dumps (S (String.length (dumps j))) j Hj) as [_ Hs]; [pose proof (dumps_length j Hj); lia|].
  by rewrite (Hs EmptyString eq_refl).
Qed.
