(* ===== verification/Base64.v ===== *)
(** base64's URL-safe alphabet: encoding without padding, and the lenient
    decoder of [base64.urlsafe_b64decode]. *)

From S2P Require Export Prelude.

#[local] Open Scope Z_scope.

Definition byte_of (n : Z) : ascii := ascii_of_nat (Z.to_nat n).
Definition code (c : ascii) : Z := Z.of_nat (nat_of_ascii c).

Definition b64_char (n : Z) : ascii :=
  if n <? 26 then byte_of (65 + n)
  else if n <? 52 then byte_of (97 + (n - 26))
  else if n <? 62 then byte_of (48 + (n - 52))
  else if n =? 62 then "-"%char else "_"%char.
(** The value of a character of either alphabet; others are skipped. *)
Definition b64_value (c : ascii) : option Z :=
  if char_in 65 90 c then Some (code c - 65)
  else if char_in 97 122 c then Some (code c - 97 + 26)
  else if char_in 48 57 c then Some (code c - 48 + 52)
  else if Ascii.eqb c "-" || Ascii.eqb c "+" then Some 62
  else if Ascii.eqb c "_" || Ascii.eqb c "/" then Some 63
  else None.

(** [base64.urlsafe_b64encode(raw).rstrip(b"=")]. *)
Fixpoint _b64url_encode (raw : string) : string :=
  match raw with
  | EmptyString => EmptyString
  | String a EmptyString => String (b64_char (code a / 4)) (String (b64_char (code a mod 4 * 16)) EmptyString)
  | String a (String b EmptyString) =>
      String (b64_char (code a / 4)) (String (b64_char (code a mod 4 * 16 + code b / 16))
        (String (b64_char (code b mod 16 * 4)) EmptyString))
  | String a (String b (String c raw)) =>
      String (b64_char (code a / 4)) (String (b64_char (code a mod 4 * 16 + code b / 16))
        (String (b64_char (code b mod 16 * 4 + code c / 64)) (String (b64_char (code c mod 64)) (_b64url_encode raw))))
  end.

(** [binascii.a2b_base64], not strict: [quad] characters of the current group
    were read, [left] holds the bits not written yet, [pads] counts the padding
    since the last of them.  A group its padding completes ends the input. *)
Fixpoint a2b_base64 (s : string) (quad : nat) (left : Z) (pads : nat) : option string :=
  match s with
  | EmptyString => if Nat.eqb quad 0 then Some EmptyString else None
  | String c s =>
      if Ascii.eqb c "=" then
        if Nat.leb 2 quad then
          if Nat.leb 4 (quad + S pads) then Some EmptyString else a2b_base64 s quad left (S pads)
        else a2b_base64 s quad left pads
      else
        match b64_value c with
        | None => a2b_base64 s quad left pads
        | Some v =>
            match quad with
            | 0%nat => a2b_base64 s 1 v 0
            | 1%nat => String (byte_of (left * 4 + v / 16)) <$> a2b_base64 s 2 (v mod 16) 0
            | 2%nat => String (byte_of (left * 16 + v / 4)) <$> a2b_base64 s 3 (v mod 4) 0
            | _ => String (byte_of (left * 64 + v)) <$> a2b_base64 s 0 0 0
            end
        end
  end.

(** [-len(encoded) % 4] padding characters. *)
Definition padding (encoded : string) : string :=
  match (String.length encoded mod 4)%nat with 1%nat => "===" | 2%nat => "==" | 3%nat => "=" | _ => EmptyString end.
(** None: [binascii.Error], or [ValueError] on a character beyond ASCII. *)
Definition _b64url_decode (encoded : string) : option string :=
  if string_forallb (char_in 0 127) encoded then a2b_base64 (encoded ++ padding encoded) 0 0 0 else None.

(** ** The round trip *)

Lemma code_bound c : 0 <= code c < 256.
Proof. unfold code. pose proof (nat_ascii_bounded c). lia. Qed.
Lemma byte_code c : byte_of (code c) = c.
Proof. unfold byte_of, code. by rewrite Nat2Z.id, ascii_nat_embedding. Qed.

Lemma b64_char_ok n : 0 <= n < 64 ->
  Ascii.eqb (b64_char n) "=" = false /\ b64_value (b64_char n) = Some n /\ char_in 0 127 (b64_char n) = true /\
  Ascii.eqb (b64_char n) "." = false.
Proof.
  intros Hn.
  assert (Hall : forallb (fun k => let n := Z.of_nat k in
    negb (Ascii.eqb (b64_char n) "=") && match b64_value (b64_char n) with Some m => m =? n | None => false end &&
    char_in 0 127 (b64_char n) && negb (Ascii.eqb (b64_char n) ".")) (seq 0 64) = true) by by vm_compute.
  rewrite forallb_forall in Hall. specialize (Hall (Z.to_nat n)).
  rewrite Z2Nat.id in Hall by lia. specialize (Hall ltac:(apply in_seq; lia)). simpl in Hall.
  rewrite !andb_true_iff, !negb_true_iff in Hall. destruct Hall as (((H1 & H2) & H3) & H4).
  destruct (b64_value (b64_char n)) as [m|]; [|done]. apply Z.eqb_eq in H2 as ->. done.
Qed.

(** One more character of a group. *)
Lemma a2b_step n s quad left pads : 0 <= n < 64 ->
  a2b_base64 (String (b64_char n) s) quad left pads =
  match quad with
  | 0%nat => a2b_base64 s 1 n 0
  | 1%nat => String (byte_of (left * 4 + n / 16)) <$> a2b_base64 s 2 (n mod 16) 0
  | 2%nat => String (byte_of (left * 16 + n / 4)) <$> a2b_base64 s 3 (n mod 4) 0
  | _ => String (byte_of (left * 64 + n)) <$> a2b_base64 s 0 0 0
  end.
Proof. intros Hn. destruct (b64_char_ok n Hn) as (He & Hv & _). cbn [a2b_base64]. by rewrite He, Hv. Qed.

(** Three bytes at a time. *)
Lemma bytes_ind (P : string -> Prop) :
  P EmptyString -> (forall a, P (String a EmptyString)) -> (forall a b, P (String a (String b EmptyString))) ->
  (forall a b c s, P s -> P (String a (String b (String c s)))) -> forall s, P s.
Proof.
  intros H0 H1 H2 H3. fix IH 1. intros [|a [|b [|c s]]]; [exact H0|apply H1|apply H2|apply H3, IH].
Qed.

Section Bits.
Local Ltac Zify.zify_post_hook ::= Z.to_euclidean_division_equations.
Lemma bits1 a : 0 <= a < 256 -> 0 <= a / 4 < 64 /\ 0 <= a mod 4 * 16 < 64 /\
  a / 4 * 4 + a mod 4 * 16 / 16 = a /\ a mod 4 * 16 mod 16 = 0.
Proof. lia. Qed.
Lemma bits2 a b : 0 <= a < 256 -> 0 <= b < 256 ->
  0 <= a mod 4 * 16 + b / 16 < 64 /\ a / 4 * 4 + (a mod 4 * 16 + b / 16) / 16 = a /\
  (a mod 4 * 16 + b / 16) mod 16 = b / 16 /\ 0 <= b mod 16 * 4 < 64 /\
  b / 16 * 16 + b mod 16 * 4 / 4 = b /\ b mod 16 * 4 mod 4 = 0.
Proof. lia. Qed.
Lemma bits3 b c : 0 <= b < 256 -> 0 <= c < 256 ->
  0 <= b mod 16 * 4 + c / 64 < 64 /\ b / 16 * 16 + (b mod 16 * 4 + c / 64) / 4 = b /\
  (b mod 16 * 4 + c / 64) mod 4 = c / 64 /\ 0 <= c mod 64 < 64 /\ c / 64 * 64 + c mod 64 = c.
Proof. lia. Qed.
End Bits.

(** What holds of the alphabet holds of an encoded text. *)
Lemma encode_all (P : ascii -> bool) s :
  forallb (fun k => P (b64_char (Z.of_nat k))) (seq 0 64) = true -> string_forallb P (_b64url_encode s) = true.
Proof.
  intros HP. assert (Hall : forall n, 0 <= n < 64 -> P (b64_char n) = true).
  { intros n Hn. rewrite forallb_forall in HP. specialize (HP (Z.to_nat n)). rewrite Z2Nat.id in HP by lia.
    apply HP, in_seq. lia. }
  pose proof code_bound as Hb.
  induction s as [|a|a b|a b c s IH] using bytes_ind; [done|..];
    pose proof (bits1 (code a) (Hb a)) as (Ha & Ha' & _);
    try pose proof (bits2 (code a) (code b) (Hb a) (Hb b)) as (Hab & _ & _ & Hb' & _);
    try pose proof (bits3 (code b) (code c) (Hb b) (Hb c)) as (Hbc & _ & _ & Hc' & _);
    cbn [_b64url_encode string_forallb]; rewrite ?Hall by assumption; simpl; auto.
Qed.

Lemma encode_ascii s : string_forallb (char_in 0 127) (_b64url_encode s) = true /\
  string_forallb (fun c => negb (Ascii.eqb c ".")) (_b64url_encode s) = true.
Proof. split; apply encode_all; by vm_compute. Qed.
Lemma encode_nospace s : string_forallb (fun c => negb (is_space c)) (_b64url_encode s) = true.
Proof. apply encode_all. by vm_compute. Qed.

(** Decoding what was encoded. *)
Lemma b64_round_trip s : _b64url_decode (_b64url_encode s) = Some s.
Proof.
  unfold _b64url_decode. rewrite (proj1 (encode_ascii s)).
  assert (Hlen : forall a b c d t, padding (String a (String b (String c (String d t)))) = padding t).
  { intros. unfold padding. cbn [String.length]. replace (S (S (S (S (String.length t))))) with (String.length t + 1 * 4)%nat by lia.
    by rewrite Nat.Div0.mod_add. }
  pose proof code_bound as Hb.
  induction s as [|a|a b|a b c s IH] using bytes_ind; [done|..];
    pose proof (bits1 (code a) (Hb a)) as (Ha & Ha' & Hae & Har);
    try pose proof (bits2 (code a) (code b) (Hb a) (Hb b)) as (Hab & Hae2 & Har2 & Hb' & Hbe & Hbr);
    try pose proof (bits3 (code b) (code c) (Hb b) (Hb c)) as (Hbc & Hbe3 & Hbr3 & Hc' & Hce);
    cbn [_b64url_encode]; rewrite ?Hlen, ?append_cons, ?append_nil, !a2b_step by assumption.
  - rewrite Hae, byte_code. done.
  - rewrite Hae2, Har2, Hbe, !byte_code. done.
  - rewrite Hae2, Har2, Hbe3, Hbr3, Hce, !byte_code, IH. done.
Qed.
