(* ===== verification/Jwt.v ===== *)
(** The platform's internal tokens: core/.../auth/jwt.py.  A token is the
    URL-safe base64 of a JSON header, a JSON payload and a 64 byte ES256
    signature that Cloud KMS makes over the first two. *)

From S2P Require Export Json Base64 Concurrency.

#[local] Open Scope Z_scope.

(** ** The libraries and the key service *)

(** hashlib's SHA-256 and the [cryptography] package: DER signatures to and
    from their two integers, a PEM's elliptic curve key ([Ok None] for another
    kind of key), and verification of a DER signature over a digest. *)
Class JwtCrypto := {
  pubkey : Type;
  sha256 : string -> string;
  decode_dss_signature : string -> option (Z * Z);
  encode_dss_signature : Z -> Z -> string;
  load_pem_public_key : string -> result (option pubkey);
  ecdsa_verify : pubkey -> string -> string -> bool;
}.

(** The calls that leave the process, and the process's key cache. *)
Inductive jwt_call `{JwtCrypto} : Type -> Type :=
| AsymmetricSign (digest : string) : jwt_call string
| GetPublicKey : jwt_call string
| CachedKey : jwt_call (option pubkey)
| CacheKey (k : pubkey) : jwt_call unit.

(** ** Claims *)

Definition invalid_jwt (msg : string) : exn := mk_exn "InvalidJWTError" msg.

Record ModuleClaims := {
  module_id : string; seller_id : Z; iss : string; iat : Z; exp : Z;
  token_type : option string; scopes : option (list string); issued_by : option string;
  platform_user_id : option string;
}.
Record StateClaims := { st_platform_user_id : string; st_iat : Z; st_exp : Z }.

Definition payload := list (string * json).

(** A JSON boolean is a Python [int]. *)
Definition _int_claim (p : payload) (key : string) : result Z :=
  match field p key with
  | Some (JInt z) => Ok z
  | Some (JBool b) => Ok (Z.b2z b)
  | _ => Err (invalid_jwt ("JWT claim " ++ key ++ " must be an integer"))
  end.
Definition _str_claim (p : payload) (key : string) : result string :=
  match field p key with
  | Some (JStr s) => Ok s
  | _ => Err (invalid_jwt ("JWT claim " ++ key ++ " must be a string"))
  end.
Definition _optional_str_claim (p : payload) (key : string) : result (option string) :=
  match field p key with None => Ok None | Some _ => let! s := _str_claim p key in Ok (Some s) end.
Definition json_str (j : json) : option string := match j with JStr s => Some s | _ => None end.
Definition _optional_str_list_claim (p : payload) (key : string) : result (option (list string)) :=
  match field p key with
  | None => Ok None
  | Some (JArr l) =>
      if forallb (fun j => is_some (json_str j)) l then Ok (Some (omap json_str l))
      else Err (invalid_jwt ("JWT claim " ++ key ++ " must be a string array"))
  | Some _ => Err (invalid_jwt ("JWT claim " ++ key ++ " must be a string array"))
  end.

(** ** Signatures *)

Definition ES256_COORDINATE_SIZE : nat := 32.

(** [n.to_bytes(k, "big")] without its range check, and [int.from_bytes]. *)
Fixpoint big_endian (k : nat) (n : Z) : string :=
  match k with
  | O => EmptyString
  | S k => String (byte_of (n / 256 ^ Z.of_nat k mod 256)) (big_endian k n)
  end.
Definition to_bytes (n : Z) (k : nat) : result string :=
  if (0 <=? n) && (n <? 256 ^ Z.of_nat k) then Ok (big_endian k n) else Err (mk_exn "OverflowError" "int too big to convert").
Fixpoint from_bytes (acc : Z) (s : string) : Z :=
  match s with
  | EmptyString => acc
  | String c s => from_bytes (acc * 256 + code c) s
  end.

Section Jwt.
Context `{JwtCrypto}.

Definition der_to_jose_es256 (der_signature : string) : result string :=
  match decode_dss_signature der_signature with
  | None => raise_value "invalid DER signature"
  | Some (r, s) =>
      let! rb := to_bytes r ES256_COORDINATE_SIZE in
      let! sb := to_bytes s ES256_COORDINATE_SIZE in
      Ok (rb ++ sb)%string
  end.
Definition jose_to_der_es256 (jose_signature : string) : result string :=
  if negb (Nat.eqb (String.length jose_signature) (ES256_COORDINATE_SIZE * 2))
  then Err (invalid_jwt "ES256 signature must be 64 bytes")
  else Ok (encode_dss_signature (from_bytes 0 (substring 0 ES256_COORDINATE_SIZE jose_signature))
             (from_bytes 0 (substring ES256_COORDINATE_SIZE ES256_COORDINATE_SIZE jose_signature))).

(** ** Tokens *)

Definition header_fields : list (string * string) := [("alg", "ES256"); ("kid", "platform-jwt:1"); ("typ", "JWT")]%string.
Definition JWT_HEADER : json := JObj (map (fun kv => (kv.1, JStr kv.2)) header_fields).
(** Equality with [JWT_HEADER] as Python dicts. *)
Definition is_jwt_header (j : json) : bool :=
  match j with
  | JObj fields =>
      forallb (fun kv => string_in kv.1 (map fst header_fields)) fields &&
      forallb (fun kv => match field fields kv.1 with Some (JStr s) => String.eqb s kv.2 | _ => false end) header_fields
  | _ => false
  end.

Definition _signing_input (header : json) (p : payload) : string :=
  (_b64url_encode (dumps header) ++ String "." (_b64url_encode (dumps (JObj p))))%string.

(** [json.loads] of a decoded segment; the model's texts are ASCII. *)
Definition load_segment (encoded : string) : result json :=
  match _b64url_decode encoded with
  | None => Err (mk_exn "binascii.Error" "Incorrect padding")
  | Some raw => match loads raw with Some j => Ok j | None => Err (mk_exn "JSONDecodeError" "") end
  end.

Definition _parse_token (token : string) : result (string * payload * string) :=
  match split_char "." token with
  | [h; p; s] =>
      let! header := load_segment h in
      if negb (is_jwt_header header) then Err (invalid_jwt "JWT header is not supported")
      else
        let! body := load_segment p in
        match body with
        | JObj fields =>
            match _b64url_decode s with
            | Some signature => Ok ((h ++ String "." p)%string, fields, signature)
            | None => Err (mk_exn "binascii.Error" "Incorrect padding")
            end
        | _ => Err (invalid_jwt "JWT payload must be an object")
        end
  | _ => Err (invalid_jwt "JWT must have three segments")
  end.

Context {E : Type -> Type}.
Variable jwt : forall X, jwt_call X -> E X.

(** [int(time.time())]. *)
Definition unix_time : prog E Z := let* now := now_utc in Ret (now / second).

Definition _public_key : prog E pubkey :=
  let* cached := ext (jwt _ CachedKey) in
  match cached with
  | Some k => Ret k
  | None =>
      let* pem := ext (jwt _ GetPublicKey) in
      let* loaded := of_result (load_pem_public_key pem) in
      match loaded with
      | None => Raise (invalid_jwt "KMS public key is not an EC key")
      | Some k => do* ext (jwt _ (CacheKey k)) in Ret k
      end
  end.

Definition _verify_signature (signing_input jose_signature : string) : prog E unit :=
  let digest := sha256 signing_input in
  let* k := _public_key in
  let* der := of_result (jose_to_der_es256 jose_signature) in
  if ecdsa_verify k der digest then Ret tt else Raise (invalid_jwt "JWT signature is invalid").

Definition _verify_es256_jwt (token expected_aud : string) : prog E payload :=
  let* '(signing_input, p, signature) := of_result (_parse_token token) in
  do* _verify_signature signing_input signature in
  if match field p "aud" with Some (JStr s) => String.eqb s expected_aud | _ => false end then
    let* exp := of_result (_int_claim p "exp") in
    let* now := unix_time in
    if exp <=? now then Raise (mk_exn "ExpiredJWTError" "JWT has expired") else Ret p
  else Raise (mk_exn "WrongAudienceError" ("JWT audience must be " ++ expected_aud)).

(** The claims of a verified payload. *)
Definition module_claims (p : payload) : result ModuleClaims :=
  let! exp := _int_claim p "exp" in
  let! iss := _str_claim p "iss" in
  match strip_prefix "module:" iss with
  | None => Err (invalid_jwt "JWT issuer must be module:<module_id>")
  | Some module_id =>
      if string_is_empty module_id then Err (invalid_jwt "JWT issuer must be module:<module_id>")
      else
        let! sub := _str_claim p "sub" in
        let! seller_id := py_int (VStr sub) in
        let! _ := match field p "module_id" with
                  | None => Ok tt
                  | Some _ =>
                      let! m := _str_claim p "module_id" in
                      if String.eqb m module_id then Ok tt else Err (invalid_jwt "JWT claim module_id must match issuer")
                  end in
        let! _ := match field p "seller_id" with
                  | None => Ok tt
                  | Some _ =>
                      let! s := _int_claim p "seller_id" in
                      if s =? seller_id then Ok tt else Err (invalid_jwt "JWT claim seller_id must match subject")
                  end in
        let! iat := _int_claim p "iat" in
        let! token_type := _optional_str_claim p "token_type" in
        let! scopes := _optional_str_list_claim p "scopes" in
        let! issued_by := _optional_str_claim p "issued_by" in
        let! platform_user_id := _optional_str_claim p "platform_user_id" in
        Ok {| module_id := module_id; seller_id := seller_id; iss := iss; iat := iat; exp := exp;
              token_type := token_type; scopes := scopes; issued_by := issued_by; platform_user_id := platform_user_id |}
  end.

Definition JWT_AUDIENCE : string := "gateway".
Definition STATE_JWT_AUDIENCE : string := "oauth-state".

Definition verify_module_jwt (token : string) : prog E ModuleClaims :=
  let* p := _verify_es256_jwt token JWT_AUDIENCE in of_result (module_claims p).

Definition verify_state_jwt (token : string) : prog E StateClaims :=
  let* p := _verify_es256_jwt token STATE_JWT_AUDIENCE in
  let* user := of_result (_str_claim p "platform_user_id") in
  let* iat := of_result (_int_claim p "iat") in
  let* exp := of_result (_int_claim p "exp") in
  Ret {| st_platform_user_id := user; st_iat := iat; st_exp := exp |}.

Definition _mint_es256_jwt (p : payload) : prog E string :=
  let signing_input := _signing_input JWT_HEADER p in
  let* signature := ext (jwt _ (AsymmetricSign (sha256 signing_input))) in
  let* jose_signature := of_result (der_to_jose_es256 signature) in
  Ret (signing_input ++ String "." (_b64url_encode jose_signature))%string.

Definition optional {A} (key : string) (v : option A) (f : A -> json) : payload :=
  match v with Some x => [(key, f x)] | None => [] end.

Definition module_payload (module_id : string) (seller_id now ttl_s : Z) (token_type : option string)
    (scopes : option (list string)) (issued_by platform_user_id : option string) : payload :=
  [("iss", JStr ("module:" ++ module_id)); ("aud", JStr JWT_AUDIENCE); ("sub", JStr (str_of_Z seller_id));
   ("iat", JInt now); ("exp", JInt (now + ttl_s))]%string ++
  match token_type with
  | Some t => [("token_type", JStr t); ("module_id", JStr module_id); ("seller_id", JInt seller_id)]%string
  | None => []
  end ++
  optional "scopes" scopes (fun l => JArr (map JStr l)) ++
  optional "issued_by" issued_by JStr ++
  optional "platform_user_id" platform_user_id JStr.

Definition mint_module_jwt (module_id : string) (seller_id ttl_s : Z) (token_type : option string)
    (scopes : option (list string)) (issued_by platform_user_id : option string) : prog E string :=
  let* now := unix_time in
  _mint_es256_jwt (module_payload module_id seller_id now ttl_s token_type scopes issued_by platform_user_id).

Definition mint_state_jwt (platform_user_id : string) (ttl_s : Z) : prog E string :=
  let* now := unix_time in
  _mint_es256_jwt [("aud", JStr STATE_JWT_AUDIENCE); ("platform_user_id", JStr platform_user_id); ("iat", JInt now);
                   ("exp", JInt (now + ttl_s))]%string.
End Jwt.

(** What a minted token says is what verifying it returns, and what a verified
    token guarantees. *)

(** ** Strings *)

Lemma rstrip_id s : string_forallb (fun c => negb (is_space c)) s = true -> rstrip s = s.
Proof.
  induction s as [|c s IH]; [done|]. simpl. intros Hs. apply andb_true_iff in Hs as [Hc Hs]. apply negb_true_iff in Hc.
  rewrite IH by done. destruct s; [by rewrite Hc|done].
Qed.
Lemma strip_id s : string_forallb (fun c => negb (is_space c)) s = true -> strip s = s.
Proof.
  intros Hs. unfold strip. rewrite <- (rstrip_id s Hs) at 2. f_equal. destruct s as [|c s]; [done|].
  simpl in *. apply andb_true_iff in Hs as [Hc _]. by destruct (is_space c).
Qed.

Lemma digit_no_space c : is_digit c = true -> negb (is_space c) = true.
Proof. destruct c as [[] [] [] [] [] [] [] []]; done. Qed.
Lemma forallb_imp p q s : (forall c, p c = true -> q c = true) -> string_forallb p s = true -> string_forallb q s = true.
Proof.
  intros Hpq. induction s as [|c s IH]; [done|]. simpl. rewrite !andb_true_iff. intros [Hc Hs]. auto.
Qed.

Lemma int_digits_all acc b d :
  string_forallb is_digit d = true -> (b = true \/ d <> EmptyString) -> int_digits acc b d = Some (decimal_value acc d).
Proof.
  revert acc b. induction d as [|c d IH]; intros acc b Hd Hb; simpl in *.
  - by destruct Hb as [-> |].
  - apply andb_true_iff in Hd as [-> Hd]. apply IH; [done|by left].
Qed.

Lemma int_of_str z : py_int (VStr (str_of_Z z)) = Ok z.
Proof.
  assert (Happ : forall a : string, (a ++ EmptyString)%string = a)
    by (intros a; induction a as [|x a IH]; [done|]; by rewrite append_cons, IH).
  assert (Hpos : forall p : positive, exists c d, pretty p = String c d /\ string_forallb is_digit (String c d) = true /\
                  decimal_value 0 (String c d) = Zpos p).
  { intros p. unfold pretty, pretty_positive, pretty, pretty_N. rewrite decide_False by done.
    destruct (pretty_digits (N.pos p) EmptyString) as (d & -> & Hd & Hv & Hz). rewrite Happ.
    destruct d as [|c d]; [done|]. by exists c, d. }
  unfold py_int, int_literal. destruct z as [|p|p]; [done|..].
  - destruct (Hpos p) as (c & d & Hp & Hd & Hv). change (str_of_Z (Zpos p)) with (pretty p). rewrite Hp.
    rewrite strip_id by (eapply forallb_imp, Hd; apply digit_no_space).
    assert (Hi : int_digits 0 false (String c d) = Some (Zpos p)) by (rewrite int_digits_all by (try done; by right); by rewrite Hv).
    simpl in Hd. apply andb_true_iff in Hd as [Hc _]. destruct c as [[] [] [] [] [] [] [] []]; try done; by rewrite Hi.
  - destruct (Hpos p) as (c & d & Hp & Hd & Hv). change (str_of_Z (Zneg p)) with (String "-" (pretty p)). rewrite Hp.
    pose proof (forallb_imp _ _ _ digit_no_space Hd) as Hns.
    rewrite strip_id by (exact Hns).
    rewrite int_digits_all by (try done; by right). by rewrite Hv.
Qed.

(** ** Signatures *)

Lemma big_endian_length k n : String.length (big_endian k n) = k.
Proof. induction k as [|k IH]; [done|]. simpl. by rewrite IH. Qed.

Lemma code_byte n : 0 <= n < 256 -> code (byte_of n) = n.
Proof. intros Hn. unfold code, byte_of. rewrite nat_ascii_embedding by lia. lia. Qed.

Lemma from_big_endian k n acc : from_bytes acc (big_endian k n) = acc * 256 ^ Z.of_nat k + n mod 256 ^ Z.of_nat k.
Proof.
  revert acc. induction k as [|k IH]; intros acc; [simpl; rewrite Z.mod_1_r; lia|].
  cbn [big_endian from_bytes]. rewrite IH, code_byte by (apply Z.mod_pos_bound; lia).
  rewrite Nat2Z.inj_succ, Z.pow_succ_r by lia. set (m := 256 ^ Z.of_nat k).
  assert (Hm : 0 < m) by (apply Z.pow_pos_nonneg; lia).
  rewrite (Z.mul_comm 256 m), Z.rem_mul_r by lia. ring.
Qed.

Lemma substring_all s : substring 0 (String.length s) s = s.
Proof. induction s as [|c s IH]; [done|]. simpl. by rewrite IH. Qed.
Lemma substring_first a b : substring 0 (String.length a) (a ++ b)%string = a.
Proof. induction a as [|c a IH]; [by destruct b|]. rewrite append_cons. simpl. by rewrite IH. Qed.
Lemma substring_skip a b n : substring (String.length a) n (a ++ b)%string = substring 0 n b.
Proof. induction a as [|c a IH]; [done|]. rewrite append_cons. simpl. apply IH. Qed.

Section Tokens.
Context `{JwtCrypto}.

Definition coordinate (n : Z) : Prop := 0 <= n < 2 ^ 256.

Lemma to_bytes_coordinate n : coordinate n -> to_bytes n ES256_COORDINATE_SIZE = Ok (big_endian ES256_COORDINATE_SIZE n).
Proof.
  intros Hn. unfold to_bytes. replace (256 ^ Z.of_nat ES256_COORDINATE_SIZE) with (2 ^ 256) by (by vm_compute).
  unfold coordinate in Hn. destruct (Z.leb_spec 0 n), (Z.ltb_spec n (2 ^ 256)); try lia. done.
Qed.

(** The signature of a token survives its change of format. *)
Lemma jose_der der r s :
  decode_dss_signature der = Some (r, s) -> coordinate r -> coordinate s ->
  exists jose, der_to_jose_es256 der = Ok jose /\ jose_to_der_es256 jose = Ok (encode_dss_signature r s).
Proof.
  intros Hd Hr Hs. eexists. unfold der_to_jose_es256. rewrite Hd, !to_bytes_coordinate by done. split; [done|].
  unfold jose_to_der_es256. rewrite string_length_app, !big_endian_length. simpl negb. cbv iota.
  pose proof (substring_first (big_endian ES256_COORDINATE_SIZE r) (big_endian ES256_COORDINATE_SIZE s)) as H1.
  pose proof (substring_skip (big_endian ES256_COORDINATE_SIZE r) (big_endian ES256_COORDINATE_SIZE s) ES256_COORDINATE_SIZE) as H2.
  pose proof (substring_all (big_endian ES256_COORDINATE_SIZE s)) as H3.
  rewrite big_endian_length in H1, H2, H3. rewrite H1, H2, H3, !from_big_endian.
  replace (256 ^ Z.of_nat ES256_COORDINATE_SIZE) with (2 ^ 256) by (by vm_compute).
  unfold coordinate in *. by rewrite !Z.mod_small by done.
Qed.

Lemma load_encoded j : exact j = true -> load_segment (_b64url_encode (dumps j)) = Ok j.
Proof. intros Hj. unfold load_segment. by rewrite b64_round_trip, loads_dumps. Qed.

Lemma parse_signed p jose : forallb (fun kv => exact kv.2) p = true ->
  _parse_token (_signing_input JWT_HEADER p ++ String "." (_b64url_encode jose))%string
  = Ok (_signing_input JWT_HEADER p, p, jose).
Proof.
  intros Hp. unfold _parse_token, _signing_input. rewrite string_app_assoc, append_cons.
  rewrite !split_char_here, split_char_none by apply encode_ascii.
  rewrite load_encoded by done. simpl negb. cbv iota. by rewrite load_encoded, b64_round_trip by done.
Qed.
End Tokens.

(** ** The key service *)

(** What Cloud KMS documents: a signature it returns is a DER signature of the
    digest that verifies under the key it publishes. *)
Class Kms `{JwtCrypto} := {
  kms_key : pubkey;
  signed : string -> string -> Prop;
  published : string -> Prop;
  signed_ok digest der : signed digest der -> exists r s,
    decode_dss_signature der = Some (r, s) /\ coordinate r /\ coordinate s /\
    ecdsa_verify kms_key (encode_dss_signature r s) digest = true;
  published_ok pem : published pem -> load_pem_public_key pem = Ok (Some kms_key);
}.

(** Its failures are no token errors. *)
Definition kms_failure (e : exn) : Prop := isinstance e "InvalidJWTError" = false.

(** The state is the key cache: an entry may expire, and is otherwise the one stored. *)
#[export] Instance jwt_spec `{Kms} : ExtSpec jwt_call (option pubkey) := fun X c =>
  match c in jwt_call X return option pubkey -> option pubkey -> result X -> Prop with
  | AsymmetricSign d => fun s s' r => s' = s /\ match r with Ok der => signed d der | Err e => kms_failure e end
  | GetPublicKey => fun s s' r => s' = s /\ match r with Ok pem => published pem | Err e => kms_failure e end
  | CachedKey => fun s s' r => r = Ok s' /\ (s' = s \/ s' = None)
  | CacheKey k => fun s s' r => s' = Some k /\ r = Ok tt
  end.

Section RoundTrip.
Context `{Kms} `{MongoConf}.
Implicit Types w : world (option pubkey).
Definition here : forall X, jwt_call X -> jwt_call X := fun X c => c.

(** The cache holds nothing but the published key. *)
Definition cache_ok w : Prop := w_ext w = None \/ w_ext w = Some kms_key.

Lemma wp_unix_time (Q : world (option pubkey) -> result Z -> Prop) w :
  (forall w', w_now w <= w_now w' -> w_ext w' = w_ext w -> Q w' (Ok (w_now w' / second))) -> wp (unix_time (E := jwt_call)) Q w.
Proof using Type.
  intros HQ. apply wp_bind, wp_perform. intros w' r [(_ & _ & He & Ht) ->]. by apply HQ.
Qed.

Lemma wp_public_key (Q : world (option pubkey) -> result pubkey -> Prop) w :
  cache_ok w ->
  (forall w', w_now w <= w_now w' -> cache_ok w' -> Q w' (Ok kms_key)) ->
  (forall w' e, kms_failure e -> Q w' (Err e)) ->
  wp (_public_key here) Q w.
Proof using Type.
  intros Hc Hok Herr. apply wp_bind, wp_perform. intros w1 r [[-> Hr] (Hdb1 & Hs1 & Ht1)].
  destruct (w_ext w1) as [k|] eqn:Hk.
  - assert (k = kms_key) as -> by (destruct Hr as [Hr|Hr], Hc as [Hc|Hc]; congruence).
    apply Hok; [lia|]. right. congruence.
  - apply wp_bind, wp_perform. intros w2 r [[Hw2 Hpem] (_ & _ & Ht2)]. destruct r as [pem|e]; [|by apply Herr].
    rewrite (published_ok _ Hpem). cbn [of_result bind]. apply wp_bind, wp_perform.
    intros w3 r [[Hw3 ->] (_ & _ & Ht3)]. apply Hok; [lia|by right].
Qed.

(** The outcome of verifying a token that says [p] under a signature of the service. *)
Lemma wp_verify_signed (Q : world (option pubkey) -> result payload -> Prop) p aud jose exp w :
  cache_ok w -> forallb (fun kv => exact kv.2) p = true ->
  (exists der, jose_to_der_es256 jose = Ok der /\ ecdsa_verify kms_key der (sha256 (_signing_input JWT_HEADER p)) = true) ->
  field p "aud" = Some (JStr aud) -> field p "exp" = Some (JInt exp) ->
  (forall w', w_now w <= w_now w' -> w_now w' / second < exp -> Q w' (Ok p)) ->
  (forall w' e, kms_failure e -> Q w' (Err e)) ->
  (forall w', w_now w <= w_now w' -> exp <= w_now w' / second -> Q w' (Err (mk_exn "ExpiredJWTError" "JWT has expired"))) ->
  wp (_verify_es256_jwt here (_signing_input JWT_HEADER p ++ String "." (_b64url_encode jose))%string aud) Q w.
Proof using Type.
  intros Hc Hp (der & Hder & Hver) Haud Hexp Hok Herr Hlate. unfold _verify_es256_jwt. rewrite parse_signed by done.
  cbn [of_result bind]. apply wp_bind. unfold _verify_signature. apply wp_bind. apply wp_public_key; [done| |done].
  intros w1 Ht1 Hc1. rewrite Hder. cbn [of_result bind]. rewrite Hver. cbn [wp]. rewrite Haud, String.eqb_refl.
  unfold _int_claim. rewrite Hexp. cbn [of_result bind]. apply wp_bind, wp_unix_time. intros w2 Ht2 _.
  destruct (Z.leb_spec exp (w_now w2 / second)); cbn [wp]; [apply Hlate|apply Hok]; lia.
Qed.

Lemma wp_mint (Q : world (option pubkey) -> result string -> Prop) p w :
  cache_ok w ->
  (forall w' jose der, w_now w <= w_now w' -> cache_ok w' -> jose_to_der_es256 jose = Ok der ->
     ecdsa_verify kms_key der (sha256 (_signing_input JWT_HEADER p)) = true ->
     Q w' (Ok (_signing_input JWT_HEADER p ++ String "." (_b64url_encode jose))%string)) ->
  (forall w' e, kms_failure e -> Q w' (Err e)) ->
  wp (_mint_es256_jwt here p) Q w.
Proof using Type.
  intros Hc Hok Herr. apply wp_bind, wp_perform. intros w1 r [[He Hr] (_ & _ & Ht)]. destruct r as [der|e]; [|by apply Herr].
  destruct (signed_ok _ _ Hr) as (a & b & Hd & Ha & Hb & Hver). destruct (jose_der der a b Hd Ha Hb) as (jose & Hj & Hback).
  rewrite Hj. cbn [of_result bind wp]. eapply Hok; [lia|unfold cache_ok; by rewrite He|exact Hback|done].
Qed.
End RoundTrip.

Section Minted.
Context `{Kms} `{MongoConf}.

Lemma module_payload_exact m s now ttl tt sc ib pu :
  forallb (fun kv => exact kv.2) (module_payload m s now ttl tt sc ib pu) = true.
Proof using Type.
  assert (Hsc : forall l, forallb exact (map JStr l) = true) by (intros l; induction l; done).
  unfold module_payload, optional. rewrite !forallb_app. destruct tt, sc, ib, pu; simpl; by rewrite ?Hsc.
Qed.

Lemma omap_json_str l : forallb (fun j => is_some (json_str j)) (map JStr l) = true /\ omap json_str (map JStr l) = l.
Proof using Type. induction l as [|x l [IH1 IH2]]; [done|]. split; [exact IH1|].
  change (omap json_str (map JStr (x :: l))) with (x :: omap json_str (map JStr l)). by rewrite IH2.
Qed.

(** The claims of a minted payload. *)
Lemma claims_of_minted m s now ttl tt sc ib pu : m <> EmptyString ->
  module_claims (module_payload m s now ttl tt sc ib pu)
  = Ok {| module_id := m; seller_id := s; iss := "module:" ++ m; iat := now; exp := now + ttl; token_type := tt;
          scopes := sc; issued_by := ib; platform_user_id := pu |}%string.
Proof using Type.
  intros Hm. unfold module_claims, module_payload, optional, _int_claim, _str_claim, _optional_str_claim, _optional_str_list_claim.
  assert (He : string_is_empty m = false) by by destruct m.
  destruct tt, sc as [l|], ib, pu; simpl app; cbn [field String.eqb Ascii.eqb Bool.eqb result_bind];
    unfold startswith; rewrite (strip_prefix_app "module:" m), He; cbn [result_bind field String.eqb Ascii.eqb Bool.eqb];
    rewrite int_of_str; cbn [result_bind field String.eqb Ascii.eqb Bool.eqb];
    rewrite ?String.eqb_refl, ?Z.eqb_refl; cbn [result_bind];
    try (destruct (omap_json_str l) as [-> ->]); done.
Qed.

(** A token that verifies, until it expires, as the claims [c]. *)
Definition verifies (token : string) (c : ModuleClaims) (w : world (option pubkey)) : Prop :=
  string_forallb (fun c => negb (is_space c)) token = true /\
  forall Q : world (option pubkey) -> result ModuleClaims -> Prop,
    (forall w', w_now w <= w_now w' -> w_now w' / second < exp c -> Q w' (Ok c)) ->
    (forall w' e, kms_failure e \/ exn_cls e = "ExpiredJWTError"%string /\ exp c <= w_now w' / second -> Q w' (Err e)) ->
    wp (verify_module_jwt here token) Q w.

Lemma nospace_app a b : string_forallb (fun c => negb (is_space c)) a = true ->
  string_forallb (fun c => negb (is_space c)) b = true -> string_forallb (fun c => negb (is_space c)) (a ++ b)%string = true.
Proof using Type.
  intros Ha Hb. induction a as [|c a IH]; [done|]. rewrite append_cons. simpl in *. apply andb_true_iff in Ha as [Hc Ha].
  by rewrite Hc, IH.
Qed.

Definition minted_claims (m : string) (s now ttl : Z) (tt : option string) (sc : option (list string)) (ib pu : option string) :
    ModuleClaims :=
  {| module_id := m; seller_id := s; iss := "module:" ++ m; iat := now; exp := now + ttl; token_type := tt;
     scopes := sc; issued_by := ib; platform_user_id := pu |}.

Lemma wp_minted {B} m s ttl tt sc ib pu (k : string -> prog jwt_call B) Q (w : world (option pubkey)) :
  m <> EmptyString -> cache_ok w ->
  (forall w' token now, w_now w / second <= now <= w_now w' / second ->
     verifies token (minted_claims m s now ttl tt sc ib pu) w' -> wp (k token) Q w') ->
  (forall w' e, kms_failure e -> Q w' (Err e)) ->
  wp (bind (mint_module_jwt here m s ttl tt sc ib pu) k) Q w.
Proof using Type.
  intros Hm Hc Hok Herr. assert (Hmono : forall a b, a <= b -> a / second <= b / second) by (intros; by apply Z.div_le_mono).
  apply wp_bind. unfold mint_module_jwt. apply wp_bind, wp_unix_time. intros w1 Ht1 Hw1.
  apply wp_mint; [unfold cache_ok; by rewrite Hw1| |by auto].
  intros w2 jose der Ht2 Hc2 Hback Hver. apply (Hok w2 _ (w_now w1 / second)); [split; by apply Hmono|]. split.
  { apply nospace_app; [|simpl; apply encode_nospace]. unfold _signing_input. apply nospace_app; [|simpl]; apply encode_nospace. }
  intros R HR Herr'. apply wp_bind.
  eapply wp_verify_signed; [done|apply module_payload_exact|by exists der| | | |by auto|].
  - unfold module_payload. cbn [app field]. destruct tt, sc, ib, pu; reflexivity.
  - unfold module_payload. cbn [app field]. destruct tt, sc, ib, pu; reflexivity.
  - intros w3 Ht3 Hlive. rewrite claims_of_minted by done. by apply HR.
  - intros w3 Ht3 Hlate. apply Herr'. right. by split.
Qed.

(** C23: a token says what it was minted with.  Verifying a minted token
    returns the minted module, seller and optional claims, dated by the minting
    and expiring the lifetime later; it fails only when the key service fails,
    or when the lifetime is over and then as expired. *)
Theorem minted_token_verifies m s ttl tt sc ib pu (w : world (option pubkey)) :
  m <> EmptyString -> cache_ok w ->
  wp (let* token := mint_module_jwt here m s ttl tt sc ib pu in verify_module_jwt here token)
    (fun w' r => match r with
       | Ok c => exists now, w_now w / second <= now /\ w_now w' / second < now + ttl /\
           c = {| module_id := m; seller_id := s; iss := "module:" ++ m; iat := now; exp := now + ttl; token_type := tt;
                  scopes := sc; issued_by := ib; platform_user_id := pu |}
       | Err e => kms_failure e \/ (exn_cls e = "ExpiredJWTError" /\ w_now w / second + ttl <= w_now w' / second)
       end%string) w.
Proof using Type.
  intros Hm Hc. apply wp_minted; [done|done| |by left]. intros w1 token now [Hl Hu] [_ Hv]. apply Hv.
  - intros w2 Ht Hlive. exists now. simpl in Hlive. done.
  - intros w2 e [?|[? Hlate]]; [by left|right]. split; [done|]. simpl in Hlate. lia.
Qed.
End Minted.

Section Safety.
Context `{Kms} `{MongoConf}.

Lemma module_claims_issuer p c : module_claims p = Ok c ->
  iss c = ("module:" ++ module_id c)%string /\ module_id c <> EmptyString /\ field p "iss" = Some (JStr (iss c)) /\
  _int_claim p "exp" = Ok (exp c).
Proof using Type.
  unfold module_claims. intros Hc.
  destruct (_int_claim p "exp") as [x|] eqn:Hexp; [|done]. cbn [result_bind] in Hc.
  destruct (_str_claim p "iss") as [i|] eqn:Hiss; [|done]. cbn [result_bind] in Hc.
  destruct (strip_prefix _ _) as [m|] eqn:Hm; [|done]. apply strip_prefix_Some in Hm. subst i.
  destruct (string_is_empty m) eqn:He; [done|].
  repeat (apply result_bind_Ok in Hc as (? & _ & Hc)). injection Hc as <-. cbn [iss module_id exp].
  split; [done|]. split; [by intros ->|]. split; [|done]. unfold _str_claim in Hiss. destruct (field p "iss") as [[]|]; congruence.
Qed.

(** A segment of a token is the text of a JSON value. *)
Definition says (segment : string) (j : json) : Prop := exists raw, _b64url_decode segment = Some raw /\ loads raw = Some j.
(** The platform's header, whatever the order of its fields. *)
Definition platform_header (fields : payload) : Prop :=
  field fields "alg" = Some (JStr "ES256") /\ field fields "kid" = Some (JStr "platform-jwt:1") /\ field fields "typ" = Some (JStr "JWT") /\
  forall k j, In (k, j) fields -> In k ["alg"; "kid"; "typ"]%string.
(** The 64 bytes of a segment are a signature of [input] under the published key. *)
Definition signs (segment input : string) : Prop := exists jose, _b64url_decode segment = Some jose /\ String.length jose = 64%nat /\
  ecdsa_verify kms_key (encode_dss_signature (from_bytes 0 (substring 0 32 jose)) (from_bytes 0 (substring 32 32 jose))) (sha256 input) = true.
Definition json_int (j : option json) (z : Z) : Prop := j = Some (JInt z) \/ exists b, j = Some (JBool b) /\ z = Z.b2z b.
Record claims_of (p : payload) (c : ModuleClaims) : Prop := {
  co_issuer : field p "iss" = Some (JStr ("module:" ++ module_id c)) /\ iss c = ("module:" ++ module_id c)%string /\ module_id c <> EmptyString;
  co_seller : exists sub, field p "sub" = Some (JStr sub) /\ py_int (VStr sub) = Ok (seller_id c);
  co_iat : json_int (field p "iat") (iat c);
  co_exp : json_int (field p "exp") (exp c);
  co_type : field p "token_type" = JStr <$> token_type c;
  co_scopes : field p "scopes" = (fun l => JArr (map JStr l)) <$> scopes c;
  co_issued_by : field p "issued_by" = JStr <$> issued_by c;
  co_user : field p "platform_user_id" = JStr <$> platform_user_id c;
  co_module_claim : forall j, field p "module_id" = Some j -> j = JStr (module_id c);
  co_seller_claim : forall j, field p "seller_id" = Some j -> json_int (Some j) (seller_id c);
}.

Lemma int_claim_json p k z : _int_claim p k = Ok z -> json_int (field p k) z.
Proof using Type. unfold _int_claim, json_int. destruct (field p k) as [[| | | | | |]|]; try done; intros [= <-]; [right; by eexists|by left]. Qed.
Lemma str_claim_json p k t : _str_claim p k = Ok t -> field p k = Some (JStr t).
Proof using Type. unfold _str_claim. destruct (field p k) as [[| | | | | |]|]; try done. by intros [= <-]. Qed.
Lemma optional_str_json p k o : _optional_str_claim p k = Ok o -> field p k = JStr <$> o.
Proof using Type.
  unfold _optional_str_claim. destruct (field p k) as [j|] eqn:Hk; [|by intros [= <-]]. intros (t & Ht & [= <-])%result_bind_Ok.
  apply str_claim_json in Ht. cbn. congruence.
Qed.
Lemma strings_of_json l : forallb (fun j => is_some (json_str j)) l = true -> map JStr (omap json_str l) = l.
Proof using Type.
  induction l as [|j l IH]; [done|]. cbn [forallb]. intros [Hj Hl]%andb_true_iff. destruct j; try done. cbn. f_equal. by apply IH.
Qed.
Lemma optional_list_json p k o : _optional_str_list_claim p k = Ok o -> field p k = (fun l => JArr (map JStr l)) <$> o.
Proof using Type.
  unfold _optional_str_list_claim. destruct (field p k) as [[| | | | |l|]|]; try done; [|by intros [= <-]].
  destruct (forallb _ l) eqn:Hl; [|done]. intros [= <-]. cbn. by rewrite strings_of_json.
Qed.

Lemma module_claims_of p c : module_claims p = Ok c -> claims_of p c.
Proof using Type.
  unfold module_claims. intros (x & Hexp & Hc)%result_bind_Ok. apply result_bind_Ok in Hc as (i & Hiss & Hc).
  destruct (strip_prefix _ _) as [m|] eqn:Hm; [|done]. apply strip_prefix_Some in Hm. subst i.
  destruct (string_is_empty m) eqn:He; [done|]. apply result_bind_Ok in Hc as (sub & Hsub & Hc). apply result_bind_Ok in Hc as (z & Hz & Hc).
  apply result_bind_Ok in Hc as ([] & Hmod & Hc). apply result_bind_Ok in Hc as ([] & Hsel & Hc). apply result_bind_Ok in Hc as (t & Hiat & Hc).
  apply result_bind_Ok in Hc as (ty & Hty & Hc). apply result_bind_Ok in Hc as (sc & Hsc & Hc). apply result_bind_Ok in Hc as (ib & Hib & Hc).
  apply result_bind_Ok in Hc as (us & Hus & Hc). injection Hc as <-.
  constructor; cbn [module_id seller_id iss iat exp token_type scopes issued_by platform_user_id].
  - split; [by apply str_claim_json|]. split; [done|]. by intros ->.
  - exists sub. split; [by apply str_claim_json|done].
  - by apply int_claim_json.
  - by apply int_claim_json.
  - by apply optional_str_json.
  - by apply optional_list_json.
  - by apply optional_str_json.
  - by apply optional_str_json.
  - intros j Hj. rewrite Hj in Hmod. apply result_bind_Ok in Hmod as (t' & Ht & Hq). apply str_claim_json in Ht.
    destruct (String.eqb_spec t' m) as [->|]; [|done]. congruence.
  - intros j Hj. rewrite Hj in Hsel. apply result_bind_Ok in Hsel as (t' & Ht & Hq). apply int_claim_json in Ht.
    destruct (Z.eqb_spec t' z) as [->|]; [|done]. by rewrite <- Hj.
Qed.

Lemma header_is_platforms header : is_jwt_header header = true -> exists fields, header = JObj fields /\ platform_header fields.
Proof using Type.
  destruct header as [| | | | | |fields]; try done. unfold is_jwt_header. intros [Hkeys Hvals]%andb_true_iff. exists fields. split; [done|].
  assert (Hval : forall k v, In (k, v) header_fields -> field fields k = Some (JStr v)).
  { intros k v Hin. rewrite forallb_forall in Hvals. specialize (Hvals (k, v) Hin). cbn in Hvals. destruct (field fields k) as [[]|]; try done.
    by apply String.eqb_eq in Hvals as ->. }
  repeat split; [apply Hval; cbn; tauto..|]. intros k j Hin. rewrite forallb_forall in Hkeys. specialize (Hkeys (k, j) Hin). by apply string_in_iff in Hkeys.
Qed.

(** The three segments of a token that is parsed. *)
Lemma parsed_segments token input p jose : _parse_token token = Ok (input, p, jose) -> exists h q s fields,
  token = (h ++ "." ++ q ++ "." ++ s)%string /\ input = (h ++ "." ++ q)%string /\ says h (JObj fields) /\ platform_header fields /\ says q (JObj p) /\
  _b64url_decode s = Some jose.
Proof using Type.
  unfold _parse_token. destruct (split_char "." token) as [|h [|q [|s [|]]]] eqn:Hs; try done. intros (header & Hh & Hr)%result_bind_Ok.
  destruct (negb _) eqn:Hp in Hr; [done|]. apply negb_false_iff in Hp. apply result_bind_Ok in Hr as (body & Hq & Hr).
  assert (Hload : forall x j, load_segment x = Ok j -> says x j).
  { unfold load_segment, says. intros x j Hx. destruct (_b64url_decode x) as [raw|]; [|done]. destruct (loads raw) as [v|] eqn:Hv; [|done].
    injection Hx as <-. by exists raw. }
  destruct body as [| | | | | |body]; try done. destruct (_b64url_decode s) as [sig|] eqn:Hsig; [|done]. injection Hr as <- <- <-.
  destruct (header_is_platforms header Hp) as (fields & -> & Hplat). exists h, q, s, fields.
  split; [|split; [done|split; [by apply Hload|split; [done|split; [by apply Hload|done]]]]].
  rewrite <- (split_join "." token), Hs. done.
Qed.

(** C24: a verified token was signed for the gateway.  When verification returns
    claims, the token is three segments: a header that says ES256, the
    platform's key and JWT and nothing else; a payload that is addressed to the
    gateway and not expired; and a 64 byte signature that verifies under the
    published key over the first two segments and the point between them.  The
    claims returned are those of the payload, field by field. *)
Theorem verified_token_is_signed token (w : world (option pubkey)) : cache_ok w ->
  wp (verify_module_jwt here token)
    (fun w' r => match r with
       | Ok c => exists h q s fields p, token = (h ++ "." ++ q ++ "." ++ s)%string /\
           says h (JObj fields) /\ platform_header fields /\ says q (JObj p) /\ signs s (h ++ "." ++ q) /\
           field p "aud" = Some (JStr "gateway") /\ w_now w' / second < exp c /\ claims_of p c
       | Err _ => True
       end) w.
Proof using Type.
  intros Hc. unfold verify_module_jwt, _verify_es256_jwt. apply wp_bind, wp_bind, wp_of_result.
  destruct (_parse_token token) as [[[input p] jose]|e] eqn:Hparse; [|done]. apply wp_bind. unfold _verify_signature.
  apply wp_bind, wp_public_key; [done| |done]. intros w1 Ht1 Hc1. apply wp_bind, wp_of_result.
  destruct (jose_to_der_es256 jose) as [der|e] eqn:Hder; [|done]. destruct (ecdsa_verify _ _ _) eqn:Hver; [|done]. cbn [wp].
  destruct (field p "aud") as [[| | | |aud| |]|] eqn:Haud; try done.
  destruct (String.eqb_spec aud JWT_AUDIENCE) as [->|]; [|done].
  apply wp_bind, wp_of_result. destruct (_int_claim p "exp") as [x|e] eqn:Hexp; [|done].
  apply wp_bind, wp_unix_time. intros w2 Ht2 _. destruct (Z.leb_spec x (w_now w2 / second)); [done|]. cbn [wp].
  apply wp_of_result. destruct (module_claims p) as [c|e] eqn:Hcl; [|done].
  assert (exp c = x) as <- by (unfold module_claims in Hcl; rewrite Hexp in Hcl; cbn [result_bind] in Hcl;
    destruct (module_claims_issuer p c) as (_ & _ & _ & Hx); [unfold module_claims; rewrite Hexp; exact Hcl|]; congruence).
  destruct (parsed_segments _ _ _ _ Hparse) as (h & q & s & fields & -> & -> & Hh & Hf & Hq & Hs). exists h, q, s, fields, p.
  split; [done|]. split; [done|]. split; [done|]. split; [done|]. split; [|split; [done|split; [lia|by apply module_claims_of]]].
  unfold jose_to_der_es256 in Hder. destruct (Nat.eqb_spec (String.length jose) (ES256_COORDINATE_SIZE * 2)) as [Hlen|]; [|done]. injection Hder as <-.
  by exists jose.
Qed.
End Safety.

(** ** A key service on which the theorems run *)

Section Example.
#[local] Instance aware : MongoConf := aware_conf.
(** A signature that repeats the digest, as one integer. *)
Definition digest_int (d : string) : Z := from_bytes 0 d mod 2 ^ 256.
#[local] Instance toy_crypto : JwtCrypto := {
  pubkey := unit;
  sha256 := fun s => big_endian 4 (from_bytes 0 s);
  decode_dss_signature := fun der => Some (digest_int der, 1);
  encode_dss_signature := fun r s => big_endian 32 r;
  load_pem_public_key := fun pem => if String.eqb pem "pem" then Ok (Some tt) else raise_value "not a PEM";
  ecdsa_verify := fun _ der digest => String.eqb der (big_endian 32 (digest_int digest));
}.
Definition toy_sign (digest : string) : string := big_endian 32 (digest_int digest).
Lemma toy_signed_ok digest der : der = toy_sign digest -> exists r s,
  decode_dss_signature der = Some (r, s) /\ coordinate r /\ coordinate s /\
  ecdsa_verify tt (encode_dss_signature r s) digest = true.
Proof.
  intros ->. exists (digest_int digest), 1.
  assert (Hr : digest_int (toy_sign digest) = digest_int digest).
  { assert (Hb : 0 <= digest_int digest < 2 ^ 256) by (apply Z.mod_pos_bound; lia).
    unfold toy_sign. set (n := digest_int digest) in *. unfold digest_int. rewrite from_big_endian.
    change (256 ^ Z.of_nat 32) with (2 ^ 256). by rewrite Z.mul_0_l, Z.add_0_l, !Z.mod_small by (try apply Z.mod_pos_bound; lia). }
  cbn [decode_dss_signature ecdsa_verify encode_dss_signature toy_crypto]. rewrite Hr.
  split; [done|]. split; [unfold coordinate, digest_int; apply Z.mod_pos_bound; lia|]. split; [by unfold coordinate|apply String.eqb_refl].
Qed.
Lemma toy_published_ok pem : pem = "pem"%string -> load_pem_public_key pem = Ok (Some tt).
Proof. by intros ->. Qed.
#[local] Instance toy_kms : Kms := {
  kms_key := tt; signed := fun digest der => der = toy_sign digest;
  published := fun pem => pem = "pem"%string; signed_ok := toy_signed_ok; published_ok := toy_published_ok;
}.
#[local] Instance toy_run : ExtRun jwt_call (option pubkey) := {
  ext_run := fun X c => match c in jwt_call X return option pubkey -> option pubkey * result X with
    | AsymmetricSign d => fun s => (s, Ok (toy_sign d))
    | GetPublicKey => fun s => (s, Ok "pem"%string)
    | CachedKey => fun s => (s, Ok s)
    | CacheKey k => fun s => (Some k, Ok tt)
    end;
  uuid_run := fun _ => "0123456789abcdef0123456789abcdef"%string;
}.
Lemma toy_sound X (c : jwt_call X) s : ext_spec X c s (ext_run X c s).1 (ext_run X c s).2.
Proof. destruct c; simpl; split; try done. by left. Qed.

Definition jwt_world : world (option pubkey) := World ∅ (1700000000 * second) None None.
Definition sample_mint : prog jwt_call string :=
  mint_module_jwt here "sheets" 7 60 (Some "extension"%string) (Some ["GET /orders/*"%string]) None (Some "u1"%string).

Lemma minted_token_verifies_witness :
  match (run (let* token := sample_mint in verify_module_jwt here token) jwt_world).2 with
  | Ok c => module_id c = "sheets"%string /\ seller_id c = 7 /\ exp c = 1700000060 /\ scopes c = Some ["GET /orders/*"%string]
  | Err _ => False
  end.
Proof.
  assert (Hm : "sheets"%string <> EmptyString) by done.
  pose proof (wp_run toy_sound (fun _ => eq_refl) _ _ _ (minted_token_verifies "sheets" 7 60 (Some "extension"%string)
    (Some ["GET /orders/*"%string]) None (Some "u1"%string) jwt_world Hm (or_introl eq_refl))) as Hw.
  assert (Hrun : match (run (let* token := sample_mint in verify_module_jwt here token) jwt_world).2 with
                 | Ok c => iat c =? 1700000000 | Err _ => false end = true) by (vm_compute; reflexivity).
  fold sample_mint in Hw. destruct (run _ jwt_world).2 as [c|e]; [|discriminate Hrun].
  destruct Hw as (now & _ & _ & ->). cbn [iat module_id seller_id exp scopes] in *. apply Z.eqb_eq in Hrun as ->. done.
Defined.

Lemma verified_token_is_signed_witness :
  exists token c, (run (verify_module_jwt here token) jwt_world).2 = Ok c /\ exists h q s,
    token = (h ++ "." ++ q ++ "." ++ s)%string /\ signs s (h ++ "." ++ q).
Proof.
  destruct (run sample_mint jwt_world).2 as [token|e] eqn:Ht.
  2: { exfalso. assert (Hok : match (run sample_mint jwt_world).2 with Ok _ => true | Err _ => false end = true) by (vm_compute; reflexivity).
       rewrite Ht in Hok. discriminate Hok. }
  pose proof (wp_run toy_sound (fun _ => eq_refl) _ _ _ (verified_token_is_signed token jwt_world (or_introl eq_refl))) as Hw.
  assert (Hv : match (run sample_mint jwt_world).2 with
               | Ok t => match (run (verify_module_jwt here t) jwt_world).2 with Ok _ => true | Err _ => false end
               | Err _ => false end = true) by (vm_compute; reflexivity).
  rewrite Ht in Hv. destruct (run (verify_module_jwt here token) jwt_world).2 as [c|e] eqn:Hr; [|discriminate Hv].
  exists token, c. split; [exact Hr|]. destruct Hw as (h & q & s & _ & _ & H1 & _ & _ & _ & H2 & _). exists h, q, s. split; assumption.
Defined.

(** A bearer token that is no base64 JSON raises an exception that is no token error. *)
Example garbage_token_is_no_token_error :
  exists e, (run (verify_module_jwt here "a.b.c") jwt_world).2 = Err e /\ isinstance e "InvalidJWTError" = false.
Proof. exists (mk_exn "binascii.Error" "Incorrect padding"). split; by vm_compute. Qed.
End Example.
