(* ===== verification/PyRe.v ===== *)
(** The regular expressions of the code: sequences of character classes with
    greedy repetition, word boundaries and one remembered position, matched
    with backtracking as Python's [re] does. *)

From S2P Require Export PyVal.

Inductive re_atom :=
| Many (p : ascii -> bool) (lo : nat) (hi : option nat) (* [class]{lo,hi}, greedy *)
| WordB                                                 (* \b *)
| Mark.                                                 (* the end of group 1 *)

Definition once (p : ascii -> bool) : re_atom := Many p 1 (Some 1%nat).
Definition chr (c : ascii) : re_atom := once (Ascii.eqb c).
Definition chr_nocase (c : ascii) : re_atom := once (fun d => Ascii.eqb (lower_char c) (lower_char d)).
Fixpoint re_lit (s : string) : list re_atom :=
  match s with EmptyString => [] | String c s => chr c :: re_lit s end.
Fixpoint re_lit_nocase (s : string) : list re_atom :=
  match s with EmptyString => [] | String c s => chr_nocase c :: re_lit_nocase s end.

(** [\w] on the first 256 code points. *)
Definition is_alpha (c : ascii) : bool := char_in 65 90 c || char_in 97 122 c.
Definition is_word (c : ascii) : bool :=
  is_alpha c || is_digit c || char_in 95 95 c || char_in 170 170 c || char_in 178 179 c ||
  char_in 181 181 c || char_in 185 186 c || char_in 188 190 c || char_in 192 214 c ||
  char_in 216 246 c || char_in 248 255 c.
Definition char_of (s : string) (c : ascii) : bool :=
  (fix f s := match s with EmptyString => false | String d s => Ascii.eqb c d || f s end) s.

Definition word_opt (o : option ascii) : bool := match o with Some c => is_word c | None => false end.
Definition next_char (s : string) : option ascii := match s with String c _ => Some c | EmptyString => None end.

Definition under (n : nat) (hi : option nat) : bool :=
  match hi with Some h => Nat.ltb n h | None => true end.

(** Match at the head of [s] ([prev]: the character before it): what is left of
    the string after the match and, when a [Mark] was crossed, after it. *)
Fixpoint re_match (atoms : list re_atom) (prev : option ascii) (s : string) :
    option (string * option string) :=
  match atoms with
  | [] => Some (s, None)
  | WordB :: rest =>
      if xorb (word_opt prev) (word_opt (next_char s)) then re_match rest prev s else None
  | Mark :: rest =>
      match re_match rest prev s with Some (t, _) => Some (t, Some s) | None => None end
  | Many p lo hi :: rest =>
      (fix many (n : nat) (prev : option ascii) (s : string) : option (string * option string) :=
         let stop := if Nat.leb lo n then re_match rest prev s else None in
         match s with
         | String c s' =>
             if p c && under n hi
             then match many (S n) (Some c) s' with Some r => Some r | None => stop end
             else stop
         | EmptyString => stop
         end) 0%nat prev s
  end.

(** The first [n] characters. *)
Fixpoint string_take (n : nat) (s : string) : string :=
  match n, s with
  | O, _ | _, EmptyString => EmptyString
  | S n, String c s => String c (string_take n s)
  end.

Fixpoint last_char (d : option ascii) (s : string) : option ascii :=
  match s with EmptyString => d | String c s => last_char (Some c) s end.

(** [pattern.sub(repl, s)] for a pattern that matches no empty string; the
    replacement may use the text of group 1.  [fuel] bounds the scan: one unit
    per character is enough. *)
Fixpoint re_sub_from (fuel : nat) (atoms : list re_atom) (repl : string -> string)
    (prev : option ascii) (s : string) : string :=
  match fuel with
  | O => s
  | S fuel =>
      match re_match atoms prev s with
      | Some (rest, mark) =>
          let taken := string_take (String.length s - String.length rest) s in
          let group := match mark with
                       | Some m => string_take (String.length s - String.length m) s
                       | None => EmptyString
                       end in
          (repl group ++ re_sub_from fuel atoms repl (last_char prev taken) rest)%string
      | None =>
          match s with
          | EmptyString => EmptyString
          | String c s' => String c (re_sub_from fuel atoms repl (Some c) s')
          end
      end
  end.
Definition re_sub (atoms : list re_atom) (repl : string -> string) (s : string) : string :=
  re_sub_from (String.length s + 1) atoms repl None s.

(** [re.fullmatch]. *)
Definition re_full (atoms : list re_atom) (s : string) : bool :=
  match re_match (atoms ++ [Many (fun _ => true) 0 (Some 0%nat)]) None s with
  | Some (EmptyString, _) => true
  | _ => false
  end.

(** Python's [fnmatch.fnmatchcase], by which the gateway compares requests with
    the scopes of a module: the pattern's items, its matching, and what a
    pattern means. *)

#[local] Open Scope Z_scope.

(** ** Patterns *)

Inductive glob_item :=
| GStar
| GAny
| GLit (c : ascii)
| GSet (negated : bool) (ranges : list (ascii * ascii)).

(** The text of a bracket up to its closing one, and the rest.  A [!] and a
    closing bracket right after the opening one belong to the text. *)
Fixpoint to_close (s : string) : option (string * string) :=
  match s with
  | EmptyString => None
  | String "]" rest => Some (EmptyString, rest)
  | String c rest => match to_close rest with Some (stuff, r) => Some (String c stuff, r) | None => None end
  end.
Definition bracket (s : string) : option (string * string) :=
  let '(bang, s) := match s with String "!" r => ("!"%string, r) | _ => (EmptyString, s) end in
  let '(first, s) := match s with String "]" r => ("]"%string, r) | _ => (EmptyString, s) end in
  match to_close s with Some (stuff, r) => Some ((bang ++ first ++ stuff)%string, r) | None => None end.

(** Its characters and ranges; a hyphen at either end is a character. *)
Fixpoint class_elems (s : string) : list (ascii * option ascii) :=
  match s with
  | EmptyString => []
  | String c ((String "-" (String d rest)) as tail) => (c, Some d) :: class_elems rest
  | String c tail => (c, None) :: class_elems tail
  end.
Definition nonempty_range (e : ascii * option ascii) : bool :=
  match e with (lo, Some hi) => Nat.leb (nat_of_ascii lo) (nat_of_ascii hi) | _ => true end.
Definition range_of (e : ascii * option ascii) : ascii * ascii := (e.1, default e.1 e.2).
(** An empty range is dropped before a leading [!] is read. *)
Definition glob_class (stuff : string) : glob_item :=
  let elems := match stuff with
               | String "!" rest => ("!"%char, None) :: class_elems rest
               | _ => class_elems stuff
               end in
  match List.filter nonempty_range elems with
  | ("!"%char, None) :: rest => GSet true (map range_of rest)
  | ("!"%char, Some hi) :: rest => GSet true (("-"%char, "-"%char) :: (hi, hi) :: map range_of rest)
  | rest => GSet false (map range_of rest)
  end.

Fixpoint glob_items (fuel : nat) (s : string) : list glob_item :=
  match fuel, s with
  | O, _ | _, EmptyString => []
  | S fuel, String "*" rest => GStar :: glob_items fuel rest
  | S fuel, String "?" rest => GAny :: glob_items fuel rest
  | S fuel, String "[" rest =>
      match bracket rest with
      | Some (stuff, rest) => glob_class stuff :: glob_items fuel rest
      | None => GLit "[" :: glob_items fuel rest
      end
  | S fuel, String c rest => GLit c :: glob_items fuel rest
  end.
(** Every item takes a character of the pattern: the length is fuel enough. *)
Definition glob_parse (pattern : string) : list glob_item := glob_items (String.length pattern) pattern.

(** ** Matching *)

Definition in_range (c : ascii) (r : ascii * ascii) : bool := char_in (nat_of_ascii r.1) (nat_of_ascii r.2) c.
Definition item_ok (i : glob_item) (c : ascii) : bool :=
  match i with
  | GStar | GAny => true
  | GLit d => Ascii.eqb d c
  | GSet negated ranges => xorb negated (existsb (in_range c) ranges)
  end.

Fixpoint glob_match (items : list glob_item) (s : string) : bool :=
  match items with
  | [] => string_is_empty s
  | GStar :: rest =>
      (fix anywhere (s : string) : bool :=
         glob_match rest s || match s with EmptyString => false | String _ s' => anywhere s' end) s
  | i :: rest => match s with EmptyString => false | String c s' => item_ok i c && glob_match rest s' end
  end.

Definition fnmatchcase (name pattern : string) : bool := glob_match (glob_parse pattern) name.

(** What a pattern denotes. *)
Inductive denotes : list glob_item -> string -> Prop :=
| den_nil : denotes [] EmptyString
| den_star (p s : string) rest : denotes rest s -> denotes (GStar :: rest) (p ++ s)
| den_char i c s rest : i <> GStar -> item_ok i c = true -> denotes rest s -> denotes (i :: rest) (String c s).

Lemma denotes_star rest t : denotes (GStar :: rest) t -> exists p s, t = (p ++ s)%string /\ denotes rest s.
Proof. inversion 1; subst; [eauto|done]. Qed.

Lemma glob_match_denotes items s : glob_match items s = true <-> denotes items s.
Proof.
  revert s. induction items as [|i rest IH]; intros s.
  { split; [by destruct s; [constructor|]|]. by inversion 1. }
  assert (i = GStar \/ i <> GStar) as [->|Hi] by (destruct i; [by left|by right..]).
  - cbn [glob_match]. induction s as [|c s IHs].
    + rewrite orb_false_r, IH. split; [intros H; by apply (den_star EmptyString)|].
      intros (p & s' & Heq & Hd)%denotes_star. destruct p; [|done]. rewrite append_nil in Heq. by subst.
    + rewrite orb_true_iff, IHs, IH. split.
      * intros [H|H]; [by apply (den_star EmptyString)|]. apply denotes_star in H as (p & s' & -> & Hd).
        rewrite <- append_cons. by apply (den_star (String c p)).
      * intros (p & s' & Heq & Hd)%denotes_star. destruct p as [|d p]; [rewrite append_nil in Heq; left; by subst|].
        rewrite append_cons in Heq. injection Heq as -> ->. right. by constructor.
  - assert (Hm : glob_match (i :: rest) s = match s with EmptyString => false | String c s' => item_ok i c && glob_match rest s' end)
      by (by destruct i). rewrite Hm. destruct s as [|c s].
    + split; [done|]. inversion 1; subst; done.
    + rewrite andb_true_iff, IH. split; [intros [? ?]; by constructor|]. inversion 1; subst; done.
Qed.

Lemma bracket_shorter s stuff rest : bracket s = Some (stuff, rest) -> (String.length rest < String.length s)%nat.
Proof.
  assert (Hc : forall s stuff rest, to_close s = Some (stuff, rest) -> (String.length rest < String.length s)%nat).
  { clear. induction s as [|c s IH]; intros stuff rest; [done|]. simpl.
    assert (Hrec : match to_close s with Some (st, r) => Some (String c st, r) | None => None end = Some (stuff, rest) ->
      (String.length rest < S (String.length s))%nat).
    { destruct (to_close s) as [[st r]|] eqn:Hs; [|done]. intros [= _ <-]. specialize (IH _ _ eq_refl). lia. }
    destruct c as [[] [] [] [] [] [] [] []]; try exact Hrec. intros [= _ <-]. lia. }
  unfold bracket.
  destruct (match s with String "!" r => ("!"%string, r) | _ => (EmptyString, s) end) as [b s1] eqn:H1.
  destruct (match s1 with String "]" r => ("]"%string, r) | _ => (EmptyString, s1) end) as [c s2] eqn:H2.
  assert (Hle1 : (String.length s1 <= String.length s)%nat).
  { destruct s as [|d s]; [by simplify_eq|]. destruct d as [[] [] [] [] [] [] [] []]; simplify_eq; simpl; lia. }
  assert (Hle2 : (String.length s2 <= String.length s1)%nat).
  { destruct s1 as [|d s1]; [by simplify_eq|]. destruct d as [[] [] [] [] [] [] [] []]; simplify_eq; simpl; lia. }
  destruct (to_close s2) as [[st r]|] eqn:Hs; [|done]. intros [= _ <-]. apply Hc in Hs. lia.
Qed.

Lemma glob_fuel n m s : (String.length s <= n)%nat -> (String.length s <= m)%nat -> glob_items n s = glob_items m s.
Proof.
  revert m s. induction n as [|n IH]; intros m [|c s] Hn Hm; simpl in *; try (by destruct m); [lia|].
  destruct m as [|m]; [lia|]. cbn [glob_items].
  assert (Hrec : glob_items n s = glob_items m s) by (apply IH; lia).
  destruct c as [[] [] [] [] [] [] [] []]; try (by rewrite Hrec).
  destruct (bracket s) as [[st r]|] eqn:Hb; [|by rewrite Hrec]. apply bracket_shorter in Hb. f_equal. apply IH; lia.
Qed.

(** A pattern without special characters matches itself only. *)
Definition plain_char (c : ascii) : bool := negb (Ascii.eqb c "*" || Ascii.eqb c "?" || Ascii.eqb c "[").
Lemma plain_match p s : string_forallb plain_char p = true -> fnmatchcase s p = String.eqb s p.
Proof.
  unfold fnmatchcase, glob_parse. revert s. induction p as [|c p IH]; intros s Hp.
  { by destruct s. }
  simpl in Hp. apply andb_true_iff in Hp as [Hc Hp].
  assert (Hitems : glob_items (String.length (String c p)) (String c p) = GLit c :: glob_items (String.length p) p).
  { simpl. destruct c as [[] [] [] [] [] [] [] []]; done. }
  rewrite Hitems. destruct s as [|d s]; [done|]. cbn [glob_match item_ok String.eqb].
  rewrite (IH s Hp). rewrite (Ascii.eqb_sym c d). by destruct (Ascii.eqb d c).
Qed.

Example star_crosses_slashes : fnmatchcase "GET /items/1/prices" "GET /items/*" = true.
Proof. reflexivity. Qed.
Example classes_and_ranges :
  map (fun s => fnmatchcase s "[a-c]x[!0-9]") ["bxz"; "dxz"; "bx5"]%string = [true; false; false].
Proof. reflexivity. Qed.
