(* ===== verification/PyDec.v ===== *)
(** Python's [decimal.Decimal] in the default context: 28 digits, half-even.

    A finite decimal is [coef * 10^exp]; the sign of zero and the exponent
    limits of the context are not represented.  Comparisons with a NaN signal
    [InvalidOperation]; [==] never does. *)

From S2P Require Export PyVal.
From Stdlib Require Import QArith Qpower.

#[local] Open Scope Z_scope.

Inductive dec := DFin (coef exp : Z) | DInf (negative : bool) | DNaN.

#[export] Instance dec_eq_dec : EqDecision dec.
Proof. solve_decision. Defined.

Definition invalid_operation {A} : result A := Err (mk_exn "InvalidOperation" "").

(** Exact comparison. *)
Definition dec_compare_fin (c1 e1 c2 e2 : Z) : comparison :=
  let m := Z.min e1 e2 in (c1 * 10 ^ (e1 - m) ?= c2 * 10 ^ (e2 - m))%Z.

Definition dec_compare (a b : dec) : option comparison :=
  match a, b with
  | DNaN, _ | _, DNaN => None
  | DFin c1 e1, DFin c2 e2 => Some (dec_compare_fin c1 e1 c2 e2)
  | DInf n, DInf n' => Some (if Bool.eqb n n' then Eq else if n then Lt else Gt)
  | DInf n, DFin _ _ => Some (if n then Lt else Gt)
  | DFin _ _, DInf n => Some (if n then Gt else Lt)
  end.

(** [a < b], [a == b]. *)
Definition dec_lt (a b : dec) : result bool :=
  match dec_compare a b with
  | Some c => Ok match c with Lt => true | _ => false end
  | None => invalid_operation
  end.
Definition dec_eq (a b : dec) : bool :=
  match dec_compare a b with Some Eq => true | _ => false end.

(** [min(a, b)] keeps [a] unless [b < a]; [max(a, b)] unless [b > a]. *)
Definition dec_min (a b : dec) : result dec :=
  let! less := dec_lt b a in Ok (if less : bool then b else a).
Definition dec_max (a b : dec) : result dec :=
  let! greater := dec_lt a b in Ok (if greater : bool then b else a).

(** Rounding to the context's precision. *)
Definition precision : Z := 28.
Definition digit_count (c : Z) : Z := Z.of_nat (String.length (str_of_Z (Z.abs c))).
Definition half_even (c d : Z) : Z :=
  let q := (Z.abs c / d)%Z in
  let r := (Z.abs c mod d)%Z in
  let up := (d <? 2 * r) || ((2 * r =? d) && Z.odd q) in
  (Z.sgn c * (if up then q + 1 else q))%Z.
Definition dec_round (c e : Z) : dec :=
  let k := (digit_count c - precision)%Z in
  if (k <=? 0)%Z then DFin c e
  else
    let c' := half_even c (10 ^ k) in
    (* a carry out of the leading digit leaves one digit too many, a zero *)
    if (precision <? digit_count c')%Z then DFin (c' / 10) (e + k + 1) else DFin c' (e + k).

Definition dec_neg (a : dec) : dec :=
  match a with DFin c e => DFin (- c) e | DInf n => DInf (negb n) | DNaN => DNaN end.
Definition dec_add (a b : dec) : result dec :=
  match a, b with
  | DNaN, _ | _, DNaN => Ok DNaN
  | DInf n, DInf n' => if Bool.eqb n n' then Ok (DInf n) else invalid_operation
  | DInf n, DFin _ _ | DFin _ _, DInf n => Ok (DInf n)
  | DFin c1 e1, DFin c2 e2 =>
      let m := Z.min e1 e2 in Ok (dec_round (c1 * 10 ^ (e1 - m) + c2 * 10 ^ (e2 - m)) m)
  end.
Definition dec_sub (a b : dec) : result dec := dec_add a (dec_neg b).

(** ** The rational a finite decimal denotes *)

Definition dec_q (c e : Z) : Q := (inject_Z c * Qpower 10 e)%Q.
Definition dec_val (a : dec) : option Q := match a with DFin c e => Some (dec_q c e) | _ => None end.
Definition is_finite (a : dec) : bool := match a with DFin _ _ => true | _ => false end.

Lemma Qpower10_pos e : (0 < Qpower 10 e)%Q.
Proof. by apply Qpower_0_lt. Qed.

(** A decimal in the units of a smaller exponent. *)
Lemma dec_q_scale c e m : (m <= e)%Z -> (dec_q c e == inject_Z (c * 10 ^ (e - m)) * Qpower 10 m)%Q.
Proof.
  intros Hm. unfold dec_q. rewrite inject_Z_mult. rewrite Zpower_Qpower by lia.
  rewrite <- Qmult_assoc, <- Qpower_plus by discriminate. by replace (e - m + m)%Z with e by lia.
Qed.

Lemma dec_compare_q c1 e1 c2 e2 : dec_compare_fin c1 e1 c2 e2 = (dec_q c1 e1 ?= dec_q c2 e2)%Q.
Proof.
  unfold dec_compare_fin. set (m := Z.min e1 e2).
  rewrite (dec_q_scale c1 e1 m), (dec_q_scale c2 e2 m) by lia.
  pose proof (Qpower10_pos m) as Hp. symmetry.
  destruct (Z.compare_spec (c1 * 10 ^ (e1 - m)) (c2 * 10 ^ (e2 - m))) as [He|Hl|Hg].
  - rewrite He. by apply Qeq_alt.
  - apply (proj1 (Qlt_alt _ _)). apply Qmult_lt_compat_r; [done|]. by rewrite <- Zlt_Qlt.
  - apply (proj1 (Qgt_alt _ _)). apply Qmult_lt_compat_r; [done|]. by rewrite <- Zlt_Qlt.
Qed.

Lemma dec_lt_q c1 e1 c2 e2 b :
  dec_lt (DFin c1 e1) (DFin c2 e2) = Ok b -> if b then (dec_q c1 e1 < dec_q c2 e2)%Q else (dec_q c2 e2 <= dec_q c1 e1)%Q.
Proof.
  unfold dec_lt. simpl. rewrite dec_compare_q. intros [= <-].
  destruct (_ ?= _)%Q eqn:Hc.
  - apply Qeq_alt in Hc. rewrite Hc. apply Qle_refl.
  - by apply Qlt_alt.
  - apply Qgt_alt in Hc. by apply Qlt_le_weak.
Qed.

Lemma dec_eq_q c1 e1 c2 e2 : dec_eq (DFin c1 e1) (DFin c2 e2) = true <-> (dec_q c1 e1 == dec_q c2 e2)%Q.
Proof.
  unfold dec_eq. simpl. rewrite dec_compare_q, Qeq_alt. by destruct (_ ?= _)%Q.
Qed.

(** Short sums are exact. *)
Lemma dec_round_exact c e : (digit_count c <= precision)%Z -> dec_round c e = DFin c e.
Proof. intros Hc. unfold dec_round. rewrite (proj2 (Z.leb_le _ 0)); [done|lia]. Qed.

(** ** [Decimal(s)] *)

Fixpoint drop_underscores (s : string) : string :=
  match s with
  | EmptyString => EmptyString
  | String "_" s => drop_underscores s
  | String c s => String c (drop_underscores s)
  end.

Definition signed (s : string) : bool * string :=
  match s with
  | String "-" t => (true, t)
  | String "+" t => (false, t)
  | _ => (false, s)
  end.

(** [[sign] digits [. digits] [e [sign] digits]], [inf] and [nan], case and
    outer blanks ignored. *)
Definition dec_of_string (s : string) : result dec :=
  let '(neg, t) := signed (lower (drop_underscores (strip s))) in
  if string_in t ["inf"; "infinity"]%string then Ok (DInf neg)
  else if match strip_prefix "nan" t with Some u => string_forallb is_digit u | None => false end
       || match strip_prefix "snan" t with Some u => string_forallb is_digit u | None => false end
  then Ok DNaN
  else
    let '(mantissa, exponent) :=
      match split_char "e" t with
      | [m] => (m, Some 0)
      | [m; e] =>
          let '(eneg, digits) := signed e in
          (m, if digits1 digits then Some (if eneg then - int_of_digits digits else int_of_digits digits) else None)
      | _ => (EmptyString, None)
      end in
    let parts :=
      match split_dots mantissa with
      | [i] => Some (i, EmptyString)
      | [i; f] => Some (i, f)
      | _ => None
      end in
    match parts, exponent with
    | Some (i, f), Some e =>
        if digits1 (i ++ f)%string then
          let c := int_of_digits (i ++ f)%string in
          Ok (DFin (if neg then - c else c) (e - Z.of_nat (String.length f)))
        else invalid_operation
    | _, _ => invalid_operation
    end.

Example dec_of_string_ex : dec_of_string "-12.50e1 " = Ok (DFin (-1250) (-1)).
Proof. vm_compute. reflexivity. Qed.
