(* ===== verification/PyDate.v ===== *)
(** Calendar dates of UTC instants: the proleptic Gregorian calendar of
    Python's [datetime], on instants in microseconds since 1970-01-01. *)

From S2P Require Export PyVal.

#[local] Open Scope Z_scope.

(** The day number of an instant, and the time of the day. *)
Definition day_of (us : Z) : Z := us / day.
Definition time_of_day (us : Z) : Z := us mod day.

Definition is_leap (y : Z) : bool := (y mod 4 =? 0) && (negb (y mod 100 =? 0) || (y mod 400 =? 0)).

(** [calendar.monthrange(y, m)[1]]. *)
Definition month_days (y m : Z) : Z :=
  if m =? 2 then (if is_leap y then 29 else 28)
  else if (m =? 4) || (m =? 6) || (m =? 9) || (m =? 11) then 30 else 31.

Record date := Date { d_year : Z; d_month : Z; d_day : Z }.

(** Years are counted from March, in cycles of 400 years (146097 days). *)
Definition days_from_civil (dt : date) : Z :=
  let y := if d_month dt <=? 2 then d_year dt - 1 else d_year dt in
  let mp := (d_month dt + 9) mod 12 in
  let yoe := y mod 400 in
  let doy := (153 * mp + 2) / 5 + d_day dt - 1 in
  let doe := yoe * 365 + yoe / 4 - yoe / 100 + doy in
  y / 400 * 146097 + doe - 719468.

(** The date of a day of the cycle, its year counted from the cycle's start. *)
Definition civil_in_cycle (doe : Z) : date :=
  let yoe := (doe - doe / 1460 + doe / 36524 - doe / 146096) / 365 in
  let doy := doe - (365 * yoe + yoe / 4 - yoe / 100) in
  let mp := (5 * doy + 2) / 153 in
  let m := if mp <? 10 then mp + 3 else mp - 9 in
  Date (yoe + (if m <=? 2 then 1 else 0)) m (doy - (153 * mp + 2) / 5 + 1).

Definition civil_from_days (n : Z) : date :=
  let z := n + 719468 in
  let c := civil_in_cycle (z mod 146097) in
  Date (d_year c + z / 146097 * 400) (d_month c) (d_day c).

Definition valid_date (dt : date) : bool :=
  (1 <=? d_month dt) && (d_month dt <=? 12) && (1 <=? d_day dt) && (d_day dt <=? month_days (d_year dt) (d_month dt)).

(** ** One cycle, checked day by day *)

Fixpoint below (n : nat) (p : Z -> bool) (from : Z) : bool :=
  match n with O => true | S n => p from && below n p (from + 1) end.

Lemma below_spec n p from : below n p from = true -> forall z, from <= z < from + Z.of_nat n -> p z = true.
Proof.
  revert from. induction n as [|n IH]; intros from Hb z Hz; [lia|]. simpl in Hb.
  apply andb_true_iff in Hb as [Hp Hb]. destruct (decide (z = from)) as [->|Hne]; [done|].
  apply (IH (from + 1)); [done|lia].
Qed.

Definition cycle_day_ok (doe : Z) : bool :=
  let c := civil_in_cycle doe in
  (days_from_civil c =? doe - 719468) && valid_date c && (0 <=? d_year c) && (d_year c <=? 400).

Lemma cycle_ok : below (Z.to_nat 146097) cycle_day_ok 0 = true.
Proof. by vm_compute. Qed.

Lemma cycle_day doe : 0 <= doe < 146097 ->
  days_from_civil (civil_in_cycle doe) = doe - 719468 /\ valid_date (civil_in_cycle doe) = true /\
  0 <= d_year (civil_in_cycle doe) <= 400.
Proof.
  intros Hd. pose proof (below_spec _ _ _ cycle_ok doe) as Hok. rewrite Z2Nat.id in Hok by lia.
  specialize (Hok Hd). unfold cycle_day_ok in Hok. bool_to_prop. repeat split; try done; lia.
Qed.

(** Shifting a date by whole cycles. *)
Lemma days_shift dt k :
  days_from_civil (Date (d_year dt + k * 400) (d_month dt) (d_day dt)) = days_from_civil dt + k * 146097.
Proof.
  unfold days_from_civil. cbn [d_year d_month d_day]. set (y := if d_month dt <=? 2 then d_year dt - 1 else d_year dt).
  replace (if d_month dt <=? 2 then d_year dt + k * 400 - 1 else d_year dt + k * 400) with (y + k * 400)
    by (unfold y; destruct (_ <=? _); lia).
  rewrite Z.div_add, Z.mod_add by lia. lia.
Qed.

Lemma is_leap_shift y k : is_leap (y + k * 400) = is_leap y.
Proof.
  unfold is_leap. assert (H4 : (y + k * 400) mod 4 = y mod 4) by (rewrite <- (Z.mod_add y (k * 100) 4) by lia; f_equal; lia).
  assert (H100 : (y + k * 400) mod 100 = y mod 100) by (rewrite <- (Z.mod_add y (k * 4) 100) by lia; f_equal; lia).
  by rewrite H4, H100, Z.mod_add by lia.
Qed.

Lemma civil_roundtrip n : days_from_civil (civil_from_days n) = n.
Proof.
  unfold civil_from_days. pose proof (Z.div_mod (n + 719468) 146097) as Hdm.
  destruct (cycle_day ((n + 719468) mod 146097)) as [Hd _]; [apply Z.mod_pos_bound; lia|].
  rewrite days_shift, Hd. lia.
Qed.

Lemma civil_valid n : valid_date (civil_from_days n) = true.
Proof.
  unfold civil_from_days. destruct (cycle_day ((n + 719468) mod 146097)) as (_ & Hv & _); [apply Z.mod_pos_bound; lia|].
  revert Hv. unfold valid_date, month_days. cbn [d_year d_month d_day]. by rewrite is_leap_shift.
Qed.

(** ** Formatting *)

Fixpoint zeros (n : nat) : string := match n with O => EmptyString | S n => String "0" (zeros n) end.
Definition pad (width : nat) (z : Z) : string :=
  let s := str_of_Z z in (zeros (width - String.length s) ++ s)%string.
Definition iso_date (dt : date) : string :=
  (pad 4 (d_year dt) ++ "-" ++ pad 2 (d_month dt) ++ "-" ++ pad 2 (d_day dt))%string.

(** [value.date().isoformat()] of a UTC instant. *)
Definition iso_day (us : Z) : string := iso_date (civil_from_days (day_of us)).

Definition instant (dt : date) (tod : Z) : Z := days_from_civil dt * day + tod.

Example epoch_day : iso_day 0 = "1970-01-01"%string.
Proof. by vm_compute. Qed.
Example leap_day : iso_day (instant (Date 2024 2 29) (23 * hour)) = "2024-02-29"%string.
Proof. by vm_compute. Qed.

(** [value.isoformat()] of an aware UTC datetime, without and with its offset. *)
Definition iso_time (tod : Z) : string :=
  let us := tod mod second in
  (pad 2 (tod / hour) ++ ":" ++ pad 2 (tod / minute mod 60) ++ ":" ++ pad 2 (tod / second mod 60) ++
   if (us =? 0)%Z then EmptyString else "." ++ pad 6 us)%string.
Definition iso_datetime (us : Z) : string := (iso_day us ++ "T" ++ iso_time (time_of_day us))%string.
Definition isoformat (us : Z) : string := (iso_datetime us ++ "+00:00")%string.
(** [.isoformat(timespec="microseconds")]. *)
Definition isoformat_us (us : Z) : string :=
  (iso_day us ++ "T" ++ iso_time (time_of_day us / second * second) ++ "." ++ pad 6 (us mod second) ++ "+00:00")%string.
(** [.isoformat().replace("+00:00", "Z")]. *)
Definition isoformat_z (us : Z) : string := (iso_datetime us ++ "Z")%string.

Example isoformat_sample :
  isoformat (instant (Date 2024 2 29) (10 * hour + 5 * minute + 7 * second + 42)) = "2024-02-29T10:05:07.000042+00:00"%string.
Proof. by vm_compute. Qed.
Example isoformat_us_sample :
  isoformat_us (instant (Date 2024 2 29) (10 * hour)) = "2024-02-29T10:00:00.000000+00:00"%string.
Proof. by vm_compute. Qed.

(** [datetime.fromisoformat] of CPython (3.11 and later): calendar and week
    dates, basic and extended forms, and offsets. *)

Definition iso_error {A} : result A := raise_value "Invalid isoformat string".

(** [s[n:]] and [s[:n]]. *)
Fixpoint drop (n : nat) (s : string) : string :=
  match n, s with
  | S n, String _ s => drop n s
  | _, _ => s
  end.
Definition take (n : nat) (s : string) : string := String.substring 0 n s.
(** [s[n:n+1] == c]. *)
Definition char_at (n : nat) (c : ascii) (s : string) : bool :=
  match String.get n s with Some d => Ascii.eqb d c | None => false end.
Definition digit_at (n : nat) (s : string) : bool :=
  match String.get n s with Some d => is_digit d | None => false end.

(** Exactly [n] ASCII digits at the front. *)
Definition digits_front (n : nat) (s : string) : result (Z * string) :=
  let w := take n s in
  if Nat.eqb (String.length w) n && string_forallb is_digit w then Ok (int_of_digits w, drop n s) else iso_error.

Fixpoint digit_run (s : string) : nat :=
  match s with String c s => if is_digit c then S (digit_run s) else O | EmptyString => O end.

(** ** Dates *)

(** Where the date part ends. *)
Definition date_end (s : string) : result nat :=
  let len := String.length s in
  if Nat.eqb len 7 then Ok 7%nat
  else if char_at 4 "-" s then
    if char_at 5 "W" s then
      if Nat.ltb 8 len && char_at 8 "-" s then
        if Nat.eqb len 9 then iso_error
        else if Nat.ltb 10 len && digit_at 10 s then Ok 8%nat else Ok 10%nat
      else Ok 8%nat
    else Ok 10%nat
  else if char_at 4 "W" s then
    let idx := (7 + digit_run (drop 7 s))%nat in
    if Nat.ltb idx 9 then Ok idx else if Nat.even idx then Ok 7%nat else Ok 8%nat
  else Ok 8%nat.

(** Monday of week 1: the week of January 4th. *)
Definition iso_week1 (y : Z) : Z :=
  let jan1 := days_from_civil (Date y 1 1) in
  let weekday := (jan1 + 3) mod 7 in (* 1970-01-01 is a Thursday *)
  let monday := jan1 - weekday in
  if 3 <? weekday then monday + 7 else monday.
Definition weeks_of (y : Z) : Z := (iso_week1 (y + 1) - iso_week1 y) / 7.

Definition parse_date (s : string) : result Z :=
  let! ' (y, r) := digits_front 4 s in
  let sep := char_at 0 "-" r in
  let r := if sep then drop 1 r else r in
  if char_at 0 "W" r then
    let! ' (w, r) := digits_front 2 (drop 1 r) in
    let! ' (d, r) :=
      (if string_is_empty r then Ok (1, r)
       else if negb (Bool.eqb (char_at 0 "-" r) sep) then iso_error
       else digits_front 1 (if sep then drop 1 r else r)) in
    if negb (string_is_empty r) || negb ((1 <=? y) && (y <=? 9999)) || negb ((1 <=? w) && (w <=? weeks_of y)) || negb ((1 <=? d) && (d <=? 7))
    then iso_error
    else
      let n := iso_week1 y + (w - 1) * 7 + (d - 1) in
      if valid_date (civil_from_days n) && (d_year (civil_from_days n) <=? 9999) && (1 <=? d_year (civil_from_days n)) then Ok n else iso_error
  else
    let! ' (m, r) := digits_front 2 r in
    if negb (Bool.eqb (char_at 0 "-" r) sep) then iso_error
    else
      let! ' (d, r) := digits_front 2 (if sep then drop 1 r else r) in
      if string_is_empty r && (1 <=? y) && (y <=? 9999) && valid_date (Date y m d) then Ok (days_from_civil (Date y m d)) else iso_error.

(** ** Times *)

(** The fraction: six digits count, more have to be digits. *)
Definition parse_fraction (s : string) : result Z :=
  if string_is_empty s || negb (string_forallb is_digit s) then iso_error
  else
    let w := take 6 s in
    Ok (int_of_digits w * 10 ^ (6 - Z.of_nat (String.length w))).

(** [HH[:?MM[:?SS[{.,}f+]]]], in microseconds; the components are checked by
    the caller. *)
Record clock_time := { ct_hour : Z; ct_minute : Z; ct_second : Z; ct_us : Z }.
Definition parse_hh_mm_ss_ff (s : string) : result clock_time :=
  let fraction (hh mm ss : Z) (r : string) :=
    match r with
    | EmptyString => Ok {| ct_hour := hh; ct_minute := mm; ct_second := ss; ct_us := 0 |}
    | String c f =>
        if Ascii.eqb c "." || Ascii.eqb c "," then
          let! us := parse_fraction f in Ok {| ct_hour := hh; ct_minute := mm; ct_second := ss; ct_us := us |}
        else iso_error
    end in
  let! ' (hh, r) := digits_front 2 s in
  let sep := char_at 0 ":" r in
  if string_is_empty r then fraction hh 0 0 r
  else
    let! ' (mm, r) := digits_front 2 (if sep then drop 1 r else r) in
    if string_is_empty r then fraction hh mm 0 r
    else if sep && negb (char_at 0 ":" r) then iso_error
    else let! ' (ss, r) := digits_front 2 (if sep then drop 1 r else r) in fraction hh mm ss r.

Definition time_us (t : clock_time) : Z := ct_hour t * hour + ct_minute t * minute + ct_second t * second + ct_us t.

(** Split before the first sign or [Z]. *)
Fixpoint zone_split (s : string) : string * option (ascii * string) :=
  match s with
  | EmptyString => (EmptyString, None)
  | String c r =>
      if Ascii.eqb c "-" || Ascii.eqb c "+" || Ascii.eqb c "Z" then (EmptyString, Some (c, r))
      else let '(a, z) := zone_split r in (String c a, z)
  end.

(** The time of day and the offset from UTC. *)
Definition parse_time (s : string) : result (Z * option Z) :=
  let '(t, zone) := zone_split s in
  let! t := parse_hh_mm_ss_ff t in
  if negb ((ct_hour t <=? 23) && (ct_minute t <=? 59) && (ct_second t <=? 59)) then iso_error
  else
    match zone with
    | None => Ok (time_us t, None)
    | Some (c, z) =>
        if Ascii.eqb c "Z" then if string_is_empty z then Ok (time_us t, Some 0) else iso_error
        else
          let! o := parse_hh_mm_ss_ff z in
          if day <=? time_us o then iso_error else Ok (time_us t, Some (if Ascii.eqb c "-" then - time_us o else time_us o))
    end.

(** The datetime: aware when an offset is given. *)
Definition fromisoformat (s : string) : result val :=
  if Nat.ltb (String.length s) 7 then iso_error
  else
    let! n := date_end s in
    let! d := parse_date (take n s) in
    if Nat.eqb (String.length s) n then Ok (VDate false (d * day))
    else
      let! ' (t, offset) := parse_time (drop (S n) s) in
      Ok (match offset with Some o => VDate true (d * day + t - o) | None => VDate false (d * day + t) end).

Example iso_offset : fromisoformat "2024-02-29T10:05:07.120-04:00" = Ok (VDate true (instant (Date 2024 2 29) (14 * hour + 5 * minute + 7 * second + 120000))).
Proof. by vm_compute. Qed.
Example iso_basic : fromisoformat "20240229T100507Z" = Ok (VDate true (instant (Date 2024 2 29) (10 * hour + 5 * minute + 7 * second))).
Proof. by vm_compute. Qed.
Example iso_week : fromisoformat "2020-W53-5" = Ok (VDate false (instant (Date 2021 1 1) 0)).
Proof. by vm_compute. Qed.
Example iso_bare_separator : fromisoformat "2009-04-19T" = iso_error.
Proof. by vm_compute. Qed.
