(* ===== verification/IpAddress.v ===== *)
(** The addresses and networks of Python's [ipaddress], as far as the webhook
    endpoint uses them: parsing, and whether a network holds an address. *)

From S2P Require Export PyVal.

#[local] Open Scope Z_scope.

(** ** Numbers *)

Definition parse_octet (s : string) : option Z :=
  if string_is_empty s || negb (string_forallb is_digit s) || Nat.ltb 3 (String.length s) then None
  else if negb (String.eqb s "0") && startswith "0" s then None
  else let z := int_of_digits s in if 255 <? z then None else Some z.

Definition hex_digit (c : ascii) : option Z :=
  let n := Z.of_nat (nat_of_ascii c) in
  if is_digit c then Some (n - 48)
  else if char_in 97 102 c then Some (n - 87)
  else if char_in 65 70 c then Some (n - 55)
  else None.
Fixpoint hex_value (acc : Z) (s : string) : option Z :=
  match s with
  | EmptyString => Some acc
  | String c s => match hex_digit c with Some d => hex_value (acc * 16 + d) s | None => None end
  end.
Definition parse_hextet (s : string) : option Z :=
  if string_is_empty s || Nat.ltb 4 (String.length s) then None else hex_value 0 s.

(** ** Addresses *)

Definition ipv4_int (s : string) : option Z :=
  match map parse_octet (split_char "." s) with
  | [Some a; Some b; Some c; Some d] => Some (((a * 256 + b) * 256 + c) * 256 + d)
  | _ => None
  end.

(** A group of an IPv6 address: its text, or half of an IPv4 suffix. *)
Inductive part := PText (s : string) | PNum (n : Z).
Definition part_blank (p : part) : bool := match p with PText EmptyString => true | _ => false end.
Definition part_value (p : part) : option Z := match p with PText s => parse_hextet s | PNum n => Some n end.

Definition ipv6_parts (s : string) : option (list part) :=
  let texts := split_char ":" s in
  if Nat.ltb (length texts) 3 then None
  else
    let final := List.last texts EmptyString in
    if contains "." final then
      match ipv4_int final with
      | Some v => Some (map PText (removelast texts) ++ [PNum (Z.shiftr v 16 mod 65536); PNum (v mod 65536)])
      | None => None
      end
    else Some (map PText texts).

(** The positions, endpoints apart, where nothing stands between two colons. *)
Definition blanks (parts : list part) : list nat :=
  List.filter (fun i => match parts !! i with Some p => part_blank p | None => false end) (seq 1 (length parts - 2)).

Fixpoint groups (acc : Z) (parts : list part) : option Z :=
  match parts with
  | [] => Some acc
  | p :: parts => match part_value p with Some v => groups (acc * 65536 + v) parts | None => None end
  end.

Definition first_blank (parts : list part) : bool := match parts with p :: _ => part_blank p | [] => false end.
Definition last_blank (parts : list part) : bool := match List.last parts (PNum 0) with p => part_blank p end.

Definition ipv6_of_parts (parts : list part) : option Z :=
  let n := length parts in
  if Nat.ltb 9 n then None
  else
    match blanks parts with
    | [] => if negb (Nat.eqb n 8) || first_blank parts || last_blank parts then None else groups 0 parts
    | [skip] =>
        let hi := if first_blank parts then (skip - 1)%nat else skip in
        let lo := if last_blank parts then (n - skip - 2)%nat else (n - skip - 1)%nat in
        if first_blank parts && negb (Nat.eqb hi 0) || last_blank parts && negb (Nat.eqb lo 0) || Nat.ltb 7 (hi + lo)
        then None
        else
          match groups 0 (take hi parts), groups 0 (drop (n - lo) parts) with
          | Some h, Some l => Some (h * 65536 ^ Z.of_nat (8 - hi) + l)
          | _, _ => None
          end
    | _ => None
    end.

(** The address before its scope. *)
Definition scope_split (s : string) : option string :=
  match split_char "%" s with
  | [addr] => Some addr
  | [addr; scope] => if string_is_empty scope then None else Some addr
  | _ => None
  end.
Definition ipv6_int (s : string) : option Z :=
  match scope_split s with
  | Some addr => match ipv6_parts addr with Some parts => ipv6_of_parts parts | None => None end
  | None => None
  end.

Inductive ip := IPv4 (v : Z) | IPv6 (v : Z).
Definition value_error {A} (s what : string) : result A :=
  raise_value ("'" ++ s ++ "' does not appear to be an IPv4 or IPv6 " ++ what).
Definition ip_address (s : string) : result ip :=
  if contains "/" s then value_error s "address"
  else match ipv4_int s with
       | Some v => Ok (IPv4 v)
       | None => match ipv6_int s with Some v => Ok (IPv6 v) | None => value_error s "address" end
       end.

(** ** Networks *)

Definition prefix_of_digits (max : Z) (s : string) : option Z :=
  if digits1 s then let p := int_of_digits s in if p <=? max then Some p else None else None.

(** A netmask: ones before zeros. *)
Definition netmask_of (bits prefix : Z) : Z := 2 ^ bits - 2 ^ (bits - prefix).
Definition prefix_of_mask (v : Z) : option Z :=
  List.find (fun p => netmask_of 32 p =? v) (map Z.of_nat (seq 0 33)).
Definition ipv4_prefix (s : string) : option Z :=
  match prefix_of_digits 32 s with
  | Some p => Some p
  | None =>
      match ipv4_int s with
      | Some v => match prefix_of_mask v with Some p => Some p | None => prefix_of_mask (Z.lxor v (2 ^ 32 - 1)) end
      | None => None
      end
  end.

(** The network address and the mask. *)
Inductive network := Net4 (address mask : Z) | Net6 (address mask : Z).

Definition ip_network (s : string) : result network :=
  let '(addr, prefix) := match split_char "/" s with
                         | [addr] => (Some addr, None)
                         | [addr; prefix] => (Some addr, Some prefix)
                         | _ => (None, None)
                         end in
  let p4 := match prefix with Some p => ipv4_prefix p | None => Some 32 end in
  let p6 := match prefix with Some p => prefix_of_digits 128 p | None => Some 128 end in
  match addr with
  | None => value_error s "network"
  | Some a =>
      match ipv4_int a, p4 with
      | Some v, Some p => Ok (Net4 (Z.land v (netmask_of 32 p)) (netmask_of 32 p))
      | _, _ =>
          match ipv6_int a, p6 with
          | Some v, Some p => Ok (Net6 (Z.land v (netmask_of 128 p)) (netmask_of 128 p))
          | _, _ => value_error s "network"
          end
      end
  end.

(** [address in network]. *)
Definition in_network (a : ip) (n : network) : bool :=
  match a, n with
  | IPv4 v, Net4 address mask | IPv6 v, Net6 address mask => Z.land v mask =? address
  | _, _ => false
  end.

(** ** Membership is a range of addresses *)

Lemma land_netmask bits prefix v : 0 <= prefix <= bits -> 0 <= v < 2 ^ bits ->
  Z.land v (netmask_of bits prefix) = v / 2 ^ (bits - prefix) * 2 ^ (bits - prefix).
Proof.
  intros Hp Hv. unfold netmask_of. set (k := bits - prefix). assert (Hk : 0 <= k <= bits) by lia.
  rewrite <- Z.shiftr_div_pow2, <- Z.shiftl_mul_pow2 by lia. apply Z.bits_inj'. intros i Hi.
  rewrite Z.land_spec, Z.shiftl_spec by lia.
  assert (Hmask : Z.testbit (2 ^ bits - 2 ^ k) i = (k <=? i) && (i <? bits)).
  { replace (2 ^ bits - 2 ^ k) with (Z.shiftl (Z.ones (bits - k)) k).
    2: { rewrite Z.shiftl_mul_pow2, Z.ones_equiv by lia. replace (2 ^ bits) with (2 ^ (bits - k) * 2 ^ k); [lia|].
         rewrite <- Z.pow_add_r by lia. f_equal. lia. }
    rewrite Z.shiftl_spec by lia. destruct (Z.leb_spec k i) as [Hle|Hlt].
    - destruct (Z.ltb_spec i bits); [apply Z.ones_spec_low; lia|apply Z.ones_spec_high; lia].
    - rewrite Z.testbit_neg_r by lia. done. }
  rewrite Hmask. destruct (Z.leb_spec k i) as [Hle|Hlt]; cbn [andb].
  - rewrite Z.shiftr_spec by lia. replace (i - k + k) with i by lia. destruct (Z.ltb_spec i bits) as [Hb|Hb]; [by rewrite andb_true_r|].
    rewrite andb_false_r. symmetry. destruct (decide (v = 0)) as [->|Hnz]; [apply Z.bits_0|].
    apply Z.bits_above_log2; [lia|]. apply Z.log2_lt_pow2; [lia|]. pose proof (Z.pow_le_mono_r 2 bits i). lia.
  - rewrite andb_false_r. symmetry. apply Z.testbit_neg_r. lia.
Qed.

(** An IPv4 network [a/p] holds the addresses of its block of [2^(32-p)]. *)
Lemma in_network4 a p v : 0 <= p <= 32 -> 0 <= v < 2 ^ 32 -> 0 <= a < 2 ^ 32 ->
  in_network (IPv4 v) (Net4 (Z.land a (netmask_of 32 p)) (netmask_of 32 p)) = true <->
  v / 2 ^ (32 - p) = a / 2 ^ (32 - p).
Proof.
  intros Hp Hv Ha. simpl. rewrite !land_netmask by lia. rewrite Z.eqb_eq.
  pose proof (Z.pow_pos_nonneg 2 (32 - p)). split; [|by intros ->]. intros He. apply Z.mul_cancel_r in He; [done|lia].
Qed.

Example some_addresses :
  map ip_address ["10.1.2.3"; "::1"; "1::"; "::ffff:10.1.2.3"; "2001:db8::8:0:1%eth0"]%string =
  map Ok [IPv4 167838211; IPv6 1; IPv6 (2 ^ 112); IPv6 281470849581571;
          IPv6 42540766411282592856903984986013564929].
Proof. by vm_compute. Qed.
Example no_addresses :
  forallb (fun s => match ip_address s with Err _ => true | Ok _ => false end)
    ["10.1.2"; "10.01.2.3"; "10.1.2.256"; "1::2::3"; ":1::"; "12345::"; ""; "10.0.0.0/8"; "fe80::1%"]%string = true.
Proof. by vm_compute. Qed.
Example some_networks :
  forallb (fun x => match ip_address x.1.1, ip_network x.1.2 with Ok a, Ok n => Bool.eqb (in_network a n) x.2 | _, _ => false end)
    [("10.1.2.3", "10.0.0.0/8", true); ("10.1.2.3", "10.1.2.9/255.255.255.0", true); ("11.1.2.3", "10.0.0.0/0.255.255.255", false);
     ("::1", "::/64", true); ("::1", "0.0.0.0/0", false); ("10.1.2.3", "10.1.2.3", true)]%string = true.
Proof. by vm_compute. Qed.
