(* ===== verification/Vault.v ===== *)
(** Envelope encryption of MercadoLibre tokens: gateway/.../tokens/encryption.py.
    A data key per account, wrapped by Cloud KMS and cached for a while. *)

From S2P Require Export Concurrency.

#[local] Open Scope Z_scope.

Record EncryptedToken := { ciphertext : string; nonce : string; dek_wrapped : string; kms_key_version : string }.

(** AES-GCM of the [cryptography] package: key, nonce, text, associated data;
    decryption is [None] on an invalid tag.  Texts are their UTF-8 bytes. *)
Class Aead := {
  aesgcm_encrypt : string -> string -> string -> string -> string;
  aesgcm_decrypt : string -> string -> string -> string -> option string;
}.

(** The process's key cache ([_DEK_CACHE]), the key service and [os.urandom]. *)
Inductive vault_call : Type -> Type :=
| CachedDek (key : string) : vault_call (option (string * string))
| CacheDek (key dek wrapped : string) : vault_call unit
| KmsEncrypt (dek : string) : vault_call (string * string)
| KmsDecrypt (wrapped : string) : vault_call string
| Urandom (n : nat) : vault_call string.

Definition _cache_key (account_id : string) : string := "meli-token-dek:" ++ account_id.

Section Vault.
Context {E : Type -> Type} `{Aead}.
Variable vault : forall X, vault_call X -> E X.
(** The name of the configured key. *)
Variable _kms_key_name : string.

Definition _get_or_create_dek (account_id : string) : prog E (string * string * string) :=
  let key := _cache_key account_id in
  let* cached := ext (vault _ (CachedDek key)) in
  match cached with
  | Some (dek, wrapped) => Ret (dek, wrapped, _kms_key_name)
  | None =>
      let* dek := ext (vault _ (Urandom 32)) in
      let* '(wrapped, version) := ext (vault _ (KmsEncrypt dek)) in
      do* ext (vault _ (CacheDek key dek wrapped)) in
      Ret (dek, wrapped, version)
  end.

Definition encrypt_token (plaintext account_id : string) : prog E EncryptedToken :=
  let* '(dek, wrapped, version) := _get_or_create_dek account_id in
  let* nonce := ext (vault _ (Urandom 12)) in
  Ret {| ciphertext := aesgcm_encrypt dek nonce plaintext account_id; nonce := nonce; dek_wrapped := wrapped;
         kms_key_version := version |}.

Definition decrypt_token (token : EncryptedToken) (account_id : string) : prog E string :=
  let key := _cache_key account_id in
  let* cached := ext (vault _ (CachedDek key)) in
  let* dek := match cached with
              | Some (dek, wrapped) =>
                  if String.eqb wrapped (dek_wrapped token) then Ret dek
                  else
                    let* dek := ext (vault _ (KmsDecrypt (dek_wrapped token))) in
                    do* ext (vault _ (CacheDek key dek (dek_wrapped token))) in Ret dek
              | None =>
                  let* dek := ext (vault _ (KmsDecrypt (dek_wrapped token))) in
                  do* ext (vault _ (CacheDek key dek (dek_wrapped token))) in Ret dek
              end in
  match aesgcm_decrypt dek (nonce token) (ciphertext token) account_id with
  | Some plaintext => Ret plaintext
  | None => Raise (mk_exn "InvalidTag" "")
  end.
End Vault.

(** ** The services *)

Abbreviation dek_cache := (gmap string (string * string)).

(** What the libraries document: decryption inverts encryption under the same
    key, nonce and data; a wrapped key unwraps to the one key it wraps. *)
Class VaultLaws `{Aead} := {
  wraps : string -> string -> Prop;
  aes_inverse k n p a : aesgcm_decrypt k n (aesgcm_encrypt k n p a) a = Some p;
  wraps_functional d d' w : wraps d w -> wraps d' w -> d = d';
}.

(** A failure of the key service; no decryption error. *)
Definition vault_failure (e : exn) : Prop := isinstance e "InvalidTag" = false.

(** Entries expire or are evicted at any time. *)
#[export] Instance vault_spec `{VaultLaws} : ExtSpec vault_call dek_cache := fun X c =>
  match c in vault_call X return dek_cache -> dek_cache -> result X -> Prop with
  | CachedDek k => fun s s' r => s' ⊆ s /\ r = Ok (s' !! k)
  | CacheDek k dek w => fun s s' r => s' ⊆ <[k := (dek, w)]> s /\ r = Ok tt
  | KmsEncrypt dek => fun s s' r => s' ⊆ s /\ match r with Ok (w, _) => wraps dek w | Err e => vault_failure e end
  | KmsDecrypt w => fun s s' r => s' ⊆ s /\
      match r with Ok dek => wraps dek w | Err e => vault_failure e end
  | Urandom n => fun s s' r => s' ⊆ s /\ exists x, r = Ok x /\ String.length x = n
  end.

(** A service that embeds the vault: its calls act on its part of the state as
    the vault specifies. *)
Class VaultIn `{VaultLaws} {E : Type -> Type} {S : Type} `{ExtSpec E S} (vault : forall X, vault_call X -> E X) := {
  vault_cache : S -> dek_cache;
  vault_in_spec X (c : vault_call X) s s' r :
    ext_spec X (vault X c) s s' r -> ext_spec X c (vault_cache s) (vault_cache s') r;
}.

Section Theorems.
Context `{VaultLaws} `{MongoConf} {E : Type -> Type} {S : Type} `{!ExtSpec E S} (vault : forall X, vault_call X -> E X).
Context `{!VaultIn vault}.
Implicit Types w : world S.
Definition w_cache w : dek_cache := vault_cache (w_ext w).

(** Every cached key is the one its wrapped form unwraps to. *)
Definition cache_sound (s : dek_cache) : Prop := forall k dek wr, s !! k = Some (dek, wr) -> wraps dek wr.
(** The token holds the text under a key it carries wrapped. *)
Definition sealed (t : EncryptedToken) (account_id plaintext : string) : Prop :=
  exists dek, wraps dek (dek_wrapped t) /\ ciphertext t = aesgcm_encrypt dek (nonce t) plaintext account_id.

Lemma sound_shrinks s s' : s' ⊆ s -> cache_sound s -> cache_sound s'.
Proof using Type. intros Hs Hc k dek wr Hk. eapply Hc, lookup_weaken; eauto. Qed.
Lemma sound_caches s s' k dek wr : s' ⊆ <[k := (dek, wr)]> s -> cache_sound s -> wraps dek wr -> cache_sound s'.
Proof using Type.
  intros Hs Hc Hw. eapply sound_shrinks; [exact Hs|]. intros k' dek' wr'.
  destruct (decide (k' = k)) as [->|Hne]; [rewrite lookup_insert_eq; congruence|rewrite lookup_insert_ne by done; apply Hc].
Qed.

Lemma wp_vault {X B} (c : vault_call X) (k : X -> prog E B) Q w :
  (forall w' r, ext_spec X c (w_cache w) (w_cache w') r -> w_db w' = w_db w -> w_now w <= w_now w' ->
    match r with Ok x => wp (k x) Q w' | Err e => Q w' (Err e) end) ->
  wp (bind (ext (vault _ c)) k) Q w.
Proof using Type*. intros Hk. apply wp_bind, wp_perform. intros w' r (Hr & Hdb & _ & Ht). apply Hk; [by apply vault_in_spec|done..]. Qed.

(** A sealed text is read back whatever the cache holds. *)
Lemma wp_decrypt t a p (Q : world S -> result string -> Prop) w :
  cache_sound (w_cache w) -> sealed t a p ->
  (forall w', cache_sound (w_cache w') -> w_db w' = w_db w -> Q w' (Ok p)) ->
  (forall w' e, cache_sound (w_cache w') -> w_db w' = w_db w -> vault_failure e -> Q w' (Err e)) ->
  wp (decrypt_token vault t a) Q w.
Proof using Type*.
  intros Hc (dek & Hd & Hct) Hok Herr. unfold decrypt_token. apply wp_vault. intros w1 r [Hs ->] Hdb1 _.
  pose proof (sound_shrinks _ _ Hs Hc) as Hc1.
  assert (Hdone : forall dek' w', wraps dek' (dek_wrapped t) -> cache_sound (w_cache w') -> w_db w' = w_db w ->
    wp (E := E) match aesgcm_decrypt dek' (nonce t) (ciphertext t) a with
        | Some plaintext => Ret plaintext | None => Raise (mk_exn "InvalidTag" "") end Q w').
  { intros dek' w' Hw Hc' Hdb'. rewrite (wraps_functional _ _ _ Hw Hd), Hct, aes_inverse. by apply Hok. }
  assert (Hfetch : wp (bind (let* dek := ext (vault _ (KmsDecrypt (dek_wrapped t))) in
                    do* ext (vault _ (CacheDek (_cache_key a) dek (dek_wrapped t))) in Ret dek)
      (fun dek' => match aesgcm_decrypt dek' (nonce t) (ciphertext t) a with
        | Some plaintext => Ret plaintext | None => Raise (mk_exn "InvalidTag" "") end)) Q w1).
  { apply wp_bind, wp_vault. intros w2 r [Hs2 Hr] Hdb2 _. pose proof (sound_shrinks _ _ Hs2 Hc1) as Hc2.
    destruct r as [dek'|e]; [|apply Herr; [done|congruence|done]].
    apply wp_vault. intros w3 r [Hs3 ->] Hdb3 _. apply Hdone; [done| |congruence]. by eapply sound_caches. }
  destruct (w_cache w1 !! _cache_key a) as [[dek' wr]|] eqn:Hk; [|exact Hfetch].
  destruct (String.eqb_spec wr (dek_wrapped t)) as [->|]; [|exact Hfetch].
  apply Hdone; [by eapply Hc1|done|done].
Qed.

(** What is encrypted is sealed. *)
Lemma wp_encrypt name p a (Q : world S -> result EncryptedToken -> Prop) w :
  cache_sound (w_cache w) ->
  (forall w' t, cache_sound (w_cache w') -> w_db w' = w_db w -> sealed t a p ->
     String.length (nonce t) = 12%nat -> Q w' (Ok t)) ->
  (forall w' e, cache_sound (w_cache w') -> w_db w' = w_db w -> vault_failure e -> Q w' (Err e)) ->
  wp (encrypt_token vault name p a) Q w.
Proof using Type*.
  intros Hc Hok Herr. unfold encrypt_token, _get_or_create_dek.
  assert (Hdone : forall dek wr v w', wraps dek wr -> cache_sound (w_cache w') -> w_db w' = w_db w ->
    wp (let* n := ext (vault _ (Urandom 12)) in
        Ret {| ciphertext := aesgcm_encrypt dek n p a; nonce := n; dek_wrapped := wr; kms_key_version := v |}) Q w').
  { intros dek wr v w' Hw Hc' Hdb'. apply wp_vault. intros w2 r [Hs2 (x & -> & Hx)] Hdb2 _. cbn [wp].
    apply Hok; [by eapply sound_shrinks|congruence| |done]. by exists dek. }
  apply wp_bind, wp_vault. intros w1 r [Hs ->] Hdb1 _. pose proof (sound_shrinks _ _ Hs Hc) as Hc1.
  destruct (w_cache w1 !! _cache_key a) as [[dek wr]|] eqn:Hk; [apply Hdone; [by eapply Hc1|done|done]|].
  apply wp_vault. intros w2 r [Hs2 (dek & -> & _)] Hdb2 _. pose proof (sound_shrinks _ _ Hs2 Hc1) as Hc2.
  apply wp_vault. intros w3 r [Hs3 Hr] Hdb3 _. pose proof (sound_shrinks _ _ Hs3 Hc2) as Hc3.
  destruct r as [[wr v]|e]; [|apply Herr; [done|congruence|done]].
  apply wp_vault. intros w4 r [Hs4 ->] Hdb4 _. apply Hdone; [done| |congruence]. by eapply sound_caches.
Qed.

(** C25: a token is read back.  Whatever keys the cache keeps, drops or
    replaces meanwhile, decrypting what was encrypted for an account returns
    the text; only a failure of the key service prevents it, never an invalid
    tag, and the cache never holds a key its wrapped form does not unwrap to. *)
Theorem encrypted_token_is_read_back name p a a' t' p' w :
  cache_sound (w_cache w) -> sealed t' a' p' ->
  wp (let* t := encrypt_token vault name p a in
      let* q := decrypt_token vault t' a' in
      let* r := decrypt_token vault t a in Ret (q, r))
    (fun w' r => cache_sound (w_cache w') /\ match r with Ok x => x = (p', p) | Err e => vault_failure e end) w.
Proof using Type*.
  intros Hc Hs'. apply wp_bind, wp_encrypt; [done| |by auto]. intros w1 t Hc1 _ Hs _.
  apply wp_bind. eapply wp_decrypt; [done|exact Hs'| |by auto]. intros w2 Hc2 _.
  apply wp_bind. eapply wp_decrypt; [done|exact Hs| |by auto]. intros w3 Hc3 _. done.
Qed.
End Theorems.

(** ** A run *)

Section Example.
Definition vault_here : forall X, vault_call X -> vault_call X := fun X c => c.
#[local] Instance aware : MongoConf := aware_conf.
(** A cipher that binds key, nonce and data; a service whose wrapped keys are
    the keys marked. *)
Definition toy_box (k n a : string) : string := (k ++ "|" ++ n ++ "|" ++ a ++ "|")%string.
#[local] Instance toy_aead : Aead := {
  aesgcm_encrypt := fun k n p a => (toy_box k n a ++ p)%string;
  aesgcm_decrypt := fun k n c a => strip_prefix (toy_box k n a) c;
}.
Lemma toy_inverse k n p a : aesgcm_decrypt k n (aesgcm_encrypt k n p a) a = Some p.
Proof. apply strip_prefix_app. Qed.
Lemma toy_wraps (d d' w : string) : w = ("kms:" ++ d)%string -> w = ("kms:" ++ d')%string -> d = d'.
Proof. intros -> He. by apply string_app_inj_l in He. Qed.
#[local] Instance toy_laws : VaultLaws := {
  wraps := fun d w => w = ("kms:" ++ d)%string; aes_inverse := toy_inverse; wraps_functional := toy_wraps;
}.
Fixpoint toy_random (n : nat) : string := match n with O => EmptyString | S n => String "r" (toy_random n) end.
Lemma toy_random_length n : String.length (toy_random n) = n.
Proof. induction n as [|n IH]; [done|]. simpl. by rewrite IH. Qed.
(** A process whose cache keeps everything. *)
#[local] Instance toy_vault : ExtRun vault_call dek_cache := {
  ext_run := fun X c => match c in vault_call X return dek_cache -> dek_cache * result X with
    | CachedDek k => fun s => (s, Ok (s !! k))
    | CacheDek k dek w => fun s => (<[k := (dek, w)]> s, Ok tt)
    | KmsEncrypt dek => fun s => (s, Ok (("kms:" ++ dek)%string, "key/1"%string))
    | KmsDecrypt w => fun s => (s, match strip_prefix "kms:" w with Some d => Ok d | None => Err (mk_exn "GoogleAPIError" "") end)
    | Urandom n => fun s => (s, Ok (toy_random n))
    end;
  uuid_run := fun _ => "0123456789abcdef0123456789abcdef"%string;
}.
Definition old_token : EncryptedToken :=
  {| ciphertext := (toy_box "k0" "n0" "7" ++ "old")%string; nonce := "n0"; dek_wrapped := "kms:k0"; kms_key_version := "key/1" |}.

#[local] Instance toy_in : VaultIn vault_here := { vault_cache := fun s : dek_cache => s; vault_in_spec := fun X c s s' r Hs => Hs }.

Example two_tokens_of_an_account :
  (run (let* t := encrypt_token vault_here "key" "new" "7" in
        let* q := decrypt_token vault_here old_token "7" in
        let* r := decrypt_token vault_here t "7" in Ret (q, r)) (World ∅ 0 None ∅)).2 = Ok ("old", "new")%string.
Proof. by vm_compute. Qed.

Lemma encrypted_token_is_read_back_witness :
  sealed old_token "7" "old" /\
  wp (let* t := encrypt_token vault_here "key" "new" "7" in
      let* q := decrypt_token vault_here old_token "7" in
      let* r := decrypt_token vault_here t "7" in Ret (q, r))
    (fun w' r => cache_sound (w_cache vault_here w') /\ match r with Ok x => x = ("old", "new")%string | Err e => vault_failure e end)
    (World ∅ 0 None ∅).
Proof.
  assert (Hs : sealed old_token "7" "old") by (exists "k0"%string; split; reflexivity).
  split; [exact Hs|]. apply (encrypted_token_is_read_back vault_here "key" "new" "7" "7" old_token "old"); [|exact Hs].
  intros k dek wr Hk. cbn in Hk. rewrite lookup_empty in Hk. discriminate Hk.
Defined.
End Example.
