(* ===== verification/Refresh.v ===== *)
(** The token refresh worker: one pass of [refresh_once] of
    gateway/.../tokens/refresh_worker.py over the accounts whose token expires
    soon, and [emit_accounts_revoked] of gateway/.../oauth/events.py. *)

From S2P Require Export PyDate Vault.

#[local] Open Scope Z_scope.

Definition ACCOUNTS : string := "meli_accounts".

Record RefreshRunStats := RefreshStats { attempted : Z; succeeded : Z; failed : Z; revoked : Z; skipped : Z }.
Definition no_stats : RefreshRunStats := RefreshStats 0 0 0 0 0.
Definition with_attempted (s : RefreshRunStats) := RefreshStats (attempted s + 1) (succeeded s) (failed s) (revoked s) (skipped s).
Definition with_succeeded (s : RefreshRunStats) := RefreshStats (attempted s) (succeeded s + 1) (failed s) (revoked s) (skipped s).
Definition with_failed (s : RefreshRunStats) := RefreshStats (attempted s) (succeeded s) (failed s + 1) (revoked s) (skipped s).
Definition with_revoked (s : RefreshRunStats) := RefreshStats (attempted s) (succeeded s) (failed s) (revoked s + 1) (skipped s).
Definition with_skipped (s : RefreshRunStats) := RefreshStats (attempted s) (succeeded s) (failed s) (revoked s) (skipped s + 1).

(** The token endpoint's answer: status and parsed body, [None] when it is no JSON. *)
Record token_response := { tr_status : Z; tr_json : option val }.

(** The vault, the token endpoint, the lifecycle publisher. *)
Inductive refresh_call : Type -> Type :=
| RVault {X} (v : vault_call X) : refresh_call X
| TokenPost (refresh_token : string) : refresh_call token_response
| PublishEvent (exchange routing_key : string) (payload : doc) : refresh_call unit.

Definition retryable_status (status : Z) : bool := (status =? 429) || (500 <=? status) && (status <? 600).
Definition RETRYABLE_HTTP_STATUSES : list Z := 429 :: ((fun k => 500 + Z.of_nat k) <$> seq 0 100).

Definition refresh_http_error (status : Z) : exn :=
  Exn "RefreshHTTPError" ("Meli refresh failed with status " ++ str_of_Z status) [VInt status].
Definition LEGACY_TRANSIENT_ERRORS : list val :=
  (fun status => VStr (exn_msg (refresh_http_error status))) <$> RETRYABLE_HTTP_STATUSES.

Definition invalid_grant : exn := mk_exn "InvalidGrantError" "".

(** [isinstance(exc, httpx.TransportError) or exc.retryable]. *)
Definition refresh_retryable (e : exn) : bool :=
  isinstance e "TransportError" ||
  isinstance e "RefreshHTTPError" && match exn_args e with [VInt status] => retryable_status status | _ => false end.
(** The errors of a refresh that the pass survives. *)
Definition refresh_caught (e : exn) : bool :=
  existsb (isinstance e) ["HTTPError"; "RefreshHTTPError"; "InvalidTag"; "KeyError"; "TypeError"; "ValueError"]%string.

Section Refresh.
Context `{PyRepr} `{Aead}.
Variable _kms_key_name : string.
Definition rvault : forall X, vault_call X -> refresh_call X := fun X v => RVault v.

Definition _safe_json (r : token_response) : doc := match tr_json r with Some (VDict d) => d | _ => ∅ end.

Definition _call_meli_refresh (token : EncryptedToken) (account_id : string) : prog refresh_call val :=
  let* refresh_token := decrypt_token rvault token account_id in
  let* response := ext (TokenPost refresh_token) in
  if 400 <=? tr_status response then
    if (tr_status response <? 500) && py_eq (doc_get (_safe_json response) "error") (VStr "invalid_grant")
    then Raise invalid_grant else Raise (refresh_http_error (tr_status response))
  else
    match tr_json response with
    | Some v => Ret v
    | None => Raise (mk_exn "JSONDecodeError" "")
    end.

Definition emit_accounts_revoked (seller : Z) (platform_user_id : val) (now : Z) (publisher : bool) : prog refresh_call unit :=
  let now_iso := isoformat now in
  let payload := mk_doc
    [("seller_id", VStr (str_of_Z seller)); ("platform_user_id", platform_user_id); ("occurred_at", VStr now_iso);
     ("idempotency_key", VStr ("accounts-revoked-" ++ str_of_Z seller ++ "-" ++ py_str platform_user_id ++ "-" ++ now_iso))]%string in
  if publisher then ext (PublishEvent "meli.events" "accounts.revoked" payload) else Ret tt.

(** The accounts a pass looks at. *)
Definition refresh_query (now : Z) : filter :=
  FAnd [FOr [FIn ["status"] [VStr "active"; VStr "refresh_pending"];
             FAnd [FEq ["status"] (VStr "error"); FIn ["last_error"] LEGACY_TRANSIENT_ERRORS]];
        FRel RLt ["expires_at"] (VDate true (now + 15 * minute))]%string.
(** The account of a candidate, if it is still due and nobody holds its lock. *)
Definition lock_query (id : string) (now : Z) : filter :=
  FAnd [FEq ["_id"] (VStr id); refresh_query now;
        FOr [FEq ["lock_held_until"] VNone; FRel RLt ["lock_held_until"] (VDate true now)]]%string.
Definition lock_update (now : Z) : update :=
  UOps [USet ["lock_held_until"] (VDate true (now + 120 * second)); USet ["status"] (VStr "refresh_pending")]%string.
Definition revoke_update (now : Z) : update :=
  UOps [USet ["status"] (VStr "revoked"); USet ["lock_held_until"] VNone; USet ["updated_at"] (VDate true now)]%string.
Definition failure_update (e : exn) (now : Z) : update :=
  UOps [USet ["status"] (VStr (if refresh_retryable e then "refresh_pending" else "error"));
        USet ["last_error"] (VStr (substring 0 500 (exn_msg e))); USet ["lock_held_until"] VNone;
        USet ["updated_at"] (VDate true now)]%string.
Definition renewal_update (access refresh : EncryptedToken) (expires_at now : Z) : update :=
  UOps [USet ["access_token_ciphertext"] (VStr (ciphertext access)); USet ["access_token_dek_wrapped"] (VStr (dek_wrapped access));
        USet ["refresh_token_ciphertext"] (VStr (ciphertext refresh)); USet ["refresh_token_dek_wrapped"] (VStr (dek_wrapped refresh));
        USet ["token_nonce"] (VStr (nonce access)); USet ["refresh_token_nonce"] (VStr (nonce refresh));
        USet ["kms_key_version"] (VStr (kms_key_version access)); USet ["expires_at"] (VDate true expires_at);
        USet ["status"] (VStr "active"); USet ["lock_held_until"] VNone; USet ["last_refresh_at"] (VDate true now);
        USet ["last_refreshed_at"] (VDate true now); USet ["updated_at"] (VDate true now)]%string.

Definition set_account (id : val) (u : update) : prog refresh_call unit :=
  let* _ := mongo (MUpdateOne ACCOUNTS (FEq ["_id"%string] id) u false) in Ret tt.

(** [v[k]] of a parsed body. *)
Definition item (v : val) (k : string) : result val :=
  match v with VDict d => doc_at d k | _ => raise_type "object is not subscriptable" end.

(** The stored refresh token of a locked account, and who owns it. *)
Definition stored_refresh_token (locked : doc) : result (EncryptedToken * string) :=
  let! ct := doc_at locked "refresh_token_ciphertext" in
  let! dek := doc_at locked "refresh_token_dek_wrapped" in
  let! n := doc_at locked "refresh_token_nonce" in
  let! version := doc_at locked "kms_key_version" in
  let! seller := doc_at locked "seller_id" in
  let! ct := as_text ct in
  let! dek := as_text dek in
  let! n := as_text n in
  Ok ({| ciphertext := ct; nonce := n; dek_wrapped := dek; kms_key_version := py_str version |}, py_str seller).

(** Storing the new tokens, outside the guarded call. *)
Definition renew (locked : doc) (new_tokens : val) (now : Z) : prog refresh_call unit :=
  let* access := of_result (item new_tokens "access_token") in
  let* seller := of_result (doc_at locked "seller_id") in
  let* access := of_result (as_text access) in
  let* access_enc := encrypt_token rvault _kms_key_name access (py_str seller) in
  let* refresh := of_result (item new_tokens "refresh_token") in
  let* refresh := of_result (as_text refresh) in
  let* refresh_enc := encrypt_token rvault _kms_key_name refresh (py_str seller) in
  let* expires_in := of_result (item new_tokens "expires_in") in
  let* expires_in := of_result (py_int expires_in) in
  set_account (doc_get locked "_id") (renewal_update access_enc refresh_enc (now + expires_in * second) now).

(** One candidate of the pass. *)
Definition refresh_account (now : Z) (publisher : bool) (id : string) (stats : RefreshRunStats) :
    prog refresh_call RefreshRunStats :=
  let* locked := mongo (MFindOneAndUpdate ACCOUNTS (lock_query id now) (lock_update now) false true) in
  match locked with
  | None => Ret (with_skipped stats)
  | Some locked =>
      let stats := with_attempted stats in
      let* outcome := attempt (let* '(token, account_id) := of_result (stored_refresh_token locked) in
                               _call_meli_refresh token account_id) in
      match outcome with
      | Ok new_tokens => do* renew locked new_tokens now in Ret (with_succeeded stats)
      | Err e =>
          if isinstance e "InvalidGrantError" then
            do* set_account (doc_get locked "_id") (revoke_update now) in
            let* seller := of_result (let! s := doc_at locked "seller_id" in py_int s) in
            let* user := of_result (doc_at locked "platform_user_id") in
            do* emit_accounts_revoked seller user now publisher in
            Ret (with_revoked stats)
          else if refresh_caught e then
            do* set_account (doc_get locked "_id") (failure_update e now) in
            Ret (with_failed stats)
          else Raise e
      end
  end.

Fixpoint refresh_accounts (now : Z) (publisher : bool) (ids : list string) (stats : RefreshRunStats) :
    prog refresh_call RefreshRunStats :=
  match ids with
  | [] => Ret stats
  | id :: ids =>
      let* stats := refresh_account now publisher id stats in
      refresh_accounts now publisher ids stats
  end.

(** [publisher]: a lifecycle publisher is configured. *)
Definition refresh_pass (now : Z) (publisher : bool) : prog refresh_call RefreshRunStats :=
  let* candidates := mongo (MFind ACCOUNTS (refresh_query now) []) in
  refresh_accounts now publisher (omap doc_id candidates) no_stats.
Definition refresh_once (publisher : bool) : prog refresh_call RefreshRunStats :=
  let* now := now_utc in refresh_pass now publisher.
End Refresh.

(** ** The services *)

Section Spec.
Context `{VaultLaws}.
(** The endpoint and the publisher answer anything; cached keys may expire. *)
#[export] Instance refresh_spec : ExtSpec refresh_call dek_cache := fun X c =>
  match c in refresh_call X return dek_cache -> dek_cache -> result X -> Prop with
  | RVault v => ext_spec _ v
  | TokenPost _ => fun s s' r => s' ⊆ s /\ match r with Ok _ => True | Err e => isinstance e "HTTPError" = true end
  | PublishEvent _ _ _ => fun s s' r => s' ⊆ s
  end.
End Spec.
