(* ===== verification/RefreshProofs.v ===== *)
(** A pass of the refresh worker decides every due account, keeps the tokens of
    the others, and never leaves a document whose tokens cannot be read. *)

From S2P Require Export Refresh.

#[local] Open Scope Z_scope.

Section Proofs.
Context `{PyRepr} `{VaultLaws} `{MongoConf}.
Implicit Types w : world dek_cache.
Variable key_name : string.
#[local] Instance refresh_vault : VaultIn rvault := {
  vault_cache := fun s : dek_cache => s; vault_in_spec := fun X c s s' r Hs => Hs;
}.

(** ** Accounts *)

Definition token_fields : list string :=
  ["access_token_ciphertext"; "access_token_dek_wrapped"; "refresh_token_ciphertext"; "refresh_token_dek_wrapped";
   "token_nonce"; "refresh_token_nonce"]%string.
Definition pass_fields : list string :=
  token_fields ++ ["kms_key_version"; "expires_at"; "status"; "last_error"; "lock_held_until"; "last_refresh_at";
                   "last_refreshed_at"; "updated_at"]%string.

(** The stored tokens of a seller, each readable under its account. *)
Definition tokens_sealed (d : doc) : Prop := exists seller (access refresh : EncryptedToken) a r,
  d !! "seller_id"%string = Some (VInt seller) /\
  d !! "access_token_ciphertext"%string = Some (VStr (ciphertext access)) /\
  d !! "access_token_dek_wrapped"%string = Some (VStr (dek_wrapped access)) /\
  d !! "token_nonce"%string = Some (VStr (nonce access)) /\
  d !! "refresh_token_ciphertext"%string = Some (VStr (ciphertext refresh)) /\
  d !! "refresh_token_dek_wrapped"%string = Some (VStr (dek_wrapped refresh)) /\
  d !! "refresh_token_nonce"%string = Some (VStr (nonce refresh)) /\
  sealed access (str_of_Z seller) a /\ sealed refresh (str_of_Z seller) r.

(** Fields a pass never writes. *)
Definition account_frame (d d' : doc) : Prop := forall k, ~ In k pass_fields -> d' !! k = d !! k.

(** The lock is released and the account is renewed, revoked, in error, or
    pending for a later pass. *)
Definition decided (now : Z) (d : doc) : Prop :=
  d !! "lock_held_until"%string = Some VNone /\
  (In (d !! "status"%string) [Some (VStr "revoked"); Some (VStr "error"); Some (VStr "refresh_pending")]%string \/
   d !! "status"%string = Some (VStr "active") /\
   exists n, d !! "expires_at"%string = Some (bson_encode (VDate true (now + n * second)))).

Definition due (id : string) (now : Z) (d : doc) : bool := matches 0 (lock_query id now) d.
Lemma due_any id now t d : matches t (lock_query id now) d = due id now d.
Proof using Type. reflexivity. Qed.

Lemma sealed_kept d d' :
  (forall k, In k ("seller_id"%string :: token_fields) -> d' !! k = d !! k) -> tokens_sealed d -> tokens_sealed d'.
Proof using Type.
  intros Hk (seller & a & r & ta & tr & Hseller & Hac & Had & Han & Hrc & Hrd & Hrn & Ha & Hr).
  exists seller, a, r, ta, tr. repeat split; try done; (rewrite Hk; [done|simpl; tauto]).
Qed.

(** Reading a document after a chain of assignments. *)
Ltac lookups := repeat first [rewrite lookup_insert_eq | rewrite lookup_insert_ne by done].
Ltac frame_field k Hk :=
  repeat rewrite lookup_insert_ne by (intros <-; apply Hk; unfold pass_fields, token_fields; simpl; tauto).
Ltac sealed_field := apply sealed_kept; intros k Hk; simpl in Hk;
  repeat match goal with H : _ \/ _ |- _ => destruct H as [<-|H] end; try done; by lookups.

(** What each update of the pass leaves. *)
Lemma lock_keeps t now d d' : apply_update t false (lock_update now) d = Some d' ->
  account_frame d d' /\ (tokens_sealed d -> tokens_sealed d').
Proof using Type.
  cbn [apply_update lock_update apply_upds apply_upd path_alter]. intros [= <-]. split; [|sealed_field].
  intros k Hk. by frame_field k Hk.
Qed.
Lemma revoke_keeps t now d d' : apply_update t false (revoke_update now) d = Some d' ->
  account_frame d d' /\ (tokens_sealed d -> tokens_sealed d') /\ decided now d'.
Proof using Type.
  cbn [apply_update revoke_update apply_upds apply_upd path_alter]. intros [= <-]. split; [|split; [sealed_field|]].
  - intros k Hk. by frame_field k Hk.
  - split; [by lookups|]. left. lookups. simpl. auto.
Qed.
Lemma failure_keeps t now e d d' : apply_update t false (failure_update e now) d = Some d' ->
  account_frame d d' /\ (tokens_sealed d -> tokens_sealed d') /\ decided now d'.
Proof using Type.
  cbn [apply_update failure_update apply_upds apply_upd path_alter]. intros [= <-]. split; [|split; [sealed_field|]].
  - intros k Hk. by frame_field k Hk.
  - split; [by lookups|]. left. lookups. simpl. destruct (refresh_retryable e); auto.
Qed.
Lemma renewal_keeps t now n seller access refresh a r d d' :
  d !! "seller_id"%string = Some (VInt seller) -> sealed access (str_of_Z seller) a -> sealed refresh (str_of_Z seller) r ->
  apply_update t false (renewal_update access refresh (now + n * second) now) d = Some d' ->
  account_frame d d' /\ tokens_sealed d' /\ decided now d'.
Proof using Type.
  intros Hs Ha Hr. cbn [apply_update renewal_update apply_upds apply_upd path_alter]. intros [= <-]. split; [|split].
  - intros k Hk. by frame_field k Hk.
  - exists seller, access, refresh, a, r. repeat split; try done; by lookups.
  - split; [by lookups|]. right. lookups. split; [done|]. exists n. by lookups.
Qed.

(** ** Calls on one account, nobody else writing *)

Abbreviation slot id := (ACCOUNTS, id).

Lemma wp_set_account us (Q : world dek_cache -> result unit -> Prop) w id d :
  db_wf (w_db w) -> w_db w !! slot id = Some d ->
  (forall t d' w', apply_update t false (UOps us) d = Some d' -> w_db w' = <[slot id := d']> (w_db w) -> db_wf (w_db w') ->
     w_ext w' = w_ext w -> Q w' (Ok tt) /\ forall e, Q w' (Err e)) ->
  (forall w' e, w_db w' = w_db w -> w_ext w' = w_ext w -> Q w' (Err e)) ->
  wp (set_account (VStr id) (UOps us)) Q w.
Proof using Type.
  intros Hwf Hd Hyes Herr.
  assert (Hcall : forall w' r, mongo_ok (w_now w') (MUpdateOne ACCOUNTS (FEq ["_id"%string] (VStr id)) (UOps us) false) (w_db w) (w_db w') r ->
    w_ext w' = w_ext w -> (match r with Ok x => Q w' (Ok tt) | Err e => Q w' (Err e) end) /\ Q w' auto_reconnect).
  { intros w' r Hm He. pose proof (mongo_ok_wf _ _ _ _ _ Hwf Hm) as Hwf'.
    apply mongo_ok_update_one with (i := id) in Hm; [|done|apply keyed_id]. rewrite at_id_eq, Hd in Hm by done.
    unfold updates, stores in Hm. destruct (apply_update _ _ _ _) as [d'|] eqn:Ha; [|destruct Hm as [Hdb ->]; split; by apply Herr].
    destruct (decide _); [|destruct Hm as [Hdb ->]; split; by apply Herr].
    destruct (unique_ok _ _ _ _); destruct Hm as [Hdb ->]; [|split; by apply Herr].
    destruct (Hyes _ _ _ Ha Hdb Hwf' He) as [H1' H2']. split; [exact H1'|apply H2']. }
  unfold set_account. apply wp_mongo.
  - intros w' r Hm Hs. destruct (Hcall w' r Hm) as [Hr _]; [apply Hs|]. by destruct r.
  - intros w' Hs [Hdb|[r Hm]]; [apply Herr; [done|apply Hs]|]. destruct (Hcall w' r Hm) as [_ Hr]; [apply Hs|done].
Qed.

(** A pass at work: the documents and the cache are in order. *)
Definition in_order w : Prop :=
  db_wf (w_db w) /\ cache_sound (w_cache rvault w) /\
  forall i d, w_db w !! slot i = Some d -> tokens_sealed d.

(** The refresh call of a locked account touches no document. *)
Lemma wp_stored_refresh w d (Q : world dek_cache -> result val -> Prop) :
  cache_sound (w_cache rvault w) -> tokens_sealed d ->
  (forall w' r, cache_sound (w_cache rvault w') -> w_db w' = w_db w -> Q w' r) ->
  wp (let* '(token, account_id) := of_result (stored_refresh_token (dec d)) in _call_meli_refresh token account_id) Q w.
Proof using Type.
  intros Hc (seller & a & r & ta & tr & Hseller & Hac & Had & Han & Hrc & Hrd & Hrn & Ha & Hr) HQ.
  assert (Hat : forall k v, d !! k = Some v -> doc_at (dec d) k = Ok (bson_decode tz_aware v)).
  { intros k v Hk. unfold doc_at, dec, decode_doc. by rewrite lookup_fmap, Hk. }
  apply wp_bind, wp_of_result. unfold stored_refresh_token.
  rewrite (Hat _ _ Hrc), (Hat _ _ Hrd), (Hat _ _ Hrn), (Hat _ _ Hseller). cbn [result_bind bson_decode as_text py_str].
  destruct (doc_at (dec d) "kms_key_version") as [version|e]; [|by apply HQ]. cbn [result_bind as_text py_str].
  unfold _call_meli_refresh. apply wp_bind. eapply wp_decrypt with (p := tr); [done| | |].
  - destruct Hr as (dek & Hd & Hct). by exists dek.
  - intros w1 Hc1 Hdb1. apply wp_bind, wp_perform. intros w2 x [[Hs2 _] (Hdb2 & _)].
    assert (Hc2 : cache_sound (w_cache rvault w2)) by (by eapply sound_shrinks).
    assert (Hdb : w_db w2 = w_db w) by congruence.
    destruct x as [x|e]; [|by apply HQ]. destruct (400 <=? tr_status x); [destruct (_ && _)|destruct (tr_json x)]; cbn [wp]; by apply HQ.
  - intros w1 e Hc1 Hdb1 _. by apply HQ.
Qed.

(** Storing renewed tokens. *)
Lemma wp_renew w id d v now (Q : world dek_cache -> result unit -> Prop) :
  db_wf (w_db w) -> cache_sound (w_cache rvault w) -> tokens_sealed d -> w_db w !! slot id = Some d ->
  (forall w' d', db_wf (w_db w') -> cache_sound (w_cache rvault w') -> w_db w' = <[slot id := d']> (w_db w) ->
     account_frame d d' -> tokens_sealed d' -> decided now d' -> Q w' (Ok tt) /\ forall e, Q w' (Err e)) ->
  (forall w' e, db_wf (w_db w') -> cache_sound (w_cache rvault w') -> w_db w' = w_db w -> Q w' (Err e)) ->
  wp (renew key_name (dec d) v now) Q w.
Proof using Type.
  intros Hwf Hc Hseal Hd Hyes Herr. pose proof Hseal as (seller & _ & _ & _ & _ & Hseller & _).
  assert (Hid : doc_get (dec d) "_id" = VStr id).
  { specialize (Hwf _ _ _ Hd). unfold doc_id in Hwf. rewrite doc_get_dec. unfold doc_get.
    destruct (d !! "_id"%string) as [[]|]; try done. by injection Hwf as ->. }
  unfold renew. rewrite Hid. apply wp_bind, wp_of_result. destruct (item v "access_token") as [av|e]; [|by apply Herr].
  apply wp_bind, wp_of_result. unfold doc_at, dec, decode_doc. rewrite lookup_fmap, Hseller. cbn [fmap option_fmap option_map bson_decode].
  apply wp_bind, wp_of_result. destruct (as_text av) as [at_|e]; [|by apply Herr].
  cbn [py_str]. apply wp_bind. eapply wp_encrypt; [done| |intros w1 e Hc1 Hdb1 _; apply Herr; [by rewrite Hdb1|done|done]].
  intros w1 access Hc1 Hdb1 Hsa _. apply wp_bind, wp_of_result.
  destruct (item v "refresh_token") as [rv|e]; [|by apply Herr; [rewrite Hdb1|..]].
  apply wp_bind, wp_of_result. destruct (as_text rv) as [rt|e]; [|by apply Herr; [rewrite Hdb1|..]].
  apply wp_bind. eapply wp_encrypt; [done| |intros w2 e Hc2 Hdb2 _; apply Herr; [by rewrite Hdb2, Hdb1|done|congruence]].
  intros w2 refresh Hc2 Hdb2 Hsr _. apply wp_bind, wp_of_result.
  destruct (item v "expires_in") as [ev|e]; [|apply Herr; [by rewrite Hdb2, Hdb1|done|congruence]].
  apply wp_bind, wp_of_result. destruct (py_int ev) as [n|e]; [|apply Herr; [by rewrite Hdb2, Hdb1|done|congruence]].
  assert (Hdb : w_db w2 = w_db w) by congruence.
  eapply wp_set_account; [by rewrite Hdb|rewrite Hdb; exact Hd| |].
  - intros t d' w3 Ha Hdb3 Hwf3 He3. destruct (renewal_keeps t now n seller access refresh at_ rt d d' Hseller Hsa Hsr Ha) as (Hf & Hs & Hdec).
    rewrite Hdb in Hdb3. apply (Hyes w3 d'); try done. unfold w_cache. by rewrite He3.
  - intros w3 e Hdb3 He3. apply Herr; [by rewrite Hdb3, Hdb|unfold w_cache; by rewrite He3|congruence].
Qed.

(** ** One candidate *)

(** What a visit leaves of the store: only the candidate's account may move,
    when it was due, and it is decided when the visit returns. *)
Definition visit (now : Z) (id : string) (returned : bool) (db db' : database) : Prop :=
  (forall k, k <> slot id -> db' !! k = db !! k) /\
  match db !! slot id with
  | None => db' !! slot id = None
  | Some d => exists d', db' !! slot id = Some d' /\ account_frame d d' /\
      (if due id now d then returned = true -> decided now d' else d' = d)
  end.

(** One more candidate, skipped or attempted with one outcome. *)
Definition counted (s s' : RefreshRunStats) : Prop :=
  attempted s' + skipped s' = attempted s + skipped s + 1 /\
  attempted s' - succeeded s' - failed s' - revoked s' = attempted s - succeeded s - failed s - revoked s.

Lemma visit_same now id b db : match db !! slot id with Some d => due id now d = false | None => True end -> visit now id b db db.
Proof using Type.
  intros Hd. split; [done|]. destruct (db !! slot id) as [d|]; [|done]. exists d. rewrite Hd. done.
Qed.
Lemma visit_moves now id b db d d' : db !! slot id = Some d -> account_frame d d' -> due id now d = true ->
  (b = true -> decided now d') -> visit now id b db (<[slot id := d']> db).
Proof using Type.
  intros Hd Hf Hdue Hdec. split; [intros k Hk; by rewrite lookup_insert_ne|]. rewrite Hd, Hdue.
  exists d'. by rewrite lookup_insert_eq.
Qed.

Lemma in_order_moves w w' id d' : in_order w -> db_wf (w_db w') -> cache_sound (w_cache rvault w') ->
  w_db w' = <[slot id := d']> (w_db w) -> tokens_sealed d' -> in_order w'.
Proof using Type.
  intros (_ & _ & Hs) Hwf Hc Hdb Hd. split; [done|]. split; [done|]. intros i d. rewrite Hdb.
  destruct (decide (i = id)) as [->|Hne]; [rewrite lookup_insert_eq; congruence|rewrite lookup_insert_ne by congruence; apply Hs].
Qed.
Lemma in_order_same w w' : in_order w -> w_db w' = w_db w -> cache_sound (w_cache rvault w') -> in_order w'.
Proof using Type. intros (Hwf & _ & Hs) Hdb Hc. unfold in_order. by rewrite Hdb. Qed.

(** The outcome of a visit that started in [w]. *)
Definition visited (now : Z) (id : string) (stats : RefreshRunStats) w w' (r : result RefreshRunStats) : Prop :=
  in_order w' /\ visit now id (match r with Ok _ => true | Err _ => false end) (w_db w) (w_db w') /\
  match r with Ok stats' => counted stats stats' | Err _ => True end.

(** The candidate's account, locked by this pass as [d1]. *)
Definition held (now : Z) (id : string) w w1 (d1 : doc) : Prop := exists d,
  w_db w !! slot id = Some d /\ due id now d = true /\ account_frame d d1 /\ tokens_sealed d1 /\
  in_order w1 /\ w_db w1 = <[slot id := d1]> (w_db w).

Lemma held_slot now id w w1 d1 : held now id w w1 d1 -> w_db w1 !! slot id = Some d1.
Proof using Type. intros (d & _ & _ & _ & _ & _ & ->). by rewrite lookup_insert_eq. Qed.
Lemma held_id now id w w1 d1 : held now id w w1 d1 -> doc_get (dec d1) "_id" = VStr id.
Proof using Type.
  intros Hh. pose proof (held_slot _ _ _ _ _ Hh) as Hd. destruct Hh as (d & _ & _ & _ & _ & (Hwf & _) & _).
  specialize (Hwf _ _ _ Hd). unfold doc_id in Hwf. rewrite doc_get_dec. unfold doc_get.
  destruct (d1 !! "_id"%string) as [[]|]; try done. by injection Hwf as ->.
Qed.
Lemma held_later now id w w1 w2 d1 :
  held now id w w1 d1 -> w_db w2 = w_db w1 -> cache_sound (w_cache rvault w2) -> held now id w w2 d1.
Proof using Type.
  intros (d & Hd & Hdue & Hf & Hs & Ho & Hdb) Hdb2 Hc2. exists d. repeat split; try done; try congruence.
  - rewrite Hdb2. apply Ho.
  - rewrite Hdb2. apply Ho.
Qed.
Lemma held_stop now id stats w w1 d1 e : held now id w w1 d1 -> visited now id stats w w1 (Err e).
Proof using Type. intros (d & Hd & Hdue & Hf & _ & Ho & Hdb). split; [done|]. split; [rewrite Hdb; by eapply visit_moves|done]. Qed.
Lemma held_decided now id stats w w1 w2 d1 d2 : held now id w w1 d1 ->
  w_db w2 = <[slot id := d2]> (w_db w1) -> db_wf (w_db w2) -> cache_sound (w_cache rvault w2) ->
  account_frame d1 d2 -> tokens_sealed d2 -> decided now d2 ->
  (forall stats', counted stats stats' -> visited now id stats w w2 (Ok stats')) /\ (forall e, visited now id stats w w2 (Err e)).
Proof using Type.
  intros (d & Hd & Hdue & Hf & _ & Ho & Hdb) Hdb2 Hwf Hc Hf2 Hs2 Hdec.
  assert (Ho2 : in_order w2) by (by eapply in_order_moves).
  assert (Hv : forall b, visit now id b (w_db w) (w_db w2)).
  { intros b. rewrite Hdb2, Hdb, insert_insert_eq. eapply visit_moves; try done. intros k Hk. by rewrite Hf2, Hf. }
  split; [intros stats' Hcnt|intros e]; (split; [done|]; split; [apply Hv|done]).
Qed.

(** Taking the lock. *)
Lemma wp_lock now id stats w (k : option doc -> prog refresh_call RefreshRunStats) : in_order w ->
  (forall w1, in_order w1 -> w_db w1 = w_db w -> visit now id true (w_db w) (w_db w1) ->
     wp (k None) (visited now id stats w) w1) ->
  (forall w1 d1, held now id w w1 d1 -> wp (k (Some (dec d1))) (visited now id stats w) w1) ->
  wp (bind (mongo (MFindOneAndUpdate ACCOUNTS (lock_query id now) (lock_update now) false true)) k) (visited now id stats w) w.
Proof using Type.
  intros Hord Hnone Hsome. pose proof Hord as (Hwf & Hc & Hall).
  assert (Hsame : forall w1 e, w_db w1 = w_db w -> w_ext w1 = w_ext w -> visited now id stats w w1 (Err e)).
  { intros w1 e Hdb He. split; [eapply in_order_same; [done..|]; unfold w_cache; by rewrite He|]. rewrite Hdb. split; [|done].
    split; [done|]. destruct (w_db w !! slot id) as [d|]; [|done]. exists d. by destruct (due id now d). }
  assert (Hcall : forall w1 r, mongo_ok (w_now w1) (MFindOneAndUpdate ACCOUNTS (lock_query id now) (lock_update now) false true)
      (w_db w) (w_db w1) r -> w_ext w1 = w_ext w ->
      match r with Ok x => wp (k x) (visited now id stats w) w1 | Err e => visited now id stats w w1 (Err e) end /\
      visited now id stats w w1 auto_reconnect).
  { intros w1 r Hm He. pose proof (mongo_ok_wf _ _ _ _ _ Hwf Hm) as Hwf1.
    apply mongo_ok_find_one_and_update with (i := id) in Hm; [|done|apply keyed_and]. unfold at_id in Hm.
    assert (Hskip : w_db w1 = w_db w -> match w_db w !! slot id with Some d => due id now d = false | None => True end ->
      wp (k None) (visited now id stats w) w1).
    { intros Hdb Hnd. apply Hnone; [|done|rewrite Hdb; by apply visit_same].
      eapply in_order_same; [done..|]. unfold w_cache. by rewrite He. }
    destruct (w_db w !! slot id) as [d|] eqn:Hd; [|destruct Hm as [Hdb ->]; split; [by apply Hskip|by apply Hsame]].
    rewrite due_any in Hm. destruct (due id now d) eqn:Hdue; [|destruct Hm as [Hdb ->]; split; [by apply Hskip|by apply Hsame]].
    unfold updates, stores in Hm. destruct (apply_update _ _ _ _) as [d1|] eqn:Ha; [|destruct Hm as [Hdb ->]; split; by apply Hsame].
    destruct (decide _); [|destruct Hm as [Hdb ->]; split; by apply Hsame].
    destruct (unique_ok _ _ _ _); destruct Hm as [Hdb ->]; [|split; by apply Hsame].
    destruct (lock_keeps _ _ _ _ Ha) as [Hf Hk]. specialize (Hk (Hall _ _ Hd)).
    assert (Hheld : held now id w w1 d1).
    { exists d. repeat split; try done; eapply in_order_moves; try done; unfold w_cache; by rewrite He. }
    split; [by apply Hsome|by eapply held_stop]. }
  apply wp_mongo.
  - intros w1 r Hm Hs. apply Hcall; [done|apply Hs].
  - intros w1 Hs [Hdb|[r Hm]]; [apply Hsame; [done|apply Hs]|]. apply (Hcall w1 r Hm). apply Hs.
Qed.

(** The three outcomes of the call. *)
Lemma wp_renewed now id stats w w1 d1 v : held now id w w1 d1 ->
  wp (do* renew key_name (dec d1) v now in Ret (with_succeeded (with_attempted stats))) (visited now id stats w) w1.
Proof using Type.
  intros Hh. pose proof (held_slot _ _ _ _ _ Hh) as Hd1. pose proof Hh as (_ & _ & _ & _ & Hseal & (Hwf1 & Hc1 & _) & _).
  apply wp_bind. eapply wp_renew; [done|done|exact Hseal|exact Hd1| |].
  - intros w2 d2 Hwf2 Hc2 Hdb2 Hf2 Hs2 Hdec2.
    destruct (held_decided _ _ stats _ _ _ _ _ Hh Hdb2 Hwf2 Hc2 Hf2 Hs2 Hdec2) as [Hok Herr].
    split; [|apply Herr]. apply Hok. unfold counted, with_succeeded, with_attempted. simpl. lia.
  - intros w2 e Hwf2 Hc2 Hdb2. eapply held_stop, held_later; eauto.
Qed.
Lemma wp_revoked now pub id stats w w1 d1 : held now id w w1 d1 ->
  wp (do* set_account (VStr id) (revoke_update now) in
      let* seller := of_result (let! s := doc_at (dec d1) "seller_id" in py_int s) in
      let* user := of_result (doc_at (dec d1) "platform_user_id") in
      do* emit_accounts_revoked seller user now pub in Ret (with_revoked (with_attempted stats))) (visited now id stats w) w1.
Proof using Type.
  intros Hh. pose proof (held_slot _ _ _ _ _ Hh) as Hd1. pose proof Hh as (_ & _ & _ & _ & Hseal & (Hwf1 & Hc1 & _) & _).
  assert (Hkeep : forall w2, w_ext w2 = w_ext w1 -> cache_sound (w_cache rvault w2)) by (intros w2 He; unfold w_cache; by rewrite He).
  apply wp_bind. eapply wp_set_account; [exact Hwf1|exact Hd1| |intros w2 e Hdb2 He2; eapply held_stop, held_later; eauto].
  intros t d2 w2 Ha Hdb2 Hwf2 He2. destruct (revoke_keeps _ _ _ _ Ha) as (Hf2 & Hk2 & Hdec2).
  destruct (held_decided _ _ stats _ _ _ _ _ Hh Hdb2 Hwf2 (Hkeep _ He2) Hf2 (Hk2 Hseal) Hdec2) as [Hok Herr].
  split; [|apply Herr]. apply wp_bind, wp_of_result. destruct (result_bind _ _) as [seller|e]; [|apply Herr].
  apply wp_bind, wp_of_result. destruct (doc_at _ _) as [user|e]; [|apply Herr].
  assert (Hcnt : counted stats (with_revoked (with_attempted stats))) by (unfold counted, with_revoked, with_attempted; simpl; lia).
  unfold emit_accounts_revoked. destruct pub; [|by apply Hok]. apply wp_bind, wp_perform. intros w3 x [Hs3 (Hdb3 & _)].
  assert (Hc3 : cache_sound (w_cache rvault w3)) by (eapply sound_shrinks; [exact Hs3|exact (Hkeep _ He2)]).
  rewrite <- Hdb3 in Hdb2, Hwf2. destruct (held_decided _ _ stats _ _ _ _ _ Hh Hdb2 Hwf2 Hc3 Hf2 (Hk2 Hseal) Hdec2) as [Hok3 Herr3].
  destruct x as [[]|e]; [by apply Hok3|apply Herr3].
Qed.
Lemma wp_failed now e id stats w w1 d1 : held now id w w1 d1 ->
  wp (do* set_account (VStr id) (failure_update e now) in Ret (with_failed (with_attempted stats))) (visited now id stats w) w1.
Proof using Type.
  intros Hh. pose proof (held_slot _ _ _ _ _ Hh) as Hd1. pose proof Hh as (_ & _ & _ & _ & Hseal & (Hwf1 & Hc1 & _) & _).
  assert (Hkeep : forall w2, w_ext w2 = w_ext w1 -> cache_sound (w_cache rvault w2)) by (intros w2 He; unfold w_cache; by rewrite He).
  apply wp_bind. eapply wp_set_account; [exact Hwf1|exact Hd1| |intros w2 e' Hdb2 He2; eapply held_stop, held_later; eauto].
  intros t d2 w2 Ha Hdb2 Hwf2 He2. destruct (failure_keeps _ _ _ _ _ Ha) as (Hf2 & Hk2 & Hdec2).
  destruct (held_decided _ _ stats _ _ _ _ _ Hh Hdb2 Hwf2 (Hkeep _ He2) Hf2 (Hk2 Hseal) Hdec2) as [Hok Herr].
  split; [|apply Herr]. apply Hok. unfold counted, with_failed, with_attempted. simpl. lia.
Qed.

Lemma wp_refresh_account now pub id stats w : in_order w ->
  wp (refresh_account key_name now pub id stats) (visited now id stats w) w.
Proof using Type.
  intros Hord. unfold refresh_account. apply wp_lock; [done| |].
  - intros w1 Ho Hdb Hv. cbn [wp]. split; [done|]. split; [done|]. unfold counted, with_skipped. simpl. lia.
  - intros w1 d1 Hh. pose proof Hh as (_ & _ & _ & _ & Hseal & (_ & Hc1 & _) & _).
    apply wp_bind, wp_attempt. eapply wp_stored_refresh; [done|done|]. intros w2 outcome Hc2 Hdb2.
    pose proof (held_later _ _ _ _ _ _ Hh Hdb2 Hc2) as Hh2. rewrite (held_id _ _ _ _ _ Hh2).
    destruct outcome as [v|e]; [by apply wp_renewed|]. destruct (isinstance e "InvalidGrantError"); [by apply wp_revoked|].
    destruct (refresh_caught e); [by eapply wp_failed|by eapply held_stop].
Qed.

(** ** The pass *)

(** What a pass leaves of each account that was there: candidates that were due
    are decided, the others untouched; [ids] are the candidates. *)
Definition passed_over (now : Z) (ids : list string) (returned : bool) (db db' : database) : Prop :=
  (forall c i, c <> ACCOUNTS -> db' !! (c, i) = db !! (c, i)) /\
  (forall i, ~ In i ids -> db' !! slot i = db !! slot i) /\
  (forall i d, db !! slot i = Some d -> exists d', db' !! slot i = Some d' /\ account_frame d d' /\
     (due i now d = false -> d' = d) /\ (In i ids -> due i now d = true -> returned = true -> decided now d')).

Lemma passed_nil now b db : passed_over now [] b db db.
Proof using Type. repeat split; try done. intros i d Hd. exists d. done. Qed.

(** A visit, then the rest of the pass. *)
Lemma passed_cons now id ids b db db1 db' :
  visit now id true db db1 -> passed_over now ids b db1 db' -> passed_over now (id :: ids) b db db'.
Proof using Type.
  intros [Hother Hslot] (Hc & Hn & Hp). split; [|split].
  - intros c i Hne. rewrite Hc by done. apply Hother. congruence.
  - intros i Hi. rewrite Hn by (intros Hin; apply Hi; by right). apply Hother. intros [= ->]. apply Hi. by left.
  - intros i d Hd. destruct (decide (i = id)) as [->|Hne].
    + rewrite Hd in Hslot. destruct Hslot as (d1 & Hd1 & Hf1 & Hdec1). destruct (Hp _ _ Hd1) as (d' & Hd' & Hf' & Hsame & Hdec').
      exists d'. split; [done|]. split; [intros k Hk; by rewrite Hf', Hf1|]. destruct (due id now d) eqn:Hdue.
      * split; [done|]. intros _ _ Hb. destruct (due id now d1) eqn:Hdue1.
        -- destruct (in_dec string_dec id ids) as [Hin|Hout]; [by apply Hdec'|].
           rewrite (Hn id Hout), Hd1 in Hd'. injection Hd' as <-. by apply Hdec1.
        -- rewrite (Hsame eq_refl). by apply Hdec1.
      * subst d1. split; [intros _; by apply Hsame|]. intros _ [=].
    + assert (Hd1 : db1 !! slot i = Some d) by (rewrite <- Hd; apply Hother; congruence).
      destruct (Hp _ _ Hd1) as (d' & Hd' & Hf' & Hsame & Hdec').
      exists d'. split; [done|]. split; [done|]. split; [done|]. intros [Heq|Hin]; [congruence|by apply Hdec'].
Qed.
Lemma passed_stop now id ids db db1 : visit now id false db db1 -> passed_over now (id :: ids) false db db1.
Proof using Type.
  intros [Hother Hslot]. split; [|split].
  - intros c i Hne. apply Hother. congruence.
  - intros i Hi. apply Hother. intros [= ->]. apply Hi. by left.
  - intros i d Hd. destruct (decide (i = id)) as [->|Hne].
    + rewrite Hd in Hslot. destruct Hslot as (d1 & Hd1 & Hf1 & Hdec1). exists d1. split; [done|]. split; [done|]. split; [|done].
      intros Hdue. by rewrite Hdue in Hdec1.
    + exists d. rewrite Hother by congruence. done.
Qed.

(** The counters of a pass over [n] candidates. *)
Definition totals (n : Z) (s : RefreshRunStats) : Prop :=
  attempted s + skipped s = n /\ attempted s = succeeded s + failed s + revoked s.

Lemma wp_refresh_accounts now pub ids stats n w : in_order w -> totals n stats ->
  wp (refresh_accounts key_name now pub ids stats)
    (fun w' r => in_order w' /\ passed_over now ids (match r with Ok _ => true | Err _ => false end) (w_db w) (w_db w') /\
       match r with Ok s => totals (n + Z.of_nat (length ids)) s | Err _ => True end) w.
Proof using Type.
  revert stats n w. induction ids as [|id ids IH]; intros stats n w Ho Ht.
  { cbn [refresh_accounts wp length]. split; [done|]. split; [apply passed_nil|]. rewrite Z.add_0_r. exact Ht. }
  cbn [refresh_accounts]. apply wp_bind. eapply wp_mono; [by apply wp_refresh_account|].
  intros w1 [s1|e] (Ho1 & Hv & Hc); [|split; [done|]; split; [by apply passed_stop|done]].
  assert (Ht1 : totals (n + 1) s1) by (unfold totals, counted in *; lia).
  eapply wp_mono; [by apply IH|]. intros w2 r (Ho2 & Hp & Hr). split; [done|]. split; [by eapply passed_cons|].
  destruct r; [|done]. cbn [length]. by replace (n + Z.of_nat (S (length ids))) with (n + 1 + Z.of_nat (length ids)) by lia.
Qed.

(** The outcome of a whole pass that started in [w]. *)
Definition pass_outcome (now : Z) w w' (r : result RefreshRunStats) : Prop :=
  in_order w' /\
  (forall c i, c <> ACCOUNTS -> w_db w' !! (c, i) = w_db w !! (c, i)) /\
  (forall i d, w_db w !! slot i = Some d -> exists d', w_db w' !! slot i = Some d' /\ account_frame d d' /\
     (due i now d = false -> d' = d) /\
     match r with Ok _ => due i now d = true -> decided now d' | Err _ => True end) /\
  match r with
  | Ok s => attempted s = succeeded s + failed s + revoked s /\ exists ds t,
      (forall d, d ∈ ds <-> exists i, selected t (w_db w) ACCOUNTS (refresh_query now) i d) /\
      attempted s + skipped s = Z.of_nat (length (omap doc_id (dec <$> ds)))
  | Err _ => True
  end.

(** C26: a pass decides every account that is due.  When a pass returns, every
    account that its query selected and nobody had locked has its lock released
    and is renewed until some seconds after the pass began, revoked, in error or
    left pending; its other fields, every other account and every other
    collection are as they were, also when the pass raises; the tokens of every
    account stay readable under its seller; and the counters add up to the
    candidates. *)
Theorem pass_decides_due_accounts now pub w : in_order w -> wp (refresh_pass key_name now pub) (pass_outcome now w) w.
Proof using Type.
  intros Hord. pose proof Hord as (Hwf & Hc & Hall). unfold refresh_pass.
  assert (Hnone : forall w1 e, w_db w1 = w_db w -> w_ext w1 = w_ext w -> pass_outcome now w w1 (Err e)).
  { intros w1 e Hdb He. split; [eapply in_order_same; [done..|]; unfold w_cache; by rewrite He|]. rewrite Hdb.
    split; [done|]. split; [|done]. intros i d Hd. exists d. done. }
  apply wp_mongo.
  2: { intros w1 (_ & He & _) [Hdb|(r & Hdb & _)]; by apply Hnone. }
  intros w1 r [Hdb (ds & Hds & _ & ->)] (_ & He & _).
  assert (Ho1 : in_order w1) by (eapply in_order_same; [done..|]; unfold w_cache; by rewrite He).
  eapply wp_mono; [apply (wp_refresh_accounts now pub _ _ 0); [done|by unfold totals]|].
  intros w2 r (Ho2 & (Hp1 & Hp2 & Hp3) & Ht). rewrite Hdb in *. split; [done|]. split; [done|]. split.
  2: { destruct r as [s|e]; [|done]. destruct Ht as [Hn Hs]. split; [done|]. exists ds, (w_now w1). split; [done|]. rewrite Z.add_0_l in Hn. exact Hn. }
  intros i d Hd. destruct (Hp3 i d Hd) as (d' & Hd' & Hf & Hsame & Hdec). exists d'. split; [done|]. split; [done|]. split; [done|].
  destruct r as [s|e]; [|done]. intros Hdue. apply Hdec; [|done|done].
  assert (Hin : d ∈ ds).
  { apply Hds. exists i. split; [done|]. rewrite <- (due_any i now (w_now w1)) in Hdue. unfold lock_query in Hdue.
    cbn [matches forallb] in Hdue |- *. rewrite !andb_true_iff in Hdue. by destruct Hdue as (_ & Hq & _). }
  apply list_elem_of_In, list_elem_of_omap. exists (dec d). split; [by apply list_elem_of_fmap_2|].
  specialize (Hwf _ _ _ Hd). unfold doc_id, dec, decode_doc in *. rewrite lookup_fmap.
  destruct (d !! "_id"%string) as [[]|]; try done.
Qed.

(** ** The lock *)

Lemma rel_date_lt x y c : x <= y -> rel_test RLt (VDate true x) c = true -> rel_test RLt (VDate true y) c = true.
Proof using Type.
  intros Hxy. unfold rel_test, bson_cmp. destruct c; try done. simpl. destruct (Z.compare_spec us x), (Z.compare_spec us y); try done; lia.
Qed.
Lemma meets_imp (f g : val -> bool) c : (forall v, f v = true -> g v = true) -> meets f c = true -> meets g c = true.
Proof using Type.
  unfold meets. intros Hfg. rewrite !orb_true_iff. intros [Hf|Hf]; [left; auto|right]. destruct c; try done.
  rewrite existsb_exists in *. destruct Hf as (v & Hv & Hf). eauto.
Qed.

(** A lock taken late excludes nobody.  A pass locks an account until two
    minutes after the pass began, not after the lock was taken: once a pass has
    lasted that long, the account it has just locked is still selected, as due
    and unlocked, by a pass that begins then, and both refresh it. *)
Theorem late_lock_excludes_nobody id now now' t d d1 :
  due id now d = true -> apply_update t false (lock_update now) d = Some d1 -> now + 121 * second <= now' ->
  due id now' d1 = true.
Proof using Type.
  intros Hdue Ha Hlate. cbn [apply_update lock_update apply_upds apply_upd path_alter] in Ha. injection Ha as <-.
  assert (Hmono : forall a b, a <= b -> floor_ms a <= floor_ms b).
  { intros a b Hab. unfold floor_ms, millisecond. assert (a / 1000 <= b / 1000) by (apply Z.div_le_mono; lia). lia. }
  set (d1 := <[_ := _]> _). assert (Hget : forall k, k <> "status"%string -> k <> "lock_held_until"%string -> d1 !! k = d !! k)
    by (intros k Hs Hl; subst d1; by rewrite !lookup_insert_ne).
  assert (Hst : d1 !! "status"%string = Some (VStr "refresh_pending")) by (subst d1; by lookups).
  assert (Hlk : d1 !! "lock_held_until"%string = Some (VDate true (floor_ms (now + 120 * second)))) by (subst d1; by lookups).
  clearbody d1. unfold due, lock_query, refresh_query in *. cbn [matches forallb existsb] in *.
  rewrite !andb_true_iff in Hdue. destruct Hdue as (Hid & ((_ & Hexp & _) & _)).
  unfold match_eq in *. cbn [path_vals] in *. rewrite (Hget "_id"%string), (Hget "expires_at"%string), Hst, Hlk, Hid by done. rewrite !andb_true_r.
  apply andb_true_iff. split; [reflexivity|]. apply andb_true_iff. split.
  - apply andb_true_iff. split; [reflexivity|].
    apply existsb_exists in Hexp as (c & Hc & Hm). apply existsb_exists. exists c. split; [exact Hc|].
    eapply meets_imp; [|exact Hm]. intros v. apply rel_date_lt, Hmono. unfold second in Hlate. lia.
  - apply orb_true_iff. right. cbn [existsb]. rewrite !orb_false_r. unfold meets, rel_test, bson_cmp. simpl.
    assert (Hlt : floor_ms (now + 120 * second) < floor_ms now').
    { unfold floor_ms, second, millisecond in *. assert ((now + 120 * 1000000) / 1000 + 1 <= now' / 1000); [|lia].
      apply Z.div_le_lower_bound; [lia|]. pose proof (Z.mul_div_le (now + 120 * 1000000) 1000). lia. }
    destruct (Z.compare_spec (floor_ms (now + 120 * second)) (floor_ms now')); [lia|done|lia].
Qed.
End Proofs.

(** ** A run *)

Section Example.
#[local] Existing Instance toy_aead.
#[local] Existing Instance toy_laws.
#[local] Existing Instance toy_vault.
#[local] Instance aware : MongoConf := aware_conf.
#[local] Instance no_repr : PyRepr := fun _ => EmptyString.

(** A token endpoint that renews for six hours. *)
Definition renewed_body : val := VDict (mk_doc
  [("access_token", VStr "A2"); ("refresh_token", VStr "R2"); ("expires_in", VInt 21600)]%string).
#[local] Instance toy_refresh : ExtRun refresh_call dek_cache := {
  ext_run := fun X c => match c in refresh_call X return dek_cache -> dek_cache * result X with
    | RVault v => ext_run _ v
    | TokenPost t => fun s => (s, if String.eqb t "R1" then Ok {| tr_status := 200; tr_json := Some renewed_body |}
                                  else Ok {| tr_status := 400; tr_json := Some (VDict (mk_doc [("error", VStr "invalid_grant")]%string)) |})
    | PublishEvent _ _ _ => fun s => (s, Ok tt)
    end;
  uuid_run := fun _ => "0123456789abcdef0123456789abcdef"%string;
}.
Lemma toy_vault_sound X (v : vault_call X) s : ext_spec X v s (ext_run X v s).1 (ext_run X v s).2.
Proof.
  destruct v; cbn -[strip_prefix String.append]; (split; [done|]); try done.
  - destruct (strip_prefix "kms:" wrapped) as [d|] eqn:Hs; [exact (strip_prefix_Some _ _ _ Hs)|reflexivity].
  - exists (toy_random n). split; [done|apply toy_random_length].
Qed.
Lemma toy_refresh_sound X (c : refresh_call X) s : ext_spec X c s (ext_run X c s).1 (ext_run X c s).2.
Proof.
  destruct c; [apply toy_vault_sound| |cbn; done].
  cbn -[String.eqb]. destruct (String.eqb _ _); by split.
Qed.

Definition sealed_with (text : string) : EncryptedToken :=
  {| ciphertext := (toy_box "k0" "n0" "7" ++ text)%string; nonce := "n0"; dek_wrapped := "kms:k0"; kms_key_version := "1" |}.
Definition account (id : string) (refresh : string) (expires : Z) : doc :=
  mk_doc [("_id", VStr id); ("seller_id", VInt 7); ("status", VStr "active"); ("platform_user_id", VStr "u"); ("expires_at", VDate true expires);
    ("access_token_ciphertext", VStr (ciphertext (sealed_with "A1"))); ("access_token_dek_wrapped", VStr "kms:k0");
    ("token_nonce", VStr "n0"); ("refresh_token_ciphertext", VStr (ciphertext (sealed_with refresh)));
    ("refresh_token_dek_wrapped", VStr "kms:k0"); ("refresh_token_nonce", VStr "n0"); ("kms_key_version", VStr "1")]%string.
(** One account to renew, one whose grant is gone, one not due. *)
Definition pass_db : database := list_to_map
  [((ACCOUNTS, "a"), account "a" "R1" hour); ((ACCOUNTS, "b"), account "b" "R0" hour); ((ACCOUNTS, "c"), account "c" "R1" day)]%string.
Definition pass_world : world dek_cache := World pass_db hour None ∅.

Lemma account_sealed id refresh expires : tokens_sealed (account id refresh expires).
Proof.
  exists 7, (sealed_with "A1"), (sealed_with refresh), "A1"%string, refresh. unfold account, mk_doc.
  repeat (split; [reflexivity|]). split; (exists "k0"%string; split; reflexivity).
Qed.
Lemma pass_world_in_order : in_order pass_world.
Proof.
  split; [apply db_wfb_ok; by vm_compute|]. split.
  - intros k dek wr Hk. cbn in Hk. by rewrite lookup_empty in Hk.
  - intros i d. cbn [pass_world w_db]. unfold pass_db. cbn [list_to_map foldr uncurry fst snd].
    intros Hd. apply lookup_insert_Some in Hd as [[_ <-]|[_ Hd]]; [apply account_sealed|].
    apply lookup_insert_Some in Hd as [[_ <-]|[_ Hd]]; [apply account_sealed|].
    apply lookup_insert_Some in Hd as [[_ <-]|[_ Hd]]; [apply account_sealed|]. by rewrite lookup_empty in Hd.
Qed.

Lemma pass_decides_due_accounts_witness :
  (run (refresh_pass "key" hour true) pass_world).2 = Ok (RefreshStats 2 1 0 1 0) /\
  exists d', w_db (run (refresh_pass "key" hour true) pass_world).1 !! (ACCOUNTS, "a"%string) = Some d' /\ decided hour d' /\ tokens_sealed d'.
Proof.
  pose proof (wp_run toy_refresh_sound (fun _ => eq_refl) _ _ _ (pass_decides_due_accounts "key" hour true pass_world pass_world_in_order)) as Hw.
  assert (Hr : (run (refresh_pass "key" hour true) pass_world).2 = Ok (RefreshStats 2 1 0 1 0)) by (vm_compute; reflexivity).
  split; [exact Hr|]. rewrite Hr in Hw. destruct Hw as ((_ & _ & Hs) & _ & Hp & _).
  assert (Ha : w_db pass_world !! (ACCOUNTS, "a"%string) = Some (account "a" "R1" hour)) by (apply lookup_insert_eq).
  destruct (Hp _ _ Ha) as (d' & Hd' & _ & _ & Hdec). exists d'. split; [exact Hd'|].
  split; [apply Hdec; vm_compute; reflexivity|exact (Hs _ _ Hd')].
Defined.

Lemma late_lock_excludes_nobody_witness :
  exists d1, apply_update 0 false (lock_update hour) (account "a" "R1" hour) = Some d1 /\
    due "a" (hour + 3 * minute) d1 = true.
Proof.
  exists (default ∅ (apply_update 0 false (lock_update hour) (account "a" "R1" hour))). split; [reflexivity|].
  apply (late_lock_excludes_nobody "a" hour _ 0 (account "a" "R1" hour)); [vm_compute; reflexivity|reflexivity|].
  unfold minute, second, hour, minute, second. lia.
Defined.
End Example.
