(* ===== verification/RepricerEngine.v ===== *)
(** The repricer's decision engine: modules/repricer/.../engine.py, with the
    model fields it reads (core/.../models/operational.py). *)

From S2P Require Export PyDec.
From Stdlib Require Import QArith.

#[local] Open Scope Z_scope.

Inductive Decision :=
| SetPrice (new_price : dec) (reason : string)
| NoAction (reason : string) (candidate_price : option dec).

Record RepricerRule := {
  rr_id : string;
  rr_strategy : string;
  rr_min_price : dec;
  rr_max_price : dec;
  rr_active : bool;
}.

Record RepricerCatalogRule := {
  rc_id : string;
  rc_seller_id : string;
  rc_account_id : string;
  rc_strategy : string;
  rc_min_price : dec;
  rc_max_price : dec;
  rc_active : bool;
}.

Record RepricerLimits := {
  rl_enabled : bool;
  rl_min_price_limit : dec;
  rl_max_price_limit : dec;
  rl_undercut_delta : dec;
  rl_pause_competition : bool;
  rl_escalate_to_manual_review : bool;
}.

(** [RepricerAllies.allies], by account. *)
Abbreviation RepricerAllies := (list string).

Definition _reason (strategy : string) : string :=
  if String.eqb strategy "competitive" then "track_buybox"%string else strategy.

Definition _candidate_price (rule : RepricerRule) (current_price : dec) (buybox_price : option dec) :
    result (option dec) :=
  if String.eqb (rr_strategy rule) "min_price" then
    let! below := dec_lt current_price (rr_min_price rule) in
    Ok (Some (if below : bool then rr_min_price rule else current_price))
  else if String.eqb (rr_strategy rule) "maximize" then Ok (Some (rr_max_price rule))
  else Ok buybox_price.

Definition _catalog_candidate_price (rule : RepricerCatalogRule) (current_price : dec)
    (buybox_price : option dec) (limits : option RepricerLimits) : result (option dec) :=
  if String.eqb (rc_strategy rule) "min_price" then
    let! below := dec_lt current_price (rc_min_price rule) in
    Ok (Some (if below : bool then rc_min_price rule else current_price))
  else if String.eqb (rc_strategy rule) "maximize" then Ok (Some (rc_max_price rule))
  else
    match buybox_price with
    | None => Ok None
    | Some buybox_price =>
        match limits with
        | Some limits =>
            if rl_enabled limits then
              let! undercut := dec_sub buybox_price (rl_undercut_delta limits) in
              Ok (Some undercut)
            else Ok (Some buybox_price)
        | None => Ok (Some buybox_price)
        end
    end.

Definition _effective_floor (rule : RepricerCatalogRule) (limits : option RepricerLimits) : result dec :=
  match limits with
  | Some limits => if rl_enabled limits then dec_max (rc_min_price rule) (rl_min_price_limit limits)
                   else Ok (rc_min_price rule)
  | None => Ok (rc_min_price rule)
  end.

Definition _effective_ceiling (rule : RepricerCatalogRule) (limits : option RepricerLimits) : result dec :=
  match limits with
  | Some limits => if rl_enabled limits then dec_min (rc_max_price rule) (rl_max_price_limit limits)
                   else Ok (rc_max_price rule)
  | None => Ok (rc_max_price rule)
  end.

Definition _is_ally_competitor (allies : option RepricerAllies) (competitor_account_id : option string) : bool :=
  match allies, competitor_account_id with
  | Some allies, Some competitor => any (fun ally => String.eqb ally competitor) allies
  | _, _ => false
  end.

(** The guards both evaluators end with. *)
Definition decide_price (candidate floor ceiling current_price : dec) (strategy : string) : result Decision :=
  let! below := dec_lt candidate floor in
  if (below : bool) then Ok (NoAction "below_floor" (Some candidate))
  else
    let! bounded_candidate := dec_min candidate ceiling in
    if dec_eq bounded_candidate current_price
    then Ok (NoAction "already_optimal" (Some bounded_candidate))
    else Ok (SetPrice bounded_candidate (_reason strategy)).

Definition evaluate_rule (rule : RepricerRule) (current_price : dec) (buybox_price : option dec) :
    result Decision :=
  let! candidate := _candidate_price rule current_price buybox_price in
  match candidate with
  | None => Ok (NoAction "missing_buybox" None)
  | Some candidate =>
      decide_price candidate (rr_min_price rule) (rr_max_price rule) current_price (rr_strategy rule)
  end.

Definition evaluate_catalog_rule (rule : RepricerCatalogRule) (current_price : dec)
    (buybox_price : option dec) (limits : option RepricerLimits) (allies : option RepricerAllies)
    (competitor_account_id : option string) : result Decision :=
  if negb (rc_active rule) then Ok (NoAction "paused" None)
  else
    let enabled := match limits with Some l => rl_enabled l | None => false end in
    if enabled && match limits with Some l => rl_pause_competition l | None => false end
    then Ok (NoAction "competition_paused" None)
    else if enabled && match limits with Some l => rl_escalate_to_manual_review l | None => false end
    then Ok (NoAction "manual_review_required" None)
    else
      let! candidate := _catalog_candidate_price rule current_price buybox_price limits in
      match candidate with
      | None => Ok (NoAction "missing_buybox" None)
      | Some candidate =>
          if _is_ally_competitor allies competitor_account_id
          then Ok (NoAction "ally_competitor" (Some candidate))
          else
            let! floor := _effective_floor rule limits in
            let! ceiling := _effective_ceiling rule limits in
            decide_price candidate floor ceiling current_price (rc_strategy rule)
      end.

(** ** Bounds *)

Definition dec_qle (a b : dec) : Prop :=
  match dec_val a, dec_val b with Some x, Some y => (x <= y)%Q | _, _ => False end.
Definition dec_qlt (a b : dec) : Prop :=
  match dec_val a, dec_val b with Some x, Some y => (x < y)%Q | _, _ => False end.

Lemma dec_lt_fin a b r :
  is_finite a = true -> is_finite b = true -> dec_lt a b = Ok r -> if r then dec_qlt a b else dec_qle b a.
Proof. destruct a, b; try done. intros _ _ Hr. by apply dec_lt_q in Hr. Qed.

Lemma dec_min_cases a b r : dec_min a b = Ok r -> (r = a /\ dec_lt b a = Ok false) \/ (r = b /\ dec_lt b a = Ok true).
Proof. unfold dec_min. destruct (dec_lt b a) as [[]|]; simpl; intros [= <-]; auto. Qed.
Lemma dec_max_cases a b r : dec_max a b = Ok r -> (r = a /\ dec_lt a b = Ok false) \/ (r = b /\ dec_lt a b = Ok true).
Proof. unfold dec_max. destruct (dec_lt a b) as [[]|]; simpl; intros [= <-]; auto. Qed.

(** A price is set between the guards, and only when it changes. *)
Lemma decide_price_set candidate floor ceiling current strategy p reason :
  is_finite candidate = true -> is_finite floor = true -> is_finite ceiling = true ->
  decide_price candidate floor ceiling current strategy = Ok (SetPrice p reason) ->
  dec_qle floor candidate /\ dec_qle p ceiling /\ dec_qle p candidate /\
  (p = candidate \/ p = ceiling /\ dec_qlt ceiling candidate) /\
  dec_eq p current = false /\ reason = _reason strategy /\ is_finite p = true.
Proof.
  intros Hc Hf Hce Hd. unfold decide_price in Hd. destruct (dec_lt candidate floor) as [[]|] eqn:Hlt; try done.
  simpl in Hd. apply dec_lt_fin in Hlt; [|done..].
  destruct (dec_min candidate ceiling) as [b|] eqn:Hm; [|done]. simpl in Hd.
  destruct (dec_eq b current) eqn:He; [done|]. injection Hd as <- <-.
  assert (Hrefl : forall x, is_finite x = true -> dec_qle x x).
  { intros x. destruct x; try done. intros _. apply Qle_refl. }
  apply dec_min_cases in Hm as [[-> Hm]|[-> Hm]]; apply dec_lt_fin in Hm; try done; repeat split; auto.
  destruct ceiling, candidate; try done. by apply Qlt_le_weak.
Qed.

(** ** The catalog evaluator, in the terms of the rule and of the limits *)

Definition in_force (limits : option RepricerLimits) (l : RepricerLimits) : Prop := limits = Some l /\ rl_enabled l = true.
Definition finite_rule (rule : RepricerCatalogRule) : Prop := is_finite (rc_min_price rule) = true /\ is_finite (rc_max_price rule) = true.
Definition finite_limits (limits : option RepricerLimits) : Prop := forall l, in_force limits l ->
  is_finite (rl_min_price_limit l) = true /\ is_finite (rl_max_price_limit l) = true /\ is_finite (rl_undercut_delta l) = true.
(** Every minimum lies below every maximum. *)
Definition overlapping (rule : RepricerCatalogRule) (limits : option RepricerLimits) : Prop :=
  dec_qle (rc_min_price rule) (rc_max_price rule) /\
  forall l, in_force limits l -> dec_qle (rc_min_price rule) (rl_max_price_limit l) /\
    dec_qle (rl_min_price_limit l) (rc_max_price rule) /\ dec_qle (rl_min_price_limit l) (rl_max_price_limit l).

Lemma dec_qle_refl x : is_finite x = true -> dec_qle x x.
Proof. destruct x; try done. intros _. apply Qle_refl. Qed.
Lemma dec_qle_trans x y z : dec_qle x y -> dec_qle y z -> dec_qle x z.
Proof. destruct x, y, z; try done. apply Qle_trans. Qed.
Lemma dec_qlt_le x y : dec_qlt x y -> dec_qle x y.
Proof. destruct x, y; try done. apply Qlt_le_weak. Qed.
Lemma dec_round_finite c e : is_finite (dec_round c e) = true.
Proof. unfold dec_round. destruct (_ <=? 0); [done|]. by destruct (_ <? _). Qed.
Lemma dec_sub_finite a b r : is_finite a = true -> is_finite b = true -> dec_sub a b = Ok r -> is_finite r = true.
Proof. destruct a, b; try done. intros _ _ [= <-]. apply dec_round_finite. Qed.
Lemma dec_lt_ok a b : is_finite a = true -> is_finite b = true -> exists r, dec_lt a b = Ok r.
Proof. destruct a, b; try done. intros _ _. by eexists. Qed.

Lemma in_force_none l : ~ in_force None l.
Proof. by intros [? _]. Qed.
Lemma in_force_some l l' : in_force (Some l) l' <-> l' = l /\ rl_enabled l = true.
Proof. split; [by intros [[= <-] ?]|by intros [-> ?]]. Qed.

Lemma floor_spec rule limits : finite_rule rule -> finite_limits limits -> exists f, _effective_floor rule limits = Ok f /\ is_finite f = true /\
  dec_qle (rc_min_price rule) f /\ (forall l, in_force limits l -> dec_qle (rl_min_price_limit l) f) /\
  (f = rc_min_price rule \/ exists l, in_force limits l /\ f = rl_min_price_limit l).
Proof.
  intros [Hf _] Hl. unfold _effective_floor. pose proof (dec_qle_refl _ Hf) as Hrefl.
  assert (Hrule : (forall l, ~ in_force limits l) -> exists f, Ok (rc_min_price rule) = Ok f /\ is_finite f = true /\ dec_qle (rc_min_price rule) f /\
    (forall l, in_force limits l -> dec_qle (rl_min_price_limit l) f) /\ (f = rc_min_price rule \/ exists l, in_force limits l /\ f = rl_min_price_limit l)).
  { intros Hno. eexists. repeat split; [done|done|intros l ?; by destruct (Hno l)|by left]. }
  destruct limits as [l|]; [|by apply Hrule; intros l ?%in_force_none]. destruct (rl_enabled l) eqn:He; [|apply Hrule; intros l' [_ ?]%in_force_some; congruence].
  assert (Hin : in_force (Some l) l) by done. destruct (Hl l Hin) as (Hlf & _ & _). unfold dec_max. destruct (dec_lt_ok _ _ Hf Hlf) as [b Hb]. rewrite Hb.
  apply dec_lt_fin in Hb; [|done..]. destruct b; cbn [result_bind].
  - exists (rl_min_price_limit l). split; [done|]. split; [done|]. split; [by apply dec_qlt_le|]. split; [intros l' [-> _]%in_force_some; by apply dec_qle_refl|right; by exists l].
  - exists (rc_min_price rule). split; [done|]. split; [done|]. split; [done|]. split; [by intros l' [-> _]%in_force_some|by left].
Qed.
Lemma ceiling_spec rule limits : finite_rule rule -> finite_limits limits -> exists c, _effective_ceiling rule limits = Ok c /\ is_finite c = true /\
  dec_qle c (rc_max_price rule) /\ (forall l, in_force limits l -> dec_qle c (rl_max_price_limit l)) /\
  (c = rc_max_price rule \/ exists l, in_force limits l /\ c = rl_max_price_limit l).
Proof.
  intros [_ Hf] Hl. unfold _effective_ceiling. pose proof (dec_qle_refl _ Hf) as Hrefl.
  assert (Hrule : (forall l, ~ in_force limits l) -> exists c, Ok (rc_max_price rule) = Ok c /\ is_finite c = true /\ dec_qle c (rc_max_price rule) /\
    (forall l, in_force limits l -> dec_qle c (rl_max_price_limit l)) /\ (c = rc_max_price rule \/ exists l, in_force limits l /\ c = rl_max_price_limit l)).
  { intros Hno. eexists. repeat split; [done|done|intros l ?; by destruct (Hno l)|by left]. }
  destruct limits as [l|]; [|by apply Hrule; intros l ?%in_force_none]. destruct (rl_enabled l) eqn:He; [|apply Hrule; intros l' [_ ?]%in_force_some; congruence].
  assert (Hin : in_force (Some l) l) by done. destruct (Hl l Hin) as (_ & Hlf & _). unfold dec_min. destruct (dec_lt_ok _ _ Hlf Hf) as [b Hb]. rewrite Hb.
  apply dec_lt_fin in Hb; [|done..]. destruct b; cbn [result_bind].
  - exists (rl_max_price_limit l). split; [done|]. split; [done|]. split; [by apply dec_qlt_le|]. split; [intros l' [-> _]%in_force_some; by apply dec_qle_refl|right; by exists l].
  - exists (rc_max_price rule). split; [done|]. split; [done|]. split; [done|]. split; [by intros l' [-> _]%in_force_some|by left].
Qed.
Lemma overlapping_bounds rule limits f c : overlapping rule limits ->
  (f = rc_min_price rule \/ exists l, in_force limits l /\ f = rl_min_price_limit l) ->
  (c = rc_max_price rule \/ exists l, in_force limits l /\ c = rl_max_price_limit l) -> dec_qle f c.
Proof.
  intros [Hr Hl] [->|(l & Hf & ->)] [->|(l' & Hc & ->)]; [done|by apply Hl|by apply Hl|].
  destruct Hf as [Hf _], Hc as [Hc He]. rewrite Hf in Hc. injection Hc as ->. by apply Hl.
Qed.

Lemma candidate_finite rule current buybox limits c : finite_rule rule -> finite_limits limits -> is_finite current = true ->
  (forall b, buybox = Some b -> is_finite b = true) -> _catalog_candidate_price rule current buybox limits = Ok (Some c) -> is_finite c = true.
Proof.
  intros [Hmin Hmax] Hl Hcur Hbuy. unfold _catalog_candidate_price. destruct (String.eqb _ _).
  { destruct (dec_lt _ _) as [[]|]; try done; by intros [= <-]. }
  destruct (String.eqb _ _); [by intros [= <-]|]. destruct buybox as [b|]; [|done]. specialize (Hbuy b eq_refl).
  destruct limits as [l|]; [|by intros [= <-]]. destruct (rl_enabled l) eqn:He; [|by intros [= <-]].
  destruct (dec_sub _ _) as [r|] eqn:Hs; [|done]. intros [= <-]. eapply dec_sub_finite; [exact Hbuy|by apply (Hl l)|exact Hs].
Qed.
Lemma not_ally allies competitor l a : _is_ally_competitor allies competitor = false -> allies = Some l -> competitor = Some a -> ~ In a l.
Proof.
  intros Hn -> -> Hin. apply not_true_iff_false in Hn. apply Hn. cbn. unfold any. apply existsb_exists. exists a. by rewrite String.eqb_refl.
Qed.

(** C17: the catalog evaluator sets a price only for an active rule, when the
    limits in force neither pause the competition nor ask for a manual review,
    and when the competitor is no ally.  The price differs from the current one
    and exceeds neither the rule's maximum nor that of the limits in force; when
    the two ranges overlap it lies above both minima as well. *)
Theorem catalog_price_in_bounds rule current buybox limits allies competitor p reason :
  evaluate_catalog_rule rule current buybox limits allies competitor = Ok (SetPrice p reason) ->
  finite_rule rule -> finite_limits limits -> is_finite current = true -> (forall b, buybox = Some b -> is_finite b = true) ->
  rc_active rule = true /\
  (forall l, in_force limits l -> rl_pause_competition l = false /\ rl_escalate_to_manual_review l = false) /\
  (forall l a, allies = Some l -> competitor = Some a -> ~ In a l) /\
  dec_eq p current = false /\
  dec_qle p (rc_max_price rule) /\ (forall l, in_force limits l -> dec_qle p (rl_max_price_limit l)) /\
  (overlapping rule limits -> dec_qle (rc_min_price rule) p /\ forall l, in_force limits l -> dec_qle (rl_min_price_limit l) p).
Proof.
  intros He Hrule Hlim Hcur Hbuy. unfold evaluate_catalog_rule in He. destruct (rc_active rule); [|done]. cbn [negb] in He.
  destruct (_ && _) eqn:Hpause; [done|]. destruct (_ && _) eqn:Hreview in He; [done|].
  destruct (_catalog_candidate_price _ _ _ _) as [[candidate|]|] eqn:Hcand; try done. cbn [result_bind] in He.
  apply candidate_finite in Hcand; [|done..].
  destruct (_is_ally_competitor _ _) eqn:Hally; [done|].
  destruct (floor_spec rule limits Hrule Hlim) as (f & Hf & Ff & Hf1 & Hf2 & Hf3). destruct (ceiling_spec rule limits Hrule Hlim) as (c & Hc & Fc & Hc1 & Hc2 & Hc3).
  rewrite Hf, Hc in He. cbn [result_bind] in He. apply decide_price_set in He as (Habove & Hbelow & _ & Hp & Hne & _ & _); [|done..].
  split; [done|]. split; [|split; [intros l a; by apply not_ally|split; [done|split; [by eapply dec_qle_trans|split; [intros l Hl; eapply dec_qle_trans; [exact Hbelow|by apply Hc2]|]]]]].
  { intros l [-> Hen]. rewrite Hen in *. by cbn in *. }
  intros Hover. assert (Hfp : dec_qle f p) by (destruct Hp as [->|[-> _]]; [done|by eapply overlapping_bounds]).
  split; [by eapply dec_qle_trans|]. intros l Hl. eapply dec_qle_trans; [by apply Hf2|exact Hfp].
Qed.

(** The plain evaluator never sets a price outside the rule's range. *)
Theorem rule_price_in_bounds rule current buybox p reason :
  evaluate_rule rule current buybox = Ok (SetPrice p reason) ->
  is_finite (rr_min_price rule) = true -> is_finite (rr_max_price rule) = true ->
  dec_qle (rr_min_price rule) (rr_max_price rule) ->
  is_finite current = true -> (forall b, buybox = Some b -> is_finite b = true) ->
  dec_qle (rr_min_price rule) p /\ dec_qle p (rr_max_price rule) /\ dec_eq p current = false.
Proof.
  intros He Fmin Fmax Hle Fcur Fbuy. unfold evaluate_rule in He.
  destruct (_candidate_price rule current buybox) as [[candidate|]|] eqn:Hc; try done. cbn [result_bind] in He.
  assert (Fc : is_finite candidate = true).
  { unfold _candidate_price in Hc. destruct (String.eqb _ _).
    - destruct (dec_lt _ _) as [[]|]; simpl in Hc; try done; injection Hc as <-; done.
    - destruct (String.eqb _ _); injection Hc as Hc; [by subst|auto]. }
  apply decide_price_set in He as (H1 & H2 & H3 & H4 & H5 & H6 & H7); [|done..].
  repeat split; try done. destruct H4 as [->|[-> _]]; done.
Qed.

(** When the rule's and the limits' ranges do not overlap, every price the
    catalog evaluator sets lies below its own floor. *)
Theorem disjoint_ranges_undercut_floor rule current buybox limits allies competitor p reason floor ceiling :
  evaluate_catalog_rule rule current buybox limits allies competitor = Ok (SetPrice p reason) ->
  _effective_floor rule limits = Ok floor -> _effective_ceiling rule limits = Ok ceiling ->
  is_finite floor = true -> is_finite ceiling = true -> dec_qlt ceiling floor ->
  (forall c, _catalog_candidate_price rule current buybox limits = Ok (Some c) -> is_finite c = true) ->
  dec_qlt p floor.
Proof.
  intros He Hfl Hce Ff Fc Hlt Hcand. unfold evaluate_catalog_rule in He.
  destruct (rc_active rule); [|done]. cbn [negb] in He.
  destruct (_ && _); [done|]. destruct (_ && _); [done|].
  destruct (_catalog_candidate_price _ _ _ _) as [[candidate|]|]; try done. cbn [result_bind] in He.
  destruct (_is_ally_competitor _ _); [done|]. rewrite Hfl, Hce in He. cbn [result_bind] in He.
  apply decide_price_set in He as (H1 & H2 & H3 & H4 & H5 & H6 & H7); [|auto..].
  destruct floor, ceiling, candidate, p; try done. unfold dec_qle, dec_qlt in *. simpl in *.
  eapply Qle_lt_trans; [exact H2|exact Hlt].
Qed.

(** ** Witnesses *)

Definition sample_rule : RepricerCatalogRule :=
  {| rc_id := "rule-1"; rc_seller_id := "123"; rc_account_id := "acc"; rc_strategy := "competitive";
     rc_min_price := DFin 10 0; rc_max_price := DFin 20 0; rc_active := true |}.
Definition sample_limits (lo hi : Z) : RepricerLimits :=
  {| rl_enabled := true; rl_min_price_limit := DFin lo 0; rl_max_price_limit := DFin hi 0;
     rl_undercut_delta := DFin 5 (-1); rl_pause_competition := false; rl_escalate_to_manual_review := false |}.

Lemma catalog_price_in_bounds_witness :
  dec_qle (DFin 12 0) (DFin 145 (-1)) /\ dec_qle (DFin 145 (-1)) (DFin 18 0).
Proof.
  assert (Hl : forall l, in_force (Some (sample_limits 12 18)) l -> l = sample_limits 12 18) by (intros l [[= <-] _]; reflexivity).
  destruct (catalog_price_in_bounds sample_rule (DFin 16 0) (Some (DFin 150 (-1))) (Some (sample_limits 12 18))
    None None (DFin 145 (-1)) "track_buybox") as (_ & _ & _ & _ & _ & Hmax & Hmin).
  - by vm_compute.
  - by split.
  - intros l ->%Hl. by vm_compute.
  - done.
  - by intros b [= <-].
  - split; [|by apply (Hmax (sample_limits 12 18))]. apply (proj2 (Hmin ltac:(split; [by vm_compute|intros l ->%Hl; by vm_compute])) (sample_limits 12 18)). done.
Defined.

Lemma rule_price_in_bounds_witness :
  dec_qle (DFin 10 0) (DFin 20 0) /\ dec_qle (DFin 20 0) (DFin 20 0).
Proof.
  destruct (rule_price_in_bounds
    {| rr_id := "r"; rr_strategy := "competitive"; rr_min_price := DFin 10 0; rr_max_price := DFin 20 0; rr_active := true |}
    (DFin 16 0) (Some (DFin 25 0)) (DFin 20 0) "track_buybox") as (H1 & H2 & _);
    [by vm_compute|done|done|by vm_compute|done| |by split].
  by intros b [= <-].
Defined.

Lemma disjoint_ranges_undercut_floor_witness : dec_qlt (DFin 20 0) (DFin 30 0).
Proof.
  apply (disjoint_ranges_undercut_floor sample_rule (DFin 16 0) (Some (DFin 350 (-1))) (Some (sample_limits 30 40))
    None None (DFin 20 0) "track_buybox" (DFin 30 0) (DFin 20 0));
    [by vm_compute|by vm_compute|by vm_compute|done|done|by vm_compute|].
  vm_compute. intros c. by intros [= <-].
Defined.
