(* ===== verification/Idempotency.v ===== *)
(** The completed-event marker: [IdempotencyStore] of
    core/.../events/idempotency.py over the collection [processed_events]. *)

From S2P Require Export MongoRef.

(** [f"{scope_id}:{idempotency_key}"]. *)
Definition scoped_processed_event_id (idempotency_key scope_id : string) : string :=
  (scope_id ++ ":" ++ idempotency_key)%string.

Definition _scoped_processed_event_id (idempotency_key scope_id : string) : string :=
  scoped_processed_event_id idempotency_key scope_id.

(** [consumer_id or module_id]. *)
Definition scope_of (consumer_id : option string) (module_id : string) : string :=
  match consumer_id with
  | Some c => if string_is_empty c then module_id else c
  | None => module_id
  end.

Record IdempotencyStore := {
  is_collection : string;
  is_retention : Z;
}.
Definition default_retention : Z := 48 * hour.

Section Store.
Context {E : Type -> Type}.
Implicit Types st : IdempotencyStore.

Definition _document_is_active (document : option doc) : prog E bool :=
  match document with
  | None => Ret false
  | Some d =>
      let expires_at := doc_get d "expires_at" in
      if is_date expires_at then
        let* now := now_utc in
        of_result (date_gt expires_at (VDate true now))
      else Ret false
  end.

Definition find_by_id st (i : string) : prog E (option doc) :=
  mongo (MFindOne (is_collection st) (FEq ["_id"] (VStr i)) []).

Definition is_duplicate st (idempotency_key : string) (module_id consumer_id : option string) :
    prog E bool :=
  match module_id with
  | None =>
      let* document := find_by_id st idempotency_key in
      let* active := _document_is_active document in
      if (active : bool) then Ret true
      else
        let* scoped_document :=
          mongo (MFindOne (is_collection st) (FEq ["idempotency_key"] (VStr idempotency_key)) []) in
        _document_is_active scoped_document
  | Some module_id =>
      let scope_id := scope_of consumer_id module_id in
      let* scoped_document :=
        find_by_id st (_scoped_processed_event_id idempotency_key scope_id) in
      let* active := _document_is_active scoped_document in
      if (active : bool) then Ret true
      else
        let* legacy_document := find_by_id st idempotency_key in
        match legacy_document with
        | None => Ret false
        | Some legacy =>
            if negb (py_eq (doc_get legacy "module_id") (VStr module_id)) then Ret false
            else if match consumer_id with
                    | Some c => has_key legacy "consumer_id"
                                && negb (py_eq (doc_get legacy "consumer_id") (VStr c))
                    | None => false
                    end
            then Ret false
            else _document_is_active (Some legacy)
        end
  end.

(** The marker document. *)
Definition processed_document (idempotency_key module_id scope_id : string) (now retention : Z) : doc :=
  mk_doc [
    ("_id", VStr (_scoped_processed_event_id idempotency_key scope_id));
    ("idempotency_key", VStr idempotency_key);
    ("module_id", VStr module_id);
    ("consumer_id", VStr scope_id);
    ("processed_at", VDate true now);
    ("expires_at", VDate true (now + retention));
    ("schema_version", VInt 2)].

Definition mark_processed st (idempotency_key module_id : string) (consumer_id : option string) :
    prog E bool :=
  let* now := now_utc in
  let scope_id := scope_of consumer_id module_id in
  catch
    (do* mongo (MInsertOne (is_collection st)
                  (processed_document idempotency_key module_id scope_id now (is_retention st))) in
     Ret true)
    (fun exc => if contains "duplicate" (lower (exn_msg exc)) then Ret false else Raise exc).
End Store.

(** ** Properties *)

(** The instant a stored document expires at. *)
Definition expiry (d : doc) : option Z :=
  match doc_get d "expires_at" with VDate _ us => Some us | _ => None end.
(** The document is a live marker at time [t]. *)
Definition live_at (t : Z) (o : option doc) : bool :=
  match o with
  | Some d => match expiry d with Some us => t <? us | None => false end
  | None => false
  end.

(** The promise of [is_duplicate] for a module: a live marker of the scope, or
    a live unscoped marker of the module (of the consumer, when it names one). *)
Definition marked_at (db : database) (c key m : string) (cons : option string) (t : Z) : bool :=
  live_at t (db !! (c, scoped_processed_event_id key (scope_of cons m))) ||
  match db !! (c, key) with
  | None => false
  | Some legacy =>
      py_eq (doc_get legacy "module_id") (VStr m) &&
      match cons with
      | Some x => negb (has_key legacy "consumer_id") || py_eq (doc_get legacy "consumer_id") (VStr x)
      | None => true
      end && live_at t (Some legacy)
  end.

Lemma live_at_mono t t' o : t <= t' -> live_at t' o = true -> live_at t o = true.
Proof.
  unfold live_at. destruct o as [d|]; [|done]. destruct (expiry d); [|done].
  rewrite !Z.ltb_lt. lia.
Qed.

Lemma marked_at_mono db c key m cons t t' :
  t <= t' -> marked_at db c key m cons t' = true -> marked_at db c key m cons t = true.
Proof.
  intros Ht. unfold marked_at. rewrite !orb_true_iff. intros [Hm|Hm]; [left|right].
  - by eapply live_at_mono.
  - destruct (db !! (c, key)) as [legacy|]; [|done]. apply andb_true_iff in Hm as [Hm Hl].
    apply andb_true_iff. split; [done|]. by eapply live_at_mono.
Qed.

Section Proofs.
Context {E : Type -> Type} {S : Type} `{MongoConf} `{ExtSpec E S}.
Implicit Types (w : world S) (st : IdempotencyStore).

Lemma wp_document_is_active (o : option doc) w (Q : world S -> result bool -> Prop) :
  (forall w' b, same_but_time w w' -> tz_aware = true -> b = live_at (w_now w') o -> Q w' (Ok b)) ->
  (forall w', same_but_time w w' -> tz_aware = false ->
     match o with
     | Some d => match expiry d with
                 | Some _ => Q w' (raise_type "can't compare offset-naive and offset-aware datetimes")
                 | None => Q w' (Ok false)
                 end
     | None => Q w' (Ok false)
     end) ->
  wp (_document_is_active (E := E) (dec <$> o)) Q w.
Proof.
  intros Ha Hn. pose proof (same_but_time_refl w) as Hr. destruct tz_aware eqn:Htz.
  - destruct o as [d|]; [|by apply Ha]. unfold _document_is_active. cbn [fmap option_fmap option_map].
    rewrite doc_get_dec, Htz. unfold live_at, expiry in Ha.
    destruct (doc_get d "expires_at"); simpl is_date; try (by apply Ha).
    apply wp_now. intros w' Hs. simpl. by apply Ha.
  - destruct o as [d|]; [|by apply (Hn w)]. unfold _document_is_active. cbn [fmap option_fmap option_map].
    rewrite doc_get_dec, Htz. unfold expiry in Hn.
    destruct (doc_get d "expires_at"); simpl is_date; try (by apply (Hn w)).
    apply wp_now. intros w' Hs. simpl. by apply Hn.
Qed.

(** The reads of [is_duplicate] one after the other, the time running. *)
Lemma is_duplicate_reads st key m cons w :
  db_wf (w_db w) -> tz_aware = true ->
  wp (is_duplicate (E := E) st key (Some m) cons)
    (fun w' r => same_but_time w w' /\
       (r = auto_reconnect \/
        exists b, r = Ok b /\
          (b = true -> marked_at (w_db w) (is_collection st) key m cons (w_now w) = true) /\
          (b = false -> marked_at (w_db w) (is_collection st) key m cons (w_now w') = false))) w.
Proof.
  intros Hwf Htz. unfold is_duplicate, find_by_id, _scoped_processed_event_id.
  set (sid := scoped_processed_event_id key (scope_of cons m)). set (c := is_collection st).
  eapply wp_find_one; eauto with zeler. intros w1 H1. rewrite at_id_eq by done.
  apply wp_bind, wp_document_is_active; [|congruence]. intros w2 b H2 _ ->.
  pose proof (same_but_time_trans _ _ _ H1 H2) as H12. destruct (live_at _ _) eqn:Hlive.
  { split; [done|]. right. exists true. split; [done|]. split; [|done]. intros _.
    unfold marked_at. apply orb_true_iff. left. eapply live_at_mono; [|done]. apply H12. }
  eapply wp_find_one with (i := key); eauto with zeler.
  { by destruct H12 as [-> _]. }
  2:{ intros w3 H3. split; [by eapply same_but_time_trans|by left]. }
  intros w3 H3. pose proof (same_but_time_trans _ _ _ H12 H3) as H13.
  destruct H12 as (Hdb & _ & _ & Ht2). rewrite Hdb, at_id_eq by done. fold c.
  assert (Hdead : forall w4, same_but_time w3 w4 -> live_at (w_now w4) (w_db w !! (c, sid)) = false).
  { intros w4 H4. destruct (live_at (w_now w4) _) eqn:Hl; [|done].
    apply live_at_mono with (t := w_now w2) in Hl; [congruence|].
    destruct H3 as (_ & _ & _ & ?), H4 as (_ & _ & _ & ?). lia. }
  unfold marked_at. fold sid. destruct (w_db w !! (c, key)) as [legacy|] eqn:Hleg; cbn [fmap option_fmap option_map].
  2:{ split; [done|]. right. exists false. split; [done|]. split; [done|]. intros _.
      by rewrite (Hdead w3) by apply same_but_time_refl. }
  rewrite !doc_get_dec, has_key_dec, py_eq_dec_str. destruct (py_eq _ (VStr m)); simpl negb; cbv iota.
  2:{ split; [done|]. right. exists false. split; [done|]. split; [done|]. intros _.
      by rewrite (Hdead w3) by apply same_but_time_refl. }
  assert (Hscope : match cons with
            | Some x => has_key legacy "consumer_id" && negb (py_eq (bson_decode tz_aware (doc_get legacy "consumer_id")) (VStr x))
            | None => false end =
          negb match cons with
            | Some x => negb (has_key legacy "consumer_id") || py_eq (doc_get legacy "consumer_id") (VStr x)
            | None => true end).
  { destruct cons as [x|]; [|done]. rewrite py_eq_dec_str. by destruct (has_key _ _). }
  rewrite Hscope. clear Hscope.
  match goal with |- context [if negb ?b then _ else _] => destruct b end; simpl negb; cbv iota.
  2:{ split; [done|]. right. exists false. split; [done|]. split; [done|]. intros _.
      by rewrite (Hdead w3) by apply same_but_time_refl. }
  change (Some (dec legacy)) with (dec <$> Some legacy).
  apply wp_document_is_active; [|congruence]. intros w4 b H4 _ ->.
  split; [by eapply same_but_time_trans|]. right. eexists. split; [done|]. split.
  - intros Hl. apply orb_true_iff. right. eapply live_at_mono; [|exact Hl].
    destruct H13 as (_ & _ & _ & ?), H4 as (_ & _ & _ & ?). lia.
  - intros Hl. rewrite (Hdead w4 H4). done.
Qed.

(** The stored marker written at time [t]. *)
Definition marker st key m cons t : doc :=
  encode_doc (processed_document key m (scope_of cons m) t (is_retention st)).

Lemma marker_id st key m cons t :
  doc_id (marker st key m cons t) = Some (scoped_processed_event_id key (scope_of cons m)).
Proof.
  unfold marker, doc_id, encode_doc. rewrite lookup_fmap. unfold processed_document, mk_doc. simpl. by doc_simp.
Qed.

Lemma marker_expiry st key m cons t :
  expiry (marker st key m cons t) = Some (floor_ms (t + is_retention st)).
Proof.
  unfold marker, expiry, encode_doc, doc_get. rewrite lookup_fmap.
  unfold processed_document, mk_doc. simpl. by doc_simp.
Qed.

(** What marking does: it inserts the marker in the free slot, or leaves the
    slot as it is; a lost connection tells nothing about the insertion. *)
Lemma mark_processed_spec st key m cons w :
  let sid := scoped_processed_event_id key (scope_of cons m) in
  wp (mark_processed (E := E) st key m cons)
    (fun w' r => db_step w w' /\
       let inserted := exists t, w_now w <= t <= w_now w' /\ w_db w !! (is_collection st, sid) = None /\
         w_db w' = <[(is_collection st, sid) := marker st key m cons t]> (w_db w) in
       (r = Ok true /\ inserted) \/
       (r = Ok false /\ w_db w' = w_db w /\
          (is_some (w_db w !! (is_collection st, sid)) = true \/
           exists t, unique_ok (w_db w) (is_collection st) sid (marker st key m cons t) = false)) \/
       (r = auto_reconnect /\ (w_db w' = w_db w \/ inserted))) w.
Proof.
  intros sid. unfold mark_processed. apply wp_now. intros w1 (Hdb & Hsn & He & Ht).
  set (d := processed_document _ _ _ _ _).
  assert (Hins : forall w2 r, inserts (w_db w1) (is_collection st) (Some (encode_doc d)) (fun _ => tt) (w_db w2) r ->
    (r = Ok tt /\ w_db w !! (is_collection st, sid) = None /\
      w_db w2 = <[(is_collection st, sid) := marker st key m cons (w_now w1)]> (w_db w)) \/
    (r = duplicate_key /\ w_db w2 = w_db w /\
      (is_some (w_db w !! (is_collection st, sid)) = true \/
       unique_ok (w_db w) (is_collection st) sid (marker st key m cons (w_now w1)) = false))).
  { intros w2 r. unfold inserts. change (encode_doc d) with (marker st key m cons (w_now w1)).
    rewrite marker_id, Hdb. fold sid. destruct (w_db w !! (is_collection st, sid)) as [x|] eqn:Hslot; simpl.
    - intros [-> ->]. right. auto.
    - unfold stores. destruct (unique_ok _ _ _ _) eqn:Hu; intros [-> ->]; [left|right]; auto. }
  assert (Hst : forall w2, db_step w1 w2 -> db_step w w2).
  { intros w2 (? & ? & ?). repeat split; congruence || lia. }
  apply wp_catch, wp_mongo.
  - intros w2 r Hm Hs. specialize (Hst _ Hs). destruct (Hins w2 r Hm) as [(-> & Hf & Hd)|(-> & Hd & Hor)].
    + split; [done|]. left. split; [done|]. exists (w_now w1). destruct Hs as (_ & _ & ?). done.
    + split; [done|]. right; left. destruct Hor as [Hs2|Hu]; eauto.
  - intros w2 Hs Hor. specialize (Hst _ Hs). split; [done|]. right; right. split; [done|].
    destruct Hor as [Hd|[r Hm]]; [left; congruence|].
    destruct (Hins w2 r Hm) as [(-> & Hf & Hd)|(-> & Hd & _)]; [right|by left].
    exists (w_now w1). destruct Hs as (_ & _ & ?). done.
Qed.

Lemma mark_processed_wf st key m cons w :
  db_wf (w_db w) -> wp (mark_processed (E := E) st key m cons) (fun w' _ => db_wf (w_db w')) w.
Proof.
  intros Hwf. eapply wp_mono; [apply mark_processed_spec|]. simpl.
  assert (Hi : forall t, db_wf (<[(is_collection st, scoped_processed_event_id key (scope_of cons m)) :=
                   marker st key m cons t]> (w_db w))).
  { intros t. apply db_wf_insert; [done|apply marker_id]. }
  intros w' r (_ & [(_ & t & _ & _ & ->)|[(_ & -> & _)|(_ & [->|(t & _ & _ & ->)])]]); auto.
Qed.
End Proofs.

(** *** Claims on the marker *)

Section Theorems.
Context {E : Type -> Type} {S : Type} `{MongoConf} `{ExtSpec E S}.

(** On a client that decodes aware dates, [is_duplicate] decides exactly
    the abstract [marked_at] of the stored markers (up to the time that passes
    while it reads), never writes, and fails only by losing the connection. *)
Theorem is_duplicate_refines st key m cons (w : world S) :
  db_wf (w_db w) -> tz_aware = true ->
  wp (is_duplicate (E := E) st key (Some m) cons)
    (fun w' r => same_but_time w w' /\
       (r = auto_reconnect \/
        exists b, r = Ok b /\
          (b = true -> marked_at (w_db w) (is_collection st) key m cons (w_now w) = true) /\
          (b = false -> marked_at (w_db w) (is_collection st) key m cons (w_now w') = false))) w.
Proof. apply is_duplicate_reads. Qed.

(** A delivery marked as processed is a duplicate for the whole
    retention: every later check that comes back before the marker's expiry
    answers [true]. *)
Theorem marked_stays_duplicate st key m cons (w : world S) :
  db_wf (w_db w) -> tz_aware = true ->
  wp (let* marked := mark_processed (E := E) st key m cons in
      let* duplicate := is_duplicate st key (Some m) cons in
      Ret (marked, duplicate))
    (fun w' r => match r with
       | Ok (true, duplicate) => w_now w' < floor_ms (w_now w + is_retention st) -> duplicate = true
       | Ok (false, _) => True
       | Err e => Err e = auto_reconnect (A := unit)
       end) w.
Proof.
  intros Hwf Htz. apply wp_bind.
  eapply wp_mono; [apply wp_and; [apply mark_processed_spec|by apply mark_processed_wf]|].
  intros w1 r [(_ & Hr) Hwf1]. simpl in Hr.
  assert (Hdup : forall b : bool, (b = true -> exists t, w_now w <= t /\
      w_db w1 !! (is_collection st, scoped_processed_event_id key (scope_of cons m)) =
        Some (marker st key m cons t)) ->
    wp (let* duplicate := is_duplicate (E := E) st key (Some m) cons in Ret (b, duplicate))
      (fun w' r => match r with
         | Ok (true, duplicate) => w_now w' < floor_ms (w_now w + is_retention st) -> duplicate = true
         | Ok (false, _) => True
         | Err e => Err e = auto_reconnect (A := unit)
         end) w1).
  { intros b Hb. apply wp_bind. eapply wp_mono; [by apply is_duplicate_reads|].
    intros w2 r2 (_ & [->|(d & -> & _ & Hf)]); [done|]. simpl. destruct b; [|done].
    intros Hlt. destruct d; [done|]. specialize (Hf eq_refl). apply orb_false_iff in Hf as [Hf _].
    destruct (Hb eq_refl) as (t & Hle & Hlk). rewrite Hlk in Hf. simpl in Hf.
    rewrite marker_expiry in Hf. apply Z.ltb_ge in Hf.
    assert (floor_ms (w_now w + is_retention st) <= floor_ms (t + is_retention st)); [|lia].
    unfold floor_ms, millisecond. apply Z.mul_le_mono_nonneg_r; [lia|]. apply Z.div_le_mono; lia. }
  destruct Hr as [(-> & t & Ht & Hn & Hd)|[(-> & _)|(-> & _)]]; [apply Hdup|apply Hdup|]; try done.
  intros _. exists t. split; [lia|]. rewrite Hd. apply lookup_insert_eq.
Qed.

(** On a client that decodes naive dates (the driver's default), the
    check of a delivery that has a marker with an expiry date raises
    [TypeError] instead of answering, whether the marker is live or not. *)
Theorem naive_client_duplicate_raises st key m cons d (w : world S) :
  db_wf (w_db w) -> tz_aware = false ->
  w_db w !! (is_collection st, scoped_processed_event_id key (scope_of cons m)) = Some d ->
  is_some (expiry d) = true ->
  wp (is_duplicate (E := E) st key (Some m) cons)
    (fun _ r => r = raise_type "can't compare offset-naive and offset-aware datetimes" \/
                r = auto_reconnect) w.
Proof.
  intros Hwf Htz Hd He. unfold is_duplicate, find_by_id, _scoped_processed_event_id.
  eapply wp_find_one; eauto with zeler. intros w1 H1. rewrite at_id_eq, Hd by done.
  apply wp_bind, wp_document_is_active; [congruence|]. intros w2 H2 _.
  destruct (expiry d); [by left|done].
Qed.
End Theorems.

(** ** Witnesses *)

Definition sample_store : IdempotencyStore :=
  {| is_collection := "processed_events"; is_retention := default_retention |}.
Definition sample_marker (t : Z) : doc :=
  encode_doc (processed_document "evt-1" "repricer" "repricer.items" t default_retention).
Definition sample_db (t : Z) : database :=
  {[ ("processed_events"%string, "repricer.items:evt-1"%string) := sample_marker t ]}.

Lemma is_duplicate_refines_witness :
  let _ := aware_conf in
  wp (is_duplicate (E := noE) sample_store "evt-1" (Some "repricer"%string) (Some "repricer.items"%string))
    (fun w' r => same_but_time (World (sample_db 0) day None tt) w' /\
       (r = auto_reconnect \/
        exists b, r = Ok b /\
          (b = true -> marked_at (sample_db 0) "processed_events" "evt-1" "repricer" (Some "repricer.items"%string) day = true) /\
          (b = false -> marked_at (sample_db 0) "processed_events" "evt-1" "repricer" (Some "repricer.items"%string) (w_now w') = false)))
    (World (sample_db 0) day None tt) /\
  (run (is_duplicate (E := noE) sample_store "evt-1" (Some "repricer"%string) (Some "repricer.items"%string))
     (World (sample_db 0) day None tt)).2 = Ok true.
Proof.
  intros conf. split; [|by vm_compute].
  apply (is_duplicate_refines (H := conf) sample_store); [apply db_wfb_ok; by vm_compute|done].
Defined.

Lemma marked_stays_duplicate_witness :
  let _ := aware_conf in
  wp (let* marked := mark_processed (E := noE) sample_store "evt-1" "repricer" None in
      let* duplicate := is_duplicate sample_store "evt-1" (Some "repricer"%string) None in
      Ret (marked, duplicate))
    (fun w' r => match r with
       | Ok (true, duplicate) => w_now w' < floor_ms (0 + default_retention) -> duplicate = true
       | Ok (false, _) => True
       | Err e => Err e = auto_reconnect (A := unit)
       end) (World ∅ 0 None tt).
Proof.
  intros conf. apply (marked_stays_duplicate (H := conf) sample_store); [apply db_wfb_ok; by vm_compute|done].
Defined.

Lemma naive_client_duplicate_raises_witness :
  let _ := naive_conf in
  wp (is_duplicate (E := noE) sample_store "evt-1" (Some "repricer"%string) (Some "repricer.items"%string))
    (fun _ r => r = raise_type "can't compare offset-naive and offset-aware datetimes" \/
                r = auto_reconnect) (World (sample_db 0) day None tt).
Proof.
  intros conf. eapply (naive_client_duplicate_raises (H := conf) sample_store) with (d := sample_marker 0);
    [apply db_wfb_ok; by vm_compute|done|by vm_compute|by vm_compute].
Defined.
