(* ===== verification/Claims.v ===== *)
(** Event claim leases: [EventClaimStore] of core/.../events/claims.py and the
    gates of core/.../events/claim_gate.py. *)

From S2P Require Export Idempotency Concurrency.

Inductive ClaimOutcome := CLAIMED | COMPLETED | TIMED_OUT.

#[export] Instance ClaimOutcome_eq_dec : EqDecision ClaimOutcome.
Proof. solve_decision. Defined.

Record EventClaimStore := {
  cs_claims : string;
  cs_completed : IdempotencyStore;
  cs_lease : Z;
  cs_wait : Z;
  cs_poll : Z;
}.

(** The constructor's defaults. *)
Definition default_claim_store (claims : string) (completed : IdempotencyStore) : EventClaimStore :=
  {| cs_claims := claims; cs_completed := completed;
     cs_lease := 120 * second; cs_wait := 30 * second; cs_poll := 250 * millisecond |}.

(** [ceil(a / b)] of two timedeltas, [b > 0].  The code divides floats: the
    two agree while [a] is below 2^53 microseconds (285 years). *)
Definition ceil_div (a b : Z) : Z := - ((- a) / b).

Section Claims.
Context {E : Type -> Type}.
Implicit Types st : EventClaimStore.

Definition _owned_claim_filter (idempotency_key module_id : string)
    (consumer_id : option string) (owner_token : string) : filter :=
  FAnd [FEq ["_id"] (VStr (scoped_processed_event_id idempotency_key (scope_of consumer_id module_id)));
        FEq ["owner_token"] (VStr owner_token)].

(** The expired (or absent) lease of the key. *)
Definition acquire_filter (i : string) (now : Z) : filter :=
  FAnd [FEq ["_id"] (VStr i); FRel RLte ["expires_at"] (VDate true now)].

Definition acquire_update (idempotency_key module_id scope_id owner_token : string) (now lease : Z) : update :=
  UOps [USet ["idempotency_key"] (VStr idempotency_key);
        USet ["module_id"] (VStr module_id);
        USet ["consumer_id"] (VStr scope_id);
        USet ["owner_token"] (VStr owner_token);
        USet ["claimed_at"] (VDate true now);
        USet ["expires_at"] (VDate true (now + lease))].

Definition _acquire st (idempotency_key module_id : string) (consumer_id : option string)
    (owner_token : string) (lease : Z) : prog E bool :=
  let* now := now_utc in
  let scope_id := scope_of consumer_id module_id in
  catch
    (do* mongo (MFindOneAndUpdate (cs_claims st)
                  (acquire_filter (scoped_processed_event_id idempotency_key scope_id) now)
                  (acquire_update idempotency_key module_id scope_id owner_token now lease)
                  true true) in
     Ret true)
    (fun exc => if isinstance exc "DuplicateKeyError" then Ret false else Raise exc).

Definition release st (idempotency_key module_id : string) (consumer_id : option string)
    (owner_token : string) : prog E bool :=
  let* deleted_count :=
    mongo (MDeleteOne (cs_claims st)
             (_owned_claim_filter idempotency_key module_id consumer_id owner_token)) in
  Ret (negb (deleted_count =? 0)).

Definition max_attempts (wait poll : Z) : Z :=
  if 0 <? poll then Z.max 1 (ceil_div wait poll) + 1 else 1.

(** The [while True] of [claim]: [fuel] iterations are left, [attempts] ended
    in a collision.  [max_attempts] iterations are enough (see below). *)
Fixpoint claim_loop st (idempotency_key module_id : string) (consumer_id : option string)
    (owner_token : string) (lease deadline budget : Z) (fuel : nat) (attempts : Z) :
    prog E ClaimOutcome :=
  match fuel with
  | O => Raise (mk_exn "OutOfFuel" "")
  | S fuel =>
      let* done := is_duplicate (cs_completed st) idempotency_key (Some module_id) consumer_id in
      if (done : bool) then Ret COMPLETED
      else
        let* acquired := _acquire st idempotency_key module_id consumer_id owner_token lease in
        let collided := negb acquired in
        let* done := is_duplicate (cs_completed st) idempotency_key (Some module_id) consumer_id in
        if (done : bool) then
          do* release st idempotency_key module_id consumer_id owner_token in
          Ret COMPLETED
        else if negb collided then Ret CLAIMED
        else
          let attempts := attempts + 1 in
          if budget <=? attempts then Ret TIMED_OUT
          else
            let* now := now_utc in
            if deadline <=? now then Ret TIMED_OUT
            else
              do* sleep (cs_poll st) in
              claim_loop st idempotency_key module_id consumer_id owner_token lease
                deadline budget fuel attempts
  end.

Definition claim st (idempotency_key module_id : string) (consumer_id : option string)
    (owner_token : string) (lease wait : option Z) : prog E ClaimOutcome :=
  let effective_lease := default_to (cs_lease st) lease in
  let effective_wait := default_to (cs_wait st) wait in
  let* start := now_utc in
  let deadline := start + effective_wait in
  let budget := max_attempts effective_wait (cs_poll st) in
  claim_loop st idempotency_key module_id consumer_id owner_token effective_lease
    deadline budget (Z.to_nat budget) 0.

Definition complete st (idempotency_key module_id : string) (consumer_id : option string)
    (owner_token : string) : prog E bool :=
  let* existing :=
    mongo (MFindOne (cs_claims st)
             (_owned_claim_filter idempotency_key module_id consumer_id owner_token) []) in
  match existing with
  | None => Ret false
  | Some _ =>
      let* marked := mark_processed (cs_completed st) idempotency_key module_id consumer_id in
      do* catch
            (do* mongo (MDeleteOne (cs_claims st)
                          (_owned_claim_filter idempotency_key module_id consumer_id owner_token)) in
             Ret tt)
            (fun exc => if isinstance exc "PyMongoError" then Ret tt else Raise exc) in
      Ret marked
  end.

(** *** Gates (claim_gate.py) *)

(** A claimed delivery. *)
Record ClaimHandle := {
  ch_key : string;
  ch_module_id : string;
  ch_consumer_id : string;
  ch_owner_token : string;
}.

Definition history_identity (h : ClaimHandle) : doc :=
  mk_doc [("processing_key", VStr (ch_key h)); ("owner_token", VStr (ch_owner_token h));
          ("module_id", VStr (ch_module_id h)); ("consumer_id", VStr (ch_consumer_id h))].

Definition handle_complete st (h : ClaimHandle) : prog E bool :=
  complete st (ch_key h) (ch_module_id h) (Some (ch_consumer_id h)) (ch_owner_token h).
Definition handle_release st (h : ClaimHandle) : prog E bool :=
  release st (ch_key h) (ch_module_id h) (Some (ch_consumer_id h)) (ch_owner_token h).

(** [EventClaimGate.claim] once the owner token is drawn. *)
Definition gate_claim_as st (module_id consumer_id key owner_token : string) :
    prog E (option ClaimHandle) :=
  let* outcome := claim st key module_id (Some consumer_id) owner_token None None in
  match outcome with
  | CLAIMED => Ret (Some {| ch_key := key; ch_module_id := module_id;
                            ch_consumer_id := consumer_id; ch_owner_token := owner_token |})
  | COMPLETED => Ret None
  | TIMED_OUT =>
      Raise (mk_exn "EventClaimTimeoutError" "event claim lease stayed busy; retry the delivery later")
  end.

(** [EventClaimGate.claim]. *)
Definition gate_claim st (module_id consumer_id key : string) : prog E (option ClaimHandle) :=
  let* owner_token := uuid4_hex in
  gate_claim_as st module_id consumer_id key owner_token.

(** *** The check-then-act fallback *)

(** [LegacyEventGate.claim] over the marker store scoped to one module. *)
Definition legacy_claim (s : IdempotencyStore) (module_id : string) (consumer_id : option string)
    (key : string) : prog E bool :=
  let* done := is_duplicate s key (Some module_id) consumer_id in
  Ret (negb done).
(** [_LegacyClaimHandle.complete]. *)
Definition legacy_complete (s : IdempotencyStore) (module_id : string) (consumer_id : option string)
    (key : string) : prog E bool :=
  do* mark_processed s key module_id consumer_id in
  Ret true.

(** *** The gate a consumer holds *)

Inductive EventGate :=
| LeaseGate (store : EventClaimStore) (module_id consumer_id : string)
| LegacyGate (store : IdempotencyStore) (module_id consumer_id : string).

Inductive GateHandle :=
| LeaseHandle (store : EventClaimStore) (handle : ClaimHandle)
| LegacyHandle (store : IdempotencyStore) (module_id consumer_id key : string).

Definition event_claim (g : EventGate) (key : string) : prog E (option GateHandle) :=
  match g with
  | LeaseGate st m c =>
      let* handle := gate_claim st m c key in
      Ret (match handle with Some h => Some (LeaseHandle st h) | None => None end)
  | LegacyGate s m c =>
      let* free := legacy_claim s m (Some c) key in
      Ret (if (free : bool) then Some (LegacyHandle s m c key) else None)
  end.
Definition event_complete (h : GateHandle) : prog E bool :=
  match h with
  | LeaseHandle st h => handle_complete st h
  | LegacyHandle s m c key => legacy_complete s m (Some c) key
  end.
Definition event_release (h : GateHandle) : prog E bool :=
  match h with
  | LeaseHandle st h => handle_release st h
  | LegacyHandle _ _ _ _ => Ret false
  end.
End Claims.

(** ** The lease slot *)

Definition claim_id (key m : string) (cons : option string) : string :=
  scoped_processed_event_id key (scope_of cons m).

(** The lease in a slot is over at time [t]: the filter of [_acquire] selects it. *)
Definition lapsed (t : Z) (d : doc) : bool := matches t (FRel RLte ["expires_at"%string] (VDate true t)) d.

(** The lease document [_acquire] leaves in the slot that held [d]. *)
Definition leased (d : doc) key m scope tok t lease : doc :=
  <["expires_at" := VDate true (floor_ms (t + lease))]>
  (<["claimed_at" := VDate true (floor_ms t)]>
   (<["owner_token" := VStr tok]>
    (<["consumer_id" := VStr scope]>
     (<["module_id" := VStr m]>
      (<["idempotency_key" := VStr key]> d))))).

Definition owned_by (tok : string) (o : option doc) : bool :=
  match o with
  | Some d => match_eq d ["owner_token"%string] (VStr tok)
  | None => false
  end.

Lemma apply_acquire now ins d key m scope tok t lease :
  apply_update now ins (acquire_update key m scope tok t lease) d = Some (leased d key m scope tok t lease).
Proof. reflexivity. Qed.

Lemma upsert_acquire now i key m scope tok t lease :
  upsert_doc now (acquire_filter i t) (acquire_update key m scope tok t lease) =
  Some (leased {["_id"%string := VStr i]} key m scope tok t lease).
Proof. reflexivity. Qed.

Lemma leased_id d key m scope tok t lease : leased d key m scope tok t lease !! "_id"%string = d !! "_id"%string.
Proof. unfold leased. by doc_simp. Qed.

Lemma leased_owner d key m scope tok t lease tok' :
  owned_by tok' (Some (leased d key m scope tok t lease)) = String.eqb tok' tok.
Proof.
  unfold owned_by. rewrite match_eq_top_str with (v := VStr tok); [done| |done].
  unfold leased. by doc_simp.
Qed.

Lemma leased_lapsed d key m scope tok t lease t' :
  lapsed t' (leased d key m scope tok t lease) = (floor_ms (t + lease) <=? floor_ms t').
Proof.
  unfold lapsed, leased. simpl. rewrite lookup_insert_eq. simpl. unfold meets, rel_test. simpl.
  rewrite orb_false_r. unfold bson_cmp. simpl. unfold Z.leb. destruct (_ ?= _); done.
Qed.

Section AtId.
Context `{MongoConf}.

Lemma at_id_and now db c i f :
  db_wf db ->
  at_id now db c i (FAnd [FEq ["_id"%string] (VStr i); f]) =
  match db !! (c, i) with Some d => if matches now f d then Some d else None | None => None end.
Proof.
  intros Hwf. unfold at_id. destruct (db !! (c, i)) as [d|] eqn:Hd; [|done].
  simpl. apply Hwf in Hd. unfold doc_id in Hd. unfold match_eq at 1. simpl.
  destruct (d !! "_id"%string) as [v|]; [|done]. destruct v; try done. injection Hd as ->.
  unfold meets. simpl. rewrite String.eqb_refl. simpl. by rewrite andb_true_r.
Qed.

(** The atomic call of [_acquire] on a server that answers. *)
Lemma acquire_call now t c i key m scope tok lease db db' r :
  db_wf db ->
  mongo_ok now (MFindOneAndUpdate c (acquire_filter i t)
                  (acquire_update key m scope tok t lease) true true) db db' r ->
  match db !! (c, i) with
  | Some d =>
      if lapsed t d
      then (exists x, r = Ok x) /\ db' = <[(c, i) := leased d key m scope tok t lease]> db \/
           r = duplicate_key /\ db' = db /\
           unique_ok db c i (leased d key m scope tok t lease) = false
      else r = duplicate_key /\ db' = db
  | None =>
      (exists x, r = Ok x) /\
        db' = <[(c, i) := leased {["_id"%string := VStr i]} key m scope tok t lease]> db \/
      r = duplicate_key /\ db' = db /\
        unique_ok db c i (leased {["_id"%string := VStr i]} key m scope tok t lease) = false
  end.
Proof.
  intros Hwf Hm. apply mongo_ok_find_one_and_update with (i := i) in Hm; [|done|apply keyed_and].
  unfold acquire_filter in Hm at 1. rewrite at_id_and in Hm by done.
  assert (Hins : forall d', doc_id d' = Some i -> forall x,
    inserts db c (Some d') x db' r ->
    match db !! (c, i) with
    | Some _ => r = duplicate_key /\ db' = db
    | None => stores db c i d' (x d') db' r
    end).
  { intros d' Hid x Hi. unfold inserts in Hi. rewrite Hid in Hi. destruct (db !! (c, i)); [|done].
    simpl in Hi. by destruct Hi. }
  assert (Hid : doc_id (leased {["_id"%string := VStr i]} key m scope tok t lease) = Some i).
  { unfold doc_id. rewrite leased_id. by rewrite lookup_singleton_eq. }
  destruct (db !! (c, i)) as [d|] eqn:Hd.
  - assert (lapsed t d = matches now (FRel RLte ["expires_at"%string] (VDate true t)) d) as -> by done.
    destruct (matches now _ d) eqn:Hl.
    + unfold updates in Hm. rewrite apply_acquire in Hm. rewrite decide_True in Hm by apply leased_id.
      unfold stores in Hm. destruct (unique_ok _ _ _ _) eqn:Hu; destruct Hm as [-> ->]; [left|right]; eauto.
    + rewrite upsert_acquire in Hm. apply (Hins _ Hid) in Hm. done.
  - rewrite upsert_acquire in Hm. apply (Hins _ Hid) in Hm. unfold stores in Hm.
    destruct (unique_ok _ _ _ _) eqn:Hu; destruct Hm as [-> ->]; [left|right]; eauto.
Qed.

Lemma at_id_owned now db c key m cons tok :
  db_wf db ->
  at_id now db c (claim_id key m cons) (_owned_claim_filter key m cons tok) =
  if owned_by tok (db !! (c, claim_id key m cons)) then db !! (c, claim_id key m cons) else None.
Proof.
  intros Hwf. unfold _owned_claim_filter. fold (claim_id key m cons). rewrite at_id_and by done.
  unfold owned_by. by destruct (db !! _).
Qed.

(** The owner's deletion of its lease. *)
Lemma delete_owned_call now c key m cons tok db db' r :
  db_wf db ->
  mongo_ok now (MDeleteOne c (_owned_claim_filter key m cons tok)) db db' r ->
  if owned_by tok (db !! (c, claim_id key m cons))
  then r = Ok 1 /\ db' = delete (c, claim_id key m cons) db
  else r = Ok 0 /\ db' = db.
Proof.
  intros Hwf Hm. apply mongo_ok_delete_one with (i := claim_id key m cons) in Hm; [|done|apply keyed_and].
  rewrite at_id_owned in Hm by done. destruct (owned_by _ _) eqn:Hown; [|by destruct Hm].
  unfold owned_by in Hown. destruct (db !! _); [|done]. by destruct Hm.
Qed.
End AtId.

(** ** Sequential behaviour *)

Section Proofs.
Context {E : Type -> Type} {S : Type} `{MongoConf} `{ExtSpec E S}.
Implicit Types (w : world S) (st : EventClaimStore).

Lemma db_step_trans w w' w'' : db_step w w' -> db_step w' w'' -> db_step w w''.
Proof. intros (? & ? & ?) (? & ? & ?). repeat split; congruence || lia. Qed.
Lemma same_db_step w w' w'' : same_but_time w w' -> db_step w' w'' -> db_step w w''.
Proof. intros (? & ? & ? & ?) (? & ? & ?). repeat split; congruence || lia. Qed.

(** The lease taken in the slot at time [t]. *)
Definition takes_lease st key m cons tok lease w w' : Prop :=
  exists t, w_now w <= t <= w_now w' /\
    let base := default {["_id"%string := VStr (claim_id key m cons)]}
                  (w_db w !! (cs_claims st, claim_id key m cons)) in
    match w_db w !! (cs_claims st, claim_id key m cons) with Some d => lapsed t d = true | None => True end /\
    w_db w' = <[(cs_claims st, claim_id key m cons) :=
                 leased base key m (scope_of cons m) tok t lease]> (w_db w).

(** The slot refuses: a live lease, or a secondary index. *)
Definition lease_refused st key m cons tok lease w w' : Prop :=
  exists t, w_now w <= t <= w_now w' /\
    match w_db w !! (cs_claims st, claim_id key m cons) with
    | Some d => lapsed t d = false \/
        unique_ok (w_db w) (cs_claims st) (claim_id key m cons) (leased d key m (scope_of cons m) tok t lease) = false
    | None => unique_ok (w_db w) (cs_claims st) (claim_id key m cons)
        (leased {["_id"%string := VStr (claim_id key m cons)]} key m (scope_of cons m) tok t lease) = false
    end.

Lemma acquire_outcomes st key m cons tok lease w :
  db_wf (w_db w) ->
  wp (_acquire (E := E) st key m cons tok lease)
    (fun w' r => db_step w w' /\
       (r = Ok true /\ takes_lease st key m cons tok lease w w' \/
        r = Ok false /\ w_db w' = w_db w /\ lease_refused st key m cons tok lease w w' \/
        r = auto_reconnect /\ (w_db w' = w_db w \/ takes_lease st key m cons tok lease w w'))) w.
Proof.
  intros Hwf. unfold _acquire. apply wp_now. intros w1 H1. apply wp_catch.
  assert (Hcall : forall w2 r, db_step w1 w2 ->
    mongo_ok (w_now w2) (MFindOneAndUpdate (cs_claims st)
      (acquire_filter (claim_id key m cons) (w_now w1))
      (acquire_update key m (scope_of cons m) tok (w_now w1) lease) true true) (w_db w1) (w_db w2) r ->
    (exists x, r = Ok x) /\ takes_lease st key m cons tok lease w w2 \/
    r = duplicate_key /\ w_db w2 = w_db w /\ lease_refused st key m cons tok lease w w2).
  { intros w2 r Hs Hm. destruct H1 as (Hdb & _ & _ & Ht1), Hs as (_ & _ & Ht2). rewrite Hdb in Hm.
    apply acquire_call in Hm; [|done]. unfold takes_lease, lease_refused.
    destruct (w_db w !! _) as [d|]; simpl.
    - destruct (lapsed (w_now w1) d) eqn:Hl.
      + destruct Hm as [[Hx Hd]|(-> & Hd & Hu)]; [left|right]; split; try done.
        * exists (w_now w1). split; [lia|]. done.
        * split; [done|]. exists (w_now w1). split; [lia|]. by right.
      + destruct Hm as [-> Hd]. right. split; [done|]. split; [done|].
        exists (w_now w1). split; [lia|]. by left.
    - destruct Hm as [[Hx Hd]|(-> & Hd & Hu)]; [left|right]; split; try done.
      + exists (w_now w1). split; [lia|]. done.
      + split; [done|]. exists (w_now w1). split; [lia|]. done. }
  apply wp_mongo.
  - intros w2 r Hm Hs. pose proof (same_db_step _ _ _ H1 Hs) as Hst.
    destruct (Hcall w2 r Hs Hm) as [[[x ->] Ht]|(-> & Hd & Hr)]; split; auto.
  - intros w2 Hs Hor. pose proof (same_db_step _ _ _ H1 Hs) as Hst. simpl. split; [done|].
    right; right. split; [done|]. destruct Hor as [Hd|[r Hm]].
    + left. destruct H1 as (<- & _). done.
    + destruct (Hcall w2 r Hs Hm) as [[_ Ht]|(_ & Hd & _)]; auto.
Qed.

Lemma takes_lease_wf st key m cons tok lease w w' :
  db_wf (w_db w) -> takes_lease st key m cons tok lease w w' -> db_wf (w_db w').
Proof.
  intros Hwf (t & _ & _ & ->). apply db_wf_insert; [done|]. unfold doc_id. rewrite leased_id.
  destruct (w_db w !! _) as [d|] eqn:Hd; simpl; [|by rewrite lookup_singleton_eq].
  apply Hwf in Hd. done.
Qed.

Lemma release_outcomes st key m cons tok w :
  db_wf (w_db w) ->
  wp (release (E := E) st key m cons tok)
    (fun w' r => db_step w w' /\
       let slot := (cs_claims st, claim_id key m cons) in
       let mine := owned_by tok (w_db w !! slot) in
       (r = Ok mine /\ w_db w' = (if mine then delete slot (w_db w) else w_db w)) \/
       (r = auto_reconnect /\ (w_db w' = w_db w \/ mine = true /\ w_db w' = delete slot (w_db w)))) w.
Proof.
  intros Hwf. unfold release. apply wp_mongo.
  - intros w' r Hm Hs. apply delete_owned_call in Hm; [|done].
    destruct (owned_by _ _); destruct Hm as [-> Hd]; simpl; auto.
  - intros w' Hs Hor. split; [done|]. right. split; [done|]. destruct Hor as [Hd|[r Hm]]; [by left|].
    apply delete_owned_call in Hm; [|done]. destruct (owned_by _ _); destruct Hm as [_ Hd]; auto.
Qed.

Lemma release_wf st key m cons tok w :
  db_wf (w_db w) -> wp (release (E := E) st key m cons tok) (fun w' _ => db_wf (w_db w')) w.
Proof.
  intros Hwf. eapply wp_mono; [by apply release_outcomes|]. simpl.
  intros w' r [_ [[_ ->]|[_ [->|[_ ->]]]]]; try destruct (owned_by _ _); auto using db_wf_delete.
Qed.
End Proofs.

Lemma marked_at_congr db db' c key m cons t :
  (forall i, db' !! (c, i) = db !! (c, i)) -> marked_at db' c key m cons t = marked_at db c key m cons t.
Proof. intros Hd. unfold marked_at. by rewrite !Hd. Qed.

Lemma max_attempts_pos wait poll : 1 <= max_attempts wait poll.
Proof. unfold max_attempts. destruct (0 <? poll); lia. Qed.

(** The sleeps between all the attempts cover the whole wait. *)
Lemma max_attempts_cover wait poll : 0 < poll -> wait <= (max_attempts wait poll - 1) * poll.
Proof.
  intros Hp. unfold max_attempts, ceil_div. apply Z.ltb_lt in Hp as Hb. rewrite Hb.
  replace (Z.max 1 (- (- wait / poll)) + 1 - 1) with (Z.max 1 (- (- wait / poll))) by lia.
  pose proof (Z.mul_div_le (- wait) poll Hp). nia.
Qed.

Section ClaimLoop.
Context {E : Type -> Type} {S : Type} `{MongoConf} `{ExtSpec E S}.
Variable st : EventClaimStore.
Variables (key m : string) (cons : option string) (tok : string) (lease : Z).
Hypothesis Haware : tz_aware = true.
Hypothesis Hcol : cs_claims st <> is_collection (cs_completed st).
Abbreviation slot := (cs_claims st, claim_id key m cons).
Abbreviation is_marked db t := (marked_at db (is_collection (cs_completed st)) key m cons t).

(** The outcome of a claim that started in [w0] and may wait until [due]. *)
Definition claim_post (w0 : world S) (due : Z) (w' : world S) (r : result ClaimOutcome) : Prop :=
  match r with
  | Ok CLAIMED => owned_by tok (w_db w' !! slot) = true /\ is_marked (w_db w0) (w_now w') = false /\
      forall k, k <> slot -> w_db w' !! k = w_db w0 !! k
  | Ok COMPLETED => is_marked (w_db w0) (w_now w0) = true
  | Ok TIMED_OUT => w_db w' = w_db w0 /\ due <= w_now w'
  | Err e => r = auto_reconnect
  end.

Lemma other_slot (db db' : database) i :
  (forall k, k <> slot -> db' !! k = db !! k) ->
  db' !! (is_collection (cs_completed st), i) = db !! (is_collection (cs_completed st), i).
Proof using Hcol. intros Hk. apply Hk. intros [= He _]. by apply Hcol. Qed.

Lemma claim_loop_post (w0 : world S) deadline budget due :
  db_wf (w_db w0) -> due <= deadline -> due <= w_now w0 + (budget - 1) * cs_poll st ->
  forall fuel attempts w,
    Z.of_nat fuel = budget - attempts -> (1 <= fuel)%nat ->
    w_db w = w_db w0 -> w_now w0 <= w_now w -> w_now w0 + attempts * cs_poll st <= w_now w ->
    wp (claim_loop (E := E) st key m cons tok lease deadline budget fuel attempts)
      (claim_post w0 due) w.
Proof using Haware Hcol.
  intros Hwf Hdue Hcover. induction fuel as [|fuel IH]; intros attempts w Hf Hpos Hdb Hle Hslept; [lia|].
  cbn [claim_loop]. apply wp_bind. eapply wp_mono; [apply is_duplicate_reads; [by rewrite Hdb|done]|].
  intros w1 r (H1 & [->|(b & -> & Hbt & Hbf)]); [exact eq_refl|]. rewrite Hdb in *.
  assert (Hback : forall t, w_now w0 <= t -> is_marked (w_db w0) t = true -> is_marked (w_db w0) (w_now w0) = true).
  { intros t Ht. by apply marked_at_mono. }
  destruct b; [simpl; eauto|]. destruct H1 as (Hdb1 & _ & _ & Ht1). rewrite Hdb in Hdb1.
  apply wp_bind. eapply wp_mono; [apply acquire_outcomes; by rewrite Hdb1|].
  intros w2 r [(_ & _ & Ht2) Hr]. destruct r as [acq|e].
  2:{ destruct Hr as [[? _]|[[? _]|[[= ->] _]]]; [done|done|exact eq_refl]. }
  assert (Hw2 : db_wf (w_db w2) /\ (forall k, k <> slot -> w_db w2 !! k = w_db w0 !! k) /\
    (acq = true -> owned_by tok (w_db w2 !! slot) = true) /\ (acq = false -> w_db w2 = w_db w0)).
  { rewrite <- Hdb1. destruct Hr as [([=] & Ht)|[([=] & Hd & _)|([=] & _)]]; subst acq.
    - split; [by eapply takes_lease_wf; [rewrite Hdb1|]|]. destruct Ht as (t & _ & _ & ->). split; [|split; [|done]].
      + intros k Hk. by rewrite lookup_insert_ne.
      + intros _. rewrite lookup_insert_eq, leased_owner. apply String.eqb_refl.
    - rewrite Hd, Hdb1. done. }
  destruct Hw2 as (Hwf2 & Hk2 & Hown & Hsame). clear Hr.
  apply wp_bind. eapply wp_mono; [by apply is_duplicate_reads|].
  intros w3 r (H3 & [->|(b & -> & Hbt3 & Hbf3)]); [exact eq_refl|].
  assert (Hm2 : forall t, is_marked (w_db w2) t = is_marked (w_db w0) t).
  { intros t. apply marked_at_congr. intros i. by apply other_slot. }
  rewrite !Hm2 in *. destruct H3 as (Hdb3 & _ & _ & Ht3).
  destruct b.
  { apply wp_bind. eapply wp_mono; [apply release_outcomes; by rewrite Hdb3|].
    intros w4 r4 (_ & [(-> & _)|(-> & _)]); [|exact eq_refl]. simpl. apply (Hback (w_now w2)); [lia|auto]. }
  destruct acq; simpl negb; cbv iota.
  { simpl. rewrite Hdb3. auto. }
  specialize (Hsame eq_refl). destruct (budget <=? attempts + 1) eqn:Hb.
  { apply Z.leb_le in Hb. simpl. split; [congruence|]. assert (attempts = budget - 1) as -> by lia. lia. }
  apply Z.leb_gt in Hb. apply wp_now. intros w4 (Hdb4 & _ & _ & Ht4).
  destruct (deadline <=? w_now w4) eqn:Hd.
  { apply Z.leb_le in Hd. simpl. split; [congruence|lia]. }
  apply wp_sleep. intros w5 (Hdb5 & _ & _ & Ht5) Hsl. apply IH; try lia. congruence.
Qed.
End ClaimLoop.

Section Theorems.
Context {E : Type -> Type} {S : Type} `{MongoConf} `{ExtSpec E S}.
Implicit Types (w : world S) (st : EventClaimStore).

(** C15: [_acquire] is one atomic compare-and-set of the slot: it answers
    [True] exactly when it stored its own lease over a free or lapsed one,
    [False] without a write when a live lease (or an index) refused it; a
    lost connection leaves one of the two. *)
Theorem acquire_spec st key m cons tok lease w :
  db_wf (w_db w) ->
  wp (_acquire (E := E) st key m cons tok lease)
    (fun w' r => db_step w w' /\
       (r = Ok true /\ takes_lease st key m cons tok lease w w' \/
        r = Ok false /\ w_db w' = w_db w /\ lease_refused st key m cons tok lease w w' \/
        r = auto_reconnect /\ (w_db w' = w_db w \/ takes_lease st key m cons tok lease w w'))) w.
Proof. apply acquire_outcomes. Qed.

(** Fencing.  A caller that no longer owns the lease completes nothing:
    [complete] answers [False] and writes neither the marker nor the slot. *)
Theorem complete_fenced st key m cons tok w :
  db_wf (w_db w) -> owned_by tok (w_db w !! (cs_claims st, claim_id key m cons)) = false ->
  wp (complete (E := E) st key m cons tok)
    (fun w' r => same_but_time w w' /\ (r = Ok false \/ r = auto_reconnect)) w.
Proof.
  intros Hwf Hown. unfold complete. eapply wp_find_one with (i := claim_id key m cons); [done|apply keyed_and| |].
  - intros w' Hs. rewrite at_id_owned, Hown by done. simpl. auto.
  - auto.
Qed.

(** The owner of the lease completes: on [True] the marker is stored; the
    slot is left free or, when its cleanup fails, to the lease's owner, and
    no other document changes. *)
Theorem complete_owned st key m cons tok w :
  db_wf (w_db w) -> cs_claims st <> is_collection (cs_completed st) ->
  owned_by tok (w_db w !! (cs_claims st, claim_id key m cons)) = true ->
  wp (complete (E := E) st key m cons tok)
    (fun w' r =>
       (r = Ok true -> exists t, w_now w <= t <= w_now w' /\
          w_db w' !! (is_collection (cs_completed st), claim_id key m cons) =
            Some (marker (cs_completed st) key m cons t)) /\
       (r = Ok false -> w_db w' !! (is_collection (cs_completed st), claim_id key m cons) =
          w_db w !! (is_collection (cs_completed st), claim_id key m cons)) /\
       (forall e, r = Err e -> r = auto_reconnect) /\
       forall k, k <> (cs_claims st, claim_id key m cons) ->
         k <> (is_collection (cs_completed st), claim_id key m cons) -> w_db w' !! k = w_db w !! k) w.
Proof.
  intros Hwf Hne Hown. unfold complete. set (mk := (is_collection (cs_completed st), claim_id key m cons)).
  set (slot := (cs_claims st, claim_id key m cons)) in *.
  assert (Hms : mk <> slot) by (intros [=]; congruence).
  eapply wp_find_one with (i := claim_id key m cons); [done|apply keyed_and| |]; cycle 1.
  { intros w' (Hd & _). split; [done|]. split; [done|]. split; [done|]. intros k _ _. by rewrite Hd. }
  intros w1 H1. rewrite at_id_owned by done. fold slot. rewrite Hown.
  unfold owned_by in Hown. destruct (w_db w !! slot) as [d|]; [|done]. cbn [fmap option_fmap option_map].
  destruct H1 as (Hdb1 & _ & _ & Ht1). apply wp_bind.
  eapply wp_mono; [apply wp_and; [apply mark_processed_spec|apply mark_processed_wf; by rewrite Hdb1]|].
  cbn beta zeta. fold (claim_id key m cons) mk. rewrite Hdb1. intros w2 r [[(_ & _ & Ht2) Hr] Hwf2].
  assert (Hk : forall k, k <> mk -> w_db w2 !! k = w_db w !! k).
  { intros k Hk. destruct Hr as [(_ & t & _ & _ & ->)|[(_ & -> & _)|(_ & [->|(t & _ & _ & ->)])]]; try done;
      by rewrite lookup_insert_ne. }
  destruct r as [b|e].
  2:{ split; [done|]. split; [done|]. split; [|auto].
      intros e' [= <-]. destruct Hr as [[? _]|[[? _]|[Hr _]]]; done. }
  apply wp_bind, wp_catch, wp_mongo.
  all: assert (Hmk : (b = true -> exists t, w_now w <= t <= w_now w2 /\
         w_db w2 !! mk = Some (marker (cs_completed st) key m cons t)) /\
         (b = false -> w_db w2 !! mk = w_db w !! mk));
    [split; intros ->; destruct Hr as [([=] & t & Ht & _ & ->)|[([=] & -> & _)|([=] & _)]];
       [exists t; split; [lia|apply lookup_insert_eq]|done]|].
  all: destruct Hmk as [Hmt Hmf].
  all: assert (Hfin : forall w3, db_step w2 w3 -> (w_db w3 = w_db w2 \/ w_db w3 = delete slot (w_db w2)) ->
    ((Ok b = Ok true -> exists t, w_now w <= t <= w_now w3 /\
          w_db w3 !! mk = Some (marker (cs_completed st) key m cons t)) /\
       (Ok b = Ok false -> w_db w3 !! mk = w_db w !! mk) /\
       (forall e : exn, Ok b = Err e -> Ok b = auto_reconnect) /\
       forall k, k <> slot -> k <> mk -> w_db w3 !! k = w_db w !! k));
    [intros w3 (_ & _ & Ht3) Hor;
     assert (Hd : forall k, k <> slot -> w_db w3 !! k = w_db w2 !! k)
       by (intros k Hks; destruct Hor as [->| ->]; [done|by rewrite lookup_delete_ne]);
     split; [|split; [|split]]; [|intros [= ->]; rewrite Hd; auto|done|intros k Hks Hkm; rewrite Hd; auto];
     intros [= ->]; destruct (Hmt eq_refl) as (t & Ht & He); exists t; rewrite Hd by done; split; [lia|done]|].
  - intros w3 r Hm Hs. apply delete_owned_call in Hm; [|done]. fold slot in Hm.
    destruct (owned_by _ _); destruct Hm as [-> Hd]; apply Hfin; auto.
  - intros w3 Hs Hor. apply Hfin; [done|]. destruct Hor as [Hd|[r Hm]]; [auto|].
    apply delete_owned_call in Hm; [|done]. fold slot in Hm. destruct (owned_by _ _); destruct Hm as [_ Hd]; auto.
Qed.

(** C13: what a claim answers, when nobody else writes.  It always answers
    (the attempt budget is enough, [OutOfFuel] is not among the outcomes):
    [CLAIMED] leaves the lease with the caller and no live marker, and changes
    no other document; [COMPLETED] only for a key that was marked;
    [TIMED_OUT] only after the whole wait, with nothing written. *)
Theorem claim_outcomes st key m cons tok lease wait w :
  db_wf (w_db w) -> tz_aware = true -> cs_claims st <> is_collection (cs_completed st) ->
  0 < cs_poll st ->
  wp (claim (E := E) st key m cons tok lease wait)
    (claim_post st key m cons tok w (w_now w + default_to (cs_wait st) wait)) w.
Proof.
  intros Hwf Htz Hcol Hpoll. unfold claim. apply wp_now. intros w1 (Hdb & _ & _ & Ht).
  set (wt := default_to (cs_wait st) wait). pose proof (max_attempts_pos wt (cs_poll st)).
  pose proof (max_attempts_cover wt (cs_poll st) Hpoll).
  apply claim_loop_post; try done; try lia.
Qed.
End Theorems.

(** ** The gates use their two collections only *)

Definition store_cols (st : EventClaimStore) : list string := [cs_claims st; is_collection (cs_completed st)].
Definition gate_cols (g : EventGate) : list string :=
  match g with LeaseGate st _ _ => store_cols st | LegacyGate s _ _ => [is_collection s] end.
Definition handle_cols (h : GateHandle) : list string :=
  match h with LeaseHandle st _ => store_cols st | LegacyHandle s _ _ _ => [is_collection s] end.

Section Frame.
Context {E : Type -> Type}.

Lemma within_is_duplicate cols st key m cons :
  In (is_collection st) cols -> within cols (is_duplicate (E := E) st key m cons).
Proof.
  intros Hc. assert (Hactive : forall o, within cols (_document_is_active (E := E) o)).
  { intros o. unfold _document_is_active. within_tac. }
  unfold is_duplicate, find_by_id. within_tac.
Qed.
Lemma within_mark_processed cols st key m cons :
  In (is_collection st) cols -> within cols (mark_processed (E := E) st key m cons).
Proof. intros Hc. unfold mark_processed. within_tac. Qed.
Lemma within_release cols st key m cons tok :
  In (cs_claims st) cols -> within cols (release (E := E) st key m cons tok).
Proof. intros Hc. unfold release. within_tac. Qed.
#[local] Hint Resolve within_is_duplicate within_mark_processed within_release : zeler.

Lemma store_cols_claims st : In (cs_claims st) (store_cols st).
Proof. by left. Qed.
Lemma store_cols_completed st : In (is_collection (cs_completed st)) (store_cols st).
Proof. right. by left. Qed.
Lemma in_single {A} (a : A) : In a [a].
Proof. by left. Qed.
#[local] Hint Resolve store_cols_claims store_cols_completed in_single : zeler.

Lemma within_claim st key m cons tok lease wait :
  within (store_cols st) (claim (E := E) st key m cons tok lease wait).
Proof.
  unfold claim. apply within_bind; [apply within_now|]. intros start.
  generalize (Z.to_nat (max_attempts (default_to (cs_wait st) wait) (cs_poll st))) as fuel.
  generalize 0 as attempts. intros attempts fuel. revert attempts.
  induction fuel as [|fuel IH]; intros attempts; [done|]. cbn [claim_loop]. unfold _acquire. within_tac.
Qed.
#[local] Hint Resolve within_claim : zeler.

Lemma within_event_claim g key : within (gate_cols g) (event_claim (E := E) g key).
Proof.
  destruct g as [st m c|s m c]; cbn [event_claim gate_cols].
  - unfold gate_claim, gate_claim_as. within_tac.
  - unfold legacy_claim. within_tac.
Qed.
Lemma within_event_complete h : within (handle_cols h) (event_complete (E := E) h).
Proof.
  destruct h as [st h|s m c key]; cbn [event_complete handle_cols].
  - unfold handle_complete, complete. within_tac.
  - unfold legacy_complete. within_tac.
Qed.
Lemma within_event_release h : within (handle_cols h) (event_release (E := E) h).
Proof. destruct h as [st h|s m c key]; cbn [event_release handle_cols]; [unfold handle_release|]; within_tac. Qed.

Context {S : Type} `{MongoConf} `{ExtSpec E S}.
Abbreviation quiet := (guarded (S := S) ext_same).
Lemma quiet_event_claim g key : quiet (event_claim (E := E) g key).
Proof. eapply within_quiet, within_event_claim. Qed.
Lemma quiet_event_complete h : quiet (event_complete (E := E) h).
Proof. eapply within_quiet, within_event_complete. Qed.
Lemma quiet_event_release h : quiet (event_release (E := E) h).
Proof. eapply within_quiet, within_event_release. Qed.

(** The handle a gate answers with is on its collections. *)
Lemma event_claim_cols g key (w : world S) :
  wp (event_claim (E := E) g key) (fun _ r => forall h, r = Ok (Some h) -> handle_cols h = gate_cols g) w.
Proof.
  destruct g as [st m c|s m c]; cbn [event_claim gate_cols].
  - apply wp_quiet_bind; [eapply within_quiet; unfold gate_claim, gate_claim_as; within_tac|..].
    + intros w' [h|] _ h'; by intros [= <-].
    + by intros w' e _ h'.
  - apply wp_quiet_bind; [eapply within_quiet; unfold legacy_claim; within_tac|..].
    + intros w' [] _ h'; by intros [= <-].
    + by intros w' e _ h'.
Qed.
End Frame.
#[export] Hint Resolve quiet_event_claim quiet_event_complete quiet_event_release : zeler.

(** ** Witnesses *)

Definition sample_claims : EventClaimStore := default_claim_store "processed_event_claims" sample_store.
(** The key is leased to [owner-a] until two minutes after day one. *)
Definition leased_db : database :=
  {[ ("processed_event_claims"%string, "repricer.items:evt-1"%string) :=
       leased {["_id"%string := VStr "repricer.items:evt-1"]} "evt-1" "repricer" "repricer.items" "owner-a" day (120 * second) ]}.
Definition leased_world : world unit := World leased_db (day + second) None tt.

Lemma acquire_spec_witness :
  let _ := aware_conf in
  wp (_acquire (E := noE) sample_claims "evt-1" "repricer" (Some "repricer.items"%string) "owner-b" (120 * second))
    (fun w' r => db_step leased_world w' /\
       (r = Ok true /\ takes_lease sample_claims "evt-1" "repricer" (Some "repricer.items"%string) "owner-b" (120 * second) leased_world w' \/
        r = Ok false /\ w_db w' = w_db leased_world /\
          lease_refused sample_claims "evt-1" "repricer" (Some "repricer.items"%string) "owner-b" (120 * second) leased_world w' \/
        r = auto_reconnect /\ (w_db w' = w_db leased_world \/
          takes_lease sample_claims "evt-1" "repricer" (Some "repricer.items"%string) "owner-b" (120 * second) leased_world w')))
    leased_world /\
  (run (_acquire (E := noE) sample_claims "evt-1" "repricer" (Some "repricer.items"%string) "owner-b" (120 * second))
     leased_world).2 = Ok false.
Proof.
  intros conf. split; [|by vm_compute]. apply (acquire_spec (H := conf)). apply db_wfb_ok. by vm_compute.
Defined.

Lemma complete_fenced_witness :
  let _ := aware_conf in
  wp (complete (E := noE) sample_claims "evt-1" "repricer" (Some "repricer.items"%string) "owner-b")
    (fun w' r => same_but_time leased_world w' /\ (r = Ok false \/ r = auto_reconnect)) leased_world.
Proof.
  intros conf. apply (complete_fenced (H := conf)); [apply db_wfb_ok; by vm_compute|by vm_compute].
Defined.

Lemma complete_owned_witness :
  let _ := aware_conf in
  wp (complete (E := noE) sample_claims "evt-1" "repricer" (Some "repricer.items"%string) "owner-a")
    (fun w' r =>
       (r = Ok true -> exists t, day + second <= t <= w_now w' /\
          w_db w' !! ("processed_events"%string, "repricer.items:evt-1"%string) =
            Some (marker sample_store "evt-1" "repricer" (Some "repricer.items"%string) t)) /\
       (r = Ok false -> w_db w' !! ("processed_events"%string, "repricer.items:evt-1"%string) =
          leased_db !! ("processed_events"%string, "repricer.items:evt-1"%string)) /\
       (forall e, r = Err e -> r = auto_reconnect) /\
       forall k, k <> ("processed_event_claims"%string, "repricer.items:evt-1"%string) ->
         k <> ("processed_events"%string, "repricer.items:evt-1"%string) -> w_db w' !! k = leased_db !! k)
    leased_world.
Proof.
  intros conf. apply (complete_owned (H := conf) sample_claims "evt-1" "repricer" (Some "repricer.items"%string));
    [apply db_wfb_ok; by vm_compute|done|by vm_compute].
Defined.

Lemma claim_outcomes_witness :
  let _ := aware_conf in
  wp (claim (E := noE) sample_claims "evt-1" "repricer" (Some "repricer.items"%string) "owner-b" None None)
    (claim_post sample_claims "evt-1" "repricer" (Some "repricer.items"%string) "owner-b" leased_world
       (day + second + 30 * second)) leased_world /\
  (run (claim (E := noE) sample_claims "evt-1" "repricer" (Some "repricer.items"%string) "owner-b" None None)
     leased_world).2 = Ok TIMED_OUT.
Proof.
  intros conf. split; [|by vm_compute].
  apply (claim_outcomes (H := conf) sample_claims "evt-1" "repricer" (Some "repricer.items"%string) "owner-b" None None);
    [apply db_wfb_ok; by vm_compute|done|done|done].
Defined.
