(* ===== verification/ClaimsConcurrency.v ===== *)
(** Concurrent deliveries of one event.

    [deliver] is a consumer's use of the gate of core/.../events/claim_gate.py
    (the skeleton of every consumer's [handle]): claim the key, run the external
    side effect, complete the claim, release it when anything raised.  The file
    proves what the lease is for: whatever the interleaving and whichever calls
    lose their connection, two deliveries never run the side effect at the same
    time, and no delivery runs it after another one finished. *)

From S2P Require Export Concurrency Claims.

(** ** The side effect, as an observable interval *)

Inductive effect : Type -> Type :=
| EBegin : effect unit
| EEnd : effect unit.

Record effects := Effects { running : Z; finished : Z }.

(** The effect ends successfully, or raises without having been applied. *)
#[export] Instance effect_spec : ExtSpec effect effects := fun X e =>
  match e in effect X return effects -> effects -> result X -> Prop with
  | EBegin => fun s s' r => s' = Effects (running s + 1) (finished s) /\ r = Ok tt
  | EEnd => fun s s' r =>
      s' = Effects (running s - 1) (finished s + 1) /\ r = Ok tt \/
      s' = Effects (running s - 1) (finished s) /\ exists e, r = Err e /\ exn_cls e <> "EventClaimTimeoutError"%string
  end.

Definition deliver (st : EventClaimStore) (module_id consumer_id key owner_token : string) :
    prog effect bool :=
  let* handle := gate_claim_as st module_id consumer_id key owner_token in
  match handle with
  | None => Ret false
  | Some h =>
      catch
        (do* ext EBegin in
         do* ext EEnd in
         do* handle_complete st h in
         Ret true)
        (fun exc => do* attempt (handle_release st h) in Raise exc)
  end.

(** ** Counting programs in a state *)

Definition count {G} (p : G -> bool) (gs : list G) : Z := Z.of_nat (length (List.filter p gs)).

Lemma count_insert {G} (p : G -> bool) gs i g g' :
  gs !! i = Some g -> count p (<[i := g']> gs) = count p gs - Z.b2z (p g) + Z.b2z (p g').
Proof.
  unfold count. revert i. induction gs as [|x gs IH]; intros [|i] Hi; simpl in Hi; try done.
  - injection Hi as ->. simpl. destruct (p g), (p g'); simpl; lia.
  - specialize (IH i Hi). change (<[S i := g']> (x :: gs)) with (x :: <[i := g']> gs).
    simpl. destruct (p x); simpl; lia.
Qed.

(** At most one program satisfies a predicate that determines its index. *)
Lemma count_le_1 {G} (p : G -> bool) gs :
  (forall i j g h, gs !! i = Some g -> gs !! j = Some h -> p g = true -> p h = true -> i = j) ->
  count p gs <= 1.
Proof.
  unfold count. induction gs as [|x gs IH]; intros Hu; simpl; [lia|].
  assert (IH' : Z.of_nat (length (List.filter p gs)) <= 1).
  { apply IH. intros i j g h Hi Hj Hg Hh. specialize (Hu (S i) (S j) g h Hi Hj Hg Hh). lia. }
  destruct (p x) eqn:Hx; [|done]. simpl. destruct (List.filter p gs) as [|y l] eqn:Hf; [simpl; lia|].
  assert (Hin : In y (List.filter p gs)) by (rewrite Hf; by left). apply filter_In in Hin as [Hin Hy].
  apply list_elem_of_In, list_elem_of_lookup in Hin as (j & Hj).
  specialize (Hu 0%nat (S j) x y eq_refl Hj Hx Hy). lia.
Qed.

(** ** The invariant *)

(** Where a delivery stands. *)
Inductive phase := Idle | Held | Claimed | Running | After | Marked | Failed.
#[export] Instance phase_eq_dec : EqDecision phase.
Proof. solve_decision. Defined.

(** It owns the lease. *)
Definition holding (g : phase) : bool :=
  match g with Held | Claimed | Running | After => true | _ => false end.
(** It passed the check that follows the acquisition. *)
Definition exclusive (g : phase) : bool :=
  match g with Claimed | Running | After => true | _ => false end.
Definition is_running (g : phase) : bool := match g with Running => true | _ => false end.
(** Its side effect is applied. *)
Definition applied (g : phase) : bool := match g with After | Marked | Failed => true | _ => false end.

Section AtMostOnce.
Context `{MongoConf}.
Variable st : EventClaimStore.
Variables key m c : string.
Variable toks : list string. (* the owner token drawn by each delivery *)
Variable start : Z.

Definition horizon : Z := floor_ms (start + cs_lease st).
Abbreviation slot := (cs_claims st, claim_id key m (Some c)).
Abbreviation mslot := (is_collection (cs_completed st), claim_id key m (Some c)).

(** The deployment: two collections, a marker that outlives the lease, no
    index that refuses markers, tokens that [uuid4] never repeats. *)
Record deployment : Prop := {
  dep_collections : cs_claims st <> is_collection (cs_completed st);
  dep_retention : cs_lease st <= is_retention (cs_completed st);
  dep_unique : forall db t, unique_ok db (is_collection (cs_completed st)) (claim_id key m (Some c)) (marker (cs_completed st) key m (Some c) t) = true;
  dep_tokens : NoDup toks;
}.
Hypothesis Hdep : deployment.

Definition leased_to (db : database) (i : nat) : Prop :=
  exists tok d, toks !! i = Some tok /\ db !! slot = Some d /\
    d !! "owner_token"%string = Some (VStr tok) /\ forall t, t < horizon -> lapsed t d = false.

(** The marker is live until the horizon. *)
Definition marked (db : database) : Prop :=
  exists d us, db !! mslot = Some d /\ expiry d = Some us /\ horizon <= us.

Record inv (gs : list phase) (w : world effects) : Prop := {
  inv_wf : db_wf (w_db w);
  inv_start : start <= w_now w;
  inv_marker : w_db w !! mslot = None \/ marked (w_db w);
  inv_lease : forall i g, gs !! i = Some g -> holding g = true -> leased_to (w_db w) i;
  inv_exclusive : forall i g, gs !! i = Some g -> exclusive g = true -> w_db w !! mslot = None;
  inv_marked : forall i, gs !! i = Some Marked -> marked (w_db w);
  inv_marked_one : forall i j, gs !! i = Some Marked -> gs !! j = Some Marked -> i = j;
  inv_running : running (w_ext w) = count is_running gs;
  inv_finished : finished (w_ext w) = count applied gs;
}.

Lemma holders_agree gs w i j g h :
  inv gs w -> gs !! i = Some g -> gs !! j = Some h -> holding g = true -> holding h = true -> i = j.
Proof.
  intros Hi Hg Hh Hhg Hhh.
  destruct (inv_lease _ _ Hi _ _ Hg Hhg) as (t1 & d1 & Ht1 & Hd1 & Ho1 & _).
  destruct (inv_lease _ _ Hi _ _ Hh Hhh) as (t2 & d2 & Ht2 & Hd2 & Ho2 & _).
  simplify_eq. exact (NoDup_lookup _ _ _ _ (dep_tokens Hdep) Ht1 Ht2).
Qed.

Lemma marked_some db : marked db -> db !! mslot <> None.
Proof. intros (d & us & -> & _). done. Qed.

Lemma inv_time gs w w' : inv gs w -> same_but_time w w' -> inv gs w'.
Proof.
  intros [] (Hdb & Hsn & He & Ht). constructor; rewrite ?Hdb, ?He; try done. lia.
Qed.

(** A delivery moves on: what its new phase claims must hold. *)
Lemma inv_move gs w w' i g g' :
  inv gs w -> gs !! i = Some g ->
  db_wf (w_db w') -> w_now w <= w_now w' ->
  w_db w' !! mslot = w_db w !! mslot \/ (g' = Marked /\ exclusive g = true /\ marked (w_db w')) ->
  (forall j h, j <> i -> gs !! j = Some h -> holding h = true -> w_db w' !! slot = w_db w !! slot) ->
  (holding g' = true -> leased_to (w_db w') i) ->
  (exclusive g' = true -> w_db w' !! mslot = None) ->
  (g' = Marked -> g = Marked \/ exclusive g = true /\ marked (w_db w')) ->
  running (w_ext w') = running (w_ext w) - Z.b2z (is_running g) + Z.b2z (is_running g') ->
  finished (w_ext w') = finished (w_ext w) - Z.b2z (applied g) + Z.b2z (applied g') ->
  inv (<[i := g']> gs) w'.
Proof.
  intros Hi Hg Hwf Ht Hm Hs Hl Hx Hmk Hr Hf.
  assert (Hlook : forall j h, <[i := g']> gs !! j = Some h -> j = i /\ h = g' \/ j <> i /\ gs !! j = Some h).
  { intros j h Hj. apply list_lookup_insert_Some in Hj as [(-> & -> & _)|[Hne Hj]]; auto. }
  assert (Hmarked : forall j, <[i := g']> gs !! j = Some Marked -> j = i /\ g' = Marked \/ gs !! j = Some Marked).
  { intros j Hj. destruct (Hlook _ _ Hj) as [[-> <-]|[_ Hj']]; auto. }
  assert (Hfresh : exclusive g = true -> forall j, gs !! j = Some Marked -> False).
  { intros He j Hj. apply (inv_marked _ _ Hi) in Hj. apply marked_some in Hj.
    by rewrite (inv_exclusive _ _ Hi _ _ Hg He) in Hj. }
  assert (Hkeep : marked (w_db w) -> marked (w_db w')).
  { destruct Hm as [Hm|(_ & _ & Hm)]; [|done]. unfold marked. by rewrite Hm. }
  constructor; try done.
  - pose proof (inv_start _ _ Hi). lia.
  - destruct (inv_marker _ _ Hi) as [Hn|Hmm]; [|right; auto].
    destruct Hm as [Hm|(_ & _ & Hm)]; [left; congruence|by right].
  - intros j h Hj Hh. destruct (Hlook _ _ Hj) as [[-> ->]|[Hne Hj']]; [auto|].
    destruct (inv_lease _ _ Hi _ _ Hj' Hh) as (tok & d & Htok & Hd & Ho & Hlap).
    exists tok, d. rewrite (Hs _ _ Hne Hj' Hh). auto.
  - intros j h Hj Hh. destruct (Hlook _ _ Hj) as [[-> ->]|[Hne Hj']]; [auto|].
    destruct Hm as [->|(_ & He & _)]; [by apply (inv_exclusive _ _ Hi _ _ Hj')|].
    exfalso. apply Hne. eapply holders_agree; eauto; [by destruct h|by destruct g].
  - intros j Hj. destruct (Hmarked _ Hj) as [[-> ->]|Hj']; [|by apply Hkeep, (inv_marked _ _ Hi j)].
    destruct (Hmk eq_refl) as [->|[_ Hmm]]; [by apply Hkeep, (inv_marked _ _ Hi i)|done].
  - intros j k Hj Hk. destruct (Hmarked _ Hj) as [[-> He]|Hj'], (Hmarked _ Hk) as [[-> He']|Hk'];
      try done; try (by apply (inv_marked_one _ _ Hi)).
    + destruct (Hmk He) as [->|[Hex _]]; [by apply (inv_marked_one _ _ Hi)|by destruct (Hfresh Hex k)].
    + destruct (Hmk He') as [->|[Hex _]]; [by apply (inv_marked_one _ _ Hi)|by destruct (Hfresh Hex j)].
  - rewrite Hr, (inv_running _ _ Hi). symmetry. by apply count_insert.
  - rewrite Hf, (inv_finished _ _ Hi). symmetry. by apply count_insert.
Qed.

(** *** Calls of one delivery *)

Abbreviation safe := (cwp (E := effect) (S := effects) inv horizon).
Abbreviation sid := (claim_id key m (Some c)).

(** A lost connection, the only failure of a driver call that reaches the
    delivery, is not the gate's timeout. *)
Definition no_timeout {A} (r : result A) : Prop :=
  match r with Ok _ => True | Err e => exn_cls e <> "EventClaimTimeoutError"%string end.

Lemma safe_now {B} (k : Z -> prog effect B) Q i g :
  (forall t, start <= t -> t < horizon -> safe (k t) Q i g) -> safe (bind now_utc k) Q i g.
Proof.
  intros Hk. apply cwp_bind, cwp_perform. intros gs w w' r Hg Hi [Hs ->] Hl.
  pose proof (inv_time _ _ _ Hi Hs) as Hi'. exists g. rewrite list_insert_id by done. split; [done|].
  apply Hk; [apply (inv_start _ _ Hi')|done].
Qed.

Lemma safe_sleep {B} us (k : unit -> prog effect B) Q i g :
  safe (k tt) Q i g -> safe (bind (sleep us) k) Q i g.
Proof.
  intros Hk. apply cwp_bind, cwp_perform. intros gs w w' r Hg Hi (Hs & _ & ->) Hl.
  exists g. rewrite list_insert_id by done. split; [by eapply inv_time|done].
Qed.

Lemma safe_find {B} col f s j (k : option doc -> prog effect B) Q i g :
  keyed f j ->
  (forall gs w, gs !! i = Some g -> inv gs w -> w_now w < horizon ->
    exists g', inv (<[i := g']> gs) w /\ safe (k (dec <$> at_id (w_now w) (w_db w) col j f)) Q i g') ->
  Q g auto_reconnect ->
  safe (bind (mongo (MFindOne col f s)) k) Q i g.
Proof.
  intros Hk Hok Hlost. apply cwp_bind, cwp_perform. intros gs w w' r Hg Hi (Hm & Hsn & He & Ht) Hl.
  pose proof (inv_wf _ _ Hi) as Hwf.
  assert (Hread : forall x, mongo_ok (w_now w') (MFindOne col f s) (w_db w) (w_db w') x ->
    w_db w' = w_db w /\ x = Ok (dec <$> at_id (w_now w') (w_db w) col j f)).
  { intros x. by apply mongo_ok_find_one. }
  destruct Hm as [Hm|[-> Hm]].
  - apply Hread in Hm as [Hdb ->]. assert (Hi' : inv gs w') by (by eapply inv_time).
    destruct (Hok gs w' Hg Hi' Hl) as (g' & Hi2 & Hsafe). exists g'. rewrite Hdb in Hsafe. done.
  - exists g. rewrite list_insert_id by done. split; [|done]. eapply inv_time; [done|].
    destruct Hm as [Hm|[x Hm]]; [done|]. by apply Hread in Hm as [Hdb _].
Qed.

(** A read that teaches nothing. *)
Lemma safe_read {B} col f s j (k : option doc -> prog effect B) Q i g :
  keyed f j -> (forall o, safe (k (dec <$> o)) Q i g) -> Q g auto_reconnect ->
  safe (bind (mongo (MFindOne col f s)) k) Q i g.
Proof.
  intros Hk Hok Hlost. eapply safe_find; [done| |done]. intros gs w Hg Hi Hl.
  exists g. rewrite list_insert_id by done. auto.
Qed.

Lemma safe_active o Q i g :
  (forall b, (forall d us, o = Some d -> expiry d = Some us -> horizon <= us -> b = true) -> Q g (Ok b)) ->
  Q g (raise_type "can't compare offset-naive and offset-aware datetimes") ->
  safe (_document_is_active (dec <$> o)) Q i g.
Proof.
  intros Hb Hn. unfold _document_is_active. destruct o as [d|]; [|by apply Hb]. cbn [fmap option_fmap option_map].
  assert (Hnone : expiry d = None -> Q g (Ok false)).
  { intros He. apply Hb. intros ? us [= <-]. congruence. }
  rewrite doc_get_dec. unfold expiry in *. destruct (doc_get d "expires_at") as [| | | |aw us| |] eqn:Hd;
    simpl is_date; cbv iota; try (by apply Hnone).
  apply safe_now. intros t _ Ht. apply cwp_of_result. simpl. destruct tz_aware; simpl; [|done].
  apply Hb. intros d' us' [= <-]. rewrite Hd. intros [= ->] Hle. apply Z.ltb_lt. lia.
Qed.

(** Checking the marker: a delivery that holds the lease and is told the key
    is not processed has read an empty marker slot. *)
Definition checked (g : phase) (g' : phase) (r : result bool) : Prop :=
  no_timeout r /\ (g' = g /\ (g = Held -> r <> Ok false) \/ g = Held /\ g' = Claimed).

Lemma safe_is_duplicate i g :
  safe (is_duplicate (cs_completed st) key (Some m) (Some c)) (checked g) i g.
Proof.
  unfold is_duplicate, find_by_id, _scoped_processed_event_id. fold (claim_id key m (Some c)).
  assert (Hrest : forall g', g' = g /\ g <> Held \/ g = Held /\ g' = Claimed ->
    safe (let* legacy_document := mongo (MFindOne (is_collection (cs_completed st)) (FEq ["_id"%string] (VStr key)) []) in
        match legacy_document with
        | None => Ret false
        | Some legacy =>
            if negb (py_eq (doc_get legacy "module_id") (VStr m)) then Ret false
            else if has_key legacy "consumer_id" && negb (py_eq (doc_get legacy "consumer_id") (VStr c))
            then Ret false
            else _document_is_active (Some legacy)
        end) (checked g) i g').
  { intros g' Hg'. assert (Hq : forall r, no_timeout r -> checked g g' r).
    { intros r Hr. split; [done|]. destruct Hg' as [[-> Hn]|Hc]; [left|by right]. split; [done|]. congruence. }
    eapply safe_read with (j := key); [apply keyed_id| |by apply Hq].
    intros [legacy|]; cbn [fmap option_fmap option_map]; [|by apply Hq].
    destruct (negb _); [by apply Hq|]. destruct (_ && _); [by apply Hq|].
    change (Some (dec legacy)) with (dec <$> Some legacy). apply safe_active; intros; by apply Hq. }
  eapply safe_find with (j := sid); [apply keyed_id| |].
  2:{ split; [done|]. left. split; [done|]. done. }
  intros gs w Hg Hi Hl. rewrite at_id_eq by apply (inv_wf _ _ Hi).
  assert (Hcont : forall g', (g = Held -> g' = Held -> marked (w_db w)) ->
    g' = g \/ g = Held /\ g' = Claimed ->
    safe (let* active := _document_is_active (dec <$> w_db w !! mslot) in
        if (active : bool) then Ret true
        else let* legacy_document := mongo (MFindOne (is_collection (cs_completed st)) (FEq ["_id"%string] (VStr key)) []) in
        match legacy_document with
        | None => Ret false
        | Some legacy =>
            if negb (py_eq (doc_get legacy "module_id") (VStr m)) then Ret false
            else if has_key legacy "consumer_id" && negb (py_eq (doc_get legacy "consumer_id") (VStr c))
            then Ret false
            else _document_is_active (Some legacy)
        end) (checked g) i g').
  { intros g' Hmk Hg'. apply cwp_bind, safe_active.
    - intros b Hb. destruct b.
      + split; [done|]. destruct Hg' as [->|Hc]; [left|by right]. done.
      + apply Hrest. destruct Hg' as [->|Hc]; [|by right]. left. split; [done|]. intros ->.
        destruct (Hmk eq_refl eq_refl) as (d & us & Hd & Hus & Hle). specialize (Hb d us Hd Hus Hle). done.
    - split; [done|]. destruct Hg' as [->|Hc]; [left|by right]. done. }
  destruct (decide (g = Held)) as [->|Hne].
  - destruct (inv_marker _ _ Hi) as [Hn|Hmk].
    + exists Claimed. split; [|apply Hcont; [done|auto]]. eapply inv_move; eauto; try done.
      * apply (inv_wf _ _ Hi).
      * intros _. by apply (inv_lease _ _ Hi _ _ Hg).
      * simpl. lia.
      * simpl. lia.
    + exists Held. rewrite list_insert_id by done. split; [done|]. apply Hcont; auto.
  - exists g. rewrite list_insert_id by done. split; [done|]. apply Hcont; auto. congruence.
Qed.

Lemma leased_to_db db db' i : db' !! slot = db !! slot -> leased_to db i -> leased_to db' i.
Proof. intros Hs. unfold leased_to. by rewrite Hs. Qed.

Lemma leased_leased_to db i tok base t :
  toks !! i = Some tok -> start <= t ->
  leased_to (<[slot := leased base key m (scope_of (Some c) m) tok t (cs_lease st)]> db) i.
Proof.
  intros Htok Ht. eexists tok, _. split; [done|]. split; [apply lookup_insert_eq|]. split.
  - unfold leased. by doc_simp.
  - intros t' Ht'. rewrite leased_lapsed. apply Z.leb_gt.
    assert (floor_ms t' <= t').
    { unfold floor_ms, millisecond. pose proof (Z.mul_div_le t' 1000). lia. }
    assert (horizon <= floor_ms (t + cs_lease st)); [|lia].
    unfold horizon, floor_ms, millisecond. apply Z.mul_le_mono_nonneg_r; [lia|]. apply Z.div_le_mono; lia.
Qed.

Lemma mslot_ne_slot : mslot <> slot.
Proof. intros [= He]. by apply (dep_collections Hdep). Qed.

(** Taking the lease: nobody else can be holding it. *)
Lemma inv_take gs w w' i tok base t g' :
  inv gs w -> gs !! i = Some Idle -> toks !! i = Some tok -> start <= t < horizon ->
  w_now w <= w_now w' -> w_ext w' = w_ext w ->
  match w_db w !! slot with Some d => lapsed t d = true | None => True end ->
  base !! "_id"%string = Some (VStr sid) ->
  w_db w' = <[slot := leased base key m (scope_of (Some c) m) tok t (cs_lease st)]> (w_db w) ->
  g' = Idle \/ g' = Held ->
  inv (<[i := g']> gs) w'.
Proof.
  intros Hi Hg Htok Ht Hnow He Hfree Hid Hdb Hg'. pose proof mslot_ne_slot as Hne.
  apply (inv_move _ _ _ _ _ _ Hi Hg); rewrite ?He; try done.
  - rewrite Hdb. apply db_wf_insert; [apply (inv_wf _ _ Hi)|]. unfold doc_id. by rewrite leased_id, Hid.
  - left. rewrite Hdb. by rewrite lookup_insert_ne.
  - intros j h _ Hj Hh. destruct (inv_lease _ _ Hi _ _ Hj Hh) as (tj & d & _ & Hd & _ & Hlap).
    rewrite Hd in Hfree. rewrite Hlap in Hfree by lia. done.
  - intros _. rewrite Hdb. apply leased_leased_to; [done|lia].
  - by destruct Hg' as [->| ->].
  - by destruct Hg' as [->| ->].
  - destruct Hg' as [->| ->]; simpl; lia.
  - destruct Hg' as [->| ->]; simpl; lia.
Qed.

Lemma safe_acquire i tok :
  toks !! i = Some tok ->
  safe (_acquire st key m (Some c) tok (cs_lease st))
    (fun g r => no_timeout r /\ g = match r with Ok true => Held | _ => Idle end) i Idle.
Proof.
  intros Htok. unfold _acquire. apply safe_now. intros t Ht0 Ht1. apply cwp_catch, cwp_bind, cwp_perform.
  intros gs w w' r Hg Hi (Hm & Hsn & He & Ht) Hl. pose proof (inv_wf _ _ Hi) as Hwf.
  assert (Hsame : w_db w' = w_db w -> inv (<[i := Idle]> gs) w').
  { intros Hdb. rewrite list_insert_id by done. by eapply inv_time. }
  assert (Hcall : forall x, mongo_ok (w_now w') (MFindOneAndUpdate (cs_claims st) (acquire_filter sid t)
      (acquire_update key m (scope_of (Some c) m) tok t (cs_lease st)) true true) (w_db w) (w_db w') x ->
    (exists y, x = Ok y) /\ (forall g', g' = Idle \/ g' = Held -> inv (<[i := g']> gs) w') \/
    x = duplicate_key /\ inv (<[i := Idle]> gs) w').
  { intros x Hx. apply acquire_call in Hx; [|done].
    assert (Htake : forall base, match w_db w !! slot with Some d => lapsed t d = true | None => True end ->
      base !! "_id"%string = Some (VStr sid) ->
      w_db w' = <[slot := leased base key m (scope_of (Some c) m) tok t (cs_lease st)]> (w_db w) ->
      forall g', g' = Idle \/ g' = Held -> inv (<[i := g']> gs) w').
    { intros base Hf Hid Hd g' Hg'. eapply inv_take; eauto. }
    destruct (w_db w !! slot) as [d|] eqn:Hd.
    - assert (Hid : d !! "_id"%string = Some (VStr sid)).
      { apply Hwf in Hd. unfold doc_id in Hd. destruct (d !! _) as [v|]; [|done]. by destruct v; simplify_eq. }
      destruct (lapsed t d) eqn:Hlap.
      + destruct Hx as [[Hy Hdb]|(-> & Hdb & _)]; [left|right]; eauto.
      + destruct Hx as [-> Hdb]. right. auto.
    - destruct Hx as [[Hy Hdb]|(-> & Hdb & _)]; [left|right]; split; try done; auto.
      eapply Htake; [done| |done]. apply lookup_singleton_eq. }
  destruct Hm as [Hm|[-> Hor]].
  - destruct (Hcall _ Hm) as [[[y ->] Hinv]|[-> Hinv]]; [exists Held|exists Idle]; split; auto; by split.
  - exists Idle. split; [|by split]. destruct Hor as [Hdb|[x Hm]]; [auto|].
    destruct (Hcall _ Hm) as [[_ Hinv]|[_ Hinv]]; auto.
Qed.

(** Dropping the lease. *)
Definition dropped (g : phase) : phase :=
  match g with After | Failed => Failed | Marked => Marked | _ => Idle end.

Lemma inv_drop gs w w' i tok g :
  inv gs w -> gs !! i = Some g -> g <> Running -> toks !! i = Some tok ->
  w_now w <= w_now w' -> w_ext w' = w_ext w ->
  w_db w' = w_db w \/ owned_by tok (w_db w !! slot) = true /\ w_db w' = delete slot (w_db w) ->
  inv (<[i := dropped g]> gs) w'.
Proof.
  intros Hi Hg Hr Htok Hnow He Hdb. pose proof mslot_ne_slot as Hne.
  apply (inv_move _ _ _ _ _ _ Hi Hg); rewrite ?He; try done.
  - destruct Hdb as [->|[_ ->]]; [|apply db_wf_delete]; apply (inv_wf _ _ Hi).
  - left. destruct Hdb as [->|[_ ->]]; [done|by rewrite lookup_delete_ne].
  - intros j h Hji Hj Hh. destruct Hdb as [->|[Hown ->]]; [done|exfalso].
    destruct (inv_lease _ _ Hi _ _ Hj Hh) as (tj & d & Htj & Hd & Ho & _).
    rewrite Hd in Hown. simpl in Hown. rewrite (match_eq_top_str _ _ _ _ Ho) in Hown by done.
    simpl in Hown. apply String.eqb_eq in Hown as ->. apply Hji.
    exact (NoDup_lookup _ _ _ _ (dep_tokens Hdep) Htj Htok).
  - by destruct g.
  - by destruct g.
  - intros Hd. left. by destruct g.
  - by destruct g; simpl; lia || done.
  - destruct g; simpl; lia.
Qed.

Lemma safe_release i tok g :
  toks !! i = Some tok -> g <> Running ->
  safe (release st key m (Some c) tok) (fun g' r => no_timeout r /\ g' = dropped g) i g.
Proof.
  intros Htok Hr. unfold release. apply cwp_bind, cwp_perform.
  intros gs w w' r Hg Hi (Hm & Hsn & He & Ht) Hl. exists (dropped g).
  assert (Hcall : forall x, mongo_ok (w_now w') (MDeleteOne (cs_claims st) (_owned_claim_filter key m (Some c) tok))
      (w_db w) (w_db w') x -> inv (<[i := dropped g]> gs) w' /\ exists n, x = Ok n).
  { intros x Hx. apply delete_owned_call in Hx; [|apply (inv_wf _ _ Hi)].
    destruct (owned_by _ _) eqn:Hown; destruct Hx as [-> Hd]; (split; [|eauto]); eapply inv_drop; eauto. }
  destruct Hm as [Hm|[-> [Hd|[x Hm]]]].
  - destruct (Hcall _ Hm) as [Hinv [n ->]]. split; [done|by split].
  - split; [|by split]. eapply inv_drop; eauto.
  - destruct (Hcall _ Hm) as [Hinv _]. split; [done|by split].
Qed.

Lemma safe_claim_loop i tok deadline budget fuel attempts :
  toks !! i = Some tok ->
  safe (claim_loop st key m (Some c) tok (cs_lease st) deadline budget fuel attempts)
    (fun g r => match r with
       | Ok CLAIMED => g = Claimed
       | Ok _ => g = Idle
       | Err e => (g = Idle \/ g = Held \/ g = Claimed) /\ no_timeout r
       end) i Idle.
Proof.
  intros Htok. revert attempts. induction fuel as [|fuel IH]; intros attempts; cbn [claim_loop]; [split; [by left|done]|].
  apply cwp_bind. eapply cwp_mono; [apply safe_is_duplicate|]. intros g r [Hn [[-> _]|[? _]]]; [|done].
  destruct r as [done|e]; [|by split; [left|]]. destruct done; [by simpl|].
  apply cwp_bind. eapply cwp_mono; [by apply safe_acquire|]. intros g r [Hn2 ->].
  destruct r as [acq|e]; [|by split; [left|]].
  apply cwp_bind. eapply cwp_mono; [apply safe_is_duplicate|]. intros g r [Hn3 Hg].
  destruct r as [done|e].
  2:{ split; [|done]. destruct acq; destruct Hg as [[-> _]|[Hh ->]]; simpl in *; auto; done. }
  destruct done.
  { apply cwp_bind. eapply cwp_mono; [apply (safe_release i tok); [done|]|].
    - destruct acq; destruct Hg as [[-> _]|[_ ->]]; done.
    - intros g' r [Hn4 ->]. destruct acq; destruct Hg as [[-> _]|[Hh ->]]; try done; destruct r; simpl; auto. }
  destruct acq; simpl.
  { destruct Hg as [[-> Hf]|[_ ->]]; [|done]. by destruct Hf. }
  destruct Hg as [[-> _]|[? _]]; [|done].
  destruct (budget <=? attempts + 1); [done|]. apply safe_now. intros t _ _.
  destruct (deadline <=? t); [done|]. apply safe_sleep, IH.
Qed.

Lemma safe_gate i tok :
  toks !! i = Some tok ->
  safe (gate_claim_as st m c key tok)
    (fun g r => match r with
       | Ok (Some h) => g = Claimed /\
           h = {| ch_key := key; ch_module_id := m; ch_consumer_id := c; ch_owner_token := tok |}
       | Ok None => g = Idle
       | Err e => g = Idle \/ g = Held \/ g = Claimed
       end) i Idle.
Proof.
  intros Htok. apply cwp_bind. unfold claim. apply safe_now. intros t _ _. simpl default_to.
  eapply cwp_mono; [by apply safe_claim_loop|]. intros g r. destruct r as [[| |]|e]; simpl.
  - intros ->. done.
  - done.
  - intros ->. by left.
  - by intros [Hg _].
Qed.

(** The marker is written while the lease is still held. *)
Lemma safe_mark i :
  safe (mark_processed (cs_completed st) key m (Some c))
    (fun g r => match r with
       | Ok b => b = true /\ g = Marked
       | Err e => (g = After \/ g = Marked) /\ no_timeout r
       end) i After.
Proof.
  unfold mark_processed. apply safe_now. intros t Ht0 Ht1. apply cwp_catch, cwp_bind, cwp_perform.
  intros gs w w' r Hg Hi (Hm & Hsn & He & Ht) Hl. pose proof mslot_ne_slot as Hne.
  set (mk := marker (cs_completed st) key m (Some c) t).
  assert (Hins : forall x, mongo_ok (w_now w') (MInsertOne (is_collection (cs_completed st))
      (processed_document key m (scope_of (Some c) m) t (is_retention (cs_completed st)))) (w_db w) (w_db w') x ->
    x = Ok tt /\ w_db w' = <[mslot := mk]> (w_db w)).
  { intros x Hx. unfold mongo_ok, inserts in Hx. change (encode_doc _) with mk in Hx.
    unfold mk in Hx at 1. rewrite marker_id in Hx. fold (claim_id key m (Some c)) in Hx.
    rewrite (inv_exclusive _ _ Hi _ _ Hg eq_refl) in Hx. simpl in Hx. unfold stores in Hx.
    pose proof (dep_unique Hdep (w_db w) t) as Hu; fold mk in Hu; rewrite Hu in Hx. by destruct Hx. }
  assert (Hmark : w_db w' = <[mslot := mk]> (w_db w) -> inv (<[i := Marked]> gs) w').
  { intros Hd. assert (Hmk : marked (w_db w')).
    { exists mk, (floor_ms (t + is_retention (cs_completed st))). rewrite Hd, lookup_insert_eq.
      split; [done|]. split; [apply marker_expiry|]. unfold horizon, floor_ms, millisecond.
      apply Z.mul_le_mono_nonneg_r; [lia|]. apply Z.div_le_mono; [lia|].
      pose proof (dep_retention Hdep). lia. }
    apply (inv_move _ _ _ _ _ _ Hi Hg); rewrite ?He; try done; auto.
    - rewrite Hd. apply db_wf_insert; [apply (inv_wf _ _ Hi)|apply marker_id].
    - intros _ _ _ _ _. rewrite Hd. by rewrite lookup_insert_ne.
    - simpl. lia.
    - simpl. lia. }
  destruct Hm as [Hm|[-> [Hd|[x Hm]]]].
  - destruct (Hins _ Hm) as [-> Hd]. exists Marked. split; [auto|by split].
  - exists After. rewrite list_insert_id by done. split; [by eapply inv_time|]. split; [by left|done].
  - destruct (Hins _ Hm) as [_ Hd]. exists Marked. split; [auto|]. split; [by right|done].
Qed.

Lemma safe_complete i tok :
  toks !! i = Some tok ->
  safe (complete st key m (Some c) tok)
    (fun g r => match r with
       | Ok b => b = true /\ g = Marked
       | Err e => (g = After \/ g = Marked) /\ no_timeout r
       end) i After.
Proof.
  intros Htok. unfold complete. eapply safe_find with (j := sid); [apply keyed_and| |split; [by left|done]].
  intros gs w Hg Hi Hl. rewrite at_id_owned by apply (inv_wf _ _ Hi).
  destruct (inv_lease _ _ Hi _ _ Hg eq_refl) as (tok' & d & Htok' & Hd & Ho & _).
  rewrite Htok in Htok'. injection Htok' as <-. rewrite Hd.
  assert (Hown : owned_by tok (Some d) = true).
  { simpl. rewrite (match_eq_top_str _ _ _ _ Ho) by done. simpl. apply String.eqb_refl. }
  rewrite Hown. exists After. rewrite list_insert_id by done. split; [done|]. cbn [fmap option_fmap option_map].
  apply cwp_bind. eapply cwp_mono; [apply safe_mark|]. intros g r Hr. destruct r as [b|e]; [|done].
  destruct Hr as [-> ->]. apply cwp_bind, cwp_catch.
  apply (cwp_mono _ _ _ (fun g r => g = Marked /\ (exists n, r = Ok n) \/ g = Marked /\ r = auto_reconnect)).
  - apply cwp_bind, cwp_perform. intros gs' w1 w2 r Hg' Hi' (Hm & Hsn & He & Ht) Hl'. exists Marked.
    assert (Hinv : w_db w2 = w_db w1 \/
        owned_by tok (w_db w1 !! slot) = true /\ w_db w2 = delete slot (w_db w1) ->
      inv (<[i := Marked]> gs') w2).
    { intros Hdb. by eapply (inv_drop _ _ _ _ _ Marked). }
    assert (Hcall : forall x, mongo_ok (w_now w2) (MDeleteOne (cs_claims st) (_owned_claim_filter key m (Some c) tok))
        (w_db w1) (w_db w2) x -> inv (<[i := Marked]> gs') w2 /\ exists n, x = Ok n).
    { intros x Hx. apply delete_owned_call in Hx; [|apply (inv_wf _ _ Hi')].
      destruct (owned_by tok (w_db w1 !! slot)) eqn:Hown1; destruct Hx as [-> Hd2]; (split; [apply Hinv|]; eauto). }
    destruct Hm as [Hm|[-> [Hd2|[x Hm]]]].
    + destruct (Hcall _ Hm) as [Hinv2 [n ->]]. split; [done|]. simpl. left. eauto.
    + split; [auto|by right].
    + destruct (Hcall _ Hm) as [Hinv2 _]. split; [done|by right].
  - intros g r [[-> [n ->]]|[-> ->]]; by simpl.
Qed.

Lemma safe_ext_begin {B} (k : unit -> prog effect B) Q i :
  safe (k tt) Q i Running -> safe (bind (ext EBegin) k) Q i Claimed.
Proof.
  intros Hk. apply cwp_bind, cwp_perform. intros gs w w' r Hg Hi ([Hs ->] & Hdb & _ & Ht) _.
  exists Running. split; [|done]. apply (inv_move _ _ _ _ _ _ Hi Hg); rewrite ?Hdb; auto; try done.
  - apply (inv_wf _ _ Hi).
  - intros _. by apply (inv_lease _ _ Hi _ _ Hg).
  - intros _. by apply (inv_exclusive _ _ Hi _ _ Hg).
  - rewrite Hs. simpl. lia.
  - rewrite Hs. simpl. lia.
Qed.

Lemma safe_ext_end {B} (k : unit -> prog effect B) Q i :
  safe (k tt) Q i After -> (forall e, exn_cls e <> "EventClaimTimeoutError"%string -> Q Claimed (Err e)) ->
  safe (bind (ext EEnd) k) Q i Running.
Proof.
  intros Hk Herr. apply cwp_bind, cwp_perform. intros gs w w' r Hg Hi (Hs & Hdb & _ & Ht) _.
  assert (Hmv : forall g, g = After \/ g = Claimed ->
    running (w_ext w') = running (w_ext w) - 1 ->
    finished (w_ext w') = finished (w_ext w) + Z.b2z (applied g) -> inv (<[i := g]> gs) w').
  { intros g Hg' H1 H2. apply (inv_move _ _ _ _ _ _ Hi Hg); rewrite ?Hdb; auto.
    - apply (inv_wf _ _ Hi).
    - intros _. by apply (inv_lease _ _ Hi _ _ Hg).
    - intros _. by apply (inv_exclusive _ _ Hi _ _ Hg).
    - by destruct Hg' as [->| ->].
    - rewrite H1. destruct Hg' as [->| ->]; simpl; lia.
    - rewrite H2. simpl. lia. }
  destruct Hs as [[Hs ->]|[Hs (e & -> & He)]]; [exists After|exists Claimed]; split; auto;
    apply Hmv; rewrite ?Hs; simpl; auto; lia.
Qed.

(** What a delivery that ended promises. *)
Definition ended (g : phase) (r : result bool) : Prop :=
  match r with
  | Ok true => g = Marked
  | Ok false => g = Idle
  | Err e => g <> Running /\ (applied g = true -> no_timeout r)
  end.

Lemma safe_deliver i tok :
  toks !! i = Some tok -> safe (deliver st m c key tok) ended i Idle.
Proof.
  intros Htok. apply cwp_bind. eapply cwp_mono; [by apply safe_gate|].
  intros g r Hr. destruct r as [[h|]|e]; [|done|].
  2:{ destruct Hr as [->|[->| ->]]; by split. }
  destruct Hr as [-> ->]. apply cwp_catch.
  assert (Hfail : forall g e, g <> Running -> exn_cls e <> "EventClaimTimeoutError"%string ->
    safe (do* attempt (handle_release st {| ch_key := key; ch_module_id := m; ch_consumer_id := c; ch_owner_token := tok |}) in
          Raise e) ended i g).
  { intros g e Hg He. apply cwp_bind, cwp_attempt. eapply cwp_mono; [by apply safe_release|].
    intros g' r [_ ->]. simpl. split; [by destruct g|done]. }
  apply safe_ext_begin, safe_ext_end; [|intros e He; by apply Hfail].
  apply cwp_bind. eapply cwp_mono; [by apply safe_complete|]. intros g r Hr.
  destruct r as [b|e]; [by destruct Hr|]. destruct Hr as [Hg He]. apply Hfail; [|done].
  by destruct Hg as [->| ->].
Qed.
End AtMostOnce.

(** ** The claims *)

Definition raised_otherwise (p : prog effect bool) : bool :=
  match p with Raise e => negb (String.eqb (exn_cls e) "EventClaimTimeoutError") | _ => false end.
Definition succeeded (p : prog effect bool) : bool := match p with Ret b => b | _ => false end.
Definition is_done (p : prog effect bool) : bool := match p with Vis _ _ => false | _ => true end.

Lemma count_sum_le {G P} (f : G -> bool) (g h : P -> bool) gs ps :
  length gs = length ps ->
  (forall i x p, gs !! i = Some x -> ps !! i = Some p -> Z.b2z (f x) <= Z.b2z (g p) + Z.b2z (h p)) ->
  count f gs <= count g ps + count h ps.
Proof.
  unfold count. revert ps. induction gs as [|x gs IH]; intros [|p ps] Hl Hle; try done.
  injection Hl as Hl. specialize (IH ps Hl (fun i => Hle (S i))). specialize (Hle 0%nat x p eq_refl eq_refl).
  simpl. destruct (f x), (g p), (h p); simpl in *; lia.
Qed.

(** The start of a race: no stale marker, no effect under way. *)
Record race_start `{MongoConf} (st : EventClaimStore) (key m c : string) (w : world effects) : Prop := {
  rs_wf : db_wf (w_db w);
  rs_marker : w_db w !! (is_collection (cs_completed st), claim_id key m (Some c)) = None \/
              marked st key m c (w_now w) (w_db w);
  rs_effects : w_ext w = Effects 0 0;
}.

Lemma race_invariant `{MongoConf} st key m c toks w ps' w' :
  deployment st key m c toks -> race_start st key m c w ->
  reach (horizon st (w_now w)) ((fun tok => deliver st m c key tok) <$> toks, w) (ps', w') ->
  exists gs, length gs = length ps' /\ inv st key m c toks (w_now w) gs w' /\
    forall i p, ps' !! i = Some p -> exists g, gs !! i = Some g /\
      cwp (inv st key m c toks (w_now w)) (horizon st (w_now w)) p ended i g.
Proof.
  intros Hdep [Hwf Hmk He] Hr.
  eapply (reach_ok (inv st key m c toks (w_now w)) _ (fun _ => ended)) in Hr; [exact Hr|].
  exists ((fun _ => Idle) <$> toks). simpl.
  assert (Hidle : forall i g, ((fun _ : string => Idle) <$> toks) !! i = Some g -> g = Idle).
  { intros i g Hg. apply list_lookup_fmap_Some in Hg as (? & -> & _). done. }
  assert (Hcount : forall p : phase -> bool, p Idle = false -> count p ((fun _ : string => Idle) <$> toks) = 0).
  { intros p Hp. unfold count. clear -Hp. induction toks as [|t l IH]; simpl; [done|]. by rewrite Hp. }
  split; [by rewrite !length_fmap|]. split.
  - constructor; try done.
    + intros i g Hg. by rewrite (Hidle _ _ Hg).
    + intros i g Hg. by rewrite (Hidle _ _ Hg).
    + intros i Hg. by apply Hidle in Hg.
    + intros i j Hg. by apply Hidle in Hg.
    + by rewrite He, Hcount.
    + by rewrite He, Hcount.
  - intros i p Hp. apply list_lookup_fmap_Some in Hp as (tok & -> & Htok).
    exists Idle. split; [apply list_lookup_fmap_Some; by exists tok|]. by apply safe_deliver.
Qed.

(** C1: the lease serialises and deduplicates.  Any number of deliveries of one
    event race for less than one lease, their calls interleaved in any way, any
    of them losing its connection with or without effect.  Then at no time two
    of them run the side effect together; at most one delivery succeeds, and
    once it did no side effect is under way; when all have ended, the side
    effect was applied at most once more often than deliveries raised. *)
Theorem deliveries_exclusive `{MongoConf} st key m c toks w ps' w' :
  deployment st key m c toks -> race_start st key m c w ->
  reach (horizon st (w_now w)) ((fun tok => deliver st m c key tok) <$> toks, w) (ps', w') ->
  running (w_ext w') <= 1 /\
  (forall i j, ps' !! i = Some (Ret true) -> ps' !! j = Some (Ret true) -> i = j) /\
  (forall i, ps' !! i = Some (Ret true) -> running (w_ext w') = 0) /\
  (forallb is_done ps' = true -> finished (w_ext w') <= 1 + count raised_otherwise ps').
Proof.
  intros Hdep Hst Hr. destruct (race_invariant _ _ _ _ _ _ _ _ Hdep Hst Hr) as (gs & Hlen & Hi & Hp).
  assert (Hret : forall i, ps' !! i = Some (Ret true) -> gs !! i = Some Marked).
  { intros i Hi'. destruct (Hp _ _ Hi') as (g & Hg & ->). done. }
  assert (Hone : forall i j, ps' !! i = Some (Ret true) -> ps' !! j = Some (Ret true) -> i = j).
  { intros i j Hi1 Hj. apply (inv_marked_one _ _ _ _ _ _ _ _ Hi); auto. }
  split; [|split; [done|split]].
  - rewrite (inv_running _ _ _ _ _ _ _ _ Hi). apply count_le_1. intros i j g h Hg Hh Hgr Hhr.
    eapply holders_agree; eauto; [by destruct g|by destruct h].
  - intros i Hok. rewrite (inv_running _ _ _ _ _ _ _ _ Hi).
    destruct (List.filter is_running gs) as [|g l] eqn:Hf; [unfold count; by rewrite Hf|exfalso].
    assert (Hin : In g (List.filter is_running gs)) by (rewrite Hf; by left). apply filter_In in Hin as [Hin Hg].
    apply list_elem_of_In, list_elem_of_lookup in Hin as (j & Hj).
    pose proof (inv_marked _ _ _ _ _ _ _ _ Hi _ (Hret _ Hok)) as Hm. apply marked_some in Hm.
    rewrite (inv_exclusive _ _ _ _ _ _ _ _ Hi _ _ Hj) in Hm; [done|by destruct g].
  - intros Hdone. rewrite (inv_finished _ _ _ _ _ _ _ _ Hi).
    assert (Hsum : count applied gs <= count succeeded ps' + count raised_otherwise ps').
    { apply count_sum_le; [done|]. intros i g p Hg Hpi. destruct (Hp _ _ Hpi) as (g' & Hg' & Hc).
      rewrite Hg in Hg'. injection Hg' as <-.
      assert (Hd : is_done p = true).
      { rewrite forallb_forall in Hdone. apply Hdone, list_elem_of_In, list_elem_of_lookup. eauto. }
      destruct p as [[]|e|]; simpl in *; [by subst|by subst| |done].
      destruct Hc as [_ Hc]. destruct (applied g); [|simpl; destruct (String.eqb _ _); simpl; lia].
      specialize (Hc eq_refl). apply String.eqb_neq in Hc. rewrite Hc. simpl. lia. }
    assert (Hs : count succeeded ps' <= 1); [|lia].
    apply count_le_1. intros i j p q Hpi Hqj Hps Hqs. destruct p as [[]| |], q as [[]| |]; try done. auto.
Qed.

#[export] Instance effect_run : ExtRun effect effects := {
  ext_run := fun X e => match e in effect X return effects -> effects * result X with
    | EBegin => fun s => (Effects (running s + 1) (finished s), Ok tt)
    | EEnd => fun s => (Effects (running s - 1) (finished s + 1), Ok tt)
    end;
  uuid_run := fun _ => "0123456789abcdef0123456789abcdef"%string;
}.

Definition race_store : EventClaimStore := default_claim_store "processed_event_claims" sample_store.
Definition race_world : world effects := World ∅ day None (Effects 0 0).
Definition race_pool : list (prog effect bool) :=
  (fun tok => deliver race_store "repricer" "repricer.items" "evt-1" tok) <$> ["owner-a"; "owner-b"]%string.

(** Two deliveries, one after the other: the second one is a duplicate. *)
Lemma deliveries_exclusive_witness :
  let _ := aware_conf in
  exists ps' w',
    ps' = [Ret true; Ret false] /\ w_ext w' = Effects 0 1 /\
    reach (horizon race_store day) (race_pool, race_world) (ps', w') /\
    running (w_ext w') <= 1 /\
    (forall i j, ps' !! i = Some (Ret true) -> ps' !! j = Some (Ret true) -> i = j) /\
    (forall i, ps' !! i = Some (Ret true) -> running (w_ext w') = 0) /\
    (forallb is_done ps' = true -> finished (w_ext w') <= 1 + count raised_otherwise ps').
Proof.
  intros conf.
  set (r1 := run (deliver race_store "repricer" "repricer.items" "evt-1" "owner-a") race_world).
  set (r2 := run (deliver race_store "repricer" "repricer.items" "evt-1" "owner-b") r1.1).
  exists [Ret true; Ret false], r2.1. split; [done|]. split; [by vm_compute|].
  assert (Hr : reach (horizon race_store day) (race_pool, race_world) ([Ret true; Ret false], r2.1)).
  { assert (Hext : forall X (e : effect X) s, ext_spec X e s (ext_run X e s).1 (ext_run X e s).2).
    { intros X e s. destruct e; simpl; [done|by left]. }
    assert (Hu : forall s : effects, hex32 (uuid_run s) = true) by done.
    etrans.
    - apply (reach_run Hext Hu _ _ 0%nat); [done|by vm_compute].
    - etrans.
      + apply (reach_run Hext Hu _ _ 1%nat); [done|by vm_compute].
      + apply (eq_rect _ (fun x => rtc _ _ x) (rtc_refl _ _)). by vm_compute. }
  split; [exact Hr|]. apply (deliveries_exclusive race_store "evt-1" "repricer" "repricer.items" ["owner-a"; "owner-b"]%string race_world _ _).
  - constructor; [done|by vm_compute|done|]. apply (bool_decide_unpack _). by vm_compute.
  - constructor; [apply db_wfb_ok; by vm_compute|left; by vm_compute|done].
  - exact Hr.
Defined.
