(* ===== verification/Broker.v ===== *)
(** The broker side of the event consumers: incoming messages, their settlement
    and the retry-delay publisher, with the helpers the consumers share
    ([_x_death_count], the paused-account cache). *)

From S2P Require Export Claims.

(** ** Messages and settlements *)

Record message := Message {
  msg_body : string;
  msg_headers : option doc;
}.

Inductive settlement := Acked | Nacked (requeue : bool) | Delayed (ms : Z).
#[export] Instance settlement_eq_dec : EqDecision settlement.
Proof. solve_decision. Defined.

(** Calls on the message and on the delay publisher, beside the external
    services [E] of the handler. *)
Inductive amqp (E : Type -> Type) : Type -> Type :=
| AAck : amqp E unit
| ANack (requeue : bool) : amqp E unit
| APublishDelay (body : string) (queue : string) (ms : Z) : amqp E unit
| AService {X} (e : E X) : amqp E X.
Arguments AAck {E}.
Arguments ANack {E} requeue.
Arguments APublishDelay {E} body queue ms.
Arguments AService {E X} e.

Record amqp_state (S : Type) := AmqpState { settled : list settlement; service : S }.
Arguments AmqpState {S} _ _.
Arguments settled {S} _.
Arguments service {S} _.

(** Settling succeeds; publishing to the delay queue may fail. *)
#[export] Instance amqp_spec {E : Type -> Type} {S : Type} `{ExtSpec E S} : ExtSpec (amqp E) (amqp_state S) :=
  fun X e =>
    match e in amqp _ X return amqp_state S -> amqp_state S -> result X -> Prop with
    | AAck => fun s s' r => s' = AmqpState (settled s ++ [Acked]) (service s) /\ r = Ok tt
    | ANack b => fun s s' r => s' = AmqpState (settled s ++ [Nacked b]) (service s) /\ r = Ok tt
    | APublishDelay _ _ ms => fun s s' r =>
        s' = AmqpState (settled s ++ [Delayed ms]) (service s) /\ r = Ok tt \/
        s' = s /\ exists e, r = Err e
    | AService e => fun s s' r =>
        settled s' = settled s /\ ext_spec _ e (service s) (service s') r
    end.

(** Decoding a JSON text ([json.loads] of the UTF-8 body): third-party inputs
    reach the consumers through it. *)
Class PyJson := json_loads : string -> result val.

Definition limit_reached (death_count delivery_limit : Z) : bool := delivery_limit <=? death_count.

(** [_x_death_count]: the count of the first entry for the queue. *)
Definition _x_death_count (m : message) (queue_name : string) : Z :=
  let death_history :=
    match msg_headers m with
    | Some h => if Nat.eqb (size h) 0 then VList [] else doc_get_or h "x-death" (VList [])
    | None => VList []
    end in
  match death_history with
  | VList deaths =>
      (fix scan (deaths : list val) : Z :=
         match deaths with
         | [] => 0
         | VDict death :: rest =>
             let queue := doc_get death "queue" in
             if py_eq queue (VStr queue_name) || is_none queue
             then default_to 0 (as_int (doc_get_or death "count" (VInt 0)))
             else scan rest
         | _ :: rest => scan rest
         end) deaths
  | _ => 0
  end.

(** [_idempotency_key]: header, payload, then event id. *)
Definition _idempotency_key `{PyRepr} (m : message) (payload : doc) : result string :=
  match msg_headers m with
  | Some h =>
      if is_none (doc_get h "idempotency_key") then
        if is_none (doc_get payload "idempotency_key")
        then let! i := doc_at payload "event_id" in Ok (py_str i)
        else Ok (py_str (doc_get payload "idempotency_key"))
      else Ok (py_str (doc_get h "idempotency_key"))
  | None =>
      if is_none (doc_get payload "idempotency_key")
      then let! i := doc_at payload "event_id" in Ok (py_str i)
      else Ok (py_str (doc_get payload "idempotency_key"))
  end.

(** ** Paused accounts *)

(** [_account_status_cache]: per seller the status and when it was read. *)
Abbreviation status_cache := (gmap Z (option string * Z)).

Section Paused.
Context {E : Type -> Type} `{PyRepr}.

(** [_account_status_source_from_db]. *)
Definition account_status (seller_id : Z) : prog E val :=
  let* d := mongo (MFindOne "meli_accounts" (FEq ["seller_id"] (VStr (str_of_Z seller_id))) []) in
  let* d :=
    match d with
    | None => mongo (MFindOne "meli_accounts" (FEq ["seller_id"] (VInt seller_id)) [])
    | Some d => Ret (Some d)
    end in
  Ret (match d with
       | Some d => if Nat.eqb (size d) 0 then VNone else doc_get d "status"
       | None => VNone
       end).

(** [_account_is_paused], with the cache it reads and writes. *)
Definition _account_is_paused (has_source : bool) (cache : status_cache) (seller_id : Z) :
    prog E (bool * status_cache) :=
  if negb has_source then Ret (false, cache)
  else
    let '(status, cached_at) := default (None, 0) (cache !! seller_id) in
    let* now := now_utc in
    match status with
    | Some s =>
        if now - cached_at <=? 30 * second then Ret (String.eqb s "paused", cache)
        else
          let* maybe_status := account_status seller_id in
          let status := if is_none maybe_status then None else Some (py_str maybe_status) in
          Ret (match status with Some s => String.eqb s "paused" | None => false end,
               <[seller_id := (status, now)]> cache)
    | None =>
        let* maybe_status := account_status seller_id in
        let status := if is_none maybe_status then None else Some (py_str maybe_status) in
        Ret (match status with Some s => String.eqb s "paused" | None => false end,
             <[seller_id := (status, now)]> cache)
    end.
End Paused.

(** ** Settling a message *)

(** The first integer an exception carries: [retry_after_seconds],
    [response.status_code]. *)
Definition exn_int (e : exn) : Z := match exn_args e with VInt z :: _ => z | _ => 0 end.

Definition z_in (z : Z) (l : list Z) : bool := existsb (Z.eqb z) l.
Lemma z_in_iff z l : z_in z l = true <-> In z l.
Proof.
  unfold z_in. rewrite existsb_exists. split.
  - intros (x & Hx & He). apply Z.eqb_eq in He. by subst.
  - intros Hz. exists z. split; [done|apply Z.eqb_refl].
Qed.

Section Settling.
Context `{MongoConf} {E : Type -> Type} {S : Type} `{ExtSpec E S}.
Implicit Types w : world (amqp_state S).

Definition ack : prog (amqp E) unit := ext AAck.
Definition nack (requeue : bool) : prog (amqp E) unit := ext (ANack requeue).

(** Requeue through the delay publisher, or at once without one. *)
Definition requeue_later (has_delay_publisher : bool) (queue_name : string) (m : message) (delay_ms : Z) :
    prog (amqp E) unit :=
  if negb has_delay_publisher then nack true
  else do* ext (APublishDelay (msg_body m) queue_name delay_ms) in ack.

Definition settled_same w w' : Prop := settled (w_ext w') = settled (w_ext w).
(** Settled once, or acknowledged after a delayed copy was published. *)
Definition disposed w w' : Prop :=
  (exists s, settled (w_ext w') = settled (w_ext w) ++ [s]) \/
  exists ms, settled (w_ext w') = settled (w_ext w) ++ [Delayed ms; Acked].

Lemma wp_ack {B : Type} (k : unit -> prog (amqp E) B) Q w :
  (forall w', settled (w_ext w') = settled (w_ext w) ++ [Acked] -> wp (k tt) Q w') -> wp (bind ack k) Q w.
Proof. intros Hk. apply wp_bind, wp_perform. intros w' r ([Hs ->] & _). apply Hk. by rewrite Hs. Qed.
Lemma wp_nack {B : Type} b (k : unit -> prog (amqp E) B) Q w :
  (forall w', settled (w_ext w') = settled (w_ext w) ++ [Nacked b] -> wp (k tt) Q w') -> wp (bind (nack b) k) Q w.
Proof. intros Hk. apply wp_bind, wp_perform. intros w' r ([Hs ->] & _). apply Hk. by rewrite Hs. Qed.

Lemma wp_requeue_later {A} b queue m ms (a : A) w :
  wp (do* requeue_later b queue m ms in Ret a)
    (fun w' r => match r with Ok _ => disposed w w' | Err _ => settled_same w w' /\ b = true end) w.
Proof.
  unfold requeue_later. destruct b; cbn [negb]; [|apply wp_nack; intros w' Hs; left; by eexists].
  apply wp_bind, wp_bind, wp_perform. intros w1 r ([[Hs ->]|[Hs [e ->]]] & _); [|unfold settled_same; by rewrite Hs].
  apply wp_perform. intros w2 r ([Hs2 ->] & _). right. exists ms. rewrite Hs2, Hs. simpl. by rewrite <- app_assoc.
Qed.
Lemma settled_refl w : settled_same w w.
Proof. done. Qed.
Lemma settled_trans w1 w2 w3 : settled_same w1 w2 -> settled_same w2 w3 -> settled_same w1 w3.
Proof. unfold settled_same. congruence. Qed.
Lemma disposed_after w1 w2 w3 : settled_same w1 w2 -> disposed w2 w3 -> disposed w1 w3.
Proof. unfold settled_same, disposed. by intros ->. Qed.
Lemma quiet_settled {A} (p : prog (amqp E) A) : guarded ext_same p -> guarded settled_same p.
Proof. apply guarded_mono. intros w w' He. unfold settled_same. by rewrite He. Qed.
Lemma service_settled {X} (e : E X) : guarded settled_same (ext (AService e)).
Proof. apply guarded_perform. by intros w w' r [[Hs _] _]. Qed.
Lemma guarded_settled {A} (p : prog (amqp E) A) w : guarded settled_same p -> wp p (fun w' _ => settled_same w w') w.
Proof. apply guarded_wp; [apply settled_refl|apply settled_trans]. Qed.
Lemma quiet_account_is_paused `{PyRepr} b cache seller_id :
  guarded (E := amqp E) (S := amqp_state S) ext_same (_account_is_paused b cache seller_id).
Proof. unfold _account_is_paused, account_status. destruct (default _ _). quiet_tac. Qed.
End Settling.
#[export] Hint Resolve quiet_settled service_settled quiet_account_is_paused : zeler.

(** ** Consuming a message

    [handle_message] of the repricer and of the autoreply consumer: the two
    share their shape and differ in the event they parse, in their handler and
    in their [except] clauses ([on_error]; the event is known there once it
    was parsed). *)

(** [_event_context_from_message]: for the log of an exhausted message, a body
    that does not parse is no event, unless it raises something else. *)
Definition expected_or_none {A : Type} (r : result A) : result (option A) :=
  match r with
  | Ok event => Ok (Some event)
  | Err exc =>
      if existsb (isinstance exc) ["KeyError"; "TypeError"; "ValueError"; "JSONDecodeError"; "UnicodeDecodeError"]%string
      then Ok None else Err exc
  end.

Section Consume.
Context `{PyRepr} `{MongoConf} {E : Type -> Type} {S : Type} `{ExtSpec E S} {Event : Type}.
Implicit Types cache : status_cache.
Implicit Types w : world (amqp_state S).
Variable parse : message -> result Event.
Variable seller_of : Event -> Z.
Variable on_error : message -> option Event -> exn -> prog (amqp E) unit.
Variable handler : Event -> prog (amqp E) string.
Variable has_status_source : bool.
Variable queue_name : string.
Variable delivery_limit : Z.

Definition consume cache (m : message) : prog (amqp E) status_cache :=
  let death_count := _x_death_count m queue_name in
  if limit_reached death_count delivery_limit then
    do* of_result (expected_or_none (parse m)) in do* nack false in Ret cache
  else
    match parse m with
    | Err exc => do* on_error m None exc in Ret cache
    | Ok event =>
        let* checked := attempt (_account_is_paused has_status_source cache (seller_of event)) in
        match checked with
        | Err exc => do* on_error m (Some event) exc in Ret cache
        | Ok (true, cache) => do* ack in Ret cache
        | Ok (false, cache) =>
            let* handled := attempt (handler event) in
            match handled with
            | Err exc => do* on_error m (Some event) exc in Ret cache
            | Ok _ => do* ack in Ret cache
            end
        end
    end.

(** What escapes with the message unsettled: what the error path raises, and,
    on an exhausted message, an unexpected exception of its decoding. *)
Variable raises : option Event -> exn -> Prop.
Definition escapes (m : message) (e : exn) : Prop :=
  (exists event, raises event e) \/
  limit_reached (_x_death_count m queue_name) delivery_limit = true /\ expected_or_none (parse m) = Err e.

(** The error path disposes of the message or raises; the handler settles nothing. *)
Hypothesis on_error_disposes : forall m event exc cache w,
  wp (do* on_error m event exc in Ret cache)
    (fun w' r => match r with Ok _ => disposed w w' | Err e => settled_same w w' /\ raises event e end) w.
Hypothesis handler_settles_nothing : forall event, guarded settled_same (handler event).

Lemma wp_consume cache m w :
  wp (consume cache m)
    (fun w' r => match r with Ok _ => disposed w w' | Err e => settled_same w w' /\ escapes m e end) w.
Proof.
  unfold consume. destruct (limit_reached _ _) eqn:Hlim.
  { apply wp_bind, wp_of_result. destruct (expected_or_none (parse m)) eqn:Hc.
    - apply wp_nack. intros w' Hs. left. by eexists.
    - split; [done|]. by right. }
  assert (Herr : forall event exc cache' w1, settled_same w w1 ->
    wp (do* on_error m event exc in Ret cache')
      (fun w' r => match r with Ok _ => disposed w w' | Err e => settled_same w w' /\ escapes m e end) w1).
  { intros event exc cache' w1 Hw1. eapply wp_mono; [apply on_error_disposes|]. intros w2 [c|e] Hr.
    - by eapply disposed_after.
    - destruct Hr as [Hs Hu]. split; [by eapply settled_trans|]. left. by eexists. }
  assert (Hack : forall cache' w1, settled_same w w1 ->
    wp (do* ack in Ret cache')
      (fun w' r => match r with Ok _ => disposed w w' | Err e => settled_same w w' /\ escapes m e end) w1).
  { intros cache' w1 Hw1. apply wp_ack. intros w2 Hw2. left. exists Acked. unfold settled_same in Hw1. congruence. }
  destruct (parse m) as [event|exc]; [|by apply Herr].
  apply wp_bind, wp_attempt. eapply wp_mono; [apply guarded_settled; auto with zeler|].
  intros w1 [[[] cache']|exc] Hw1; [by apply Hack| |by apply Herr].
  apply wp_bind, wp_attempt. eapply wp_mono; [apply guarded_settled, handler_settles_nothing|].
  intros w2 [s|exc] Hw2; [apply Hack|apply Herr]; by eapply settled_trans.
Qed.
End Consume.

(** ** HTTP refusals *)

(** A status the consumers neither retry nor dead-letter. *)
Definition unclassified_status (permanent retriable : list Z) (exc : exn) : Prop :=
  isinstance exc "GatewayRateLimitError" = false /\ isinstance exc "HTTPStatusError" = true /\
  exn_int exc < 500 /\ ~ In (exn_int exc) (permanent ++ retriable).

Lemma unclassified_intro permanent retriable exc :
  isinstance exc "GatewayRateLimitError" = false -> isinstance exc "HTTPStatusError" = true ->
  z_in (exn_int exc) permanent = false ->
  (500 <=? exn_int exc) || z_in (exn_int exc) retriable = false ->
  unclassified_status permanent retriable exc.
Proof.
  intros Hrate Hhttp Hp Hr. apply orb_false_iff in Hr as [Hlt Hr]. apply Z.leb_gt in Hlt.
  repeat split; try done. rewrite in_app_iff, <- !z_in_iff, Hp, Hr. by intros [|].
Qed.

(** The clauses of an error path end in a settlement, in a delayed copy or in
    a raise. *)
Ltac settle_leaf :=
  first
    [ apply wp_ack; intros; left; by eexists
    | apply wp_nack; intros; left; by eexists
    | eapply wp_mono; [apply wp_requeue_later|]; intros ? [?|?]; simpl; tauto
    | split; [done|]; left; by apply unclassified_intro ].
Ltac settle_tac :=
  repeat match goal with |- wp (bind (if ?b then _ else _) _) _ _ => destruct b eqn:? end; settle_leaf.
