(* ===== verification/RepricerConsumer.v ===== *)
(** The repricer's event consumer: [RepricerEventHandler] and
    [RepricerAmqpConsumerRunner.handle_message] of
    modules/repricer/.../consumer.py. *)

From S2P Require Export Broker RepricerEngine.

#[local] Open Scope Z_scope.

(** ** Values handed to the driver

    A Python document may hold [Decimal] values, which the driver's codec
    refuses before anything is sent ([bson.errors.InvalidDocument]). *)

Inductive pval := PV (v : val) | PDec (d : dec).
Abbreviation pdoc := (list (string * pval)).

Definition encodable (d : pdoc) : option (list (string * val)) :=
  foldr (fun kv acc => match kv.2, acc with PV v, Some l => Some ((kv.1, v) :: l) | _, _ => None end) (Some []) d.
Definition invalid_document {A} : result A :=
  Err (mk_exn "InvalidDocument" "cannot encode object of type decimal.Decimal").

(** ** Events and documents *)

Record RepricerEvent := {
  re_event_id : string;
  re_event_type : string;
  re_seller_id : Z;
  re_resource : string;
  re_idempotency_key : string;
  re_buybox_price : option dec;
  re_competitor_account_id : option string;
}.

Record Item := { it_id : string; it_price : dec }.

(** Pydantic's validation of the stored documents. *)
Class RepricerModels := {
  validate_item : doc -> result Item;
  validate_rule : doc -> result RepricerRule;
  validate_catalog_rule : doc -> result RepricerCatalogRule;
  validate_limits : doc -> result RepricerLimits;
  validate_allies : doc -> result RepricerAllies;
}.

(** The gateway call that posts a price: its status and latency. *)
Inductive gateway_price : Type -> Type :=
| GUpdatePrice (seller_id : Z) (item_id : string) (new_price : dec) (idempotency_key : string)
    : gateway_price (Z * Z).

Definition REPRICER_ITEMS_QUEUE : string := "zeler.repricer.items".
Definition REPRICER_DELIVERY_LIMIT : Z := 5.
Definition DEFAULT_EVENT_CLAIM_RETRY_DELAY_MS : Z := 1000.
Definition PERMANENT_HTTP_STATUS_CODES : list Z := [401; 403; 404; 422].
Definition RETRIABLE_HTTP_STATUS_CODES : list Z := [408; 429].

(** [resource.split("/")] without empty parts; the part after ["items"]. *)
Definition _item_id_from_resource (resource : string) : result string :=
  (fix find (parts : list string) : result string :=
     match parts with
     | part :: ((next :: _) as rest) => if String.eqb part "items" then Ok next else find rest
     | _ => raise_value ("unsupported repricer resource: " ++ resource)
     end) (List.filter (fun p => negb (string_is_empty p)) (split_char "/" resource)).

Definition _execution_outcome (reason : string) : string :=
  if string_in reason ["paused"; "competition_paused"]%string then "paused"%string
  else if string_in reason ["below_floor"; "manual_review_required"]%string then "guard_blocked"%string
  else "no_action"%string.

Definition _competitor_state (competitor_account_id : option string) : val :=
  match competitor_account_id with
  | None => VNone
  | Some c => VDict (mk_doc [("account_id"%string, VStr c)])
  end.

Section Handler.
Context {E : Type -> Type} `{PyRepr} `{RepricerModels}.
Variable gateway : forall X, gateway_price X -> E X.
Variable gate : EventGate.
(** The collections the database object knows; a Motor database knows all. *)
Variable has_collection : string -> bool.

Definition update_price (seller_id : Z) (item_id : string) (new_price : dec) (key : string) : prog E (Z * Z) :=
  ext (gateway _ (GUpdatePrice seller_id item_id new_price key)).

Definition insert_document (c : string) (d : pdoc) : prog E unit :=
  match encodable d with
  | None => of_result invalid_document
  | Some kvs => mongo (MInsertOne c (mk_doc kvs))
  end.

Definition _write_history (event : RepricerEvent) (item : Item) (new_price : dec) (reason : string)
    (gateway_status latency_ms : option Z) (catalog_rule : option RepricerCatalogRule) : prog E unit :=
  let* now := now_utc in
  let opt_int o := PV (match o with Some z => VInt z | None => VNone end) in
  insert_document "repricer_history"
    ([("seller_id", PV (VStr (str_of_Z (re_seller_id event)))); ("item_id", PV (VStr (it_id item)));
      ("old_price", PDec (it_price item)); ("new_price", PDec new_price); ("reason", PV (VStr reason));
      ("applied_at", PV (VDate true now)); ("gateway_status", opt_int gateway_status);
      ("gateway_latency_ms", opt_int latency_ms); ("event_id", PV (VStr (re_event_id event)));
      ("schema_version", PV (VInt 1))]
     ++ match catalog_rule with
        | Some rule => [("account_id", PV (VStr (rc_account_id rule))); ("rule_id", PV (VStr (rc_id rule)))]
        | None => []
        end).

Definition _update_catalog_execution_state (rule : RepricerCatalogRule) (outcome : string)
    (applied_price : option dec) (competitor_account_id : option string) : prog E unit :=
  let* now := now_utc in
  match applied_price with
  | Some _ => of_result invalid_document
  | None =>
      do* mongo (MUpdateOne "repricer_catalog_rules"
                   (FAnd [FEq ["_id"] (VStr (rc_id rule)); FEq ["seller_id"] (VStr (rc_seller_id rule))])
                   (UOps [USet ["execution_state"; "last_outcome"] (VStr outcome);
                          USet ["execution_state"; "last_event_at"] (VDate true now);
                          USet ["execution_state"; "last_applied_price"] VNone;
                          USet ["execution_state"; "last_competitor"] (_competitor_state competitor_account_id);
                          USet ["updated_at"] (VDate true now)]) false) in
      Ret tt
  end.

Definition _find_limits (seller_id : Z) (account_id : string) : prog E (option RepricerLimits) :=
  if negb (has_collection "repricer_limits") then Ret None
  else
    let* document := mongo (MFindOne "repricer_limits"
      (FAnd [FEq ["seller_id"] (VStr (str_of_Z seller_id)); FEq ["account_id"] (VStr account_id)]) []) in
    match document with
    | None => Ret None
    | Some document => let* l := of_result (validate_limits document) in Ret (Some l)
    end.

Definition _find_allies (seller_id : Z) : prog E (option RepricerAllies) :=
  if negb (has_collection "repricer_allies") then Ret None
  else
    let* document := mongo (MFindOne "repricer_allies" (FAnd [FEq ["seller_id"] (VStr (str_of_Z seller_id))]) []) in
    match document with
    | None => Ret None
    | Some document => let* l := of_result (validate_allies document) in Ret (Some l)
    end.

Definition _find_catalog_rule (seller_id : Z) (item_id : string) : prog E (option RepricerCatalogRule * bool) :=
  if negb (has_collection "repricer_catalog_rules") then Ret (None, true)
  else
    let* rule_doc := mongo (MFindOne "repricer_catalog_rules"
      (FAnd [FEq ["seller_id"] (VStr (str_of_Z seller_id)); FEq ["item_id"] (VStr item_id);
             FEq ["active"] (VBool true)]) []) in
    match rule_doc with
    | None => Ret (None, false)
    | Some rule_doc => let* r := of_result (validate_catalog_rule rule_doc) in Ret (Some r, false)
    end.

Definition _complete_claim (handle : GateHandle) : prog E unit :=
  do* event_complete handle in Ret tt.

Definition _handle_catalog_rule (event : RepricerEvent) (item : Item) (rule : RepricerCatalogRule)
    (claim : GateHandle) : prog E string :=
  let* limits := _find_limits (re_seller_id event) (rc_account_id rule) in
  let* allies := _find_allies (re_seller_id event) in
  let* decision := of_result (evaluate_catalog_rule rule (it_price item) (re_buybox_price event)
                                limits allies (re_competitor_account_id event)) in
  match decision with
  | SetPrice new_price reason =>
      let* '(gateway_status, latency_ms) :=
        update_price (re_seller_id event) (it_id item) new_price (re_idempotency_key event) in
      do* _write_history event item new_price reason (Some gateway_status) (Some latency_ms) (Some rule) in
      do* _update_catalog_execution_state rule "applied" (Some new_price) (re_competitor_account_id event) in
      do* _complete_claim claim in
      Ret "set_price"%string
  | NoAction reason _ =>
      do* _write_history event item (it_price item) reason None None (Some rule) in
      do* _update_catalog_execution_state rule (_execution_outcome reason) None (re_competitor_account_id event) in
      do* _complete_claim claim in
      Ret "no_action"%string
  end.

(** The body of the [try] of [handle]. *)
Definition handle_claimed (event : RepricerEvent) (claim : GateHandle) : prog E string :=
  let* item_id := of_result (_item_id_from_resource (re_resource event)) in
  let* item_doc := mongo (MFindOne "items"
    (FAnd [FEq ["_id"] (VStr item_id); FEq ["seller_id"] (VStr (str_of_Z (re_seller_id event)))]) []) in
  match item_doc with
  | None => do* event_release claim in Ret "item_missing"%string
  | Some item_doc =>
      let* item := of_result (validate_item item_doc) in
      let* '(catalog_rule, allow_legacy_rule_fallback) := _find_catalog_rule (re_seller_id event) (it_id item) in
      match catalog_rule with
      | Some rule => _handle_catalog_rule event item rule claim
      | None =>
          if negb allow_legacy_rule_fallback then do* event_release claim in Ret "rule_missing"%string
          else
            let* rule_doc := mongo (MFindOne "repricer_rules"
              (FAnd [FEq ["seller_id"] (VStr (str_of_Z (re_seller_id event))); FEq ["item_id"] (VStr (it_id item));
                     FEq ["active"] (VBool true)]) []) in
            match rule_doc with
            | None => do* event_release claim in Ret "rule_missing"%string
            | Some rule_doc =>
                let* rule := of_result (validate_rule rule_doc) in
                let* decision := of_result (evaluate_rule rule (it_price item) (re_buybox_price event)) in
                match decision with
                | SetPrice new_price reason =>
                    let* '(gateway_status, latency_ms) :=
                      update_price (re_seller_id event) (it_id item) new_price (re_idempotency_key event) in
                    do* _write_history event item new_price reason (Some gateway_status) (Some latency_ms) None in
                    do* _complete_claim claim in
                    Ret "set_price"%string
                | NoAction reason _ =>
                    do* _write_history event item (it_price item) reason None None None in
                    do* _complete_claim claim in
                    Ret "no_action"%string
                end
            end
      end
  end.

Definition handle (event : RepricerEvent) : prog E string :=
  let* claim := event_claim gate (re_idempotency_key event) in
  match claim with
  | None => Ret "duplicate"%string
  | Some claim =>
      catch (handle_claimed event claim)
        (fun exc => do* attempt (event_release claim) in Raise exc)
  end.
End Handler.

(** ** The transport *)

Section Transport.
Context `{PyRepr} `{PyJson}.

Definition _event_from_message (m : message) : result RepricerEvent :=
  let! decoded := json_loads (msg_body m) in
  match decoded with
  | VDict payload =>
      let! idempotency_key := _idempotency_key m payload in
      let buybox_price := doc_get payload "buybox_price" in
      let competitor_account_id :=
        doc_get_or payload "competitor_account_id" (doc_get payload "competitor_seller_id") in
      let! event_id := doc_at payload "event_id" in
      let! event_type := doc_at payload "event_type" in
      let! seller := doc_at payload "seller_id" in
      let! seller_id := py_int seller in
      let! resource := doc_at payload "resource" in
      let! buybox :=
        (if is_none buybox_price then Ok None
         else let! d := dec_of_string (py_str buybox_price) in Ok (Some d)) in
      Ok {| re_event_id := py_str event_id; re_event_type := py_str event_type; re_seller_id := seller_id;
            re_resource := py_str resource; re_idempotency_key := idempotency_key; re_buybox_price := buybox;
            re_competitor_account_id :=
              if is_none competitor_account_id then None else Some (py_str competitor_account_id) |}
  | _ => raise_value "repricer event payload must be a JSON object"
  end.

Definition _event_context_from_message (m : message) : result (option RepricerEvent) :=
  expected_or_none (_event_from_message m).

Context {E : Type -> Type}.
Variable handler : RepricerEvent -> prog (amqp E) string.
Variable has_delay_publisher has_status_source : bool.
Variable queue_name : string.
Variable delivery_limit : Z.

(** The [except] clauses of [handle_message], in order. *)
Definition on_error (m : message) (exc : exn) : prog (amqp E) unit :=
  if isinstance exc "GatewayRateLimitError" then requeue_later has_delay_publisher queue_name m (exn_int exc * 1000)
  else if isinstance exc "HTTPStatusError" then
    let status_code := exn_int exc in
    if z_in status_code PERMANENT_HTTP_STATUS_CODES then nack false
    else if (500 <=? status_code) || z_in status_code RETRIABLE_HTTP_STATUS_CODES then nack true
    else Raise exc
  else if isinstance exc "ConnectError" || isinstance exc "TimeoutException" then nack true
  else if isinstance exc "EventClaimTimeoutError" then requeue_later has_delay_publisher queue_name m DEFAULT_EVENT_CLAIM_RETRY_DELAY_MS
  else nack false.

Definition handle_message (cache : status_cache) (m : message) : prog (amqp E) status_cache :=
  consume _event_from_message re_seller_id (fun m _ exc => on_error m exc) handler
    has_status_source queue_name delivery_limit cache m.
End Transport.
