(* ===== verification/RepricerProofs.v ===== *)
(** What the repricer's consumer does to prices and to its messages. *)

From S2P Require Export RepricerConsumer.

#[local] Open Scope Z_scope.

(** ** The gateway, as the list of the prices it was asked to set *)

Abbreviation price_log := (list (Z * string * dec)).

(** The price of an accepted call is set; a failed call may have set it. *)
#[export] Instance gateway_price_spec : ExtSpec gateway_price price_log := fun X e =>
  match e in gateway_price X return price_log -> price_log -> result X -> Prop with
  | GUpdatePrice seller item p _ => fun s s' r =>
      s' = s ++ [(seller, item, p)] /\ (exists st, r = Ok st) \/
      (s' = s \/ s' = s ++ [(seller, item, p)]) /\ exists e, r = Err e
  end.

(** ** What the engine decides for an event on a database *)

Section Decided.
Context `{PyRepr} `{RepricerModels} `{MongoConf}.
Variable has_collection : string -> bool.
Variable event : RepricerEvent.
Variable db : database.
Abbreviation seller := (VStr (str_of_Z (re_seller_id event))).

(** [d] is stored in [c] with the given fields. *)
Definition stored_with (c : string) (kvs : list (string * val)) (d : doc) : Prop :=
  exists i, db !! (c, i) = Some d /\ forall k v, In (k, v) kvs -> match_eq d [k] v = true.
(** The item the event names, as stored for its seller. *)
Definition stored_item (it : Item) : Prop := exists item_id d, _item_id_from_resource (re_resource event) = Ok item_id /\
  stored_with "items" [("_id"%string, VStr item_id); ("seller_id"%string, seller)] d /\ validate_item (Mongo.dec d) = Ok it.
(** A rule for the item is active. *)
Definition active_rule {R : Type} (c : string) (validate : doc -> result R) (it : Item) (rule : R) : Prop := exists d,
  stored_with c [("seller_id"%string, seller); ("item_id"%string, VStr (it_id it)); ("active"%string, VBool true)] d /\ validate (Mongo.dec d) = Ok rule.
(** What is stored, or nothing when nothing is. *)
Definition stored_or_none {R : Type} (c : string) (validate : doc -> result R) (kvs : list (string * val)) (o : option R) : Prop :=
  match o with
  | Some r => has_collection c = true /\ exists d, stored_with c kvs d /\ validate (Mongo.dec d) = Ok r
  | None => has_collection c = true -> forall d, ~ stored_with c kvs d
  end.

(** The engine sets [p] for the stored item: by the active catalog rule, with
    the limits of the rule's account and the allies of the seller, or, on a
    database without catalog rules, by the active plain rule. *)
Definition price_decided (item : string) (p : dec) : Prop := exists it reason, stored_item it /\ it_id it = item /\
  ((exists rule limits allies, has_collection "repricer_catalog_rules" = true /\
      active_rule "repricer_catalog_rules" validate_catalog_rule it rule /\
      stored_or_none "repricer_limits" validate_limits [("seller_id"%string, seller); ("account_id"%string, VStr (rc_account_id rule))] limits /\
      stored_or_none "repricer_allies" validate_allies [("seller_id"%string, seller)] allies /\
      evaluate_catalog_rule rule (it_price it) (re_buybox_price event) limits allies (re_competitor_account_id event) = Ok (SetPrice p reason)) \/
   (exists rule, has_collection "repricer_catalog_rules" = false /\ active_rule "repricer_rules" validate_rule it rule /\
      evaluate_rule rule (it_price it) (re_buybox_price event) = Ok (SetPrice p reason))).

(** What a query for given fields answers. *)
Definition answers (c : string) (kvs : list (string * val)) (o : option doc) : Prop :=
  match o with Some d => exists d0, stored_with c kvs d0 /\ d = Mongo.dec d0 | None => forall d, ~ stored_with c kvs d end.
Lemma matches_fields now kvs d : matches now (FAnd (map (fun kv => FEq [kv.1] kv.2) kvs)) d = true <-> forall k v, In (k, v) kvs -> match_eq d [k] v = true.
Proof using Type.
  cbn [matches]. rewrite forallb_forall. split.
  - intros Hall k v Hin. apply (Hall (FEq [k] v)). apply in_map_iff. by exists (k, v).
  - intros Hall f Hf. apply in_map_iff in Hf as ([k v] & <- & Hin). by apply Hall.
Qed.
Lemma found_answers now c kvs r : mongo_ok now (MFindOne c (FAnd (map (fun kv => FEq [kv.1] kv.2) kvs)) []) db db r ->
  exists o, r = Ok o /\ answers c kvs o.
Proof using Type.
  intros [_ [[Hn ->]|(i & d & [Hd Hm] & _ & ->)]]; eexists; (split; [done|]).
  - intros d (i & Hd & Hk). apply (matches_fields now) in Hk. by rewrite (Hn i d Hd) in Hk.
  - exists d. split; [|done]. exists i. split; [done|]. by apply (matches_fields now).
Qed.
End Decided.

(** The collections the engine reads. *)
Definition engine_collections : list string := ["items"; "repricer_catalog_rules"; "repricer_limits"; "repricer_allies"; "repricer_rules"]%string.
Lemma decided_same `{PyRepr} `{RepricerModels} `{MongoConf} (has_collection : string -> bool) (event : RepricerEvent) (db db' : database) (item : string) (p : dec) :
  (forall c i, In c engine_collections -> db' !! (c, i) = db !! (c, i)) -> price_decided has_collection event db' item p -> price_decided has_collection event db item p.
Proof.
  intros Hs. assert (Hst : forall c kvs d, In c engine_collections -> stored_with db' c kvs d <-> stored_with db c kvs d).
  { intros c kvs d Hc. split; intros (i & Hd & Hk); exists i; rewrite Hs in *; done. }
  assert (Hor : forall R c (v : doc -> result R) kvs o, In c engine_collections -> stored_or_none has_collection db' c v kvs o -> stored_or_none has_collection db c v kvs o).
  { intros R c v kvs [r|] Hc Ho; [destruct Ho as (Hh & d & Hd & Hv); split; [done|]; exists d; by rewrite <- Hst|]. intros Hh d Hd. apply (Ho Hh d). by rewrite Hst. }
  intros (it & reason & (iid & d & Hi & Hd & Hv) & Hit & Hrule). exists it, reason. split; [exists iid, d; rewrite <- Hst by (cbn; tauto); done|]. split; [done|].
  destruct Hrule as [(rule & limits & allies & Hc & (r & Hr & Hrv) & Hl & Ha & He)|(rule & Hc & (r & Hr & Hrv) & He)]; [left; exists rule, limits, allies|right; exists rule].
  - split; [done|]. split; [exists r; rewrite <- Hst by (cbn; tauto); done|]. split; [apply Hor; [cbn; tauto|done]|]. split; [apply Hor; [cbn; tauto|done]|done].
  - split; [done|]. split; [exists r; rewrite <- Hst by (cbn; tauto); done|done].
Qed.

Section Prices.
Context `{PyRepr} `{RepricerModels} `{MongoConf}.
Variable gate : EventGate.
Variable has_collection : string -> bool.
(** The gate keeps its documents elsewhere. *)
Hypothesis gate_apart : forall c, In c engine_collections -> ~ In c (gate_cols gate).
Abbreviation quiet := (guarded (E := gateway_price) (S := price_log) ext_same).
Implicit Types w : world price_log.

(** A program that calls collections of [cols] only keeps the others. *)
Lemma within_cols {E : Type -> Type} {S : Type} `{ExtSpec E S} (cols : list string) {A} (p : prog E A) (w0 : world S) :
  within cols p -> wp p (fun (w' : world S) _ => forall c i, ~ In c cols -> w_db w' !! (c, i) = w_db w0 !! (c, i)) w0.
Proof using Type.
  intros Hp. eapply wp_mono; [apply (guarded_wp (fun w w' : world S => forall c i, ~ In c cols -> w_db w' !! (c, i) = w_db w !! (c, i)))|].
  - done.
  - intros w1 w2 w3 H12 H23 c i Hc. by rewrite H23, H12.
  - revert Hp. apply within_guarded. intros X o w1 w2 r Ho Hop c i Hc. destruct o; simpl in *; try done; try by destruct Hop as [(-> & _) _].
    destruct Hop as (Hm & _). eapply mongo_spec_frame; [exact Hm|]. by intros <-.
  - done.
Qed.

(** The outcome of one delivery on the database [db]. *)
Definition pricing_post (event : RepricerEvent) (db : database) w w' (r : result string) : Prop :=
  match r with
  | Ok s => w_ext w' = w_ext w /\ In s ["duplicate"; "item_missing"; "rule_missing"]%string
  | Err _ => w_ext w' = w_ext w \/
      exists item p, w_ext w' = w_ext w ++ [(re_seller_id event, item, p)] /\ price_decided has_collection event db item p
  end.

(** The history row holds decimals: it is never written. *)
Lemma wp_write_history event item p reason st lat rule {B : Type} (k : unit -> prog gateway_price B) Q w :
  (forall w' e, w_ext w' = w_ext w -> Q w' (Err e)) ->
  wp (bind (_write_history event item p reason st lat rule) k) Q w.
Proof.
  intros HQ. unfold _write_history. apply wp_bind, wp_now. intros w1 (_ & _ & He & _).
  destruct rule; simpl; by apply HQ.
Qed.

Lemma wp_set_price event db item p reason rule key (k : prog gateway_price string) w0 w :
  w_ext w = w_ext w0 -> price_decided has_collection event db (it_id item) p ->
  wp (let* '(status, latency) := update_price (fun _ g => g) (re_seller_id event) (it_id item) p key in
      do* _write_history event item p reason (Some status) (Some latency) rule in k)
    (pricing_post event db w0) w.
Proof.
  intros Hw Hd. apply wp_bind, wp_perform. intros w1 r ([[Hs [[st lat] ->]]|[Hs [e ->]]] & _).
  - apply wp_write_history. intros w2 e He. right. exists (it_id item), p. rewrite He, Hs, Hw. done.
  - destruct Hs as [Hs|Hs]; [left|right]; [congruence|]. exists (it_id item), p. rewrite Hs, Hw. done.
Qed.

Lemma wp_no_action event db item p reason rule (k : prog gateway_price string) w0 w :
  w_ext w = w_ext w0 ->
  wp (do* _write_history event item p reason None None rule in k) (pricing_post event db w0) w.
Proof. intros Hw. apply wp_write_history. intros w2 e He. left. congruence. Qed.

Lemma wp_not_found event db h s w0 w :
  w_ext w = w_ext w0 -> In s ["duplicate"; "item_missing"; "rule_missing"]%string ->
  wp (do* event_release h in Ret s) (pricing_post event db w0) w.
Proof.
  intros Hw Hs. apply wp_quiet_bind; [auto with zeler|..].
  - intros w' _ He. simpl. split; [congruence|done].
  - intros w' e He. left. congruence.
Qed.

(** Before the decision: nothing was posted, and nothing written. *)
Definition undecided (db : database) w0 w : Prop := w_ext w = w_ext w0 /\ w_db w = db.

(** A query by given fields. *)
Lemma wp_query {B : Type} c kvs (k : option doc -> prog gateway_price B) db w0 Q w :
  undecided db w0 w -> (forall w' o, undecided db w0 w' -> answers db c kvs o -> wp (k o) Q w') ->
  (forall w' e, w_ext w' = w_ext w0 -> Q w' (Err e)) ->
  wp (bind (mongo (MFindOne c (FAnd (map (fun kv => FEq [kv.1] kv.2) kvs)) [])) k) Q w.
Proof.
  intros [He <-] Hk Herr. apply wp_mongo.
  - intros w' r Hm (_ & He' & _). pose proof Hm as [Hdb _]. rewrite Hdb in Hm. apply found_answers in Hm as (o & -> & Ho).
    apply Hk; [|done]. split; [congruence|done].
  - intros w' (_ & He' & _) _. apply Herr. congruence.
Qed.

(** A pure step that may raise. *)
Lemma wp_checked {A : Type} (r : result A) (k : A -> prog gateway_price string) event db w0 w :
  w_ext w = w_ext w0 ->
  (forall a, r = Ok a -> wp (k a) (pricing_post event db w0) w) ->
  wp (bind (of_result r) k) (pricing_post event db w0) w.
Proof. intros Hw Hk. destruct r as [a|e]; simpl; [by apply Hk|by left]. Qed.

(** An optional document and its validation. *)
Lemma wp_optional {R : Type} c kvs (validate : doc -> result R) (k : option R -> prog gateway_price string) event db w0 w :
  undecided db w0 w -> (forall w' o, undecided db w0 w' -> stored_or_none has_collection db c validate kvs o -> wp (k o) (pricing_post event db w0) w') ->
  wp (bind (if negb (has_collection c) then Ret None
            else let* document := mongo (MFindOne c (FAnd (map (fun kv => FEq [kv.1] kv.2) kvs)) []) in
                 match document with None => Ret None | Some document => let* l := of_result (validate document) in Ret (Some l) end) k)
    (pricing_post event db w0) w.
Proof.
  intros Hw Hk. destruct (has_collection c) eqn:Hc; cbn [negb].
  - apply wp_bind, (wp_query c kvs _ db w0); [done| |intros w' e He; by left]. intros w' [d|] Hw' Ho.
    + destruct Ho as (d0 & Hd & ->). destruct (validate (Mongo.dec d0)) as [l|e] eqn:Hv; cbn [of_result bind wp]; [|left; apply Hw'].
      apply Hk; [done|]. split; [done|]. by exists d0.
    + cbn [wp]. apply Hk; [done|]. by intros _.
  - cbn [bind]. apply Hk; [done|]. intros Hx. congruence.
Qed.

Lemma wp_repricer_claimed event db h w :
  w_db w = db -> wp (handle_claimed (fun _ g => g) has_collection event h) (pricing_post event db w) w.
Proof.
  intros Hdb. assert (Hw : undecided db w w) by done. unfold handle_claimed. apply wp_checked; [done|]. intros item_id Hid.
  apply (wp_query "items" [("_id"%string, VStr item_id); ("seller_id"%string, VStr (str_of_Z (re_seller_id event)))] _ db w); [done| |intros; by left].
  intros w1 [item_doc|] Hw1 Hitem; [|apply wp_not_found; [apply Hw1|simpl; auto]]. destruct Hitem as (d & Hd & ->).
  apply wp_checked; [apply Hw1|]. intros item Hval. assert (Hst : stored_item event db item) by by exists item_id, d.
  unfold _find_catalog_rule. destruct (has_collection "repricer_catalog_rules") eqn:Hcat; cbn [negb].
  - apply wp_bind.
    apply (wp_query "repricer_catalog_rules" [("seller_id"%string, VStr (str_of_Z (re_seller_id event))); ("item_id"%string, VStr (it_id item)); ("active"%string, VBool true)] _ db w);
      [done| |intros; by left].
    intros w2 [rule_doc|] Hw2 Hrule; [|cbn [wp negb]; apply wp_not_found; [apply Hw2|simpl; auto]]. destruct Hrule as (rd & Hrd & ->).
    destruct (validate_catalog_rule (Mongo.dec rd)) as [rule|e] eqn:Hrv; cbn [of_result bind wp]; [|left; apply Hw2].
    unfold _handle_catalog_rule, _find_limits, _find_allies.
    apply (wp_optional "repricer_limits" [("seller_id"%string, VStr (str_of_Z (re_seller_id event))); ("account_id"%string, VStr (rc_account_id rule))]); [done|]. intros w3 limits Hw3 Hl.
    apply (wp_optional "repricer_allies" [("seller_id"%string, VStr (str_of_Z (re_seller_id event)))]); [done|]. intros w4 allies Hw4 Ha.
    apply wp_checked; [apply Hw4|]. intros [p reason|reason c] Hdec; [|apply wp_no_action, Hw4].
    apply wp_set_price; [apply Hw4|]. exists item, reason. split; [done|]. split; [done|]. left. exists rule, limits, allies. split_and!; try done. by exists rd.
  - cbn [bind negb].
    apply (wp_query "repricer_rules" [("seller_id"%string, VStr (str_of_Z (re_seller_id event))); ("item_id"%string, VStr (it_id item)); ("active"%string, VBool true)] _ db w);
      [done| |intros; by left].
    intros w3 [rule_doc|] Hw3 Hrule; [|apply wp_not_found; [apply Hw3|simpl; auto]]. destruct Hrule as (rd & Hrd & ->).
    apply wp_checked; [apply Hw3|]. intros rule Hrv. apply wp_checked; [apply Hw3|].
    intros [p reason|reason c] Hdec; [|apply wp_no_action, Hw3].
    apply wp_set_price; [apply Hw3|]. exists item, reason. split; [done|]. split; [done|]. right. exists rule. split; [done|]. split; [by exists rd|done].
Qed.

(** C18: no delivery of the repricer ever completes a pricing decision, on a
    database nobody else writes meanwhile and with a claim gate that keeps its
    documents apart from the engine's collections.  A price is posted at most once, and it is the price the engine decides for the
    item the event names as it is stored for the seller, by the active rule
    stored for it, with the stored limits and allies.  But the history row that
    follows holds [Decimal] values the driver cannot encode: the delivery raises
    after posting, so the only answers are [duplicate], [item_missing] and
    [rule_missing], and those never set a price. *)
Theorem repricer_never_completes_pricing event w :
  wp (handle (fun _ g => g) gate has_collection event) (pricing_post event (w_db w) w) w.
Proof using All.
  unfold handle. apply wp_bind. eapply wp_mono; [apply wp_and|].
  - apply guarded_wp with (R := ext_same); [done|intros ? ? ?; unfold ext_same; congruence|apply quiet_event_claim].
  - apply (within_cols (S := price_log) (gate_cols gate)). apply within_event_claim.
  - intros w1 [[claim|]|e] [Hw1 Hsame]; unfold ext_same in Hw1; [|by split; [|left]|by left].
    apply wp_catch. eapply wp_mono; [by apply (wp_repricer_claimed event (w_db w1))|]. intros w2 r Hr. destruct r as [s|e].
    { destruct Hr as [Hs Hin]. split; [congruence|done]. }
    assert (Hr' : w_ext w2 = w_ext w \/ exists item p, w_ext w2 = w_ext w ++ [(re_seller_id event, item, p)] /\ price_decided has_collection event (w_db w) item p).
    { destruct Hr as [Hr|(item & p & Hr & Hdec)]; [left; congruence|right]. exists item, p. split; [congruence|].
      eapply decided_same; [|exact Hdec]. intros c i Hc. by apply Hsame, gate_apart. }
    apply wp_quiet_bind; [apply guarded_attempt; auto with zeler|..]; intros w3 x Hw3; simpl; rewrite Hw3; exact Hr'.
Qed.
End Prices.

(** ** Settlement *)

Section Settlement.
Context `{PyRepr} `{PyJson} `{MongoConf} {E : Type -> Type} {S : Type} `{ExtSpec E S}.
Implicit Types w : world (amqp_state S).
Implicit Types cache : status_cache.
Variable has_delay_publisher has_status_source : bool.
Variable queue_name : string.

(** What the error path raises: an HTTP status neither retried nor
    dead-lettered, or a failed delay publisher. *)
Definition repricer_raises (event : option RepricerEvent) (e : exn) : Prop :=
  unclassified_status PERMANENT_HTTP_STATUS_CODES RETRIABLE_HTTP_STATUS_CODES e \/ has_delay_publisher = true.

Lemma wp_repricer_error m event exc cache w :
  wp (do* on_error has_delay_publisher queue_name m exc in Ret cache)
    (fun w' r => match r with Ok _ => disposed w w' | Err e => settled_same w w' /\ repricer_raises event e end) w.
Proof. unfold on_error, repricer_raises. settle_tac. Qed.
End Settlement.

(** ** The assembled consumer *)

Section Assembled.
Context `{PyRepr} `{PyJson} `{RepricerModels} `{MongoConf}.
Variable gate : EventGate.
Variable has_collection : string -> bool.
Variable has_delay_publisher has_status_source : bool.
Variable queue_name : string.
Variable delivery_limit : Z.
Implicit Types w : world (amqp_state price_log).

Definition repricer_consumer (cache : status_cache) (m : message) : prog (amqp gateway_price) status_cache :=
  handle_message (handle (E := amqp gateway_price) (fun _ e => AService e) gate has_collection)
    has_delay_publisher has_status_source queue_name delivery_limit cache m.

Lemma repricer_settles_nothing event :
  guarded (S := amqp_state price_log) settled_same
    (handle (E := amqp gateway_price) (fun _ e => AService e) gate has_collection event).
Proof.
  unfold handle, handle_claimed, _handle_catalog_rule, _find_catalog_rule, _find_limits, _find_allies,
    _write_history, insert_document, _update_catalog_execution_state, _complete_claim, update_price. quiet_tac.
Qed.

(** A message the repricer's consumer returns from is disposed of exactly
    once: acknowledged, rejected, returned to the broker, or acknowledged after
    a delayed copy of it was published.  When an exception escapes instead, the
    message is left unsettled, and the exception is one of [escapes]. *)
Theorem message_settled_exactly_once cache m w :
  wp (repricer_consumer cache m)
    (fun w' r => match r with
       | Ok _ => disposed w w'
       | Err e => settled_same w w' /\ escapes _event_from_message queue_name delivery_limit (repricer_raises has_delay_publisher) m e
       end) w.
Proof.
  apply wp_consume; [intros; apply wp_repricer_error|apply repricer_settles_nothing].
Qed.
End Assembled.

(** ** Runs on the reference server *)

Section Examples.
#[local] Instance no_repr : PyRepr := fun _ => EmptyString.
#[local] Instance one_payload : PyJson := fun _ => Ok (VDict (mk_doc
  [("event_id"%string, VStr "e-1"); ("event_type"%string, VStr "items"); ("seller_id"%string, VInt 7);
   ("resource"%string, VStr "/items/MLA1"); ("buybox_price"%string, VInt 15)])).
#[local] Instance one_rule : RepricerModels := {
  validate_item := fun _ => Ok {| it_id := "MLA1"; it_price := DFin 16 0 |};
  validate_rule := fun _ => raise_value "unused";
  validate_catalog_rule := fun _ => Ok sample_rule;
  validate_limits := fun _ => raise_value "unused";
  validate_allies := fun _ => raise_value "unused";
}.
#[local] Instance aware : MongoConf := aware_conf.

Definition sample_gate : EventGate :=
  LeaseGate (default_claim_store "event_claims" sample_store) "repricer" "repricer.items".
Definition repricer_world (S : Type) (s : S) : world S :=
  World ({[ ("items"%string, "MLA1"%string) :=
              mk_doc [("_id"%string, VStr "MLA1"); ("seller_id"%string, VStr "7")];
            ("repricer_catalog_rules"%string, "r-1"%string) :=
              mk_doc [("_id"%string, VStr "r-1"); ("seller_id"%string, VStr "7"); ("item_id"%string, VStr "MLA1");
                      ("active"%string, VBool true)] ]}) day None s.
Definition motor (c : string) : bool := negb (String.eqb c "repricer_limits" || String.eqb c "repricer_allies").

(** A gateway that answers every price with [status]: an error from 400 on. *)
Definition answer (status : Z) {X : Type} (e : gateway_price X) (s : price_log) : price_log * result X :=
  match e in gateway_price X return price_log * result X with
  | GUpdatePrice seller item p _ =>
      if status <? 400 then (s ++ [(seller, item, p)], Ok (status, 12))
      else (s, Err (Exn "HTTPStatusError" "" [VInt status]))
  end.
Definition gateway_run (status : Z) : ExtRun gateway_price price_log :=
  {| ext_run := fun X e s => answer status e s; uuid_run := fun _ => "0123456789abcdef0123456789abcdef"%string |}.
Definition amqp_run (status : Z) : ExtRun (amqp gateway_price) (amqp_state price_log) := {|
  ext_run := fun X e s =>
    match e in amqp _ X return amqp_state price_log * result X with
    | AAck => (AmqpState (settled s ++ [Acked]) (service s), Ok tt)
    | ANack b => (AmqpState (settled s ++ [Nacked b]) (service s), Ok tt)
    | APublishDelay _ _ ms => (AmqpState (settled s ++ [Delayed ms]) (service s), Ok tt)
    | AService e => let '(s', r) := answer status e (service s) in (AmqpState (settled s) s', r)
    end;
  uuid_run := fun _ => "0123456789abcdef0123456789abcdef"%string |}.

Definition sample_event : RepricerEvent :=
  {| re_event_id := "e-1"; re_event_type := "items"; re_seller_id := 7; re_resource := "/items/MLA1";
     re_idempotency_key := "k-1"; re_buybox_price := Some (DFin 15 0); re_competitor_account_id := None |}.
Definition sample_delivery (status : Z) :=
  run (H0 := amqp_run status)
    (repricer_consumer sample_gate motor false false REPRICER_ITEMS_QUEUE REPRICER_DELIVERY_LIMIT ∅ (Message "{}" None))
    (repricer_world _ (AmqpState [] [])).

(** The price is posted, the history row is refused, the claim is released. *)
Example price_posted_history_refused :
  let r := run (H0 := gateway_run 200) (handle (fun _ e => e) sample_gate motor sample_event) (repricer_world _ []) in
  exists p, w_ext r.1 = [(7, "MLA1"%string, p)] /\ r.2 = invalid_document /\
    w_db r.1 !! ("repricer_history"%string, "e-1"%string) = None.
Proof. eexists. split; [by vm_compute|]. split; by vm_compute. Qed.

Lemma gateway_sound X (e : gateway_price X) s : ext_spec X e s (answer 200 e s).1 (answer 200 e s).2.
Proof. destruct e. left. split; [done|by eexists]. Qed.
Lemma repricer_never_completes_pricing_witness :
  exists item p, (run (H0 := gateway_run 200) (handle (fun _ e => e) sample_gate motor sample_event) (repricer_world _ [])).1.(w_ext) = [(7, item, p)] /\
    price_decided motor sample_event (w_db (repricer_world price_log [])) item p.
Proof.
  assert (Hgate : forall c, In c engine_collections -> ~ In c (gate_cols sample_gate)).
  { intros c Hc Hg. cbn in Hc, Hg. intuition congruence. }
  pose proof (wp_run (H0 := gateway_run 200) gateway_sound (fun _ => eq_refl) _ _ _
    (repricer_never_completes_pricing sample_gate motor Hgate sample_event (repricer_world price_log []))) as Hw.
  assert (Hr : exists e, (run (H0 := gateway_run 200) (handle (fun _ e => e) sample_gate motor sample_event) (repricer_world _ [])).2 = Err e)
    by (eexists; by vm_compute).
  assert (Hn : w_ext (run (H0 := gateway_run 200) (handle (fun _ e => e) sample_gate motor sample_event) (repricer_world _ [])).1 <> [])
    by (vm_compute; discriminate).
  destruct (run _ _) as [w' r]. cbn [fst snd] in *. destruct Hr as [e ->]. destruct Hw as [Hw|Hw]; [done|exact Hw].
Defined.

(** The message of that delivery is rejected. *)
Example posted_price_is_dead_lettered : settled (w_ext (sample_delivery 200).1) = [Nacked false].
Proof. by vm_compute. Qed.

(** A gateway that answers 400 leaves the message unsettled. *)
Example bad_request_left_unsettled :
  settled (w_ext (sample_delivery 400).1) = [] /\
  exists e, (sample_delivery 400).2 = Err e /\ unclassified_status PERMANENT_HTTP_STATUS_CODES RETRIABLE_HTTP_STATUS_CODES e.
Proof.
  split; [by vm_compute|]. eexists. split; [by vm_compute|]. repeat split; [done..|].
  simpl. intuition discriminate.
Qed.
Example unavailable_is_requeued : settled (w_ext (sample_delivery 503).1) = [Nacked true].
Proof. by vm_compute. Qed.
End Examples.
