(* ===== verification/AutoReply.v ===== *)
(** The auto-reply consumer: [AutoreplyEventHandler], the template matching and
    [AutoreplyAmqpConsumerRunner.handle_message] of
    modules/autoreply/.../consumer.py. *)

From S2P Require Export Broker.

#[local] Open Scope Z_scope.

Record AutoreplyEvent := {
  ae_event_id : string;
  ae_event_type : string;
  ae_seller_id : Z;
  ae_resource : string;
  ae_idempotency_key : string;
}.

(** [str.casefold], and [re.search] with [re.IGNORECASE]: a pattern of a
    template is arbitrary and may be refused. *)
Class PyText := {
  casefold : string -> string;
  re_search_nocase : string -> string -> result bool;
}.

(** The gateway: a request answers a JSON object. *)
Inductive auto_gateway : Type -> Type :=
| GRequest (method path seller_id : string) (json : option doc) : auto_gateway doc.

Definition AUTOREPLY_EVENTS_QUEUE : string := "zeler.autoreply.events".
Definition AUTOREPLY_DELIVERY_LIMIT : Z := 5.
Definition DEFAULT_EVENT_CLAIM_RETRY_DELAY_MS : Z := 1000.
Definition PERMANENT_HTTP_STATUS_CODES : list Z := [401; 403; 404; 422].
Definition RETRIABLE_HTTP_STATUS_CODES : list Z := [408; 429].

(** ** Matching *)

Section Matching.
Context `{PyRepr} `{PyText}.

Definition template_matches (text match_type pattern : string) : result bool :=
  if String.eqb match_type "keyword" then Ok (contains (casefold pattern) (casefold text))
  else if String.eqb match_type "regex" then re_search_nocase pattern text
  else Ok false.

Fixpoint select_matching_template (text : string) (templates : list doc) : result (option doc) :=
  match templates with
  | [] => Ok None
  | template :: rest =>
      let! match_type := doc_at template "match_type" in
      let! pattern := doc_at template "pattern" in
      let! hit := template_matches text (py_str match_type) (py_str pattern) in
      if (hit : bool) then Ok (Some template) else select_matching_template text rest
  end.

Definition resource_type_from_event (event_type : string) : string :=
  if startswith "messages." event_type then "message" else "question".

Definition resource_id_from_resource (resource : doc) : string :=
  py_str (doc_get_or resource "id" (doc_get resource "_id")).

Definition build_answer_payload (resource_type resource_id answer_text : string) : doc :=
  let key := if String.eqb resource_type "message" then "message_id"%string else "question_id"%string in
  mk_doc [(key, VStr resource_id); ("text"%string, VStr answer_text)].
End Matching.

(** ** The event handler *)

Section Handler.
Context {E : Type -> Type} `{PyRepr} `{PyText}.
Variable gateway : forall X, auto_gateway X -> E X.
Variable gate : EventGate.

Definition request (method path seller_id : string) (json : option doc) : prog E doc :=
  ext (gateway _ (GRequest method path seller_id json)).

Definition history_id (event : AutoreplyEvent) : string := "autoreply-history-" ++ ae_idempotency_key event.

Definition history_document (event : AutoreplyEvent) (resource_type resource_id outcome : string)
    (template_id : val) (answer_payload : doc) (created_at : Z) : doc :=
  mk_doc [("_id", VStr (history_id event)); ("seller_id", VStr (str_of_Z (ae_seller_id event)));
          ("event_id", VStr (ae_event_id event)); ("idempotency_key", VStr (ae_idempotency_key event));
          ("resource_type", VStr resource_type); ("resource_id", VStr resource_id);
          ("outcome", VStr outcome); ("template_id", template_id); ("answer_payload", VDict answer_payload);
          ("created_at", VDate true created_at); ("schema_version", VInt 1)]%string.

Definition _record_history (event : AutoreplyEvent) (resource_type resource_id outcome : string)
    (template_id : val) (answer_payload : doc) : prog E unit :=
  let* created_at := now_utc in
  mongo (MInsertOne "autoreply_history"
    (history_document event resource_type resource_id outcome template_id answer_payload created_at)).

Definition _complete_claim (handle : GateHandle) : prog E unit :=
  do* event_complete handle in Ret tt.

Definition templates_of (seller_id : string) : filter :=
  FAnd [FEq ["seller_id"%string] (VStr seller_id); FEq ["enabled"%string] (VBool true)].

(** The body of the [try] of [handle]. *)
Definition handle_claimed (event : AutoreplyEvent) (claim : GateHandle) : prog E string :=
  let seller_id := str_of_Z (ae_seller_id event) in
  let* resource := request "GET" (ae_resource event) seller_id None in
  let* found := mongo (MFind "autoreply_templates" (templates_of seller_id) []) in
  let templates := firstn 100 found in
  let* matched := of_result (select_matching_template (py_str (doc_get_or resource "text" (VStr ""))) templates) in
  let resource_type := resource_type_from_event (ae_event_type event) in
  let resource_id := resource_id_from_resource resource in
  match matched with
  | None =>
      do* _record_history event resource_type resource_id "no_match" VNone ∅ in
      do* _complete_claim claim in
      Ret "no_match"%string
  | Some matched =>
      let* answer_text := of_result (doc_at matched "answer_text") in
      let answer_payload := build_answer_payload resource_type resource_id (py_str answer_text) in
      do* request "POST" "/answers" seller_id (Some answer_payload) in
      let* template_id := of_result (doc_at matched "_id") in
      do* _record_history event resource_type resource_id "answered" (VStr (py_str template_id)) answer_payload in
      do* _complete_claim claim in
      Ret "answered"%string
  end.

Definition handle (event : AutoreplyEvent) : prog E string :=
  let* claim := event_claim gate (ae_idempotency_key event) in
  match claim with
  | None => Ret "duplicate"%string
  | Some claim =>
      catch (handle_claimed event claim)
        (fun exc => do* attempt (event_release claim) in Raise exc)
  end.
End Handler.

(** ** The transport *)

Section Transport.
Context `{PyRepr} `{PyJson}.

Definition _normalize_autoreply_resource (event_type resource : string) : string :=
  if startswith "messages." event_type && negb (blank resource) && negb (contains "/" resource)
  then "/messages/" ++ resource else resource.

Definition _autoreply_event_from_message (m : message) : result AutoreplyEvent :=
  let! decoded := json_loads (msg_body m) in
  match decoded with
  | VDict payload =>
      let! event_type := doc_at payload "event_type" in
      let! event_id := doc_at payload "event_id" in
      let! seller := doc_at payload "seller_id" in
      let! seller_id := py_int seller in
      let! resource := doc_at payload "resource" in
      let! key := _idempotency_key m payload in
      Ok {| ae_event_id := py_str event_id; ae_event_type := py_str event_type; ae_seller_id := seller_id;
            ae_resource := _normalize_autoreply_resource (py_str event_type) (py_str resource);
            ae_idempotency_key := key |}
  | _ => raise_value "autoreply event payload must be a JSON object"
  end.

Context {E : Type -> Type}.
Variable handler : AutoreplyEvent -> prog (amqp E) string.
Variable has_delay_publisher has_status_source : bool.
Variable queue_name : string.
Variable delivery_limit : Z.

(** The [except] clauses of [handle_message], in order. *)
Definition on_error (m : message) (event : option AutoreplyEvent) (exc : exn) : prog (amqp E) unit :=
  if isinstance exc "GatewayRateLimitError" then requeue_later has_delay_publisher queue_name m (exn_int exc * 1000)
  else if isinstance exc "HTTPStatusError" then
    let status_code := exn_int exc in
    if (status_code =? 404) &&
       match event with Some event => startswith "messages." (ae_event_type event) | None => false end
    then ack
    else if z_in status_code PERMANENT_HTTP_STATUS_CODES then nack false
    else if (500 <=? status_code) || z_in status_code RETRIABLE_HTTP_STATUS_CODES then nack true
    else Raise exc
  else if isinstance exc "ConnectError" || isinstance exc "TimeoutException" then nack true
  else if isinstance exc "EventClaimTimeoutError"
  then requeue_later has_delay_publisher queue_name m DEFAULT_EVENT_CLAIM_RETRY_DELAY_MS
  else if isinstance exc "RuntimeError" then
    if String.eqb (exn_msg exc) "gateway_backpressure" then nack true else nack false
  else nack false.

Definition handle_message (cache : status_cache) (m : message) : prog (amqp E) status_cache :=
  consume _autoreply_event_from_message ae_seller_id on_error handler
    has_status_source queue_name delivery_limit cache m.
End Transport.

(** ** What a delivery answers and records *)

(** The gateway as the list of what it answered and of the posts it accepted: a
    failed post may have been accepted. *)
Inductive exchange :=
| Answered (seller path : string) (resource : doc)
| Posted (seller path : string) (json : option doc).
Abbreviation answer_log := (list exchange).
#[export] Instance auto_gateway_spec : ExtSpec auto_gateway answer_log := fun X e =>
  match e in auto_gateway X return answer_log -> answer_log -> result X -> Prop with
  | GRequest method path seller json => fun s s' r =>
      if String.eqb method "POST" then
        s' = s ++ [Posted seller path json] /\ (exists d, r = Ok d) \/
        (s' = s \/ s' = s ++ [Posted seller path json]) /\ exists e, r = Err e
      else
        (exists d, s' = s ++ [Answered seller path d] /\ r = Ok d) \/ s' = s /\ exists e, r = Err e
  end.

(** *** What a delivery owes *)

Section Due.
Context `{PyRepr} `{PyText} `{MongoConf}.

(** A keyword template is found in the text, case ignored; a regular expression matches somewhere. *)
Definition template_hits (text : string) (t : doc) : Prop := exists match_type pattern,
  doc_at t "match_type" = Ok match_type /\ doc_at t "pattern" = Ok pattern /\
  (py_str match_type = "keyword"%string /\ contains (casefold (py_str pattern)) (casefold text) = true \/
   py_str match_type = "regex"%string /\ re_search_nocase (py_str pattern) text = Ok true).
Definition first_hit (text : string) (ts : list doc) (t : doc) : Prop :=
  exists before after, ts = before ++ t :: after /\ template_hits text t /\ Forall (fun x => ~ template_hits text x) before.
(** The first hundred of the seller's enabled templates, as they are stored. *)
Definition listed (event : AutoreplyEvent) (db : database) (ts : list doc) : Prop := exists ds,
  ts = firstn 100 (dec <$> ds) /\
  forall d, d ∈ ds <-> exists i, db !! ("autoreply_templates"%string, i) = Some d /\
    match_eq d ["seller_id"%string] (VStr (str_of_Z (ae_seller_id event))) = true /\ match_eq d ["enabled"%string] (VBool true) = true.
Definition text_of (resource : doc) : string := match resource !! "text"%string with Some v => py_str v | None => EmptyString end.
Definition id_of (resource : doc) : string := py_str (match resource !! "id"%string with Some v => v | None => default VNone (resource !! "_id"%string) end).

(** [payload] answers [resource] with the text of the first of the stored templates that hits its text. *)
Definition answer_due (event : AutoreplyEvent) (db : database) (resource payload : doc) : Prop := exists ts t answer,
  listed event db ts /\ first_hit (text_of resource) ts t /\ t !! "answer_text"%string = Some answer /\
  payload = mk_doc [(if startswith "messages." (ae_event_type event) then "message_id" else "question_id", VStr (id_of resource)); ("text", VStr (py_str answer))]%string.

Lemma template_matches_hits text t mt p b : doc_at t "match_type" = Ok mt -> doc_at t "pattern" = Ok p ->
  template_matches text (py_str mt) (py_str p) = Ok b -> template_hits text t <-> b = true.
Proof using Type.
  intros Hmt Hp. unfold template_matches, template_hits. split.
  - intros (mt' & p' & Hmt' & Hp' & Hh). rewrite Hmt in Hmt'. rewrite Hp in Hp'. simplify_eq. destruct Hh as [[He Hc]|[He Hc]]; rewrite He in *; cbn in *; congruence.
  - intros ->. exists mt, p. split; [done|]. split; [done|]. destruct (String.eqb_spec (py_str mt) "keyword") as [He|_]; [left; split; [done|congruence]|].
    destruct (String.eqb_spec (py_str mt) "regex") as [He|_]; [by right|congruence].
Qed.
Lemma select_first text ts o : select_matching_template text ts = Ok o ->
  match o with Some t => first_hit text ts t | None => Forall (fun x => ~ template_hits text x) ts end.
Proof using Type.
  revert o. induction ts as [|x ts IH]; intros o Hs; cbn [select_matching_template] in Hs; [by injection Hs as <-|].
  apply result_bind_Ok in Hs as (mt & Hmt & Hs). apply result_bind_Ok in Hs as (p & Hp & Hs). apply result_bind_Ok in Hs as (b & Hb & Hs).
  pose proof (template_matches_hits text x mt p b Hmt Hp Hb) as Hx. destruct b.
  - injection Hs as <-. exists [], ts. split; [done|]. split; [by apply Hx|done].
  - assert (Hno : ~ template_hits text x) by (intros Ht; by apply Hx in Ht). specialize (IH o Hs). destruct o as [t|].
    + destruct IH as (before & after & -> & Ht & Hb'). exists (x :: before), after. split; [done|]. split; [done|]. by constructor.
    + by constructor.
Qed.
Lemma text_of_resource resource : py_str (doc_get_or resource "text" (VStr "")) = text_of resource.
Proof using Type. unfold doc_get_or, text_of. by destruct (resource !! _). Qed.
Lemma id_of_resource resource : resource_id_from_resource resource = id_of resource.
Proof using Type. unfold resource_id_from_resource, doc_get_or, doc_get, id_of. by destruct (resource !! "id"%string). Qed.
Lemma payload_of event resource answer : build_answer_payload (resource_type_from_event (ae_event_type event)) (resource_id_from_resource resource) (py_str answer) =
  mk_doc [(if startswith "messages." (ae_event_type event) then "message_id" else "question_id", VStr (id_of resource)); ("text", VStr (py_str answer))]%string.
Proof using Type. unfold build_answer_payload, resource_type_from_event. rewrite id_of_resource. by destruct (startswith _ _). Qed.
End Due.

Section Answers.
Context `{PyRepr} `{PyText} `{MongoConf}.
Variable gate : EventGate.
(** The gate keeps its documents elsewhere. *)
Hypothesis gate_apart : ~ In "autoreply_history"%string (gate_cols gate).
Hypothesis templates_apart : ~ In "autoreply_templates"%string (gate_cols gate).
Implicit Types w : world answer_log.
Abbreviation history := "autoreply_history"%string.
Abbreviation undisturbed := (guarded (E := auto_gateway) (S := answer_log) (calm history)).

Definition fetched (event : AutoreplyEvent) (resource : doc) : exchange := Answered (str_of_Z (ae_seller_id event)) (ae_resource event) resource.
Definition posted (event : AutoreplyEvent) (payload : doc) : exchange := Posted (str_of_Z (ae_seller_id event)) "/answers" (Some payload).

(** A history row of the delivery, where there was none. *)
Definition recorded (event : AutoreplyEvent) (outcome : string) (payload : doc) w w' : Prop :=
  w_db w !! (history, history_id event) = None /\
  exists rt ri tid t,
    w_db w' !! (history, history_id event) =
      Some (encode_doc (history_document event rt ri outcome tid payload t)).

Definition answer_post (event : AutoreplyEvent) w w' (r : result string) : Prop :=
  match r with
  | Ok s =>
      s = "duplicate"%string /\ calm history w w' \/
      (exists resource ts, s = "no_match"%string /\ w_ext w' = w_ext w ++ [fetched event resource] /\ recorded event "no_match" ∅ w w' /\
         listed event (w_db w) ts /\ Forall (fun t => ~ template_hits (text_of resource) t) ts) \/
      (exists resource payload, s = "answered"%string /\ w_ext w' = w_ext w ++ [fetched event resource; posted event payload] /\
         recorded event "answered" payload w w' /\ answer_due event (w_db w) resource payload)
  | Err _ => w_ext w' = w_ext w \/
      exists resource, w_ext w' = w_ext w ++ [fetched event resource] \/
        exists payload, answer_due event (w_db w) resource payload /\ w_ext w' = w_ext w ++ [fetched event resource; posted event payload]
  end.

Lemma history_document_id event rt ri outcome tid payload t :
  doc_id (encode_doc (history_document event rt ri outcome tid payload t)) = Some (history_id event).
Proof. reflexivity. Qed.

Lemma wp_record {B} event rt ri outcome tid payload (k : unit -> prog auto_gateway B) Q w :
  (forall w' e, w_ext w' = w_ext w -> Q w' (Err e)) ->
  (forall w', w_ext w' = w_ext w -> recorded event outcome payload w w' -> wp (k tt) Q w') ->
  wp (bind (_record_history event rt ri outcome tid payload) k) Q w.
Proof.
  intros He Hk. unfold _record_history. apply wp_bind, (wp_calm_bind history); [apply calm_now| |by intros w' e [? _]; apply He].
  intros w1 t [He1 Hh1]. apply wp_perform. intros w2 r (Hm & _ & He2 & _).
  unfold ext_same in He1. assert (Hext : w_ext w2 = w_ext w) by congruence.
  destruct Hm as [Hm|[-> _]]; [|by apply He]. simpl in Hm.
  destruct r as [[]|e]; [|by apply He]. apply Hk; [done|].
  unfold inserts in Hm. rewrite history_document_id in Hm.
  destruct (w_db w1 !! _) eqn:Hl; simpl in Hm; [destruct Hm; discriminate|].
  unfold stores in Hm. destruct (unique_ok _ _ _ _); destruct Hm as [Hdb Hr]; [|discriminate].
  split; [by rewrite <- Hh1|]. exists rt, ri, tid, t. rewrite Hdb. by rewrite lookup_insert_eq.
Qed.

Lemma calm_complete h : handle_cols h = gate_cols gate -> undisturbed (_complete_claim h).
Proof using gate_apart.
  intros Hh. eapply within_calm; [|exact gate_apart]. rewrite <- Hh. unfold _complete_claim.
  apply within_bind; [apply within_event_complete|done].
Qed.

Lemma wp_request {B} method path seller json (k : doc -> prog auto_gateway B) Q w :
  (forall w' r, ext_spec doc (GRequest method path seller json) (w_ext w) (w_ext w') r -> w_db w' = w_db w ->
     match r with Ok d => wp (k d) Q w' | Err e => Q w' (Err e) end) ->
  wp (bind (request (fun _ e => e) method path seller json) k) Q w.
Proof. intros HQ. apply wp_bind, wp_perform. intros w' r (Hs & Hdb & _). by apply HQ. Qed.

(** The answer was posted (or the delivery had none to post): the rest only
    records it. *)
Lemma wp_finish event claim rt ri outcome tid payload w0 w :
  handle_cols claim = gate_cols gate -> coll_same history w0 w ->
  (forall w' r, w_ext w' = w_ext w -> (forall s, r = Ok s -> s = outcome /\ recorded event outcome payload w0 w') ->
    answer_post event w0 w' r) ->
  wp (do* _record_history event rt ri outcome tid payload in do* _complete_claim claim in Ret outcome)
    (answer_post event w0) w.
Proof using gate_apart.
  intros Hc Hw HQ. apply wp_record; [intros w1 e He1; by apply HQ|]. intros w1 He1 Hrec.
  apply (wp_calm_bind history); [by apply calm_complete| |].
  - intros w2 [] [He2 Hc2]. unfold ext_same in He2. apply HQ; [congruence|]. intros s [= <-]. split; [done|].
    destruct Hrec as [Hn Hs]. split; [by rewrite <- Hw|]. by rewrite Hc2.
  - intros w2 e [He2 _]. apply HQ; [unfold ext_same in *; congruence|done].
Qed.

(** The templates the query finds. *)
Lemma found_listed (event : AutoreplyEvent) (now : Z) (db : database) (ds : list doc) :
  (forall d, d ∈ ds <-> exists i, selected now db "autoreply_templates" (templates_of (str_of_Z (ae_seller_id event))) i d) ->
  listed event db (firstn 100 (dec <$> ds)).
Proof using Type.
  intros Hds. exists ds. split; [done|]. intros d. rewrite Hds. unfold selected, templates_of. cbn [matches forallb].
  split; intros (i & Hd & Hm); exists i; rewrite !andb_true_iff in *; tauto.
Qed.
Lemma listed_same (event : AutoreplyEvent) (db db' : database) ts : (forall i, db' !! ("autoreply_templates"%string, i) = db !! ("autoreply_templates"%string, i)) ->
  listed event db' ts -> listed event db ts.
Proof using Type. intros Hs (ds & Ht & Hds). exists ds. split; [done|]. intros d. rewrite Hds. split; intros (i & Hi); exists i; by rewrite Hs in *. Qed.

Lemma wp_autoreply_claimed event claim w0 w :
  handle_cols claim = gate_cols gate -> calm history w0 w -> coll_same "autoreply_templates" w0 w ->
  wp (handle_claimed (fun _ e => e) event claim) (answer_post event w0) w.
Proof using gate_apart.
  intros Hc [Hw0 Hh0] Ht0. unfold ext_same in Hw0. unfold handle_claimed. apply wp_request.
  intros w1 [resource|e] Hs1 Hdb1; simpl in Hs1.
  2: { left. destruct Hs1 as [(d & _ & [=])|[Hs1 _]]. congruence. }
  destruct Hs1 as [(d & Hs1 & [= <-])|[_ [? [=]]]]. apply wp_bind, wp_perform. intros w2 r (Hm & _ & He2 & _).
  assert (Hgot : w_ext w2 = w_ext w0 ++ [fetched event resource]) by (rewrite He2, Hs1, Hw0; done).
  assert (Hh2 : coll_same history w0 w2).
  { intros i. rewrite <- Hh0, <- Hdb1. by eapply mongo_spec_frame. }
  destruct r as [found|e]; [|right; exists resource; by left].
  destruct Hm as [(_ & ds & Hin & _ & [= ->])|[Hm _]]; [|discriminate].
  assert (Hlist : listed event (w_db w0) (firstn 100 (dec <$> ds))).
  { apply (listed_same event _ (w_db w1)); [intros i; by rewrite Hdb1, Ht0|by eapply found_listed]. }
  apply wp_bind, wp_of_result. rewrite text_of_resource. destruct (select_matching_template _ _) as [sel|e] eqn:Hsel; [|right; exists resource; by left].
  apply select_first in Hsel. destruct sel as [t|].
  - apply wp_bind, wp_of_result. destruct (doc_at t "answer_text") as [answer_text|e] eqn:Htext; [|right; exists resource; by left].
    rewrite payload_of. set (payload := mk_doc _). assert (Hdue : answer_due event (w_db w0) resource payload).
    { exists (firstn 100 (dec <$> ds)), t, answer_text. split; [done|]. split; [done|]. split; [|done].
      unfold doc_at in Htext. destruct (t !! "answer_text"%string); [congruence|done]. }
    apply wp_request. intros w3 r3 Hs3 Hdb3. simpl in Hs3.
    assert (Hh3 : coll_same history w0 w3) by (intros i; rewrite Hdb3; apply Hh2).
    assert (Hlog : forall l, l = w_ext w2 ++ [posted event payload] -> l = w_ext w0 ++ [fetched event resource; posted event payload]) by (intros l ->; by rewrite Hgot, <- app_assoc).
    destruct r3 as [d|e].
    2: { destruct Hs3 as [[_ [? ?]]|[[Hs3|Hs3] _]]; [done|right; exists resource; left; congruence|right; exists resource; right; exists payload; auto]. }
    destruct Hs3 as [[Hs3 _]|[_ [? ?]]]; [|done]. apply Hlog in Hs3.
    apply wp_bind, wp_of_result. destruct (doc_at t "_id") as [tid|e]; [|right; exists resource; right; by exists payload].
    apply wp_finish; [done|done|]. intros w4 [s|e] He4 Hrec.
    + destruct (Hrec s) as [-> Hr]; [done|]. right; right. exists resource, payload. split_and!; try done. by rewrite He4.
    + right. exists resource. right. exists payload. by rewrite He4.
  - apply wp_finish; [done|done|]. intros w4 [s|e] He4 Hrec; [|right; exists resource; left; congruence].
    destruct (Hrec s) as [-> Hr]; [done|]. right; left. eexists resource, _. split_and!; [done|congruence|done|exact Hlist|exact Hsel].
Qed.

End Answers.

(** ** The assembled consumer *)

Section Assembled.
Context `{PyRepr} `{PyJson} `{PyText} `{MongoConf}.
Variable gate : EventGate.
Variable has_delay_publisher has_status_source : bool.
Variable queue_name : string.
Variable delivery_limit : Z.
Implicit Types w : world (amqp_state answer_log).
Implicit Types cache : status_cache.

Definition autoreply_consumer cache (m : message) : prog (amqp auto_gateway) status_cache :=
  handle_message (handle (E := amqp auto_gateway) (fun _ e => AService e) gate)
    has_delay_publisher has_status_source queue_name delivery_limit cache m.

Definition autoreply_raises (event : option AutoreplyEvent) (e : exn) : Prop :=
  unclassified_status PERMANENT_HTTP_STATUS_CODES RETRIABLE_HTTP_STATUS_CODES e \/ has_delay_publisher = true.

Lemma wp_autoreply_error m event exc cache w :
  wp (do* on_error has_delay_publisher queue_name m event exc in Ret cache)
    (fun w' r => match r with Ok _ => disposed w w' | Err e => settled_same w w' /\ autoreply_raises event e end) w.
Proof. unfold on_error, autoreply_raises. settle_tac. Qed.

Lemma autoreply_settles_nothing event :
  guarded (S := amqp_state answer_log) settled_same
    (handle (E := amqp auto_gateway) (fun _ e => AService e) gate event).
Proof. unfold handle, handle_claimed, _record_history, _complete_claim, request. quiet_tac. Qed.

(** A message the auto-reply consumer returns from is disposed of exactly
    once.  When an exception escapes instead, the message is left unsettled and
    the exception is an HTTP status neither retried nor dead-lettered, a failed
    delay publisher, or an unexpected decoding error of an exhausted message. *)
Theorem autoreply_settled_exactly_once cache m w :
  wp (autoreply_consumer cache m)
    (fun w' r => match r with
       | Ok _ => disposed w w'
       | Err e => settled_same w w' /\
           escapes _autoreply_event_from_message queue_name delivery_limit autoreply_raises m e
       end) w.
Proof. apply wp_consume; [intros; apply wp_autoreply_error|apply autoreply_settles_nothing]. Qed.
End Assembled.

(** ** Runs on the reference server *)

Section Examples.
#[local] Instance no_repr : PyRepr := fun _ => EmptyString.
#[local] Instance lower_text : PyText := {
  casefold := lower;
  re_search_nocase := fun p t => Ok (contains (lower p) (lower t));
}.
#[local] Instance aware : MongoConf := aware_conf.
(** A gateway whose resource is one question, and which accepts every answer. *)
Definition sample_resource : doc := mk_doc [("id"%string, VStr "q-1"); ("text"%string, VStr "Hay STOCK?")].
#[local] Instance question_gateway : ExtRun auto_gateway answer_log := {
  ext_run := fun X e s =>
    match e in auto_gateway X return answer_log * result X with
    | GRequest method path seller json =>
        if String.eqb method "POST" then (s ++ [Posted seller path json], Ok ∅)
        else (s ++ [Answered seller path sample_resource], Ok sample_resource)
    end;
  uuid_run := fun _ => "0123456789abcdef0123456789abcdef"%string;
}.

Definition sample_gate : EventGate :=
  LeaseGate (default_claim_store "processed_event_claims" sample_store) "autoreply" AUTOREPLY_EVENTS_QUEUE.
Definition sample_question : AutoreplyEvent :=
  {| ae_event_id := "e-1"; ae_event_type := "questions.new"; ae_seller_id := 7;
     ae_resource := "/questions/q-1"; ae_idempotency_key := "k-1" |}.
Definition stock_template : doc := mk_doc
  [("_id"%string, VStr "t-1"); ("seller_id"%string, VStr "7"); ("enabled"%string, VBool true);
   ("match_type"%string, VStr "keyword"); ("pattern"%string, VStr "stock"); ("answer_text"%string, VStr "Si")].
Definition templates_world (rows : database) : world answer_log :=
  World (rows ∪ {[ ("autoreply_templates"%string, "t-1"%string) := stock_template ]}) day None [].
Definition sample_exchange : answer_log :=
  [Answered "7" "/questions/q-1" sample_resource;
   Posted "7" "/answers" (Some (mk_doc [("question_id"%string, VStr "q-1"); ("text"%string, VStr "Si")]))].


(** A delivery interrupted between its history row and its completion: the
    redelivery answers again and then fails on the row. *)
Example interrupted_delivery_answers_again :
  let w := templates_world {[ ("autoreply_history"%string, "autoreply-history-k-1"%string) :=
                                mk_doc [("_id"%string, VStr "autoreply-history-k-1")] ]} in
  let r := run (handle (fun _ e => e) sample_gate sample_question) w in
  r.2 = duplicate_key /\ w_ext r.1 = sample_exchange.
Proof. split; by vm_compute. Qed.
End Examples.
