(* ===== verification/RateLimit.v ===== *)
(** The proxy's rate limit: [RateLimitCounter] of gateway/.../proxy/rate_limit.py,
    one atomic pipeline update per call on the document of a (module, seller). *)

From S2P Require Export Concurrency.

#[local] Open Scope Z_scope.

Definition DEFAULT_RATE_LIMIT : Z := 600.
Definition RATE_LIMIT_WINDOW_SECONDS : Z := 60.
Definition RATE_LIMIT_COLLECTION : string := "rate_limit_counters".

(** [_fixed_window_start]: the UTC-aligned window, in microseconds. *)
Definition _fixed_window_start (value window_s : Z) : Z :=
  let unix_s := Z.quot value second in
  (unix_s - unix_s mod window_s) * second.

(** [f"{x:.0f}"] of a duration: to the nearest second, half to even. *)
Definition seconds_str (us : Z) : string :=
  let q := us / second in
  let r := us mod second in
  str_of_Z (if (2 * r <? second) || ((2 * r =? second) && Z.even q) then q else q + 1).

(** [RateLimitExceeded], carrying its delay in microseconds. *)
Definition rate_limit_exceeded (retry_after : Z) : exn :=
  Exn "RateLimitExceeded" ("rate limit exceeded; retry after " ++ seconds_str retry_after ++ "s") [VInt retry_after].

Definition rate_key (module_id : string) (seller_id : Z) : string :=
  (module_id ++ ":" ++ str_of_Z seller_id)%string.

(** The [$set] stage of the update: a new window starts the count over. *)
Definition rate_stage (module_id : string) (seller_id window_start now : Z) : update :=
  let in_window := AEq (AField ["window_start"%string]) (ALit (VDate true window_start)) in
  UPipe [("module_id", ALit (VStr module_id));
         ("seller_id", ALit (VInt seller_id));
         ("window_start", ACond in_window (AField ["window_start"]) (ALit (VDate true window_start)));
         ("count", ACond in_window (AAdd (AField ["count"]) (ALit (VInt 1))) (ALit (VInt 1)));
         ("updated_at", ALit (VDate true now))]%string.

Section Counter.
Context {E : Type -> Type}.

Definition check_and_increment (default_limit window_s : Z) (module_id : string) (seller_id : Z) : prog E unit :=
  let* now := now_utc in
  let window_start := _fixed_window_start now window_s in
  let* doc := mongo (MFindOneAndUpdate RATE_LIMIT_COLLECTION (FEq ["_id"%string] (VStr (rate_key module_id seller_id)))
                       (rate_stage module_id seller_id window_start now) true true) in
  match doc with
  | None => Ret tt
  | Some doc =>
      let* count := of_result (doc_at doc "count") in
      let* count := of_result (py_int count) in
      if default_limit <? count then
        Raise (rate_limit_exceeded (Z.max second (window_start + window_s * second - now)))
      else Ret tt
  end.
End Counter.

(** ** Windows *)

Section Windows.
Variable window_s : Z.
Hypothesis window_pos : 0 < window_s.

Lemma window_spec t : 0 <= t ->
  _fixed_window_start t window_s <= t < _fixed_window_start t window_s + window_s * second /\
  (_fixed_window_start t window_s) mod (window_s * second) = 0.
Proof.
  intros Ht. unfold _fixed_window_start. rewrite Z.quot_div_nonneg by (unfold second; lia).
  pose proof (Z.div_mod t second) as Hd. pose proof (Z.mod_pos_bound t second) as Hb.
  pose proof (Z.div_mod (t / second) window_s) as Hd2. pose proof (Z.mod_pos_bound (t / second) window_s) as Hb2.
  unfold second in *. split; [nia|].
  replace ((t / 1000000 - (t / 1000000) mod window_s) * 1000000)
    with (t / 1000000 / window_s * (window_s * 1000000)) by nia. apply Z.mod_mul. lia.
Qed.

(** The start of the window an instant falls in is determined by it. *)
Lemma window_same W t : 0 <= W -> W mod (window_s * second) = 0 -> W <= t < W + window_s * second ->
  _fixed_window_start t window_s = W.
Proof.
  intros HW Hm Ht. destruct (window_spec t) as [[Hl Hu] Hm']; [lia|].
  assert (HP : 0 < window_s * second) by (unfold second; lia). revert Hm Hm' Hl Hu Ht HP.
  generalize (_fixed_window_start t window_s) as W'. generalize (window_s * second) as P.
  intros P W' Hm Hm' Hl Hu Ht HP. apply Z.div_exact in Hm; [|lia]. apply Z.div_exact in Hm'; [|lia].
  assert (W' / P = W / P); [|congruence]. nia.
Qed.
End Windows.

(** ** The budget of a window *)

(** What a counter document says about the window [W]. *)
Definition in_window (W : Z) (d : doc) : bool := agg_eq (d !! "window_start"%string) (Some (VDate true (floor_ms W))).
Definition counted (W : Z) (o : option doc) (n : Z) : Prop :=
  match o with
  | None => n = 0
  | Some d => if in_window W d then d !! "count"%string = Some (VInt n) /\ 0 <= n else n = 0
  end.

Definition passed {E : Type -> Type} (p : prog E unit) : bool := match p with Ret _ => true | _ => false end.
Definition tally {A} (f : A -> bool) (l : list A) : Z := Z.of_nat (length (List.filter f l)).

Lemma tally_nil {A} (f : A -> bool) : tally f [] = 0.
Proof. done. Qed.
Lemma tally_cons {A} (f : A -> bool) x l : tally f (x :: l) = Z.b2z (f x) + tally f l.
Proof. unfold tally. simpl. destruct (f x); simpl; lia. Qed.
Lemma tally_insert {A} (f : A -> bool) l i x y :
  l !! i = Some x -> tally f (<[i := y]> l) = tally f l - Z.b2z (f x) + Z.b2z (f y).
Proof.
  revert i. induction l as [|a l IH]; intros [|i] Hi; simplify_eq/=; rewrite !tally_cons; [lia|]. rewrite IH by done. lia.
Qed.

Lemma tally_le {A B} (f : A -> bool) (h : B -> bool) (l : list A) (k : list B) :
  length k = length l ->
  (forall i x y, l !! i = Some x -> k !! i = Some y -> f x = true -> h y = true) -> tally f l <= tally h k.
Proof.
  revert k. induction l as [|x l IH]; intros [|y k] Hl Hf; try done. injection Hl as Hl. rewrite !tally_cons.
  specialize (IH k Hl (fun i => Hf (S i))). specialize (Hf 0%nat x y eq_refl eq_refl).
  destruct (f x), (h y); simpl; first [lia | by specialize (Hf eq_refl)].
Qed.

Section Budget.
Context {E : Type -> Type} {S : Type} `{MongoConf} `{ExtSpec E S}.
Implicit Types w : world S.
Variable limit window_s W : Z.
Variable module_id : string.
Variable seller_id : Z.
Hypothesis window_pos : 0 < window_s.
Hypothesis W_nonneg : 0 <= W.
Hypothesis W_window : W mod (window_s * second) = 0.
Abbreviation slot := (RATE_LIMIT_COLLECTION, rate_key module_id seller_id).
Abbreviation call := (check_and_increment (E := E) limit window_s module_id seller_id).

(** The document a call leaves. *)
Lemma stage_window now ins t d : exists d',
  apply_update now ins (rate_stage module_id seller_id W t) d = Some d' /\
  d' !! "_id"%string = d !! "_id"%string /\ in_window W d' = true /\
  d' !! "count"%string =
    Some (if in_window W d then
            match d !! "count"%string with Some (VInt n) => VInt (n + 1) | _ => VNone end
          else VInt 1).
Proof.
  unfold rate_stage, apply_update, apply_stage. cbn [foldl fst snd aeval path_get].
  assert (Hopt : forall o : option val, match o with Some x => Some x | None => None end = o) by by intros [].
  rewrite !Hopt. unfold in_window. cbn [bson_encode agg_true].
  destruct (agg_eq (d !! "window_start"%string) _) eqn:Heq.
  - destruct (d !! "window_start"%string) as [v|] eqn:Hv; [|discriminate].
    destruct (d !! "count"%string) as [[]|]; eexists; (split; [reflexivity|]); doc_simp; done.
  - eexists. split; [reflexivity|]. doc_simp. split; [done|]. split; [|done]. apply val_eqb_refl.
Qed.

(** The passes so far are within the count, and within the budget. *)
Definition budget_inv (spent : Z) (gs : list bool) (w : world S) : Prop :=
  db_wf (w_db w) /\ W <= w_now w /\
  exists n, counted W (w_db w !! slot) n /\ spent + tally id gs <= n /\ spent + tally id gs <= Z.max limit spent.

Lemma seed_id k : upsert_seed (FEq ["_id"%string] (VStr k)) = Some {["_id"%string := VStr k]}.
Proof. reflexivity. Qed.

(** The update counts one more call, or starts the window. *)
Lemma counted_step now t db db' r n :
  db_wf db -> counted W (db !! slot) n ->
  mongo_ok now (MFindOneAndUpdate RATE_LIMIT_COLLECTION (FEq ["_id"%string] (VStr (rate_key module_id seller_id)))
                  (rate_stage module_id seller_id W t) true true) db db' r ->
  db' = db /\ (exists e, r = Err e) \/
  exists m, counted W (db' !! slot) m /\ (m = n + 1 \/ m = 1 /\ n = 0) /\
    exists d', r = Ok (Some d') /\ d' !! "count"%string = Some (VInt m).
Proof.
  intros Hwf Hn Hm. apply mongo_ok_find_one_and_update with (i := rate_key module_id seller_id) in Hm;
    [|done|apply keyed_id]. rewrite at_id_eq in Hm by done.
  destruct (db !! slot) as [d|] eqn:Hd.
  - destruct (stage_window now false t d) as (d' & Hap & Hid & Hin & Hct).
    unfold updates in Hm. rewrite Hap, decide_True in Hm by done. unfold stores in Hm.
    destruct (unique_ok _ _ _ _); destruct Hm as [-> ->]; [|left; eauto]. right.
    simpl in Hn. destruct (in_window W d) eqn:Hw.
    + destruct Hn as [Hc Hn]. rewrite Hc in Hct. exists (n + 1). rewrite lookup_insert_eq. simpl. rewrite Hin.
      split; [split; [done|lia]|]. split; [by left|]. eexists. split; [done|].
      unfold dec, decode_doc. by rewrite lookup_fmap, Hct.
    + subst n. exists 1. rewrite lookup_insert_eq. simpl. rewrite Hin. split; [split; [done|lia]|]. split; [by right|].
      eexists. split; [done|]. unfold dec, decode_doc. by rewrite lookup_fmap, Hct.
  - destruct (stage_window now true t {["_id"%string := VStr (rate_key module_id seller_id)]}) as (d' & Hap & Hid & Hin & Hct).
    unfold inserts, upsert_doc in Hm. rewrite seed_id in Hm. cbn [mbind option_bind] in Hm. rewrite Hap in Hm.
    unfold doc_id in Hm. rewrite Hid, lookup_singleton_eq, Hd in Hm. cbn [is_some] in Hm. unfold stores in Hm.
    destruct (unique_ok _ _ _ _); destruct Hm as [-> ->]; [|left; eauto]. right.
    simpl in Hn. subst n. exists 1. rewrite lookup_insert_eq. simpl. rewrite Hin.
    replace (in_window W {["_id"%string := VStr (rate_key module_id seller_id)]}) with false in Hct by done.
    split; [split; [done|lia]|]. split; [by right|]. eexists. split; [done|].
    unfold dec, decode_doc. by rewrite lookup_fmap, Hct.
Qed.

Definition granted (spent : Z) (g : bool) (r : result unit) : Prop := g = true \/ exists e, r = Err e.

Lemma safe_call spent i :
  cwp (budget_inv spent) (W + window_s * second) call (granted spent) i false.
Proof using window_pos W_nonneg W_window.
  apply cwp_bind, cwp_perform. intros gs w w' r Hg (Hwf & HW & n & Hn & Hs1 & Hs2) [(Hdb & _ & _ & Ht) ->] Hl.
  exists false. rewrite list_insert_id by done. split.
  { split; [by rewrite Hdb|]. split; [lia|]. exists n. by rewrite Hdb. }
  assert (HWt : _fixed_window_start (w_now w') window_s = W) by (apply window_same; [done..|lia]).
  rewrite HWt. generalize (w_now w') as t. clear dependent gs n w w'. intros t.
  apply cwp_bind, cwp_perform. intros gs w w' r Hg (Hwf & HW & n & Hn & Hs1 & Hs2) (Hm & _ & _ & Ht) Hl.
  assert (Hstep : forall r, mongo_ok (w_now w') (MFindOneAndUpdate RATE_LIMIT_COLLECTION
      (FEq ["_id"%string] (VStr (rate_key module_id seller_id))) (rate_stage module_id seller_id W t) true true)
      (w_db w) (w_db w') r -> db_wf (w_db w')) by (intros r' Hr; exact (mongo_ok_wf _ _ _ _ _ Hwf Hr)).
  assert (Hkeep : (w_db w' = w_db w \/ exists m, counted W (w_db w' !! slot) m /\ (m = n + 1 \/ m = 1 /\ n = 0)) ->
      db_wf (w_db w') -> budget_inv spent (<[i := false]> gs) w').
  { intros Hc Hwf'. rewrite list_insert_id by done. split; [done|]. split; [lia|].
    destruct Hc as [Hdb|(m & Hm' & Hmn)]; [exists n; by rewrite Hdb|]. exists m. split; [done|]. lia. }
  destruct Hm as [Hm|[-> Hm]].
  2: { exists false. split; [|right; by eexists]. destruct Hm as [Hdb|[r' Hm]].
       - apply Hkeep; [by left|by rewrite Hdb].
       - apply Hkeep; [|by eapply Hstep]. eapply counted_step in Hm; [|done..].
         destruct Hm as [[? _]|(m & ? & ? & _)]; [by left|right; eauto]. }
  pose proof (Hstep _ Hm) as Hwf'. eapply counted_step in Hm; [|done..].
  destruct Hm as [[Hdb [e ->]]|(m & Hc & Hmn & d' & -> & Hct)].
  { exists false. split; [apply Hkeep; [by left|done]|right; by eexists]. }
  destruct (limit <? m) eqn:Hlim.
  - exists false. split; [apply Hkeep; [right; eauto|done]|].
    unfold doc_at. rewrite Hct. simpl. rewrite Hlim. right. by eexists.
  - exists true. split.
    + split; [done|]. split; [lia|]. exists m. split; [done|]. rewrite (tally_insert id gs i false true) by done.
      simpl. apply Z.ltb_ge in Hlim. lia.
    + unfold doc_at. rewrite Hct. simpl. rewrite Hlim. by left.
Qed.

(** C20: the budget of a window.  Any number of concurrent proxy calls of one
    module and seller, on any replicas, interleaved in any way within one
    window: together with the [spent] calls the window had counted before, at
    most [limit] are let through, whatever connections are lost. *)
Theorem window_budget spent (calls : nat) w ps' w' :
  db_wf (w_db w) -> W <= w_now w -> counted W (w_db w !! slot) spent -> 0 <= spent ->
  reach (W + window_s * second) (replicate calls call, w) (ps', w') ->
  spent + tally passed ps' <= Z.max limit spent.
Proof using window_pos W_nonneg W_window.
  intros Hwf HW Hc Hs Hr.
  assert (Hzero : tally id (replicate calls false) = 0).
  { clear. induction calls as [|c IH]; [done|]. simpl. rewrite tally_cons. by rewrite IH. }
  eapply (reach_ok (budget_inv spent) _ (fun _ => granted spent)) in Hr.
  - destruct Hr as (gs & Hlen & (_ & _ & n & _ & _ & Hb) & Hp). cbn [fst snd] in *.
    assert (Hle : tally passed ps' <= tally id gs); [|lia].
    apply tally_le; [done|]. intros i p g Hpi Hgi Hpass. destruct (Hp i p Hpi) as (g' & Hg' & Hg). simplify_eq.
    destruct p as [[]| |]; try done. destruct Hg as [->|[? ?]]; done.
  - exists (replicate calls false). cbn [fst snd]. split; [by rewrite !length_replicate|]. split.
    + split; [done|]. split; [done|]. exists spent. rewrite Hzero. split; [done|lia].
    + intros i p Hp. apply lookup_replicate in Hp as [-> Hi]. exists false. split; [by apply lookup_replicate|].
      apply safe_call.
Qed.
End Budget.

(** ** The boundary *)

Section Boundary.
#[local] Instance aware : MongoConf := aware_conf.

Lemma run_to (horizon : Z) (ps ps' : list (prog noE unit)) i (p : prog noE unit) (w w' : world unit) r :
  ps !! i = Some p -> run p w = (w', r) -> w_now w' < horizon -> <[i := done_with r]> ps = ps' ->
  reach horizon (ps, w) (ps', w').
Proof.
  intros Hi Hr Hn <-. pose proof (reach_run noE_run_ext noE_run_uuid horizon ps i p w Hi) as Hreach.
  rewrite Hr in Hreach. by apply Hreach.
Qed.

(** Two minutes after the epoch, less half a second. *)
Definition before_boundary : world unit := World ∅ (119 * second + 500 * millisecond) None tt.
Definition one_call : prog noE unit := check_and_increment 1 RATE_LIMIT_WINDOW_SECONDS "sheets" 7.
Definition boundary_pool : list (prog noE unit) := [one_call; sleep second; one_call; one_call].

Lemma window_budget_witness :
  let w : world unit := World ∅ (120 * second) None tt in
  exists w', reach (180 * second) (replicate 2 one_call, w)
    ([Ret tt; Raise (rate_limit_exceeded (60 * second))], w') /\ 0 + tally passed [Ret (E := noE) tt; Raise (rate_limit_exceeded (60 * second))] <= Z.max 1 0.
Proof.
  intros w. set (r1 := run one_call w). set (r2 := run one_call r1.1). exists r2.1.
  assert (Hr : reach (180 * second) (replicate 2 one_call, w) ([Ret tt; Raise (rate_limit_exceeded (60 * second))], r2.1)).
  { etrans; [apply (reach_run noE_run_ext noE_run_uuid _ _ 0%nat one_call w); [done|by vm_compute]|].
    etrans; [apply (reach_run noE_run_ext noE_run_uuid _ _ 1%nat one_call); [done|by vm_compute]|].
    apply (eq_rect _ (fun x => rtc _ _ x) (rtc_refl _ _)). by vm_compute. }
  split; [exact Hr|].
  apply (window_budget 1 RATE_LIMIT_WINDOW_SECONDS (120 * second) "sheets" 7) with (w := w) (calls := 2%nat) (w' := r2.1);
    [done|done|done|apply db_wfb_ok; by vm_compute|done|done|done|exact Hr].
Defined.

(** The window is read from the clock before the counter is updated, and a
    late update of the previous window puts the counter back to it.  With a
    budget of one call, three calls that start around a boundary are all let
    through, two of them at instants of the same window. *)
Theorem late_update_resets_window :
  exists mid w1 w2 w3,
    reach (180 * second) (boundary_pool, before_boundary) (mid :: [Ret tt; Ret tt; one_call], w1) /\
    _fixed_window_start (w_now w1) RATE_LIMIT_WINDOW_SECONDS = 120 * second /\
    reach (180 * second) (mid :: [Ret tt; Ret tt; one_call], w1) ([Ret tt; Ret tt; Ret tt; one_call], w2) /\
    reach (180 * second) ([Ret tt; Ret tt; Ret tt; one_call], w2) ([Ret tt; Ret tt; Ret tt; Ret tt], w3) /\
    _fixed_window_start (w_now w3) RATE_LIMIT_WINDOW_SECONDS = 120 * second.
Proof.
  set (t0 := 119 * second + 500 * millisecond).
  set (mid := match one_call with Vis o k => k (run_op o before_boundary).2 | p => p end).
  set (a1 := (run (sleep (E := noE) second) before_boundary).1).
  set (w1 := (run one_call a1).1). set (w2 := (run mid w1).1). set (w3 := (run one_call w2).1).
  exists mid, w1, w2, w3. split; [|split; [by vm_compute|split; [|split; [|by vm_compute]]]].
  - apply rtc_l with (y := ([mid; sleep second; one_call; one_call], before_boundary)).
    + split; [|by vm_compute]. exists 0%nat, one_call, mid. split; [done|]. split; [|done]. cbn.
      exists (Ok t0). split; [|done]. by repeat split.
    + etrans; [apply (run_to _ _ [mid; Ret tt; one_call; one_call] 1%nat (sleep second) _ a1 (Ok tt)); try done; by vm_compute|].
      apply (run_to _ _ _ 2%nat one_call _ w1 (Ok tt)); try done; by vm_compute.
  - apply (run_to _ _ _ 0%nat mid _ w2 (Ok tt)); try done; by vm_compute.
  - apply (run_to _ _ _ 3%nat one_call _ w3 (Ok tt)); try done; by vm_compute.
Qed.
End Boundary.
