(* ===== verification/Retry.v ===== *)
(** The proxy's upstream calls: [send_single_attempt] and [send_with_retry] of
    gateway/.../proxy/retry.py.  Durations are whole microseconds. *)

From S2P Require Export Concurrency.

#[local] Open Scope Z_scope.

Record request := { rq_method : string; rq_url : string; rq_headers : list (string * string); rq_content : string }.
Record response := { rs_status : Z; rs_headers : list (string * string); rs_content : string }.

(** Headers: names are compared without case.  A request's [get] answers the
    first value, httpx's joins the values. *)
Definition header_get (h : list (string * string)) (name : string) : option string :=
  snd <$> List.find (fun kv => String.eqb (lower kv.1) (lower name)) h.
Definition httpx_get (h : list (string * string)) (name : string) : option string :=
  match List.filter (fun kv => String.eqb (lower kv.1) (lower name)) h with
  | [] => None
  | found => Some (String.concat ", " (map snd found))
  end.
Definition header_set (h : list (string * string)) (name value : string) : list (string * string) :=
  List.filter (fun kv => negb (String.eqb (lower kv.1) (lower name))) h ++ [(name, value)].

(** The client's transport, the random source and the injected sleep. *)
Inductive upstream : Type -> Type :=
| USend (rq : request) : upstream response
| URandom (lo hi : Z) : upstream Z
| USleep (us : Z) : upstream unit.

(** [email.utils.parsedate_to_datetime]: the flag tells an aware result. *)
Class ParseDate := parsedate_to_datetime : string -> option (bool * Z).

Definition retryable_exception (e : exn) : bool :=
  isinstance e "TimeoutException" || isinstance e "ConnectError" || isinstance e "ReadError".

Definition _should_retry_response (r : response) : bool :=
  (rs_status r =? 429) || (500 <=? rs_status r) && (rs_status r <=? 599).

Definition _clone_request (r : request) : request :=
  {| rq_method := rq_method r; rq_url := rq_url r; rq_headers := rq_headers r; rq_content := rq_content r |}.

(** A fraction of a duration, the fraction in thousandths. *)
Definition fraction (us thousandths : Z) : Z := us * thousandths / 1000.

Section Retry.
Context {E : Type -> Type} `{ParseDate}.
Variable up : forall X, upstream X -> E X.
(** Delays in microseconds, the jitter in thousandths. *)
Variable base_delay backoff_factor jitter retry_after_budget : Z.
Variable before_attempt : option (prog E unit).

Definition send (rq : request) : prog E response := ext (up _ (USend rq)).
Definition sleep_fn (us : Z) : prog E unit := ext (up _ (USleep us)).

Definition send_single_attempt (rq : request) : prog E response :=
  let* response := send rq in
  Ret {| rs_status := rs_status response;
         rs_headers := header_set (rs_headers response) "X-Zeler-Upstream-Attempts" "1";
         rs_content := rs_content response |}.

Definition _parse_retry_after (value : option string) : prog E (option Z) :=
  match value with
  | None => Ret None
  | Some value =>
      let stripped := strip value in
      if digits1 stripped then Ret (Some (int_of_digits stripped * second))
      else
        match parsedate_to_datetime stripped with
        | None => Ret None
        | Some (_, retry_at) => let* now := now_utc in Ret (Some (Z.max 0 (retry_at - now)))
        end
  end.

Definition backoff_delay (attempt : Z) : Z := base_delay * backoff_factor ^ (attempt - 1).

Definition _backoff_sleep_s (attempt : Z) : prog E Z :=
  let delay := backoff_delay attempt in
  let jitter_amount := fraction delay jitter in
  ext (up _ (URandom (delay - jitter_amount) (delay + jitter_amount))).

Definition _retry_sleep_s (r : response) (attempt : Z) : prog E Z :=
  if rs_status r =? 429 then
    let* retry_after := _parse_retry_after (httpx_get (rs_headers r) "Retry-After") in
    match retry_after with
    | Some retry_after => Ret retry_after
    | None => _backoff_sleep_s attempt
    end
  else _backoff_sleep_s attempt.

(** The [for] loop: [todo] attempts remain, the next one is number [attempt]. *)
Fixpoint send_loop (todo : nat) (attempt attempts waited : Z) (last_error : option exn) (rq : request) :
    prog E response :=
  match todo with
  | O =>
      match last_error with
      | Some e => Raise e
      | None => Raise (mk_exn "RuntimeError" "send_with_retry exited without response")
      end
  | S todo =>
      do* match before_attempt with Some p => p | None => Ret tt end in
      let* sent := Effects.attempt (send (_clone_request rq)) in
      match sent with
      | Err exc =>
          if retryable_exception exc then
            if attempts <=? attempt then Raise exc
            else
              let* sleep_s := _backoff_sleep_s attempt in
              do* sleep_fn sleep_s in
              send_loop todo (attempt + 1) attempts waited (Some exc) rq
          else Raise exc
      | Ok response =>
          if negb (_should_retry_response response) then Ret response
          else if attempts <=? attempt then Ret response
          else
            let* sleep_s := _retry_sleep_s response attempt in
            if (rs_status response =? 429) && (retry_after_budget <? waited + sleep_s) then Ret response
            else
              let waited := if rs_status response =? 429 then waited + sleep_s else waited in
              do* sleep_fn sleep_s in
              send_loop todo (attempt + 1) attempts waited last_error rq
      end
  end.

Definition send_with_retry (max_attempts : Z) (rq : request) : prog E response :=
  let attempts := Z.max 1 max_attempts in
  send_loop (Z.to_nat attempts) 1 attempts 0 None rq.
End Retry.

(** ** The transport, as the log of its answers and sleeps *)

Inductive entry := Answered (rq : request) (r : result response) | Slept (us : Z).
Abbreviation wire_log := (list entry).

#[export] Instance upstream_spec : ExtSpec upstream wire_log := fun X e =>
  match e in upstream X return wire_log -> wire_log -> result X -> Prop with
  | USend rq => fun s s' r => s' = s ++ [Answered rq r]
  | URandom lo hi => fun s s' r => s' = s /\ exists x, r = Ok x /\ lo <= x <= hi
  | USleep us => fun s s' r => s' = s ++ [Slept us] /\ r = Ok tt
  end.

Definition sends (l : wire_log) : Z :=
  Z.of_nat (length (List.filter (fun e => match e with Answered _ _ => true | _ => false end) l)).
Definition slept (l : wire_log) : Z := foldr (fun e acc => match e with Slept us => us + acc | _ => acc end) 0 l.

Lemma sends_cons e l : sends (e :: l) = (match e with Answered _ _ => 1 | _ => 0 end) + sends l.
Proof. unfold sends. destruct e; simpl; lia. Qed.
Lemma sends_nonneg l : 0 <= sends l.
Proof. unfold sends. lia. Qed.

Section Attempts.
Context `{ParseDate} `{MongoConf}.
Implicit Types w : world wire_log.
Variable base_delay backoff_factor jitter retry_after_budget : Z.
Variable before_attempt : option (prog upstream unit).
Hypothesis base_nonneg : 0 <= base_delay.
Hypothesis factor_nonneg : 0 <= backoff_factor.
Hypothesis jitter_nonneg : 0 <= jitter.
Hypothesis before_quiet : forall p, before_attempt = Some p -> guarded (S := wire_log) ext_same p.
Abbreviation up := (fun (X : Type) (e : upstream X) => e).
Abbreviation loop := (send_loop up base_delay backoff_factor jitter retry_after_budget before_attempt).

(** The longest backoff after attempt [k], and after all attempts from [k]
    that another one follows. *)
Definition backoff_max (k : Z) : Z :=
  backoff_delay base_delay backoff_factor k + fraction (backoff_delay base_delay backoff_factor k) jitter.
Fixpoint backoff_total (todo : nat) (k : Z) : Z :=
  match todo with
  | S (S _ as rest) => backoff_max k + backoff_total rest (k + 1)
  | _ => 0
  end.

Lemma backoff_max_nonneg k : 0 <= backoff_max k.
Proof using base_nonneg factor_nonneg jitter_nonneg.
  unfold backoff_max, backoff_delay, fraction.
  assert (0 <= backoff_factor ^ (k - 1)) by (apply Z.pow_nonneg; lia).
  assert (0 <= base_delay * backoff_factor ^ (k - 1)) by nia.
  assert (0 <= base_delay * backoff_factor ^ (k - 1) * jitter / 1000) by (apply Z.div_pos; nia). lia.
Qed.
Lemma backoff_total_nonneg todo k : 0 <= backoff_total todo k.
Proof using base_nonneg factor_nonneg jitter_nonneg.
  revert k. induction todo as [|todo IH]; intros k; [done|]. destruct todo; [done|].
  pose proof (backoff_max_nonneg k). specialize (IH (k + 1)). cbn [backoff_total] in *. lia.
Qed.

(** How the calls of [todo] attempts end. *)
Definition call_ends (todo : nat) (log : wire_log) (rq : request) (r : result response) : Prop :=
  (forall q x, In (Answered q x) log -> q = rq) /\ sends log <= Z.of_nat todo /\
  match r with
  | Ok resp => last log = Some (Answered rq (Ok resp)) /\
      (_should_retry_response resp = false \/ sends log = Z.of_nat todo \/ rs_status resp = 429)
  | Err e => last log = Some (Answered rq (Err e)) /\ (retryable_exception e = false \/ sends log = Z.of_nat todo) \/
      before_attempt <> None
  end.

Definition calls_post (todo : nat) (k waited : Z) (rq : request) w w' (r : result response) : Prop :=
  exists log, w_ext w' = w_ext w ++ log /\ call_ends todo log rq r /\
    slept log <= retry_after_budget - waited + backoff_total todo k.

Lemma clone_same rq : _clone_request rq = rq.
Proof. by destruct rq. Qed.

Lemma last_cons_cons {A} (x y : A) l : last (x :: y :: l) = last (y :: l).
Proof. done. Qed.

(** One more answer and one more sleep before the rest. *)
Lemma calls_more todo k waited waited' rq x us w w2 w' r :
  w_ext w2 = (w_ext w ++ [Answered rq x]) ++ [Slept us] ->
  us <= waited' - waited + backoff_max k ->
  calls_post (S todo) (k + 1) waited' rq w2 w' r -> calls_post (S (S todo)) k waited rq w w' r.
Proof using Type.
  intros Hw2 Hus (log & Hw' & (Hrq & Hn & Hr) & Hs). exists (Answered rq x :: Slept us :: log).
  split; [rewrite Hw', Hw2, <- !app_assoc; done|]. split; [split; [|split]|].
  - intros q y [[= -> ->]|[?|Hin]]; [done|discriminate|]. by eapply Hrq.
  - rewrite !sends_cons. lia.
  - rewrite !sends_cons. destruct r as [resp|e].
    + destruct Hr as [Hl Hr]. split; [by destruct log|]. destruct Hr as [?|[?|?]]; auto. right. left. lia.
    + destruct Hr as [[Hl Hr]|?]; [left|by right]. split; [by destruct log|]. destruct Hr as [?|?]; [by left|]. right. lia.
  - cbn [slept foldr]. fold (slept log). change (backoff_total (S (S todo)) k) with (backoff_max k + backoff_total (S todo) (k + 1)). lia.
Qed.

Lemma calls_one todo k waited rq x w w' (r : result response) :
  w_ext w' = w_ext w ++ [Answered rq x] -> waited <= retry_after_budget ->
  call_ends (S todo) [Answered rq x] rq r -> calls_post (S todo) k waited rq w w' r.
Proof using base_nonneg factor_nonneg jitter_nonneg.
  intros Hw Hb He. exists [Answered rq x]. split; [done|]. split; [done|].
  pose proof (backoff_total_nonneg (S todo) k). simpl slept. lia.
Qed.

Lemma one_answer todo rq x (r : result response) :
  match r with
  | Ok resp => x = Ok resp /\ (_should_retry_response resp = false \/ todo = O \/ rs_status resp = 429)
  | Err e => x = Err e /\ (retryable_exception e = false \/ todo = O)
  end -> call_ends (S todo) [Answered rq x] rq r.
Proof using Type.
  intros Hr. split; [by intros q y [[= -> ->]|[]]|]. rewrite sends_cons. change (sends []) with 0. split; [lia|].
  destruct r as [resp|e]; destruct Hr as [-> Hr].
  - split; [done|]. destruct Hr as [?|[->|?]]; auto.
  - left. split; [done|]. destruct Hr as [?| ->]; auto.
Qed.

Lemma wp_sleep_fn {B} us (k : unit -> prog upstream B) Q w :
  (forall w', w_ext w' = w_ext w ++ [Slept us] -> wp (k tt) Q w') -> wp (bind (sleep_fn up us) k) Q w.
Proof using Type. intros Hk. apply wp_bind, wp_perform. intros w' r ([Hs ->] & _). by apply Hk. Qed.

Lemma wp_backoff {B} k (p : Z -> prog upstream B) Q w :
  (forall w' s, w_ext w' = w_ext w -> s <= backoff_max k -> wp (p s) Q w') ->
  wp (bind (_backoff_sleep_s up base_delay backoff_factor jitter k) p) Q w.
Proof using Type.
  intros Hk. apply wp_bind, wp_perform. intros w' r ([Hs (x & -> & Hx)] & _). apply Hk; [done|].
  unfold backoff_max. lia.
Qed.

Lemma wp_parse_retry_after v w :
  wp (_parse_retry_after (E := upstream) v) (fun w' r => w_ext w' = w_ext w /\ exists o, r = Ok o) w.
Proof using Type.
  unfold _parse_retry_after. repeat case_match; try by split; eauto.
  apply wp_now. intros w' (_ & _ & He & _). split; eauto.
Qed.

Lemma wp_retry_sleep {B} resp k (p : Z -> prog upstream B) Q w :
  (forall w' s, w_ext w' = w_ext w -> (rs_status resp <> 429 -> s <= backoff_max k) -> wp (p s) Q w') ->
  wp (bind (_retry_sleep_s up base_delay backoff_factor jitter resp k) p) Q w.
Proof using Type.
  intros Hk. unfold _retry_sleep_s. destruct (rs_status resp =? 429) eqn:H429.
  - apply Z.eqb_eq in H429. apply wp_bind, wp_bind.
    eapply wp_mono; [apply wp_parse_retry_after|]. intros w1 r [Hw1 [[s|] ->]].
    + apply Hk; [done|]. by intros [].
    + rewrite <- wp_bind. apply wp_backoff. intros w2 s Hw2 _. apply Hk; [congruence|]. by intros [].
  - apply wp_backoff. intros w' s Hw Hs. apply Hk; auto.
Qed.

(** The guard before an attempt: it may end the call. *)
Definition guard : prog upstream unit := match before_attempt with Some p => p | None => Ret tt end.
Lemma wp_guard (p : prog upstream response) todo k waited rq w :
  waited <= retry_after_budget ->
  (forall w', w_ext w' = w_ext w -> wp p (calls_post todo k waited rq w') w') ->
  wp (bind guard (fun _ => p)) (calls_post todo k waited rq w) w.
Proof using base_nonneg factor_nonneg jitter_nonneg before_quiet.
  intros Hb Hp. unfold guard. destruct before_attempt as [q|] eqn:Hq.
  - apply wp_quiet_bind; [by apply before_quiet| |].
    + intros w' [] Hw. eapply wp_mono; [by apply Hp|]. unfold calls_post. by rewrite Hw.
    + intros w' e Hw. exists []. rewrite app_nil_r. split; [done|].
      split; [split; [by intros ? ? []|split; [unfold sends; simpl; lia|right; by rewrite Hq]]|].
      pose proof (backoff_total_nonneg todo k). simpl slept. lia.
  - simpl. by apply Hp.
Qed.

(** The last attempt answers. *)
Lemma wp_last_attempt k attempts waited last_error rq w :
  attempts = k -> waited <= retry_after_budget ->
  wp (loop 1 k attempts waited last_error rq) (calls_post 1 k waited rq w) w.
Proof using base_nonneg factor_nonneg jitter_nonneg before_quiet.
  intros -> Hb. cbn [send_loop]. fold guard. apply wp_guard; [done|]. intros w1 _. clear w. rename w1 into w.
  apply wp_bind, wp_attempt, wp_perform. rewrite clone_same. intros w' r [Hw _]. simpl in Hw.
  destruct r as [resp|e].
  - rewrite Z.leb_refl. assert (Hone : calls_post 1 k waited rq w w' (Ok resp)).
    { apply calls_one with (x := Ok resp); [done|done|]. apply one_answer. auto. }
    by destruct (negb _).
  - rewrite Z.leb_refl. assert (Hone : calls_post 1 k waited rq w w' (Err e)).
    { apply calls_one with (x := Err e); [done|done|]. apply one_answer. auto. }
    by destruct (retryable_exception e).
Qed.

Lemma wp_send_loop todo k attempts waited last_error rq w :
  attempts = k + Z.of_nat todo -> waited <= retry_after_budget ->
  wp (loop (S todo) k attempts waited last_error rq) (calls_post (S todo) k waited rq w) w.
Proof using base_nonneg factor_nonneg jitter_nonneg before_quiet.
  revert k waited last_error w. induction todo as [|todo IH]; intros k waited last_error w Hk Hb.
  { apply wp_last_attempt; lia. }
  remember (S todo) as more. cbn [send_loop]. fold guard. apply wp_guard; [done|]. intros w1 _. clear w. rename w1 into w.
  apply wp_bind, wp_attempt, wp_perform. rewrite clone_same. intros w' r [Hw _]. simpl in Hw.
  assert (Hmore : (attempts <=? k) = false) by (apply Z.leb_gt; lia). rewrite Hmore.
  assert (Hstop : forall x, r = x -> match x with
      | Ok resp => _should_retry_response resp = false \/ rs_status resp = 429
      | Err e => retryable_exception e = false
      end -> calls_post (S more) k waited rq w w' x).
  { intros x -> Hx. apply calls_one with (x := x); [done|done|]. apply one_answer. destruct x; split; tauto. }
  assert (Hnext : forall w2 us waited' le, w_ext w2 = w_ext w' ++ [Slept us] -> us <= waited' - waited + backoff_max k ->
      waited' <= retry_after_budget ->
      wp (loop more (k + 1) attempts waited' le rq) (calls_post (S more) k waited rq w) w2).
  { intros w2 us waited' le Hw2 Hus Hb'. subst more. eapply wp_mono; [apply (IH (k + 1) waited'); lia|].
    intros w3 x Hx. eapply calls_more; [by rewrite Hw2, Hw|done|done]. }
  destruct r as [resp|e].
  - destruct (_should_retry_response resp) eqn:Hsh; [|by apply Hstop; [|left]]. cbn [negb].
    apply wp_retry_sleep. intros w2 s Hw2 Hs.
    destruct (rs_status resp =? 429) eqn:H429.
    + apply Z.eqb_eq in H429. cbn [andb]. destruct (retry_after_budget <? waited + s) eqn:Hbud.
      * simpl. unfold calls_post. rewrite Hw2. apply (Hstop (Ok resp)); auto.
      * apply Z.ltb_ge in Hbud. apply wp_sleep_fn. intros w3 Hw3. apply (Hnext w3 s); [congruence| |done].
        pose proof (backoff_max_nonneg k). lia.
    + apply Z.eqb_neq in H429. cbn [andb]. apply wp_sleep_fn. intros w3 Hw3.
      apply (Hnext w3 s); [congruence|specialize (Hs H429); lia|done].
  - destruct (retryable_exception e) eqn:He; [|by apply Hstop].
    apply wp_backoff. intros w2 s Hw2 Hs. apply wp_sleep_fn. intros w3 Hw3. apply (Hnext w3 s); [congruence|lia|done].
Qed.

(** [send_with_retry] sends the one request at least once unless its guard
    refuses, and at most [max_attempts] times; it returns the last answer, and
    only one that needs no retry, one of the last attempt, or a 429 whose delay
    exceeds the budget; it raises only what the transport or the guard raised,
    and a retryable exception only after the last attempt.  The sleeps after
    429 answers together stay within the budget, every other sleep within its
    backoff. *)
Theorem retry_bounded max_attempts rq w :
  0 <= retry_after_budget ->
  wp (send_with_retry up base_delay backoff_factor jitter retry_after_budget before_attempt max_attempts rq)
    (fun w' r => exists log, w_ext w' = w_ext w ++ log /\
       call_ends (Z.to_nat (Z.max 1 max_attempts)) log rq r /\
       slept log <= retry_after_budget + backoff_total (Z.to_nat (Z.max 1 max_attempts)) 1) w.
Proof using base_nonneg factor_nonneg jitter_nonneg before_quiet.
  intros Hb. unfold send_with_retry. destruct (Z.to_nat (Z.max 1 max_attempts)) as [|todo] eqn:Ht; [lia|].
  eapply wp_mono; [apply wp_send_loop; lia|]. intros w' r (log & Hw & He & Hs). exists log.
  split; [done|]. split; [done|]. lia.
Qed.
End Attempts.

(** ** A call that succeeds at its third attempt *)

Section Example.
#[local] Instance no_dates : ParseDate := fun _ => None.
#[local] Instance aware : MongoConf := aware_conf.
(** The upstream answers 503, then 429 with a delay, then 200. *)
Definition answers (n : Z) : result response :=
  if n =? 0 then Ok {| rs_status := 503; rs_headers := []; rs_content := EmptyString |}
  else if n =? 1 then Ok {| rs_status := 429; rs_headers := [("retry-after", "2")]; rs_content := EmptyString |}%string
  else Ok {| rs_status := 200; rs_headers := []; rs_content := EmptyString |}.
#[local] Instance flaky : ExtRun upstream wire_log := {
  ext_run := fun X e s =>
    match e in upstream X return wire_log * result X with
    | USend rq => (s ++ [Answered rq (answers (sends s))], answers (sends s))
    | URandom lo hi => (s, Ok lo)
    | USleep us => (s ++ [Slept us], Ok tt)
    end;
  uuid_run := fun _ => EmptyString;
}.
Definition sample_request : request :=
  {| rq_method := "GET"; rq_url := "https://api.mercadolibre.com/items/1"; rq_headers := []; rq_content := "" |}.
Definition sample_retry : prog upstream response :=
  send_with_retry (fun _ e => e) (500 * millisecond) 2 250 (30 * second) None 3 sample_request.
Definition quiet_world : world wire_log := World ∅ 0 None [].

Lemma retry_bounded_witness :
  wp sample_retry
    (fun w' r => exists log, w_ext w' = [] ++ log /\ call_ends None 3 log sample_request r /\
       slept log <= 30 * second + backoff_total (500 * millisecond) 2 250 3 1) quiet_world /\
  (run sample_retry quiet_world).2 = Ok {| rs_status := 200; rs_headers := []; rs_content := EmptyString |} /\
  slept (w_ext (run sample_retry quiet_world).1) = 375 * millisecond + 2 * second.
Proof.
  split; [|split; by vm_compute]. apply (fun a b c d => retry_bounded (500 * millisecond) 2 250 (30 * second) None a b c d 3 sample_request quiet_world);
    done.
Defined.
End Example.
