(* ===== verification/Webhooks.v ===== *)
(** MercadoLibre's notifications: their classification, publication and
    reception by the gateway (webhooks/classifier.py, webhooks/publisher.py and
    webhooks/router.py of gateway/src/zeler_gateway). *)

From S2P Require Import PyDate IpAddress.
From S2P Require Export Trace Retry.

#[local] Open Scope Z_scope.

(** ** Classification *)

Definition MELI_EVENTS_EXCHANGE : string := "meli.events".
Definition TOPIC_ROUTING_KEYS : list (string * string) :=
  [("items", "items.updated"); ("orders_v2", "orders.updated"); ("shipments", "shipments.updated");
   ("questions", "questions.new"); ("messages", "messages.new"); ("items_prices", "items.price_updated");
   ("catalog_item_competition_status", "catalog_item_competition_status.updated");
   ("user-products-families", "user_products.families_updated"); ("stock-locations", "stock_locations.updated");
   ("price_suggestion", "price_suggestion.updated"); ("fbm_stock_operations", "fbm_stock_operations.new")]%string.
Definition routing_key_of (topic : string) : option string :=
  snd <$> List.find (fun kv => String.eqb kv.1 topic) TOPIC_ROUTING_KEYS.

Record ClassifiedWebhookEvent := { cw_routing_key : string; cw_event_type : string; cw_idempotency_key : string; cw_resource : string }.

Definition DLQ_ROUTING_KEY : string := "webhooks.unknown.dlq".
Definition unknown_topic (topic : string) : exn :=
  Exn "UnknownWebhookTopicError" ("unsupported Meli webhook topic: " ++ topic) [VStr topic].

(** The claim number of [_CLAIM_RESOURCE] and of [_CLAIM_ACTIONS_RESOURCE]. *)
Definition claims_prefix : string := "/post-purchase/v1/claims/".
Definition _CLAIM_RESOURCE (resource : string) : option string :=
  match strip_prefix claims_prefix resource with
  | Some claim_id => if digits1 claim_id then Some claim_id else None
  | None => None
  end.
Fixpoint digits_before (suffix s : string) : option string :=
  if String.eqb s suffix then Some EmptyString
  else match s with
       | EmptyString => None
       | String c s => if is_digit c then String c <$> digits_before suffix s else None
       end.
Definition _CLAIM_ACTIONS_RESOURCE (resource : string) : option string :=
  match strip_prefix claims_prefix resource with
  | Some rest =>
      match digits_before "/actions-history" rest with
      | Some claim_id => if string_is_empty claim_id then None else Some claim_id
      | None => None
      end
  | None => None
  end.

Definition _post_purchase_claim_resource (resource : string) : option string :=
  match _CLAIM_RESOURCE resource with
  | Some claim_id => Some (claims_prefix ++ claim_id)%string
  | None => match _CLAIM_ACTIONS_RESOURCE resource with Some claim_id => Some (claims_prefix ++ claim_id)%string | None => None end
  end.

Definition classify_webhook_topic (topic resource : string) : result string :=
  if String.eqb topic "post_purchase" && is_some (_post_purchase_claim_resource resource) then Ok "claims.updated"%string
  else match routing_key_of topic with Some k => Ok k | None => Err (unknown_topic topic) end.

Section Classifier.
Context `{PyRepr}.

Definition first_id (event : doc) : val :=
  py_or (py_or (doc_get event "_id") (doc_get event "notification_id")) (doc_get event "id").
Definition _event_id (event : doc) : result string :=
  let value := first_id event in
  if is_none value then raise_value "webhook event is missing _id/notification_id" else Ok (py_str value).

Definition str_field (event : doc) (k : string) : string := py_str (doc_get_or event k (VStr EmptyString)).

Definition claim_actions (event : doc) : val :=
  if is_none (doc_get event "actions") then
    match doc_get event "raw_body" with VDict raw => doc_get raw "actions" | _ => VNone end
  else doc_get event "actions".
Definition _normalize_post_purchase_claim_event (event : doc) : result string :=
  let resource := str_field event "resource" in
  let actions := claim_actions event in
  if is_some (_CLAIM_RESOURCE resource) && py_eq actions (VList [VStr "claims"]) then Ok resource
  else
    match _CLAIM_ACTIONS_RESOURCE resource with
    | Some claim_id =>
        if py_eq actions (VList [VStr "claims_actions"]) then Ok (claims_prefix ++ claim_id)%string
        else Err (unknown_topic "post_purchase")
    | None => Err (unknown_topic "post_purchase")
    end.

Definition classify_webhook_event (event : doc) : result ClassifiedWebhookEvent :=
  let topic := str_field event "topic" in
  let resource := str_field event "resource" in
  let! '(normalized_resource, routing_key) :=
    (if String.eqb topic "post_purchase" then
       let! r := _normalize_post_purchase_claim_event event in Ok (r, Some "claims.updated"%string)
     else Ok (resource, routing_key_of topic)) in
  match routing_key with
  | None => Err (unknown_topic topic)
  | Some routing_key =>
      let! notification_id := _event_id event in
      Ok {| cw_routing_key := routing_key; cw_event_type := routing_key;
            cw_idempotency_key := (topic ++ ":" ++ normalized_resource ++ ":" ++ notification_id)%string;
            cw_resource := normalized_resource |}
  end.
End Classifier.

(** ** Publication *)

(** The process's time zone: a naive wall clock reading as an instant. *)
Class LocalZone := local_to_utc : Z -> Z.

(** What [exchange.publish] gives back, by the attributes that are examined. *)
Record delivery := { dl_class : string; dl_reply_code : bool; dl_reply_text : bool }.
Inductive publish_result := NoResult | PublishResult (cls : string) (d : option delivery).

(** The publisher configured for the gateway. *)
Inductive webhook_publisher := Injected | AioPika (exchange_name : string).

(** RabbitMQ, the injected publisher, and the request's body. *)
Inductive webhook_call : Type -> Type :=
| WConnect : webhook_call unit
| WPublish (exchange routing_key : string) (payload : doc) (headers : list (string * string)) (message_id : string) :
    webhook_call publish_result
| WInjected (routing_key : string) (payload : doc) (headers : list (string * string)) : webhook_call unit
| WBody : webhook_call string
| WJson : webhook_call val.

Definition _is_returned_publish_result (cls : string) (d : option delivery) : bool :=
  String.eqb cls "DeliveredMessage" ||
  match d with
  | Some d => String.eqb (dl_class d) "Return" || dl_reply_code d && dl_reply_text d
  | None => false
  end.
Definition _raise_for_publish_result (r : publish_result) (exchange_name routing_key : string) : result unit :=
  let target := (" '" ++ exchange_name ++ "' with routing key '" ++ routing_key ++ "'")%string in
  match r with
  | NoResult => Ok tt
  | PublishResult cls d =>
      if string_in cls ["Nack"; "Reject"]%string
      then Err (mk_exn "WebhookPublishRejectedError" ("RabbitMQ rejected webhook publish to" ++ target))
      else if _is_returned_publish_result cls d
      then Err (mk_exn "WebhookPublishReturnedError" ("RabbitMQ returned mandatory webhook publish to" ++ target))
      else Ok tt
  end.

Section Publisher.
Context `{PyRepr} `{LocalZone}.
Abbreviation webhook := (prog webhook_call).

Definition _publish_to_exchange (exchange_name routing_key : string) (payload : doc) (headers : list (string * string)) :
    webhook unit :=
  do* ext WConnect in
  let* message_id := of_result (let event_id := doc_get payload "event_id" in
                                if truthy event_id then Ok event_id else doc_at payload "idempotency_key") in
  let* r := ext (WPublish exchange_name routing_key payload headers (py_str message_id)) in
  of_result (_raise_for_publish_result r exchange_name routing_key).

Definition publish (publisher : webhook_publisher) (routing_key : string) (payload : doc) (headers : list (string * string)) :
    webhook unit :=
  match publisher with
  | Injected => ext (WInjected routing_key payload headers)
  | AioPika exchange_name => _publish_to_exchange exchange_name routing_key payload headers
  end.

(** [AccountLifecyclePublisherAdapter.publish]. *)
Definition lifecycle_publish (exchange routing_key : string) (payload : doc) : webhook unit :=
  let* key := of_result (doc_at payload "idempotency_key") in
  _publish_to_exchange exchange routing_key payload [("idempotency_key"%string, py_str key)].

Definition _format_occurred_at (value : val) : webhook string :=
  match value with
  | VDate true us => Ret (isoformat_z us)
  | VDate false us => Ret (isoformat_z (local_to_utc us))
  | _ => let* now := now_utc in Ret (isoformat_z now)
  end.

Definition build_event_envelope (event : doc) (trace_id : option string) : webhook doc :=
  let* classified := of_result (classify_webhook_event event) in
  let* event_id := of_result (_event_id event) in
  let* occurred_at := _format_occurred_at (doc_get event "received_at") in
  let* seller_id := of_result (let! u := doc_at event "user_id" in py_int u) in
  Ret (mk_doc [("event_id", VStr event_id); ("event_type", VStr (cw_event_type classified)); ("occurred_at", VStr occurred_at);
               ("seller_id", VInt seller_id); ("resource", VStr (cw_resource classified));
               ("trace_id", VStr (default EmptyString trace_id)); ("schema_version", VInt 1)]%string).

Definition _fallback_event_id (event : doc) : string := py_str (py_or (first_id event) (VStr EmptyString)).

Definition _build_unknown_envelope (event : doc) (trace_id : option string) : webhook doc :=
  let* occurred_at := _format_occurred_at (doc_get event "received_at") in
  Ret (mk_doc [("event_id", VStr (_fallback_event_id event)); ("event_type", VStr "webhooks.unknown");
               ("occurred_at", VStr occurred_at); ("seller_id", doc_get event "user_id");
               ("resource", VStr (str_field event "resource")); ("trace_id", VStr (default EmptyString trace_id));
               ("schema_version", VInt 1)]%string).

Definition publish_webhook_event (event : doc) (publisher : webhook_publisher) (trace_id : option string) : webhook unit :=
  catch
    (let* classified := of_result (classify_webhook_event event) in
     let* envelope := build_event_envelope event trace_id in
     publish publisher (cw_routing_key classified) envelope
       [("idempotency_key", cw_idempotency_key classified); ("exchange", MELI_EVENTS_EXCHANGE)]%string)
    (fun exc =>
       if isinstance exc "UnknownWebhookTopicError" then
         let event_id := _fallback_event_id event in
         let original_topic := str_field event "topic" in
         let* envelope := _build_unknown_envelope event trace_id in
         publish publisher DLQ_ROUTING_KEY envelope
           [("idempotency_key", ("unknown:" ++ original_topic ++ ":" ++ event_id)%string);
            ("exchange", MELI_EVENTS_EXCHANGE); ("original_topic", original_topic)]%string
       else Raise exc).

(** ** Reception *)

Definition http_error (status : Z) (detail : string) : exn := Exn "HTTPException" detail [VInt status].

Definition _source_ip (client : option string) (forwarded_for : option string) : string :=
  match forwarded_for with
  | Some f =>
      if string_is_empty f then default EmptyString client
      else strip (default EmptyString (head (split_char "," f)))
  | None => default EmptyString client
  end.

(** The loop over the entries of the allow list. *)
Fixpoint any_network (a : ip) (entries : list string) : result bool :=
  match entries with
  | [] => Ok false
  | entry :: entries =>
      let! n := ip_network entry in
      if in_network a n then Ok true else any_network a entries
  end.
Definition is_allowed_source_ip (source_ip allowlist : string) : result bool :=
  if string_is_empty allowlist then Ok false
  else
    let! parsed_ip := ip_address source_ip in
    any_network parsed_ip (List.filter (fun s => negb (string_is_empty s)) (map strip (split_char "," allowlist))).

(** hmac with SHA-256 as a hexadecimal text: key, message. *)
Class HexHmac := hmac_sha256_hex : string -> string -> string.

Definition verify_hmac_signature `{HexHmac} (body : string) (signature : option string) (secret : string) : result bool :=
  match signature with
  | None | Some EmptyString => Ok false
  | Some signature =>
      if string_forallb (char_in 0 127) signature
      then Ok (String.eqb ("sha256=" ++ hmac_sha256_hex secret body) signature)
      else raise_type "comparing strings with non-ASCII characters is not supported"
  end.

Record webhook_settings := {
  meli_allowed_ips : string;
  meli_webhook_require_signature : bool;
  meli_webhook_hmac_secret : string;
  injected_publisher : bool;
  rabbitmq_url : string;
  rabbitmq_events_exchange : string;
}.
Record webhook_request := { wr_client : option string; wr_headers : list (string * string) }.

Context `{HexHmac}.
Variable settings : webhook_settings.

Definition _get_publisher : option webhook_publisher :=
  if injected_publisher settings then Some Injected
  else if string_is_empty (rabbitmq_url settings) then None
  else Some (AioPika (rabbitmq_events_exchange settings)).

(** The checks before the notification is read. *)
Definition admit_source (request : webhook_request) (body source_ip : string) : result unit :=
  let! allowed := is_allowed_source_ip source_ip (meli_allowed_ips settings) in
  check! allowed else http_error 401 "invalid webhook source" in
  if meli_webhook_require_signature settings then
    let secret := meli_webhook_hmac_secret settings in
    check! negb (string_is_empty secret) else http_error 503 "HMAC validation required but secret not configured" in
    let! valid := verify_hmac_signature body (header_get (wr_headers request) "X-Meli-Signature") secret in
    check! valid else http_error 401 "invalid webhook signature" in Ok tt
  else Ok tt.

(** The fields of the stored event. *)
Definition webhook_fields (payload : doc) (event_id source_ip : string) (received_at : Z) : result (list (string * val)) :=
  let! topic := doc_at payload "topic" in
  let! user_id := (let! u := doc_at payload "user_id" in py_int u) in
  let! resource := doc_at payload "resource" in
  Ok [("_id", VStr event_id); ("topic", VStr (py_str topic)); ("user_id", VInt user_id);
      ("resource", VStr (py_str resource)); ("received_at", VDate true received_at); ("published_at", VNone);
      ("classification", VNone); ("raw_body", VDict payload); ("source_ip", VStr source_ip);
      ("schema_version", VInt 1)]%string.
Definition set_on_insert (document : list (string * val)) : update :=
  UOps (map (fun kv => USetOnInsert [kv.1] kv.2) document).
Definition store_event (event_id : string) (document : list (string * val)) : webhook bool :=
  let* r := mongo (MUpdateOne "webhook_events" (FEq ["_id"%string] (VStr event_id)) (set_on_insert document) true) in
  Ret (negb (did_upsert r) && (0 <? matched_count r)).

Definition _classify_and_publish (event : doc) (publisher : option webhook_publisher) (trace_id : string) : webhook unit :=
  match publisher with
  | None => Ret tt
  | Some publisher =>
      catch
        (do* publish_webhook_event event publisher (Some trace_id) in
         let* id := of_result (doc_at event "_id") in
         let* now := now_utc in
         let* _ := mongo (MUpdateOne "webhook_events" (FEq ["_id"%string] id)
                            (UOps [USet ["published_at"] (VDate true now); USet ["classification"] (doc_get event "topic")])%string
                            false) in Ret tt)
        (fun _ => Ret tt)
  end.

(** The reply, and the task that runs after it when the event is new. *)
Definition receive_meli_webhook (request : webhook_request) : webhook (bool * option doc) :=
  let* body := ext WBody in
  let source_ip := _source_ip (wr_client request) (header_get (wr_headers request) "X-Forwarded-For") in
  do* of_result (admit_source request body source_ip) in
  let* payload := ext WJson in
  match payload with
  | VDict payload =>
      let value := first_id payload in
      if is_none value then Raise (http_error 422 "webhook payload missing notification id")
      else
        let event_id := py_str value in
        let* received_at := now_utc in
        let* document := of_result (webhook_fields payload event_id source_ip received_at) in
        let* duplicate := store_event event_id document in
        Ret (duplicate, if (duplicate : bool) then None else Some (mk_doc document))
  | _ => Raise (mk_exn "AttributeError" "object has no attribute 'get'")
  end.

(** A delivery: the endpoint and its background task. *)
Definition deliver (request : webhook_request) : webhook bool :=
  let* '(duplicate, task) := receive_meli_webhook request in
  do* match task with
      | Some document =>
          _classify_and_publish document _get_publisher (default EmptyString (header_get (wr_headers request) "X-Trace-Id"))
      | None => Ret tt
      end in
  Ret duplicate.
End Publisher.
