(* ===== verification/HistoryPlan.v ===== *)
(** The history backfill plan of an account link: admission, execution limits
    and trace tags (core/.../history_onboarding.py). *)

From S2P Require Export PyDate PyRe Concurrency.

#[local] Open Scope Z_scope.

Definition PLAN_COLLECTION : string := "sheets_history_backfill_plans".
Definition POLICY_VERSION : string := "history-on-link-v1".
Definition SOURCES : list string :=
  ["orders"; "questions"; "shipments"; "messages"; "claims_returns"; "full_withdrawals"]%string.
Definition UPSTREAM_SOURCES : list string := removelast SOURCES.

(** ** Dates and counters *)

(** [calendar_history_start]: a year earlier, the day clamped to the month. *)
Definition calendar_history_start (aware : bool) (cutoff : Z) : result Z :=
  if negb aware then raise_value "history cutoff requires timezone"
  else
    let c := civil_from_days (day_of cutoff) in
    if d_year c <=? 1 then raise_value "year 0 is out of range"
    else
      Ok (instant (Date (d_year c - 1) (d_month c) (Z.min (d_day c) (month_days (d_year c - 1) (d_month c))))
            (time_of_day cutoff)).

Definition _utc_date (value : val) : result Z :=
  match value with
  | VDate _ us => Ok us
  | _ => raise_value "existing history plan has invalid date"
  end.

Definition _nonnegative (value : val) : result unit :=
  match value with
  | VInt z => if z <? 0 then raise_value "existing history plan has invalid counter" else Ok tt
  | _ => raise_value "existing history plan has invalid counter"
  end.

(** ** Validation *)

Fixpoint each {A : Type} (f : A -> result unit) (l : list A) : result unit :=
  match l with [] => Ok tt | x :: l => let! _ := f x in each f l end.

(** [if cond: raise ValueError(msg)]. *)
Definition refuse (cond : bool) (msg : string) : result unit := if cond then raise_value msg else Ok tt.

(** [if field in plan: check(plan[field])]. *)
Definition if_present (plan : doc) (field : string) (check : val -> result unit) : result unit :=
  match plan !! field with Some v => check v | None => Ok tt end.

Definition values (d : doc) : list val := snd <$> map_to_list d.
Definition dict_or_empty (v : option val) : doc := match v with Some (VDict d) => d | _ => ∅ end.
Definition int_or (dflt : Z) (v : option val) : Z := match v with Some (VInt z) => z | _ => dflt end.

(** [v in {strings}]: hashing a list or a dict raises. *)
Definition in_set (v : val) (l : list string) : result bool :=
  match v with
  | VStr s => Ok (string_in s l)
  | VList _ => raise_type "unhashable type: 'list'"
  | VDict _ => raise_type "unhashable type: 'dict'"
  | _ => Ok false
  end.

Definition in_strings (v : val) (l : list string) : bool := match v with VStr s => string_in s l | _ => false end.

Definition valid_source_list (v : val) : bool :=
  match v with
  | VList l => forallb (fun s => in_strings s SOURCES) l &&
      Nat.eqb (length l) (length (fromkeys (omap str_of l)))
  | _ => false
  end.

(** One entry of the budget: [consumed] is compared with [physical_attempts]
    once both are known to be counters. *)
Definition check_budget_entry (entry : val) : result unit :=
  match entry with
  | VDict entry =>
      let! _ := each (fun f => if_present entry f _nonnegative) ["physical_attempts"; "consumed"]%string in
      match entry !! "physical_attempts"%string with
      | Some limit =>
          refuse (int_or 0 (Some limit) <? int_or 0 (entry !! "consumed"%string)) "existing history plan exceeds source budget"
      | None => Ok tt
      end
  | _ => raise_value "existing history plan has invalid source budget"
  end.

Definition plan_counters : list string :=
  ["total_budget"; "total_consumed"; "source_cursor"; "execution_attempt_limit"; "execution_consumed";
   "execution_sent"; "incremental_consumed"]%string.
Definition plan_ledgers : list string :=
  ["execution_charged"; "execution_sent_by_source"; "execution_work_sent_by_source"; "execution_work"]%string.

Definition check_lease (lease : val) (now : Z) : result unit :=
  match lease with
  | VDict d =>
      if Nat.eqb (size d) 0 || negb (forallb (fun k => string_in k ["owner"; "token"; "until"]%string) (map_to_list d).*1)
      then raise_value "existing history plan has unknown lease"
      else
        match d !! "until"%string with
        | None => raise_value "existing history plan has active or invalid lease"
        | Some until =>
            let! until := _utc_date until in
            refuse (now <? until) "existing history plan has active or invalid lease"
        end
  | _ => raise_value "existing history plan has unknown lease"
  end.

Definition _validate_legacy (plan : doc) (cutoff now : Z) : result unit :=
  let! _ := each (fun f => if_present plan f _nonnegative) plan_counters in
  let! _ := each (fun f => if_present plan f (fun v =>
              refuse (negb (is_dict v)) "existing history plan has invalid budget shape"))
            ["budget"; "incremental_policy"; "incremental_source_consumed"]%string in
  let! _ := each check_budget_entry (values (dict_or_empty (plan !! "budget"%string))) in
  let! _ := each _nonnegative (values (dict_or_empty (plan !! "incremental_source_consumed"%string))) in
  let! _ := each (fun f => if_present (dict_or_empty (plan !! "incremental_policy"%string)) f _nonnegative)
            ["max_daily_total"; "max_daily_source"]%string in
  let! _ := match plan !! "total_budget"%string with
            | Some total => refuse (int_or 0 (Some total) <? int_or 0 (plan !! "total_consumed"%string))
                              "existing history plan exceeds total budget"
            | None => Ok tt
            end in
  let! _ := each (fun f => if_present plan f (fun v => let! _ := _utc_date v in Ok tt))
            ["execution_until"; "admitted_at"; "last_linked_at"; "next_cycle_at"]%string in
  let! _ := if_present plan "eligible" (fun v =>
              refuse (negb (is_exact_bool v)) "existing history plan has invalid eligibility") in
  let! _ := if_present plan "state" (fun v =>
              let! known := in_set v ["active"; "paused"]%string in
              refuse (negb known) "existing history plan has invalid state") in
  let! _ := if_present plan "sources" (fun v =>
              refuse (negb (valid_source_list v)) "existing history plan has invalid sources") in
  let! _ := if_present plan "date_to" (fun v =>
              let! date_to := _utc_date v in
              refuse (negb (date_to =? cutoff)) "existing history plan has contradictory cutoff") in
  let! _ := if_present plan "date_from" (fun v =>
              let! start := calendar_history_start true cutoff in
              let! date_from := _utc_date v in
              refuse (negb ((start <=? date_from) && (date_from <? cutoff)))
                "existing history plan has contradictory range") in
  let! _ := if_present plan "authority" (fun v =>
              refuse (negb (py_eq v (VDict (mk_doc [("kind"%string, VStr "account_link_policy")]))))
                "existing history plan has unknown authority") in
  let! _ := each (fun f => if_present plan f (fun v =>
              refuse (negb (is_dict v) || truthy v) "existing history plan has unattributed ledger")) plan_ledgers in
  let! _ := match plan !! "lease_until"%string with
            | Some v => let! until := _utc_date v in refuse (now <? until) "existing history plan has active lease"
            | None => refuse (truthy (doc_get plan "lease_token") || truthy (doc_get plan "lease_owner"))
                        "existing history plan has lease without expiry"
            end in
  if_present plan "lease" (fun v => check_lease v now).

(** ** The defaults of a plan, and what a plan lacks of them *)

Inductive tree := Leaf (v : val) | Node (fields : list (string * tree)).

Fixpoint tree_val (t : tree) : val :=
  match t with
  | Leaf v => v
  | Node fs => VDict (mk_doc ((fix go fs := match fs with [] => [] | (k, t) :: fs => (k, tree_val t) :: go fs end) fs))
  end.

Fixpoint _missing_leaves (existing : doc) (t : tree) (prefix : path) : result (list (path * val)) :=
  match t with
  | Leaf _ => Ok []
  | Node fs =>
      (fix go fs :=
         match fs with
         | [] => Ok []
         | (key, value) :: fs =>
             let path := (prefix ++ [key])%list in
             let! here :=
               match existing !! key with
               | None => Ok [(path, tree_val value)]
               | Some v =>
                   match value with
                   | Leaf _ => Ok []
                   | Node _ =>
                       match v with
                       | VDict sub => _missing_leaves sub value path
                       | _ => raise_value "existing history plan has invalid seed shape"
                       end
                   end
               end in
             let! rest := go fs in
             Ok (here ++ rest)%list
         end) fs
  end.

Definition initial_attempts (source : string) : Z :=
  if String.eqb source "orders" then 800 else if String.eqb source "questions" then 150
  else if String.eqb source "shipments" then 250 else if String.eqb source "messages" then 300
  else if String.eqb source "claims_returns" then 500 else 0.

Definition plan_defaults (pilot_seed : bool) (start cutoff now : Z) : tree :=
  Node [("policy_version", Leaf (VStr POLICY_VERSION));
        ("authority", Node [("kind", Leaf (VStr "account_link_policy"))]);
        ("state", Leaf (VStr (if pilot_seed then "paused" else "active")));
        ("eligible", Leaf (VBool true));
        ("date_from", Leaf (VDate true start));
        ("date_to", Leaf (VDate true cutoff));
        ("timezone", Leaf (VStr "UTC"));
        ("sources", Leaf (VList (VStr <$> (if pilot_seed then UPSTREAM_SOURCES else SOURCES))));
        ("budget", Node ((fun source => (source, Node
            [("physical_attempts", Leaf (VInt (if pilot_seed then initial_attempts source else 20000)));
             ("consumed", Leaf (VInt 0))])) <$> SOURCES));
        ("incremental_policy", Node
            [("max_daily_total", Leaf (VInt (if pilot_seed then 500 else 2000)));
             ("max_daily_source", Leaf (VInt (if pilot_seed then 300 else 1000)))]);
        ("total_budget", Leaf (VInt (if pilot_seed then 2000 else 100000)));
        ("total_consumed", Leaf (VInt 0));
        ("onboarding_status", Leaf (VStr "pending"));
        ("admitted_at", Leaf (VDate true now));
        ("next_cycle_at", Leaf (VDate true now));
        ("source_cursor", Leaf (VInt 0));
        ("last_linked_at", Leaf (VDate true now))]%string.

(** The candidate: the plan with the patch applied. *)
Fixpoint patched (plan : doc) (patch : list (path * val)) : doc :=
  match patch with
  | [] => plan
  | (p, v) :: rest => patched (default plan (path_alter p (fun _ => Some v) plan)) rest
  end.

(** ** Admission *)

Definition list_member (v : val) (l : val) : bool := match l with VList l => existsb (py_eq v) l | _ => false end.
Definition full_or_running (plan : doc) : bool :=
  list_member (VStr "full_withdrawals") (doc_get plan "sources") ||
  negb (py_eq (doc_get_or plan "state" (VStr "paused")) (VStr "paused")).

Section Admission.
Context {E : Type -> Type}.

Definition plan_filter (seller_id : string) (more : list filter) : filter :=
  FAnd (FEq ["_id"%string] (VStr seller_id) :: FEq ["seller_id"%string] (VStr seller_id) :: more).

Definition root_is (existing : doc) : filter := FExpr (AEq ARoot (ALit (VDict existing))).

(** The [$set] of the missing leaves, refused when the plan changed meanwhile:
    the winner of the race must have admitted the same policy. *)
Definition admit_legacy (seller_id : string) (existing : doc) (cutoff now : Z) (pilot_seed : bool) : prog E doc :=
  do* of_result (_validate_legacy existing cutoff now) in
  do* of_result (refuse (pilot_seed && full_or_running existing) "pilot legacy scope must be paused without Full") in
  let* start := of_result (calendar_history_start true cutoff) in
  let defaults := plan_defaults pilot_seed start cutoff now in
  let* patch := of_result (_missing_leaves existing defaults []) in
  do* of_result (_validate_legacy (patched existing patch) cutoff now) in
  let* updated := mongo (MUpdateOne PLAN_COLLECTION (plan_filter seller_id [root_is existing])
                           (UOps ((fun pv => USet pv.1 pv.2) <$> patch)) false) in
  if matched_count updated =? 1 then Ret existing
  else
    let* winner := mongo (MFindOne PLAN_COLLECTION (plan_filter seller_id []) []) in
    match winner with
    | None => of_result (raise_value "history admission snapshot changed")
    | Some winner =>
        if negb (py_eq (doc_get winner "policy_version") (VStr POLICY_VERSION)) ||
           negb (py_eq (doc_get winner "cutoff") (doc_get existing "cutoff"))
        then of_result (raise_value "history admission snapshot changed")
        else
          do* of_result (_validate_legacy winner cutoff now) in
          do* of_result (refuse (negb (py_eq (doc_get winner "authority")
                                         (VDict (mk_doc [("kind"%string, VStr "account_link_policy")]))))
                           "history admission winner has invalid policy") in
          let* missing := of_result (_missing_leaves winner defaults []) in
          if negb (is_nil missing) ||
             pilot_seed && (negb (py_eq (doc_get winner "state") (VStr "paused")) ||
                            list_member (VStr "full_withdrawals") (doc_get winner "sources"))
          then of_result (raise_value "history admission winner has invalid policy")
          else Ret winner
    end.

Definition admit_history_onboarding (seller_id : string) (now : Z) (pilot_seed : bool) : prog E unit :=
  if negb (digits1 seller_id) then of_result (raise_value "onboarding requires a canonical numeric seller")
  else
    let now := now / second * second in
    do* catch
          (do* mongo (MUpdateOne PLAN_COLLECTION (FEq ["_id"%string] (VStr seller_id))
                        (UOps [USetOnInsert ["seller_id"%string] (VStr seller_id);
                               USetOnInsert ["cutoff"%string] (VDate true now);
                               USetOnInsert ["schema_version"%string] (VInt 1)]) true) in Ret tt)
          (fun e => if isinstance e "DuplicateKeyError" then Ret tt else Raise e) in
    let* found := mongo (MFindOne PLAN_COLLECTION (plan_filter seller_id []) []) in
    match found with
    | None => of_result (raise_value "existing history plan has invalid identity or cutoff")
    | Some existing =>
        match doc_get existing "cutoff" with
        | VDate _ cutoff =>
            let* existing :=
              match existing !! "policy_version"%string with
              | None => admit_legacy seller_id existing cutoff now pilot_seed
              | Some version =>
                  if py_eq version (VStr POLICY_VERSION) then Ret existing
                  else of_result (raise_value "existing history plan has unknown policy")
              end in
            do* of_result (if_present existing "last_linked_at" (fun v => let! _ := _utc_date v in Ok tt)) in
            do* mongo (MUpdateOne PLAN_COLLECTION
                  (plan_filter seller_id [FEq ["policy_version"%string] (VStr POLICY_VERSION)])
                  (UOps [UMax ["last_linked_at"%string] (VDate true now)]) false) in
            Ret tt
        | _ => of_result (raise_value "existing history plan has invalid identity or cutoff")
        end
    end.
End Admission.

(** ** Execution limits *)

Definition history_execution_query (now : Z) (charged : bool) : filter :=
  let consumed := AIfNull (AField ["execution_consumed"%string]) (ALit (VInt 0)) in
  let limit := AField ["execution_attempt_limit"%string] in
  FAnd
    [FOr [FExists ["execution_until"%string] false; FRel RGt ["execution_until"%string] (VDate true now)];
     FOr [FExists ["execution_utc_day"%string] false; FEq ["execution_utc_day"%string] (VStr (iso_day now))];
     FOr [FExists ["execution_attempt_limit"%string] false;
          FAnd [FTypeInt ["execution_attempt_limit"%string]; FRel RGte ["execution_attempt_limit"%string] (VInt 0);
                FOr [FExists ["execution_consumed"%string] false;
                     FAnd [FTypeInt ["execution_consumed"%string]; FRel RGte ["execution_consumed"%string] (VInt 0)]];
                FExpr (if charged then ALte consumed limit else ALt consumed limit)]]].

Definition history_execution_allowed (plan : doc) (now : Z) (charged : bool) : bool :=
  match plan !! "execution_until"%string with
  | None => true
  | Some (VDate _ until) => now <? until
  | Some _ => false
  end &&
  match plan !! "execution_utc_day"%string with
  | None => true
  | Some d => py_eq d (VStr (iso_day now))
  end &&
  match plan !! "execution_attempt_limit"%string with
  | None => true
  | Some (VInt limit) =>
      match doc_get_or plan "execution_consumed" (VInt 0) with
      | VInt consumed =>
          negb ((limit <? 0) || (consumed <? 0)) &&
          negb ((limit <? consumed) || (consumed =? limit) && negb charged)
      | _ => false
      end
  | Some _ => false
  end.

Definition history_request_trace (plan : doc) (source : string) (incremental : bool) : result (option string) :=
  match doc_get plan "execution_id" with
  | VNone => Ok None
  | VStr execution_id =>
      if negb (hex32 execution_id) || negb (string_in source UPSTREAM_SOURCES)
      then raise_value "invalid history execution trace identity or source"
      else Ok (Some ("h1-" ++ execution_id ++ ":" ++ source ++ ":" ++
                     (if incremental then "maintenance" else "initial"))%string)
  | _ => raise_value "invalid history execution trace identity or source"
  end.

(** ** The query and the check agree *)

Definition limit_fields : list string :=
  ["execution_until"; "execution_utc_day"; "execution_attempt_limit"; "execution_consumed"]%string.
(** None of the four fields holds an array (a query looks inside arrays). *)
Definition flat_limits (d : doc) : Prop :=
  forall f v, In f limit_fields -> d !! f = Some v -> is_list v = false.
(** The document is as the server stores it. *)
Definition stored (d : doc) : Prop := encode_doc d = d.

Lemma stored_field d k v : stored d -> d !! k = Some v -> bson_encode v = v.
Proof.
  intros Hs Hv. assert (He : encode_doc d !! k = Some (bson_encode v)) by (unfold encode_doc; by rewrite lookup_fmap, Hv).
  rewrite Hs, Hv in He. by injection He.
Qed.

Lemma field_vals d k : path_vals [k] (VDict d) = match d !! k with Some v => [v] | None => [] end.
Proof. simpl. by destruct (d !! k). Qed.

Lemma floor_ms_le t : floor_ms t <= t.
Proof. unfold floor_ms, millisecond. pose proof (Z.mul_div_le t 1000). lia. Qed.
Lemma floor_ms_lt t u : floor_ms u = u -> (floor_ms t <? u) = (t <? u).
Proof.
  intros Hu. apply eq_true_iff_eq. rewrite !Z.ltb_lt. unfold floor_ms, millisecond in *.
  pose proof (Z.div_mod t 1000). pose proof (Z.mod_pos_bound t 1000). pose proof (Z.div_mod u 1000). split; [|lia]. intros Hlt.
  assert (t / 1000 < u / 1000); nia.
Qed.

Lemma meets_flat p v : is_list v = false -> meets p v = p v.
Proof. unfold meets. destruct v; try done; simpl; by rewrite orb_false_r. Qed.

Section Agree.
Context `{MongoConf}.
Variable plan : doc.
Variable now : Z.
Hypothesis plan_stored : stored plan.
Hypothesis plan_flat : flat_limits plan.

Lemma until_agrees server_now :
  matches server_now (FOr [FExists ["execution_until"%string] false; FRel RGt ["execution_until"%string] (VDate true now)]) plan =
  match dec plan !! "execution_until"%string with
  | None => true | Some (VDate _ until) => now <? until | Some _ => false end.
Proof using plan_stored plan_flat.
  cbn [matches existsb]. rewrite field_vals. unfold dec, decode_doc. rewrite lookup_fmap.
  destruct (plan !! "execution_until"%string) as [v|] eqn:Hv; [|done]. cbn [existsb is_nil negb Bool.eqb orb fmap option_fmap option_map].
  rewrite !orb_false_r, meets_flat by (eapply plan_flat; [|done]; simpl; auto).
  pose proof (stored_field _ _ _ plan_stored Hv) as Henc.
  destruct v as [|b|z|s|w us|l|d]; try done. cbn [bson_encode] in Henc. injection Henc as Hw Hus.
  unfold rel_test. cbn [bson_encode type_rank bson_decode]. rewrite Z.eqb_refl. cbn [andb].
  unfold bson_cmp. cbn [sort_key type_rank lex_cmp]. rewrite Z.compare_refl.
  rewrite <- floor_ms_lt by done. unfold Z.ltb. rewrite (Z.compare_antisym us). by destruct (us ?= floor_ms now).
Qed.

Lemma day_agrees server_now :
  matches server_now (FOr [FExists ["execution_utc_day"%string] false; FEq ["execution_utc_day"%string] (VStr (iso_day now))]) plan =
  match dec plan !! "execution_utc_day"%string with None => true | Some d => py_eq d (VStr (iso_day now)) end.
Proof using plan_stored plan_flat.
  cbn [matches existsb]. unfold match_eq. rewrite field_vals. unfold dec, decode_doc. rewrite lookup_fmap.
  destruct (plan !! "execution_utc_day"%string) as [v|] eqn:Hv; [|done].
  cbn [existsb is_nil negb Bool.eqb orb fmap option_fmap option_map is_none andb].
  rewrite !orb_false_r, meets_flat by (eapply plan_flat; [|done]; simpl; auto).
  destruct v as [|b|z|s|w us|l|d]; try done. cbn. apply String.eqb_sym.
Qed.

Lemma int_ge_0 z : rel_test RGte (bson_encode (VInt 0)) (VInt z) = negb (z <? 0).
Proof.
  unfold rel_test. cbn [bson_encode type_rank]. rewrite Z.eqb_refl, bson_cmp_int. cbn [andb].
  unfold Z.ltb. by destruct (z ?= 0).
Qed.

Lemma within_limit consumed limit (charged : bool) :
  negb ((limit <? consumed) || (consumed =? limit) && negb charged) =
  if charged then consumed <=? limit else consumed <? limit.
Proof.
  destruct charged, (Z.ltb_spec limit consumed), (Z.eqb_spec consumed limit), (Z.leb_spec consumed limit),
    (Z.ltb_spec consumed limit); simpl; try done; lia.
Qed.

Lemma limit_agrees server_now charged :
  matches server_now
    (FOr [FExists ["execution_attempt_limit"%string] false;
          FAnd [FTypeInt ["execution_attempt_limit"%string]; FRel RGte ["execution_attempt_limit"%string] (VInt 0);
                FOr [FExists ["execution_consumed"%string] false;
                     FAnd [FTypeInt ["execution_consumed"%string]; FRel RGte ["execution_consumed"%string] (VInt 0)]];
                FExpr ((if charged : bool then ALte else ALt)
                         (AIfNull (AField ["execution_consumed"%string]) (ALit (VInt 0)))
                         (AField ["execution_attempt_limit"%string]))]]) plan =
  match dec plan !! "execution_attempt_limit"%string with
  | None => true
  | Some (VInt limit) =>
      match doc_get_or (dec plan) "execution_consumed" (VInt 0) with
      | VInt consumed =>
          negb ((limit <? 0) || (consumed <? 0)) && negb ((limit <? consumed) || (consumed =? limit) && negb charged)
      | _ => false
      end
  | Some _ => false
  end.
Proof using plan_stored plan_flat.
  cbn [matches existsb forallb]. rewrite !field_vals. unfold doc_get_or, dec, decode_doc. rewrite !lookup_fmap.
  destruct (plan !! "execution_attempt_limit"%string) as [v|] eqn:Hv; [|done].
  assert (Hfv : is_list v = false) by (eapply plan_flat; [|done]; simpl; auto).
  cbn [existsb is_nil negb Bool.eqb orb fmap option_fmap option_map]. rewrite !orb_false_r, !meets_flat by done.
  destruct v as [|b|limit|s|w us|l|d]; try done. cbn [is_exact_int andb bson_decode]. rewrite int_ge_0.
  destruct (plan !! "execution_consumed"%string) as [c|] eqn:Hc.
  - assert (Hfc : is_list c = false) by (eapply plan_flat; [|done]; simpl; auto).
    cbn [existsb is_nil negb Bool.eqb orb fmap option_fmap option_map default_to]. rewrite !orb_false_r, !meets_flat by done.
    destruct c as [|b|consumed|s|w us|l|d]; try (cbn [is_exact_int andb orb bson_decode]; by rewrite andb_false_r).
    cbn [is_exact_int bson_decode]. rewrite int_ge_0.
    assert (Hagg : agg_true (aeval server_now plan ((if charged then ALte else ALt)
        (AIfNull (AField ["execution_consumed"%string]) (ALit (VInt 0))) (AField ["execution_attempt_limit"%string]))) =
      negb ((limit <? consumed) || (consumed =? limit) && negb charged)).
    { rewrite within_limit. destruct charged; cbn [aeval path_get]; rewrite Hc, Hv; cbn [path_get agg_cmp agg_true];
        rewrite bson_cmp_int; unfold Z.leb, Z.ltb; by destruct (consumed ?= limit). }
    rewrite Hagg. by destruct (limit <? 0), (consumed <? 0), (negb _).
  - cbn [existsb is_nil negb Bool.eqb orb fmap option_fmap option_map default_to].
    assert (Hagg : agg_true (aeval server_now plan ((if charged then ALte else ALt)
        (AIfNull (AField ["execution_consumed"%string]) (ALit (VInt 0))) (AField ["execution_attempt_limit"%string]))) =
      negb ((limit <? 0) || (0 =? limit) && negb charged)).
    { rewrite within_limit. destruct charged; cbn [aeval path_get]; rewrite Hc, Hv; cbn [path_get agg_cmp agg_true bson_encode];
        rewrite bson_cmp_int; unfold Z.leb, Z.ltb; by destruct (0 ?= limit). }
    rewrite Hagg. by destruct (limit <? 0), (negb _).
Qed.

(** The query that charges an execution and the check made on the plan read
    back agree on every stored plan, before and after the charge: the query
    selects a plan exactly when the check allows it at that instant. *)
Theorem query_agrees_with_check server_now charged :
  matches server_now (history_execution_query now charged) plan = history_execution_allowed (dec plan) now charged.
Proof using plan_stored plan_flat.
  unfold history_execution_query, history_execution_allowed.
  rewrite <- (until_agrees server_now), <- (day_agrees server_now), <- (limit_agrees server_now charged).
  cbn [matches forallb]. rewrite andb_true_r, andb_assoc. by destruct charged.
Qed.
End Agree.

(** ** Admission never refills a plan *)

Lemma path_alter_other p f d d' q :
  path_alter p f d = Some d' -> ~ p `prefix_of` q -> ~ q `prefix_of` p -> path_get q (VDict d') = path_get q (VDict d).
Proof.
  revert d d' q. induction p as [|k p IH]; intros d d' q Ha Hpq Hqp; [done|].
  destruct q as [|k' q]; [exfalso; apply Hqp, prefix_nil|].
  destruct (decide (k' = k)) as [->|Hne].
  2: { cbn [path_get]. assert (Hf : d' !! k' = d !! k'); [|by rewrite Hf].
       eapply path_alter_frame; [exact Ha|]. simpl. congruence. }
  assert (Hpq' : ~ p `prefix_of` q) by (intros Hp; apply Hpq, prefix_cons, Hp).
  assert (Hqp' : ~ q `prefix_of` p) by (intros Hp; apply Hqp, prefix_cons, Hp).
  destruct p as [|k2 p]; [exfalso; apply Hpq', prefix_nil|]. cbn [path_get].
  change (match d !! k with
          | None => d1 ← path_alter (k2 :: p) f ∅; Some (<[k := VDict d1]> d)
          | Some (VDict sub) => d1 ← path_alter (k2 :: p) f sub; Some (<[k := VDict d1]> d)
          | Some _ => None
          end = Some d') in Ha.
  destruct (d !! k) as [v|] eqn:Hk.
  - destruct v as [| | | | | |sub]; try done. apply bind_Some in Ha as (d1 & Hd1 & [= <-]).
    rewrite lookup_insert_eq. by apply (IH sub).
  - apply bind_Some in Ha as (d1 & Hd1 & [= <-]). rewrite lookup_insert_eq. rewrite (IH _ _ _ Hd1 Hpq' Hqp').
    destruct q; [exfalso; apply Hqp', prefix_nil|done].
Qed.

(** The end of a path is missing from an existing document. *)
Definition lacks (d : doc) (p : path) : Prop :=
  exists pre k sub, p = (pre ++ [k])%list /\ path_get pre (VDict d) = Some (VDict sub) /\ sub !! k = None.

Lemma path_get_app p q v : path_get (p ++ q) v = match path_get p v with Some x => path_get q x | None => None end.
Proof.
  revert v. induction p as [|k p IH]; intros v; [done|]. cbn [app path_get].
  destruct v; try done. destruct (_ !! k); [apply IH|done].
Qed.

(** A stored leaf and a lacking path do not meet. *)
Lemma lacks_apart d p q v :
  lacks d p -> path_get q (VDict d) = Some v -> is_dict v = false -> ~ p `prefix_of` q /\ ~ q `prefix_of` p.
Proof.
  intros (pre & k & sub & -> & Hpre & Hk) Hq Hv. split.
  - intros [r ->]. rewrite !path_get_app, Hpre in Hq. simpl in Hq. by rewrite Hk in Hq.
  - intros [r Hr]. destruct r as [|x r _] using rev_ind.
    + rewrite app_nil_r in Hr. subst q. rewrite path_get_app, Hpre in Hq. simpl in Hq. by rewrite Hk in Hq.
    + rewrite app_assoc in Hr. apply app_inj_tail in Hr as [-> ->]. rewrite path_get_app, Hq in Hpre.
      destruct r as [|y r]; [by injection Hpre as ->|]. simpl in Hpre. by destruct v.
Qed.

Lemma lacks_encode d p : lacks d p -> lacks (encode_doc d) p.
Proof.
  intros (pre & k & sub & -> & Hpre & Hk). exists pre, k, (encode_doc sub). split; [done|]. split.
  - assert (Henc : forall q v, path_get q (bson_encode v) = bson_encode <$> path_get q v).
    { clear. induction q as [|x q IH]; intros v; [done|]. cbn [path_get].
      destruct v as [| | | | |l|d]; try done. cbn [bson_encode]. rewrite lookup_fmap. by destruct (d !! x); simpl. }
    change (VDict (encode_doc d)) with (bson_encode (VDict d)). rewrite Henc, Hpre. done.
  - unfold encode_doc. by rewrite lookup_fmap, Hk.
Qed.

Lemma tree_nested_ind (P : tree -> Prop) :
  (forall v, P (Leaf v)) -> (forall fs, Forall (fun kt => P kt.2) fs -> P (Node fs)) -> forall t, P t.
Proof.
  intros Hl Hn. fix IH 1. intros [v|fs]; [apply Hl|]. apply Hn.
  induction fs as [|[k t] fs IHfs]; constructor; [apply IH|exact IHfs].
Qed.

Lemma missing_leaves_lack t root existing prefix patch :
  path_get prefix (VDict root) = Some (VDict existing) ->
  _missing_leaves existing t prefix = Ok patch -> Forall (fun pv => lacks root pv.1) patch.
Proof.
  revert existing prefix patch. induction t as [v|fs Hfs] using tree_nested_ind; intros existing prefix patch Hroot; simpl.
  { intros [= <-]. constructor. }
  revert patch. induction Hfs as [|[key value] fs Hvalue Hfs IHfs]; intros patch; [intros [= <-]; constructor|].
  match goal with |- result_bind ?h _ = _ -> _ => destruct h as [here|e] eqn:Hh; [|done] end. cbn [result_bind].
  match goal with |- result_bind ?g _ = _ -> _ => destruct g as [rest|e] eqn:Hr; [|done] end. cbn [result_bind].
  intros [= <-]. apply Forall_app. split; [|by apply IHfs].
  destruct (existing !! key) as [v|] eqn:Hk.
  - destruct value as [x|fs'] eqn:Hval; [injection Hh as <-; constructor|].
    destruct v as [| | | | | |sub]; try done. simpl in Hvalue. eapply Hvalue; [|exact Hh].
    rewrite path_get_app, Hroot. simpl. by rewrite Hk.
  - injection Hh as <-. constructor; [|constructor]. simpl. by exists prefix, key, existing.
Qed.

(** What a plan may become under admission: every leaf it has stays, except the
    link date. *)
Definition kept (d d' : doc) : Prop :=
  forall q v, path_get q (VDict d) = Some v -> is_dict v = false -> head q <> Some "last_linked_at"%string ->
    path_get q (VDict d') = Some v.

Lemma kept_refl d : kept d d.
Proof. by intros q v Hq _ _. Qed.

(** Setting paths a document lacks keeps its leaves. *)
Lemma set_lacking_kept now d0 d patch d' :
  Forall (fun pv => lacks d0 pv.1) patch ->
  (forall q v, path_get q (VDict d0) = Some v -> is_dict v = false -> path_get q (VDict d) = Some v) ->
  apply_upds now false ((fun pv => USet pv.1 pv.2) <$> patch) d = Some d' ->
  forall q v, path_get q (VDict d0) = Some v -> is_dict v = false -> path_get q (VDict d') = Some v.
Proof.
  intros Hp. revert d. induction Hp as [|[p x] patch Hl Hp IH]; intros d Hd Ha q v Hq Hv; simpl in Ha.
  - injection Ha as <-. by apply Hd.
  - apply bind_Some in Ha as (d1 & Hd1 & Ha). eapply IH; [|exact Ha|exact Hq|done]. clear q v Hq Hv.
    intros q v Hq Hv. destruct (lacks_apart _ _ _ _ Hl Hq Hv) as [Hpq Hqp].
    rewrite (path_alter_other _ _ _ _ _ Hd1 Hpq Hqp). by apply Hd.
Qed.

Section NeverRefills.
Context {E : Type -> Type} {S : Type} `{MongoConf} `{ExtSpec E S}.
Abbreviation plan_step := (guarded (E := E) (S := S) (doc_step PLAN_COLLECTION kept)).

Lemma root_matches now existing seller more d :
  matches now (plan_filter seller (root_is existing :: more)) d = true -> d = encode_doc existing.
Proof.
  unfold plan_filter, root_is. cbn [matches forallb]. rewrite !andb_true_iff. intros (_ & _ & Hr & _).
  cbn [aeval agg_true bson_encode] in Hr. unfold agg_eq in Hr.
  destruct (val_eqb (VDict d) _) eqn:He; [|done]. apply val_eqb_eq in He. by injection He.
Qed.

Lemma admit_legacy_guarded seller existing cutoff now pilot : plan_step (admit_legacy seller existing cutoff now pilot).
Proof.
  unfold admit_legacy. do 3 (apply guarded_bind; [apply guarded_of_result|intros ?]).
  destruct (_missing_leaves existing _ []) as [patch|e] eqn:Hpatch; [|done]. cbn [of_result bind].
  apply guarded_bind; [apply guarded_of_result|intros _].
  apply guarded_bind; [apply guarded_moves|intros updated].
  - intros _ server_now d d' Hm Ha. apply root_matches in Hm as ->. cbn [apply_update] in Ha.
    intros q v Hq Hv _. eapply set_lacking_kept; [| |exact Ha|exact Hq|done]; [|done].
    eapply Forall_impl; [eapply missing_leaves_lack; [|exact Hpatch]; reflexivity|]. intros pv. apply lacks_encode.
  - destruct (_ =? 1); [done|]. apply guarded_bind; [by apply guarded_moves|]. intros [winner|]; [|done].
    destruct (_ || _); [done|]. repeat (apply guarded_bind; [apply guarded_of_result|intros ?]). by destruct (_ || _).
Qed.

(** Admission only ever adds what a plan lacks.  Whatever else runs
    against the store, in any interleaving and under any lost connection, each
    call of an admission leaves every leaf of every stored plan as it was,
    other than the link date: no counter is reset, no budget refilled, no
    lease, state or cutoff rewritten. *)
Theorem admission_never_refills seller now pilot : plan_step (admit_history_onboarding seller now pilot).
Proof.
  unfold admit_history_onboarding. destruct (negb _); [done|]. apply guarded_bind; [apply guarded_catch|intros _].
  - apply guarded_bind; [apply guarded_moves|done]. intros _ server_now d d' _. simpl. intros [= <-]. apply kept_refl.
  - intros e. by destruct (isinstance _ _).
  - apply guarded_bind; [by apply guarded_moves|]. intros [existing|]; [|done].
    destruct (doc_get existing "cutoff"); try done. apply guarded_bind.
    { destruct (existing !! _) as [version|]; [by destruct (py_eq _ _)|apply admit_legacy_guarded]. }
    intros plan. apply guarded_bind; [apply guarded_of_result|intros _]. apply guarded_bind; [apply guarded_moves|done].
    intros _ server_now d d' _. cbn [apply_update apply_upds apply_upd]. intros Ha. apply bind_Some in Ha as (d1 & Hd1 & [= <-]).
    intros q v Hq Hv Hh. destruct q as [|k q]; [by injection Hq as <-|]. cbn [path_get] in *.
    erewrite path_alter_frame; [exact Hq|exact Hd1|]. simpl in *. congruence.
Qed.
End NeverRefills.

(** ** Runs on the reference server *)

Section Examples.
#[local] Instance aware : MongoConf := aware_conf.
Definition link_day : Z := instant (Date 2024 2 29) (10 * hour).
(** A plan written before the policy: it has spent some of its budget. *)
Definition legacy_plan : doc := mk_doc
  [("_id", VStr "7"); ("seller_id", VStr "7"); ("cutoff", VDate true link_day); ("schema_version", VInt 1);
   ("total_consumed", VInt 40); ("total_budget", VInt 50);
   ("budget", VDict (mk_doc [("orders", VDict (mk_doc [("consumed", VInt 40); ("physical_attempts", VInt 45)]))]))]%string.
Definition plan_world (d : doc) : world unit := World {[ (PLAN_COLLECTION, "7"%string) := d ]} (link_day + day) None tt.

Example admission_of_a_legacy_plan :
  let r := run (E := noE) (admit_history_onboarding "7" (link_day + day) false) (plan_world legacy_plan) in
  let d := VDict (default ∅ (w_db r.1 !! (PLAN_COLLECTION, "7"%string))) in
  r.2 = Ok tt /\ path_get ["total_consumed"%string] d = Some (VInt 40) /\
  path_get ["budget"; "orders"; "physical_attempts"]%string d = Some (VInt 45) /\
  path_get ["budget"; "questions"; "physical_attempts"]%string d = Some (VInt 20000) /\
  path_get ["date_from"%string] d = Some (VDate true (instant (Date 2023 2 28) (10 * hour))) /\
  path_get ["last_linked_at"%string] d = Some (VDate true (link_day + day)).
Proof. vm_compute. repeat split. Qed.

Definition charged_plan : doc := mk_doc
  [("execution_until", VDate true (link_day + hour)); ("execution_utc_day", VStr "2024-02-29");
   ("execution_attempt_limit", VInt 3); ("execution_consumed", VInt 3)]%string.

Lemma query_agrees_with_check_witness :
  matches 0 (history_execution_query link_day true) charged_plan = history_execution_allowed (dec charged_plan) link_day true /\
  matches 0 (history_execution_query link_day true) charged_plan = true /\
  matches 0 (history_execution_query link_day false) charged_plan = false.
Proof.
  split; [|split; by vm_compute]. apply query_agrees_with_check; [by vm_compute|].
  intros f v Hf. simpl in Hf. destruct Hf as [<-|[<-|[<-|[<-|[]]]]]; vm_compute; by intros [= <-].
Defined.
End Examples.
