(* ===== verification/HistoryWork.v ===== *)
(** Prepaid history work: the receipts of core/.../history_work_intent.py, by
    which the acquisition of an event is charged to a plan. *)

From S2P Require Export HistoryPlan Idempotency.

#[local] Open Scope Z_scope.

(** ** Paths and events *)

Definition segments (p : string) : list string := split_char "/" p.

(** [PATHS]: the resources a source may acquire. *)
Definition PATHS (source path : string) : bool :=
  match segments path with
  | [""; "orders"; n] => (String.eqb source "orders" || String.eqb source "claims_returns") && digits1 n
  | [""; "questions"; n] => String.eqb source "questions" && digits1 n
  | [""; "shipments"; n] => String.eqb source "shipments" && digits1 n
  | [""; "shipments"; n; ("costs" | "payments")] => String.eqb source "shipments" && digits1 n
  | [""; "messages"; "packs"; n; "sellers"; m] => String.eqb source "messages" && digits1 n && digits1 m
  | [""; "post-purchase"; "v1"; "claims"; n] => String.eqb source "claims_returns" && digits1 n
  | [""; "post-purchase"; "v2"; "claims"; n; "returns"] => String.eqb source "claims_returns" && digits1 n
  | _ => false
  end%string.
Definition work_sources : list string := ["orders"; "questions"; "shipments"; "messages"; "claims_returns"]%string.

Definition TOPICS (topic : string) : option (string * string) :=
  if string_in topic ["orders_v2"; "orders.updated"]%string then Some ("orders.updated", "orders")%string
  else if string_in topic ["questions"; "questions.new"]%string then Some ("questions.new", "questions")%string
  else if string_in topic ["shipments"; "shipments.updated"]%string then Some ("shipments.updated", "shipments")%string
  else if string_in topic ["messages"; "messages.new"]%string then Some ("messages.new", "messages")%string
  else None.

(** The claim a post-purchase resource names: the claim itself or its history. *)
Definition claim_root (resource : string) : option string :=
  match segments resource with
  | [""; "post-purchase"; "v1"; "claims"; n] => if digits1 n then Some n else None
  | _ => None
  end%string.
Definition claim_history (resource : string) : option string :=
  match segments resource with
  | [""; "post-purchase"; "v1"; "claims"; n; "actions-history"] => if digits1 n then Some n else None
  | _ => None
  end%string.

Definition event_actions (document : doc) : val :=
  if is_none (doc_get document "actions") then
    match doc_get document "raw_body" with VDict raw => doc_get raw "actions" | _ => VNone end
  else doc_get document "actions".

Definition normalize_history_event (document : doc) : option (string * string * string) :=
  let topic := py_or (doc_get document "topic") (doc_get document "classification") in
  match doc_get document "resource" with
  | VStr resource =>
      let value :=
        match topic with
        | VStr "post_purchase" =>
            let actions := event_actions document in
            if is_some (claim_root resource) && py_eq actions (VList [VStr "claims"])
            then Some ("claims.updated", resource, "claims_returns")%string
            else
              match claim_history resource with
              | Some n =>
                  if py_eq actions (VList [VStr "claims_actions"])
                  then Some ("claims.updated", "/post-purchase/v1/claims/" ++ n, "claims_returns")%string
                  else None
              | None => None
              end
        | VStr t =>
            match TOPICS t with
            | Some (event_type, source) => if PATHS source resource then Some (event_type, resource, source) else None
            | None => None
            end
        | _ => None
        end in
      match value with
      | Some v =>
          let classification := doc_get document "classification" in
          if is_none classification || py_eq classification topic || py_eq classification (VStr v.1.1)
          then Some v else None
      | None => None
      end
  | _ => None
  end.

(** ** Receipts *)

Definition CONSUMER : string := "zeler.sheets.events".
Definition work_wait : exn := mk_exn "HistoryWorkWaitError" "history work unavailable".
Definition work_unless (ok : bool) : result unit := if ok then Ok tt else Err work_wait.

Definition _utc (value : val) : result Z :=
  match value with VDate _ us => Ok us | _ => Err work_wait end.

Record HistoryWorkIntent := {
  wi_event_id : string; wi_seller_id : string; wi_event_type : string; wi_resource : string;
  wi_source : string; wi_claim_identity : doc; wi_job_identity : option doc;
}.

Definition receipt_doc (event_id seller_id event_type resource source path : string)
    (claim_identity : doc) (job_identity : option doc) : doc :=
  mk_doc [("event_id", VStr event_id); ("seller_id", VStr seller_id); ("event_type", VStr event_type);
          ("resource", VStr resource); ("source", VStr source); ("phase", VStr "maintenance"); ("path", VStr path);
          ("claim_identity", VDict claim_identity);
          ("job_identity", match job_identity with
                           | Some d => if Nat.eqb (size d) 0 then VNone else VDict d
                           | None => VNone end)]%string.
Definition receipt (i : HistoryWorkIntent) (path : string) : doc :=
  receipt_doc (wi_event_id i) (wi_seller_id i) (wi_event_type i) (wi_resource i) (wi_source i) path
    (wi_claim_identity i) (wi_job_identity i).

Definition field_str (d : doc) (k : string) : string := match doc_get d k with VStr s => s | _ => EmptyString end.

(** The checks of a receipt that read no document: its identity and job. *)
Definition receipt_wellformed (r : doc) : result (doc * option doc) :=
  let! _ := each (fun k => work_unless (negb (string_is_empty (field_str r k))))
              ["event_id"; "seller_id"; "event_type"; "resource"; "source"; "path"]%string in
  let seller := field_str r "seller_id" in
  let! _ := work_unless (digits1 seller && Nat.leb (String.length seller) 20 &&
                         String.eqb (str_of_Z (int_of_digits seller)) seller) in
  let! _ := work_unless (py_eq (doc_get r "phase") (VStr "maintenance") && string_in (field_str r "source") work_sources) in
  let path := field_str r "path" in
  let! _ := work_unless (PATHS (field_str r "source") path) in
  let! _ := work_unless (negb (String.eqb (field_str r "source") "messages") ||
                         endswith ("/sellers/" ++ seller) path) in
  match doc_get r "claim_identity" with
  | VDict identity =>
      let! _ := work_unless (py_eq (doc_get identity "module_id") (VStr "sheets") &&
                             py_eq (doc_get identity "consumer_id") (VStr CONSUMER)) in
      let! _ := work_unless (hex32 (field_str identity "owner_token")) in
      match doc_get r "job_identity" with
      | VNone => Ok (identity, None)
      | VDict job =>
          let! _ := work_unless (negb (string_is_empty (field_str job "_id")) && hex32 (field_str job "attempt_token") &&
                                 match doc_get job "fence" with VInt z => 1 <=? z | _ => false end) in
          Ok (identity, Some job)
      | _ => Err work_wait
      end
  | _ => Err work_wait
  end.

Section Work.
Context {E : Type -> Type} `{PyRepr}.

(** The key under which the event of a receipt is processed. *)
Definition processing_key (job : option doc) (topic resource event_id : string) : string :=
  match job with
  | Some job => "sync-job:" ++ field_str job "_id" ++ ":" ++ event_id
  | None => topic ++ ":" ++ resource ++ ":" ++ event_id
  end%string.

Definition claim_fields (key owner : string) : list (string * val) :=
  [("_id", VStr (scoped_processed_event_id key CONSUMER)); ("owner_token", VStr owner); ("module_id", VStr "sheets");
   ("consumer_id", VStr CONSUMER); ("idempotency_key", VStr key)]%string.
Definition claim_query (key owner : string) (current : Z) : filter :=
  FAnd (((fun kv => FEq [kv.1] kv.2) <$> claim_fields key owner) ++
        [FRel RGt ["expires_at"%string] (VDate true current)]).

(** The query of a running job: the fields of its identity, then its state,
    seller and lease, which replace fields of the same name. *)
Definition job_query (job : doc) (seller : string) (current : Z) : filter :=
  FAnd (((fun kv => FEq [kv.1] kv.2) <$>
           map_to_list (delete "lease_until" (delete "seller_id" (delete "state" job)))) ++
        [FEq ["state"%string] (VStr "running"); FIn ["seller_id"%string] [VStr seller; VInt (int_of_digits seller)];
         FRel RGt ["lease_until"%string] (VDate true current)]).

Definition has_fields (d : doc) (fields : list (string * val)) : bool :=
  forallb (fun kv => py_eq (doc_get d kv.1) kv.2) fields.

Definition live_until (d : doc) (field : string) (current : Z) : result unit :=
  let! t := _utc (doc_get d field) in work_unless (current <? t).

(** The claim under which the work runs, owned and unexpired. *)
Definition check_claim (key owner : string) (current : Z) : prog E unit :=
  let* claim := mongo (MFindOne "processed_event_claims" (claim_query key owner current) []) in
  match claim with
  | None => Raise work_wait
  | Some claim =>
      do* of_result (work_unless (has_fields claim (claim_fields key owner))) in
      of_result (live_until claim "expires_at" current)
  end.

(** The sync job that ordered the work, running, leased, and covering the event. *)
Definition check_job (job event : doc) (seller : string) (current : Z) : prog E unit :=
  let* stored_job := mongo (MFindOne "sheets_sync_jobs" (job_query job seller current) []) in
  match stored_job with
  | None => Raise work_wait
  | Some stored_job =>
      do* of_result (work_unless (has_fields stored_job (map_to_list job))) in
      do* of_result (work_unless (py_eq (doc_get stored_job "state") (VStr "running") &&
                                  String.eqb (py_str (doc_get stored_job "seller_id")) seller)) in
      do* of_result (live_until stored_job "lease_until" current) in
      let* requested := of_result (_utc (doc_get stored_job "requested_at")) in
      let* received := of_result (_utc (doc_get event "received_at")) in
      do* of_result (work_unless (requested <=? received)) in
      let* through := of_result (_utc (doc_get stored_job "delta_through_at")) in
      of_result (work_unless (received <=? through))
  end.

(** Writing the ownership document makes a concurrent takeover conflict. *)
Definition touch_fence (c : string) (f : filter) : prog E unit :=
  let* touched := mongo (MFindOneAndUpdate c f (UOps [UInc ["history_dispatch_fence"%string] 1]) false true) in
  match touched with None => Raise work_wait | Some _ => Ret tt end.

Definition validate_history_work_receipt (r : doc) (current : Z) (in_session touch : bool) : prog E HistoryWorkIntent :=
  let* '(identity, job) := of_result (receipt_wellformed r) in
  let seller := field_str r "seller_id" in
  let event_id := field_str r "event_id" in
  let resource := field_str r "resource" in
  let* found := mongo (MFindOne "webhook_events" (FEq ["_id"%string] (VStr event_id)) []) in
  match found with
  | None => Raise work_wait
  | Some event =>
      do* of_result (work_unless
        (py_eq (doc_get event "_id") (VStr event_id) && String.eqb (py_str (doc_get event "user_id")) seller &&
         bool_decide (normalize_history_event event =
                      Some (field_str r "event_type", resource, field_str r "source")))) in
      let topic := field_str event "topic" in
      do* of_result (work_unless (negb (string_is_empty topic))) in
      let key := processing_key job topic resource event_id in
      do* of_result (work_unless (py_eq (doc_get identity "processing_key") (VStr key) && (negb touch || in_session))) in
      let owner := field_str identity "owner_token" in
      do* check_claim key owner current in
      do* match job with Some job => check_job job event seller current | None => Ret tt end in
      do* (if (touch : bool) then
             do* touch_fence "processed_event_claims" (claim_query key owner current) in
             match job with
             | Some job => touch_fence "sheets_sync_jobs" (job_query job seller current)
             | None => Ret tt
             end
           else Ret tt) in
      Ret {| wi_event_id := event_id; wi_seller_id := seller; wi_event_type := field_str r "event_type";
             wi_resource := resource; wi_source := field_str r "source";
             wi_claim_identity := identity; wi_job_identity := job |}
  end.

Definition resolve_history_work_intent (event_id seller_id event_type resource : string)
    (claim_identity job_identity : option doc) (current : Z) : prog E HistoryWorkIntent :=
  match claim_identity with
  | None => Raise work_wait
  | Some claim_identity =>
      let* row := mongo (MFindOne "webhook_events" (FEq ["_id"%string] (VStr event_id)) []) in
      match row with
      | None => Raise work_wait
      | Some row =>
          match normalize_history_event row with
          | None => Raise work_wait
          | Some normalized =>
              validate_history_work_receipt
                (receipt_doc event_id seller_id event_type resource normalized.2 resource claim_identity job_identity)
                current false false
          end
      end
  end.

(** [HistoryWorkIntent.assert_live]. *)
Definition assert_live (i : HistoryWorkIntent) (current : Z) : prog E unit :=
  do* validate_history_work_receipt (receipt i (wi_resource i)) current false false in Ret tt.

(** *** Spending a work credit *)

Definition counter_ok (p : path) : filter := FOr [FExists p false; FAnd [FTypeInt p; FRel RGte p (VInt 0)]].

Definition work_sent_path (execution source phase : string) : path :=
  ["execution_work_sent_by_source"; execution; source; phase]%string.
Definition work_field (work_id field : string) : path := ["execution_work"; work_id; field]%string.

Definition work_send_query (seller_id execution source phase work_id : string) (now : Z) : filter :=
  FAnd [FEq ["_id"] (VStr seller_id); FEq ["seller_id"] (VStr seller_id);
         FEq ["policy_version"] (VStr POLICY_VERSION); FEq ["authority"; "kind"] (VStr "account_link_policy");
         FEq ["execution_id"] (VStr execution); FEq ["state"] (VStr "active"); FEq ["eligible"] (VBool true);
         FEq ["sources"] (VStr source);
         FTypeInt ["execution_consumed"]; FRel RGt ["execution_consumed"] (VInt 0);
         FRel RGt ["execution_until"] (VDate true now); FEq ["execution_utc_day"] (VStr (iso_day now));
         FTypeInt ["execution_attempt_limit"]; FRel RGte ["execution_attempt_limit"] (VInt 0);
         FTypeInt (work_field work_id "credit"); FEq (work_field work_id "credit") (VInt 1);
         FTypeInt (work_field work_id "sent"); FEq (work_field work_id "sent") (VInt 0);
         history_execution_query now true;
         counter_ok ["execution_sent"]; counter_ok (work_sent_path execution source phase);
         FExpr (ALt (AIfNull (AField ["execution_sent"]) (ALit (VInt 0))) (AField ["execution_consumed"]))]%string.

Definition work_send_update (execution source phase work_id : string) : update :=
  UOps [UInc ["execution_sent"%string] 1; UInc (work_sent_path execution source phase) 1;
        UInc (work_field work_id "sent") 1].

(** The receipt under [work_id], for this source, phase, path and seller. *)
Definition stored_receipt (plan : option doc) (work_id source phase path seller_id : string) : result doc :=
  match plan with
  | Some plan =>
      match doc_get plan "execution_work" with
      | VDict works =>
          match doc_get works work_id with
          | VDict r =>
              let! _ := work_unless (has_fields r [("source", VStr source); ("phase", VStr phase); ("path", VStr path);
                                                   ("seller_id", VStr seller_id)]%string) in
              Ok r
          | _ => Err work_wait
          end
      | _ => Err work_wait
      end
  | None => Err work_wait
  end.

Definition spend_work (seller_id execution source phase work_id path : string) (now : Z) : prog E doc :=
  let* plan := mongo (MFindOne PLAN_COLLECTION (FEq ["_id"%string] (VStr seller_id)) []) in
  let* r := of_result (stored_receipt plan work_id source phase path seller_id) in
  do* validate_history_work_receipt r now true true in
  let* result := mongo (MFindOneAndUpdate PLAN_COLLECTION (work_send_query seller_id execution source phase work_id now)
                          (work_send_update execution source phase work_id) false true) in
  match result with None => Raise work_wait | Some plan => Ret plan end.

Definition reserve_history_work_send (seller_id execution source phase work_id path : string) (now : Z) : prog E doc :=
  do* of_result (work_unless (String.eqb phase "maintenance" && hex32 work_id)) in
  catch (transaction (spend_work seller_id execution source phase work_id path now))
    (fun e => if isinstance e "PyMongoError" then Raise work_wait else Raise e).
End Work.
