(* ===== verification/WebhookProofs.v ===== *)
(** What the gateway guarantees about MercadoLibre's notifications: how they are
    classified, stored and published. *)

From S2P Require Import PyDate.
From S2P Require Export Webhooks HistoryWork.

#[local] Open Scope Z_scope.

(** ** Paths as texts and as segments *)

Lemma digits_no_slash s : string_forallb is_digit s = true -> string_forallb (fun d => negb (Ascii.eqb d "/")) s = true.
Proof.
  induction s as [|d s IH]; [done|]. simpl. intros [Hd Hs]%andb_true_iff. rewrite IH, andb_true_r by done.
  apply negb_true_iff. by destruct (Ascii.eqb_spec d "/") as [->|].
Qed.
Lemma digits1_split s : digits1 s = true -> split_char "/" s = [s].
Proof. intros [_ Hd]%andb_true_iff. by apply split_char_none, digits_no_slash. Qed.

Lemma segments_claims x : segments (claims_prefix ++ x) = "" :: "post-purchase" :: "v1" :: "claims" :: segments x.
Proof. reflexivity. Qed.
Lemma segments_claims_inv s rest :
  segments s = "" :: "post-purchase" :: "v1" :: "claims" :: rest -> rest <> [] -> s = (claims_prefix ++ String.concat "/" rest)%string.
Proof.
  intros Hs Hr. rewrite <- (split_join "/" s). unfold segments in Hs. rewrite Hs. by destruct rest.
Qed.

Lemma claim_root_some s n : claim_root s = Some n <-> s = (claims_prefix ++ n)%string /\ digits1 n = true.
Proof.
  unfold claim_root. split.
  - intros Hc. destruct (segments s) as [|a [|b [|c [|d [|x [|y l]]]]]] eqn:Hs;
      try done; repeat (case_hyp Hc; try done). all: injection Hc as <-.
    apply (segments_claims_inv s [x]) in Hs; [|done]. by split.
  - intros [-> Hd]. rewrite segments_claims. unfold segments. by rewrite digits1_split, Hd.
Qed.

Lemma claim_resource_some s n : _CLAIM_RESOURCE s = Some n <-> s = (claims_prefix ++ n)%string /\ digits1 n = true.
Proof.
  unfold _CLAIM_RESOURCE. split.
  - destruct (strip_prefix claims_prefix s) as [x|] eqn:Hs; [|done]. apply strip_prefix_Some in Hs as ->.
    destruct (digits1 x) eqn:Hd; [|done]. by intros [= <-].
  - intros [-> Hd]. by rewrite strip_prefix_app, Hd.
Qed.

Lemma claim_history_some s n :
  claim_history s = Some n <-> s = (claims_prefix ++ n ++ "/actions-history")%string /\ digits1 n = true.
Proof.
  unfold claim_history. split.
  - intros Hc. destruct (segments s) as [|a [|b [|c [|d [|x [|y [|z l]]]]]]] eqn:Hs; try done; repeat (case_hyp Hc; try done).
    all: injection Hc as <-. apply (segments_claims_inv s [x; _]) in Hs; [|done]. by split.
  - intros [-> Hd]. rewrite segments_claims. unfold segments.
    change (n ++ "/actions-history")%string with (n ++ String "/" "actions-history")%string.
    apply andb_true_iff in Hd as Hd'. destruct Hd' as [_ Hd']. rewrite split_char_here by by apply digits_no_slash.
    by rewrite Hd.
Qed.

Lemma digits_before_some suffix s n : string_forallb is_digit suffix = false \/ suffix <> EmptyString ->
  digits_before suffix s = Some n -> s = (n ++ suffix)%string /\ string_forallb is_digit n = true.
Proof.
  intros Hsuf. revert n. induction s as [|c s IH]; intros n; cbn [digits_before].
  - destruct suffix; simpl; [by intros [= <-]|done].
  - destruct (String.eqb_spec (String c s) suffix) as [<-|Hne]; [by intros [= <-]|].
    destruct (is_digit c) eqn:Hc; [|done]. destruct (digits_before suffix s) as [m|] eqn:Hm; [|done].
    intros [= <-]. destruct (IH m eq_refl) as [-> Hd]. simpl. by rewrite Hc, Hd.
Qed.
Lemma digits_before_here n c suffix : string_forallb is_digit n = true -> is_digit c = false ->
  digits_before (String c suffix) (n ++ String c suffix)%string = Some n.
Proof.
  intros Hn Hc. induction n as [|d n IH].
  - rewrite append_nil. simpl. by rewrite Ascii.eqb_refl, String.eqb_refl.
  - simpl in Hn. apply andb_true_iff in Hn as [Hd Hn]. rewrite append_cons. cbn [digits_before].
    destruct (String.eqb_spec (String d (n ++ String c suffix)) (String c suffix)) as [[= -> _]|_]; [congruence|].
    by rewrite Hd, IH.
Qed.

Lemma claim_actions_some s n :
  _CLAIM_ACTIONS_RESOURCE s = Some n <-> s = (claims_prefix ++ n ++ "/actions-history")%string /\ digits1 n = true.
Proof.
  unfold _CLAIM_ACTIONS_RESOURCE, digits1. split.
  - destruct (strip_prefix claims_prefix s) as [x|] eqn:Hs; [|done]. apply strip_prefix_Some in Hs as ->.
    destruct (digits_before "/actions-history" x) as [m|] eqn:Hm; [|done]. destruct (string_is_empty m) eqn:He; [done|].
    intros [= <-]. apply digits_before_some in Hm as [-> Hd]; [|by right]. by rewrite He, Hd.
  - intros [-> [He Hd]%andb_true_iff]. apply negb_true_iff in He.
    rewrite strip_prefix_app, digits_before_here by done. by rewrite He.
Qed.

(** The two files recognise the same claims. *)
Lemma option_agree {A} (a b : option A) : (forall n, a = Some n <-> b = Some n) -> a = b.
Proof. intros Hab. destruct a as [n|]; [symmetry; by apply Hab|]. destruct b as [n|]; [by apply Hab|done]. Qed.
Lemma claim_root_agrees s : claim_root s = _CLAIM_RESOURCE s.
Proof. apply option_agree. intros n. by rewrite claim_root_some, claim_resource_some. Qed.
Lemma claim_history_agrees s : claim_history s = _CLAIM_ACTIONS_RESOURCE s.
Proof. apply option_agree. intros n. by rewrite claim_history_some, claim_actions_some. Qed.

(** ** One classification *)

(** The history source an event type feeds. *)
Definition history_source (event_type : string) : option string :=
  snd <$> List.find (fun kv => String.eqb kv.1 event_type)
    [("orders.updated", "orders"); ("questions.new", "questions"); ("shipments.updated", "shipments");
     ("messages.new", "messages"); ("claims.updated", "claims_returns")]%string.

Section Agreement.
Context `{PyRepr}.

Lemma claims_path n : digits1 n = true -> PATHS "claims_returns" (claims_prefix ++ n) = true.
Proof using Type. intros Hd. unfold PATHS. rewrite segments_claims. unfold segments. by rewrite digits1_split, Hd. Qed.

Lemma routed_topic t k : routing_key_of t = Some k -> In (t, k) TOPIC_ROUTING_KEYS.
Proof using Type.
  unfold routing_key_of. destruct (List.find _ _) as [[t' k']|] eqn:Hf; [|done]. intros [= <-].
  apply find_some in Hf as [Hin Ht]. apply String.eqb_eq in Ht. simpl in *. by subst.
Qed.

(** C29: the gateway and the history fence read an event alike.  An event the
    gateway classifies normalises, for the receipts of the history work, to
    exactly the event type and resource it was published under, with the
    source of that type, when the resource is one the source may acquire, and
    to nothing otherwise. *)
Theorem classification_agrees_with_history event c t resource :
  doc_get event "topic" = VStr t -> doc_get event "resource" = VStr resource ->
  doc_get event "classification" = VNone \/ doc_get event "classification" = VStr t ->
  classify_webhook_event event = Ok c ->
  normalize_history_event event =
    match history_source (cw_event_type c) with
    | Some source => if PATHS source (cw_resource c) then Some (cw_event_type c, cw_resource c, source) else None
    | None => None
    end.
Proof using Type.
  intros Ht Hr Hcl Hc.
  assert (Hfield : forall k s, doc_get event k = VStr s -> str_field event k = s).
  { intros k s Hs. unfold str_field, doc_get_or, doc_get in *. destruct (event !! k); [|done]. simpl in *. by subst. }
  unfold classify_webhook_event in Hc. rewrite (Hfield _ _ Ht), (Hfield _ _ Hr) in Hc.
  unfold normalize_history_event. rewrite Hr, Ht.
  assert (Hclass : forall ty, is_none (doc_get event "classification") || py_eq (doc_get event "classification") (VStr t)
    || py_eq (doc_get event "classification") ty = true).
  { intros ty. destruct Hcl as [-> | ->]; [done|]. simpl. by rewrite String.eqb_refl. }
  destruct (String.eqb_spec t "post_purchase") as [->|Hne].
  - cbn [py_or truthy string_is_empty negb]. apply result_bind_Ok in Hc as ([r k] & Hn & Hc).
    apply result_bind_Ok in Hn as (r' & Hn & Hrk). injection Hrk as <- <-. apply result_bind_Ok in Hc as (id & _ & Hc). injection Hc as <-.
    cbn [cw_event_type cw_resource]. unfold _normalize_post_purchase_claim_event in Hn. rewrite (Hfield _ _ Hr) in Hn.
    change (event_actions event) with (claim_actions event). rewrite claim_root_agrees, claim_history_agrees.
    change (history_source "claims.updated") with (Some "claims_returns"%string). cbv iota.
    destruct (is_some (_CLAIM_RESOURCE resource) && py_eq (claim_actions event) (VList [VStr "claims"])) eqn:Hclaim.
    + injection Hn as <-. apply andb_true_iff in Hclaim as [Hsome _].
      destruct (_CLAIM_RESOURCE resource) as [n|] eqn:Hn; [|done]. apply claim_resource_some in Hn as [-> Hd].
      rewrite claims_path by done. cbv iota beta. by rewrite Hclass.
    + destruct (_CLAIM_ACTIONS_RESOURCE resource) as [n|] eqn:Hact; [|done].
      destruct (py_eq (claim_actions event) (VList [VStr "claims_actions"])); [|done]. injection Hn as <-.
      apply claim_actions_some in Hact as [-> Hd]. rewrite claims_path by done. cbv iota beta. by rewrite Hclass.
  - destruct (routing_key_of t) as [k|] eqn:Hk; [|done]. cbn [result_bind] in Hc. apply result_bind_Ok in Hc as (id & _ & Hc).
    injection Hc as <-. cbn [cw_event_type cw_resource]. apply routed_topic in Hk.
    simpl in Hk. repeat destruct Hk as [[= <- <-]|Hk]; [..|done]; cbn [py_or truthy string_is_empty negb];
      cbn [TOPICS string_in existsb orb String.eqb Ascii.eqb Bool.eqb history_source List.find fst snd fmap option_fmap option_map];
      try reflexivity; destruct (PATHS _ resource); cbv iota beta; by rewrite ?Hclass.
Qed.
End Agreement.

Section Example.
#[local] Instance no_repr : PyRepr := fun _ => EmptyString.
Definition sample_event : doc :=
  mk_doc [("_id", VStr "n1"); ("topic", VStr "post_purchase"); ("user_id", VInt 7); ("classification", VNone);
          ("resource", VStr "/post-purchase/v1/claims/52/actions-history"); ("raw_body", VDict (mk_doc [("actions", VList [VStr "claims_actions"])]))]%string.

Lemma classification_agrees_with_history_witness :
  match classify_webhook_event sample_event with
  | Ok c => String.eqb (cw_resource c) "/post-purchase/v1/claims/52" && String.eqb (cw_event_type c) "claims.updated"
  | Err _ => false
  end = true /\
  normalize_history_event sample_event =
    Some ("claims.updated", "/post-purchase/v1/claims/52", "claims_returns")%string.
Proof.
  split; [vm_compute; reflexivity|].
  destruct (classify_webhook_event sample_event) as [c|e] eqn:Hc; [|vm_compute in Hc; discriminate Hc].
  rewrite (classification_agrees_with_history sample_event c "post_purchase" "/post-purchase/v1/claims/52/actions-history");
    [|reflexivity|reflexivity|by left|exact Hc].
  vm_compute in Hc. injection Hc as <-. vm_compute. reflexivity.
Defined.
End Example.
