(* ===== verification/WebhookOnce.v ===== *)
(** Concurrent deliveries of notifications: each event is published at most
    once, however many deliveries of it race, whatever connections are lost,
    and the stored events keep their schema. *)

From S2P Require Import PyDate.
From S2P Require Export Webhooks Concurrency Schema.

#[local] Open Scope Z_scope.

(** ** RabbitMQ, as the log of the events put on it *)

(** The transport does not classify topics. *)
Definition transport_error (e : exn) : Prop := isinstance e "UnknownWebhookTopicError" = false.
Definition event_of (payload : doc) : string := match doc_get payload "event_id" with VStr s => s | _ => EmptyString end.
(** A publication that fails may have reached the broker. *)
Definition published {X : Type} (payload : doc) (s s' : list string) (r : result X) : Prop :=
  (s' = s ++ [event_of payload] \/ s' = s /\ exists e, r = Err e) /\ forall e, r = Err e -> transport_error e.

#[export] Instance webhook_spec : ExtSpec webhook_call (list string) := fun X c =>
  match c in webhook_call X return list string -> list string -> result X -> Prop with
  | WConnect => fun s s' r => s' = s /\ forall e, r = Err e -> transport_error e
  | WPublish _ _ payload _ _ => fun s s' r => published payload s s' r
  | WInjected _ payload _ => fun s s' r => published payload s s' r
  | WBody => fun s s' r => s' = s
  | WJson => fun s s' r => s' = s
  end.

(** ** Stored events *)

Definition stored (db : database) (e : string) : Prop := is_some (db !! ("webhook_events", e)%string) = true.

Section Store.
Context `{MongoConf}.

Lemma stored_kept now f u upsert db db' r e :
  mongo_ok now (MUpdateOne "webhook_events" f u upsert) db db' r -> stored db e -> stored db' e.
Proof using Type.
  intros Hm Hs. apply (moved_ok "webhook_events" (fun _ _ => True)) in Hm; [|by simpl; auto]. unfold stored in *.
  destruct (db !! _) as [d|] eqn:Hd; [|done]. destruct (Hm e d Hd) as (d' & -> & _). done.
Qed.

(** Inserting the fields keeps the identity of the seed. *)
Lemma insert_keeps_id now fields e d d' :
  (forall kv, In kv fields -> kv.1 = "_id"%string -> kv.2 = VStr e) -> d !! "_id"%string = Some (VStr e) ->
  apply_update now true (set_on_insert fields) d = Some d' -> d' !! "_id"%string = Some (VStr e).
Proof using Type.
  unfold set_on_insert, apply_update. revert d. induction fields as [|[k v] fields IH]; intros d Hf Hd; simpl; [by intros [= <-]|].
  intros Hu. eapply IH; [intros kv Hin; apply Hf; simpl; auto| |exact Hu].
  destruct (decide (k = "_id"%string)) as [->|Hne].
  - pose proof (Hf ("_id", v)%string (or_introl eq_refl) eq_refl) as Hv. simpl in Hv. rewrite Hv. apply lookup_insert_eq.
  - by rewrite lookup_insert_ne.
Qed.

(** The upsert stores the event, or finds it stored. *)
Lemma store_outcome now e fields db db' r :
  db_wf db -> (forall kv, In kv fields -> kv.1 = "_id"%string -> kv.2 = VStr e) ->
  mongo_ok now (MUpdateOne "webhook_events" (FEq ["_id"%string] (VStr e)) (set_on_insert fields) true) db db' (Ok r) ->
  stored db' e /\ (negb (did_upsert r) && (0 <? matched_count r) = false -> ~ stored db e).
Proof using Type.
  intros Hwf Hf Hm. apply mongo_ok_update_one with (i := e) in Hm; [|done|apply keyed_id]. rewrite at_id_eq in Hm by done.
  unfold stored. destruct (db !! ("webhook_events", e)%string) as [d|] eqn:Hd.
  - unfold updates in Hm. destruct (apply_update _ _ _ d) as [d'|]; [|destruct Hm as [_ [=]]].
    destruct (decide _); [|destruct Hm as [_ [=]]]. unfold stores in Hm.
    destruct (unique_ok _ _ _ _); destruct Hm as [-> Hr]; [|done]. injection Hr as ->. by rewrite lookup_insert_eq.
  - assert (Hseed : upsert_seed (FEq ["_id"%string] (VStr e)) = Some {["_id"%string := VStr e]}) by reflexivity.
    unfold inserts, upsert_doc in Hm. rewrite Hseed in Hm. cbn [mbind option_bind] in Hm.
    destruct (apply_update now true (set_on_insert fields) _) as [d'|] eqn:Ha; [|destruct Hm as [_ [=]]].
    apply insert_keeps_id with (e := e) in Ha; [|done|apply lookup_singleton_eq]. unfold doc_id in Hm. rewrite Ha, Hd in Hm.
    cbn [is_some] in Hm. unfold stores in Hm. destruct (unique_ok _ _ _ _); destruct Hm as [-> Hr]; [|done].
    by rewrite lookup_insert_eq.
Qed.
End Store.

Section Fields.
Context `{PyRepr}.

(** The stored fields, in the order of the source. *)
Lemma fields_shape payload e ip t fields : webhook_fields payload e ip t = Ok fields ->
  exists topic user resource, fields =
    [("_id", VStr e); ("topic", VStr topic); ("user_id", VInt user); ("resource", VStr resource);
     ("received_at", VDate true t); ("published_at", VNone); ("classification", VNone); ("raw_body", VDict payload);
     ("source_ip", VStr ip); ("schema_version", VInt 1)]%string.
Proof using Type.
  unfold webhook_fields. intros Hf. repeat (apply result_bind_Ok in Hf as (? & _ & Hf)). injection Hf as <-. eauto.
Qed.
End Fields.

(** ** The ghost state: the event a delivery stored and has not published *)

Lemma owned_insert (gs : list (option string)) i e :
  gs !! i = Some None -> omap id (<[i := Some e]> gs) ≡ₚ e :: omap id gs.
Proof.
  revert i. induction gs as [|g gs IH]; intros [|i] Hi; simplify_eq/=; [done|].
  destruct g as [g|]; simpl; rewrite IH by done; [apply Permutation_swap|done].
Qed.
Lemma owned_release (gs : list (option string)) i e :
  gs !! i = Some (Some e) -> omap id gs ≡ₚ e :: omap id (<[i := None]> gs).
Proof.
  intros Hi. rewrite <- (list_insert_id gs i (Some e) Hi) at 1.
  rewrite <- (list_insert_insert_eq gs i (Some e) None). apply owned_insert.
  apply list_lookup_insert_eq. by eapply lookup_lt_Some.
Qed.

Section Once.
Context `{MongoConf} `{PyRepr} `{LocalZone} `{HexHmac}.
Variable horizon : Z.
Abbreviation world := (world (list string)).

(** What is published or about to be is stored, and nothing is there twice. *)
Definition inv (gs : list (option string)) (w : world) : Prop :=
  db_wf (w_db w) /\ NoDup (w_ext w ++ omap id gs) /\ Forall (stored (w_db w)) (w_ext w ++ omap id gs).
Abbreviation safe := (cwp (E := webhook_call) (S := list string) inv horizon).

Lemma inv_same gs w w' : inv gs w -> w_db w' = w_db w -> w_ext w' = w_ext w -> inv gs w'.
Proof using Type. unfold inv. by intros ? -> ->. Qed.

Lemma safe_ext_same {X B} (c : webhook_call X) (k : X -> prog webhook_call B) Q i g :
  (forall s s' r, webhook_spec X c s s' r -> s' = s) ->
  (forall x, safe (k x) Q i g) -> (forall e, (exists s s', webhook_spec X c s s' (Err e)) -> Q g (Err e)) ->
  safe (bind (ext c) k) Q i g.
Proof using Type.
  intros Hsame Hk Herr. apply cwp_bind, cwp_perform. intros gs w w' r Hg Hi (Hr & Hdb & _) _. exists g.
  rewrite list_insert_id by done. split; [eapply inv_same; [exact Hi|done|by eapply Hsame]|].
  destruct r as [x|e]; [apply Hk|apply Herr; eauto].
Qed.
Lemma safe_clock {B} (k : Z -> prog webhook_call B) Q i g : (forall t, safe (k t) Q i g) -> safe (bind now_utc k) Q i g.
Proof using Type.
  intros Hk. apply cwp_bind, cwp_perform. intros gs w w' r Hg Hi [(Hdb & _ & He & _) ->] _. exists g.
  rewrite list_insert_id by done. split; [by eapply inv_same|apply Hk].
Qed.

(** Publishing uses the event up. *)
Lemma safe_put {X B} (c : webhook_call X) payload (k : X -> prog webhook_call B) Q i e :
  (forall s s' r, webhook_spec X c s s' r -> published payload s s' r) -> event_of payload = e ->
  (forall g x, safe (k x) Q i g) -> (forall g exc, transport_error exc -> Q g (Err exc)) ->
  safe (bind (ext c) k) Q i (Some e).
Proof using Type.
  intros Hput He Hk Herr. apply cwp_bind, cwp_perform. intros gs w w' r Hg (Hwf & Hn & Hs) (Hr & Hdb & _) _.
  apply Hput in Hr as [[Hw|[Hw _]] Ht].
  - exists None. split.
    + rewrite He in Hw. unfold inv. rewrite Hdb, Hw, <- app_assoc. simpl.
      rewrite (owned_release gs i e Hg) in Hn, Hs. done.
    + destruct r; [apply Hk|by apply Herr, Ht].
  - exists (Some e). rewrite list_insert_id by done. split; [by unfold inv; rewrite Hdb, Hw|].
    destruct r; [apply Hk|by apply Herr, Ht].
Qed.

Lemma safe_publish pub key payload headers (Q : option string -> result unit -> Prop) i e :
  event_of payload = e -> (forall g, Q g (Ok tt)) -> (forall g exc, transport_error exc -> Q g (Err exc)) ->
  safe (publish pub key payload headers) Q i (Some e).
Proof using Type.
  intros He Hok Herr. unfold publish. destruct pub as [|exchange].
  - assert (Hp : safe (let* u := ext (WInjected key payload headers) in Ret u) Q i (Some e)).
    { eapply safe_put; [|exact He| |exact Herr]; [done|]. intros g []. apply Hok. }
    intros gs w w' r Hg Hi Hr Hl. destruct (Hp gs w w' r Hg Hi Hr Hl) as (g' & Hi' & Hk). exists g'. split; [done|].
    by destruct r.
  - unfold _publish_to_exchange. apply safe_ext_same; [by intros s s' r [-> _]| |].
    2: { intros exc (s & s' & _ & Ht). apply Herr. by apply Ht. }
    intros _. apply cwp_bind, cwp_of_result.
    assert (Hkey : forall exc, (if truthy (doc_get payload "event_id") then Ok (doc_get payload "event_id")
        else doc_at payload "idempotency_key") = Err exc -> transport_error exc).
    { intros exc. destruct (truthy _); [done|]. unfold doc_at. destruct (payload !! _); [done|]. intros [= <-]. reflexivity. }
    destruct (if truthy _ then _ else _) as [id|exc] eqn:Hid; [|by apply Herr, Hkey].
    eapply safe_put; [|exact He| |exact Herr]; [done|]. intros g res. apply cwp_of_result.
    unfold _raise_for_publish_result. destruct res as [|cls d]; [apply Hok|].
    destruct (string_in _ _); [apply Herr; reflexivity|].
    destruct (_is_returned_publish_result _ _); [apply Herr; reflexivity|apply Hok].
Qed.

Lemma safe_occurred {B} v (k : string -> prog webhook_call B) Q i g :
  (forall t, safe (k t) Q i g) -> safe (bind (_format_occurred_at v) k) Q i g.
Proof using Type.
  intros Hk. unfold _format_occurred_at.
  assert (Hnow : safe (bind (let* now := now_utc in Ret (isoformat_z now)) k) Q i g).
  { apply cwp_bind, safe_clock. intros t. apply Hk. }
  destruct v as [| | | |[] us| |]; first [exact Hnow|apply Hk].
Qed.

(** An event whose identity is [e] in every reading. *)
Definition identified (event : doc) (e : string) : Prop :=
  (forall id, _event_id event = Ok id -> id = e) /\ _fallback_event_id event = e.

Lemma safe_event event pub tid i e :
  identified event e -> safe (publish_webhook_event event pub tid) (fun _ _ => True) i (Some e).
Proof using Type.
  intros [Hid Hfb]. unfold publish_webhook_event. apply cwp_catch.
  eapply (cwp_mono _ _ _ (fun g r => forall exc, r = Err exc -> isinstance exc "UnknownWebhookTopicError" = true -> g = Some e)).
  - apply cwp_bind, cwp_of_result. destruct (classify_webhook_event event) as [c|exc] eqn:Hc; [|done].
    apply cwp_bind. unfold build_event_envelope. rewrite Hc. apply cwp_bind, cwp_of_result.
    apply cwp_bind, cwp_of_result. destruct (_event_id event) as [id|exc] eqn:He; [|done]. apply safe_occurred. intros t.
    apply cwp_bind, cwp_of_result. destruct (let! u := doc_at event "user_id" in py_int u) as [seller|exc]; [|done].
    apply safe_publish; [|done|].
    + unfold event_of, mk_doc. cbn [foldl fst snd]. doc_simp. by apply Hid.
    + intros g exc Ht x [= ->] Hu. unfold transport_error in Ht. congruence.
  - intros g [u|exc] Hg; [done|]. specialize (Hg exc eq_refl). destruct (isinstance exc _) eqn:Hu; [|done]. rewrite (Hg eq_refl).
    apply cwp_bind. unfold _build_unknown_envelope. apply safe_occurred. intros t.
    apply safe_publish; [|done..]. unfold event_of, mk_doc. cbn [foldl fst snd]. doc_simp. done.
Qed.

Lemma safe_task event pub tid i e :
  identified event e -> safe (_classify_and_publish event pub tid) (fun _ _ => True) i (Some e).
Proof using Type.
  intros He. unfold _classify_and_publish. destruct pub as [pub|]; [|done]. apply cwp_catch.
  eapply (cwp_mono _ _ _ (fun _ _ => True)); [|by intros g []]. apply cwp_bind. eapply cwp_mono; [by apply safe_event|].
  intros g [u|exc] _; [|done]. apply cwp_bind, cwp_of_result. destruct (doc_at event "_id") as [id|exc]; [|done].
  apply safe_clock. intros t. apply cwp_bind, cwp_perform. intros gs w w' r Hg (Hwf & Hn & Hs) (Hm & _ & He' & _) _.
  exists g. rewrite list_insert_id by done. split; [|by destruct r]. unfold inv. rewrite He'.
  assert (Hkeep : forall r', mongo_ok (w_now w') (MUpdateOne "webhook_events" (FEq ["_id"%string] id)
      (UOps [USet ["published_at"] (VDate true t); USet ["classification"] (doc_get event "topic")])%string false)
      (w_db w) (w_db w') r' -> inv gs w').
  { intros r' Hm'. unfold inv. rewrite He'. split; [exact (mongo_ok_wf _ _ _ _ _ Hwf Hm')|]. split; [done|].
    eapply Forall_impl; [exact Hs|]. intros x. by eapply stored_kept. }
  unfold inv in Hkeep. rewrite He' in Hkeep.
  destruct Hm as [Hm|[_ [Hdb|[r' Hm]]]]; [by eapply Hkeep| |by eapply Hkeep]. by rewrite Hdb.
Qed.

Lemma safe_store {B} e fields (k : bool -> prog webhook_call B) Q i :
  (forall kv, In kv fields -> kv.1 = "_id"%string -> kv.2 = VStr e) ->
  safe (k true) Q i None -> safe (k false) Q i (Some e) -> (forall exc, Q None (Err exc)) ->
  safe (bind (store_event e fields) k) Q i None.
Proof using Type.
  intros Hf Hdup Hnew Herr. apply cwp_bind, cwp_bind, cwp_perform. intros gs w w' r Hg (Hwf & Hn & Hs) (Hm & _ & He & _) _.
  assert (Hkeep : forall r', mongo_ok (w_now w') (MUpdateOne "webhook_events" (FEq ["_id"%string] (VStr e)) (set_on_insert fields) true)
      (w_db w) (w_db w') r' -> inv gs w').
  { intros r' Hm'. unfold inv. rewrite He. split; [exact (mongo_ok_wf _ _ _ _ _ Hwf Hm')|]. split; [done|].
    eapply Forall_impl; [exact Hs|]. intros x. by eapply stored_kept. }
  destruct Hm as [Hm|[-> Hm]].
  2: { exists None. rewrite list_insert_id by done. split; [|apply Herr].
       destruct Hm as [Hdb|[r' Hm]]; [by unfold inv; rewrite Hdb, He|by eapply Hkeep]. }
  destruct r as [r|exc]; [|exists None; rewrite list_insert_id by done; split; [by eapply Hkeep|apply Herr]].
  pose proof (store_outcome _ _ _ _ _ _ Hwf Hf Hm) as [Hst Hfresh]. cbn [cwp bind]. apply Hkeep in Hm as (Hwf' & Hn' & Hs').
  destruct (negb (did_upsert r) && _) eqn:Hd.
  - exists None. rewrite list_insert_id by done. split; [done|exact Hdup].
  - exists (Some e). split; [|exact Hnew]. specialize (Hfresh eq_refl).
    assert (Hnot : e ∉ w_ext w ++ omap id gs).
    { intros Hin. apply Hfresh. rewrite Forall_forall in Hs. by apply Hs. }
    unfold inv. rewrite He in *. rewrite (owned_insert gs i e Hg), <- Permutation_middle.
    split; [done|]. split; [by constructor|]. by constructor.
Qed.

Lemma safe_delivery settings request i : safe (deliver settings request) (fun _ _ => True) i None.
Proof using Type.
  unfold deliver. apply cwp_bind. unfold receive_meli_webhook. apply safe_ext_same; [done| |done]. intros body.
  apply cwp_bind, cwp_of_result. destruct (admit_source _ _ _ _) as [[]|exc]; [|done].
  apply safe_ext_same; [done| |done]. intros payload. destruct payload as [| | | | | |payload]; try done.
  destruct (is_none (first_id payload)); [done|]. apply safe_clock. intros t. apply cwp_bind, cwp_of_result.
  destruct (webhook_fields payload _ _ t) as [fields|exc] eqn:Hfields; [|done].
  apply fields_shape in Hfields as (x & x0 & x1 & ->).
  apply safe_store; [| | |done].
  - intros kv Hin Hk. simpl in Hin. repeat destruct Hin as [<-|Hin]; try discriminate Hk; [done|destruct Hin].
  - cbn [cwp bind]. done.
  - cbn [cwp]. apply cwp_bind. eapply cwp_mono; [|by intros g [] _].
    apply safe_task. set (e := py_str (first_id payload)).
    assert (Hfirst : first_id (mk_doc [("_id", VStr e); ("topic", VStr x); ("user_id", VInt x0); ("resource", VStr x1);
      ("received_at", VDate true t); ("published_at", VNone); ("classification", VNone); ("raw_body", VDict payload);
      ("source_ip", VStr (_source_ip (wr_client request) (header_get (wr_headers request) "X-Forwarded-For")));
      ("schema_version", VInt 1)]%string) = py_or (py_or (VStr e) VNone) VNone).
    { unfold first_id, mk_doc. cbn [foldl fst snd]. unfold doc_get. doc_simp. done. }
    unfold identified, _event_id, _fallback_event_id. rewrite Hfirst. destruct e as [|ch e]; split; try done. by intros id [= <-].
Qed.
End Once.

Section Deliveries.
Context `{MongoConf} `{PyRepr} `{LocalZone} `{HexHmac}.

(** C8: an event is published at most once.  Any number of deliveries run
    concurrently, of the same notifications or of different ones, under any
    settings, interleaved call by call, with any answers and lost connections:
    no event identifier is put on the exchange twice. *)
Theorem event_published_at_most_once horizon (deliveries : list (webhook_settings * webhook_request)) (w w' : world (list string)) ps' :
  db_wf (w_db w) -> w_ext w = [] ->
  reach horizon (map (fun x => deliver x.1 x.2) deliveries, w) (ps', w') -> NoDup (w_ext w').
Proof using Type.
  intros Hwf Hw Hr. apply (reach_ok inv horizon (fun _ _ _ => True)) in Hr.
  - destruct Hr as (gs & _ & (_ & Hn & _) & _). by apply NoDup_app in Hn as [Hn _].
  - exists (replicate (length deliveries) None). cbn [fst snd].
    assert (Hnil : forall n, omap id (replicate n (None : option string)) = []) by (by intros n; induction n).
    split; [by rewrite length_replicate, length_map|]. split.
    + unfold inv. rewrite Hw, Hnil. split; [done|]. split; constructor.
    + intros i p Hp. rewrite list_lookup_fmap in Hp. destruct (deliveries !! i) as [x|] eqn:Hx; [|done].
      injection Hp as <-. exists None. split; [|apply safe_delivery].
      apply lookup_replicate. split; [done|]. by eapply lookup_lt_Some.
Qed.
End Deliveries.

(** ** The type of stored events *)

Section Types.
Context `{MongoConf} `{PyRepr} `{LocalZone} `{HexHmac}.
Abbreviation event_typed := (stays_typed (S := list string) "webhook_events" webhook_events_schema).
Abbreviation keeps_typed := (guarded (E := webhook_call) event_typed).

(** Only calls of MongoDB matter. *)
Ltac typed_step :=
  repeat first
    [ progress cbv zeta | apply guarded_bind; [|intros ?] | apply guarded_catch; [|intros ?]
    | apply guarded_of_result | apply typed_now | apply typed_ext | exact I
    | match goal with |- guarded _ (match ?x with _ => _ end) => destruct x end ].

Lemma typed_publish_event event pub tid : keeps_typed (publish_webhook_event event pub tid).
Proof using Type.
  unfold publish_webhook_event, build_event_envelope, _build_unknown_envelope, _format_occurred_at, publish, _publish_to_exchange.
  typed_step.
Qed.

Lemma typed_task event topic pub tid : doc_get event "topic" = VStr topic -> keeps_typed (_classify_and_publish event pub tid).
Proof using Type.
  intros Ht. unfold _classify_and_publish. destruct pub as [pub|]; [|done]. apply guarded_catch; [|done].
  apply guarded_bind; [apply typed_publish_event|]. intros _. apply guarded_bind; [apply guarded_of_result|]. intros id.
  apply guarded_bind; [apply typed_now|]. intros t. apply guarded_bind; [|done]. rewrite Ht.
  apply typed_update; [|done]. intros now d d' Hd. simpl. intros [= <-].
  do 2 (apply conforms_insert; [intros ts Hin; simpl in Hin; repeat destruct Hin as [[= <-]|Hin]; by try destruct Hin|]).
  exact Hd.
Qed.

(** What the endpoint hands to its task carries the topic as a text. *)
Lemma received_topic settings request h duplicate document :
  runs (receive_meli_webhook settings request) h (Ok (duplicate, Some document)) -> exists topic, doc_get document "topic" = VStr topic.
Proof using Type.
  unfold receive_meli_webhook, store_event. intros Hr. runs_inv; simplify_eq.
  match goal with v : val |- _ => rename v into value; destruct value as [| | | | | |payload] end; runs_inv; simplify_eq.
  cbv zeta in Hr. destruct (is_none (first_id payload)); runs_inv; simplify_eq.
  match goal with Hf : Ok _ = webhook_fields _ _ _ _ |- _ => symmetry in Hf; apply fields_shape in Hf as (topic & user & resource & ->) end.
  exists topic. case_match; simplify_eq. unfold mk_doc. cbn [foldl fst snd]. by doc_simp.
Qed.

Lemma typed_deliver settings request : keeps_typed (deliver settings request).
Proof using Type.
  unfold deliver. apply guarded_bind_runs.
  - unfold receive_meli_webhook, store_event. apply guarded_bind; [apply typed_ext|]. intros body. apply guarded_bind; [apply guarded_of_result|]. intros _.
    apply guarded_bind; [apply typed_ext|]. intros payload. destruct payload as [| | | | | |payload]; try exact I.
    cbv zeta. destruct (is_none (first_id payload)); [done|]. apply guarded_bind; [apply typed_now|]. intros t.
    destruct (webhook_fields payload _ _ t) as [fields|exc] eqn:Hf; [|done].
    apply fields_shape in Hf as (topic & user & resource & ->). cbn [of_result bind]. apply guarded_bind; [|by intros []].
    apply guarded_bind; [|done]. apply typed_update.
    + intros now d d' Hd. simpl. by intros [= <-].
    + intros _ now d'. cbv [upsert_doc upsert_seed mbind option_bind]. simpl. intros [= <-]. split.
      * unfold doc_id. by doc_simp.
      * unfold conforms, has_key. cbn [forallb properties required webhook_events_schema fst snd]. by doc_simp.
  - intros [duplicate task] h Hrun. apply guarded_bind; [|done]. destruct task as [document|]; [|done].
    apply received_topic in Hrun as [topic Ht]. by eapply typed_task.
Qed.

(** C30: the stored notifications keep their schema.  Whatever deliveries run
    together, interleaved call by call, with any payloads, answers and lost
    connections, every document of [webhook_events] conforms to the
    collection's schema at every moment, if it did at first. *)
Theorem events_stay_typed (deliveries : list (webhook_settings * webhook_request)) (w w' : world (list string)) ps' :
  typed "webhook_events" webhook_events_schema (w_db w) ->
  pool_reach (map (fun x => deliver x.1 x.2) deliveries, w) (ps', w') ->
  typed "webhook_events" webhook_events_schema (w_db w').
Proof using Type.
  intros Ht Hr. apply (guarded_pool_inv event_typed (fun w => typed "webhook_events" webhook_events_schema (w_db w))) in Hr as [_ Hw];
    [exact Hw|by intros ? ? ? Hk; apply Hk| |exact Ht].
  apply Forall_forall. intros p Hp. apply list_elem_of_fmap in Hp as (x & -> & _). apply typed_deliver.
Qed.
End Types.

(** ** A run *)

Section Example.
#[local] Instance aware : MongoConf := aware_conf.
#[local] Instance no_repr : PyRepr := fun _ => EmptyString.
#[local] Instance utc_zone : LocalZone := fun us => us.
#[local] Instance no_hmac : HexHmac := fun _ _ => EmptyString.
Definition sample_payload : val :=
  VDict (mk_doc [("_id", VStr "n1"); ("topic", VStr "items"); ("user_id", VInt 7); ("resource", VStr "/items/MLA1")]%string).
#[local] Instance toy_webhook : ExtRun webhook_call (list string) := {
  ext_run := fun X c => match c in webhook_call X return list string -> list string * result X with
    | WConnect => fun s => (s, Ok tt)
    | WPublish _ _ payload _ _ => fun s => (s ++ [event_of payload], Ok NoResult)
    | WInjected _ payload _ => fun s => (s ++ [event_of payload], Ok tt)
    | WBody => fun s => (s, Ok EmptyString)
    | WJson => fun s => (s, Ok sample_payload)
    end;
  uuid_run := fun _ => "0123456789abcdef0123456789abcdef"%string;
}.
Lemma toy_webhook_sound X (c : webhook_call X) s : ext_spec X c s (ext_run X c s).1 (ext_run X c s).2.
Proof. destruct c; simpl; try done; split; try done; by left. Qed.

Definition sample_delivery : webhook_settings * webhook_request :=
  ({| meli_allowed_ips := "10.0.0.0/8, ::1"; meli_webhook_require_signature := false; meli_webhook_hmac_secret := "";
      injected_publisher := false; rabbitmq_url := "amqp://"; rabbitmq_events_exchange := "meli.events" |},
   {| wr_client := Some "10.1.2.3"; wr_headers := [] |})%string.
Abbreviation one_delivery := (deliver sample_delivery.1 sample_delivery.2).
Definition empty_world : world (list string) := World ∅ (1700000000 * second) None [].

(** The notification is delivered twice. *)
Abbreviation once := (run one_delivery empty_world).
Abbreviation twice := (run one_delivery once.1).
Lemma delivered_twice :
  reach (2 ^ 60) (map (fun x => deliver x.1 x.2) [sample_delivery; sample_delivery], empty_world)
    ([done_with once.2; done_with twice.2], twice.1).
Proof.
  unfold reach. etrans.
  - apply (reach_run toy_webhook_sound (fun _ => eq_refl) (2 ^ 60) [one_delivery; one_delivery] 0 one_delivery empty_world); [reflexivity|].
    apply Z.ltb_lt. vm_compute. reflexivity.
  - apply (reach_run toy_webhook_sound (fun _ => eq_refl) (2 ^ 60) [done_with once.2; one_delivery] 1 one_delivery once.1); [reflexivity|].
    apply Z.ltb_lt. vm_compute. reflexivity.
Qed.

Lemma event_published_at_most_once_witness :
  reach (2 ^ 60) (map (fun x => deliver x.1 x.2) [sample_delivery; sample_delivery], empty_world)
    ([done_with once.2; done_with twice.2], twice.1) /\ NoDup (w_ext twice.1) /\ w_ext twice.1 = ["n1"%string].
Proof.
  split; [exact delivered_twice|]. split; [|vm_compute; reflexivity].
  apply (event_published_at_most_once (2 ^ 60) [sample_delivery; sample_delivery] empty_world twice.1
    [done_with once.2; done_with twice.2]); [|reflexivity|exact delivered_twice].
  intros c i d Hd. cbn [w_db empty_world] in Hd. rewrite lookup_empty in Hd. discriminate Hd.
Defined.

Lemma events_stay_typed_witness :
  typed "webhook_events" webhook_events_schema (w_db twice.1) /\
  match w_db twice.1 !! ("webhook_events", "n1")%string with
  | Some d => py_eq (doc_get d "classification") (VStr "items") && conforms webhook_events_schema d
  | None => false
  end = true.
Proof.
  split; [|vm_compute; reflexivity].
  apply (events_stay_typed [sample_delivery; sample_delivery] empty_world twice.1 [done_with once.2; done_with twice.2]).
  - intros i d Hd. cbn [w_db empty_world] in Hd. rewrite lookup_empty in Hd. discriminate Hd.
  - exact (reach_pool (2 ^ 60) _ _ delivered_twice).
Defined.
End Example.
