(* ===== verification/SyncJobs.v ===== *)
(** The sync jobs of the sheets module: [SyncJobsProcessor] of
    modules/sheets/.../sync_jobs_processor.py, which replays the notifications
    of a period into a seller's spreadsheet under a fenced lease. *)

From S2P Require Export HistoryWork Broker.

#[local] Open Scope Z_scope.

(** ** Events and their handler *)

Record SheetsEvent := {
  se_event_id : string;
  se_event_type : string;
  se_seller_id : Z;
  se_resource : string;
  se_idempotency_key : string;
}.

(** [job_identity]: [_id], [attempt_token] and [fence]. *)
Definition job_identity (job : doc) : result doc :=
  let! i := doc_at job "_id" in
  let! t := doc_at job "attempt_token" in
  let! f := doc_at job "fence" in
  Ok (mk_doc [("_id", i); ("attempt_token", t); ("fence", f)]%string).

(** [SheetsEventHandler.handle] of consumer.py, with the job in whose name it is
    called: an external service of this file, which leaves the sync jobs alone. *)
Inductive sync_call : Type -> Type :=
| SHandle (job : doc) (event : SheetsEvent) (identity : option doc) : sync_call unit.

(** What a [GatewayRateLimitError] carries: the seconds to wait, the status of
    its response, the header of the pilot's budget and the body. *)
Definition rate_limit_error (retry_after_seconds status : Z) (budget_status : val) (body : string) : exn :=
  Exn "GatewayRateLimitError" "" [VInt retry_after_seconds; VInt status; budget_status; VStr body].

Definition jobs_coll : string := "sheets_sync_jobs".

Section Processor.
Context `{PyRepr} `{PyJson}.
Variable activation_cutoff lease_duration contention_backoff retention_window : Z.
Abbreviation syncing := (prog sync_call).

Definition _pilot_wait_code (error : exn) : result (option string) :=
  match exn_args error with
  | [_; VInt status; budget_status; VStr body] =>
      if negb (status =? 429) || negb (py_eq budget_status (VStr "wait")) then Ok None
      else
        match json_loads body with
        | Ok (VDict payload) =>
            match doc_get payload "error" with
            | VStr code => Ok (if string_in code ["pilot_execution_unavailable"; "pilot_budget_exhausted"]%string then Some code else None)
            | _ => Ok None
            end
        | Ok _ => Ok None
        | Err e => if isinstance e "ValueError" then Ok None else Err e
        end
  | _ => Ok None
  end.

(** *** Claiming *)

Definition free_at (now : Z) : filter := FOr [FEq ["available_at"%string] VNone; FRel RLte ["available_at"%string] (VDate true now)].
Definition lapsed_at (now : Z) : list filter :=
  [FRel RLte ["lease_until"%string] (VDate true now); FEq ["append_started_at"%string] VNone].
Definition activated : filter := FRel RGte ["created_at"%string] (VDate true activation_cutoff).

Definition candidate_query (now : Z) : filter :=
  FAnd [activated;
        FOr [FAnd [FEq ["state"%string] (VStr "pending"); free_at now];
             FAnd (FEq ["state"%string] (VStr "running") :: lapsed_at now)]].
Definition claim_fence (id : val) (state : string) (now : Z) : filter :=
  FAnd ([FEq ["_id"%string] id; FEq ["state"%string] (VStr state); activated] ++
        (if String.eqb state "running" then lapsed_at now else [free_at now])).
Definition claim_set (token : string) (now : Z) : update :=
  UOps [USet ["state"] (VStr "running"); USet ["attempt_token"] (VStr token);
        USet ["lease_until"] (VDate true (now + lease_duration)); USet ["started_at"] (VDate true now);
        USet ["delta_through_at"] (VDate true now); USet ["updated_at"] (VDate true now);
        UInc ["attempt_count"] 1; UInc ["fence"] 1]%string.

Definition claim_next : syncing (option doc) :=
  let* now := now_utc in
  let* candidate := mongo (MFindOne jobs_coll (candidate_query now)
                             [(["created_at"%string], true); (["available_at"%string], true); (["_id"%string], true)]) in
  match candidate with
  | None => Ret None
  | Some candidate =>
      let* state := of_result (doc_at candidate "state") in
      let* id := of_result (doc_at candidate "_id") in
      catch
        (let* token := uuid4_hex in
         mongo (MFindOneAndUpdate jobs_coll (claim_fence id (py_str state) now) (claim_set token now) false true))
        (fun e =>
           if isinstance e "DuplicateKeyError" then
             do* mongo (MUpdateOne jobs_coll (FAnd [FEq ["_id"] id; FEq ["state"] (VStr "pending")])%string
                   (UOps [USet ["available_at"] (VDate true (now + contention_backoff)); USet ["updated_at"] (VDate true now)])%string
                   false) in
             Ret None
           else Raise e)
  end.

Definition recover_uncertain_appends : syncing Z :=
  let* now := now_utc in
  let* r := mongo (MUpdateMany jobs_coll
      (FAnd [FEq ["state"] (VStr "running"); FRel RLte ["lease_until"] (VDate true now); FNe ["append_started_at"] VNone])%string
      (UOps [USet ["state"] (VStr "failed"); USet ["completed_at"] (VDate true now); USet ["lease_until"] VNone;
             USet ["error_code"] (VStr "append_outcome_unknown");
             USet ["error_message"] (VStr "Append outcome is unknown; automatic retry is disabled");
             USet ["updated_at"] (VDate true now)])%string) in
  Ret (modified_count r).

(** *** Writing under the fence *)

Definition owned_job (id token fence : val) : filter :=
  FAnd [FEq ["_id"] id; FEq ["state"] (VStr "running"); FEq ["attempt_token"] token; FEq ["fence"] fence]%string.

Definition _write (job : doc) (values : list (string * val)) : syncing unit :=
  let* id := of_result (doc_at job "_id") in
  let* token := of_result (doc_at job "attempt_token") in
  let* fence := of_result (doc_at job "fence") in
  let* now := now_utc in
  let* r := mongo (MUpdateOne jobs_coll (owned_job id token fence)
                     (UOps (map (fun kv => USet [kv.1] kv.2) values ++ [USet ["updated_at"%string] (VDate true now)])) false) in
  if matched_count r =? 1 then Ret tt else Raise (mk_exn "RuntimeError" ("lease lost for sync job " ++ py_str id)).

Definition _finish (job : doc) (succeeded : bool) (code error_type : option string) : syncing unit :=
  let* now := now_utc in
  _write job
    [("state", VStr (if succeeded then "succeeded" else "failed")); ("completed_at", VDate true now); ("lease_until", VNone);
     ("error_code", match code with Some code => VStr code | None => VNone end);
     ("error_message",
        match error_type, code with
        | Some t, _ => VStr (t ++ ": sync job processing failed")
        | None, Some _ => VStr "Requested delta is outside retention"
        | None, None => VNone
        end)]%string.

Definition wait_values (available_at : Z) (code message : string) : list (string * val) :=
  [("state", VStr "pending"); ("available_at", VDate true available_at); ("lease_until", VNone);
   ("append_started_at", VNone); ("completed_at", VNone); ("error_code", VStr code); ("error_message", VStr message)]%string.

(** *** The delta of a job *)

Definition _supported (event : doc) : bool :=
  let classification := py_str (py_or (py_or (doc_get event "classification") (doc_get event "topic")) (VStr EmptyString)) in
  string_in (default EmptyString (head (split_char "." classification))) ["items"; "orders"; "shipments"; "questions"]%string.

Definition sheets_event (job event : doc) (seller_id : string) (normalized : option (string * string * string)) : result SheetsEvent :=
  let! i := doc_at event "_id" in
  let! event_type :=
    (match normalized with
     | Some n => Ok n.1.1
     | None =>
         let classification := doc_get event "classification" in
         if truthy classification then Ok (py_str classification) else let! t := doc_at event "topic" in Ok (py_str t)
     end) in
  let! seller := py_int (VStr seller_id) in
  let! resource := (match normalized with Some n => Ok n.1.2 | None => let! r := doc_at event "resource" in Ok (py_str r) end) in
  let! job_id := doc_at job "_id" in
  Ok {| se_event_id := py_str i; se_event_type := event_type; se_seller_id := seller; se_resource := resource;
        se_idempotency_key := ("sync-job:" ++ py_str job_id ++ ":" ++ py_str i)%string |}.

Fixpoint handle_events (job : doc) (seller_id : string) (pilot : bool) (events : list doc) : syncing unit :=
  match events with
  | [] => Ret tt
  | event :: events =>
      let* _ := of_result (doc_at event "_id") in
      let normalized := if pilot then normalize_history_event event else None in
      if pilot && negb (is_some normalized)
      then Raise (mk_exn "HistoryPolicyWaitError" "replay source has no durable acquisition authority")
      else
        let* e := of_result (sheets_event job event seller_id normalized) in
        let* identity := of_result (if pilot then let! i := job_identity job in Ok (Some i) else Ok None) in
        do* ext (SHandle job e identity) in
        let* received_at := of_result (doc_at event "received_at") in
        let* event_id := of_result (doc_at event "_id") in
        do* _write job [("cursor_received_at", received_at); ("cursor_event_id", event_id)]%string in
        handle_events job seller_id pilot events
  end.

(** [s.isdigit()]: the superscripts of Latin-1 are digits too. *)
Definition isdigit (s : string) : bool :=
  negb (string_is_empty s) &&
  string_forallb (fun c => is_digit c || existsb (Nat.eqb (nat_of_ascii c)) [178; 179; 185]%nat) s.

Definition delta_query (seller_values : list val) (requested_at delta_through_at : val) : filter :=
  FAnd [FIn ["user_id"%string] seller_values;
        FAnd [FRel RGte ["received_at"%string] requested_at; FRel RLte ["received_at"%string] delta_through_at]].

Definition _process_delta (job : doc) : syncing unit :=
  let* seller := of_result (doc_at job "seller_id") in
  let seller_id := py_str seller in
  let* seller_values :=
    of_result (if isdigit seller_id then let! z := py_int (VStr seller_id) in Ok [VStr seller_id; VInt z] else Ok [VStr seller_id]) in
  let* plan := mongo (MFindOne PLAN_COLLECTION (FEq ["_id"%string] (VStr seller_id)) []) in
  let pilot := match plan with Some plan => has_key plan "execution_id" | None => false end in
  let* requested_at := of_result (doc_at job "requested_at") in
  let* delta_through_at := of_result (doc_at job "delta_through_at") in
  let* events := mongo (MFind "webhook_events" (delta_query seller_values requested_at delta_through_at)
                          [(["received_at"%string], true); (["_id"%string], true)]) in
  let supported := if pilot then events else List.filter _supported events in
  do* (match supported with
       | [] => Ret tt
       | _ => let* now := now_utc in _write job [("append_started_at"%string, VDate true now)]
       end) in
  do* handle_events job seller_id pilot supported in
  _write job [("unsupported_event_count"%string, VInt (Z.of_nat (length events) - Z.of_nat (length supported)))].

(** [a < b - delta] of two datetimes. *)
Definition before_by (delta : Z) (a b : val) : result bool :=
  match a, b with
  | VDate za x, VDate zb y =>
      if Bool.eqb za zb then Ok (x <? y - delta) else raise_type "can't compare offset-naive and offset-aware datetimes"
  | _, _ => raise_type "unsupported operand type(s)"
  end.

(** What follows the delta. *)
Definition settle_job (job : doc) (outcome : result unit) : syncing string :=
  match outcome with
  | Ok _ => do* _finish job true None None in Ret "succeeded"%string
  | Err exc =>
      if isinstance exc "HistoryPolicyWaitError" then
        let* now := now_utc in
        do* _write job (wait_values (now + contention_backoff) "pilot_execution_unavailable"
                          "Durable work authority wait; acquisition will resume") in
        Ret "pending"%string
      else if isinstance exc "GatewayRateLimitError" then
        let* code := of_result (_pilot_wait_code exc) in
        match code with
        | None => do* _finish job false (Some "sync_job_processing_failed"%string) (Some (exn_cls exc)) in Ret "failed"%string
        | Some code =>
            let* now := now_utc in
            do* _write job (wait_values (now + exn_int exc * second) code "Gateway pilot budget wait; acquisition will resume") in
            Ret "pending"%string
        end
      else do* _finish job false (Some "sync_job_processing_failed"%string) (Some (exn_cls exc)) in Ret "failed"%string
  end.

Definition process_once : syncing string :=
  do* recover_uncertain_appends in
  let* job := claim_next in
  match job with
  | None => Ret "idle"%string
  | Some job =>
      let* requested_at := of_result (doc_at job "requested_at") in
      let* delta_through_at := of_result (doc_at job "delta_through_at") in
      let* gone := of_result (before_by retention_window requested_at delta_through_at) in
      if (gone : bool) then do* _finish job false (Some "delta_unavailable"%string) None in Ret "failed"%string
      else let* outcome := attempt (_process_delta job) in settle_job job outcome
  end.

(** [SyncJobsPollerSupervisor._run] of consumer.py, stopped after some passes:
    a pass that raises is retried after the next of the restart delays, and
    the budget of delays starts afresh with every pass that succeeds. *)
Variable poll_interval : Z.
Variable restart_delays : list Z.
Fixpoint _run (passes failures : nat) : syncing unit :=
  match passes with
  | O => Ret tt
  | S passes =>
      let* result := attempt process_once in
      match result with
      | Err exc =>
          match nth_error restart_delays failures with
          | None => Raise (mk_exn "RuntimeError" "sync jobs poller restart budget exhausted")
          | Some delay => do* sleep delay in _run passes (S failures)
          end
      | Ok result =>
          do* (if String.eqb result "idle" then sleep poll_interval else Ret tt) in
          _run passes O
      end
  end.
End Processor.
