(* ===== verification/SyncJobsProofs.v ===== *)
(** The fence of the sync jobs: however many processors run, a job's
    notifications are handed on by one attempt at a time, and never again by an
    earlier one. *)

From S2P Require Export SyncJobs.

#[local] Open Scope Z_scope.

(** ** The attempts, as the handler sees them *)

Record attempt := { at_job : string; at_fence : Z; at_token : string }.
Definition text_of (v : val) : string := match v with VStr s => s | _ => EmptyString end.
Definition count_of (v : val) : Z := match v with VInt z => z | _ => 0 end.
Definition attempt_of (job : doc) : attempt :=
  {| at_job := text_of (doc_get job "_id"); at_fence := count_of (doc_get job "fence"); at_token := text_of (doc_get job "attempt_token") |}.

(** The handler is called, whatever it answers. *)
#[export] Instance sync_spec : ExtSpec sync_call (list attempt) := fun X c =>
  match c in sync_call X return list attempt -> list attempt -> result X -> Prop with
  | SHandle job _ _ => fun s s' r => s' = s ++ [attempt_of job]
  end.

(** [b] may follow [a]: a later attempt of the job, or the same one. *)
Definition follows (a b : attempt) : Prop :=
  at_job a = at_job b -> at_fence a <= at_fence b /\ (at_fence a = at_fence b -> at_token a = at_token b).

(** ** Stored jobs *)

Definition fence_of (d : doc) : Z := count_of (doc_get d "fence").
Definition token_of (d : doc) : string := text_of (doc_get d "attempt_token").
Definition claimable (d : doc) : bool :=
  py_eq (doc_get d "state") (VStr "pending") || py_eq (doc_get d "state") (VStr "running") && is_none (doc_get d "append_started_at").

(** A job document of the expected shape. *)
Definition scalar (v : val) : bool := match v with VList _ => false | _ => true end.
Record job_ok (d : doc) : Prop := {
  jo_state : exists s, d !! "state"%string = Some (VStr s);
  jo_fence : match d !! "fence"%string with None | Some (VInt _) => True | _ => False end;
  jo_token : match d !! "attempt_token"%string with None | Some VNone | Some (VStr _) => True | _ => False end;
  jo_append : scalar (doc_get d "append_started_at") = true;
}.

Lemma match_null d k : scalar (doc_get d k) = true -> match_eq d [k] VNone = is_none (doc_get d k).
Proof. unfold match_eq, doc_get. simpl. destruct (d !! k) as [x|]; [|done]. intros Hx. unfold meets. destruct x; simpl in *; done. Qed.
Lemma match_value d k v : scalar (doc_get d k) = true -> is_none v = false -> match_eq d [k] v = val_eqb (bson_encode v) (doc_get d k).
Proof.
  intros Hx Hv. unfold match_eq, doc_get in *. simpl. rewrite Hv. destruct (d !! k) as [x|]; simpl in *.
  - unfold meets. destruct x; simpl in *; rewrite ?orb_false_r; done.
  - by destruct v.
Qed.
Lemma job_scalars d : job_ok d -> scalar (doc_get d "state") = true /\ scalar (doc_get d "fence") = true /\ scalar (doc_get d "attempt_token") = true.
Proof.
  intros [[s Hs] Hf Ht _]. unfold doc_get. rewrite Hs. split; [done|].
  destruct (d !! "fence"%string) as [[]|], (d !! "attempt_token"%string) as [[]|]; done.
Qed.

(** ** What a call does to a job *)

Definition control : list string := ["state"; "fence"; "attempt_token"; "append_started_at"]%string.
(** The attempt stays, and a job that may not be claimed still may not. *)
Definition kept (d d' : doc) : Prop :=
  job_ok d -> job_ok d' /\ fence_of d' = fence_of d /\ token_of d' = token_of d /\ (claimable d = false -> claimable d' = false).

Lemma control_refl d : kept d d.
Proof. by intros Hd. Qed.
Lemma kept_control d d' : (forall k, In k control -> d' !! k = d !! k) -> kept d d'.
Proof.
  intros Hk [Hs Hf Ht Ha].
  pose proof (Hk "state"%string (or_introl eq_refl)) as H1. pose proof (Hk "fence"%string (or_intror (or_introl eq_refl))) as H2.
  pose proof (Hk "attempt_token"%string (or_intror (or_intror (or_introl eq_refl)))) as H3.
  pose proof (Hk "append_started_at"%string (or_intror (or_intror (or_intror (or_introl eq_refl))))) as H4.
  unfold fence_of, token_of, claimable, doc_get in *. rewrite H1, H2, H3, H4. split; [|done].
  constructor; unfold doc_get; rewrite ?H1, ?H2, ?H3, ?H4; done.
Qed.
(** A job put in a final state. *)
Lemma kept_final d d' s : d' !! "state"%string = Some (VStr s) -> s <> "pending"%string -> s <> "running"%string ->
  (forall k, In k ["fence"; "attempt_token"; "append_started_at"]%string -> d' !! k = d !! k) -> kept d d'.
Proof.
  intros Hs Hp Hr Hk [_ Hf Ht Ha].
  pose proof (Hk "fence"%string (or_introl eq_refl)) as H2. pose proof (Hk "attempt_token"%string (or_intror (or_introl eq_refl))) as H3.
  pose proof (Hk "append_started_at"%string (or_intror (or_intror (or_introl eq_refl)))) as H4.
  unfold fence_of, token_of, claimable, doc_get in *. rewrite H2, H3, Hs. cbn [default_to py_eq]. split.
  - constructor; unfold doc_get; rewrite ?H2, ?H3, ?H4; eauto.
  - split; [done|]. split; [done|]. intros _.
    destruct (String.eqb_spec s "pending") as [->|_]; [done|]. destruct (String.eqb_spec s "running") as [->|_]; done.
Qed.

Definition leaves_control (us : list upd) : Prop := Forall (fun u => ~ In (upd_field u) control) us.
Lemma kept_update now us d d' : apply_update now false (UOps us) d = Some d' -> leaves_control us -> kept d d'.
Proof.
  intros Ha Hus. apply kept_control. intros k Hk. eapply apply_update_frame; [exact Ha|].
  eapply Forall_impl; [exact Hus|]. intros u Hu <-. by apply Hu.
Qed.

(** *** Calls that keep every job *)

Definition tame (db db' : database) : Prop :=
  (db_wf db -> db_wf db') /\
  forall j, match db !! (jobs_coll, j) with
            | Some d => exists d', db' !! (jobs_coll, j) = Some d' /\ kept d d'
            | None => db' !! (jobs_coll, j) = None
            end.

Lemma tame_refl db : tame db db.
Proof. split; [done|]. intros j. destruct (db !! _) as [d|]; [|done]. exists d. split; [done|apply control_refl]. Qed.

Section Calls.
Context `{MongoConf}.

Lemma tame_other {X} now (m : mongo_op X) db db' r :
  match m with MUpdateMany _ _ _ => False | _ => True end -> collection_of m <> jobs_coll -> mongo_ok now m db db' r -> tame db db'.
Proof.
  intros Hone Hc Hm. split.
  - intros Hwf. pose proof (mongo_ok_wf now m db db' r Hwf Hm). by destruct m.
  - intros j. rewrite (mongo_spec_frame now m db db' r jobs_coll j (or_introl Hm) Hc).
    destruct (db !! _) as [d|]; [|done]. exists d. split; [done|apply control_refl].
Qed.

Lemma tame_update now f us db db' r :
  (forall i d d', selected now db jobs_coll f i d -> apply_update now false (UOps us) d = Some d' -> kept d d') ->
  mongo_ok now (MUpdateOne jobs_coll f (UOps us) false) db db' r -> tame db db'.
Proof.
  intros Hk Hm. split; [intros Hwf; exact (mongo_ok_wf _ _ _ _ _ Hwf Hm)|].
  destruct Hm as [(i & d & Hsel & Hu)|[_ [-> _]]]; [|apply tame_refl]. unfold updates in Hu.
  destruct (apply_update _ _ _ d) as [d'|] eqn:Ha; [|destruct Hu as [-> _]; apply tame_refl].
  destruct (decide _); [|destruct Hu as [-> _]; apply tame_refl]. unfold stores in Hu.
  destruct (unique_ok _ _ _ _); destruct Hu as [-> _]; [|apply tame_refl]. intros j.
  destruct (decide (j = i)) as [->|Hne].
  - rewrite (proj1 Hsel), lookup_insert_eq. eauto.
  - rewrite lookup_insert_ne by congruence. destruct (db !! _) as [x|]; [|done]. exists x. split; [done|apply control_refl].
Qed.

Lemma tame_update_many now f us db db' r :
  Forall (fun u => upd_field u <> "_id"%string) us ->
  (forall d d', apply_update now false (UOps us) d = Some d' -> kept d d') ->
  mongo_ok now (MUpdateMany jobs_coll f (UOps us)) db db' r -> tame db db'.
Proof.
  intros Hid Hk [(n & m & _ & _ & _ & Hother & Hjobs)|[_ [-> _]]]; [|apply tame_refl]. split.
  - intros Hwf c i d Hd. destruct (decide (c = jobs_coll)) as [->|Hne]; [|rewrite Hother in Hd by done; by apply Hwf in Hd].
    specialize (Hjobs i). destruct (db !! (jobs_coll, i)) as [e|] eqn:He; [|congruence].
    apply Hwf in He. destruct (matches now f e); [|by simplify_eq]. destruct Hjobs as (e' & Ha & He'). simplify_eq.
    unfold doc_id in *. by rewrite (apply_update_frame _ _ _ _ _ _ Ha Hid).
  - intros j. specialize (Hjobs j). destruct (db !! (jobs_coll, j)) as [e|]; [|done].
    destruct (matches now f e); [destruct Hjobs as (e' & Ha & He'); eauto|]. exists e. split; [done|apply control_refl].
Qed.

(** *** The writes under the fence *)

Definition labelled (job : doc) (a : attempt) : Prop :=
  doc_at job "_id" = Ok (VStr (at_job a)) /\ doc_at job "attempt_token" = Ok (VStr (at_token a)) /\ doc_at job "fence" = Ok (VInt (at_fence a)).

(** The write reaches the attempt's own job, still running, or nothing. *)
Lemma own_update now a us db db' r :
  db_wf db -> (forall j d, db !! (jobs_coll, j) = Some d -> job_ok d) ->
  mongo_ok now (MUpdateOne jobs_coll (owned_job (VStr (at_job a)) (VStr (at_token a)) (VInt (at_fence a))) (UOps us) false) db db' r ->
  db' = db /\ (forall u, r = Ok u -> matched_count u = 0) \/
  exists d d', db !! (jobs_coll, at_job a) = Some d /\ fence_of d = at_fence a /\ token_of d = at_token a /\
    doc_get d "state" = VStr "running" /\
    apply_update now false (UOps us) d = Some d' /\ db' = <[(jobs_coll, at_job a) := d']> db /\ exists u, r = Ok u /\ matched_count u = 1.
Proof.
  intros Hwf Hok Hm. apply mongo_ok_update_one with (i := at_job a) in Hm; [|done|apply keyed_and]. unfold at_id in Hm.
  destruct (db !! (jobs_coll, at_job a)) as [d|] eqn:Hd; [destruct (matches now _ d) eqn:Hmt|].
  2,3: destruct Hm as [-> ->]; left; split; [done|]; by intros u [= <-].
  destruct (job_scalars d (Hok _ _ Hd)) as (Hs1 & Hs2 & Hs3).
  unfold owned_job in Hmt. cbn [matches forallb] in Hmt.
  apply andb_true_iff in Hmt as [_ Hmt]. apply andb_true_iff in Hmt as [Hst Hmt]. apply andb_true_iff in Hmt as [Htk Hmt].
  apply andb_true_iff in Hmt as [Hfn _]. rewrite match_value in Hst, Htk, Hfn by done.
  apply val_eqb_eq in Hst, Htk, Hfn. simpl in Hst, Htk, Hfn.
  unfold updates in Hm. destruct (apply_update _ _ _ d) as [d'|] eqn:Ha; [destruct (decide _)|].
  2,3: destruct Hm as [-> ->]; left; by split.
  unfold stores in Hm. destruct (unique_ok _ _ _ _); destruct Hm as [-> ->]; [|left; by split].
  right. exists d, d'. unfold fence_of, token_of. rewrite <- Htk, <- Hfn, <- Hst. eauto 12.
Qed.

(** *** The claim *)

Lemma match_state now d s : job_ok d -> matches now (FEq ["state"%string] (VStr s)) d = true -> doc_get d "state" = VStr s.
Proof. intros Hd Hm. cbn [matches] in Hm. rewrite match_value in Hm by (done || apply job_scalars, Hd). by apply val_eqb_eq in Hm. Qed.
Lemma match_unstarted now d : job_ok d -> matches now (FEq ["append_started_at"%string] VNone) d = true -> doc_get d "append_started_at" = VNone.
Proof. intros Hd Hm. cbn [matches] in Hm. rewrite match_null in Hm by apply Hd. by destruct (doc_get d _). Qed.

Definition open_state (s : string) : Prop := s = "pending"%string \/ s = "running"%string.
Lemma candidate_state now cutoff at_ d : job_ok d -> matches now (candidate_query cutoff at_) d = true ->
  exists s, doc_get d "state" = VStr s /\ open_state s.
Proof.
  intros Hd Hm. unfold candidate_query in Hm. cbn [matches forallb existsb] in Hm.
  apply andb_true_iff in Hm as [_ Hm]. apply andb_true_iff in Hm as [Hm _].
  apply orb_true_iff in Hm as [Hm|Hm]; [|apply orb_true_iff in Hm as [Hm|Hm]; [|done]]; apply andb_true_iff in Hm as [Hm _];
    [exists "pending"%string|exists "running"%string]; (split; [by apply (match_state now)|]); [by left|by right].
Qed.
Lemma claim_matches now cutoff id s at_ d : job_ok d -> open_state s -> matches now (claim_fence cutoff id s at_) d = true -> claimable d = true.
Proof.
  intros Hd Hs Hm. unfold claim_fence in Hm. cbn [matches forallb app] in Hm.
  apply andb_true_iff in Hm as [_ Hm]. apply andb_true_iff in Hm as [Hst Hm]. apply (match_state now d) in Hst; [|done].
  unfold claimable. rewrite Hst. destruct Hs as [->| ->]; [done|]. cbn [String.eqb Ascii.eqb Bool.eqb lapsed_at forallb] in Hm.
  apply andb_true_iff in Hm as [_ Hm]. apply andb_true_iff in Hm as [_ Hm]. apply andb_true_iff in Hm as [Hm _].
  apply (match_unstarted now d) in Hm; [|done]. by rewrite Hm.
Qed.

Lemma claim_update now lease token at_ d d' : job_ok d -> apply_update now false (claim_set lease token at_) d = Some d' ->
  job_ok d' /\ fence_of d' = fence_of d + 1 /\ doc_get d' "fence" = VInt (fence_of d') /\ doc_get d' "attempt_token" = VStr token.
Proof.
  intros [_ Hf _ Ha] Hu. unfold claim_set, apply_update in Hu. simpl in Hu. rewrite !lookup_insert_ne in Hu by discriminate.
  assert (Hshape : exists c z, d' = <["fence" := VInt z]> (<["attempt_count" := c]> (<["updated_at" := VDate true (floor_ms at_)]>
    (<["delta_through_at" := VDate true (floor_ms at_)]> (<["started_at" := VDate true (floor_ms at_)]>
    (<["lease_until" := VDate true (floor_ms (at_ + lease))]> (<["attempt_token" := VStr token]> (<["state" := VStr "running"]> d)))))))%string
    /\ z = fence_of d + 1).
  { unfold fence_of, doc_get.
    destruct (d !! "attempt_count"%string) as [[]|]; simpl in Hu; try done; try (destruct (int64_ok _); simpl in Hu; [|done]);
      rewrite !lookup_insert_ne in Hu by discriminate; destruct (d !! "fence"%string) as [[]|]; simpl in Hu; try done;
      try (destruct (int64_ok _); simpl in Hu; [|done]); injection Hu as <-; by do 2 eexists. }
  destruct Hshape as (c & z & -> & ->). clear Hu. unfold fence_of, doc_get in *. doc_simp. cbn [default_to count_of].
  split; [|done]. constructor; unfold doc_get in *; doc_simp; eauto.
Qed.

Lemma attempt_claimed now cutoff lease token j s at_ db db' r :
  db_wf db -> (forall j d, db !! (jobs_coll, j) = Some d -> job_ok d) -> open_state s ->
  mongo_ok now (MFindOneAndUpdate jobs_coll (claim_fence cutoff (VStr j) s at_) (claim_set lease token at_) false true) db db' r ->
  db' = db /\ (forall x, r = Ok x -> x = None) \/
  exists d d', db !! (jobs_coll, j) = Some d /\ claimable d = true /\ job_ok d' /\ fence_of d' = fence_of d + 1 /\
    token_of d' = token /\ db' = <[(jobs_coll, j) := d']> db /\ doc_id d' = Some j /\ r = Ok (Some (dec d')) /\
    labelled (dec d') {| at_job := j; at_fence := fence_of d'; at_token := token |}.
Proof.
  intros Hwf Hok Hs Hm. pose proof (mongo_ok_wf _ _ _ _ _ Hwf Hm) as Hwf'. simpl in Hwf'.
  apply mongo_ok_find_one_and_update with (i := j) in Hm; [|done|apply keyed_and]. unfold at_id in Hm.
  destruct (db !! (jobs_coll, j)) as [d|] eqn:Hd; [destruct (matches now _ d) eqn:Hmt|].
  2,3: destruct Hm as [-> ->]; left; split; [done|]; by intros u [= <-].
  unfold updates in Hm. destruct (apply_update _ _ _ d) as [d'|] eqn:Ha; [destruct (decide _)|].
  2,3: destruct Hm as [-> ->]; left; by split.
  unfold stores in Hm. destruct (unique_ok _ _ _ _); destruct Hm as [-> ->]; [|left; by split].
  apply claim_matches in Hmt; [|by eapply Hok|done]. apply claim_update in Ha as (Hok' & Hf & Hf' & Ht); [|by eapply Hok].
  assert (Hid : doc_id d' = Some j) by (apply (Hwf' jobs_coll); apply lookup_insert_eq).
  right. exists d, d'. unfold token_of. rewrite Ht. do 8 (split; [done|]).
  assert (Hget : forall k v, doc_get d' k = v -> bson_decode tz_aware v = v -> is_none v = false -> doc_at (dec d') k = Ok v).
  { intros k v Hk Hv Hn. unfold doc_get in Hk. unfold doc_at, dec, decode_doc. rewrite lookup_fmap.
    destruct (d' !! k) as [x|]; simpl in *; subst; [by rewrite Hv|done]. }
  repeat split; apply Hget; try done. unfold doc_id in Hid. unfold doc_get. destruct (d' !! "_id"%string) as [[]|]; by simplify_eq/=.
Qed.

(** A candidate, as it was read. *)
Lemma candidate_read now cutoff at_ i d db :
  db_wf db -> (forall j d, db !! (jobs_coll, j) = Some d -> job_ok d) -> selected now db jobs_coll (candidate_query cutoff at_) i d ->
  doc_at (dec d) "_id" = Ok (VStr i) /\ exists s, doc_at (dec d) "state" = Ok (VStr s) /\ open_state s.
Proof.
  intros Hwf Hok [Hd Hm]. apply candidate_state in Hm as (s & Hs & Ho); [|by eapply Hok]. apply Hwf in Hd as Hid.
  unfold doc_id, doc_get, doc_at, dec, decode_doc in *. rewrite !lookup_fmap. split.
  - destruct (d !! "_id"%string) as [[]|]; by simplify_eq/=.
  - exists s. split; [|done]. destruct (d !! "state"%string) as [x|]; simpl in *; [by subst|done].
Qed.
End Calls.

(** ** What a processor holds *)

(** [Holds a]: it claimed attempt [a]; [Appends a]: it also recorded that the
    append started. *)
Inductive role := Idle | Holds (a : attempt) | Appends (a : attempt).
Definition held (g : role) : option attempt := match g with Idle => None | Holds a | Appends a => Some a end.

(** [a] is an attempt of a stored job: the current one or an earlier one. *)
Definition recorded (db : database) (a : attempt) : Prop :=
  exists d, db !! (jobs_coll, at_job a) = Some d /\ at_fence a <= fence_of d /\ (at_fence a = fence_of d -> at_token a = token_of d).
(** [a] is the current attempt, and nobody may claim its job. *)
Definition closed (db : database) (a : attempt) : Prop :=
  exists d, db !! (jobs_coll, at_job a) = Some d /\ at_fence a = fence_of d /\ claimable d = false.
Definition apart (a b : attempt) : Prop := at_job a = at_job b -> at_fence a <> at_fence b.

Definition all_apart (gs : list role) : Prop :=
  forall i k g h a b, i <> k -> gs !! i = Some g -> gs !! k = Some h -> held g = Some a -> held h = Some b -> apart a b.

Section Fence.
Context `{MongoConf} `{PyRepr} `{PyJson}.
Variable horizon : Z.
Abbreviation world := (world (list attempt)).

Record inv (gs : list role) (w : world) : Prop := {
  iv_wf : db_wf (w_db w);
  iv_jobs : forall j d, w_db w !! (jobs_coll, j) = Some d -> job_ok d;
  iv_held : forall i g a, gs !! i = Some g -> held g = Some a -> recorded (w_db w) a;
  iv_closed : forall i a, gs !! i = Some (Appends a) -> closed (w_db w) a;
  iv_apart : all_apart gs;
  iv_logged : Forall (recorded (w_db w)) (w_ext w);
  iv_order : StronglySorted follows (w_ext w);
}.
Abbreviation safe := (cwp (E := sync_call) (S := list attempt) inv horizon).

(** Changing one role. *)
Lemma set_role (P : nat -> role -> Prop) (gs : list role) i g' :
  (forall k h, gs !! k = Some h -> P k h) -> P i g' -> forall k h, <[i := g']> gs !! k = Some h -> P k h.
Proof using Type.
  intros Hgs Hg k h Hk. destruct (decide (k = i)) as [->|Hne].
  - destruct (decide (i < length gs)%nat) as [Hl|Hl]; [rewrite list_lookup_insert_eq in Hk by done; by simplify_eq|].
    rewrite list_insert_ge in Hk by lia. by apply Hgs.
  - rewrite list_lookup_insert_ne in Hk by done. by apply Hgs.
Qed.
Lemma set_apart (gs : list role) i g' :
  all_apart gs -> (forall k h a b, k <> i -> gs !! k = Some h -> held g' = Some a -> held h = Some b -> apart a b) ->
  all_apart (<[i := g']> gs).
Proof using Type.
  intros Hgs Hg j k g h a b Hne Hj Hk Ha Hb.
  destruct (decide (i < length gs)%nat) as [Hl|Hl]; [|rewrite !list_insert_ge in * by lia; by eapply (Hgs j k)].
  destruct (decide (j = i)) as [->|Hji], (decide (k = i)) as [->|Hki]; try done.
  - rewrite list_lookup_insert_eq in Hj by done. rewrite list_lookup_insert_ne in Hk by done. injection Hj as <-. by eapply Hg.
  - rewrite list_lookup_insert_eq in Hk by done. rewrite list_lookup_insert_ne in Hj by done. injection Hk as <-.
    intros He Hf. symmetry in He, Hf. revert He Hf. by apply (Hg j g b a).
  - rewrite list_lookup_insert_ne in Hj, Hk by done. by eapply (Hgs j k).
Qed.

(** A processor can let go of what it holds. *)
Lemma attempt_dropped gs w i : inv gs w -> inv (<[i := Idle]> gs) w.
Proof using Type.
  intros [Hwf Hjobs Hheld Hclosed Hapart Hlog Hord]. split; try done.
  - intros k g a Hk. apply (set_role (fun _ h => held h = Some a -> recorded (w_db w) a)) with (3 := Hk); [|done].
    intros k' h Hk'. by eapply Hheld.
  - intros k a Hk. destruct (decide (k = i)) as [->|Hne]; [|rewrite list_lookup_insert_ne in Hk by done; by eapply Hclosed].
    destruct (decide (i < length gs)%nat) as [Hl|Hl]; [by rewrite list_lookup_insert_eq in Hk|].
    rewrite list_insert_ge in Hk by lia. by eapply Hclosed.
  - apply set_apart; [done|]. by intros.
Qed.

(** *** Calls that leave every attempt as it is *)

Definition undisturbed (w w' : world) : Prop := tame (w_db w) (w_db w') /\ w_ext w' = w_ext w.
Abbreviation aside := (guarded (E := sync_call) undisturbed).

Lemma recorded_tame db db' a : (forall j d, db !! (jobs_coll, j) = Some d -> job_ok d) -> tame db db' -> recorded db a -> recorded db' a.
Proof using Type.
  intros Hok [_ Ht] (d & Hd & Hf & Htk). specialize (Ht (at_job a)). rewrite Hd in Ht. destruct Ht as (d' & Hd' & Hk).
  destruct (Hk (Hok _ _ Hd)) as (_ & Hf' & Htk' & _). exists d'. rewrite Hf', Htk'. done.
Qed.
Lemma closed_tame db db' a : (forall j d, db !! (jobs_coll, j) = Some d -> job_ok d) -> tame db db' -> closed db a -> closed db' a.
Proof using Type.
  intros Hok [_ Ht] (d & Hd & Hf & Hc). specialize (Ht (at_job a)). rewrite Hd in Ht. destruct Ht as (d' & Hd' & Hk).
  destruct (Hk (Hok _ _ Hd)) as (_ & Hf' & _ & Hc'). exists d'. rewrite Hf'. auto.
Qed.
Lemma inv_undisturbed gs w w' : inv gs w -> undisturbed w w' -> inv gs w'.
Proof using Type.
  intros [Hwf Hjobs Hheld Hclosed Hapart Hlog Hord] [Ht He]. pose proof Ht as [Hwf' Hj]. split; rewrite ?He; try done.
  - by apply Hwf'.
  - intros j d' Hd'. specialize (Hj j). destruct (w_db w !! (jobs_coll, j)) as [d|] eqn:Hd; [|congruence].
    destruct Hj as (d2 & Hd2 & Hk). simplify_eq. by apply Hk, (Hjobs j).
  - intros i g a Hg Ha. eapply recorded_tame; [exact Hjobs|exact Ht|by eapply Hheld].
  - intros i a Hg. eapply closed_tame; [exact Hjobs|exact Ht|by eapply Hclosed].
  - eapply Forall_impl; [exact Hlog|]. intros a. by apply recorded_tame.
Qed.
Lemma same_undisturbed (w w' : world) : w_db w' = w_db w -> w_ext w' = w_ext w -> undisturbed w w'.
Proof using Type. intros Hdb He. split; [rewrite Hdb; apply tame_refl|done]. Qed.
Abbreviation safe_aside := (cwp_aside inv horizon undisturbed _ _ _ _ inv_undisturbed).

Lemma undisturbed_mongo {X} (m : mongo_op X) : (forall now db db' r, mongo_ok now m db db' r -> tame db db') -> aside (mongo m).
Proof using Type.
  intros Hm. apply guarded_perform. intros w w' r (Ho & _ & He & _). split; [|done].
  destruct Ho as [Ho|[_ [->|[r' Ho]]]]; [by eapply Hm|apply tame_refl|by eapply Hm].
Qed.
Lemma undisturbed_other {X} (m : mongo_op X) :
  match m with MUpdateMany _ _ _ => False | _ => True end -> collection_of m <> jobs_coll -> aside (mongo m).
Proof using Type. intros Hone Hc. apply undisturbed_mongo. intros now db db' r. by apply tame_other. Qed.
Lemma undisturbed_find f s : aside (mongo (MFindOne jobs_coll f s)).
Proof using Type. apply undisturbed_mongo. intros now db db' r [-> _]. apply tame_refl. Qed.
Lemma undisturbed_update f us : (forall now d d', apply_update now false (UOps us) d = Some d' -> kept d d') ->
  aside (mongo (MUpdateOne jobs_coll f (UOps us) false)).
Proof using Type. intros Hk. apply undisturbed_mongo. intros now db db' r. apply tame_update. intros i d d' _. apply Hk. Qed.

Ltac aside_step :=
  first [ progress cbv zeta | apply guarded_bind; [|intros ?] | apply guarded_of_result | apply aside_now, same_undisturbed | apply aside_uuid, same_undisturbed
        | exact I | match goal with |- guarded _ (match ?x with _ => _ end) => destruct x end ].

Lemma aside_write_kept job values :
  (forall now d d' t, apply_update now false (UOps (map (fun kv => USet [kv.1] kv.2) values ++ [USet ["updated_at"%string] (VDate true t)])) d = Some d' -> kept d d') ->
  aside (_write job values).
Proof using Type. intros Hk. unfold _write. repeat aside_step. apply undisturbed_update. intros now d d'. apply Hk. Qed.
Lemma aside_write job values : Forall (fun kv => ~ In kv.1 control) values -> aside (_write job values).
Proof using Type.
  intros Hv. apply aside_write_kept. intros now d d' t Ha. eapply kept_update; [exact Ha|]. apply Forall_app. split.
  - apply Forall_map. eapply Forall_impl; [exact Hv|]. done.
  - constructor; [|done]. simpl. intuition discriminate.
Qed.
Lemma aside_finish job ok code t : aside (_finish job ok code t).
Proof using Type.
  unfold _finish. apply guarded_bind; [apply aside_now, same_undisturbed|]. intros t0. apply aside_write_kept. intros now d d' t' Ha.
  apply (kept_final d d' (if ok then "succeeded" else "failed")%string).
  - refine (apply_update_set _ _ "state" (VStr _) _ d d' Ha _). by repeat constructor.
  - by destruct ok.
  - by destruct ok.
  - intros k Hk. eapply apply_update_frame; [exact Ha|]. simpl in Hk. repeat destruct Hk as [<-|Hk]; try done; by repeat constructor.
Qed.
Lemma aside_recover : aside recover_uncertain_appends.
Proof using Type.
  unfold recover_uncertain_appends. repeat aside_step. apply undisturbed_mongo. intros now db db' r. apply tame_update_many; [by repeat constructor|].
  intros d d' Ha. apply (kept_final d d' "failed"); [|done..|].
  - refine (apply_update_set _ _ "state" (VStr _) _ d d' Ha _). by repeat constructor.
  - intros k Hk. eapply apply_update_frame; [exact Ha|]. simpl in Hk. repeat destruct Hk as [<-|Hk]; try done; by repeat constructor.
Qed.

(** *** The writes that change what the attempt holds *)

Lemma set_closed (gs : list role) (db : database) (i : nat) g' :
  (forall k a, gs !! k = Some (Appends a) -> k <> i -> closed db a) -> (forall a, g' = Appends a -> closed db a) ->
  forall k a, <[i := g']> gs !! k = Some (Appends a) -> (i < length gs)%nat -> closed db a.
Proof using Type.
  intros Hgs Hg k a Hk Hl. destruct (decide (k = i)) as [->|Hne].
  - rewrite list_lookup_insert_eq in Hk by lia. injection Hk as ->. by apply Hg.
  - rewrite list_lookup_insert_ne in Hk by done. by eapply Hgs.
Qed.

(** Recording that the append started. *)
Lemma append_kept now d d' t t' : apply_update now false
    (UOps (map (fun kv => USet [kv.1] kv.2) [("append_started_at"%string, VDate true t)] ++ [USet ["updated_at"%string] (VDate true t')])) d = Some d' ->
  kept d d' /\ (doc_get d "state" = VStr "running" -> claimable d' = false).
Proof using Type.
  cbn [map app fst snd apply_update apply_upds apply_upd path_alter mbind option_bind]. intros [= <-]. split.
  - intros [Hs Hf Ht Ha]. unfold fence_of, token_of, claimable, doc_get in *. doc_simp. split; [constructor; unfold doc_get; doc_simp; done|].
    split; [done|]. split; [done|]. intros Hc. apply orb_false_iff in Hc as [Hp _]. by rewrite Hp, andb_false_r.
  - unfold claimable. doc_simp. by intros ->.
Qed.
Lemma safe_append job a t i : labelled job a ->
  safe (_write job [("append_started_at"%string, VDate true t)])
    (fun g r => match r with Ok _ => g = Appends a | Err _ => g = Holds a end) i (Holds a).
Proof using Type.
  intros (Hid & Htk & Hfn). unfold _write. rewrite Hid, Htk, Hfn. cbn [of_result bind]. apply cwp_bind, safe_aside; [apply aside_now, same_undisturbed|].
  intros [t'|e]; [|done]. apply cwp_bind, cwp_perform. intros gs w w' r Hg Hi (Hm & _ & He & _) _.
  assert (Hund : forall r', mongo_ok (w_now w') (MUpdateOne jobs_coll (owned_job (VStr (at_job a)) (VStr (at_token a)) (VInt (at_fence a)))
      (UOps (map (fun kv => USet [kv.1] kv.2) [("append_started_at"%string, VDate true t)] ++ [USet ["updated_at"%string] (VDate true t')])) false)
      (w_db w) (w_db w') r' -> inv gs w').
  { intros r' Hm'. eapply inv_undisturbed; [exact Hi|]. split; [|done]. eapply tame_update; [|exact Hm'].
    intros k d d' _ Ha. by eapply append_kept. }
  destruct Hm as [Hm|[-> Hm]].
  2: { exists (Holds a). rewrite list_insert_id by done. split; [|done]. destruct Hm as [Hdb|[r' Hm]]; [|by eapply Hund].
       eapply inv_undisturbed; [exact Hi|]. split; [rewrite Hdb; apply tame_refl|done]. }
  pose proof (Hund r Hm) as Hi'. apply own_update in Hm as [[_ Hnone]|(d & d' & Hd & Hf & _ & Hst & Ha & Hdb & u & -> & Hu)]; [| |apply Hi..].
  - exists (Holds a). rewrite list_insert_id by done. split; [done|]. destruct r as [u|e]; [|done]. by rewrite (Hnone u eq_refl).
  - exists (Appends a). rewrite Hu. split; [|done].
    assert (Hcl : closed (w_db w') a).
    { exists d'. rewrite Hdb, lookup_insert_eq. split; [done|]. apply append_kept in Ha as [Hk Hc].
      destruct (Hk (iv_jobs _ _ Hi _ _ Hd)) as (_ & -> & _). split; [done|auto]. }
    destruct Hi' as [Hwf Hjobs Hheld Hclosed Hapart Hlog Hord]. split; try done.
    + intros k g b Hk. apply (set_role (fun _ h => held h = Some b -> recorded (w_db w') b)) with (3 := Hk).
      * intros k' h Hk'. by eapply Hheld.
      * intros [= <-]. by eapply Hheld.
    + intros k b Hk. eapply set_closed; [| |exact Hk|apply lookup_lt_Some in Hg; lia].
      * intros k' b' Hk' _. by eapply Hclosed.
      * by intros b' [= <-].
    + apply set_apart; [done|]. intros k h b c Hne Hk [= <-] Hc. by apply (Hapart i k (Holds a) h).
Qed.

(** Putting the job back. *)
Lemma wait_update now t code msg t' d d' : apply_update now false
    (UOps (map (fun kv => USet [kv.1] kv.2) (wait_values t code msg) ++ [USet ["updated_at"%string] (VDate true t')])) d = Some d' ->
  job_ok d -> job_ok d' /\ fence_of d' = fence_of d /\ token_of d' = token_of d.
Proof using Type.
  unfold wait_values. cbn [map app fst snd apply_update apply_upds apply_upd path_alter mbind option_bind].
  intros [= <-] [Hs Hf Ht Ha]. unfold fence_of, token_of, doc_get. doc_simp. split; [|done].
  constructor; unfold doc_get; doc_simp; eauto.
Qed.
Lemma safe_wait job a g t code msg i : labelled job a -> held g = Some a ->
  safe (_write job (wait_values t code msg)) (fun _ _ => True) i g.
Proof using Type.
  intros (Hid & Htk & Hfn) Hheld_a. unfold _write. rewrite Hid, Htk, Hfn. cbn [of_result bind]. apply cwp_bind, safe_aside; [apply aside_now, same_undisturbed|].
  intros [t'|e]; [|done]. apply cwp_bind, cwp_perform. intros gs w w' r Hg Hi (Hm & _ & He & _) _.
  exists Idle. split; [|destruct r as [u|e]; [by destruct (_ =? _)|done]].
  assert (Hcase : w_db w' = w_db w \/ exists r', mongo_ok (w_now w') (MUpdateOne jobs_coll (owned_job (VStr (at_job a)) (VStr (at_token a)) (VInt (at_fence a)))
      (UOps (map (fun kv => USet [kv.1] kv.2) (wait_values t code msg) ++ [USet ["updated_at"%string] (VDate true t')])) false)
      (w_db w) (w_db w') r') by (destruct Hm as [Hm|[_ Hm]]; eauto).
  assert (Hsame : w_db w' = w_db w -> inv (<[i := Idle]> gs) w').
  { intros Hdb. apply attempt_dropped. eapply inv_undisturbed; [exact Hi|]. split; [rewrite Hdb; apply tame_refl|done]. }
  destruct Hcase as [Hdb|[r' Hm']]; [by apply Hsame|]. pose proof (mongo_ok_wf _ _ _ _ _ (iv_wf _ _ Hi) Hm') as Hwf'.
  apply own_update in Hm' as [[Hdb _]|(d & d' & Hd & Hf & _ & _ & Ha & Hdb & _)]; [by apply Hsame| |apply Hi..].
  destruct (wait_update _ _ _ _ _ _ _ Ha (iv_jobs _ _ Hi _ _ Hd)) as (Hok' & Hf' & Ht').
  apply lookup_lt_Some in Hg as Hl. destruct Hi as [Hwf Hjobs Hheld Hclosed Hapart Hlog Hord].
  assert (Hrec : forall b, recorded (w_db w) b -> recorded (w_db w') b).
  { intros b (e & Hde & Hle & Htk'). unfold recorded. rewrite Hdb. destruct (decide (at_job b = at_job a)) as [Hj|Hj].
    - rewrite Hj in *. simplify_eq. exists d'. rewrite lookup_insert_eq, Hf', Ht'. done.
    - exists e. rewrite lookup_insert_ne by congruence. done. }
  split; rewrite ?He; try done.
  - intros j e. rewrite Hdb. destruct (decide (j = at_job a)) as [->|Hj]; [rewrite lookup_insert_eq; by intros [= <-]|].
    rewrite lookup_insert_ne by congruence. apply Hjobs.
  - intros k h b Hk. apply (set_role (fun _ h => held h = Some b -> recorded (w_db w') b)) with (3 := Hk); [|done].
    intros k' h' Hk' Hb. eapply Hrec, Hheld; [exact Hk'|exact Hb].
  - intros k b Hk. eapply set_closed; [| |exact Hk|lia]; [|done]. intros k' b' Hk' Hne.
    destruct (Hclosed k' b' Hk') as (e & Hde & Hfe & Hc).
    assert (Hj : at_job b' <> at_job a).
    { intros Hj. rewrite Hj in Hde. simplify_eq. exact (Hapart k' i (Appends b') g b' a Hne Hk' Hg eq_refl Hheld_a Hj ltac:(congruence)). }
    exists e. rewrite Hdb, lookup_insert_ne by congruence. done.
  - apply set_apart; [done|]. by intros.
  - eapply Forall_impl; [exact Hlog|]. apply Hrec.
Qed.

(** *** Claiming and handing on *)

(** A claim starts a new attempt of a job that nobody appends to. *)
Lemma inv_claimed gs w w' i j d d' token :
  gs !! i = Some Idle -> inv gs w -> w_db w !! (jobs_coll, j) = Some d -> claimable d = true -> job_ok d' ->
  fence_of d' = fence_of d + 1 -> token_of d' = token -> w_db w' = <[(jobs_coll, j) := d']> (w_db w) -> doc_id d' = Some j ->
  w_ext w' = w_ext w -> inv (<[i := Holds {| at_job := j; at_fence := fence_of d'; at_token := token |}]> gs) w'.
Proof using Type.
  intros Hg [Hwf Hjobs Hheld Hclosed Hapart Hlog Hord] Hd Hc Hok' Hf Ht Hdb Hid He.
  apply lookup_lt_Some in Hg as Hl.
  assert (Hrec : forall b, recorded (w_db w) b -> recorded (w_db w') b).
  { intros b (e & Hde & Hle & Htk'). unfold recorded. rewrite Hdb. destruct (decide (at_job b = j)) as [Hj|Hj].
    - rewrite Hj in *. simplify_eq. exists d'. rewrite lookup_insert_eq. split; [done|]. split; lia.
    - exists e. rewrite lookup_insert_ne by congruence. done. }
  split; rewrite ?He; try done.
  - rewrite Hdb. by apply db_wf_insert.
  - intros k e. rewrite Hdb. destruct (decide (k = j)) as [->|Hk]; [rewrite lookup_insert_eq; by intros [= <-]|].
    rewrite lookup_insert_ne by congruence. apply Hjobs.
  - intros k h b Hk. apply (set_role (fun _ h => held h = Some b -> recorded (w_db w') b)) with (3 := Hk).
    + intros k' h' Hk' Hb. eapply Hrec, Hheld; [exact Hk'|exact Hb].
    + intros [= <-]. exists d'. rewrite Hdb. cbn [at_job at_fence at_token]. rewrite lookup_insert_eq. split; [done|]. split; [lia|done].
  - intros k b Hk. eapply set_closed; [| |exact Hk|lia]; [|done]. intros k' b' Hk' Hne.
    destruct (Hclosed k' b' Hk') as (e & Hde & Hfe & Hce). assert (Hj : at_job b' <> j) by (intros Hj; rewrite Hj in Hde; simplify_eq; congruence).
    exists e. rewrite Hdb, lookup_insert_ne by congruence. done.
  - apply set_apart; [done|]. intros k h b c Hne Hk [= <-] Hb Hj. cbn [at_job at_fence] in *.
    destruct (Hheld k h c Hk Hb) as (e & Hde & Hle & _). rewrite <- Hj in Hde. simplify_eq. lia.
  - eapply Forall_impl; [exact Hlog|]. apply Hrec.
Qed.

Lemma safe_claim_next cutoff lease backoff i :
  safe (claim_next cutoff lease backoff)
    (fun g r => match r with Ok (Some job) => exists a, labelled job a /\ g = Holds a | _ => True end) i Idle.
Proof using Type.
  unfold claim_next. apply cwp_bind, safe_aside; [apply aside_now, same_undisturbed|]. intros [now|e]; [|done].
  apply cwp_bind, cwp_perform. intros gs w w' r Hg Hi (Hm & _ & He & _) _.
  assert (Hkeep : w_db w' = w_db w -> inv gs w').
  { intros Hdb. eapply inv_undisturbed; [exact Hi|]. split; [rewrite Hdb; apply tame_refl|done]. }
  exists Idle. rewrite list_insert_id by done.
  destruct Hm as [[Hdb Hm]|[-> [Hdb|[r' [Hdb _]]]]]; [split; [by apply Hkeep|]|split; [by apply Hkeep|done]..].
  destruct Hm as [[_ ->]|(j & d & Hsel & _ & ->)]; [done|].
  destruct (candidate_read _ _ _ _ _ _ (iv_wf _ _ Hi) (iv_jobs _ _ Hi) Hsel) as [Hid (s & Hs & Ho)]. rewrite Hs, Hid.
  cbn [of_result bind py_str].
  assert (Hbusy : forall e g', safe (if isinstance e "DuplicateKeyError" then
      do* mongo (MUpdateOne jobs_coll (FAnd [FEq ["_id"] (VStr j); FEq ["state"] (VStr "pending")])%string
        (UOps [USet ["available_at"] (VDate true (now + backoff)); USet ["updated_at"] (VDate true now)])%string false) in Ret None
      else Raise e) (fun g r => match r with Ok (Some job) => exists a, labelled job a /\ g = Holds a | _ => True end) i g').
  { intros e g'. destruct (isinstance e _); [|done]. apply cwp_bind, safe_aside; [|by intros [u|]].
    apply undisturbed_update. intros now' d1 d2 Ha. eapply kept_update; [exact Ha|]. repeat constructor; simpl; intuition discriminate. }
  apply cwp_catch, cwp_bind, safe_aside; [apply aside_uuid, same_undisturbed|]. intros [token|e]; [|apply Hbusy].
  apply cwp_perform. clear gs w w' Hg Hi He Hkeep Hdb Hsel. intros gs w w' r Hg Hi (Hm & _ & He & _) _.
  assert (Hsame : w_db w' = w_db w -> inv gs w').
  { intros Hdb. eapply inv_undisturbed; [exact Hi|]. split; [rewrite Hdb; apply tame_refl|done]. }
  assert (Hcase : forall r', mongo_ok (w_now w') (MFindOneAndUpdate jobs_coll (claim_fence cutoff (VStr j) s now) (claim_set lease token now) false true)
      (w_db w) (w_db w') r' ->
    inv gs w' /\ (forall x, r' = Ok x -> x = None) \/
    exists job a, r' = Ok (Some job) /\ labelled job a /\ inv (<[i := Holds a]> gs) w').
  { intros r' Hm'. apply attempt_claimed in Hm' as [[Hdb Hn]|(d1 & d2 & Hd & Hc & Hok' & Hf & Ht & Hdb & Hid' & -> & Hlab)];
      [left; split; [by apply Hsame|done]| |apply Hi..|done].
    right. do 2 eexists. split; [done|]. split; [exact Hlab|]. by eapply inv_claimed. }
  destruct Hm as [Hm|[-> [Hdb|[r' Hm]]]].
  - destruct (Hcase r Hm) as [[Hi' Hn]|(job & a & -> & Hlab & Hi')].
    + exists Idle. rewrite list_insert_id by done. split; [done|]. destruct r as [x|e]; [by rewrite (Hn x eq_refl)|apply Hbusy].
    + exists (Holds a). split; [done|]. exists a. by split.
  - exists Idle. rewrite list_insert_id by done. split; [by apply Hsame|apply Hbusy].
  - exists Idle. split; [|apply Hbusy]. destruct (Hcase r' Hm) as [[Hi' _]|(job & a & _ & _ & Hi')]; [by apply attempt_dropped|].
    apply (attempt_dropped _ _ i) in Hi'. by rewrite list_insert_insert_eq in Hi'.
Qed.

(** Handing a notification on. *)
Lemma labelled_attempt job a : labelled job a -> attempt_of job = a.
Proof using Type.
  intros (Hid & Htk & Hfn). unfold attempt_of, doc_get, doc_at in *.
  destruct (job !! "_id"%string), (job !! "attempt_token"%string), (job !! "fence"%string); simplify_eq/=. by destruct a.
Qed.
Lemma follows_recorded db a b d : db !! (jobs_coll, at_job b) = Some d -> at_fence b = fence_of d -> at_token b = token_of d ->
  recorded db a -> follows a b.
Proof using Type.
  intros Hd Hf Ht (e & He & Hle & Htk) Hj. rewrite Hj in He. simplify_eq. split; [lia|]. intros Heq. rewrite Ht. apply Htk. lia.
Qed.
Lemma sorted_snoc {A} (R : A -> A -> Prop) l x : StronglySorted R l -> Forall (fun y => R y x) l -> StronglySorted R (l ++ [x]).
Proof using Type.
  induction l as [|y l IH]; intros Hl Hx; simpl; [by repeat constructor|].
  apply StronglySorted_inv in Hl as [Hl Hy]. apply Forall_cons in Hx as [Hyx Hx]. constructor; [by apply IH|].
  apply Forall_app. by split; [|constructor].
Qed.
Lemma safe_handle {B} job e identity a (k : unit -> prog sync_call B) Q i : labelled job a ->
  safe (k tt) Q i (Appends a) -> (forall exc, Q (Appends a) (Err exc)) -> safe (bind (ext (SHandle job e identity)) k) Q i (Appends a).
Proof using Type.
  intros Hlab Hk Herr. apply cwp_bind, cwp_perform. intros gs w w' r Hg Hi (Hlog & Hdb & _) _.
  exists (Appends a). rewrite list_insert_id by done. split; [|by destruct r as [[]|exc]].
  change (w_ext w' = w_ext w ++ [attempt_of job]) in Hlog. rewrite (labelled_attempt job a Hlab) in Hlog. destruct Hi as [Hwf Hjobs Hheld Hclosed Hapart Hl Hord].
  split; rewrite ?Hdb, ?Hlog; try done.
  - apply Forall_app. split; [done|]. constructor; [|done]. by eapply (Hheld i).
  - apply sorted_snoc; [done|]. destruct (Hclosed i a Hg) as (d & Hd & Hf & _).
    destruct (Hheld i (Appends a) a Hg eq_refl) as (d2 & Hd2 & _ & Htk). simplify_eq.
    eapply Forall_impl; [exact Hl|]. intros b Hb. by eapply (follows_recorded (w_db w)); eauto.
Qed.

(** *** A pass of a processor *)

Lemma safe_events job seller pilot events a i : labelled job a ->
  safe (handle_events job seller pilot events) (fun g _ => g = Appends a) i (Appends a).
Proof using Type.
  intros Hlab. induction events as [|event events IH]; [done|]. cbn [handle_events]. apply cwp_bind, cwp_of_result.
  destruct (doc_at event "_id") as [event_id|]; [|done]. destruct (_ && _); [done|].
  apply cwp_bind, cwp_of_result. destruct (sheets_event _ _ _ _) as [e|]; [|done].
  apply cwp_bind, cwp_of_result. destruct (if pilot then _ else _) as [identity|]; [|done].
  apply safe_handle; [done| |done]. apply cwp_bind, cwp_of_result. destruct (doc_at event "received_at") as [t|]; [|done].
  apply cwp_bind, cwp_of_result, cwp_bind, safe_aside.
  - apply aside_write. repeat constructor; simpl; intuition discriminate.
  - intros [[]|exc]; [exact IH|done].
Qed.

Lemma safe_delta job a i : labelled job a ->
  safe (_process_delta job) (fun g _ => held g = Some a) i (Holds a).
Proof using Type.
  intros Hlab. unfold _process_delta. apply cwp_bind, cwp_of_result. destruct (doc_at job "seller_id") as [seller|]; [|done].
  apply cwp_bind, cwp_of_result. destruct (if isdigit _ then _ else _) as [seller_values|]; [|done].
  apply cwp_bind, safe_aside; [by apply undisturbed_other|]. intros [plan|]; [|done].
  apply cwp_bind, cwp_of_result. destruct (doc_at job "requested_at") as [requested_at|]; [|done].
  apply cwp_bind, cwp_of_result. destruct (doc_at job "delta_through_at") as [delta_through_at|]; [|done].
  apply cwp_bind, safe_aside; [by apply undisturbed_other|]. intros [events|]; [|done]. cbv zeta.
  set (pilot := match plan with Some _ => _ | None => _ end). set (supported := if pilot then events else _).
  assert (Hrest : forall g, held g = Some a -> safe (_write job [("unsupported_event_count"%string, VInt (Z.of_nat (length events) - Z.of_nat (length supported)))])
      (fun g _ => held g = Some a) i g).
  { intros g Hg. apply safe_aside; [|done]. apply aside_write. repeat constructor. simpl. intuition discriminate. }
  apply cwp_bind. destruct supported as [|event rest].
  - by apply Hrest.
  - apply cwp_bind, safe_aside; [apply aside_now, same_undisturbed|]. intros [t|]; [|done].
    eapply cwp_mono; [by apply safe_append|]. intros g [[]|exc]; [|by intros ->]. intros ->.
    apply cwp_bind. eapply cwp_mono; [by apply safe_events|]. intros g [[]|exc] ->; [by apply Hrest|done].
Qed.

Lemma safe_settle backoff job a g outcome i : labelled job a -> held g = Some a ->
  safe (settle_job backoff job outcome) (fun _ _ => True) i g.
Proof using Type.
  intros Hlab Hg. unfold settle_job.
  assert (Hfin : forall b code t (s : string), safe (do* _finish job b code t in Ret s) (fun _ _ => True) i g).
  { intros b code t s. apply safe_aside; [|done]. apply guarded_bind; [apply aside_finish|done]. }
  assert (Hwait : forall t code msg (s : string), safe (do* _write job (wait_values t code msg) in Ret s) (fun _ _ => True) i g).
  { intros t code msg s. apply cwp_bind. eapply cwp_mono; [by eapply safe_wait|]. by intros g' [[]|]. }
  destruct outcome as [u|exc]; [apply Hfin|]. destruct (isinstance exc "HistoryPolicyWaitError").
  { apply cwp_bind, safe_aside; [apply aside_now, same_undisturbed|]. intros [t|]; [apply Hwait|done]. }
  destruct (isinstance exc "GatewayRateLimitError"); [|apply Hfin].
  apply cwp_bind, cwp_of_result. destruct (_pilot_wait_code exc) as [[code|]|]; [|apply Hfin|done].
  apply cwp_bind, safe_aside; [apply aside_now, same_undisturbed|]. intros [t|]; [apply Hwait|done].
Qed.

Lemma safe_pass cutoff lease backoff retention i :
  safe (process_once cutoff lease backoff retention) (fun _ _ => True) i Idle.
Proof using Type.
  unfold process_once. apply cwp_bind, safe_aside; [apply aside_recover|]. intros [n|]; [|done].
  apply cwp_bind. eapply cwp_mono; [apply safe_claim_next|]. intros g [[job|]|exc]; [|done..]. intros (a & Hlab & ->).
  apply cwp_bind, cwp_of_result. destruct (doc_at job "requested_at") as [requested_at|]; [|done].
  apply cwp_bind, cwp_of_result. destruct (doc_at job "delta_through_at") as [delta_through_at|]; [|done].
  apply cwp_bind, cwp_of_result. destruct (before_by _ _ _) as [[]|]; [| |done].
  - apply safe_aside; [|done]. apply guarded_bind; [apply aside_finish|done].
  - apply cwp_bind, cwp_attempt. eapply cwp_mono; [by apply safe_delta|]. intros g outcome Hg. by eapply safe_settle.
Qed.

Lemma safe_passes cutoff lease backoff retention poll delays passes failures i g :
  safe (_run cutoff lease backoff retention poll delays passes failures) (fun _ _ => True) i g.
Proof using Type.
  revert failures g. induction passes as [|passes IH]; intros failures g; [done|]. cbn [_run]. apply cwp_bind, cwp_attempt.
  assert (Hnap : forall us (k : unit -> prog sync_call unit) g, (forall g, safe (k tt) (fun _ _ => True) i g) ->
    safe (let* _ := sleep us in k tt) (fun _ _ => True) i g).
  { intros us k g' Hk. apply cwp_bind, safe_aside; [apply aside_sleep, same_undisturbed|]. intros [[]|]; [apply Hk|done]. }
  eapply (cwp_mono _ _ _ (fun _ _ => True)).
  - apply (cwp_forget inv horizon _ (fun _ => True) _ _ Idle); [intros gs w _; apply attempt_dropped|]. apply safe_pass.
  - intros g' [result|exc] _; [destruct (String.eqb result "idle"); [apply (Hnap poll (fun _ => _))|]; intros; apply IH|].
    destruct (nth_error delays failures); [|done]. apply (Hnap _ (fun _ => _)). intros. apply IH.
Qed.
End Fence.

Section Passes.
Context `{MongoConf} `{PyRepr} `{PyJson}.

(** C4: the attempts of a sync job never overlap.  Any number of processors
    run any number of passes, interleaved call by call, with any answers, any
    lapse of leases and lost connections: of two notifications of one job that
    are handed on, the later one is never of an earlier attempt, and two of
    one fence number are of the same attempt. *)
Theorem sync_attempts_never_overlap cutoff lease backoff retention poll delays horizon (passes : list nat) (w w' : world (list attempt)) ps' l1 a l2 b l3 :
  db_wf (w_db w) -> (forall j d, w_db w !! (jobs_coll, j) = Some d -> job_ok d) -> w_ext w = [] ->
  reach horizon (map (fun n => _run cutoff lease backoff retention poll delays n 0) passes, w) (ps', w') ->
  w_ext w' = l1 ++ a :: l2 ++ b :: l3 -> follows a b.
Proof using Type.
  intros Hwf Hjobs Hlog Hr Hl. apply (reach_ok inv horizon (fun _ _ _ => True)) in Hr.
  - destruct Hr as (gs & _ & Hi & _). pose proof (iv_order _ _ Hi) as Hs. cbn [snd] in Hs. rewrite Hl in Hs. clear -Hs.
    induction l1 as [|x l1 IH]; simpl in Hs; apply StronglySorted_inv in Hs as [Hs Hx]; [|by apply IH].
    apply Forall_app in Hx as [_ Hx]. by apply Forall_cons in Hx as [Hx _].
  - exists (replicate (length passes) Idle). cbn [fst snd]. split; [by rewrite length_replicate, length_map|]. split.
    + assert (Hidle : forall i g, replicate (length passes) Idle !! i = Some g -> g = Idle) by (intros i g Hg; by apply lookup_replicate in Hg as [-> _]).
      split; rewrite ?Hlog; try done; try constructor.
      * intros i g x Hg. apply Hidle in Hg as ->. done.
      * intros i x Hg. by apply Hidle in Hg.
      * intros i k g h x y _ Hg. apply Hidle in Hg as ->. done.
    + intros i p Hp. rewrite list_lookup_fmap in Hp. destruct (passes !! i) as [n|] eqn:Hn; [|done].
      injection Hp as <-. exists Idle. split; [|apply safe_passes].
      apply lookup_replicate. split; [done|]. by eapply lookup_lt_Some.
Qed.
End Passes.

(** ** A run *)

Section Example.
#[local] Instance aware : MongoConf := aware_conf.
#[local] Instance no_repr : PyRepr := fun _ => EmptyString.
#[local] Instance no_json : PyJson := fun _ => raise_value "no JSON".
#[local] Instance toy_handler : ExtRun sync_call (list attempt) := {
  ext_run := fun X c s => match c in sync_call X return list attempt * result X with SHandle job _ _ => (s ++ [attempt_of job], Ok tt) end;
  uuid_run := fun _ => "0123456789abcdef0123456789abcdef"%string;
}.
Lemma toy_handler_sound X (c : sync_call X) s : ext_spec X c s (ext_run X c s).1 (ext_run X c s).2.
Proof. by destruct c. Qed.

(** A job of two notifications, and two processors. *)
Definition sample_job : doc := mk_doc
  [("_id", VStr "job-1"); ("state", VStr "pending"); ("seller_id", VStr "7"); ("created_at", VDate true day);
   ("requested_at", VDate true day)]%string.
Definition notification (i : string) : doc := mk_doc
  [("_id", VStr i); ("topic", VStr "items"); ("user_id", VInt 7); ("resource", VStr "/items/MLA1"); ("received_at", VDate true (day + hour))]%string.
Definition job_world : world (list attempt) :=
  World (<[("webhook_events", "n1") := notification "n1"]> (<[("webhook_events", "n2") := notification "n2"]>
    {[ (jobs_coll, "job-1") := sample_job ]}))%string (day + 2 * hour) None [].
Abbreviation processor n := (_run 0 (5 * minute) (5 * second) (45 * day) second [second; 5 * second; 30 * second] n 0).
Abbreviation ran := (run (processor 1) job_world).
Abbreviation idle := (run (processor 2) ran.1).

Lemma two_processors :
  reach (2 ^ 60) (map (fun n => processor n) [1%nat; 2%nat], job_world) ([done_with ran.2; done_with idle.2], idle.1).
Proof.
  unfold reach. etrans.
  - apply (reach_run toy_handler_sound (fun _ => eq_refl) (2 ^ 60) [processor 1; processor 2] 0 (processor 1) job_world); [reflexivity|].
    apply Z.ltb_lt. vm_compute. reflexivity.
  - apply (reach_run toy_handler_sound (fun _ => eq_refl) (2 ^ 60) [done_with ran.2; processor 2] 1 (processor 2) ran.1); [reflexivity|].
    apply Z.ltb_lt. vm_compute. reflexivity.
Qed.
Definition sample_attempt : attempt := {| at_job := "job-1"; at_fence := 1; at_token := "0123456789abcdef0123456789abcdef" |}.

Lemma sync_attempts_never_overlap_witness :
  w_ext idle.1 = [sample_attempt; sample_attempt] /\ follows sample_attempt sample_attempt /\
  match w_db idle.1 !! (jobs_coll, "job-1"%string) with Some d => py_eq (doc_get d "state") (VStr "succeeded") | None => false end = true.
Proof.
  assert (Hlog : w_ext idle.1 = [sample_attempt; sample_attempt]) by (vm_compute; reflexivity).
  split; [exact Hlog|]. split; [|vm_compute; reflexivity].
  refine (sync_attempts_never_overlap 0 (5 * minute) (5 * second) (45 * day) second [second; 5 * second; 30 * second] (2 ^ 60) [1%nat; 2%nat] job_world idle.1
    [done_with ran.2; done_with idle.2] [] sample_attempt [] sample_attempt [] _ _ _ two_processors Hlog).
  - apply db_wfb_ok. vm_compute. reflexivity.
  - intros j d Hd. cbn [w_db job_world] in Hd. rewrite !lookup_insert_ne in Hd by discriminate.
    apply lookup_singleton_Some in Hd as [_ <-]. split; [exists "pending"%string; reflexivity|exact I|exact I|reflexivity].
  - reflexivity.
Defined.
End Example.
