(* ===== verification/OrderRanges.v ===== *)
(** Subdivision of an order search: [OrderRangeNode] and [subdivide_order_range]
    of modules/sheets/.../history_order_subdivision.py, which halves a creation
    interval at hour boundaries until a search fits the result budget.

    Instants are aware UTC datetimes in microseconds. *)

From S2P Require Export PyVal PyDate.

#[local] Open Scope Z_scope.

(** [hashlib.sha256(s.encode()).hexdigest()]. *)
Class Sha256 := sha256_hex : string -> string.

Definition MAX_SUBDIVISION_DEPTH : Z := 12.

Definition limit_error {A} (msg : string) : result A := Err (mk_exn "HistoryLimitError" msg).
Definition saturated {A} : result A :=
  Err (mk_exn "SaturatedOrderHourError" "single provider hour exceeds local result budget").
(** A pydantic validator that raises [ValueError]. *)
Definition invalid_model {A} (msg : string) : result A := Err (mk_exn "ValidationError" msg).

(** ** Nodes *)

Record OrderRangeNode := {
  node_id : string;
  root_id : string;
  parent_id : option string;
  date_from : Z;
  date_to : Z;
  depth : Z;
}.

Definition no_text (o : option string) : bool := match o with Some s => string_is_empty s | None => false end.

(** [OrderRangeNode.model_validate]: the fields' constraints and [validate_bounds]. *)
Definition validate_bounds (n : OrderRangeNode) : result OrderRangeNode :=
  if string_is_empty (node_id n) || string_is_empty (root_id n) || no_text (parent_id n)
     || negb ((0 <=? depth n) && (depth n <=? MAX_SUBDIVISION_DEPTH))
  then invalid_model "field constraint"
  else if negb ((0 <? date_to n - date_from n) && (date_to n - date_from n <=? 90 * day))
  then invalid_model "order subdivision requires positive bounds of at most 90 days"
  else if negb (Bool.eqb (depth n =? 0) (negb (is_some (parent_id n))))
  then invalid_model "subdivision depth must correspond to parent linkage"
  else if (depth n =? 0) && negb (String.eqb (node_id n) (root_id n))
  then invalid_model "root identity must identify the root node"
  else Ok n.

(** [v.replace(minute=0, second=0, microsecond=0)]. *)
Definition floor_hour (us : Z) : Z := us - us mod hour.

(** The first and the last hour of the search, inclusive. *)
Definition provider_hours (n : OrderRangeNode) : Z * Z :=
  let lower := floor_hour (date_from n) in
  let upper := floor_hour (date_to n) in
  (lower, if upper =? date_to n then upper - hour else upper).

Definition hours_of (n : OrderRangeNode) : Z :=
  let '(lower, upper) := provider_hours n in (upper - lower) / hour + 1.

(** ** Subdivision *)

Section Subdivision.
Context `{Sha256}.

Definition child_id (n : OrderRangeNode) (start stop : Z) : string :=
  sha256_hex (node_id n ++ String "000" EmptyString ++ isoformat_us start ++ String "000" EmptyString ++ isoformat_us stop)%string.
Definition child_node (n : OrderRangeNode) (start stop : Z) : result OrderRangeNode :=
  validate_bounds
    {| node_id := child_id n start stop; root_id := root_id n; parent_id := Some (node_id n);
       date_from := start; date_to := stop; depth := depth n + 1 |}.

Definition subdivide_order_range (n : OrderRangeNode) (observed_total local_result_budget : Z) : result (list OrderRangeNode) :=
  let! node := validate_bounds n in
  if observed_total <? 0 then raise_value "observed total must be a nonnegative integer"
  else if local_result_budget <? 1 then raise_value "local result budget must be a positive integer"
  else if observed_total <=? local_result_budget then Ok [node]
  else
    let '(lower, upper) := provider_hours node in
    let hours := (upper - lower) / hour + 1 in
    if hours =? 1 then saturated
    else if depth node =? MAX_SUBDIVISION_DEPTH then limit_error "order subdivision reached local depth budget"
    else
      let midpoint := lower + hour * (hours / 2) in
      let! a := child_node node (date_from node) midpoint in
      let! b := child_node node midpoint (date_to node) in
      Ok [a; b].
End Subdivision.

(** ** Bounds *)

Lemma hour_pos : 0 < hour.
Proof. reflexivity. Qed.

Record wf_node (n : OrderRangeNode) : Prop := {
  wf_node_id : node_id n <> EmptyString;
  wf_root_id : root_id n <> EmptyString;
  wf_parent : no_text (parent_id n) = false;
  wf_depth : 0 <= depth n <= MAX_SUBDIVISION_DEPTH;
  wf_span : 0 < date_to n - date_from n <= 90 * day;
  wf_linked : (depth n =? 0) = negb (is_some (parent_id n));
  wf_root : depth n = 0 -> node_id n = root_id n;
}.

Lemma empty_iff s : string_is_empty s = false <-> s <> EmptyString.
Proof. by destruct s. Qed.

Lemma validate_bounds_ok n m : validate_bounds n = Ok m <-> m = n /\ wf_node n.
Proof.
  unfold validate_bounds. split.
  - intros Hv. repeat case_hyp Hv; try done. injection Hv as <-. split; [done|]. bool_to_prop.
    match goal with Hd : _ \/ _ |- _ => rename Hd into Hroot end.
    split; try done; try by apply empty_iff.
    + by apply eqb_prop.
    + intros Hd. destruct Hroot as [Hr|Hr]; bool_to_prop; [lia|done].
  - intros [-> [Hi Hr Hp Hd Hs Hl Hroot]]. apply empty_iff in Hi, Hr. rewrite Hi, Hr, Hp. cbn [orb].
    rewrite (proj2 (Z.leb_le _ _) (proj1 Hd)), (proj2 (Z.leb_le _ _) (proj2 Hd)). cbn [andb negb].
    rewrite (proj2 (Z.ltb_lt _ _) (proj1 Hs)), (proj2 (Z.leb_le _ _) (proj2 Hs)). cbn [andb negb].
    rewrite Hl, eqb_reflx. cbn [negb]. destruct (depth n =? 0) eqn:H0; rewrite <- Hl; [|done].
    apply Z.eqb_eq in H0. by rewrite (Hroot H0), String.eqb_refl.
Qed.

(** An instant on an hour boundary. *)
Definition on_hour (us : Z) : Prop := us mod hour = 0.

Lemma floor_hour_spec us : on_hour (floor_hour us) /\ floor_hour us <= us < floor_hour us + hour.
Proof.
  unfold on_hour, floor_hour. pose proof (Z.mod_pos_bound us hour hour_pos). split; [|lia].
  by rewrite Zminus_mod_idemp_r, Z.sub_diag.
Qed.
Lemma floor_hour_on us : on_hour us -> floor_hour us = us.
Proof. unfold on_hour, floor_hour. lia. Qed.
Lemma on_hour_add us k : on_hour us -> on_hour (us + hour * k).
Proof. unfold on_hour. intros Hu. by rewrite Z.mul_comm, Z.mod_add. Qed.
Lemma on_hour_diff a b : on_hour a -> on_hour b -> b - a = hour * ((b - a) / hour).
Proof.
  unfold on_hour. intros Ha Hb. apply Z_div_exact_full_2; [done|]. by rewrite Zminus_mod, Ha, Hb.
Qed.

(** The queried hours: from the hour of the first instant to the hour of the
    last one. *)
Lemma provider_hours_spec n lower upper : provider_hours n = (lower, upper) ->
  on_hour lower /\ on_hour upper /\ lower <= date_from n < lower + hour /\ upper < date_to n <= upper + hour.
Proof.
  unfold provider_hours. intros [= <- <-].
  destruct (floor_hour_spec (date_from n)) as [Hl Hlb], (floor_hour_spec (date_to n)) as [Hu Hub].
  split; [done|]. destruct (Z.eqb_spec (floor_hour (date_to n)) (date_to n)) as [He|He].
  - split; [|lia]. replace (floor_hour (date_to n) - hour) with (floor_hour (date_to n) + hour * -1) by lia. by apply on_hour_add.
  - split; [done|lia].
Qed.

Lemma hours_of_spec n lower upper : provider_hours n = (lower, upper) -> date_from n < date_to n ->
  upper - lower = hour * (hours_of n - 1) /\ 1 <= hours_of n.
Proof.
  intros Hh Hlt. unfold hours_of. rewrite Hh. destruct (provider_hours_spec n lower upper Hh) as (Hl & Hu & Hlb & Hub).
  pose proof (on_hour_diff lower upper Hl Hu) as Hd. pose proof hour_pos. split; [lia|]. nia.
Qed.

(** A range of at most 90 days meets at most 2161 hours. *)
Lemma hours_of_bound n : wf_node n -> 1 <= hours_of n <= 2161.
Proof.
  intros Hw. destruct (provider_hours n) as [lower upper] eqn:Hh. pose proof (wf_span _ Hw) as Hs.
  destruct (hours_of_spec n lower upper Hh) as [Hd H1]; [lia|]. destruct (provider_hours_spec n lower upper Hh) as (_ & _ & Hlb & Hub).
  split; [done|]. unfold day in Hs. pose proof hour_pos. nia.
Qed.

(** ** The halves *)

(** [a] and [b] halve [n]: together they are [n], they share an hour boundary
    strictly inside, and their searches query the hours of [n] once each. *)
Record halves (n a b : OrderRangeNode) : Prop := {
  hv_from : date_from a = date_from n;
  hv_mid : date_to a = date_from b;
  hv_to : date_to b = date_to n;
  hv_hour : on_hour (date_to a);
  hv_lower : (provider_hours a).1 = (provider_hours n).1;
  hv_next : (provider_hours a).2 + hour = (provider_hours b).1;
  hv_upper : (provider_hours b).2 = (provider_hours n).2;
  hv_hours : hours_of a = hours_of n / 2 /\ hours_of b = hours_of n - hours_of n / 2;
  hv_depth : depth a = depth n + 1 /\ depth b = depth n + 1;
  hv_parent : parent_id a = Some (node_id n) /\ parent_id b = Some (node_id n);
  hv_root : root_id a = root_id n /\ root_id b = root_id n;
  hv_wf : wf_node a /\ wf_node b;
}.

Section Halves.
Context `{Sha256}.

Lemma child_node_ok n start stop a : child_node n start stop = Ok a ->
  a = {| node_id := child_id n start stop; root_id := root_id n; parent_id := Some (node_id n);
         date_from := start; date_to := stop; depth := depth n + 1 |} /\ wf_node a.
Proof. unfold child_node. intros Hc. apply validate_bounds_ok in Hc as [-> Hw]. by split. Qed.

Lemma provider_hours_left a lower k : floor_hour (date_from a) = lower -> date_to a = lower + hour * k -> on_hour lower ->
  provider_hours a = (lower, lower + hour * k - hour) /\ hours_of a = k.
Proof.
  intros Hf Ht Hl. assert (Hh : provider_hours a = (lower, lower + hour * k - hour)).
  { unfold provider_hours. by rewrite Hf, Ht, floor_hour_on, Z.eqb_refl by (by apply on_hour_add). }
  split; [done|]. unfold hours_of. rewrite Hh. replace (lower + hour * k - hour - lower) with ((k - 1) * hour) by lia.
  rewrite Z.div_mul by done. lia.
Qed.
Lemma provider_hours_right b lower upper k : date_from b = lower + hour * k -> on_hour lower ->
  (let u := floor_hour (date_to b) in if u =? date_to b then u - hour else u) = upper ->
  provider_hours b = (lower + hour * k, upper) /\ hours_of b = (upper - lower) / hour - k + 1.
Proof.
  intros Hf Hl Hu. assert (Hh : provider_hours b = (lower + hour * k, upper)).
  { unfold provider_hours. cbv zeta in Hu |- *. by rewrite Hu, Hf, floor_hour_on by (by apply on_hour_add). }
  split; [done|]. unfold hours_of. rewrite Hh. replace (upper - (lower + hour * k)) with (upper - lower + (- k) * hour) by lia.
  rewrite Z.div_add by done. lia.
Qed.

Lemma halves_intro n lower upper a b :
  provider_hours n = (lower, upper) -> hours_of n <> 1 -> wf_node n ->
  child_node n (date_from n) (lower + hour * (hours_of n / 2)) = Ok a ->
  child_node n (lower + hour * (hours_of n / 2)) (date_to n) = Ok b -> halves n a b.
Proof.
  intros Hh H1 Hw Ha Hb. pose proof (wf_span _ Hw) as Hs. apply child_node_ok in Ha as [Ha Hwa], Hb as [Hb Hwb].
  destruct (provider_hours_spec n lower upper Hh) as (Hl & _ & _ & _). set (k := hours_of n / 2) in *.
  destruct (provider_hours_left a lower k) as [Hpa Hka]; [by rewrite Ha; unfold provider_hours in Hh; simplify_eq/=|by rewrite Ha|done|].
  destruct (provider_hours_right b lower upper k) as [Hpb Hkb]; [by rewrite Hb|done|by rewrite Hb; unfold provider_hours in Hh; simplify_eq/=|].
  assert (Hn : (upper - lower) / hour = hours_of n - 1) by (unfold hours_of; rewrite Hh; lia).
  rewrite Hn in Hkb. split; rewrite ?Hpa, ?Hpb, ?Hh; simpl; try (subst a b; done); try lia.
  - rewrite Ha. by apply on_hour_add.
Qed.

Lemma subdivide_ok n total budget l : subdivide_order_range n total budget = Ok l ->
  wf_node n /\ 0 <= total /\ 1 <= budget /\
  (total <= budget /\ l = [n] \/ budget < total /\ exists a b, l = [a; b] /\ halves n a b).
Proof.
  unfold subdivide_order_range. intros Hs. destruct (validate_bounds n) as [m|] eqn:Hv; [|done]. apply validate_bounds_ok in Hv as [-> Hw].
  cbn [result_bind] in Hs. destruct (total <? 0) eqn:Ht; [done|]. destruct (budget <? 1) eqn:Hb; [done|]. bool_to_prop.
  split; [done|]. split; [done|]. split; [done|]. destruct (total <=? budget) eqn:Hle; bool_to_prop.
  { left. split; [done|]. by injection Hs. }
  right. split; [done|]. destruct (provider_hours n) as [lower upper] eqn:Hh.
  assert (Hn : (upper - lower) / hour + 1 = hours_of n) by (unfold hours_of; by rewrite Hh). rewrite Hn in Hs.
  destruct (Z.eqb_spec (hours_of n) 1) as [H1|H1]; [done|]. destruct (depth n =? _); [done|].
  destruct (child_node n (date_from n) _) as [a|] eqn:Ha; [|done]. cbn [result_bind] in Hs.
  destruct (child_node n _ (date_to n)) as [b|] eqn:Hb'; [|done]. cbn [result_bind] in Hs. injection Hs as <-.
  exists a, b. split; [done|]. by eapply halves_intro.
Qed.
End Halves.

(** ** Every search ends *)

Section Descent.
Context `{Sha256}.
Hypothesis digest_length : forall s, String.length (sha256_hex s) = 64%nat.

(** The ranges that repeated subdivision of [root] reaches. *)
Inductive reached (root : OrderRangeNode) : OrderRangeNode -> Prop :=
| reached_root : reached root root
| reached_half n total budget a b m :
    reached root n -> subdivide_order_range n total budget = Ok [a; b] -> m = a \/ m = b -> reached root m.

Lemma halving d h : 1 <= d -> h <= 2 ^ d -> h / 2 <= 2 ^ (d - 1) /\ h - h / 2 <= 2 ^ (d - 1).
Proof using Type.
  intros Hd Hh. replace (2 ^ d) with (2 * 2 ^ (d - 1)) in Hh by (rewrite <- Z.pow_succ_r by lia; f_equal; lia).
  pose proof (Z.div_mod h 2 ltac:(lia)). pose proof (Z.mod_pos_bound h 2 ltac:(lia)). lia.
Qed.

Lemma reached_hours root n : wf_node root -> depth root = 0 -> reached root n ->
  wf_node n /\ hours_of n <= 2 ^ (MAX_SUBDIVISION_DEPTH - depth n).
Proof using Type.
  intros Hw H0 Hr. induction Hr as [|n total budget a b m Hr [Hwn Hb] Hs Hm].
  - split; [done|]. rewrite H0. pose proof (hours_of_bound _ Hw). change (2 ^ (MAX_SUBDIVISION_DEPTH - 0)) with 4096. lia.
  - apply subdivide_ok in Hs as (_ & _ & _ & [[_ ?]|[_ (a' & b' & [= <- <-] & Hh)]]); [done|].
    pose proof (hv_hours _ _ _ Hh) as [Hha Hhb]. pose proof (hv_depth _ _ _ Hh) as [Hda Hdb]. pose proof (hv_wf _ _ _ Hh) as [Hwa Hwb].
    assert (Hd : 1 <= MAX_SUBDIVISION_DEPTH - depth n) by (pose proof (wf_depth _ Hwa); unfold MAX_SUBDIVISION_DEPTH in *; lia).
    destruct (halving _ _ Hd Hb) as [Ha' Hb']. replace (MAX_SUBDIVISION_DEPTH - depth n - 1) with (MAX_SUBDIVISION_DEPTH - (depth n + 1)) in * by lia.
    destruct Hm as [->| ->]; (split; [done|]); [by rewrite Hda, Hha|by rewrite Hdb, Hhb].
Qed.

Lemma child_node_total n start stop : wf_node n -> depth n < MAX_SUBDIVISION_DEPTH -> date_from n <= start -> start < stop -> stop <= date_to n ->
  exists a, child_node n start stop = Ok a.
Proof using digest_length.
  intros Hw Hd Hs1 Hs2 Hs3. eexists. unfold child_node. apply validate_bounds_ok. split; [reflexivity|].
  pose proof (wf_span _ Hw). pose proof (wf_depth _ Hw). split; cbn [node_id root_id parent_id date_from date_to depth]; try lia.
  - intros He. pose proof (digest_length (node_id n ++ String "000" EmptyString ++ isoformat_us start ++ String "000" EmptyString ++ isoformat_us stop)%string) as Hlen.
    unfold child_id in He. by rewrite He in Hlen.
  - apply (wf_root_id _ Hw).
  - simpl. apply empty_iff, (wf_node_id _ Hw).
  - simpl. apply Z.eqb_neq. lia.
Qed.

(** A search over at most 90 days always resolves.  Whatever totals the
    provider reports, every range reached from the root is kept when its total
    fits the budget, is halved exactly - the halves tile both the interval and
    the queried hours - or is one single hour that is over the budget; the
    depth limit of twelve is never hit. *)
Theorem subdivision_resolves root n total budget :
  wf_node root -> depth root = 0 -> reached root n -> 0 <= total -> 1 <= budget ->
  match subdivide_order_range n total budget with
  | Ok [m] => m = n /\ total <= budget
  | Ok [a; b] => halves n a b /\ budget < total
  | Ok _ => False
  | Err e => e = mk_exn "SaturatedOrderHourError" "single provider hour exceeds local result budget" /\ hours_of n = 1 /\ budget < total
  end.
Proof using digest_length.
  intros Hw H0 Hr Ht Hb. destruct (reached_hours root n Hw H0 Hr) as [Hwn Hh].
  destruct (subdivide_order_range n total budget) as [l|e] eqn:Hs.
  { apply subdivide_ok in Hs as (_ & _ & _ & [[Hle ->]|[Hlt (a & b & -> & Hv)]]); done. }
  unfold subdivide_order_range in Hs. rewrite (proj2 (validate_bounds_ok n n) (conj eq_refl Hwn)) in Hs. cbn [result_bind] in Hs.
  rewrite (proj2 (Z.ltb_ge _ _) Ht), (proj2 (Z.ltb_ge _ _) Hb) in Hs. destruct (total <=? budget) eqn:Hle; [done|]. bool_to_prop.
  destruct (provider_hours n) as [lower upper] eqn:Hp. assert (Hn : (upper - lower) / hour + 1 = hours_of n) by (unfold hours_of; by rewrite Hp).
  rewrite Hn in Hs. destruct (Z.eqb_spec (hours_of n) 1) as [H1|H1]; [by injection Hs as <-|exfalso].
  pose proof (wf_span _ Hwn). destruct (hours_of_spec n lower upper Hp) as [Hd Hge]; [lia|].
  destruct (provider_hours_spec n lower upper Hp) as (_ & _ & Hlb & Hub).
  destruct (Z.eqb_spec (depth n) MAX_SUBDIVISION_DEPTH) as [He|Hne]; [rewrite He, Z.sub_diag in Hh; lia|].
  assert (Hdep : depth n < MAX_SUBDIVISION_DEPTH) by (pose proof (wf_depth _ Hwn); lia).
  assert (Hk : 1 <= hours_of n / 2 <= hours_of n - 1).
  { pose proof (Z.div_mod (hours_of n) 2 ltac:(lia)). pose proof (Z.mod_pos_bound (hours_of n) 2 ltac:(lia)). lia. }
  pose proof hour_pos.
  destruct (child_node_total n (date_from n) (lower + hour * (hours_of n / 2)) Hwn Hdep) as [a Ha]; [lia|nia|nia|].
  destruct (child_node_total n (lower + hour * (hours_of n / 2)) (date_to n) Hwn Hdep) as [b Hb']; [nia|nia|lia|].
  rewrite Ha in Hs. cbn [result_bind] in Hs. by rewrite Hb' in Hs.
Qed.
End Descent.

(** ** A search of a day and a half *)

Section Example.
(** The last 64 characters, as a stand-in for the digest. *)
Fixpoint fit (n : nat) (s : string) : string :=
  match n, s with
  | O, _ => EmptyString
  | S n, EmptyString => String "0" (fit n EmptyString)
  | S n, String c s => String c (fit n s)
  end.
#[local] Instance toy_sha256 : Sha256 := fun s => fit 64 (string_rev s).
Lemma fit_length n s : String.length (fit n s) = n.
Proof. revert s. induction n as [|n IH]; intros [|c s]; simpl; by rewrite ?IH. Qed.

Definition sample_root : OrderRangeNode :=
  {| node_id := "acq"; root_id := "acq"; parent_id := None; date_from := 30 * minute; date_to := 36 * hour; depth := 0 |}.
Lemma sample_wf : wf_node sample_root.
Proof. split; try done; split; by vm_compute. Qed.

Lemma subdivision_resolves_witness :
  exists a b, subdivide_order_range sample_root 20000 10000 = Ok [a; b] /\ halves sample_root a b /\ date_to a = 18 * hour /\ hours_of b = 18.
Proof.
  pose proof (subdivision_resolves (fun s => fit_length 64 (string_rev s)) sample_root sample_root 20000 10000
    sample_wf eq_refl (reached_root _) ltac:(lia) ltac:(lia)) as Hr.
  destruct (subdivide_order_range sample_root 20000 10000) as [[|a [|b [|]]]|] eqn:Hs; try (exfalso; vm_compute in Hs; discriminate).
  - exists a, b. split; [done|]. split; [apply Hr|]. vm_compute in Hs. injection Hs as <- <-. by split.
Defined.
End Example.
