(* ===== verification/RecoveryJobs.v ===== *)
(** The jobs of the recovery queue: what [FormulaRecoveryQueue] of
    modules/sheets/.../formulas/recovery.py reads and writes of one job, as
    filters and updates. *)

From S2P Require Export PyDate OrderRanges PyDec Mongo.

#[local] Open Scope Z_scope.

Definition LEASE : Z := 10 * minute.
Definition COOLDOWN : Z := 15 * minute.
Definition INVENTORY_REFRESH_INTERVAL : Z := 10 * minute.
Definition MAX_ATTEMPTS : Z := 3.

(** A job's field in an integer comparison or sum. *)
Definition int_at (d : doc) (k : string) : result Z :=
  let! v := doc_at d k in
  match as_int v with Some z => Ok z | None => raise_type "unsupported operand type(s)" end.
(** A datetime; a naive one is read as UTC ([observed.replace(tzinfo=UTC)]). *)
Definition utc_at (v : val) : result Z :=
  match v with VDate _ us => Ok us | _ => raise_type "unsupported operand type(s)" end.
(** [job[k]] of a list, and [len] of it. *)
Definition list_at (d : doc) (k : string) : result (list val) :=
  let! v := doc_at d k in
  match v with VList l => Ok l | _ => raise_type "object is not a list" end.

(** [_owned]: the job while the lease of this attempt lasts. *)
Definition _owned (job : doc) (now : Z) : result filter :=
  let! i := doc_at job "_id" in
  let! token := doc_at job "attempt_token" in
  Ok (FAnd [FEq ["_id"] i; FEq ["state"] (VStr "running"); FEq ["attempt_token"] token;
            FRel RGt ["lease_until"] (VDate true now)])%string.

(** ** Finishing an attempt *)

Definition public_reasons : list string :=
  ["recovery_failed"; "source_temporarily_unavailable"; "source_rejected"; "source_cursor_expired";
   "source_incomplete"; "storage_unavailable"]%string.

(** [timedelta(seconds=30 * 2 ** (attempts - 1))]. *)
Definition retry_delay (attempts : Z) : Z :=
  if 1 <=? attempts then 30 * second * 2 ^ (attempts - 1) else half_even (30 * second) (2 ^ (1 - attempts)).

(** What [finish] does: an update of the owned job, or, for an inventory that
    fails for good, the checkpoint past the failed chunk. *)
Inductive finish_plan :=
| FinishUpdate (ops : list upd)
| FinishInventory (item_ids : val) (offset : Z).

(** The continuation of an explicit-ID job ([catalog_offset]): the chunk after
    this one, the failed chunks and the fields they change. *)
Definition catalog_fields (job : doc) (succeeded : bool) (failure_reason : string) (now : Z) : result (list upd) :=
  let! model := doc_at job "read_model" in
  let field := (if py_eq model (VStr "catalog_product_snapshots") then "catalog_product_ids" else "item_ids")%string in
  let! ids := list_at job field in
  let! offset := doc_at job "catalog_offset" in
  match offset with
  | VInt offset =>
      let size := Z.of_nat (length ids) in
      if negb ((0 <=? offset) && (offset <? size)) || negb (offset mod 20 =? 0)
      then raise_value "invalid catalog continuation offset"
      else
        let next_offset := Z.min (offset + 20) size in
        let! earlier := (match doc_get_or job "catalog_failed_offsets" (VList []) with
                         | VList l => Ok l | _ => raise_type "object is not iterable" end) in
        let failed := if succeeded then earlier else earlier ++ [VInt offset] in
        let finished := next_offset =? size in
        let! reason :=
          (if negb succeeded && negb (string_is_empty failure_reason) then Ok (VStr failure_reason)
           else if is_nil failed then Ok VNone
           else doc_at job "catalog_failure_reason") in
        Ok ((if succeeded then [] else [USet ["catalog_failure_reason"%string] (VStr failure_reason)]) ++
            [USet ["catalog_offset"%string] (VInt next_offset); USet ["catalog_failed_offsets"%string] (VList failed);
             USet ["attempts"%string] (VInt 0);
             USet ["state"%string] (VStr (if finished then if is_nil failed then "completed" else "failed" else "pending")%string);
             USet ["available_at"%string] (VDate true (if finished then now + COOLDOWN else now))] ++
            (if is_nil failed then [] else [USet ["failure_reason"%string] reason]))
  | _ => raise_value "invalid catalog continuation offset"
  end.

(** Whether [failure_reason] is unset: not when a chunk failed. *)
Definition chunk_failed (job : doc) (succeeded : bool) : bool :=
  negb succeeded || match doc_get_or job "catalog_failed_offsets" (VList []) with VList l => negb (is_nil l) | _ => false end.

Definition finish_change (job : doc) (succeeded retryable : bool) (failure_reason : string) (now : Z) : result finish_plan :=
  let! retry :=
    (if negb succeeded && retryable then let! a := int_at job "attempts" in Ok (a <? MAX_ATTEMPTS) else Ok false) in
  if negb (string_in failure_reason public_reasons) then raise_value "unsupported public recovery failure reason"
  else if negb succeeded && negb retry && py_eq (doc_get job "inventory_scope") (VBool true) && is_exact_bool (doc_get job "inventory_scope")
       && has_key job "inventory_offset" && string_in failure_reason ["source_incomplete"; "source_temporarily_unavailable"]%string
  then
    let! ids := list_at job "inventory_ids" in
    let! offset := int_at job "inventory_offset" in
    Ok (FinishInventory (VList ids) (Z.min (offset + 20) (Z.of_nat (length ids))))
  else
    let! delay := (if retry then let! a := int_at job "attempts" in Ok (retry_delay a) else Ok COOLDOWN) in
    let! available_at :=
      (if succeeded then
         let! model := doc_at job "read_model" in
         if py_eq model (VStr "catalog_product_snapshots") || py_eq model (VStr "catalog_buybox_snapshots")
         then let! observed := doc_at job "updated_at" in let! observed := utc_at observed in Ok (Z.max now (observed + COOLDOWN))
         else Ok (now + delay)
       else Ok (now + delay)) in
    let state := (if succeeded then "completed" else if retry then "pending" else "failed")%string in
    let chunked := has_key job "catalog_offset" && negb retry in
    let! more := (if chunked then catalog_fields job succeeded failure_reason now else Ok []) in
    Ok (FinishUpdate
      ([USet ["state"%string] (VStr state); USet ["available_at"%string] (VDate true available_at); USet ["updated_at"%string] (VDate true now)] ++
       (if succeeded then [] else [USet ["failure_reason"%string] (VStr failure_reason)]) ++ more ++
       [UUnset ["lease_until"%string]; UUnset ["attempt_token"%string]] ++
       (if succeeded && negb (chunked && chunk_failed job succeeded) then [UUnset ["failure_reason"%string]] else []))).

(** The requests of the recovery queue: the dataclasses of
    modules/sheets/.../formulas/recovery.py, what their construction checks and
    normalises, and the identity of the job each one stands for.

    Datetimes are aware instants in microseconds. *)

Definition RECOVERABLE_MODELS : list string :=
  ["questions"; "orders"; "shipments"; "item_formula_rows"; "catalog_product_snapshots"; "catalog_buybox_snapshots"]%string.
Definition YEAR_HISTORY_MODELS : list string := ["orders"; "questions"]%string.
Definition RENEWAL_READ_MODELS : list string := ["catalog_buybox_snapshots"; "item_formula_rows"]%string.

Inductive request :=
| RecoveryRequest (seller_id read_model : string) (date_from date_to : Z)
| YearHistoryRecoveryRequest (seller_id read_model : string) (date_from date_to : Z)
| QuestionScanRecoveryRequest (seller_id plan_id : string) (date_from date_to : Z)
| OrderHistoryRecoveryRequest (seller_id plan_id : string) (date_from date_to : Z)
| OrderIdsRecoveryRequest (seller_id : string) (order_ids : list string)
| ModifiedOrderIdsRecoveryRequest (seller_id order_id modified_version source_hash : string)
| ShipmentIdsRecoveryRequest (seller_id : string) (shipment_ids : list string)
| ItemIdsRecoveryRequest (seller_id read_model : string) (item_ids : list string)
| CatalogProductIdsRecoveryRequest (seller_id : string) (catalog_product_ids : list string)
| CatalogRecoveryRequest (seller_id read_model : string) (ids : list string)
| RenewalRecoveryRequest (seller_id read_model : string) (ids : list string) (slot : Z)
| ItemInventoryRecoveryRequest (seller_id : string).

Definition seller_of (r : request) : string :=
  match r with
  | RecoveryRequest s _ _ _ | YearHistoryRecoveryRequest s _ _ _ | QuestionScanRecoveryRequest s _ _ _ | OrderHistoryRecoveryRequest s _ _ _
  | OrderIdsRecoveryRequest s _ | ModifiedOrderIdsRecoveryRequest s _ _ _ | ShipmentIdsRecoveryRequest s _ | ItemIdsRecoveryRequest s _ _
  | CatalogProductIdsRecoveryRequest s _ | CatalogRecoveryRequest s _ _ | RenewalRecoveryRequest s _ _ _ | ItemInventoryRecoveryRequest s => s
  end.
Definition model_of (r : request) : string :=
  match r with
  | RecoveryRequest _ m _ _ | YearHistoryRecoveryRequest _ m _ _ | ItemIdsRecoveryRequest _ m _ | CatalogRecoveryRequest _ m _
  | RenewalRecoveryRequest _ m _ _ => m
  | QuestionScanRecoveryRequest _ _ _ _ => "questions"
  | OrderHistoryRecoveryRequest _ _ _ _ | OrderIdsRecoveryRequest _ _ | ModifiedOrderIdsRecoveryRequest _ _ _ _ => "orders"
  | ShipmentIdsRecoveryRequest _ _ => "shipments"
  | CatalogProductIdsRecoveryRequest _ _ => "catalog_product_snapshots"
  | ItemInventoryRecoveryRequest _ => "item_formula_rows"
  end%string.

(** ** Construction *)

(** [tuple(sorted(set(ids)))]. *)
Fixpoint insert_id (x : string) (l : list string) : list string :=
  match l with [] => [x] | y :: l' => if String.eqb x y then l else if String.ltb x y then x :: l else y :: insert_id x l' end.
Definition sorted_set (l : list string) : list string := foldr insert_id [] l.

(** [re.fullmatch(r"ML[A-Z][0-9]+", s)]. *)
Definition item_id (s : string) : bool :=
  match s with String "M" (String "L" (String c s)) => char_in 65 90 c && digits1 s | _ => false end.
(** To the millisecond that contains the end. *)
Definition ceil_ms (us : Z) : Z := us + (- us) mod 1000.

Definition range_bounds (seller_id read_model : string) (date_from date_to : Z) : result (Z * Z) :=
  if blank seller_id || negb (string_in read_model RECOVERABLE_MODELS) then raise_value "a seller and recoverable read model are required"
  else if negb ((0 <? date_to - date_from) && (date_to - date_from <=? 90 * day)) then raise_value "recovery range must be positive and at most 90 days"
  else Ok (floor_ms date_from, ceil_ms date_to).
Definition recovery_request (seller_id read_model : string) (date_from date_to : Z) : result request :=
  let! ' (a, b) := range_bounds seller_id read_model date_from date_to in Ok (RecoveryRequest seller_id read_model a b).
Definition year_history_request (seller_id read_model : string) (date_from date_to : Z) : result request :=
  if negb (string_in read_model YEAR_HISTORY_MODELS) then raise_value "year history covers orders and questions"
  else let! ' (a, b) := range_bounds seller_id read_model date_from date_to in Ok (YearHistoryRecoveryRequest seller_id read_model a b).

(** [end.replace(year=end.year - 1, day=min(...))]. *)
Definition year_before (us : Z) : Z :=
  let d := civil_from_days (day_of us) in
  let m := month_days (d_year d - 1) (d_month d) in
  instant (Date (d_year d - 1) (d_month d) (Z.min (d_day d) m)) (time_of_day us).
Definition question_scan_request (seller_id plan_id : string) (date_from date_to : Z) : result request :=
  if negb (digits1 seller_id) || blank plan_id then raise_value "question scan requires seller, plan and aware bounds"
  else if d_year (civil_from_days (day_of date_to)) <=? 1 then raise_value "question scan plan requires twelve calendar months"
  else if negb (date_from =? year_before date_to) || negb (date_from mod 1000 =? 0) || negb (date_to mod 1000 =? 0)
  then raise_value "question scan plan requires exact twelve-month BSON bounds"
  else Ok (QuestionScanRecoveryRequest seller_id plan_id date_from date_to).
Definition order_history_request (seller_id plan_id : string) (date_from date_to : Z) : result request :=
  let! ' (a, b) := range_bounds seller_id "orders" date_from date_to in
  if blank plan_id || negb (digits1 seller_id) || negb (a =? date_from) || negb (b =? date_to)
  then raise_value "order history requires a fixed plan and BSON-aligned order interval"
  else Ok (OrderHistoryRecoveryRequest seller_id plan_id a b).

Definition ids_ok (n : nat) (p : string -> bool) (ids : list string) : bool :=
  Nat.leb 1 (length ids) && Nat.leb (length ids) n && forallb p ids.
Definition order_ids_request (seller_id : string) (ids : list string) : result request :=
  if blank seller_id || negb (ids_ok 100 digits1 ids) then raise_value "a seller and at most 100 numeric order IDs are required"
  else Ok (OrderIdsRecoveryRequest seller_id (sorted_set ids)).

(** [s.replace("Z", "+00:00")]. *)
Fixpoint replace_z (s : string) : string :=
  match s with
  | EmptyString => EmptyString
  | String c s => if Ascii.eqb c "Z" then ("+00:00" ++ replace_z s)%string else String c (replace_z s)
  end.
(** [re.fullmatch(r"[0-9a-f]{64}", s)]. *)
Definition hex64 (s : string) : bool := Nat.eqb (String.length s) 64 && string_forallb is_hex_lower s.
Definition modified_order_ids_request (seller_id : string) (ids : list string) (modified_version source_hash : string) : result request :=
  if blank seller_id || negb (ids_ok 100 digits1 ids) then raise_value "a seller and at most 100 numeric order IDs are required"
  else
    let! observed := fromisoformat (replace_z modified_version) in
    match sorted_set ids, observed with
    | [i], VDate true us =>
        if negb (hex64 source_hash) then raise_value "modification recovery requires one ID, aware version and source hash"
        else Ok (ModifiedOrderIdsRecoveryRequest seller_id i (isoformat us) source_hash)
    | _, _ => raise_value "modification recovery requires one ID, aware version and source hash"
    end.
Definition shipment_ids_request (seller_id : string) (ids : list string) : result request :=
  if blank seller_id || negb (ids_ok 100 digits1 ids) then raise_value "a seller and at most 100 numeric shipment IDs are required"
  else Ok (ShipmentIdsRecoveryRequest seller_id (sorted_set ids)).
Definition item_ids_request (seller_id read_model : string) (ids : list string) : result request :=
  if negb (digits1 seller_id) || negb (string_in read_model ["item_formula_rows"; "catalog_buybox_snapshots"]%string) || negb (ids_ok 20 item_id ids)
  then raise_value "item recovery requires a seller and 1 to 20 publication IDs"
  else Ok (ItemIdsRecoveryRequest seller_id read_model (sorted_set ids)).
Definition catalog_product_ids_request (seller_id : string) (ids : list string) : result request :=
  if negb (digits1 seller_id) || negb (ids_ok 20 item_id ids) then raise_value "catalog recovery requires a seller and 1 to 20 product IDs"
  else Ok (CatalogProductIdsRecoveryRequest seller_id (sorted_set ids)).
Definition catalog_ids (seller_id read_model : string) (ids : list string) : result (list string) :=
  if negb (digits1 seller_id)
     || negb (string_in read_model ["catalog_product_snapshots"; "catalog_buybox_snapshots"; "item_formula_rows"]%string)
     || negb (ids_ok (Z.to_nat 10000) item_id ids)
  then raise_value "catalog intent requires a seller and at most 10000 explicit IDs"
  else Ok (sorted_set ids).
Definition catalog_request (seller_id read_model : string) (ids : list string) : result request :=
  let! l := catalog_ids seller_id read_model ids in Ok (CatalogRecoveryRequest seller_id read_model l).
Definition renewal_request (seller_id read_model : string) (ids : list string) (slot : Z) : result request :=
  if negb (string_in read_model RENEWAL_READ_MODELS) then raise_value "renewal requires buybox or item rows and an aware slot"
  else let! l := catalog_ids seller_id read_model ids in Ok (RenewalRecoveryRequest seller_id read_model l slot).
Definition item_inventory_request (seller_id : string) : result request :=
  if negb (digits1 seller_id) then raise_value "inventory recovery requires a numeric seller" else Ok (ItemInventoryRecoveryRequest seller_id).

(** ** Identity *)

(** [f"{date:%Y%m%d}"]. *)
Definition compact_day (us : Z) : string :=
  let d := civil_from_days (day_of us) in (str_of_Z (d_year d) ++ pad 2 (d_month d) ++ pad 2 (d_day d))%string.
Definition order_scope_id (date_from date_to : Z) : string := ("orders:" ++ compact_day date_from ++ ":" ++ compact_day date_to)%string.

Section Keys.
Context `{Sha256}.

Definition nul_joined (parts : list string) : string := sha256_hex (String.concat (String "000" EmptyString) parts).
Definition slot_key (seller_id read_model : string) (slot : Z) : string :=
  nul_joined [seller_id; read_model; "renewal"%string; isoformat slot].
Definition key (r : request) : string :=
  match r with
  | RecoveryRequest s m a b => nul_joined [s; m; isoformat a; isoformat b]
  | YearHistoryRecoveryRequest s m a b => nul_joined [s; m; "year_history"; isoformat a; isoformat b]
  | QuestionScanRecoveryRequest s plan _ _ => nul_joined [s; "questions"; "seller_scan"; plan]
  | OrderHistoryRecoveryRequest s plan a b => nul_joined [s; plan; order_scope_id a b]
  | OrderIdsRecoveryRequest s ids => nul_joined (s :: "orders" :: "ids" :: ids)
  | ModifiedOrderIdsRecoveryRequest s i v h => nul_joined [s; "orders"; "modified"; i; v; h]
  | ShipmentIdsRecoveryRequest s ids => nul_joined (s :: "shipments" :: "ids" :: ids)
  | ItemIdsRecoveryRequest s m ids => nul_joined (s :: m :: "ids" :: ids)
  | CatalogProductIdsRecoveryRequest s ids => nul_joined (s :: "catalog_product_snapshots" :: "products" :: ids)
  | CatalogRecoveryRequest s m ids => nul_joined (s :: m :: "catalog_intent" :: ids)
  | RenewalRecoveryRequest s m _ slot => slot_key s m slot
  | ItemInventoryRecoveryRequest s => nul_joined [s; "item_formula_rows"; "inventory"]
  end%string.

(** [validate_existing]: the fixed fields of a job found under the key. *)
Definition fixed_fields (r : request) : list (string * val) :=
  match r with
  | QuestionScanRecoveryRequest s plan a b =>
      [("seller_id", VStr s); ("read_model", VStr "questions"); ("history_plan_id", VStr plan); ("date_from", VDate true a); ("date_to", VDate true b)]
  | OrderHistoryRecoveryRequest s plan a b =>
      [("seller_id", VStr s); ("read_model", VStr "orders"); ("history_plan_id", VStr plan); ("date_from", VDate true a); ("date_to", VDate true b)]
  | ShipmentIdsRecoveryRequest s ids =>
      [("_id", VStr (key r)); ("seller_id", VStr s); ("read_model", VStr "shipments"); ("shipment_ids", VList (map VStr ids))]
  | _ => []
  end%string.
Definition validate_existing (r : request) (job : option doc) : result unit :=
  match job with
  | Some d =>
      if existsb (fun kv => negb (py_eq (doc_get d kv.1) kv.2)) (fixed_fields r)
      then raise_value "identity or fixed bounds changed" else Ok tt
  | None => Ok tt
  end.
End Keys.
