(* ===== verification/HistoryModels.v ===== *)
(** The documents of a history acquisition: [SheetsHistoryAcquisition] (the
    head), [SheetsHistoryOrderRange] and [SheetsHistoryReceipt] of
    core/.../models/sheets_history.py, with the constraints their validation
    checks, and their passage through BSON ([_document] of
    modules/sheets/.../history_acquisition.py).

    Instants are aware UTC datetimes in microseconds; the schema version, a
    constant, is left out. *)

From S2P Require Export RecoveryJobs.
From coqutil Require Export Datatypes.RecordSetters.
Export DoubleBraceUpdate.

#[local] Open Scope Z_scope.

(** ** Field types *)

Inductive read_model := Orders | Questions.
Inductive history_phase := Discover | Hydrate | Verify | Publish | Completed.
Inductive history_cursor := Offset (n : Z) | Scroll (s : string).
Inductive range_state := Pending | Split | Enumerated.
Inductive receipt_kind := Membership | Detail | Exclusion.

#[export] Instance read_model_eq_dec : EqDecision read_model.
Proof. solve_decision. Defined.
#[export] Instance history_phase_eq_dec : EqDecision history_phase.
Proof. solve_decision. Defined.
#[export] Instance history_cursor_eq_dec : EqDecision history_cursor.
Proof. solve_decision. Defined.
#[export] Instance range_state_eq_dec : EqDecision range_state.
Proof. solve_decision. Defined.
#[export] Instance receipt_kind_eq_dec : EqDecision receipt_kind.
Proof. solve_decision. Defined.

Definition model_name (m : read_model) : string := match m with Orders => "orders" | Questions => "questions" end.
Definition kind_name (k : receipt_kind) : string :=
  match k with Membership => "membership" | Detail => "detail" | Exclusion => "exclusion" end.

(** [NonEmptyText]: a character that is not a space. *)
Definition text_ok (s : string) : bool := negb (blank s).
Definition opt_ok {A} (p : A -> bool) (o : option A) : bool := match o with Some x => p x | None => true end.
(** [re.fullmatch(r"orders:[0-9]{8}:[0-9]{8}", s)]. *)
Definition orders_scope (s : string) : bool :=
  match split_char ":" s with
  | [w; a; b] => String.eqb w "orders" && Nat.eqb (String.length a) 8 && Nat.eqb (String.length b) 8 && digits1 a && digits1 b
  | _ => false
  end.

(** ** The head of an acquisition *)

Record SheetsHistoryAcquisition := {
  h_id : string;
  h_seller_id : string;
  h_plan_id : string;
  h_scope_id : string;
  h_job_id : string;
  h_read_model : read_model;
  h_date_from : Z;
  h_date_to : Z;
  h_generation : Z;
  h_pass_number : Z;
  h_checkpoint_revision : Z;
  h_page_sequence : Z;
  h_phase : history_phase;
  h_next_cursor : option history_cursor;
  h_active_range_id : option string;
  h_source_total : option Z;
  h_discovered_count : Z;
  h_fetched_count : Z;
  h_published_count : Z;
  h_drift_restarts : Z;
  h_publish_after : option string;
  h_observed_from : option Z;
  h_observed_until : option Z;
  h_created_at : Z;
  h_updated_at : Z;
}.
#[export] Instance acquisition_eq_dec : EqDecision SheetsHistoryAcquisition.
Proof. solve_decision. Defined.

Definition cursor_ok (c : history_cursor) : bool := match c with Offset n => 0 <=? n | Scroll s => text_ok s end.
Definition is_offset (o : option history_cursor) : bool := match o with Some (Scroll _) => false | _ => true end.
Definition is_scroll (o : option history_cursor) : bool := match o with Some (Offset _) => false | _ => true end.

Definition acquisition_fields_ok (h : SheetsHistoryAcquisition) : bool :=
  forallb text_ok [h_id h; h_plan_id h; h_scope_id h; h_job_id h] && digits1 (h_seller_id h)
  && (1 <=? h_generation h) && (1 <=? h_pass_number h)
  && forallb (Z.leb 0) [h_checkpoint_revision h; h_page_sequence h; h_discovered_count h; h_fetched_count h; h_published_count h]
  && opt_ok cursor_ok (h_next_cursor h) && opt_ok text_ok (h_active_range_id h) && opt_ok (Z.leb 0) (h_source_total h)
  && (0 <=? h_drift_restarts h) && (h_drift_restarts h <=? 3) && opt_ok text_ok (h_publish_after h).

(** [_validate_contract], on the constrained fields. *)
Definition validate_acquisition (h : SheetsHistoryAcquisition) : result SheetsHistoryAcquisition :=
  if negb (acquisition_fields_ok h) then invalid_model "field constraint"
  else if h_date_to h <=? h_date_from h then invalid_model "history bounds must be positive"
  else
    let! _ :=
      match h_read_model h with
      | Orders =>
          if negb (orders_scope (h_scope_id h)) then invalid_model "orders require a monthly chunk identity"
          else if 90 * day <? h_date_to h - h_date_from h then invalid_model "order intervals cannot exceed 90 days"
          else if negb (is_offset (h_next_cursor h)) then invalid_model "order cursor must be an offset"
          else Ok tt
      | Questions =>
          if negb (String.eqb (h_scope_id h) "seller_scan") || negb (is_scroll (h_next_cursor h))
          then invalid_model "questions require seller_scan scope and a scan cursor" else Ok tt
      end in
    if h_updated_at h <? h_created_at h then invalid_model "updated_at must not precede created_at"
    else if negb (Bool.eqb (is_some (h_observed_from h)) (is_some (h_observed_until h)))
    then invalid_model "observation bounds must be supplied together"
    else if match h_observed_from h, h_observed_until h with Some a, Some b => b <? a | _, _ => false end
    then invalid_model "observation bounds must be ordered"
    else if negb ((h_published_count h <=? h_fetched_count h) && (h_fetched_count h <=? h_discovered_count h))
    then invalid_model "publication and fetch counts cannot exceed their prerequisites"
    else if negb (Bool.eqb (h_published_count h =? 0) (negb (is_some (h_publish_after h))))
    then invalid_model "publication checkpoint must correspond to publication progress"
    else if bool_decide (h_phase h = Completed) &&
            (negb (is_some (h_observed_from h)) || negb (is_some (h_source_total h)) || is_some (h_next_cursor h)
             || negb (h_published_count h =? h_fetched_count h))
    then invalid_model "completed acquisition requires final local bookkeeping"
    else Ok h.

(** ** Ranges *)

Record SheetsHistoryOrderRange := {
  o_id : string;
  o_acquisition_id : string;
  o_seller_id : string;
  o_generation : Z;
  o_pass_number : Z;
  o_node : OrderRangeNode;
  o_state : range_state;
  o_source_total : option Z;
  o_next_offset : Z;
}.

Definition validate_range (o : SheetsHistoryOrderRange) : result SheetsHistoryOrderRange :=
  let n := o_node o in
  if negb (forallb text_ok [o_id o; o_acquisition_id o; node_id n; root_id n] && digits1 (o_seller_id o)
           && (1 <=? o_generation o) && (1 <=? o_pass_number o) && opt_ok text_ok (parent_id n)
           && (0 <=? depth n) && (depth n <=? 12) && opt_ok (Z.leb 0) (o_source_total o) && (0 <=? o_next_offset o))
  then invalid_model "field constraint"
  else if negb ((0 <? date_to n - date_from n) && (date_to n - date_from n <=? 90 * day))
  then invalid_model "range requires positive bounds of at most 90 days"
  else if negb (Bool.eqb (depth n =? 0) (negb (is_some (parent_id n)))) then invalid_model "depth and parent linkage disagree"
  else if (depth n =? 0) && negb (String.eqb (node_id n) (root_id n)) then invalid_model "root identity must identify the root node"
  else if bool_decide (parent_id n = Some (node_id n)) then invalid_model "range cannot parent itself"
  else
    let! _ :=
      match o_source_total o with
      | None =>
          if negb (o_next_offset o =? 0) || negb (bool_decide (o_state o = Pending))
          then invalid_model "unobserved range must be pending with zero offset" else Ok tt
      | Some total => if total <? o_next_offset o then invalid_model "offset exceeds observed total" else Ok tt
      end in
    if bool_decide (o_state o = Split) && (negb (o_next_offset o =? 0) || bool_decide (o_source_total o = Some 0))
    then invalid_model "split requires positive source total and zero offset"
    else if bool_decide (o_state o = Enumerated) && negb (bool_decide (o_source_total o = Some (o_next_offset o)))
    then invalid_model "enumerated range must reach its observed total"
    else Ok o.

(** ** Receipts *)

Record SheetsHistoryReceipt := {
  r_id : string;
  r_acquisition_id : string;
  r_seller_id : string;
  r_read_model : read_model;
  r_generation : Z;
  r_pass_number : Z;
  r_page_sequence : Z;
  r_kind : receipt_kind;
  r_resource_id : string;
  r_observed_at : Z;
  r_source_version : option string;
  r_source_hash : option string;
  r_source_payload : option doc;
  r_payload_hash : option string;
  r_payload : option doc;
  r_unavailable_fields : list string;
  r_exclusion_reason : option string;
}.

Definition empty_doc (d : doc) : bool := Nat.eqb (size d) 0.
(** [not payload]. *)
Definition no_doc (o : option doc) : bool := match o with Some d => empty_doc d | None => true end.

Definition validate_receipt (r : SheetsHistoryReceipt) : result SheetsHistoryReceipt :=
  if negb (forallb text_ok [r_id r; r_acquisition_id r; r_resource_id r] && digits1 (r_seller_id r)
           && (1 <=? r_generation r) && (1 <=? r_pass_number r) && (0 <=? r_page_sequence r)
           && opt_ok text_ok (r_source_version r) && opt_ok hex64 (r_source_hash r) && opt_ok hex64 (r_payload_hash r)
           && forallb text_ok (r_unavailable_fields r) && opt_ok text_ok (r_exclusion_reason r))
  then invalid_model "field constraint"
  else if is_some (r_source_payload r) && (no_doc (r_source_payload r) || negb (is_some (r_source_hash r)))
  then invalid_model "source evidence requires a nonempty payload and source hash"
  else if negb (bool_decide (NoDup (r_unavailable_fields r))) then invalid_model "unavailable fields must be unique"
  else
    match r_kind r with
    | Detail =>
        if no_doc (r_payload r) || negb (is_some (r_payload_hash r)) then invalid_model "detail requires a nonempty payload and payload hash"
        else if is_some (r_exclusion_reason r) then invalid_model "detail cannot also be an exclusion"
        else Ok r
    | k =>
        if is_some (r_payload r) || is_some (r_payload_hash r) || negb (is_nil (r_unavailable_fields r))
        then invalid_model "membership and exclusion cannot carry detail fields"
        else if negb (Bool.eqb (bool_decide (k = Exclusion)) (is_some (r_exclusion_reason r)))
        then invalid_model "only exclusion requires an exclusion reason"
        else Ok r
    end.

(** ** Through BSON *)

(** The length of an encoded document: [len(BSON.encode(model.model_dump(by_alias=True)))]. *)
Class BsonLength := {
  acquisition_length : SheetsHistoryAcquisition -> Z;
  range_length : SheetsHistoryOrderRange -> Z;
  receipt_length : SheetsHistoryReceipt -> Z;
}.

(** [_safe]: the keys of a payload and its nesting.  A payload holds no floats. *)
Definition safe_key (k : string) : bool :=
  negb (startswith "$" k) && string_forallb (fun c => negb (Ascii.eqb c "." || Ascii.eqb c "000")) k.
Fixpoint _safe (v : val) (levels : nat) : result unit :=
  match levels with
  | O => limit_error "receipt nesting exceeds local budget"
  | S levels =>
      match v with
      | VDict d =>
          map_fold (fun k x acc =>
            let! _ := acc in if safe_key k then _safe x levels else raise_value "unsafe BSON field name") (Ok tt) d
      | VList l => foldl (fun acc x => let! _ := acc in _safe x levels) (Ok tt) l
      | _ => Ok tt
      end
  end.
(** The payload is one level below the document, which allows 64 more. *)
Definition safe_payload (o : option doc) : result unit := match o with Some d => _safe (VDict d) 64 | None => Ok tt end.

(** Integers BSON can hold, and dates to the millisecond. *)
Definition acquisition_ints_ok (h : SheetsHistoryAcquisition) : bool :=
  forallb int64_ok [h_generation h; h_pass_number h; h_checkpoint_revision h; h_page_sequence h; h_discovered_count h;
                    h_fetched_count h; h_published_count h]
  && opt_ok int64_ok (h_source_total h) && match h_next_cursor h with Some (Offset n) => int64_ok n | _ => true end.
Definition unserializable {A} : result A := raise_value "receipt is not BSON serializable".
Definition too_long {A} : result A := limit_error "whole document exceeds local byte budget".

Definition bson_acquisition (h : SheetsHistoryAcquisition) : SheetsHistoryAcquisition :=
  h {{ h_date_from ::= floor_ms; h_date_to ::= floor_ms; h_created_at ::= floor_ms; h_updated_at ::= floor_ms;
       h_observed_from ::= option_map floor_ms; h_observed_until ::= option_map floor_ms }}.
Definition bson_node (n : OrderRangeNode) : OrderRangeNode :=
  n {{ date_from ::= floor_ms; date_to ::= floor_ms }}.
Definition bson_range (o : SheetsHistoryOrderRange) : SheetsHistoryOrderRange := o {{ o_node ::= bson_node }}.
Definition bson_payload (o : option doc) : option doc := option_map (fun d => decode_doc true (encode_doc d)) o.
Definition bson_receipt (r : SheetsHistoryReceipt) : SheetsHistoryReceipt :=
  r {{ r_observed_at ::= floor_ms; r_source_payload ::= bson_payload; r_payload ::= bson_payload }}.

(** A payload whose integers do not fit is not serializable. *)
Fixpoint bson_ints_ok (v : val) : bool :=
  match v with
  | VInt z => int64_ok z
  | VList l => forallb bson_ints_ok l
  | VDict d => map_fold (fun _ x ok => ok && bson_ints_ok x) true d
  | _ => true
  end.
Definition payload_ints_ok (o : option doc) : bool := opt_ok (fun d => bson_ints_ok (VDict d)) o.

Section Documents.
Context `{BsonLength}.

(** [_document], for each of the models. *)
Definition acquisition_document (h : SheetsHistoryAcquisition) (limit : Z) : result SheetsHistoryAcquisition :=
  if negb (acquisition_ints_ok h) then unserializable
  else if limit <? acquisition_length h then too_long else Ok (bson_acquisition h).
Definition range_document (o : SheetsHistoryOrderRange) (limit : Z) : result SheetsHistoryOrderRange :=
  if negb (int64_ok (o_generation o) && int64_ok (o_pass_number o) && int64_ok (o_next_offset o) && opt_ok int64_ok (o_source_total o))
  then unserializable
  else if limit <? range_length o then too_long else Ok (bson_range o).
Definition receipt_document (r : SheetsHistoryReceipt) (limit : Z) : result SheetsHistoryReceipt :=
  let! _ := safe_payload (r_source_payload r) in
  let! _ := safe_payload (r_payload r) in
  if negb (int64_ok (r_generation r) && int64_ok (r_pass_number r) && int64_ok (r_page_sequence r)
           && payload_ints_ok (r_source_payload r) && payload_ints_ok (r_payload r))
  then unserializable
  else if limit <? receipt_length r then too_long else Ok (bson_receipt r).

(** [_head]. *)
Definition _head (h : SheetsHistoryAcquisition) : result SheetsHistoryAcquisition :=
  let! validated := validate_acquisition h in
  let! document := acquisition_document validated (64 * 1024) in
  validate_acquisition document.
End Documents.
