(* ===== verification/Transactions.v ===== *)
(** Transactions and visits of a shared store.

    A transaction is a function of the store, [stx]: it commits its result or,
    raising, leaves the store as it was.  MongoDB makes two transactions that
    write one document conflict, so the transactions of the modelled components,
    which all start by writing one, are serialized; a single call is atomic.

    A step of a worker, [sact], visits the store several times.  Between two
    visits the other processes commit what they like, and a visit may fail
    before or after its commit; the driver runs the callback of a transaction
    again after a transient error. *)

From S2P Require Export Mongo.

#[local] Open Scope Z_scope.

(** ** Transactions *)

(** [n]: the clock readings made so far. *)
Definition stx (St A : Type) : Type := nat -> St -> result (A * nat * St).
Definition tx_ret {St A} (a : A) : stx St A := fun n s => Ok (a, n, s).
Definition tx_fail {St A} (e : exn) : stx St A := fun _ _ => Err e.
Definition tx_bind {St A B} (t : stx St A) (k : A -> stx St B) : stx St B := fun n s =>
  match t n s with Ok (a, n, s) => k a n s | Err e => Err e end.
Definition tx_lift {St A} (r : result A) : stx St A := fun n s => match r with Ok a => Ok (a, n, s) | Err e => Err e end.
Definition tx_get {St} : stx St St := fun n s => Ok (s, n, s).
Definition tx_now {St} (clock : nat -> Z) : stx St Z := fun n s => Ok (clock n, S n, s).
Definition tx_put {St} (s : St) : stx St unit := fun n _ => Ok (tt, n, s).

Declare Scope tx_scope.
Delimit Scope tx_scope with tx.
Notation "'let&' x ':=' p 'in' k" := (tx_bind p (fun x => k))
  (at level 10, x name, p at level 100, k at level 200) : tx_scope.
Notation "'let&' ' x ':=' p 'in' k" := (tx_bind p (fun x => k))
  (at level 10, x strict pattern, p at level 100, k at level 200) : tx_scope.
Notation "'do&' p 'in' k" := (tx_bind p (fun _ => k))
  (at level 10, p at level 100, k at level 200) : tx_scope.
Notation "'check&' b 'else' e 'in' k" := (if b then k else tx_fail e)
  (at level 10, b at level 100, e at level 100, k at level 200) : tx_scope.
Open Scope tx_scope.


(** ** Visits *)

Record sworld (St : Type) := { w_store : St; w_turn : nat }.
Arguments w_store {St}.
Arguments w_turn {St}.
Arguments Build_sworld {St}.

Definition sact (St A : Type) : Type := sworld St -> result A * sworld St.
Definition act_ret {St A} (a : A) : sact St A := fun w => (Ok a, w).
Definition act_fail {St A} (e : exn) : sact St A := fun w => (Err e, w).
Definition act_lift {St A} (r : result A) : sact St A := fun w => (r, w).
Definition act_bind {St A B} (p : sact St A) (k : A -> sact St B) : sact St B := fun w =>
  let '(r, w) := p w in match r with Ok a => k a w | Err e => (Err e, w) end.
Definition act_try {St A} (p : sact St A) (handler : exn -> sact St A) : sact St A := fun w =>
  let '(r, w) := p w in match r with Ok a => (Ok a, w) | Err e => handler e w end.

Declare Scope act_scope.
Delimit Scope act_scope with act.
Notation "'let~' x ':=' p 'in' k" := (act_bind p (fun x => k))
  (at level 10, x name, p at level 100, k at level 200) : act_scope.
Notation "'do~' p 'in' k" := (act_bind p (fun _ => k))
  (at level 10, p at level 100, k at level 200) : act_scope.
Notation "'check~' b 'else' e 'in' k" := (if b then k else act_fail e)
  (at level 10, b at level 100, e at level 100, k at level 200) : act_scope.
Open Scope act_scope.

(** How a visit ends: as the transaction does; with an exception although
    nothing, or everything, was committed; or with its writes dropped and the
    callback run again. *)
Inductive fault := NoFault | Aborted (e : exn) | CommittedThen (e : exn) | Retried (f : fault).

Class Surrounding (St : Type) := {
  others : nat -> St -> St;     (* what others commit before the n-th visit *)
  faults : nat -> fault;
  readings : nat -> nat -> Z;         (* the clock: of a visit, and within it *)
}.

Section Visits.
Context {St : Type} `{Surrounding St}.

(** A transaction whose callback keeps a variable [l] of the caller. *)
Fixpoint visit_keeping {A L} (f : fault) (t : (nat -> Z) -> L -> stx St (A * L)) (l : L) : sact St (A * L) := fun w =>
  let n := w_turn w in
  let s := others n (w_store w) in
  match f with
  | Aborted e => (Err e, {| w_store := s; w_turn := S n |})
  | _ =>
      match t (readings n) l O s with
      | Err e => (Err e, {| w_store := s; w_turn := S n |})
      | Ok ((a, l'), _, s') =>
          match f with
          | Retried f' => visit_keeping f' t l' {| w_store := s; w_turn := S n |}
          | CommittedThen e => (Err e, {| w_store := s'; w_turn := S n |})
          | _ => (Ok (a, l'), {| w_store := s'; w_turn := S n |})
          end
      end
  end.
Definition visit {A} (t : (nat -> Z) -> stx St A) : sact St A := fun w =>
  let '(r, w') := visit_keeping (faults (w_turn w)) (fun clock (_ : unit) => let& a := t clock in tx_ret (a, tt)) tt w in
  (match r with Ok (a, _) => Ok a | Err e => Err e end, w').
(** [now()]. *)
Definition act_now : sact St Z := fun w => (Ok (readings (w_turn w) O), {| w_store := w_store w; w_turn := S (w_turn w) |}).

(** A read outside any transaction. *)
Definition read_store {A} (f : St -> A) : sact St A := visit (fun _ => let& s := tx_get in tx_ret (f s)).
(** An exchange with a service. *)
Definition fetched {A} (f : nat -> result A) : sact St A := fun w => (f (w_turn w), {| w_store := w_store w; w_turn := S (w_turn w) |}).
End Visits.

(** Reasoning about transactions and visits: what a committed transaction
    ensures, and what a step made of visits keeps - an invariant of the store
    that each visit keeps, and that the other processes keep, holds after the
    step, however it ends and wherever a visit fails. *)

(** ** Committed transactions *)

(** [Q] holds of every result [t] commits from [s]. *)
Definition twp {St A} (t : stx St A) (Q : A -> St -> Prop) (s : St) : Prop :=
  forall n a n' s', t n s = Ok (a, n', s') -> Q a s'.

Section Rules.
Context {St A B : Type}.
Implicit Types (s : St).

Lemma twp_mono (t : stx St A) (Q R : A -> St -> Prop) s : twp t Q s -> (forall a s', Q a s' -> R a s') -> twp t R s.
Proof. intros Ht HQ n a n' s' Hr. eapply HQ, Ht, Hr. Qed.
Lemma twp_ret (a : A) Q s : Q a s -> twp (tx_ret a) Q s.
Proof. by intros HQ n b n' s' [= <- <- <-]. Qed.
Lemma twp_fail e (Q : A -> St -> Prop) s : twp (tx_fail e) Q s.
Proof. by intros n b n' s' [=]. Qed.
Lemma twp_bind (t : stx St A) (k : A -> stx St B) Q s : twp t (fun a s' => twp (k a) Q s') s -> twp (tx_bind t k) Q s.
Proof.
  intros Ht n b n' s' Hr. unfold tx_bind in Hr. destruct (t n s) as [[[a m] s1]|] eqn:E; [|done]. exact (Ht _ _ _ _ E _ _ _ _ Hr).
Qed.
Lemma twp_lift (r : result A) Q s : (forall a, r = Ok a -> Q a s) -> twp (tx_lift r) Q s.
Proof. intros HQ n b n' s' Hr. unfold tx_lift in Hr. destruct r; [|done]. simplify_eq. by apply HQ. Qed.
Lemma twp_get Q s : Q s s -> twp tx_get Q s.
Proof. by intros HQ n b n' s' [= <- <- <-]. Qed.
Lemma twp_put s1 Q s : Q tt s1 -> twp (tx_put s1) Q s.
Proof. by intros HQ n [] n' s' [= <- <-]. Qed.
Lemma twp_now clock Q s : (forall t, Q t s) -> twp (tx_now clock) Q s.
Proof. by intros HQ n b n' s' [= <- <- <-]. Qed.
End Rules.

(** Step through a transaction; [check&] and other tests split the goal. *)
Ltac tx_step :=
  match goal with
  | |- twp (tx_bind tx_get _) _ _ => apply twp_bind, twp_get
  | |- twp (tx_bind (tx_put _) _) _ _ => apply twp_bind, twp_put
  | |- twp (tx_bind (tx_now _) _) _ _ => apply twp_bind, twp_now; intros ?
  | |- twp (tx_bind (tx_lift _) _) _ _ => apply twp_bind, twp_lift; intros ? ?
  | |- twp (tx_bind (tx_ret _) _) _ _ => apply twp_bind, twp_ret
  | |- twp (tx_ret _) _ _ => apply twp_ret
  | |- twp (tx_put _) _ _ => apply twp_put
  | |- twp (tx_lift _) _ _ => apply twp_lift; intros ? ?
  | |- twp (tx_fail _) _ _ => apply twp_fail
  | |- twp (tx_bind (tx_fail _) _) _ _ => apply twp_bind, twp_fail
  | |- twp (if ?b then _ else tx_fail _) _ _ => let E := fresh "E" in destruct b eqn:E; [|apply twp_fail]
  | |- twp (tx_bind (if ?b then _ else tx_fail _) _) _ _ => let E := fresh "E" in destruct b eqn:E; [|apply twp_bind, twp_fail]
  | |- twp (tx_bind (tx_bind _ _) _) _ _ => apply twp_bind
  end.

(** Use what is known of the first part. *)
Ltac tx_use L := apply twp_bind; eapply twp_mono; [eapply L|cbv beta].

(** ** What a step keeps *)

Section Keeps.
Context {St : Type} `{Surrounding St}.
Variable I : St -> Prop.

(** Whatever it returns, from a store that meets [I] it leaves such a store. *)
Definition keeps {A} (p : sact St A) : Prop := forall w r w', I (w_store w) -> p w = (r, w') -> I (w_store w').

Lemma keeps_ret {A} (a : A) : keeps (act_ret a).
Proof using Type. by intros w r w' Hr [= <- <-]. Qed.
Lemma keeps_fail {A} x : keeps (act_fail x : sact St A).
Proof using Type. by intros w r w' Hr [= <- <-]. Qed.
Lemma keeps_lift {A} (x : result A) : keeps (act_lift x).
Proof using Type. by intros w r w' Hr [= <- <-]. Qed.
Lemma keeps_pure {A} (f : sworld St -> result A) : keeps (fun w => (f w, w)).
Proof using Type. by intros w r w' Hr [= <- <-]. Qed.
Lemma keeps_now : keeps act_now.
Proof using Type. by intros w r w' Hr [= <- <-]. Qed.
Lemma keeps_fetched {A} (f : nat -> result A) : keeps (fetched f).
Proof using Type. by intros w r w' Hr [= <- <-]. Qed.
Lemma keeps_bind {A B} (p : sact St A) (k : A -> sact St B) : keeps p -> (forall a, keeps (k a)) -> keeps (act_bind p k).
Proof using Type.
  intros Hp Hk w r w' Hr Hrun. unfold act_bind in Hrun. destruct (p w) as [[a|e] w1] eqn:E; [by eapply Hk, Hrun; eapply Hp|].
  injection Hrun as <- <-. by eapply Hp.
Qed.
(** The rest of a step after a value computed. *)
Lemma keeps_lifted {A B} (x : result A) (k : A -> sact St B) : (forall a, x = Ok a -> keeps (k a)) -> keeps (act_bind (act_lift x) k).
Proof using Type. intros Hk w r w' Hr Hrun. unfold act_bind, act_lift in Hrun. destruct x; [by eapply Hk|]. by injection Hrun as <- <-. Qed.
Lemma keeps_try {A} (p : sact St A) h : keeps p -> (forall e, keeps (h e)) -> keeps (act_try p h).
Proof using Type.
  intros Hp Hk w r w' Hr Hrun. unfold act_try in Hrun. destruct (p w) as [[a|e] w1] eqn:E; [|by eapply Hk, Hrun; eapply Hp].
  injection Hrun as <- <-. by eapply Hp.
Qed.

Hypothesis others_keep : forall n s, I s -> I (others n s).

(** [P] holds of the caller's variable between the runs of the callback. *)
Lemma keeps_visit_keeping {A L} (P : L -> Prop) f (t : (nat -> Z) -> L -> stx St (A * L)) :
  (forall clock l s, I s -> P l -> twp (t clock l) (fun al s' => I s' /\ P al.2) s) -> forall l, P l -> keeps (visit_keeping f t l).
Proof using others_keep.
  intros Ht. induction f as [| | |f IH]; intros l Hl w r w' Hr Hrun; cbn [visit_keeping] in Hrun; pose proof (others_keep (w_turn w) _ Hr) as Ho;
    try (injection Hrun as <- <-; exact Ho);
    (destruct (t _ l 0%nat _) as [[[[a l'] n] s1]|x] eqn:E; [|injection Hrun as <- <-; exact Ho]);
    destruct (Ht _ _ _ Ho Hl _ _ _ _ E) as [Hs1 Hl']; try (injection Hrun as <- <-; exact Hs1).
  by eapply (IH l'), Hrun.
Qed.
Lemma keeps_visit {A} (t : (nat -> Z) -> stx St A) : (forall clock s, I s -> twp (t clock) (fun _ s' => I s') s) -> keeps (visit t).
Proof using others_keep.
  intros Ht w r w' Hr Hrun. unfold visit in Hrun.
  destruct (visit_keeping _ _ _ w) as [r1 w1] eqn:E. injection Hrun as <- <-. eapply (keeps_visit_keeping (fun _ => True)), E; [|done|exact Hr].
  intros clock l s Hs _. apply twp_bind. eapply twp_mono; [by apply Ht|]. intros a s' Hs'. by apply twp_ret.
Qed.
Lemma keeps_reading {A} (f : St -> A) : keeps (read_store f).
Proof using others_keep. unfold read_store. apply keeps_visit. intros clock s Hs. by repeat tx_step. Qed.
End Keeps.

Ltac keeps_step :=
  first [apply keeps_ret|apply keeps_fail|apply keeps_lift|apply keeps_pure|apply keeps_now|apply keeps_fetched
        |apply keeps_bind; [|intros ?]].
