(* ===== verification/HistoryStore.v ===== *)
(** The staging store of a history acquisition: [HistoryAcquisitionStore] of
    modules/sheets/.../history_acquisition.py and [HistoryContinuation] of
    history_continuation.py.

    Each operation is one MongoDB transaction ([session.with_transaction]) that
    starts by writing the job document ([_fence]), so MongoDB's write conflicts
    serialize the transactions of a job; a transaction is a function of the
    store that commits its result or, raising, leaves the store as it was.  The
    three collections hold validated models only, and are modelled as maps of
    them; the jobs, which other code writes too, are documents. *)

From S2P Require Export HistoryModels Transactions.

#[local] Open Scope Z_scope.

(** ** Transactions *)

Record store := {
  st_jobs : gmap string doc;
  st_heads : gmap string SheetsHistoryAcquisition;
  st_receipts : gmap string SheetsHistoryReceipt;
  st_ranges : gmap string SheetsHistoryOrderRange;
}.

Definition with_jobs f (s : store) : store :=
  {| st_jobs := f (st_jobs s); st_heads := st_heads s; st_receipts := st_receipts s; st_ranges := st_ranges s |}.
Definition with_heads f (s : store) : store :=
  {| st_jobs := st_jobs s; st_heads := f (st_heads s); st_receipts := st_receipts s; st_ranges := st_ranges s |}.
Definition with_receipts f (s : store) : store :=
  {| st_jobs := st_jobs s; st_heads := st_heads s; st_receipts := f (st_receipts s); st_ranges := st_ranges s |}.
Definition with_ranges f (s : store) : store :=
  {| st_jobs := st_jobs s; st_heads := st_heads s; st_receipts := st_receipts s; st_ranges := f (st_ranges s) |}.

Abbreviation tx := (stx store).

Definition conflict (msg : string) : exn := mk_exn "HistoryConflictError" msg.
Definition over_limit (msg : string) : exn := mk_exn "HistoryLimitError" msg.
Definition duplicate_doc : exn := mk_exn "DuplicateKeyError" "E11000 duplicate key error".

(** [sha256(BSON.encode(_ordered(item))).hexdigest()]. *)
Class ItemFingerprint := item_source_fingerprint : doc -> string.
(** The secondary unique indexes of the deployment: may this document be
    inserted? *)
Class HistoryIndexes := {
  head_unique : gmap string SheetsHistoryAcquisition -> SheetsHistoryAcquisition -> bool;
  receipt_unique : gmap string SheetsHistoryReceipt -> SheetsHistoryReceipt -> bool;
  range_unique : gmap string SheetsHistoryOrderRange -> SheetsHistoryOrderRange -> bool;
}.

(** The documents of a collection that meet a test, and their number. *)
Definition found {A} (p : A -> bool) (m : gmap string A) : list A :=
  List.filter p (map_to_list m).*2.
Definition find_first {A} (p : A -> bool) (m : gmap string A) : option A := head (found p m).
Definition count {A} (p : A -> bool) (m : gmap string A) : Z := Z.of_nat (length (found p m)).

Section Store.
Context `{PyRepr} `{BsonLength} `{ItemFingerprint} `{HistoryIndexes}.
Variable clock : nat -> Z.
Variable enabled_models : list string.
Variable allowed_sellers : option (list string).

Abbreviation tx_now := (tx_now clock).

(** [update_one] of a job under a filter that fixes its [_id]: the matched count. *)
Definition update_job (i : string) (f : filter) (ops : list upd) : tx Z :=
  let& s := tx_get in
  match st_jobs s !! i with
  | None => tx_ret 0
  | Some d =>
      if matches 0 f d then
        match apply_upds 0 false ops d with
        | Some d' => do& tx_put (with_jobs (insert i d') s) in tx_ret 1
        | None => tx_fail (mk_exn "WriteError" "write rejected")
        end
      else tx_ret 0
  end.

(** ** The fence *)

(** The owned job of the head's acquisition. *)
Definition fence_filter (owned : filter) (head : SheetsHistoryAcquisition) : filter :=
  FAnd [owned; FEq ["seller_id"] (VStr (h_seller_id head)); FEq ["read_model"] (VStr (model_name (h_read_model head)));
        FEq ["date_from"] (VDate true (h_date_from head)); FEq ["date_to"] (VDate true (h_date_to head))]%string.

Definition _fence (job : doc) (head : SheetsHistoryAcquisition) : tx unit :=
  let model := model_name (h_read_model head) in
  check& string_in model enabled_models && opt_ok (string_in (h_seller_id head)) allowed_sellers
    else conflict "history recovery is disabled for this seller or resource" in
  check& py_eq (doc_get job "seller_id") (VStr (h_seller_id head)) && py_eq (doc_get job "read_model") (VStr model)
    else conflict "job identity does not match acquisition" in
  check& py_eq (doc_get job "_id") (VStr (h_job_id head)) else conflict "job does not own acquisition" in
  let& now := tx_now in
  let& owned := tx_lift (_owned job now) in
  let& matched := update_job (h_job_id head) (fence_filter owned head) [UInc ["history_fence_revision"%string] 1] in
  check& matched =? 1 else conflict "history recovery lease lost" in tx_ret tt.

(** ** Heads *)

(** [HEAD_IDENTITY]. *)
Definition same_identity (a b : SheetsHistoryAcquisition) : bool :=
  bool_decide (h_id a = h_id b) && bool_decide (h_seller_id a = h_seller_id b) && bool_decide (h_read_model a = h_read_model b)
  && bool_decide (h_plan_id a = h_plan_id b) && bool_decide (h_scope_id a = h_scope_id b) && bool_decide (h_job_id a = h_job_id b)
  && bool_decide (h_date_from a = h_date_from b) && bool_decide (h_date_to a = h_date_to b)
  && bool_decide (h_created_at a = h_created_at b).
Definition same_pass (a b : SheetsHistoryAcquisition) : bool :=
  bool_decide (h_generation a = h_generation b) && bool_decide (h_pass_number a = h_pass_number b).

Definition read_head (i : string) : tx (option SheetsHistoryAcquisition) :=
  let& s := tx_get in
  match st_heads s !! i with
  | None => tx_ret None
  | Some h => let& h := tx_lift (validate_acquisition h) in tx_ret (Some h)
  end.

(** [replace_one({"_id", "generation", "checkpoint_revision"}, saved)]. *)
Definition replace_head (expected saved : SheetsHistoryAcquisition) (msg : string) : tx unit :=
  let& s := tx_get in
  match st_heads s !! h_id expected with
  | Some h =>
      check& (h_generation h =? h_generation expected) && (h_checkpoint_revision h =? h_checkpoint_revision expected)
        else conflict msg in
      tx_put (with_heads (insert (h_id expected) saved) s)
  | None => tx_fail (conflict msg)
  end.

Definition untouched (h : SheetsHistoryAcquisition) : bool :=
  bool_decide (h_phase h = Discover) && (h_checkpoint_revision h =? 0) && (h_page_sequence h =? 0) && (h_discovered_count h =? 0)
  && (h_fetched_count h =? 0) && (h_published_count h =? 0) && (h_generation h =? 1) && (h_pass_number h =? 1)
  && negb (is_some (h_next_cursor h)).

Definition initialize (job : doc) (initial : SheetsHistoryAcquisition) : tx SheetsHistoryAcquisition :=
  let& initial := tx_lift (_head initial) in
  check& untouched initial else conflict "initial acquisition must have no staging progress" in
  do& _fence job initial in
  let& s := tx_get in
  let& stored :=
    match st_heads s !! h_id initial with
    | Some h => tx_ret h
    | None =>
        check& head_unique (st_heads s) initial else conflict "acquisition scope already has another identity" in
        do& tx_put (with_heads (insert (h_id initial) initial) s) in tx_ret initial
    end in
  check& same_identity stored initial else conflict "acquisition identity changed" in
  do& _fence job initial in
  tx_lift (validate_acquisition stored).

(** ** Receipts *)

Definition same_batch (r : SheetsHistoryReceipt) (h : SheetsHistoryAcquisition) : bool :=
  bool_decide (r_acquisition_id r = h_id h) && bool_decide (r_seller_id r = h_seller_id h)
  && bool_decide (r_read_model r = h_read_model h) && (r_generation r =? h_generation h)
  && (r_pass_number r =? h_pass_number h) && (r_page_sequence r =? h_page_sequence h).

(** [str(payload.get("id"))] and the fingerprint agree with the receipt. *)
Definition identified (payload : doc) (resource_id : string) (hash : option string) : bool :=
  String.eqb (py_str (doc_get payload "id")) resource_id && bool_decide (hash = Some (item_source_fingerprint payload)).
Definition seller_ok (payload : doc) (seller_id : string) : bool :=
  forallb (fun v => is_none v || String.eqb (py_str v) seller_id)
    (doc_get payload "seller_id" :: match doc_get payload "seller" with VDict d => [doc_get d "id"] | _ => [] end).

(** The checks of one receipt of a batch, and its document. *)
Definition check_receipt (after : SheetsHistoryAcquisition) (receipt : SheetsHistoryReceipt) : result SheetsHistoryReceipt :=
  let! validated := validate_receipt receipt in
  let! document := receipt_document validated (1024 * 1024) in
  if negb (same_batch document after) then Err (conflict "receipt does not belong to checkpoint")
  else if negb (opt_ok (fun p => identified p (r_resource_id validated) (r_source_hash validated)) (r_source_payload validated))
  then Err (conflict "source identity or fingerprint mismatch")
  else if negb (opt_ok (fun p => seller_ok p (r_seller_id validated)) (r_source_payload validated))
  then Err (conflict "source seller mismatch")
  else if bool_decide (r_kind validated = Detail) &&
          negb (identified (default ∅ (r_payload validated)) (r_resource_id validated) (r_payload_hash validated))
  then Err (conflict "detail identity or payload fingerprint mismatch")
  else Ok document.
Fixpoint check_receipts (after : SheetsHistoryAcquisition) (receipts : list SheetsHistoryReceipt) : result (list SheetsHistoryReceipt) :=
  match receipts with
  | [] => Ok []
  | r :: receipts => let! d := check_receipt after r in let! ds := check_receipts after receipts in Ok (d :: ds)
  end.

(** [IDENTITY]. *)
Definition same_receipt_identity (a b : SheetsHistoryReceipt) : bool :=
  bool_decide (r_acquisition_id a = r_acquisition_id b) && (r_generation a =? r_generation b)
  && (r_pass_number a =? r_pass_number b) && bool_decide (r_kind a = r_kind b) && bool_decide (r_resource_id a = r_resource_id b).
Fixpoint distinct (rs : list SheetsHistoryReceipt) : bool :=
  match rs with [] => true | r :: rs => negb (existsb (same_receipt_identity r) rs) && distinct rs end.

Definition opt_doc_eq (a b : option doc) : bool :=
  match a, b with Some x, Some y => py_eq (VDict x) (VDict y) | None, None => true | _, _ => false end.
(** All but [_id], [page_sequence] and [observed_at]. *)
Definition _same_receipt (a b : SheetsHistoryReceipt) : bool :=
  same_receipt_identity a b && bool_decide (r_seller_id a = r_seller_id b) && bool_decide (r_read_model a = r_read_model b)
  && bool_decide (r_source_version a = r_source_version b) && bool_decide (r_source_hash a = r_source_hash b)
  && opt_doc_eq (r_source_payload a) (r_source_payload b) && bool_decide (r_payload_hash a = r_payload_hash b)
  && opt_doc_eq (r_payload a) (r_payload b) && bool_decide (r_unavailable_fields a = r_unavailable_fields b)
  && bool_decide (r_exclusion_reason a = r_exclusion_reason b).

(** Stage the receipts that are new: how many memberships and details. *)
Fixpoint stage_receipts (replay : bool) (documents : list SheetsHistoryReceipt) : tx (Z * Z) :=
  match documents with
  | [] => tx_ret (0, 0)
  | document :: documents =>
      let& s := tx_get in
      match find_first (same_receipt_identity document) (st_receipts s) with
      | Some stored =>
          check& _same_receipt stored document else conflict "conflicting source receipt requires drift reconciliation" in
          stage_receipts replay documents
      | None =>
          check& negb replay else conflict "checkpoint replay is missing a receipt" in
          check& negb (bool_decide (r_kind document = Detail)) ||
                 is_some (find_first (same_receipt_identity (document {{ r_kind := Membership }})) (st_receipts s))
            else conflict "detail has no acquired membership" in
          check& negb (is_some (st_receipts s !! r_id document)) && receipt_unique (st_receipts s) document
            else conflict "receipt storage identity collision" in
          do& tx_put (with_receipts (insert (r_id document) document) s) in
          let& ' (discovered, fetched) := stage_receipts replay documents in
          tx_ret (discovered + Z.b2z (bool_decide (r_kind document = Membership)),
                  fetched + Z.b2z (bool_decide (r_kind document = Detail)))
      end
  end.

Definition is_staging (p : history_phase) : bool := match p with Discover | Hydrate | Verify => true | _ => false end.

(** The transition a checkpoint may make, and its batch. *)
Definition staging_step (before after : SheetsHistoryAcquisition) : bool :=
  is_staging (h_phase after) && is_staging (h_phase before)
  && (h_checkpoint_revision after =? h_checkpoint_revision before + 1)
  && (h_page_sequence after =? h_page_sequence before + 1)
  && (h_published_count after =? 0) && (h_published_count before =? 0)
  && (h_drift_restarts after =? h_drift_restarts before) && negb (h_updated_at after <? h_updated_at before)
  && negb (is_some (h_publish_after after)).
Definition is_kind (k : receipt_kind) (r : SheetsHistoryReceipt) : bool := bool_decide (r_kind r = k).
Definition batch_length (before after : SheetsHistoryAcquisition) (documents : list SheetsHistoryReceipt) : Z :=
  acquisition_length before + acquisition_length after + foldr (fun d n => receipt_length d + n) 0 documents.

Definition checkpoint (job : doc) (expected proposed : SheetsHistoryAcquisition) (receipts : list SheetsHistoryReceipt) : tx SheetsHistoryAcquisition :=
  let& before := tx_lift (_head expected) in
  let& after := tx_lift (_head proposed) in
  check& same_identity before after && same_pass before after else conflict "checkpoint cannot change acquisition identity" in
  check& staging_step before after else conflict "invalid staging checkpoint transition" in
  check& Nat.leb (length receipts) 50 && Nat.leb (length (List.filter (is_kind Detail) receipts)) 20
    else over_limit "staging batch exceeds local record budget" in
  let& documents := tx_lift (check_receipts after receipts) in
  check& distinct documents else conflict "batch repeats a receipt identity" in
  check& batch_length before after documents <=? 4 * 1024 * 1024 else over_limit "staging transaction exceeds local byte budget" in
  do& _fence job before in
  let& current := read_head (h_id before) in
  let replay := bool_decide (current = Some after) in
  check& bool_decide (current = Some before) || replay else conflict "stale acquisition checkpoint" in
  let& ' (discovered, fetched) := stage_receipts replay documents in
  do& (if replay then tx_ret tt
       else
         check& (h_discovered_count after =? h_discovered_count before + discovered)
                && (h_fetched_count after =? h_fetched_count before + fetched)
           else conflict "checkpoint counts do not match new receipts" in
         replace_head before after "checkpoint compare-and-swap lost") in
  do& _fence job after in
  tx_ret after.
End Store.

(** Visits of the staging store and the recovery jobs: the instance of
    [Transactions] for [HistoryStore.store]. *)

Abbreviation world := (sworld store).
Abbreviation act := (sact store).
Abbreviation Surroundings := (Surrounding store).

(** The yields of a history acquisition: [HistoryContinuation] of
    modules/sheets/.../history_continuation.py - progress, the passage to
    verification and to publication, and the release of a job - on the staging
    store of [HistoryStore]. *)

Definition _binding (head : SheetsHistoryAcquisition) : list (string * val) :=
  [("history_protocol_version", VInt 1); ("history_acquisition_id", VStr (h_id head)); ("history_generation", VInt (h_generation head));
   ("history_pass_number", VInt (h_pass_number head)); ("history_checkpoint_revision", VInt (h_checkpoint_revision head))]%string.

(** The receipts of the head's pass. *)
Definition in_scope (head : SheetsHistoryAcquisition) (r : SheetsHistoryReceipt) : bool :=
  bool_decide (r_acquisition_id r = h_id head) && (r_generation r =? h_generation head) && (r_pass_number r =? h_pass_number head).
Definition of_kind (head : SheetsHistoryAcquisition) (k : receipt_kind) (r : SheetsHistoryReceipt) : bool :=
  in_scope head r && is_kind k r.

Section Continuation.
Context `{PyRepr} `{BsonLength} `{ItemFingerprint} `{HistoryIndexes}.
Variable clock : nat -> Z.
Variable enabled_models : list string.
Variable allowed_sellers : option (list string).
Abbreviation fence := (_fence clock enabled_models allowed_sellers).
Abbreviation save := (checkpoint clock enabled_models allowed_sellers).

Definition job_id (job : doc) : result string :=
  let! i := doc_at job "_id" in match i with VStr s => Ok s | _ => raise_type "job identity" end.

Definition _current (job : doc) (head : SheetsHistoryAcquisition) : tx doc :=
  do& fence job head in
  check& h_published_count head =? 0 else conflict "continuation cannot withdraw publication progress" in
  let& current := read_head (h_id head) in
  check& bool_decide (current = Some head) && is_staging (h_phase head)
    else conflict "continuation requires the current staging checkpoint" in
  let& i := tx_lift (job_id job) in
  let& s := tx_get in
  match st_jobs s !! i with
  | None => tx_fail (conflict "continuation requires a claimed attempt")
  | Some claimed =>
      let claimed := decode_doc true claimed in
      let& attempts := tx_lift (int_at claimed "attempts") in
      check& 1 <=? attempts else conflict "continuation requires a claimed attempt" in
      check& py_eq (doc_get_or claimed "history_acquisition_id" (VStr (h_id head))) (VStr (h_id head))
        else conflict "queue references another acquisition" in
      check& negb (has_key claimed "history_protocol_version" &&
                   existsb (fun kv => negb (py_eq (doc_get claimed kv.1) kv.2)) (_binding head))
        else conflict "queue references another history checkpoint" in
      tx_ret claimed
  end.

Definition _pending (job : doc) (head : SheetsHistoryAcquisition) (attempts delay : Z) : tx unit :=
  let& now := tx_now clock in
  let& owned := tx_lift (_owned job now) in
  let& i := tx_lift (job_id job) in
  let& matched := update_job i owned
    (map (fun kv => USet [kv.1] kv.2) (_binding head) ++
     [USet ["state"%string] (VStr "pending"); USet ["attempts"%string] (VInt attempts);
      USet ["updated_at"%string] (VDate true now); USet ["available_at"%string] (VDate true (now + delay));
      UUnset ["attempt_token"%string]; UUnset ["lease_until"%string]; UUnset ["failure_reason"%string]]) in
  check& matched =? 1 else conflict "lease lost before continuation yield" in tx_ret tt.

(** Nothing the acquisition acquires has changed. *)
Definition same_progress (a b : SheetsHistoryAcquisition) : bool :=
  bool_decide (h_next_cursor a = h_next_cursor b) && bool_decide (h_phase a = h_phase b)
  && (h_discovered_count a =? h_discovered_count b) && (h_fetched_count a =? h_fetched_count b).

Definition progress (job : doc) (expected proposed : SheetsHistoryAcquisition) (receipts : list SheetsHistoryReceipt) : tx SheetsHistoryAcquisition :=
  let& expected := tx_lift (_head expected) in
  let& proposed := tx_lift (_head proposed) in
  check& negb (same_progress expected proposed) else conflict "a revision alone is not durable acquisition progress" in
  do& _current job expected in
  let& saved := save job expected proposed receipts in
  do& _pending job saved 0 0 in
  tx_ret saved.

(** *** Verification *)

Definition hydrated (h : SheetsHistoryAcquisition) : bool :=
  bool_decide (h_read_model h = Orders) && bool_decide (h_phase h = Hydrate) && negb (is_some (h_next_cursor h))
  && is_some (h_source_total h) && (h_fetched_count h =? h_discovered_count h).
(** The baseline: every receipt is counted and carries its source. *)
Definition baseline_complete (h : SheetsHistoryAcquisition) (receipts : gmap string SheetsHistoryReceipt) : bool :=
  let membership := count (of_kind h Membership) receipts in
  (membership =? h_discovered_count h) && (count (of_kind h Detail) receipts =? h_fetched_count h)
  && bool_decide (h_source_total h = Some (membership + count (of_kind h Exclusion) receipts))
  && negb (is_some (find_first (fun r => in_scope h r && negb (is_some (r_source_payload r))) receipts)).
Definition verification_pass (h : SheetsHistoryAcquisition) (now : Z) : SheetsHistoryAcquisition :=
  h {{ h_pass_number ::= Z.succ; h_active_range_id := None; h_checkpoint_revision ::= Z.succ; h_page_sequence := 0;
       h_phase := Verify; h_next_cursor := Some (Offset 0); h_discovered_count := 0; h_fetched_count := 0; h_updated_at := now }}.

Definition begin_verification (job : doc) (expected : SheetsHistoryAcquisition) : tx SheetsHistoryAcquisition :=
  let& expected := tx_lift (_head expected) in
  check& hydrated expected else conflict "verification requires hydrated enumeration" in
  do& _current job expected in
  let& s := tx_get in
  check& baseline_complete expected (st_receipts s) else conflict "verification baseline lacks source receipts" in
  let& now := tx_now clock in
  let& saved := tx_lift (let! h := validate_acquisition (verification_pass expected now) in _head h) in
  do& replace_head expected saved "verification checkpoint changed" in
  do& fence job saved in
  do& _pending job saved 0 0 in
  tx_ret saved.

(** *** Publication *)

Definition verified (h : SheetsHistoryAcquisition) : bool :=
  bool_decide (h_read_model h = Orders) && bool_decide (h_phase h = Verify) && negb (is_some (h_next_cursor h))
  && negb (is_some (h_active_range_id h)) && is_some (h_source_total h) && is_some (h_observed_from h) && (h_published_count h =? 0).
Definition excluded_as (h : SheetsHistoryAcquisition) (reason : string) (r : SheetsHistoryReceipt) : bool :=
  of_kind h Exclusion r && bool_decide (r_exclusion_reason r = Some reason).
Definition outside_reason : string := "outside_requested_creation_interval".
Definition cancelled_reason : string := "seller_search_omits_source_confirmed_cancelled_order".

(** The manifest: members, those that only the known orders confirm, and the
    orders outside the interval. *)
Definition manifest_counts_ok (h : SheetsHistoryAcquisition) (receipts : gmap string SheetsHistoryReceipt) : bool :=
  let members := count (of_kind h Membership) receipts in
  let outside := count (excluded_as h outside_reason) receipts in
  let cancelled := count (excluded_as h cancelled_reason) receipts in
  (members =? h_discovered_count h) && (count (of_kind h Exclusion) receipts =? outside + cancelled)
  && (cancelled <=? members) && bool_decide (h_source_total h = Some (members - cancelled + outside)).
(** A detail of the order in this pass or the one before it. *)
Definition detail_of (h : SheetsHistoryAcquisition) (resource : string) (r : SheetsHistoryReceipt) : bool :=
  bool_decide (r_acquisition_id r = h_id h) && (r_generation r =? h_generation h)
  && ((r_pass_number r =? h_pass_number h - 1) || (r_pass_number r =? h_pass_number h))
  && is_kind Detail r && bool_decide (r_resource_id r = resource).
Definition lacks_detail (h : SheetsHistoryAcquisition) (receipts : gmap string SheetsHistoryReceipt) (r : SheetsHistoryReceipt) : bool :=
  of_kind h Membership r && negb (is_some (find_first (detail_of h (r_resource_id r)) receipts)).

Definition begin_publication (job : doc) (expected : SheetsHistoryAcquisition) : tx SheetsHistoryAcquisition :=
  let& expected := tx_lift (_head expected) in
  check& verified expected else conflict "publication requires completed order verification" in
  do& _current job expected in
  let& s := tx_get in
  check& manifest_counts_ok expected (st_receipts s) else conflict "verified order manifest count changed" in
  check& negb (is_some (find_first (lacks_detail expected (st_receipts s)) (st_receipts s)))
    else conflict "verified order detail is missing" in
  let& now := tx_now clock in
  let& saved := tx_lift
    (let! h := validate_acquisition
       (expected {{ h_phase := Publish; h_fetched_count := count (of_kind expected Membership) (st_receipts s);
                    h_checkpoint_revision ::= Z.succ; h_updated_at := now }}) in
     _head h) in
  do& replace_head expected saved "publication handoff checkpoint changed" in
  do& _pending job saved 0 0 in
  tx_ret saved.

(** *** Release *)

(** [FormulaRecoveryQueue.finish] within the transaction: an inventory
    checkpoint would write the job outside of it, behind its own lock. *)
Definition finish_in_tx (job : doc) (retryable : bool) (failure_reason : string) : tx bool :=
  let& now := tx_now clock in
  let& plan := tx_lift (finish_change job false retryable failure_reason now) in
  match plan with
  | FinishUpdate ops =>
      let& owned := tx_lift (_owned job now) in
      let& i := tx_lift (job_id job) in
      let& matched := update_job i owned ops in
      tx_ret (matched =? 1)
  | FinishInventory _ _ => tx_fail (mk_exn "OperationFailure" "WriteConflict")
  end.

Definition restart_pass (h : SheetsHistoryAcquisition) (now : Z) : SheetsHistoryAcquisition :=
  h {{ h_pass_number ::= Z.succ; h_active_range_id := None; h_drift_restarts ::= Z.succ; h_checkpoint_revision ::= Z.succ;
       h_page_sequence := 0; h_phase := Discover; h_next_cursor := None; h_source_total := None; h_discovered_count := 0;
       h_fetched_count := 0; h_published_count := 0; h_publish_after := None; h_observed_from := None; h_observed_until := None;
       h_updated_at := now }}.

Definition release (job : doc) (expected : SheetsHistoryAcquisition) (reason : string) : tx SheetsHistoryAcquisition :=
  check& string_in reason ["quota"; "failure"; "cursor_expired"; "source_drift"]%string
    else mk_exn "ValueError" "unsupported continuation reason" in
  let& expected := tx_lift (_head expected) in
  let& claimed := _current job expected in
  let restart := string_in reason ["cursor_expired"; "source_drift"]%string in
  if bool_decide (h_read_model expected = Questions) && restart then
    let& finished := finish_in_tx claimed false (if String.eqb reason "cursor_expired" then "source_cursor_expired" else "source_incomplete")%string in
    check& finished else conflict "question stop lost owner" in tx_ret expected
  else if String.eqb reason "failure" || (restart && (h_drift_restarts expected =? 3)) then
    let& finished := finish_in_tx claimed (String.eqb reason "failure")
      (if String.eqb reason "failure" then "source_temporarily_unavailable" else "source_incomplete")%string in
    check& finished else conflict "lease lost before failure release" in
    let& i := tx_lift (job_id claimed) in
    do& update_job i (FEq ["_id"%string] (VStr i)) (map (fun kv => USet [kv.1] kv.2) (_binding expected)) in
    tx_ret expected
  else
    let& saved :=
      (if restart then
         let& now := tx_now clock in
         let& saved := tx_lift (let! h := validate_acquisition (restart_pass expected now) in _head h) in
         do& replace_head expected saved "restart checkpoint changed" in
         tx_ret saved
       else tx_ret expected) in
    do& fence job saved in
    let& attempts := tx_lift (int_at claimed "attempts") in
    do& _pending claimed saved (attempts - 1) (if String.eqb reason "quota" then second else 0) in
    tx_ret saved.
End Continuation.
