(* ===== verification/StockTimePlan.v ===== *)
(** The plan of a stock-time reconciliation: canonical documents and the action
    plan (modules/sheets/.../source_gated_read_model_writers.py), and the sealed
    plan of an operation with its mutations and preimages
    (_stock_time_forward_engine.py).

    A frozen mapping is the value it freezes; keys of a document have no order,
    so the canonical form of a document only makes its datetimes aware. *)

From S2P Require Export Transactions RecoveryJobs.

#[local] Open Scope Z_scope.

(** [bson.encode] of a canonical document, absent when an integer does not fit;
    the length of its extended JSON. *)
Class Bson := {
  bson_bytes : doc -> option string;
  extended_json_length : doc -> Z;
}.

Definition READ_MODEL : string := "stock_time_metrics".
Definition METRIC_COLLECTION : string := "sheets_stock_time_metrics".
Definition MARKER_COLLECTION : string := "sheets_read_model_freshness".
Definition RECONCILE_SOURCE : string := "zelerdata_read_model_reconcile".
Definition MAX_ACTION_ROWS : Z := 1000.
Definition MAX_TRANSACTION_PAYLOAD_BYTES : Z := 8 * 1024 * 1024.

Definition plan_error (code : string) : exn := mk_exn "_StockTimeActionPlanError" code.
Definition engine_error (code : string) : exn := mk_exn "_ForwardEngineError" code.
Definition target_drift : exn := mk_exn "_TargetDriftError" EmptyString.
(** [except cls as exc: raise other from exc]. *)
Definition recast {A} (cls : string) (other : exn) (r : result A) : result A :=
  match r with Err e => if String.eqb (exn_cls e) cls then Err other else Err e | Ok a => Ok a end.

(** ** Canonical documents *)

(** [sorted] of byte strings. *)
Fixpoint insert_bytes (x : string) (l : list string) : list string :=
  match l with [] => [x] | y :: l' => if String.leb x y then x :: l else y :: insert_bytes x l' end.
Definition sort_bytes (l : list string) : list string := foldr insert_bytes [] l.

Definition canonical (d : doc) : doc := decode_doc true d.

(** [len(part).to_bytes(8, "big")]. *)
Fixpoint be_bytes (n : nat) (z : Z) : string :=
  match n with O => EmptyString | S n => (be_bytes n (z / 256) ++ String (ascii_of_nat (Z.to_nat (z mod 256))) EmptyString)%string end.

Fixpoint all_of {A B} (f : A -> result B) (l : list A) : result (list B) :=
  match l with [] => Ok [] | x :: l => let! y := f x in let! ys := all_of f l in Ok (y :: ys) end.

Definition opt_doc (o : option doc) : val := match o with Some d => VDict d | None => VNone end.

(** [_StockTimeAction]. *)
Record stock_action := { a_action : string; a_target_id : string; a_document : option doc; a_preimage : option doc }.
Record action_plan := {
  ap_actions : list stock_action;
  ap_source_fingerprint : string;
  ap_preimage_fingerprint : string;
  ap_plan_fingerprint : string;
  ap_action_count : Z; ap_insert_count : Z; ap_replace_count : Z; ap_delete_count : Z; ap_no_op_count : Z; ap_preimage_count : Z;
  ap_estimated_bson_bytes : Z; ap_estimated_json_bytes : Z; ap_estimated_transaction_payload_bytes : Z;
}.
#[export] Instance stock_action_eq_dec : EqDecision stock_action.
Proof. solve_decision. Defined.
#[export] Instance action_plan_eq_dec : EqDecision action_plan.
Proof. solve_decision. Defined.

Section Plan.
Context `{PyRepr} `{Sha256} `{Bson}.

Definition _canonical_bson_bytes (d : doc) : result string :=
  match bson_bytes (canonical d) with Some b => Ok b | None => Err (plan_error "INPUT_NOT_BSON_SAFE") end.
Definition _business_document_bytes (d : doc) : result string := _canonical_bson_bytes (delete "revision"%string d).
Definition _fingerprint (parts : list string) : string :=
  sha256_hex (String.concat EmptyString (map (fun p => be_bytes 8 (Z.of_nat (String.length p)) ++ p)%string parts)).

(** [_indexed_canonical_documents]; every document is a mapping here. *)
Fixpoint _indexed_canonical_documents (indexed : gmap string doc) (documents : list doc) (duplicate_code : string) : result (gmap string doc) :=
  match documents with
  | [] => Ok indexed
  | d :: documents =>
      match doc_get d "_id" with
      | VStr i =>
          if blank i || negb (String.eqb i (strip i)) then Err (plan_error "MALFORMED_TARGET_ID")
          else if is_some (indexed !! i) then Err (plan_error duplicate_code)
          else _indexed_canonical_documents (<[i := canonical d]> indexed) documents duplicate_code
      | _ => Err (plan_error "MALFORMED_TARGET_ID")
      end
  end.

(** What becomes of a target. *)
Definition action_of (document preimage : option doc) : result string :=
  match document, preimage with
  | None, _ => Ok "delete"
  | Some _, None => Ok "insert"
  | Some d, Some p =>
      let! a := _business_document_bytes d in
      let! b := _business_document_bytes p in
      Ok (if String.eqb a b then "no-op" else "replace")
  end%string.
Definition action_payload (a : stock_action) : doc := mk_doc
  [("action", VStr (a_action a)); ("target_id", VStr (a_target_id a)); ("document", opt_doc (a_document a)); ("preimage", opt_doc (a_preimage a))]%string.
Definition plan_action (planned existing : gmap string doc) (i : string) : result stock_action :=
  let! a := action_of (planned !! i) (existing !! i) in
  Ok {| a_action := a; a_target_id := i; a_document := planned !! i; a_preimage := existing !! i |}.

Definition count_actions (kind : string) (l : list stock_action) : Z :=
  Z.of_nat (length (List.filter (fun a => String.eqb (a_action a) kind) l)).
Definition total (l : list Z) : Z := foldr Z.add 0 l.

Definition _plan_stock_time_actions (source_inventory planned_documents existing_target_rows : list doc) : result action_plan :=
  let! source_parts := all_of _canonical_bson_bytes source_inventory in
  let! planned := _indexed_canonical_documents ∅ planned_documents "DUPLICATE_PLANNED_ID" in
  let! existing := _indexed_canonical_documents ∅ existing_target_rows "DUPLICATE_EXISTING_ID" in
  let ids := sorted_set ((map_to_list planned).*1 ++ (map_to_list existing).*1) in
  if MAX_ACTION_ROWS <? Z.of_nat (length ids) then Err (plan_error "ACTION_ROW_LIMIT_EXCEEDED")
  else
    let! actions := all_of (plan_action planned existing) ids in
    let! parts := all_of (fun a => _canonical_bson_bytes (action_payload a)) actions in
    let bson_size := total (map (fun p => Z.of_nat (String.length p)) parts) in
    let json_size := total (map (fun a => extended_json_length (action_payload a)) actions) in
    if MAX_TRANSACTION_PAYLOAD_BYTES <? bson_size + json_size then Err (plan_error "PAYLOAD_LIMIT_EXCEEDED")
    else
      let! preimages := all_of (fun i => _canonical_bson_bytes (default ∅ (existing !! i))) (sorted_set (map_to_list existing).*1) in
      Ok {| ap_actions := actions; ap_source_fingerprint := _fingerprint (sort_bytes source_parts);
            ap_preimage_fingerprint := _fingerprint preimages; ap_plan_fingerprint := _fingerprint parts;
            ap_action_count := Z.of_nat (length actions); ap_insert_count := count_actions "insert" actions;
            ap_replace_count := count_actions "replace" actions; ap_delete_count := count_actions "delete" actions;
            ap_no_op_count := count_actions "no-op" actions;
            ap_preimage_count := Z.of_nat (length (List.filter (fun a => is_some (a_preimage a)) actions));
            ap_estimated_bson_bytes := bson_size; ap_estimated_json_bytes := json_size;
            ap_estimated_transaction_payload_bytes := bson_size + json_size |}.

(** ** Digests *)

Definition _digest (d : doc) : result string := let! b := _canonical_bson_bytes d in Ok (sha256_hex b).
Definition _preimage_record_id (operation_id : string) (sequence : Z) (target_collection target_id : string) : result string := _digest (mk_doc
  [("domain", VStr "zeler.stock-time-forward-preimage-record"); ("version", VInt 1); ("operation_id", VStr operation_id); ("sequence", VInt sequence);
   ("target_collection", VStr target_collection); ("target_id", VStr target_id)]%string).
Definition _operation_revision (operation_id target_collection target_id action : string) : result string := _digest (mk_doc
  [("domain", VStr "zeler.stock-time-forward-revision"); ("version", VInt 1); ("operation_id", VStr operation_id);
   ("target_collection", VStr target_collection); ("target_id", VStr target_id); ("action", VStr action)]%string).
Definition preimage_kind (preimage : option doc) : string := match preimage with Some _ => "exact_document" | None => "absent" end.
Definition _preimage_fingerprint (preimage : option doc) : result string := _digest (mk_doc
  [("domain", VStr "zeler.stock-time-forward-preimage"); ("version", VInt 1); ("preimage_kind", VStr (preimage_kind preimage));
   ("preimage", opt_doc preimage)]%string).

(** [sorted(documents, key=lambda document: str(document.get("_id")))]. *)
Fixpoint insert_by_id (d : doc) (l : list doc) : list doc :=
  match l with
  | [] => [d]
  | e :: l' => if String.leb (py_str (doc_get d "_id")) (py_str (doc_get e "_id")) then d :: l else e :: insert_by_id d l'
  end.
Definition sort_by_id (l : list doc) : list doc := foldr insert_by_id [] l.
Definition _metric_proof_fingerprint (documents : list doc) : result string := _digest (mk_doc
  [("domain", VStr "zeler.stock-time-forward-metric-proof"); ("version", VInt 1); ("exact_final_metrics", VList (map VDict (sort_by_id documents)))]%string).

(** ** Sealed plans *)

Record binding := { b_seller_id : string; b_date_from : Z; b_date_to : Z; b_source_fingerprint : string; b_plan_fingerprint : string }.
Record mutation := {
  m_sequence : Z; m_target_collection : string; m_target_id : string; m_action : string;
  m_document : option doc; m_preimage : option doc; m_preimage_kind : string; m_preimage_fingerprint : string;
  m_expected_forward_revision : string;
}.
Record ledger_counts := { planned_insert_count : Z; planned_update_count : Z; planned_delete_count : Z; planned_preimage_count : Z }.
Record sealed_plan := {
  sp_binding : binding; sp_action_plan : action_plan; sp_operation_id : string; sp_marker_action : string; sp_marker_preimage : option doc;
  sp_mutations : list mutation; sp_expected_metric_documents : list doc; sp_desired_marker : doc; sp_expected_metric_fingerprint : string;
  sp_ledger_counts : ledger_counts;
}.

Definition _mutation (operation_id : string) (sequence : Z) (target_collection target_id action : string) (document preimage : option doc) : result mutation :=
  let! fingerprint := _preimage_fingerprint preimage in
  let! revision := _operation_revision operation_id target_collection target_id action in
  Ok {| m_sequence := sequence; m_target_collection := target_collection; m_target_id := target_id; m_action := action; m_document := document;
        m_preimage := preimage; m_preimage_kind := preimage_kind preimage; m_preimage_fingerprint := fingerprint;
        m_expected_forward_revision := revision |}.

Definition marker_id (seller : string) : string := (seller ++ ":" ++ READ_MODEL)%string.

(** The mutations of the metrics and their final documents. *)
Fixpoint metric_mutations (operation_id : string) (mutations : list mutation) (final_metrics : list doc) (actions : list stock_action)
    : result (list mutation * list doc) :=
  match actions with
  | [] => Ok (mutations, final_metrics)
  | a :: actions =>
      if String.eqb (a_action a) "no-op" then
        match a_preimage a with
        | None => Err (engine_error "INVALID_ACTION")
        | Some p => metric_mutations operation_id mutations (final_metrics ++ [p]) actions
        end
      else
        let! revision := _operation_revision operation_id METRIC_COLLECTION (a_target_id a) (a_action a) in
        let! document :=
          (if String.eqb (a_action a) "delete" then Ok None
           else match a_document a with
                | None => Err (engine_error "INVALID_ACTION")
                | Some d => Ok (Some (canonical (<["revision"%string := VStr revision]> d)))
                end) in
        let! m := _mutation operation_id (Z.of_nat (length mutations) + 1) METRIC_COLLECTION (a_target_id a) (a_action a) document (a_preimage a) in
        metric_mutations operation_id (mutations ++ [m]) (final_metrics ++ match document with Some d => [d] | None => [] end) actions
  end.

Definition count_mutations (kind : string) (l : list mutation) : Z := Z.of_nat (length (List.filter (fun m => String.eqb (m_action m) kind) l)).

Definition _materialize_forward_plan (b : binding) (plan : action_plan) (operation_id marker_action : string) (marker_preimage : option doc) : result sealed_plan :=
  let! ' (metrics, final_metrics) := metric_mutations operation_id [] [] (ap_actions plan) in
  let! proof := _metric_proof_fingerprint final_metrics in
  let mid := marker_id (b_seller_id b) in
  let! marker_revision := _operation_revision operation_id MARKER_COLLECTION mid marker_action in
  let marker := canonical (mk_doc
    [("_id", VStr mid); ("seller_id", VStr (b_seller_id b)); ("read_model", VStr READ_MODEL); ("state", VStr "reconciled");
     ("date_from", VDate true (b_date_from b)); ("fresh_until", VDate true (b_date_to b)); ("reconciled_until", VDate true (b_date_to b));
     ("last_event_synced_at", VDate true (b_date_from b)); ("updated_at", VDate true (b_date_to b)); ("source", VStr RECONCILE_SOURCE);
     ("coverage_basis", VStr "legacy_imported"); ("revision", VStr marker_revision); ("proof_fingerprint", VStr proof);
     ("schema_version", VInt 1)]%string) in
  let! last := _mutation operation_id (Z.of_nat (length metrics) + 1) MARKER_COLLECTION mid marker_action (Some marker) marker_preimage in
  let mutations := metrics ++ [last] in
  Ok {| sp_binding := b; sp_action_plan := plan; sp_operation_id := operation_id; sp_marker_action := marker_action;
        sp_marker_preimage := marker_preimage; sp_mutations := mutations; sp_expected_metric_documents := final_metrics;
        sp_desired_marker := marker; sp_expected_metric_fingerprint := proof;
        sp_ledger_counts := {| planned_insert_count := count_mutations "insert" mutations; planned_update_count := count_mutations "replace" mutations;
                               planned_delete_count := count_mutations "delete" mutations; planned_preimage_count := Z.of_nat (length mutations) |} |}.

Definition _validated_action_plan (source_inventory : list doc) (supplied : action_plan) : result action_plan :=
  let! validated := recast "_StockTimeActionPlanError" (engine_error "INVALID_ACTION")
    (let! _ := all_of _canonical_bson_bytes source_inventory in
     _plan_stock_time_actions source_inventory (omap a_document (ap_actions supplied)) (omap a_preimage (ap_actions supplied))) in
  if bool_decide (supplied = validated) then Ok validated else Err (engine_error "INVALID_ACTION").

(** Which of document and preimage an action has. *)
Definition presence (action : string) : option (bool * bool) :=
  if String.eqb action "insert" then Some (true, false)
  else if String.eqb action "replace" then Some (true, true)
  else if String.eqb action "delete" then Some (false, true)
  else if String.eqb action "no-op" then Some (true, true) else None.
Definition in_scope_of (seller : string) (start end_ : Z) (i : string) (d : doc) : bool :=
  py_eq (doc_get d "_id") (VStr i) && String.eqb (py_str (doc_get d "seller_id")) seller
  && py_eq (doc_get d "date_from") (VDate true start) && py_eq (doc_get d "date_to") (VDate true end_).
Fixpoint check_actions (seller : string) (start end_ : Z) (actions : list stock_action) : result unit :=
  match actions with
  | [] => Ok tt
  | a :: actions =>
      match presence (a_action a) with
      | None => Err (engine_error "INVALID_ACTION")
      | Some p =>
          if negb (bool_decide ((is_some (a_document a), is_some (a_preimage a)) = p)) then Err (engine_error "INVALID_ACTION")
          else if existsb (fun d => negb (in_scope_of seller start end_ (a_target_id a) d)) (option_list (a_document a) ++ option_list (a_preimage a))
          then Err (engine_error "ACTION_SCOPE_MISMATCH")
          else check_actions seller start end_ actions
      end
  end.

(** Datetimes given in UTC; a naive one is refused. *)
Definition utc_bound (v : val) : option Z := match v with VDate true us => Some us | _ => None end.

Definition _seal_forward_plan (seller_id : string) (date_from date_to : val) (source_inventory : list doc) (plan : action_plan) (marker_preimage : option doc)
    : result sealed_plan :=
  let seller := strip seller_id in
  if string_is_empty seller then Err (engine_error "INVALID_SELLER")
  else
    match utc_bound date_from, utc_bound date_to with
    | Some start, Some end_ =>
        if end_ <=? start then Err (engine_error "INVALID_UTC_INTERVAL")
        else if negb (forallb hex64 [ap_source_fingerprint plan; ap_preimage_fingerprint plan; ap_plan_fingerprint plan]) then Err (engine_error "INVALID_SHA256")
        else
          let prior := option_map canonical marker_preimage in
          if match prior with
             | Some p => negb (py_eq (doc_get p "_id") (VStr (marker_id seller))) || negb (String.eqb (py_str (doc_get p "seller_id")) seller)
                         || negb (py_eq (doc_get p "read_model") (VStr READ_MODEL))
             | None => false
             end
          then Err (engine_error "ACTION_SCOPE_MISMATCH")
          else
            let! _ := check_actions seller start end_ (ap_actions plan) in
            let! validated := _validated_action_plan source_inventory plan in
            let! sealed_fingerprint := _digest (mk_doc
              [("domain", VStr "zeler.stock-time-forward-plan"); ("version", VInt 1); ("action_plan_fingerprint", VStr (ap_plan_fingerprint validated));
               ("marker_preimage", opt_doc prior)]%string) in
            let b := {| b_seller_id := seller; b_date_from := start; b_date_to := end_; b_source_fingerprint := ap_source_fingerprint validated;
                        b_plan_fingerprint := sealed_fingerprint |} in
            let! operation_id := _digest (mk_doc
              [("domain", VStr "zeler.stock-time-forward-operation"); ("version", VInt 1); ("seller_id", VStr seller); ("date_from", VDate true start);
               ("date_to", VDate true end_); ("source_fingerprint", VStr (b_source_fingerprint b)); ("plan_fingerprint", VStr sealed_fingerprint)]%string) in
            _materialize_forward_plan b validated operation_id (if is_some prior then "replace" else "insert")%string prior
    | _, _ => Err (engine_error "INVALID_UTC_INTERVAL")
    end.
End Plan.
