(* ===== verification/StockTimeEngine.v ===== *)
(** The stock-time reconciliation engine, forward: the operation lease, the
    preimages, the compare-and-set writes and the commit
    (modules/sheets/.../_stock_time_forward_engine.py).

    The store has the four collections of the engine.  A transaction of the
    engine is one function of it; its commit, which the code retries itself, may
    have an unknown outcome.  Documents are read with aware datetimes. *)

From S2P Require Export StockTimePlan.

#[local] Open Scope Z_scope.

(** ** The collections *)

Record time_db := { db_operations : gmap string doc; db_preimages : gmap string doc; db_metrics : gmap string doc; db_markers : gmap string doc }.
Inductive coll := Operations | Preimages | Metrics | Markers.
Definition docs (c : coll) (s : time_db) : gmap string doc :=
  match c with Operations => db_operations s | Preimages => db_preimages s | Metrics => db_metrics s | Markers => db_markers s end.
Definition with_docs (c : coll) (m : gmap string doc) (s : time_db) : time_db :=
  match c with
  | Operations => {| db_operations := m; db_preimages := db_preimages s; db_metrics := db_metrics s; db_markers := db_markers s |}
  | Preimages => {| db_operations := db_operations s; db_preimages := m; db_metrics := db_metrics s; db_markers := db_markers s |}
  | Metrics => {| db_operations := db_operations s; db_preimages := db_preimages s; db_metrics := m; db_markers := db_markers s |}
  | Markers => {| db_operations := db_operations s; db_preimages := db_preimages s; db_metrics := db_metrics s; db_markers := m |}
  end.
(** The unique indexes beside [_id]. *)
Definition unique_keys (c : coll) : list (list string) :=
  match c with
  | Operations => [["seller_id"; "read_model"; "date_from"; "date_to"; "source_fingerprint"; "plan_fingerprint"]]
  | Preimages => [["operation_id"; "sequence"]; ["operation_id"; "target_collection"; "target_id"]]
  | Markers => [["seller_id"; "read_model"]]
  | Metrics => []
  end%string.
Definition collection_of (name : string) : option coll :=
  if String.eqb name METRIC_COLLECTION then Some Metrics else if String.eqb name MARKER_COLLECTION then Some Markers else None.

Abbreviation etx := (stx time_db).
Abbreviation eact := (sact time_db).

Definition write_error : exn := mk_exn "WriteError" "write rejected".
Definition duplicate_key : exn := mk_exn "DuplicateKeyError" "E11000 duplicate key error".

Section Calls.
Variables (c : coll) (now : Z).

(** The matches of a query, in the order of their [_id]. *)
Definition hits (f : filter) (s : time_db) : list (string * doc) := List.filter (fun id => matches now f id.2) (map_to_list (docs c s)).
Definition find (f : filter) (s : time_db) : list doc := map (fun id => decode_doc true id.2) (hits f s).
Definition find_one (f : filter) (s : time_db) : option doc := head (find f s).

(** Does another document have the values of [d] at a unique index? *)
Definition clashes (d : doc) (s : time_db) : bool :=
  existsb (fun id => negb (bool_decide (doc_id d = Some id.1)) && existsb (forallb (fun k => val_eqb (doc_get d k) (doc_get id.2 k))) (unique_keys c))
    (map_to_list (docs c s)).
Definition put (d : doc) : etx unit :=
  let& s := tx_get in
  match doc_id d with
  | Some i => if clashes (encode_doc d) s then tx_fail duplicate_key else tx_put (with_docs c (<[i := encode_doc d]> (docs c s)) s)
  | None => tx_fail write_error
  end.
Definition insert_one (d : doc) : etx unit :=
  let& s := tx_get in
  match doc_id d with
  | Some i => if is_some (docs c s !! i) then tx_fail duplicate_key else put d
  | None => tx_fail write_error
  end.
Fixpoint insert_many (ds : list doc) : etx unit :=
  match ds with [] => tx_ret tt | d :: ds => do& insert_one d in insert_many ds end.

(** Matched, modified and upserted. *)
Definition replaced : Type := Z * Z * option string.
Definition replace_one (f : filter) (d : doc) (upsert : bool) : etx replaced :=
  let& s := tx_get in
  match hits f s with
  | (i, e) :: _ =>
      check& bool_decide (doc_id d = Some i) else write_error in
      do& put d in tx_ret (1, Z.b2z (negb (bool_decide (e = encode_doc d))), None)
  | [] => if upsert then do& insert_one d in tx_ret (0, 0, doc_id d) else tx_ret (0, 0, None)
  end.
(** [deleted_count]. *)
Definition delete_one (f : filter) : etx Z :=
  let& s := tx_get in
  match hits f s with
  | (i, _) :: _ => do& tx_put (with_docs c (delete i (docs c s)) s) in tx_ret 1
  | [] => tx_ret 0
  end.
(** An update pipeline of one [$set]: matched and modified. *)
Definition update_set (f : filter) (stage : list (string * aexpr)) : etx (Z * Z) :=
  let& s := tx_get in
  match hits f s with
  | (i, e) :: _ =>
      let e' := apply_stage now stage e in
      do& tx_put (with_docs c (<[i := e']> (docs c s)) s) in tx_ret (1, Z.b2z (negb (bool_decide (e = e'))))
  | [] => tx_ret (0, 0)
  end.
End Calls.

(** ** Operations *)

Record operation_context := { c_operation_id : string; c_state : string; c_attempt : Z; c_attempt_token : string; c_fence : Z; c_owns_lease : bool }.

Definition fields_filter (kvs : list (string * val)) : list filter := map (fun kv => FEq [kv.1] kv.2) kvs.
Definition lease_live : filter := FExpr (ALt ANow (AField ["lease_until"%string])).
Definition lease_over : filter := FExpr (ALte (AField ["lease_until"%string]) ANow).
Definition LEASE_SECONDS : Z := 120.

Section Engine.
Context `{PyRepr} `{Sha256} `{Bson}.
Variable clock : nat -> Z.

Definition exact_binding (b : binding) : list (string * val) :=
  [("seller_id", VStr (b_seller_id b)); ("read_model", VStr READ_MODEL); ("date_from", VDate true (b_date_from b)); ("date_to", VDate true (b_date_to b));
   ("source_fingerprint", VStr (b_source_fingerprint b)); ("plan_fingerprint", VStr (b_plan_fingerprint b))]%string.
Definition _operation_immutable (p : sealed_plan) : list (string * val) :=
  ("_id"%string, VStr (sp_operation_id p)) :: exact_binding (sp_binding p) ++
  [("planned_insert_count", VInt (planned_insert_count (sp_ledger_counts p))); ("planned_update_count", VInt (planned_update_count (sp_ledger_counts p)));
   ("planned_delete_count", VInt (planned_delete_count (sp_ledger_counts p))); ("planned_preimage_count", VInt (planned_preimage_count (sp_ledger_counts p)))]%string.

Definition int_with (p : Z -> bool) (v : val) : bool := match v with VInt z => p z | _ => false end.
Definition is_utc (v : val) : bool := match v with VDate true _ => true | _ => false end.
Definition token_ok (v : val) : bool := match v with VStr t => hex32 t | _ => false end.
Definition operation_schema_ok (o : doc) : bool :=
  int_with (Z.eqb 1) (doc_get o "schema_version") && is_str (doc_get o "state")
  && forallb (fun k => int_with (Z.ltb 0) (doc_get o k)) ["attempt"; "fence"]%string
  && forallb (fun k => int_with (Z.leb 0) (doc_get o k)) ["planned_insert_count"; "planned_update_count"; "planned_delete_count"; "planned_preimage_count"]%string
  && token_ok (doc_get o "attempt_token") && forallb (fun k => is_utc (doc_get o k)) ["lease_acquired_at"; "heartbeat_at"; "lease_until"]%string.
Definition differs (o : doc) (kvs : list (string * val)) : bool := existsb (fun kv => negb (py_eq (doc_get o kv.1) kv.2)) kvs.
Definition _validate_persisted_operation (o : doc) (immutable : list (string * val)) : result doc :=
  if negb (operation_schema_ok o) then Err (engine_error "INVALID_OPERATION_SCHEMA")
  else if differs o immutable then Err (engine_error "OPERATION_MISMATCH") else Ok o.

Definition int_of (v : val) : Z := match v with VInt z => z | _ => 0 end.
Definition str_at (o : doc) (k : string) : string := match doc_get o k with VStr s => s | _ => EmptyString end.
(** [_persisted_operation_context] of a validated operation. *)
Definition _persisted_operation_context (o : doc) (owns_lease : bool) : operation_context :=
  {| c_operation_id := str_at o "_id"; c_state := str_at o "state"; c_attempt := int_of (doc_get o "attempt"); c_attempt_token := str_at o "attempt_token";
     c_fence := int_of (doc_get o "fence"); c_owns_lease := owns_lease |}.

Definition takeover_stage (token : string) : list (string * aexpr) :=
  [("state", ALit (VStr "prepared")); ("attempt", AAdd (AField ["attempt"]) (ALit (VInt 1))); ("attempt_token", ALit (VStr token));
   ("fence", AAdd (AField ["fence"]) (ALit (VInt 1))); ("lease_acquired_at", ANow); ("heartbeat_at", ANow); ("lease_until", ADateAdd ANow LEASE_SECONDS);
   ("updated_at", ANow); ("committed_at", ALit VNone); ("terminal_at", ALit VNone); ("error_code", ALit VNone)]%string.
(** The operation as first stored. *)
Definition prepared_operation (p : sealed_plan) (token : string) (now : Z) : doc :=
  mk_doc (_operation_immutable p ++
    [("state", VStr "prepared"); ("attempt", VInt 1); ("attempt_token", VStr token); ("fence", VInt 1); ("lease_acquired_at", VDate true now);
     ("heartbeat_at", VDate true now); ("lease_until", VDate true (now + LEASE_SECONDS * second)); ("created_at", VDate true now);
     ("updated_at", VDate true now); ("committed_at", VNone); ("terminal_at", VNone); ("error_code", VNone); ("schema_version", VInt 1)]%string).

Definition acquire_tx (p : sealed_plan) (token : string) : etx operation_context :=
  let& s := tx_get in
  let& now := tx_now clock in
  match find_one Operations now (FOr [FEq ["_id"%string] (VStr (sp_operation_id p)); FAnd (fields_filter (exact_binding (sp_binding p)))]) s with
  | Some existing =>
      let& persisted := tx_lift (_validate_persisted_operation existing (_operation_immutable p)) in
      if String.eqb (str_at persisted "state") "committed" then tx_ret (_persisted_operation_context persisted false)
      else
        check& String.eqb (str_at persisted "state") "prepared" else engine_error "STATE_BLOCKED" in
        let identity := [FEq ["_id"%string] (VStr (sp_operation_id p)); FEq ["state"%string] (VStr "prepared")] in
        if is_some (find_one Operations now (FAnd (identity ++ [FEq ["attempt_token"%string] (VStr token); lease_live])) s)
        then tx_ret (_persisted_operation_context persisted true)
        else
          check& is_some (find_one Operations now (FAnd (identity ++ [lease_over])) s) else engine_error "LEASE_CONFLICT" in
          let& ' (matched, _) := update_set Operations now
            (FAnd (fields_filter (_operation_immutable p ++ [("state", VStr "prepared"); ("attempt", doc_get persisted "attempt");
                                  ("attempt_token", doc_get persisted "attempt_token"); ("fence", doc_get persisted "fence")]%string) ++ [lease_over]))
            (takeover_stage token) in
          check& matched =? 1 else engine_error "TAKEOVER_CONFLICT" in
          tx_ret {| c_operation_id := sp_operation_id p; c_state := "prepared"; c_attempt := int_of (doc_get persisted "attempt") + 1;
                    c_attempt_token := token; c_fence := int_of (doc_get persisted "fence") + 1; c_owns_lease := true |}
  | None =>
      do& insert_one Operations (prepared_operation p token now) in
      tx_ret {| c_operation_id := sp_operation_id p; c_state := "prepared"; c_attempt := 1; c_attempt_token := token; c_fence := 1; c_owns_lease := true |}
  end.

(** ** Preimages *)

Definition preimage_record (operation_id : string) (created_at : val) (m : mutation) : result doc :=
  let! i := _preimage_record_id operation_id (m_sequence m) (m_target_collection m) (m_target_id m) in
  Ok (mk_doc
    [("_id", VStr i); ("operation_id", VStr operation_id); ("sequence", VInt (m_sequence m)); ("target_collection", VStr (m_target_collection m));
     ("target_id", VStr (m_target_id m)); ("action", VStr (m_action m)); ("preimage", opt_doc (option_map canonical (m_preimage m)));
     ("preimage_kind", VStr (m_preimage_kind m)); ("preimage_fingerprint", VStr (m_preimage_fingerprint m));
     ("expected_forward_revision", VStr (m_expected_forward_revision m)); ("created_at", created_at); ("schema_version", VInt 1)]%string).
Definition _preimage_records (p : sealed_plan) (created_at : val) : result (list doc) := all_of (preimage_record (sp_operation_id p) created_at) (sp_mutations p).

(** The same documents, as canonical BSON. *)
Definition _exact_preimages_match (observed expected : list doc) : bool :=
  match all_of _canonical_bson_bytes observed, all_of _canonical_bson_bytes expected with
  | Ok a, Ok b => bool_decide (sort_bytes a = sort_bytes b)
  | _, _ => false
  end.

Definition attempt_fields (c : operation_context) : list (string * val) :=
  [("attempt", VInt (c_attempt c)); ("attempt_token", VStr (c_attempt_token c)); ("fence", VInt (c_fence c))]%string.
Definition _validated_execution_operation (p : sealed_plan) (c : operation_context) : etx doc :=
  check& String.eqb (c_operation_id c) (sp_operation_id p) && String.eqb (c_state c) "prepared" && c_owns_lease c else engine_error "FENCE_CONFLICT" in
  let& s := tx_get in
  let& now := tx_now clock in
  match find_one Operations now (FEq ["_id"%string] (VStr (sp_operation_id p))) s with
  | None => tx_fail (engine_error "OPERATION_MISMATCH")
  | Some o =>
      let& persisted := tx_lift (_validate_persisted_operation o (_operation_immutable p)) in
      check& String.eqb (str_at persisted "state") "prepared" else engine_error "STATE_BLOCKED" in
      check& negb (differs persisted (attempt_fields c)) else engine_error "FENCE_CONFLICT" in
      check& is_some (find_one Operations now (FAnd (fields_filter ([("_id", VStr (sp_operation_id p)); ("state", VStr "prepared")]%string ++ attempt_fields c) ++ [lease_live])) s)
        else engine_error "LEASE_CONFLICT" in
      tx_ret persisted
  end.

(** The digits of a seller, also as a number. *)
Definition seller_values (seller : string) : list val :=
  VStr seller :: match (if digits1 seller then py_int (VStr seller) else raise_value EmptyString) with Ok z => [VInt z] | Err _ => [] end.
Definition _metric_interval_query (b : binding) : list filter :=
  [FIn ["seller_id"] (seller_values (b_seller_id b)); FEq ["date_from"] (VDate true (b_date_from b)); FEq ["date_to"] (VDate true (b_date_to b))]%string.
Definition _metric_interval_documents (b : binding) (s : time_db) : list doc := find Metrics 0 (FAnd (_metric_interval_query b)) s.
Definition marker_of (seller : string) (s : time_db) : option doc := find_one Markers 0 (FEq ["_id"%string] (VStr (marker_id seller))) s.

Definition _revalidate_forward_preimages (p : sealed_plan) : etx unit :=
  let& s := tx_get in
  check& _exact_preimages_match (_metric_interval_documents (sp_binding p) s) (omap a_preimage (ap_actions (sp_action_plan p)))
         && _exact_preimages_match (option_list (marker_of (b_seller_id (sp_binding p)) s)) (option_list (sp_marker_preimage p))
    else engine_error "PREIMAGE_MISMATCH" in
  tx_ret tt.

(** ** Compare-and-set writes *)

Definition _revision_state_guard (d : option doc) : list filter :=
  match d with
  | Some d => if has_key d "revision" then [FExists ["revision"%string] true; FEq ["revision"%string] (doc_get d "revision")] else [FExists ["revision"%string] false]
  | None => [FExists ["revision"%string] false]
  end.
Definition _metric_cas_selector (p : sealed_plan) (a : stock_action) (revision_document : option doc) : filter :=
  FAnd (FEq ["_id"%string] (VStr (a_target_id a)) :: _metric_interval_query (sp_binding p) ++ _revision_state_guard revision_document).
Definition exact_write (b : bool) : etx unit := check& b else engine_error "PREIMAGE_MISMATCH" in tx_ret tt.
Definition required (o : option doc) : etx doc := match o with Some d => tx_ret d | None => tx_fail (engine_error "INVALID_ACTION") end.
(** The document with the revision of the operation for an action. *)
Definition revised (p : sealed_plan) (target_id action : string) (d : doc) : result doc :=
  let! r := _operation_revision (sp_operation_id p) METRIC_COLLECTION target_id action in
  Ok (canonical (<["revision"%string := VStr r]> d)).

Definition _insert_metric_cas (p : sealed_plan) (a : stock_action) : etx unit :=
  let& d := required (a_document a) in
  let& desired := tx_lift (revised p (a_target_id a) "insert" d) in
  let& ' (matched, _, upserted) := replace_one Metrics 0 (_metric_cas_selector p a None) desired true in
  exact_write ((matched =? 0) && bool_decide (upserted = Some (a_target_id a))).
Definition _replace_metric_cas (p : sealed_plan) (a : stock_action) : etx unit :=
  let& d := required (a_document a) in
  let& _ := required (a_preimage a) in
  let& desired := tx_lift (revised p (a_target_id a) "replace" d) in
  let& ' (matched, modified, _) := replace_one Metrics 0 (_metric_cas_selector p a (a_preimage a)) desired false in
  exact_write ((matched =? 1) && (modified =? 1)).
Definition _delete_metric_cas (p : sealed_plan) (a : stock_action) : etx unit :=
  let& _ := required (a_preimage a) in
  let& deleted := delete_one Metrics 0 (_metric_cas_selector p a (a_preimage a)) in
  exact_write (deleted =? 1).
(** An unchanged metric is written twice, so that a concurrent change of it
    conflicts with this transaction. *)
Definition _touch_noop_metric_cas (p : sealed_plan) (a : stock_action) : etx unit :=
  let& preimage := required (a_preimage a) in
  let& first := tx_lift (_operation_revision (sp_operation_id p) METRIC_COLLECTION (a_target_id a) "no-op") in
  let& temporary_revision := tx_lift
    (if py_eq (doc_get preimage "revision") (VStr first) then _operation_revision (sp_operation_id p) METRIC_COLLECTION (a_target_id a) "no-op-alternate"
     else Ok first) in
  let temporary := canonical (<["revision"%string := VStr temporary_revision]> preimage) in
  let& ' (matched, modified, _) := replace_one Metrics 0 (_metric_cas_selector p a (a_preimage a)) temporary false in
  do& exact_write ((matched =? 1) && (modified =? 1)) in
  let& ' (matched, modified, _) := replace_one Metrics 0 (_metric_cas_selector p a (Some temporary)) (canonical preimage) false in
  exact_write ((matched =? 1) && (modified =? 1)).

Definition write_metric (p : sealed_plan) (a : stock_action) : etx unit :=
  if String.eqb (a_action a) "insert" then _insert_metric_cas p a
  else if String.eqb (a_action a) "replace" then _replace_metric_cas p a
  else if String.eqb (a_action a) "delete" then _delete_metric_cas p a
  else if String.eqb (a_action a) "no-op" then _touch_noop_metric_cas p a
  else tx_fail (engine_error "INVALID_ACTION").
Fixpoint write_metrics (p : sealed_plan) (actions : list stock_action) : etx unit :=
  match actions with [] => tx_ret tt | a :: actions => do& write_metric p a in write_metrics p actions end.
Definition _write_and_verify_forward_metrics (p : sealed_plan) : etx unit :=
  do& write_metrics p (ap_actions (sp_action_plan p)) in
  let& s := tx_get in
  let observed := _metric_interval_documents (sp_binding p) s in
  check& _exact_preimages_match observed (sp_expected_metric_documents p) else engine_error "PREIMAGE_MISMATCH" in
  let& proof := tx_lift (_metric_proof_fingerprint observed) in
  check& String.eqb proof (sp_expected_metric_fingerprint p) else engine_error "PREIMAGE_MISMATCH" in
  tx_ret tt.

Definition _write_and_verify_forward_marker (p : sealed_plan) : etx unit :=
  let desired := canonical (sp_desired_marker p) in
  let selector := FAnd (fields_filter [("_id", doc_get desired "_id"); ("seller_id", doc_get desired "seller_id"); ("read_model", doc_get desired "read_model")]%string
                        ++ _revision_state_guard (sp_marker_preimage p)) in
  let& ' (matched, modified, upserted) := replace_one Markers 0 selector desired (negb (is_some (sp_marker_preimage p))) in
  check& (if is_some (sp_marker_preimage p) then (matched =? 1) && (modified =? 1) else (matched =? 0) && bool_decide (upserted = doc_id desired))
    else engine_error "MARKER_CONFLICT" in
  let& s := tx_get in
  check& _exact_preimages_match (option_list (find_one Markers 0 (FEq ["_id"%string] (doc_get desired "_id")) s)) [desired]
    else engine_error "MARKER_READBACK_MISMATCH" in
  tx_ret tt.

(** ** The commit of the operation *)

Definition commit_fields : list string :=
  ["state"; "attempt"; "attempt_token"; "fence"; "lease_acquired_at"; "heartbeat_at"; "lease_until"; "created_at"; "updated_at"; "committed_at";
   "terminal_at"; "error_code"; "schema_version"]%string.
Definition has_fields (o : doc) (ks : list string) : bool := bool_decide (dom o = list_to_set ks).
Definition _validated_committed_operation (observed : option doc) (p : sealed_plan) (c : operation_context) : result doc :=
  let mismatch := engine_error "COMMIT_READBACK_MISMATCH" in
  match observed with
  | None => Err mismatch
  | Some o =>
      let! persisted := recast "_ForwardEngineError" mismatch (_validate_persisted_operation o (_operation_immutable p)) in
      let committed_at := doc_get persisted "committed_at" in
      if negb (has_fields persisted (map fst (_operation_immutable p) ++ commit_fields)) || negb (is_utc (doc_get persisted "created_at"))
         || differs persisted (("state"%string, VStr "committed") :: attempt_fields c ++ [("error_code"%string, VNone)])
         || negb (is_utc committed_at)
         || existsb (fun k => negb (py_eq (doc_get persisted k) committed_at)) ["heartbeat_at"; "updated_at"; "terminal_at"; "lease_until"]%string
      then Err mismatch else Ok persisted
  end.

Definition commit_stage : list (string * aexpr) :=
  [("state", ALit (VStr "committed")); ("heartbeat_at", ANow); ("updated_at", ANow); ("committed_at", ANow); ("terminal_at", ANow); ("lease_until", ANow);
   ("error_code", ALit VNone)]%string.
Definition _write_and_verify_operation_commit (p : sealed_plan) (c : operation_context) : etx unit :=
  let& now := tx_now clock in
  let& ' (matched, modified) := update_set Operations now
    (FAnd (fields_filter (_operation_immutable p ++ ("state"%string, VStr "prepared") :: attempt_fields c) ++ [lease_live])) commit_stage in
  check& (matched =? 1) && (modified =? 1) else engine_error "COMMIT_CONFLICT" in
  let& s := tx_get in
  let& _ := tx_lift (_validated_committed_operation (find_one Operations now (FEq ["_id"%string] (VStr (sp_operation_id p))) s) p c) in
  tx_ret tt.

(** [_persist_forward_preimages] with the callbacks of [_commit_forward_operation], up to the commit. *)
Definition persist_tx (p : sealed_plan) (c : operation_context) : etx unit :=
  let& operation := _validated_execution_operation p c in
  do& _revalidate_forward_preimages p in
  let& records := tx_lift (_preimage_records p (doc_get operation "lease_acquired_at")) in
  insert_many Preimages records.
Definition forward_tx (p : sealed_plan) (c : operation_context) : etx unit :=
  do& persist_tx p c in
  do& _write_and_verify_forward_metrics p in
  do& _write_and_verify_forward_marker p in
  _write_and_verify_operation_commit p c.
End Engine.

(** ** Transactions with a commit of their own *)

(** How a call of [commit_transaction] ends. *)
Inductive commit_reply := Committed | UnknownResult | Refused (e : exn).
Class Commits := {
  replies : nat -> nat -> commit_reply;   (* of the n-th visit, of its k-th attempt *)
  durable : nat -> bool;                  (* committed although no attempt said so? *)
}.
Definition outcome_unknown : exn := engine_error "COMMIT_OUTCOME_UNKNOWN".
(** [_commit_transaction_with_retry]: three attempts. *)
Fixpoint _commit_transaction_with_retry (attempts k : nat) (reply : nat -> commit_reply) : result unit :=
  match attempts with
  | O => Err outcome_unknown
  | S attempts =>
      match reply k with
      | Committed => Ok tt
      | UnknownResult => _commit_transaction_with_retry attempts (S k) reply
      | Refused e => Err e
      end
  end.

Section Run.
Context `{PyRepr} `{Sha256} `{Bson} `{Surrounding time_db} `{Commits}.

(** [async with _required_transaction(db)] around callbacks that end in the
    commit: what they return, and how the commit ended. *)
Definition committing {A} (t : (nat -> Z) -> etx A) : eact (A * result unit) := fun w =>
  let n := w_turn w in
  let s := others n (w_store w) in
  let at_ s := {| w_store := s; w_turn := S n |} in
  match faults n with
  | Aborted e => (Err e, at_ s)
  | f =>
      match t (readings n) O s with
      | Err e => (Err e, at_ s)
      | Ok (a, _, s') =>
          match _commit_transaction_with_retry 3 0 (replies n) with
          | Ok _ => (Ok (a, match f with CommittedThen e => Err e | _ => Ok tt end), at_ s')
          | Err e => (Ok (a, Err e), at_ (if durable n then s' else s))
          end
      end
  end.

Definition _acquire_forward_operation (p : sealed_plan) (attempt_token : string) : eact operation_context :=
  check~ hex32 attempt_token else engine_error "INVALID_ATTEMPT_TOKEN" in
  visit (fun clock => acquire_tx clock p attempt_token).

(** Is the whole forward result durable? *)
Definition _majority_commit_readback (p : sealed_plan) (c : operation_context) : eact bool :=
  let~ operation := read_store (fun s => find_one Operations 0 (FEq ["_id"%string] (VStr (sp_operation_id p))) s) in
  let~ observed_preimages := read_store (find Preimages 0 (FEq ["operation_id"%string] (VStr (sp_operation_id p)))) in
  let~ observed_metrics := read_store (_metric_interval_documents (sp_binding p)) in
  let~ marker := read_store (find_one Markers 0 (FEq ["_id"%string] (doc_get (sp_desired_marker p) "_id"))) in
  match _validated_committed_operation operation p c with
  | Err _ => act_ret false
  | Ok persisted =>
      let~ expected_preimages := act_lift (_preimage_records p (doc_get persisted "lease_acquired_at")) in
      if _exact_preimages_match observed_preimages expected_preimages && _exact_preimages_match observed_metrics (sp_expected_metric_documents p) then
        let~ proof := act_lift (_metric_proof_fingerprint observed_metrics) in
        act_ret (String.eqb proof (sp_expected_metric_fingerprint p) && _exact_preimages_match (option_list marker) [sp_desired_marker p])
      else act_ret false
  end.

Definition is_unknown (e : exn) : bool := String.eqb (exn_cls e) "_ForwardEngineError" && String.eqb (exn_msg e) "COMMIT_OUTCOME_UNKNOWN".

Definition _commit_forward_operation (p : sealed_plan) (c : operation_context) : eact operation_context :=
  let~ commit := committing (fun clock => forward_tx clock p c) in
  do~ match commit.2 with
      | Ok _ => act_ret tt
      | Err e =>
          if is_unknown e then
            let~ exact := _majority_commit_readback p c in
            check~ exact else outcome_unknown in act_ret tt
          else act_fail e
      end in
  act_ret {| c_operation_id := c_operation_id c; c_state := "committed"; c_attempt := c_attempt c; c_attempt_token := c_attempt_token c; c_fence := c_fence c;
             c_owns_lease := false |}.

Definition _exact_forward_operation_context (c : operation_context) (operation_id state : string) (owns_lease : bool) : bool :=
  String.eqb (c_operation_id c) operation_id && String.eqb (c_state c) state && (0 <? c_attempt c) && hex32 (c_attempt_token c) && (0 <? c_fence c)
  && Bool.eqb (c_owns_lease c) owns_lease.

Definition _execute_sealed_forward_operation (p : sealed_plan) (attempt_token : string) : eact string :=
  let~ context := _acquire_forward_operation p attempt_token in
  if _exact_forward_operation_context context (sp_operation_id p) "committed" false then act_ret "already_committed"%string
  else
    check~ _exact_forward_operation_context context (sp_operation_id p) "prepared" true && String.eqb (c_attempt_token context) attempt_token
      else engine_error "FORWARD_CONTEXT_INVALID" in
    let~ committed := _commit_forward_operation p context in
    check~ _exact_forward_operation_context committed (c_operation_id context) "committed" false && (c_attempt committed =? c_attempt context)
           && String.eqb (c_attempt_token committed) (c_attempt_token context) && (c_fence committed =? c_fence context)
      else engine_error "FORWARD_CONTEXT_INVALID" in
    act_ret "forward_committed"%string.
End Run.
