(* ===== verification/StockTimeRollback.v ===== *)
(** The stock-time reconciliation engine, backward: the record set of an
    operation, its inverse plan, the compare-and-set writes that restore the
    preimages, and the end of an operation whose targets drifted
    (modules/sheets/.../_stock_time_forward_engine.py).

    A malformed record makes the validators raise errors of several classes; the
    callers turn each into one, so the validators here have one. *)

From S2P Require Export StockTimeEngine.

#[local] Open Scope Z_scope.

Definition rollback_blocked : exn := engine_error "ROLLBACK_BLOCKED".

Definition _ROLLBACK_OPERATION_FIELDS : list string :=
  ["_id"; "seller_id"; "read_model"; "date_from"; "date_to"; "source_fingerprint"; "plan_fingerprint"; "state"; "attempt"; "attempt_token"; "fence";
   "lease_acquired_at"; "heartbeat_at"; "lease_until"; "planned_insert_count"; "planned_update_count"; "planned_delete_count"; "planned_preimage_count";
   "created_at"; "updated_at"; "committed_at"; "terminal_at"; "error_code"; "schema_version"]%string.
Definition _ROLLBACK_PREIMAGE_FIELDS : list string :=
  ["_id"; "operation_id"; "sequence"; "target_collection"; "target_id"; "action"; "preimage"; "preimage_kind"; "preimage_fingerprint";
   "expected_forward_revision"; "created_at"; "schema_version"]%string.

(** [_ValidatedRollbackRecordSet], [_RollbackMutation], [_ForwardRollbackPlan]. *)
Record record_set := { rs_operation_id : string; rs_state : string; rs_operation : doc; rs_records : list doc }.
Record rollback_mutation := {
  rm_target_collection : string; rm_target_id : string; rm_action : string; rm_expected_forward_revision : string; rm_forward_sequence : Z;
  rm_restoration : option doc;
}.
Record rollback_plan := { rp_operation_id : string; rp_state : string; rp_mutations : list rollback_mutation }.

Definition date_of (v : val) : Z := match v with VDate _ us => us | _ => 0 end.
Definition one_of (l : list string) (v : val) : bool := existsb (fun s => py_eq v (VStr s)) l.
Definition sha_ok (v : val) : bool := match v with VStr s => hex64 s | _ => false end.
(** [row["preimage"]], a mapping or nothing. *)
Definition opt_of (v : val) : option doc := match v with VDict d => Some d | _ => None end.

Section Rollback.
Context `{PyRepr} `{Sha256} `{Bson}.

(** ** The record set *)

Definition operation_digest (o : doc) : result string := _digest (mk_doc
  [("domain", VStr "zeler.stock-time-forward-operation"); ("version", VInt 1); ("seller_id", doc_get o "seller_id"); ("date_from", doc_get o "date_from");
   ("date_to", doc_get o "date_to"); ("source_fingerprint", doc_get o "source_fingerprint"); ("plan_fingerprint", doc_get o "plan_fingerprint")]%string).
Definition rollback_times_ok (o : doc) : bool :=
  let at_ k := date_of (doc_get o k) in
  forallb (fun k => py_eq (doc_get o k) (doc_get o "terminal_at")) ["heartbeat_at"; "updated_at"; "lease_until"]%string
  && (at_ "created_at" <=? at_ "lease_acquired_at") && (at_ "lease_acquired_at" <=? at_ "committed_at") && (at_ "committed_at" <=? at_ "terminal_at")
  && (negb (py_eq (doc_get o "state") (VStr "committed")) || py_eq (doc_get o "committed_at") (doc_get o "terminal_at")).
Definition rollback_operation_ok (o : doc) (operation_id expected_id : string) : bool :=
  py_eq (doc_get o "_id") (VStr operation_id) && String.eqb operation_id expected_id
  && negb (blank (str_at o "seller_id")) && is_str (doc_get o "seller_id")
  && py_eq (doc_get o "read_model") (VStr READ_MODEL)
  && forallb (fun k => is_utc (doc_get o k)) ["date_from"; "date_to"; "lease_acquired_at"; "heartbeat_at"; "lease_until"; "created_at"; "updated_at"; "terminal_at"; "committed_at"]%string
  && (date_of (doc_get o "date_from") <? date_of (doc_get o "date_to"))
  && one_of ["committed"; "rolled_back"; "rollback_blocked"]%string (doc_get o "state")
  && forallb (fun k => int_with (Z.ltb 0) (doc_get o k)) ["attempt"; "fence"]%string && token_ok (doc_get o "attempt_token")
  && forallb (fun k => int_with (Z.leb 0) (doc_get o k)) ["planned_insert_count"; "planned_update_count"; "planned_delete_count"; "planned_preimage_count"]%string
  && forallb (fun k => sha_ok (doc_get o k)) ["source_fingerprint"; "plan_fingerprint"]%string
  && py_eq (doc_get o "schema_version") (VInt 1)
  && (if one_of ["committed"; "rolled_back"]%string (doc_get o "state") then is_none (doc_get o "error_code") else py_eq (doc_get o "error_code") (VStr "TARGET_DRIFT"))
  && rollback_times_ok o.
Definition _validate_rollback_operation (operation : option doc) (operation_id : string) : result doc :=
  match operation with
  | None => Err rollback_blocked
  | Some o =>
      match operation_digest o with
      | Err _ => Err rollback_blocked
      | Ok expected_id =>
          if has_fields o _ROLLBACK_OPERATION_FIELDS && rollback_operation_ok o operation_id expected_id then Ok o else Err rollback_blocked
      end
  end.

Definition _rollback_seller_matches (seller : string) (v : val) : bool :=
  match v with
  | VStr s => String.eqb s seller
  | VInt z => digits1 seller && match py_int (VStr seller) with Ok z' => z =? z' | Err _ => false end
  | _ => false
  end.

Definition is_exact_action (action : string) : bool := String.eqb action "replace" || String.eqb action "delete".
Definition digest_is (v : val) (d : result string) : bool := match d with Ok s => py_eq v (VStr s) | Err _ => false end.
(** The part of a row that every target has. *)
Definition rollback_row_ok (operation row : doc) (target : string * string) (action : string) : bool :=
  let operation_id := str_at operation "_id" in
  let preimage := doc_get row "preimage" in
  let exact := is_exact_action action in
  py_eq (doc_get row "operation_id") (VStr operation_id) && negb (string_is_empty target.2)
  && existsb (String.eqb target.1) [METRIC_COLLECTION; MARKER_COLLECTION]
  && existsb (String.eqb action) ["insert"; "replace"; "delete"]%string
  && py_eq (doc_get row "schema_version") (VInt 1) && py_eq (doc_get row "created_at") (doc_get operation "lease_acquired_at")
  && py_eq (doc_get row "preimage_kind") (VStr (if exact then "exact_document" else "absent"))
  && (if exact then is_some (opt_of preimage) else is_none preimage)
  && digest_is (doc_get row "preimage_fingerprint") (_preimage_fingerprint (opt_of preimage))
  && digest_is (doc_get row "expected_forward_revision") (_operation_revision operation_id target.1 target.2 action)
  && digest_is (doc_get row "_id") (_preimage_record_id operation_id (int_of (doc_get row "sequence")) target.1 target.2).
Definition metric_preimage_ok (operation preimage : doc) (target_id : string) : bool :=
  py_eq (doc_get preimage "_id") (VStr target_id) && _rollback_seller_matches (str_at operation "seller_id") (doc_get preimage "seller_id")
  && py_eq (doc_get preimage "date_from") (doc_get operation "date_from") && py_eq (doc_get preimage "date_to") (doc_get operation "date_to").
Definition marker_row_ok (operation : doc) (preimage : option doc) (target_id action : string) : bool :=
  let seller := str_at operation "seller_id" in
  String.eqb target_id (marker_id seller) && existsb (String.eqb action) ["insert"; "replace"]%string
  && match (if is_exact_action action then preimage else None) with
     | Some p => py_eq (doc_get p "_id") (VStr target_id) && py_eq (doc_get p "seller_id") (VStr seller) && py_eq (doc_get p "read_model") (VStr READ_MODEL)
     | None => true
     end.
Definition rollback_target_ok (operation row : doc) (target : string * string) (action : string) : bool :=
  let preimage := opt_of (doc_get row "preimage") in
  if String.eqb target.1 MARKER_COLLECTION then marker_row_ok operation preimage target.2 action
  else match (if is_exact_action action then preimage else None) with Some p => metric_preimage_ok operation p target.2 | None => true end.

Definition row_target (row : doc) : string * string := (str_at row "target_collection", str_at row "target_id").
Definition row_action (row : doc) : string := str_at row "action".
Fixpoint rollback_rows_ok (operation : doc) (seen : list (string * string)) (rows : list doc) : bool :=
  match rows with
  | [] => true
  | row :: rows =>
      has_fields row _ROLLBACK_PREIMAGE_FIELDS && forallb (fun k => is_str (doc_get row k)) ["target_collection"; "target_id"; "action"]%string
      && rollback_row_ok operation row (row_target row) (row_action row) && negb (bool_decide (row_target row ∈ seen))
      && rollback_target_ok operation row (row_target row) (row_action row)
      && rollback_rows_ok operation (row_target row :: seen) rows
  end.
Definition count_rows (p : doc -> bool) (rows : list doc) : val := VInt (Z.of_nat (length (List.filter p rows))).
Definition is_marker_row (row : doc) : bool := String.eqb (row_target row).1 MARKER_COLLECTION.
Definition action_counts_ok (operation : doc) (rows : list doc) : bool :=
  forallb (fun ka => py_eq (doc_get operation ka.1) (count_rows (fun row => String.eqb (row_action row) ka.2) rows))
    [("planned_insert_count", "insert"); ("planned_update_count", "replace"); ("planned_delete_count", "delete")]%string.
Definition sequences_ok (operation : doc) (rows : list doc) : bool :=
  (Z.of_nat (length rows) =? int_of (doc_get operation "planned_preimage_count")) &&
  forallb (fun ir => py_eq (doc_get ir.2 "sequence") (VInt (Z.of_nat ir.1 + 1))) (imap pair rows).
Definition _validate_rollback_preimages (operation : doc) (observed : list doc) : result (list doc) :=
  if sequences_ok operation observed && rollback_rows_ok operation [] observed
     && py_eq (count_rows is_marker_row observed) (VInt 1) && action_counts_ok operation observed
     && match last observed with Some row => is_marker_row row | None => false end
  then Ok observed else Err rollback_blocked.

(** [preimages.sort(key=...)]; a row without an integer is refused anyway. *)
Fixpoint insert_by_sequence (d : doc) (l : list doc) : list doc :=
  match l with
  | [] => [d]
  | e :: l' => if int_of (doc_get d "sequence") <=? int_of (doc_get e "sequence") then d :: l else e :: insert_by_sequence d l'
  end.
Definition sort_by_sequence (l : list doc) : list doc := foldr insert_by_sequence [] l.

Definition validated_record_set (operation_id : string) (operation : option doc) (preimages : list doc) : result record_set :=
  let! persisted := _validate_rollback_operation operation operation_id in
  let! records := _validate_rollback_preimages persisted (sort_by_sequence preimages) in
  Ok {| rs_operation_id := operation_id; rs_state := str_at persisted "state"; rs_operation := persisted; rs_records := records |}.

Definition operation_of (operation_id : string) (s : time_db) : option doc := find_one Operations 0 (FEq ["_id"%string] (VStr operation_id)) s.
Definition preimages_of (operation_id : string) (s : time_db) : list doc := find Preimages 0 (FEq ["operation_id"%string] (VStr operation_id)) s.
Definition _transaction_rollback_record_set (operation_id : string) : etx record_set :=
  let& s := tx_get in tx_lift (validated_record_set operation_id (operation_of operation_id s) (preimages_of operation_id s)).

(** ** The inverse plan *)

Definition marker_proof_fields (operation marker_record : doc) : list (string * val) :=
  [("_id", doc_get marker_record "target_id"); ("seller_id", doc_get operation "seller_id"); ("read_model", VStr READ_MODEL); ("state", VStr "reconciled");
   ("date_from", doc_get operation "date_from"); ("fresh_until", doc_get operation "date_to"); ("reconciled_until", doc_get operation "date_to");
   ("last_event_synced_at", doc_get operation "date_from"); ("updated_at", doc_get operation "date_to"); ("source", VStr RECONCILE_SOURCE);
   ("coverage_basis", VStr "legacy_imported"); ("revision", doc_get marker_record "expected_forward_revision"); ("schema_version", VInt 1)]%string.
Definition _validated_rollback_marker (operation : doc) (records : list doc) (marker : option doc) : result doc :=
  match last records, marker with
  | Some marker_record, Some m =>
      let expected := marker_proof_fields operation marker_record in
      if has_fields m (map fst expected ++ ["proof_fingerprint"%string]) && negb (differs m expected) && sha_ok (doc_get m "proof_fingerprint")
      then Ok m else Err target_drift
  | _, _ => Err target_drift
  end.

Fixpoint rollback_metrics (operation : doc) (indexed : gmap string doc) (documents : list doc) : result (gmap string doc) :=
  match documents with
  | [] => Ok indexed
  | d :: documents =>
      match doc_get d "_id", _canonical_bson_bytes d with
      | VStr i, Ok _ =>
          if string_is_empty i || is_some (indexed !! i) || negb (metric_preimage_ok operation d i) then Err target_drift
          else rollback_metrics operation (<[i := d]> indexed) documents
      | _, _ => Err target_drift
      end
  end.
Definition _validated_rollback_metrics (operation : doc) (documents : list doc) : result (gmap string doc) := rollback_metrics operation ∅ documents.

Definition inverse (action : string) : option string :=
  if String.eqb action "insert" then Some "delete"%string
  else if String.eqb action "replace" then Some "replace"%string
  else if String.eqb action "delete" then Some "insert"%string else None.
Definition _rollback_mutation (record : doc) : result rollback_mutation :=
  match inverse (row_action record) with
  | None => Err rollback_blocked
  | Some action =>
      Ok {| rm_target_collection := str_at record "target_collection"; rm_target_id := str_at record "target_id"; rm_action := action;
            rm_expected_forward_revision := str_at record "expected_forward_revision"; rm_forward_sequence := int_of (doc_get record "sequence");
            rm_restoration := if String.eqb action "delete" then None else opt_of (doc_get record "preimage") |}
  end.

Definition is_metric_row (row : doc) : bool := String.eqb (row_target row).1 METRIC_COLLECTION.
(** The target is as the forward operation left it. *)
Definition undrifted (current : gmap string doc) (record : doc) : bool :=
  match current !! (row_target record).2 with
  | Some d =>
      (String.eqb (row_action record) "insert" || String.eqb (row_action record) "replace")
      && py_eq (doc_get d "revision") (doc_get record "expected_forward_revision")
  | None => negb (String.eqb (row_action record) "insert" || String.eqb (row_action record) "replace")
  end.
Definition prepared : Type := rollback_plan * option doc * gmap string doc.
Definition _prepare_rollback_record_set (rs : record_set) (marker : option doc) (documents : list doc) : result prepared :=
  if one_of ["rolled_back"; "rollback_blocked"]%string (VStr (rs_state rs))
  then Ok ({| rp_operation_id := rs_operation_id rs; rp_state := rs_state rs; rp_mutations := [] |}, None, ∅)
  else
    let! current_marker := _validated_rollback_marker (rs_operation rs) (rs_records rs) marker in
    let! current_metrics := _validated_rollback_metrics (rs_operation rs) documents in
    let! proof := recast "_StockTimeActionPlanError" rollback_blocked (_metric_proof_fingerprint (map_to_list current_metrics).*2) in
    if negb (py_eq (VStr proof) (doc_get current_marker "proof_fingerprint")) then Err target_drift
    else if negb (forallb (undrifted current_metrics) (List.filter is_metric_row (rs_records rs))) then Err target_drift
    else
      let! marker_mutation := match last (rs_records rs) with Some r => _rollback_mutation r | None => Err rollback_blocked end in
      let! metrics := all_of _rollback_mutation (List.filter is_metric_row (rev (removelast (rs_records rs)))) in
      Ok ({| rp_operation_id := rs_operation_id rs; rp_state := rs_state rs; rp_mutations := marker_mutation :: metrics |}, Some current_marker, current_metrics).

Definition _rollback_binding (operation : doc) : binding :=
  {| b_seller_id := str_at operation "seller_id"; b_date_from := date_of (doc_get operation "date_from"); b_date_to := date_of (doc_get operation "date_to");
     b_source_fingerprint := str_at operation "source_fingerprint"; b_plan_fingerprint := str_at operation "plan_fingerprint" |}.
Definition metrics_of (operation : doc) (s : time_db) : list doc := _metric_interval_documents (_rollback_binding operation) s.
Definition owned_marker (operation : doc) (s : time_db) : option doc := marker_of (str_at operation "seller_id") s.

(** ** Compare-and-set writes *)

Definition _rollback_selector (operation : doc) (m : rollback_mutation) (with_revision : bool) : filter :=
  FAnd ((FEq ["_id"%string] (VStr (rm_target_id m)) ::
    if String.eqb (rm_target_collection m) MARKER_COLLECTION
    then fields_filter [("seller_id", doc_get operation "seller_id"); ("read_model", VStr READ_MODEL)]%string
    else _metric_interval_query (_rollback_binding operation)) ++
    if with_revision then [FEq ["revision"%string] (VStr (rm_expected_forward_revision m))] else []).
(** [except OperationFailure as exc] of code 11000. *)
Definition duplicate_is_drift {A} (t : etx A) : etx A := fun n s =>
  match t n s with Err e => if String.eqb (exn_cls e) "DuplicateKeyError" then Err target_drift else Err e | r => r end.
Definition restoration (m : rollback_mutation) : etx doc := match rm_restoration m with Some d => tx_ret (canonical d) | None => tx_fail rollback_blocked end.
Definition exact_or_drift (b : bool) : etx unit := check& b else target_drift in tx_ret tt.
Definition target_coll (m : rollback_mutation) : coll := if String.eqb (rm_target_collection m) MARKER_COLLECTION then Markers else Metrics.
Definition _apply_rollback_mutation (operation : doc) (m : rollback_mutation) : etx unit :=
  let c := target_coll m in
  if String.eqb (rm_action m) "delete" then
    let& deleted := delete_one c 0 (_rollback_selector operation m true) in
    exact_or_drift (deleted =? 1)
  else if String.eqb (rm_action m) "replace" then
    let& d := restoration m in
    let& ' (matched, modified, _) := replace_one c 0 (_rollback_selector operation m true) d false in
    exact_or_drift ((matched =? 1) && (modified =? 1))
  else if String.eqb (rm_action m) "insert" then
    let& d := restoration m in
    let& ' (matched, _, upserted) := duplicate_is_drift (replace_one c 0 (_rollback_selector operation m false) d true) in
    exact_or_drift ((matched =? 0) && bool_decide (upserted = Some (rm_target_id m)))
  else tx_fail rollback_blocked.
Fixpoint apply_mutations (operation : doc) (ms : list rollback_mutation) : etx unit :=
  match ms with [] => tx_ret tt | m :: ms => do& _apply_rollback_mutation operation m in apply_mutations operation ms end.

Definition restore_metric (baseline : gmap string doc) (m : rollback_mutation) : gmap string doc :=
  if String.eqb (rm_action m) "delete" then delete (rm_target_id m) baseline
  else match rm_restoration m with Some d => <[rm_target_id m := d]> baseline | None => baseline end.
Definition _rollback_baseline (current_metrics : gmap string doc) (plan : rollback_plan) : list doc :=
  (map_to_list (foldl restore_metric current_metrics (tl (rp_mutations plan)))).*2.

(** ** The transaction of a rollback *)

Definition _rollback_operation_identity (operation : doc) : list (string * val) :=
  map (fun k => (k, doc_get operation k))
    ["_id"; "seller_id"; "read_model"; "date_from"; "date_to"; "source_fingerprint"; "plan_fingerprint"; "planned_insert_count"; "planned_update_count";
     "planned_delete_count"; "planned_preimage_count"; "schema_version"]%string.
Definition _rollback_mutable_fields : list string := ["state"; "heartbeat_at"; "updated_at"; "terminal_at"; "lease_until"; "error_code"]%string.
(** Does a field that does not change differ? *)
Definition immutable_differs (observed original : doc) : bool :=
  existsb (fun kv => negb (bool_decide (kv.1 ∈ _rollback_mutable_fields)) && negb (py_eq (doc_get observed kv.1) kv.2)) (map_to_list original).
Definition same_records (a b : record_set) : bool :=
  String.eqb (rs_state a) "committed" && py_eq (VDict (rs_operation a)) (VDict (rs_operation b))
  && py_eq (VList (map VDict (rs_records a))) (VList (map VDict (rs_records b))).
Definition rolled_back_stage : list (string * aexpr) :=
  [("state", ALit (VStr "rolled_back")); ("heartbeat_at", ANow); ("updated_at", ANow); ("terminal_at", ANow); ("lease_until", ANow); ("error_code", ALit VNone)]%string.

(** What the callers of a transaction remember of it. *)
Record recovery := { rv_record_set : record_set; rv_baseline : list doc; rv_operation : doc; rv_marker : option doc }.

Definition _marker_restoration (plan : rollback_plan) : option doc := match rp_mutations plan with m :: _ => rm_restoration m | [] => None end.
(** The operation becomes [rolled_back]. *)
Definition close_operation (clock : nat -> Z) (rs : record_set) : etx unit :=
  let operation := rs_operation rs in
  let& now := tx_now clock in
  let& ' (matched, modified) := update_set Operations now
    (FAnd (fields_filter (_rollback_operation_identity operation ++ ("state"%string, VStr "committed") ::
       map (fun k => (k, doc_get operation k)) ["attempt"; "attempt_token"; "fence"; "committed_at"]%string))) rolled_back_stage in
  check& (matched =? 1) && (modified =? 1) else rollback_blocked in
  let& s := tx_get in
  let& observed := tx_lift (_validate_rollback_operation (operation_of (rs_operation_id rs) s) (rs_operation_id rs)) in
  check& negb (immutable_differs observed operation) else rollback_blocked in
  tx_ret tt.
Definition rollback_tx (clock : nat -> Z) (majority : record_set) : etx recovery :=
  let& rs := _transaction_rollback_record_set (rs_operation_id majority) in
  check& same_records rs majority else rollback_blocked in
  let operation := rs_operation rs in
  let& s := tx_get in
  let& ' (plan, _, metrics) := tx_lift (_prepare_rollback_record_set rs (owned_marker operation s) (metrics_of operation s)) in
  let baseline := _rollback_baseline metrics plan in
  let expected_marker := _marker_restoration plan in
  do& apply_mutations operation (rp_mutations plan) in
  let& s := tx_get in
  check& _exact_preimages_match (metrics_of operation s) baseline else target_drift in
  check& _exact_preimages_match (option_list (owned_marker operation s)) (option_list expected_marker) else target_drift in
  check& _exact_preimages_match (preimages_of (rs_operation_id majority) s) (rs_records rs) else rollback_blocked in
  do& close_operation clock rs in
  tx_ret {| rv_record_set := rs; rv_baseline := baseline; rv_operation := operation; rv_marker := expected_marker |}.

(** ** The end of an operation whose targets drifted *)

Definition _full_document_selector (d : doc) : filter := FAnd (fields_filter (map_to_list d)).
Definition blocked_stage : list (string * aexpr) :=
  [("state", ALit (VStr "rollback_blocked")); ("error_code", ALit (VStr "TARGET_DRIFT")); ("heartbeat_at", ANow); ("updated_at", ANow); ("terminal_at", ANow);
   ("lease_until", ANow)]%string.
Definition _validated_blocked_operation (observed : option doc) (original : doc) (operation_id : string) : result doc :=
  let! operation := _validate_rollback_operation observed operation_id in
  if negb (py_eq (doc_get operation "state") (VStr "rollback_blocked")) || negb (py_eq (doc_get operation "error_code") (VStr "TARGET_DRIFT"))
     || immutable_differs operation original
  then Err rollback_blocked else Ok operation.
Definition stale_stage (blocked : doc) : list (string * aexpr) := [("state", ALit (VStr "stale")); ("updated_at", ALit (doc_get blocked "updated_at"))]%string.
(** The marker, made stale where the operation still owns it. *)
Definition quarantine_marker (rs : record_set) (blocked : doc) : etx (option doc) :=
  let operation := rs_operation rs in
  let& s := tx_get in
  let observed := owned_marker operation s in
  match _validated_rollback_marker operation (rs_records rs) observed with
  | Err _ => tx_ret observed
  | Ok owned =>
      let& ' (matched, modified) := update_set Markers 0 (_full_document_selector owned) (stale_stage blocked) in
      check& (matched =? 1) && (modified =? 1) else rollback_blocked in
      tx_ret (Some (doc_update owned [("state", VStr "stale"); ("updated_at", doc_get blocked "updated_at")]%string))
  end.
Definition finalize_tx (clock : nat -> Z) (majority : record_set) : etx recovery :=
  let& rs := _transaction_rollback_record_set (rs_operation_id majority) in
  check& same_records rs majority else rollback_blocked in
  let operation := rs_operation rs in
  let& now := tx_now clock in
  let& ' (matched, modified) := update_set Operations now (_full_document_selector operation) blocked_stage in
  check& (matched =? 1) && (modified =? 1) else rollback_blocked in
  let& s := tx_get in
  let& blocked := tx_lift (_validated_blocked_operation (operation_of (str_at operation "_id") s) operation (str_at operation "_id")) in
  let& expected_marker := quarantine_marker rs blocked in
  let& s := tx_get in
  check& _exact_preimages_match (option_list (owned_marker operation s)) (option_list expected_marker) else rollback_blocked in
  check& _exact_preimages_match (preimages_of (str_at operation "_id") s) (rs_records rs) else rollback_blocked in
  tx_ret {| rv_record_set := rs; rv_baseline := []; rv_operation := blocked; rv_marker := expected_marker |}.
End Rollback.

(** ** The steps of a rollback *)

Section Run.
Context `{PyRepr} `{Sha256} `{Bson} `{Surrounding time_db} `{Commits}.

Definition _load_validated_rollback_record_set (operation_id : string) : eact record_set :=
  check~ hex64 operation_id else rollback_blocked in
  let~ operation := read_store (operation_of operation_id) in
  let~ preimages := read_store (preimages_of operation_id) in
  act_lift (validated_record_set operation_id operation preimages).

Definition _prepare_forward_rollback (operation_id : string) : eact rollback_plan :=
  let~ rs := _load_validated_rollback_record_set operation_id in
  if one_of ["rolled_back"; "rollback_blocked"]%string (VStr (rs_state rs))
  then act_ret {| rp_operation_id := operation_id; rp_state := rs_state rs; rp_mutations := [] |}
  else
    let~ marker := read_store (owned_marker (rs_operation rs)) in
    let~ documents := read_store (metrics_of (rs_operation rs)) in
    let~ prepared := act_lift (recast "_TargetDriftError" rollback_blocked (_prepare_rollback_record_set rs marker documents)) in
    act_ret prepared.1.1.

(** An unavailable readback says nothing. *)
Definition readback (p : eact bool) : eact bool := act_try p (fun _ => act_ret false).
Definition _majority_rollback_readback (rv : recovery) : eact bool := readback (
  let rs := rv_record_set rv in
  let original := rs_operation rs in
  let~ operation := read_store (operation_of (rs_operation_id rs)) in
  let~ preimages := read_store (preimages_of (rs_operation_id rs)) in
  let~ metrics := read_store (metrics_of original) in
  let~ marker := read_store (owned_marker original) in
  let~ observed := act_lift (_validate_rollback_operation operation (rs_operation_id rs)) in
  act_ret (py_eq (doc_get observed "state") (VStr "rolled_back") && negb (immutable_differs observed original)
           && _exact_preimages_match preimages (rs_records rs) && _exact_preimages_match metrics (rv_baseline rv)
           && _exact_preimages_match (option_list marker) (option_list (rv_marker rv)))).
Definition _majority_target_drift_finalizer_readback (rv : recovery) : eact bool := readback (
  let rs := rv_record_set rv in
  let~ operation := read_store (operation_of (rs_operation_id rs)) in
  let~ preimages := read_store (preimages_of (rs_operation_id rs)) in
  let~ marker := read_store (owned_marker (rs_operation rs)) in
  let~ _ := act_lift (_validated_blocked_operation operation (rs_operation rs) (rs_operation_id rs)) in
  act_ret (_exact_preimages_match (option_list operation) [rv_operation rv] && _exact_preimages_match preimages (rs_records rs)
           && _exact_preimages_match (option_list marker) (option_list (rv_marker rv)))).

(** After the commit of a transaction: an unknown outcome is read back. *)
Definition settle_commit (read : recovery -> eact bool) (o : recovery * result unit) : eact unit :=
  match o.2 with
  | Ok _ => act_ret tt
  | Err e =>
      if is_unknown e then
        let~ exact := read o.1 in
        check~ exact else outcome_unknown in act_ret tt
      else act_fail e
  end.

Definition _finalize_target_drift (majority : record_set) : eact unit :=
  let~ o := committing (fun clock => finalize_tx clock majority) in
  settle_commit _majority_target_drift_finalizer_readback o.

Definition is_drift (e : exn) : bool := String.eqb (exn_cls e) "_TargetDriftError".
Definition _rollback_forward_operation (operation_id : string) : eact rollback_plan :=
  let done := {| rp_operation_id := operation_id; rp_state := "rolled_back"; rp_mutations := [] |} in
  let~ majority := _load_validated_rollback_record_set operation_id in
  if String.eqb (rs_state majority) "rolled_back" then act_ret done
  else
    check~ negb (String.eqb (rs_state majority) "rollback_blocked") else rollback_blocked in
    do~ act_try (let~ o := committing (fun clock => rollback_tx clock majority) in settle_commit _majority_rollback_readback o)
      (fun e => if is_drift e then do~ _finalize_target_drift majority in act_fail rollback_blocked else act_fail e) in
    act_ret done.
End Run.
