(* ===== verification/RecoveryQueue.v ===== *)
(** The recovery queue: [FormulaRecoveryQueue] of
    modules/sheets/.../formulas/recovery.py, over visits of the shared store.

    A call of MongoDB is one visit, and so is the admission transaction, which
    the guard document of the seller serializes.  Where a query has no sort the
    server may pick any match; the model takes the first by [_id]. *)

From S2P Require Export HistoryStore.

#[local] Open Scope Z_scope.

(** ** Calls on the jobs *)

Section Server.
Definition jobs_of (f : filter) (s : store) : list doc := found (matches 0 f) (st_jobs s).

Definition count_jobs (f : filter) (limit : Z) (s : store) : Z := Z.min limit (Z.of_nat (length (jobs_of f s))).

(** The first of the matching documents by [sort]. *)
Definition best (sort : sort_spec) (ds : list doc) : option doc :=
  foldr (fun d o => match o with Some b => if doc_le sort d b then Some d else o | None => Some d end) None ds.

(** Apply an update to a stored job; its new content. *)
Definition write_job (d : doc) (ops : list upd) : tx doc :=
  match doc_id d, apply_upds 0 false ops d with
  | Some i, Some d' =>
      let& s := tx_get in
      do& tx_put (with_jobs (insert i d') s) in tx_ret d'
  | _, _ => tx_fail (mk_exn "WriteError" "write rejected")
  end.
(** [update_one]: whether a job matched. *)
Definition update_one (f : filter) (ops : list upd) : tx bool :=
  let& s := tx_get in
  match best [] (jobs_of f s) with
  | Some d => do& write_job d ops in tx_ret true
  | None => tx_ret false
  end.
Fixpoint write_jobs (ds : list doc) (ops : list upd) : tx unit :=
  match ds with [] => tx_ret tt | d :: ds => do& write_job d ops in write_jobs ds ops end.
Definition update_many (f : filter) (ops : list upd) : tx unit := let& s := tx_get in write_jobs (jobs_of f s) ops.
(** [find_one_and_update(..., return_document=AFTER)]. *)
Definition find_one_and_update (f : filter) (ops : list upd) (sort : sort_spec) : tx (option doc) :=
  let& s := tx_get in
  match best sort (jobs_of f s) with
  | Some d => let& d' := write_job d ops in tx_ret (Some (decode_doc true d'))
  | None => tx_ret None
  end.
Definition find_job (f : filter) (sort : sort_spec) (s : store) : option doc :=
  option_map (decode_doc true) (best sort (jobs_of f s)).
Definition insert_job (i : string) (d : doc) : tx unit :=
  let& s := tx_get in
  check& negb (is_some (st_jobs s !! i)) else duplicate_doc in
  tx_put (with_jobs (insert i (encode_doc d)) s).
End Server.

(** ** The queue *)

(** [seller_gate]: eligible now? *)
Class SellerGate := seller_gate : nat -> string -> result bool.

Record queue := {
  q_models : list string;
  q_sellers : option (list string);
  q_gated : bool;
  q_capacity : Z;
  q_reserved : Z;
  q_authority : option string;
  q_year_history : bool;
}.

(** [__init__]. *)
Definition new_queue (q : queue) : result queue :=
  if q_capacity q <? 1 then raise_value "recovery capacity must be a positive integer"
  else if negb ((0 <=? q_reserved q) && (q_reserved q <=? Z.min 1 (q_capacity q)))
  then raise_value "inventory reservation must be zero or one within capacity"
  else Ok q.

Definition active_states : list val := [VStr "pending"; VStr "running"]%string.
Definition is_active (seller : string) : filter := FAnd [FEq ["seller_id"] (VStr seller); FIn ["state"] active_states]%string.
Definition capacity_error {A} : tx A := tx_fail (mk_exn "RecoveryCapacityError" "recovery seller capacity reached").

Definition text_list (v : val) : list string := match v with VList l => omap str_of l | _ => [] end.

Section Queue.
Context `{Sha256} `{Surroundings} `{SellerGate}.
Variable q : queue.

(** [{"policy_authority": ...}]. *)
Definition authority_filter : filter :=
  match q_authority q with Some a => FEq ["policy_authority"%string] (VStr a) | None => FExists ["policy_authority"%string] false end.

Definition gate_open (seller : string) : act bool :=
  if q_gated q then fetched (fun n => seller_gate n seller) else act_ret true.

(** ** Admission *)

Definition strs (l : list string) : val := VList (map VStr l).
Definition request_fields (r : request) : list (string * val) :=
  match r with
  | QuestionScanRecoveryRequest _ plan a b | OrderHistoryRecoveryRequest _ plan a b =>
      [("date_from", VDate true a); ("date_to", VDate true b); ("history_protocol_version", VInt 1); ("history_plan_id", VStr plan);
       ("history_acquisition_id", VStr (key r)); ("history_generation", VInt 1); ("history_pass_number", VInt 1);
       ("history_checkpoint_revision", VInt 0)]
  | CatalogRecoveryRequest _ m ids | RenewalRecoveryRequest _ m ids _ =>
      [(if String.eqb m "catalog_product_snapshots" then "catalog_product_ids" else "item_ids", strs ids); ("catalog_offset", VInt 0)]
  | OrderIdsRecoveryRequest _ ids => [("order_ids", strs ids)]
  | ModifiedOrderIdsRecoveryRequest _ i v h =>
      [("order_ids", strs [i]); ("modification_at", match fromisoformat v with Ok d => d | Err _ => VNone end);
       ("modification_version", VStr v); ("modification_hash", VStr h)]
  | ShipmentIdsRecoveryRequest _ ids => [("shipment_ids", strs ids)]
  | ItemIdsRecoveryRequest _ _ ids => [("item_ids", strs ids)]
  | CatalogProductIdsRecoveryRequest _ ids => [("catalog_product_ids", strs ids)]
  | ItemInventoryRecoveryRequest _ => [("inventory_scope", VBool true)]
  | RecoveryRequest _ _ a b => [("date_from", VDate true a); ("date_to", VDate true b)]
  | YearHistoryRecoveryRequest _ _ a b => [("date_from", VDate true a); ("date_to", VDate true b); ("year_history", VBool true)]
  end%string.
Definition initial_job (r : request) (now : Z) : doc := mk_doc
  ([("_id", VStr (key r)); ("seller_id", VStr (seller_of r)); ("read_model", VStr (model_of r)); ("state", VStr "pending"); ("attempts", VInt 0);
    ("created_at", VDate true now); ("updated_at", VDate true now); ("available_at", VDate true now)]%string ++
   match q_authority q with Some a => [("policy_authority"%string, VStr a)] | None => [] end ++ request_fields r).

(** Requests of explicit items, which running jobs may already cover. *)
Definition requested_items (r : request) : option (list string) :=
  match r with
  | CatalogRecoveryRequest _ m ids | RenewalRecoveryRequest _ m ids _ | ItemIdsRecoveryRequest _ m ids =>
      if string_in m ["item_formula_rows"; "catalog_buybox_snapshots"]%string then Some ids else None
  | _ => None
  end.
Definition narrowed (r : request) (ids : list string) : request :=
  match r with
  | CatalogRecoveryRequest s m _ => CatalogRecoveryRequest s m ids
  | RenewalRecoveryRequest s m _ slot => RenewalRecoveryRequest s m ids slot
  | r => ItemIdsRecoveryRequest (seller_of r) (model_of r) ids
  end.
Definition active_items (r : request) (s : store) : list doc :=
  firstn (Z.to_nat (q_capacity q))
    (jobs_of (FAnd [FEq ["seller_id"] (VStr (seller_of r)); FEq ["read_model"] (VStr (model_of r)); FIn ["state"] active_states;
                    FExists ["item_ids"] true])%string s).

(** What is left to acquire: [None] when running jobs cover it all. *)
Definition remaining_items (r : request) (s : store) (requested : list string) : list string :=
  let covered := concat (map (fun d => text_list (doc_get d "item_ids")) (active_items r s)) in
  List.filter (fun i => negb (string_in i covered)) requested.

Definition validates (r : request) : bool :=
  match r with QuestionScanRecoveryRequest _ _ _ _ | OrderHistoryRecoveryRequest _ _ _ _ | ShipmentIdsRecoveryRequest _ _ => true | _ => false end.
(** Requests whose terminal job is never reopened. *)
Definition is_final (r : request) : bool :=
  match r with QuestionScanRecoveryRequest _ _ _ _ | OrderHistoryRecoveryRequest _ _ _ _ | ModifiedOrderIdsRecoveryRequest _ _ _ _ => true | _ => false end.
Definition is_inventory (r : request) : bool := match r with ItemInventoryRecoveryRequest _ => true | _ => false end.
Definition is_catalog (r : request) : bool :=
  match r with CatalogRecoveryRequest _ _ _ | RenewalRecoveryRequest _ _ _ _ => true | _ => false end.

(** The capacity of the seller: one more job may become active. *)
Definition check_capacity (r : request) : tx unit :=
  let& s := tx_get in
  let active := count_jobs (is_active (seller_of r)) (q_capacity q) s in
  let non_inventory := count_jobs (FAnd [is_active (seller_of r); FNe ["inventory_scope"%string] (VBool true)]) (q_capacity q) s in
  if negb (q_reserved q =? 0) && negb (is_inventory r) && (q_capacity q - q_reserved q <=? non_inventory) then capacity_error
  else if q_capacity q <=? active then capacity_error
  else tx_ret tt.

(** Reopening a shipment job: its fields and the attempts it keeps.  An
    acquisition read to its end starts over, remembered in its history
    ([$push]). *)
Definition shipment_reopen (r : request) (existing : doc) (ids : list string) : result (list upd * Z) :=
  if negb (has_key existing "shipment_offset") then Ok ([], 0)
  else
    match doc_get existing "shipment_offset" with
    | VInt offset =>
        if negb ((0 <=? offset) && (offset <=? Z.of_nat (length ids))) then raise_value "shipment cursor malformed during reopen"
        else if py_eq (doc_get existing "state") (VStr "completed") && (offset =? Z.of_nat (length ids)) then
          if negb (is_date (doc_get existing "updated_at")) then raise_value "completed shipment checkpoint time unavailable"
          else
            let entry := VDict (mk_doc
              [("offset", VInt offset); ("completed_at", doc_get existing "updated_at"); ("request_key", VStr (key r));
               ("seller_id", VStr (seller_of r)); ("read_model", VStr "shipments")]%string) in
            let! history := (match doc_get_or existing "shipment_cursor_history" (VList []) with
                             | VList l => Ok l | _ => Err (mk_exn "WriteError" "write rejected") end) in
            Ok ([USet ["shipment_offset"] (VInt 0); USet ["shipment_cursor_history"] (VList (history ++ [entry]))]%string, 0)
        else let! a := int_at existing "attempts" in Ok ([], a)
    | _ => raise_value "shipment cursor malformed during reopen"
    end.
Definition reopen (r : request) (admitted : string) (existing : doc) (now : Z) : tx unit :=
  let& ' (cursor_update, attempts) := tx_lift
    (match r with ShipmentIdsRecoveryRequest _ ids => shipment_reopen r existing ids | _ => Ok ([], 0) end) in
  let cursored := match r with ShipmentIdsRecoveryRequest _ _ => has_key existing "shipment_offset" | _ => false end in
  let f := FAnd (FEq ["_id"%string] (VStr admitted) ::
    (if cursored then [FEq ["shipment_ids"] (match r with ShipmentIdsRecoveryRequest _ ids => strs ids | _ => VNone end); FEq ["state"] (doc_get existing "state");
                       FEq ["shipment_offset"] (doc_get existing "shipment_offset")]%string else [])) in
  let& matched := update_one f
    ([USet ["state"] (VStr "pending"); USet ["attempts"] (VInt attempts); USet ["updated_at"] (VDate true now)]%string ++ cursor_update ++
     (if is_catalog r then [USet ["catalog_offset"] (VInt 0); UUnset ["catalog_failed_offsets"]; UUnset ["catalog_failure_reason"]]%string else []) ++
     (if is_inventory r then [UUnset ["inventory_offset"]; UUnset ["inventory_unavailable_ids"]]%string else [])) in
  check& matched || negb (match r with ShipmentIdsRecoveryRequest _ _ => true | _ => false end)
    else mk_exn "ValueError" "shipment reopen identity changed" in
  tx_ret tt.

(** [admit]: the callback of the admission transaction, which keeps the
    admitted key across its retries. *)
Definition admit_existing (r : request) (reopen_terminal : bool) (now : Z) (admitted candidate : string) (initial : doc) : tx unit :=
  let& s := tx_get in
  let existing := option_map (decode_doc true) (st_jobs s !! admitted) in
  match existing with
  | Some d =>
      if negb (py_eq (doc_get d "policy_authority") (match q_authority q with Some a => VStr a | None => VNone end)) then tx_ret tt
      else
        do& tx_lift (if validates r then validate_existing r existing else Ok tt) in
        if is_final r || negb reopen_terminal then tx_ret tt
        else
          let& state := tx_lift (doc_at d "state") in
          if existsb (py_eq state) active_states then tx_ret tt
          else do& check_capacity r in reopen r admitted d now
  | None => do& check_capacity r in insert_job candidate initial
  end.
Definition admit_in_tx (r : request) (reopen_terminal : bool) (now : Z) (admitted : string) : tx (unit * string) :=
  let initial := initial_job r now in
  let& s := tx_get in
  match requested_items r with
  | Some requested =>
      let remaining := remaining_items r s requested in
      if is_nil remaining then
        match active_items r s with
        | d :: _ => tx_ret (tt, default admitted (doc_id d))
        | [] => tx_fail (mk_exn "IndexError" "list index out of range")
        end
      else if bool_decide (remaining = requested) then
        do& admit_existing r reopen_terminal now admitted (key r) initial in tx_ret (tt, admitted)
      else
        let k := key (narrowed r remaining) in
        do& admit_existing r reopen_terminal now k k (<["_id" := VStr k]> (<["item_ids" := strs remaining]> initial))%string in
        tx_ret (tt, k)
  | None => do& admit_existing r reopen_terminal now admitted (key r) initial in tx_ret (tt, admitted)
  end.

(** The seed of the guard document, outside the transaction: [DuplicateKeyError] is suppressed. *)
Definition seed_guard : act unit :=
  act_try (visit (fun _ => tx_ret tt)) (fun e => if isinstance e "DuplicateKeyError" then act_ret tt else act_fail e).

(** A shipment, catalog or item acquisition has explicit IDs. *)
Definition explicit (r : request) : bool :=
  match r with
  | RecoveryRequest _ m _ _ =>
      negb (string_in m ["shipments"; "catalog_product_snapshots"; "catalog_buybox_snapshots"; "item_formula_rows"]%string)
  | ItemIdsRecoveryRequest _ m _ => negb (String.eqb m "catalog_product_snapshots")
  | _ => true
  end.

Definition enqueue (r : request) (reopen_terminal : bool) : act string :=
  check~ opt_ok (string_in (seller_of r)) (q_sellers q) else mk_exn "ValueError" "recovery seller is not enabled" in
  check~ string_in (model_of r) (q_models q) else mk_exn "ValueError" "recovery source is not enabled" in
  check~ explicit r else mk_exn "ValueError" "recovery requires explicit IDs" in
  let~ eligible := gate_open (seller_of r) in
  check~ eligible else mk_exn "ValueError" "recovery seller is not enabled" in
  let~ active := read_store (find_job (FAnd [FEq ["_id"] (VStr (key r)); FEq ["seller_id"] (VStr (seller_of r));
                                             FEq ["read_model"] (VStr (model_of r)); FIn ["state"] active_states])%string []) in
  do~ act_lift (if validates r then validate_existing r active else Ok tt) in
  if is_some active then act_ret (key r)
  else
    let~ now := act_now in
    do~ seed_guard in
    let~ admitted := (fun w => visit_keeping (faults (w_turn w)) (fun _ => admit_in_tx r reopen_terminal now) (key r) w) in
    act_ret admitted.2.

(** ** Reports *)

Definition in_flight (f : filter) (s : store) : bool := is_some (find_job f [] s).

(** [sweep_status]: a sweep in flight, else when the last one was anchored. *)
Definition sweep_filter (seller_id read_model : string) : result filter :=
  if String.eqb read_model "item_formula_rows" then
    Ok (FAnd [FEq ["_id"] (VStr (key (ItemInventoryRecoveryRequest seller_id))); FEq ["inventory_scope"] (VBool true)])%string
  else if String.eqb read_model "catalog_product_snapshots" then Ok (FExists ["catalog_offset"%string] true)
  else raise_value "only inventory and catalog products have spaced sweeps".
Definition sweep_blockers (read_model : string) (now : Z) : list filter :=
  if String.eqb read_model "item_formula_rows"
  then [FAnd [FEq ["read_model"] (VStr "catalog_buybox_snapshots"); FRel RGt ["updated_at"] (VDate true (now - 2 * LEASE))]]%string else [].
Definition anchored_at (job : doc) : val :=
  if has_key job "inventory_offset" && is_date (doc_get job "inventory_observed_at") then doc_get job "inventory_observed_at"
  else doc_get job "updated_at".
Definition sweep_status (seller_id read_model : string) : act (bool * option Z) :=
  let~ sweep := act_lift (sweep_filter seller_id read_model) in
  let~ now := (if String.eqb read_model "item_formula_rows" then act_now else act_ret 0) in
  let scope := FAnd [FEq ["seller_id"%string] (VStr seller_id); authority_filter] in
  let of_model := FAnd [FEq ["read_model"%string] (VStr read_model); sweep] in
  let~ busy := read_store (in_flight (FAnd [scope; FIn ["state"%string] active_states; FOr (of_model :: sweep_blockers read_model now)])) in
  if busy then act_ret (true, None)
  else
    let~ latest := read_store (fun s =>
      best [(["updated_at"%string], false)] (List.filter (fun d => is_date (doc_get d "updated_at")) (jobs_of (FAnd [scope; of_model]) s))) in
    act_ret (false, match latest with
                    | Some d => match anchored_at d with VDate _ us => Some us | _ => None end
                    | None => None
                    end).

Definition renewal_filter (f : filter) : filter :=
  FAnd [f; FIn ["state"] active_states; FExists ["catalog_offset"] true; FNe ["inventory_scope"] (VBool true)]%string.
Definition renewal_status (seller_id read_model slot : string) : act (bool * bool) :=
  check~ string_in read_model RENEWAL_READ_MODELS else mk_exn "ValueError" "only buybox and item rows have renewal passes" in
  let~ busy := read_store (in_flight (renewal_filter
    (FAnd [FEq ["seller_id"] (VStr seller_id); authority_filter; FEq ["read_model"] (VStr read_model)])))%string in
  if busy then act_ret (true, false)
  else let~ taken := read_store (in_flight (FEq ["_id"%string] (VStr slot))) in act_ret (false, taken).
Definition renewal_in_flight : act bool :=
  read_store (in_flight (renewal_filter (FIn ["read_model"%string] (map VStr (sorted_set RENEWAL_READ_MODELS))))).
Definition year_history_in_flight : act bool :=
  let~ now := act_now in
  read_store (in_flight (FAnd [FEq ["year_history"] (VBool true);
    FOr [FEq ["state"] (VStr "running"); FAnd [FEq ["state"] (VStr "pending"); FRel RLte ["available_at"] (VDate true now)]]])%string).
Definition latest_year_history (seller_id read_model : string) : act (option doc) :=
  read_store (find_job (FAnd [FEq ["seller_id"] (VStr seller_id); FEq ["read_model"] (VStr read_model); FEq ["year_history"] (VBool true)])%string
    [(["updated_at"%string], false); (["_id"%string], true)]).
Definition failed_year_history_across (seller_id read_model : string) (edge : Z) : act (option doc) :=
  read_store (find_job (FAnd [FEq ["seller_id"] (VStr seller_id); FEq ["read_model"] (VStr read_model); FEq ["year_history"] (VBool true);
      FEq ["state"] (VStr "failed"); FRel RLt ["date_from"] (VDate true edge); FRel RGt ["date_to"] (VDate true edge)])%string
    [(["date_from"%string], false); (["_id"%string], true)]).
Definition renewal_passes (slot_keys : list string) : act (list (string * string)) :=
  if is_nil slot_keys then act_ret []
  else read_store (fun s =>
    map (fun d => (match doc_get d "_id" with VStr i => i | _ => EmptyString end, match doc_get d "state" with VStr st => st | VNone => "None" | _ => EmptyString end))
      (jobs_of (FIn ["_id"%string] (map VStr slot_keys)) s))%string.
End Queue.
