(* ===== verification/RecoveryWork.v ===== *)
(** The worker's side of the recovery queue: claims, leases, checkpoints and the
    end of an attempt ([FormulaRecoveryQueue] of
    modules/sheets/.../formulas/recovery.py). *)

From S2P Require Export RecoveryQueue.

#[local] Open Scope Z_scope.

(** [uuid4().hex]. *)
Class AttemptTokens := fresh_token : nat -> string.

(** [recovery_lane_filter]. *)
Definition lane_identities : list string := ["item_ids"; "catalog_product_ids"; "order_ids"; "shipment_ids"]%string.
Definition recovery_lane_filter (lane : option string) : result (list filter) :=
  match lane with
  | None => Ok []
  | Some lane =>
      if String.eqb lane "inventory" then Ok [FEq ["inventory_scope"%string] (VBool true)]
      else if String.eqb lane "ids" then
        Ok [FNe ["inventory_scope"%string] (VBool true); FOr (map (fun k => FExists [k] true) lane_identities)]
      else if String.eqb lane "ranges" then
        Ok (FNe ["inventory_scope"%string] (VBool true) :: map (fun k => FExists [k] false) lane_identities)
      else raise_value "unknown recovery lane"
  end.

Definition opt_sorted (l : option (list string)) : list filter :=
  match l with Some l => [FIn ["seller_id"%string] (map VStr (sorted_set l))] | None => [] end.
Definition release_lease : list upd := [UUnset ["lease_until"]; UUnset ["attempt_token"]]%string.

(** The lease of an attempt. *)
Definition lease_to (now : Z) : upd := USet ["lease_until"%string] (VDate true (now + LEASE)).
Definition failed_for (reason : string) (now : Z) : list upd :=
  [USet ["state"] (VStr "failed"); USet ["failure_reason"] (VStr reason); USet ["updated_at"] (VDate true now);
   USet ["available_at"] (VDate true (now + COOLDOWN))]%string ++ release_lease.

(** [sorted(set(...))] of a stored list of strings. *)
Fixpoint strings_of (l : list val) : result (list string) :=
  match l with
  | [] => Ok []
  | VStr x :: l => let! r := strings_of l in Ok (x :: r)
  | _ => raise_type "unsupported operand type(s)"
  end.
Definition strings_at (v : val) : result (list string) :=
  match v with VList l => strings_of l | _ => raise_type "object is not iterable" end.
(** [l[a:b]], [0 <= b]. *)
Definition slice_ids (l : list string) (a b : Z) : list string :=
  let a := if a <? 0 then Z.max 0 (Z.of_nat (length l) + a) else a in
  firstn (Z.to_nat (b - a)) (skipn (Z.to_nat a) l).

Section Work.
Context `{Sha256} `{Surroundings} `{SellerGate} `{AttemptTokens}.
Variable q : queue.

(** An update of the job while this attempt owns it: did it match? *)
Definition update_owned (job : doc) (now : Z) (ops : list upd) : act bool :=
  let~ owned := act_lift (_owned job now) in
  visit (fun _ => update_one owned ops).

(** ** Checkpoints of an inventory *)

Definition inventory_checkpoint_ok (job : doc) (item_ids : list string) (offset : Z) (unavailable : bool) : result bool :=
  let size := Z.of_nat (length item_ids) in
  if negb (py_eq (doc_get job "inventory_scope") (VBool true) && is_exact_bool (doc_get job "inventory_scope"))
     || (10000 <? size) || negb (bool_decide (item_ids = sorted_set item_ids)) || negb (forallb item_id item_ids)
     || (unavailable && negb (has_key job "inventory_offset")) || negb ((0 <=? offset) && (offset <=? size))
     || (negb (has_key job "inventory_offset") && negb (offset =? 0))
  then Ok false
  else if has_key job "inventory_offset" then
    let! ids := doc_at job "inventory_ids" in
    if negb (py_eq (VList (map VStr item_ids)) ids) then Ok false
    else let! at_ := int_at job "inventory_offset" in Ok ((at_ <? offset) && (offset <=? at_ + 20))
  else Ok true.

(** The update of a checkpoint: the items found unavailable accumulate, and a
    walk that ends with any of them has failed. *)
Definition inventory_checkpoint (job : doc) (item_ids : list string) (offset : Z) (unavailable : bool) (now : Z) : result (list upd) :=
  let size := Z.of_nat (length item_ids) in
  let completed := offset =? size in
  let! earlier := strings_at (doc_get_or job "inventory_unavailable_ids" (VList [])) in
  let! skipped := (if unavailable then let! a := int_at job "inventory_offset" in Ok (slice_ids item_ids a offset) else Ok []) in
  let missing := sorted_set (earlier ++ skipped) in
  let terminal_failure := completed && negb (is_nil missing) in
  let! available_at :=
    (if completed then
       if terminal_failure then Ok (now + COOLDOWN)
       else
         let seen := doc_get job "inventory_observed_at" in
         let! observed := (if truthy seen then utc_at seen else let! u := doc_at job "updated_at" in utc_at u) in
         Ok (Z.max now (observed + INVENTORY_REFRESH_INTERVAL))
     else Ok now) in
  let! observed_field :=
    (if has_key job "inventory_offset" then Ok []
     else let! u := doc_at job "updated_at" in Ok [USet ["inventory_observed_at"%string] u]) in
  Ok ([USet ["inventory_ids"%string] (strs item_ids); USet ["inventory_offset"%string] (VInt offset);
       USet ["inventory_unavailable_ids"%string] (strs missing)] ++ observed_field ++
      [USet ["state"%string] (VStr (if terminal_failure then "failed" else if completed then "completed" else "pending")%string);
       USet ["attempts"%string] (VInt 0); USet ["updated_at"%string] (VDate true now); USet ["available_at"%string] (VDate true available_at)] ++
      (if terminal_failure then [USet ["failure_reason"%string] (VStr "source_incomplete")] else []) ++ release_lease ++
      (if terminal_failure then [] else [UUnset ["failure_reason"%string]])).

Definition checkpoint_inventory (job : doc) (item_ids : list string) (offset : Z) (unavailable : bool) : act bool :=
  let~ ok := act_lift (inventory_checkpoint_ok job item_ids offset unavailable) in
  check~ ok else mk_exn "ValueError" "invalid inventory checkpoint" in
  let~ now := act_now in
  let~ ops := act_lift (inventory_checkpoint job item_ids offset unavailable now) in
  update_owned job now ops.

(** ** The lease *)

Definition renew (job : doc) : act bool :=
  let~ now := act_now in
  update_owned job now [lease_to now; USet ["updated_at"%string] (VDate true now)].

Definition defer_quota (job : doc) : act bool :=
  let~ now := act_now in
  update_owned job now
    ([USet ["state"%string] (VStr "pending"); USet ["updated_at"%string] (VDate true now); USet ["available_at"%string] (VDate true (now + second));
      UInc ["attempts"%string] (-1)] ++ release_lease).

Definition finish (job : doc) (succeeded retryable : bool) (failure_reason : string) : act bool :=
  let~ now := act_now in
  let~ plan := act_lift (finish_change job succeeded retryable failure_reason now) in
  match plan with
  | FinishUpdate ops => update_owned job now ops
  | FinishInventory ids offset =>
      let~ item_ids := act_lift (strings_at ids) in checkpoint_inventory job item_ids offset true
  end.

(** ** Claims *)

Definition lane_filter (lanes : list filter) (history : bool) : list filter :=
  authority_filter q :: lanes ++
  (if history then FEq ["history_protocol_version"%string] (VInt 1) else FExists ["history_protocol_version"%string] false) ::
  (if q_year_history q then [] else [FNe ["year_history"%string] (VBool true)]).
Definition of_lane (lanes : list filter) (history : bool) : list filter := opt_sorted (q_sellers q) ++ lane_filter lanes history.
Definition enabled_models_filter : filter := FIn ["read_model"%string] (map VStr (sorted_set (q_models q))).
(** A last attempt whose worker is gone. *)
Definition exhausted (now : Z) : list filter :=
  [FEq ["state"] (VStr "running"); FRel RLte ["lease_until"] (VDate true now); FRel RGte ["attempts"] (VInt MAX_ATTEMPTS)]%string.
Definition claim_filter (lanes : list filter) (history : bool) (now : Z) : filter :=
  FAnd (of_lane lanes history ++
    [FRel RLt ["attempts"%string] (VInt MAX_ATTEMPTS); enabled_models_filter; FRel RLte ["available_at"%string] (VDate true now);
     FOr [FEq ["state"%string] (VStr "pending");
          FAnd [FEq ["state"%string] (VStr "running"); FRel RLte ["lease_until"%string] (VDate true now)]]]).
Definition claim_update (token : string) (now : Z) : list upd :=
  [USet ["state"%string] (VStr "running"); USet ["attempt_token"%string] (VStr token); lease_to now;
   USet ["updated_at"%string] (VDate true now); UInc ["attempts"%string] 1].
(** A ready, recent creation-tail sweep goes before older ranges. *)
Definition tail_filter (f : filter) (now : Z) : filter :=
  FAnd [f; FEq ["read_model"] (VStr "orders"); FRel RGte ["date_from"] (VDate true (now - 3 * hour));
        FRel RGte ["date_to"] (VDate true (now - 2 * hour))]%string.
Definition tail_sort : sort_spec := [(["date_to"], false); (["available_at"], true); (["_id"], true)]%string.
Definition claim_sort : sort_spec := [(["available_at"], true); (["_id"], true)]%string.

Definition tails_first (lane : option string) (history : bool) : bool :=
  match lane with Some lane => String.eqb lane "ranges" | None => false end && negb history && string_in "orders"%string (q_models q).

Definition _close_ineligible (job : doc) (now : Z) : act bool := update_owned job now (failed_for "seller_not_eligible" now).

(** [fuel] bounds the ineligible jobs closed on the way. *)
Definition out_of_fuel : exn := mk_exn "OutOfFuel" EmptyString.
Fixpoint claim_loop (fuel : nat) (tails : bool) (f : filter) (ops : list upd) (now : Z) : act (option doc) :=
  match fuel with
  | O => act_fail out_of_fuel
  | S fuel =>
      let~ first := (if tails then visit (fun _ => find_one_and_update (tail_filter f now) ops tail_sort) else act_ret None) in
      let~ claimed := (match first with Some d => act_ret (Some d) | None => visit (fun _ => find_one_and_update f ops claim_sort) end) in
      match claimed with
      | None => act_ret None
      | Some d =>
          let~ eligible := (if q_gated q then let~ s := act_lift (doc_at d "seller_id") in gate_open q (match s with VStr s => s | _ => EmptyString end)
                            else act_ret true) in
          if eligible then act_ret (Some d)
          else do~ _close_ineligible d now in claim_loop fuel tails f ops now
      end
  end.

(** Attempts exhausted under an expired lease: a catalog job records the failed
    chunk under a lease of its own, any other job fails. *)
Definition settle_exhausted (lanes : list filter) (history : bool) (now : Z) (token : string) : act unit :=
  let~ left := visit (fun _ => find_one_and_update
    (FAnd (of_lane lanes history ++ FExists ["catalog_offset"%string] true :: enabled_models_filter :: exhausted now))
    [lease_to now; USet ["attempt_token"%string] (VStr token)] []) in
  do~ (match left with Some job => finish job false false "recovery_failed" | None => act_ret false end) in
  visit (fun _ => update_many (FAnd (of_lane lanes history ++ FExists ["catalog_offset"%string] false :: exhausted now))
                    (failed_for "attempts_exhausted" now)).

Definition claim (fuel : nat) (lane : option string) (history : bool) : act (option doc) :=
  let~ lanes := act_lift (recovery_lane_filter lane) in
  let~ now := act_now in
  let~ recovering := (fun w => (Ok (fresh_token (w_turn w)), w)) in
  do~ settle_exhausted lanes history now recovering in
  let~ token := (fun w => (Ok (fresh_token (w_turn w)), w)) in
  claim_loop fuel (tails_first lane history) (claim_filter lanes history now) (claim_update token now) now.

(** ** The cursor of a shipment acquisition *)

Definition _shipment_cursor_binding (job : doc) (now : Z) : result (list filter * Z) :=
  let! seller := doc_at job "seller_id" in
  let! ids := doc_at job "shipment_ids" in
  let! l := strings_at ids in
  let! requested := shipment_ids_request (match seller with VStr s => s | _ => EmptyString end) l in
  match requested with
  | ShipmentIdsRecoveryRequest s norm =>
      if negb (py_eq (doc_get job "_id") (VStr (key requested))) || negb (py_eq (doc_get job "read_model") (VStr "shipments"))
         || negb (py_eq ids (strs norm)) || negb (string_in "shipments"%string (q_models q)) || negb (opt_ok (string_in s) (q_sellers q))
         || negb (py_eq (doc_get job "policy_authority") (match q_authority q with Some a => VStr a | None => VNone end))
      then raise_value "shipment cursor identity unavailable"
      else
        let! owned := _owned job now in
        Ok ([owned; FEq ["seller_id"] (VStr s); FEq ["read_model"] (VStr "shipments"); FEq ["shipment_ids"] ids; authority_filter q]%string,
            Z.of_nat (length norm))
  | _ => raise_value "shipment cursor identity unavailable"
  end.

Definition initialize_shipment_cursor (job : doc) : act Z :=
  let~ now := act_now in
  let~ binding := act_lift (_shipment_cursor_binding job now) in
  let '(bound, size) := binding in
  match doc_get_or job "shipment_offset" (VInt 0) with
  | VInt offset =>
      check~ (0 <=? offset) && (offset <=? size) else mk_exn "ValueError" "shipment cursor malformed" in
      let at_ := if has_key job "shipment_offset" then FEq ["shipment_offset"%string] (VInt offset) else FExists ["shipment_offset"%string] false in
      let~ matched := visit (fun _ => update_one (FAnd (bound ++ [at_])) [USet ["shipment_offset"%string] (VInt offset)]) in
      check~ matched else mk_exn "ValueError" "shipment cursor initialization lost ownership" in
      act_ret offset
  | _ => act_fail (mk_exn "ValueError" "shipment cursor malformed")
  end.

(** Within the transaction that publishes the resource. *)
Definition checkpoint_shipment_cursor (in_transaction : bool) (job : doc) (expected_offset next_offset : Z) (now : Z) : tx bool :=
  check& in_transaction else mk_exn "ValueError" "shipment cursor requires publication transaction" in
  let& ' (bound, size) := tx_lift (_shipment_cursor_binding job now) in
  check& (0 <=? expected_offset) && (expected_offset <=? next_offset) && (next_offset <=? size)
         && ((next_offset =? expected_offset) || (next_offset =? expected_offset + 1))
    else mk_exn "ValueError" "shipment cursor transition malformed" in
  update_one (FAnd (bound ++ [FEq ["shipment_offset"%string] (VInt expected_offset)])) [USet ["shipment_offset"%string] (VInt next_offset)].
End Work.
