(* ===== verification/RangeStore.v ===== *)
(** Range staging of an order acquisition: [HistoryRangeStore] of
    modules/sheets/.../history_range_store.py.  An acquisition whose search
    exceeds the result budget is split into ranges that are paged one after
    the other. *)

From S2P Require Export HistoryStore.

#[local] Open Scope Z_scope.

Definition drifted (msg : string) : exn := mk_exn "RangeSourceDriftError" msg.

(** What an action changes on the head ([changes]). *)
Record range_changes := {
  c_active : option string;
  c_cursor : option Z;
  c_discovered : option Z;
  c_observed : option (Z * Z);
  c_done : option (history_phase * Z);
}.
Definition moved_to (o : SheetsHistoryOrderRange) : range_changes :=
  {| c_active := Some (o_id o); c_cursor := Some 0; c_discovered := None; c_observed := None; c_done := None |}.

Definition apply_changes (c : range_changes) (h : SheetsHistoryAcquisition) : SheetsHistoryAcquisition :=
  let h := h {{ h_active_range_id := c_active c; h_next_cursor := option_map Offset (c_cursor c) }} in
  let h := match c_discovered c with Some n => h {{ h_discovered_count := n }} | None => h end in
  let h := match c_observed c with Some (a, b) => h {{ h_observed_from := Some a; h_observed_until := Some b }} | None => h end in
  match c_done c with Some (phase, total) => h {{ h_phase := phase; h_source_total := Some total }} | None => h end.

(** The ranges of the head's pass. *)
Definition scoped (h : SheetsHistoryAcquisition) (o : SheetsHistoryOrderRange) : bool :=
  bool_decide (o_acquisition_id o = h_id h) && (o_generation o =? h_generation h) && (o_pass_number o =? h_pass_number h).

Definition scope_identity (h : SheetsHistoryAcquisition) (node : string) : string :=
  (h_id h ++ String "000" EmptyString ++ str_of_Z (h_generation h) ++ String "000" EmptyString ++
   str_of_Z (h_pass_number h) ++ String "000" EmptyString ++ node)%string.

Definition range_before (a b : SheetsHistoryOrderRange) : bool :=
  (date_from (o_node a) <? date_from (o_node b))
  || ((date_from (o_node a) =? date_from (o_node b)) && negb (String.ltb (node_id (o_node b)) (node_id (o_node a)))).
(** The first of the ranges that meet a test, by [date_from] and [node_id]. *)
Definition first_range (p : SheetsHistoryOrderRange -> bool) (m : gmap string SheetsHistoryOrderRange) : option SheetsHistoryOrderRange :=
  foldr (fun o best => match best with Some b => Some (if range_before o b then o else b) | None => Some o end) None (found p m).

Section Ranges.
Context `{PyRepr} `{BsonLength} `{ItemFingerprint} `{HistoryIndexes} `{Sha256}.
Variable clock : nat -> Z.
Variable enabled_models : list string.
Variable allowed_sellers : option (list string).
Variable result_budget : Z.
Abbreviation current := (_current clock enabled_models allowed_sellers).
Abbreviation save := (checkpoint clock enabled_models allowed_sellers).
Abbreviation pending := (_pending clock).

Definition _node (head : SheetsHistoryAcquisition) (node : OrderRangeNode) : result SheetsHistoryOrderRange :=
  let! o := validate_range
    {| o_id := sha256_hex (scope_identity head (node_id node)); o_acquisition_id := h_id head; o_seller_id := h_seller_id head;
       o_generation := h_generation head; o_pass_number := h_pass_number head; o_node := node;
       o_state := Pending; o_source_total := None; o_next_offset := 0 |} in
  range_document o (64 * 1024).

Definition head_offset (h : SheetsHistoryAcquisition) : Z := match h_next_cursor h with Some (Offset n) => n | _ => 0 end.

Definition _active (head : SheetsHistoryAcquisition) : tx SheetsHistoryOrderRange :=
  let& s := tx_get in
  match default None (option_map (fun i => st_ranges s !! i) (h_active_range_id head)) with
  | None => tx_fail (conflict "active range binding changed")
  | Some node =>
      check& scoped head node && bool_decide (o_state node = Pending) && String.eqb (o_seller_id node) (h_seller_id head)
             && String.eqb (root_id (o_node node)) (h_id head)
        else conflict "active range binding changed" in
      let& validated := tx_lift (validate_range node) in
      let n := o_node validated in
      check& (h_date_from head <=? date_from n) && (date_from n <? date_to n) && (date_to n <=? h_date_to head)
        else conflict "active range escapes fixed bounds" in
      check& o_next_offset validated =? head_offset head else conflict "active range checkpoint changed" in
      tx_ret node
  end.

(** [insert_one] and the documents of [insert_many], in order. *)
Definition insert_range (o : SheetsHistoryOrderRange) : tx unit :=
  let& s := tx_get in
  check& negb (is_some (st_ranges s !! o_id o)) && range_unique (st_ranges s) o else duplicate_doc in
  tx_put (with_ranges (insert (o_id o) o) s).
(** [update_one]/[replace_one] of the document of that [_id]. *)
Definition put_range (o : SheetsHistoryOrderRange) : tx unit :=
  let& s := tx_get in
  match st_ranges s !! o_id o with
  | Some _ => tx_put (with_ranges (insert (o_id o) o) s)
  | None => tx_ret tt
  end.

Definition observe (observed_at : option Z) (head : SheetsHistoryAcquisition) (c : range_changes) : range_changes :=
  match observed_at with
  | None => c
  | Some t =>
      let from := match c_observed c with Some (a, _) => a | None => default t (h_observed_from head) end in
      let until := match c_observed c with Some (_, b) => b | None => default t (h_observed_until head) end in
      c {{ c_observed := Some (Z.min t from, Z.max t until) }}
  end.

Definition _run (job : doc) (head : SheetsHistoryAcquisition)
    (action : tx (range_changes * list SheetsHistoryReceipt)) (observed_at : option Z) : tx SheetsHistoryAcquisition :=
  let& head := tx_lift (_head head) in
  check& bool_decide (h_read_model head = Orders) && (bool_decide (h_phase head = Discover) || bool_decide (h_phase head = Verify))
    else conflict "range store requires order discovery or verification" in
  do& current job head in
  let& ' (changes, receipts) := action in
  let& now := tx_now clock in
  let& proposed := tx_lift (validate_acquisition
    (apply_changes (observe observed_at head changes)
       (head {{ h_checkpoint_revision ::= Z.succ; h_page_sequence ::= Z.succ; h_updated_at := now }}))) in
  let& saved := save job head proposed receipts in
  do& pending job saved 0 0 in
  tx_ret saved.

(** ** Splitting *)

Definition _split_node (head : SheetsHistoryAcquisition) (parent : SheetsHistoryOrderRange) (observed_total : Z) : tx range_changes :=
  check& o_next_offset parent =? 0 else conflict "partially acquired ranges require restart before splitting" in
  let& node := tx_lift (validate_bounds (o_node parent)) in
  let& children := tx_lift (subdivide_order_range node observed_total result_budget) in
  match children with
  | [a; b] =>
      let& a := tx_lift (_node head a) in
      let& b := tx_lift (_node head b) in
      do& insert_range a in
      do& insert_range b in
      check& int64_ok observed_total else mk_exn "OverflowError" "MongoDB can only handle up to 8-byte ints" in
      do& put_range (parent {{ o_state := Split; o_source_total := Some observed_total }}) in
      tx_ret (moved_to a)
  | _ => tx_fail (conflict "range is within local budget")
  end.

Definition root_node (head : SheetsHistoryAcquisition) : OrderRangeNode :=
  {| node_id := h_id head; root_id := h_id head; parent_id := None; date_from := h_date_from head; date_to := h_date_to head; depth := 0 |}.

Definition start_action (head : SheetsHistoryAcquisition) (observed_total : option Z) : tx (range_changes * list SheetsHistoryReceipt) :=
  check& negb (is_some (h_active_range_id head)) && (h_discovered_count head =? 0)
         && bool_decide (h_next_cursor head = None \/ h_next_cursor head = Some (Offset 0))
    else conflict "range root requires untouched discovery" in
  let& root := tx_lift (validate_bounds (root_node head)) in
  let& node := tx_lift (_node head root) in
  do& insert_range node in
  match observed_total with
  | Some total => let& changes := _split_node head node total in tx_ret (changes, [])
  | None => tx_ret (moved_to node, [])
  end.
Definition start (job : doc) (head : SheetsHistoryAcquisition) (observed_total observed_at : option Z) : tx SheetsHistoryAcquisition :=
  _run job head (start_action head observed_total) observed_at.

Definition split_action (head : SheetsHistoryAcquisition) (observed_total : Z) : tx (range_changes * list SheetsHistoryReceipt) :=
  let& parent := _active head in
  let& changes := _split_node head parent observed_total in
  tx_ret (changes, []).
Definition split (job : doc) (head : SheetsHistoryAcquisition) (observed_total : Z) (observed_at : option Z) : tx SheetsHistoryAcquisition :=
  _run job head (split_action head observed_total) observed_at.

(** ** Paging *)

(** The creation instant of a receipt's source. *)
Definition receipt_created (r : SheetsHistoryReceipt) : result Z :=
  let! v := fromisoformat (py_str (doc_get (default ∅ (r_source_payload r)) "date_created")) in
  match v with VDate true us => Ok us | _ => raise_value "datetime must be timezone-aware" end.
Definition inside (n : OrderRangeNode) (us : Z) : bool := (date_from n <=? us) && (us <? date_to n).

(** A receipt of the page: in the queried hours, and classified by the bounds. *)
Definition page_receipt_ok (bounds : OrderRangeNode) (created : Z) (r : SheetsHistoryReceipt) : bool :=
  let '(lower, upper) := provider_hours bounds in
  (lower <=? created) && (created <? upper + hour)
  && bool_decide (r_kind r = if inside bounds created then Membership else Exclusion)
  && (inside bounds created || bool_decide (r_exclusion_reason r = Some outside_reason)).

Fixpoint check_page (head : SheetsHistoryAcquisition) (bounds : OrderRangeNode) (receipts : list SheetsHistoryReceipt) : tx unit :=
  match receipts with
  | [] => tx_ret tt
  | r :: receipts =>
      let& created := tx_lift (receipt_created r) in
      check& page_receipt_ok bounds created r else conflict "receipt does not match active range bounds" in
      let& s := tx_get in
      check& negb (is_some (find_first (fun r' => in_scope head r' && String.eqb (r_resource_id r') (r_resource_id r)) (st_receipts s)))
        else conflict "range page repeats acquired identity" in
      check_page head bounds receipts
  end.

Definition opt_total (o : SheetsHistoryOrderRange) : Z := default 0 (o_source_total o).
Definition sum_totals (os : list SheetsHistoryOrderRange) : Z := foldr (fun o n => opt_total o + n) 0 os.

(** [_check_split_totals]: every split range has two children of its total. *)
Definition split_consistent (h : SheetsHistoryAcquisition) (m : gmap string SheetsHistoryOrderRange) (o : SheetsHistoryOrderRange) : bool :=
  let children := found (fun c => scoped h c && bool_decide (parent_id (o_node c) = Some (node_id (o_node o)))) m in
  Nat.eqb (length children) 2 && bool_decide (o_source_total o = Some (sum_totals children)).
Definition _check_split_totals (head : SheetsHistoryAcquisition) : tx unit :=
  let& s := tx_get in
  check& negb (is_some (find_first (fun o => scoped head o && bool_decide (o_state o = Split) && negb (split_consistent head (st_ranges s) o))
                          (st_ranges s)))
    else drifted "subdivision source totals changed" in
  tx_ret tt.

Definition page_observed (head : SheetsHistoryAcquisition) (receipts : list SheetsHistoryReceipt) : option (Z * Z) :=
  match map r_observed_at receipts with
  | [] => None
  | t :: ts =>
      Some (foldl Z.min t (ts ++ option_list (h_observed_from head)), foldl Z.max t (ts ++ option_list (h_observed_until head)))
  end.

Definition page_action (head : SheetsHistoryAcquisition) (source_total next_offset : Z) (receipts : list SheetsHistoryReceipt) (verify_manifest : option (bool -> tx unit)) : tx (range_changes * list SheetsHistoryReceipt) :=
  let& node := _active head in
  let state := if next_offset =? source_total then Enumerated else Pending in
  let& changed := tx_lift (validate_range (node {{ o_source_total := Some source_total; o_next_offset := next_offset; o_state := state }})) in
  check& source_total <=? result_budget else over_limit "range exceeds local result budget" in
  check& bool_decide (o_source_total node = None \/ o_source_total node = Some source_total) else drifted "range total changed" in
  check& next_offset - o_next_offset node =? Z.of_nat (length receipts) else conflict "range page length changed" in
  check& negb (is_nil receipts) || (source_total =? 0) else conflict "empty range page makes no progress" in
  let& bounds := tx_lift (validate_bounds (o_node node)) in
  do& check_page head bounds receipts in
  let& document := tx_lift (range_document changed (64 * 1024)) in
  do& put_range document in
  let& s := tx_get in
  let active :=
    match state with
    | Enumerated => first_range (fun o => scoped head o && bool_decide (o_state o = Pending)) (st_ranges s)
    | _ => Some changed
    end in
  let& finished :=
    match active with
    | Some _ => tx_ret None
    | None =>
        do& _check_split_totals head in
        tx_ret (Some (match h_phase head with Verify => Verify | _ => Hydrate end,
                      sum_totals (found (fun o => scoped head o && bool_decide (o_state o = Enumerated)) (st_ranges s))))
    end in
  do& match verify_manifest with Some verify => verify (negb (is_some active)) | None => tx_ret tt end in
  tx_ret ({| c_active := option_map o_id active; c_cursor := option_map o_next_offset active;
             c_discovered := Some (h_discovered_count head + Z.of_nat (length (List.filter (is_kind Membership) receipts)));
             c_observed := page_observed head receipts; c_done := finished |}, receipts).

Definition page (job : doc) (head : SheetsHistoryAcquisition) (source_total next_offset : Z) (receipts : list SheetsHistoryReceipt)
    (observed_at : option Z) (verify_manifest : option (bool -> tx unit)) : tx SheetsHistoryAcquisition :=
  check& Nat.leb (length receipts) 50 else over_limit "range page exceeds local record budget" in
  check& negb (bool_decide (h_phase head = Verify) && negb (is_some verify_manifest)) else conflict "verification requires manifest comparison" in
  _run job head (page_action head source_total next_offset receipts verify_manifest) observed_at.
End Ranges.
