(* ===== verification/HistoryOrders.v ===== *)
(** The producer of an order acquisition: [HistoryOrdersProducer] of
    modules/sheets/.../history_orders.py, one step of which searches a page of
    orders, hydrates one order, confirms one known order, or hands the
    acquisition on, and releases the job when the source fails it.

    A step visits the database in transactions ([Transactions.visit]).
    [_order_detail_with_source] of formulas/recovery_worker.py is a service here. *)

From S2P Require Export HistoryStore RangeStore.

#[local] Open Scope Z_scope.

(** ** Dates and texts of the source *)

Definition order_drift (msg : string) : exn := mk_exn "OrderEnumerationDriftError" msg.
Definition bad_value (msg : string) : exn := mk_exn "ValueError" msg.

(** [_date]: to the millisecond. *)
Definition _date (v : val) : result Z :=
  match v with
  | VStr s =>
      let! parsed := fromisoformat (replace_z s) in
      match parsed with VDate true us => Ok (floor_ms us) | _ => raise_value "question date timezone unavailable" end
  | _ => raise_value "question date unavailable"
  end.
(** [.isoformat(timespec="milliseconds")]. *)
Definition isoformat_ms (us : Z) : string :=
  (iso_day us ++ "T" ++ iso_time (time_of_day us / second * second) ++ "." ++ pad 3 (us mod second / 1000) ++ "+00:00")%string.
Example isoformat_ms_sample : isoformat_ms (instant (Date 2024 2 29) (10 * hour + 1999)) = "2024-02-29T10:00:00.001+00:00"%string.
Proof. by vm_compute. Qed.

Definition _version (resource : doc) : result (option string) :=
  match doc_get resource "date_last_updated" with
  | VNone => Ok None
  | v => let! us := _date v in Ok (Some (isoformat_ms us))
  end.

(** [urlencode] of ASCII texts. *)
Definition hex_char (n : nat) : ascii := ascii_of_nat (if Nat.ltb n 10 then 48 + n else 55 + n).
Definition url_safe (c : ascii) : bool :=
  is_digit c || char_in 65 90 c || char_in 97 122 c || existsb (Ascii.eqb c) ["_"; "."; "-"; "~"]%char.
Fixpoint quote_plus (s : string) : string :=
  match s with
  | EmptyString => EmptyString
  | String c s =>
      if url_safe c then String c (quote_plus s)
      else if Ascii.eqb c " " then String "+" (quote_plus s)
      else let n := nat_of_ascii c in String "%" (String (hex_char (n / 16)) (String (hex_char (n mod 16)) (quote_plus s)))
  end.
Definition urlencode (params : list (string * string)) : string :=
  String.concat "&" (map (fun kv => quote_plus kv.1 ++ "=" ++ quote_plus kv.2)%string params).

(** [sorted] of a set of texts. *)
Fixpoint insert_text (x : string) (l : list string) : list string :=
  match l with [] => [x] | y :: l' => if String.leb x y then x :: l else y :: insert_text x l' end.
Definition sorted_texts (s : gset string) : list string := foldr insert_text [] (elements s).

Record OrderDetailObservation := {
  od_resource : doc;
  od_unavailable_fields : gset string;
  od_source_payload : doc;
  od_observed_at : Z;
}.

(** The provider, the length of an encoded page, and the orders the seller
    is known to have in the interval, in the order of [_id]. *)
Class OrderSource := {
  search : nat -> string -> result val;
  order_detail : nat -> string -> string -> Z -> Z -> option doc -> result OrderDetailObservation;
  page_length : doc -> Z;
  known_orders : nat -> string -> Z -> Z -> list string;
}.

Section Producer.
Context `{PyRepr} `{BsonLength} `{ItemFingerprint} `{HistoryIndexes} `{Sha256}.

(** ** Receipts *)

Record receipt_fields := {
  f_observed_at : Z;
  f_source_hash : option string;
  f_source_payload : option doc;
  f_source_version : option string;
  f_payload : option doc;
  f_payload_hash : option string;
  f_unavailable_fields : list string;
  f_exclusion_reason : option string;
}.

Definition receipt_id (head : SheetsHistoryAcquisition) (resource_id : string) (kind : receipt_kind) : string :=
  sha256_hex (String.concat (String "000" EmptyString)
    [h_id head; str_of_Z (h_generation head); str_of_Z (h_pass_number head); kind_name kind; resource_id]).

Definition _receipt (head : SheetsHistoryAcquisition) (resource_id : string) (kind : receipt_kind) (f : receipt_fields) : result SheetsHistoryReceipt :=
  validate_receipt
    {| r_id := receipt_id head resource_id kind; r_acquisition_id := h_id head; r_seller_id := h_seller_id head; r_read_model := Orders;
       r_generation := h_generation head; r_pass_number := h_pass_number head; r_page_sequence := h_page_sequence head + 1;
       r_kind := kind; r_resource_id := resource_id; r_observed_at := f_observed_at f; r_source_version := f_source_version f;
       r_source_hash := f_source_hash f; r_source_payload := f_source_payload f; r_payload_hash := f_payload_hash f;
       r_payload := f_payload f; r_unavailable_fields := f_unavailable_fields f; r_exclusion_reason := f_exclusion_reason f |}.

(** ** The manifest of the pass before *)

Definition previous_pass (head : SheetsHistoryAcquisition) : SheetsHistoryAcquisition := head {{ h_pass_number ::= Z.pred }}.
Definition listed (head : SheetsHistoryAcquisition) (r : SheetsHistoryReceipt) : bool :=
  in_scope head r && negb (is_kind Detail r).
Definition same_evidence (a b : SheetsHistoryReceipt) : bool :=
  bool_decide (r_kind a = r_kind b) && bool_decide (r_source_version a = r_source_version b)
  && bool_decide (r_source_hash a = r_source_hash b) && bool_decide (r_exclusion_reason a = r_exclusion_reason b).

Fixpoint compare_rows (head : SheetsHistoryAcquisition) (receipts : list SheetsHistoryReceipt) : tx unit :=
  match receipts with
  | [] => tx_ret tt
  | r :: receipts =>
      let& s := tx_get in
      check& match find_first (fun o => listed (previous_pass head) o && String.eqb (r_resource_id o) (r_resource_id r)) (st_receipts s) with
             | Some original => same_evidence original r
             | None => false
             end
        else order_drift "verification manifest identity or source changed" in
      compare_rows head receipts
  end.
(** A listed order of the pass before, not of this page, that this pass lacks. *)
Definition omitted (head : SheetsHistoryAcquisition) (receipts : list SheetsHistoryReceipt) (m : gmap string SheetsHistoryReceipt) (o : SheetsHistoryReceipt) : bool :=
  listed (previous_pass head) o && negb (string_in (r_resource_id o) (map r_resource_id receipts))
  && negb (is_some (find_first (fun r => in_scope head r && String.eqb (r_resource_id r) (r_resource_id o) && is_kind (r_kind o) r) m)).

Definition _compare_manifest (head : SheetsHistoryAcquisition) (receipts : list SheetsHistoryReceipt) (final : bool) : tx unit :=
  do& compare_rows head receipts in
  if final then
    let& s := tx_get in
    check& negb (is_some (find_first (omitted head receipts (st_receipts s)) (st_receipts s)))
      else order_drift "verification manifest omits prior identities" in
    tx_ret tt
  else tx_ret tt.

(** ** Visits *)

Context `{Surroundings} `{OrderSource}.
Variable enabled_models : list string.
Variable allowed_sellers : option (list string).
Variable result_budget : Z.
Abbreviation in_tx := visit.
Abbreviation tx_current := (fun clock => _current clock enabled_models allowed_sellers).
Abbreviation tx_progress := (fun clock => progress clock enabled_models allowed_sellers).
Abbreviation tx_release := (fun clock => release clock enabled_models allowed_sellers).

(** What [_save] changes on the head. *)
Record head_changes := {
  s_source_total : option Z;
  s_observed : option (Z * Z);
  s_discovered_count : option Z;
  s_fetched_count : option Z;
  s_next : option (option Z * history_phase);
}.
Definition no_changes : head_changes :=
  {| s_source_total := None; s_observed := None; s_discovered_count := None; s_fetched_count := None; s_next := None |}.
Definition saved_head (head : SheetsHistoryAcquisition) (now : Z) (c : head_changes) : SheetsHistoryAcquisition :=
  let '(from, until) := default (default now (h_observed_from head), now) (s_observed c) in
  let h := head {{ h_checkpoint_revision ::= Z.succ; h_page_sequence ::= Z.succ; h_updated_at := now;
                   h_observed_from := Some from; h_observed_until := Some until }} in
  let h := match s_source_total c with Some n => h {{ h_source_total := Some n }} | None => h end in
  let h := match s_discovered_count c with Some n => h {{ h_discovered_count := n }} | None => h end in
  let h := match s_fetched_count c with Some n => h {{ h_fetched_count := n }} | None => h end in
  match s_next c with Some (cursor, phase) => h {{ h_next_cursor := option_map Offset cursor; h_phase := phase }} | None => h end.

Definition _save (job : doc) (head : SheetsHistoryAcquisition) (receipts : list SheetsHistoryReceipt) (c : head_changes) : act SheetsHistoryAcquisition :=
  let~ now := act_now in
  let~ proposed := act_lift (validate_acquisition (saved_head head now c)) in
  in_tx (fun clock => tx_progress clock job head proposed receipts).

(** ** Discovery *)

(** The owners a document names. *)
Definition owners (d : doc) : list val := [doc_get d "seller_id"; match doc_get d "seller" with VDict o => doc_get o "id" | _ => VNone end].
Definition owned_by (seller_id : string) (d : doc) : bool := forallb (fun v => is_none v || String.eqb (py_str v) seller_id) (owners d).

Definition member_reason (inside : bool) : option string := if inside then None else Some outside_reason.

(** One row of a page. *)
Definition row_receipt (head : SheetsHistoryAcquisition) (bounds : OrderRangeNode) (observed_at : Z) (seen : list string) (row : val) : result SheetsHistoryReceipt :=
  let '(start_hour, last_hour) := provider_hours bounds in
  match row with
  | VDict d =>
      let identity := py_str (doc_get d "id") in
      check! digits1 identity else bad_value "invalid order identity" in
      check! negb (string_in identity seen) else order_drift "order page repeats an identity" in
      let! created := _date (doc_get d "date_created") in
      check! owned_by (h_seller_id head) d else bad_value "order search seller mismatch" in
      check! (start_hour <=? created) && (created <? last_hour + hour) else bad_value "order lies outside queried creation hours" in
      let is_inside := inside bounds created in
      let! version := _version d in
      _receipt head identity (if is_inside then Membership else Exclusion)
        {| f_observed_at := observed_at; f_source_hash := Some (item_source_fingerprint d); f_source_payload := Some d;
           f_source_version := version; f_payload := None; f_payload_hash := None; f_unavailable_fields := [];
           f_exclusion_reason := member_reason is_inside |}
  | _ => raise_value "order search row is not an object"
  end.
Fixpoint row_receipts (head : SheetsHistoryAcquisition) (bounds : OrderRangeNode) (observed_at : Z) (seen : list string) (rows : list val) : result (list SheetsHistoryReceipt) :=
  match rows with
  | [] => Ok []
  | row :: rows =>
      let! r := row_receipt head bounds observed_at seen row in
      let! rs := row_receipts head bounds observed_at (r_resource_id r :: seen) rows in
      Ok (r :: rs)
  end.

(** The page: its total and its rows. *)
Definition read_page (offset : Z) (expected_total : option Z) (page : val) : result (Z * list val) :=
  match page with
  | VDict page =>
      match doc_get page "paging" with
      | VDict paging =>
          check! match doc_get paging "total" with VInt total => 0 <=? total | _ => false end else bad_value "invalid order total" in
          let total := match doc_get paging "total" with VInt total => total | _ => 0 end in
          check! page_length page <=? 4 * 1024 * 1024 else over_limit "creation interval needs a bounded enumeration strategy" in
          check! opt_ok (Z.eqb total) expected_total else order_drift "order total changed" in
          match doc_get page "results" with
          | VList rows =>
              check! Nat.leb (length rows) 50 && (offset + Z.of_nat (length rows) <=? total) else bad_value "invalid order page length" in
              Ok (total, rows)
          | _ => raise_value "invalid order page length"
          end
      | _ => raise_value "order page lacks pagination"
      end
  | _ => raise_value "order page lacks pagination"
  end.

Definition search_path (head : SheetsHistoryAcquisition) (bounds : OrderRangeNode) (offset : Z) : string :=
  let '(start_hour, last_hour) := provider_hours bounds in
  ("/orders/search?" ++ urlencode
    [("seller", h_seller_id head); ("order.date_created.from", isoformat_ms start_hour);
     ("order.date_created.to", isoformat_ms last_hour); ("sort", "date_asc"); ("offset", str_of_Z offset); ("limit", "50")])%string.

Definition acquired (head : SheetsHistoryAcquisition) (identities : list string) (s : store) : bool :=
  is_some (find_first (fun r => listed head r && string_in (r_resource_id r) identities) (st_receipts s)).

Definition is_verify (head : SheetsHistoryAcquisition) : bool := bool_decide (h_phase head = Verify).

Definition _discover (job : doc) (head : SheetsHistoryAcquisition) : act SheetsHistoryAcquisition :=
  let~ offset := act_lift (match h_next_cursor head with Some (Scroll _) => raise_value "invalid literal for int()" | _ => Ok (head_offset head) end) in
  let~ active := (if is_some (h_active_range_id head)
                  then in_tx (fun _ => let& o := _active head in tx_ret (Some o)) else act_ret None) in
  let~ bounds := act_lift (validate_bounds (match active with Some o => o_node o | None => root_node head end)) in
  let~ answer := fetched (fun n => search n (search_path head bounds offset)) in
  let~ observed_at := act_now in
  let~ contents := act_lift (read_page offset (match active with Some o => o_source_total o | None => h_source_total head end) answer) in
  let '(total, rows) := contents in
  if result_budget <? total then
    in_tx (fun clock =>
      match active with
      | Some _ => split clock enabled_models allowed_sellers result_budget job head total (Some observed_at)
      | None => start clock enabled_models allowed_sellers result_budget job head (Some total) (Some observed_at)
      end)
  else
    check~ negb (is_nil rows) || (offset =? total) else order_drift "order enumeration ended before its observed total" in
    let~ receipts := act_lift (row_receipts head bounds observed_at [] rows) in
    let~ repeated := (if is_nil receipts then act_ret false else read_store (acquired head (map r_resource_id receipts))) in
    check~ negb repeated else order_drift "shifted page repeats an acquired identity" in
    let next_offset := offset + Z.of_nat (length rows) in
    match active with
    | Some _ =>
        in_tx (fun clock =>
          page clock enabled_models allowed_sellers result_budget job head total next_offset receipts (Some observed_at)
            (if is_verify head then Some (_compare_manifest head receipts) else None))
    | None =>
        let final := next_offset =? total in
        do~ (if is_verify head then in_tx (fun _ => _compare_manifest head receipts final) else act_ret tt) in
        _save job head receipts
          {| s_source_total := Some total; s_observed := Some (default observed_at (h_observed_from head), observed_at);
             s_discovered_count := Some (h_discovered_count head + Z.of_nat (length (List.filter (is_kind Membership) receipts)));
             s_fetched_count := None;
             s_next := Some (if final then None else Some next_offset,
                             if is_verify head then Verify else if final then Hydrate else Discover) |}
    end.

(** ** Known orders *)

Definition member_of (head : SheetsHistoryAcquisition) (identity : string) (r : SheetsHistoryReceipt) : bool :=
  of_kind head Membership r && String.eqb (r_resource_id r) identity.

Definition evidence_fields (o : OrderDetailObservation) (version : option string) : receipt_fields :=
  {| f_observed_at := od_observed_at o; f_source_hash := Some (item_source_fingerprint (od_source_payload o));
     f_source_payload := Some (od_source_payload o); f_source_version := version; f_payload := None; f_payload_hash := None;
     f_unavailable_fields := []; f_exclusion_reason := None |}.
Definition detail_fields (o : OrderDetailObservation) (version : option string) : receipt_fields :=
  {| f_observed_at := od_observed_at o; f_source_hash := Some (item_source_fingerprint (od_source_payload o));
     f_source_payload := Some (od_source_payload o); f_source_version := version; f_payload := Some (od_resource o);
     f_payload_hash := Some (item_source_fingerprint (od_resource o));
     f_unavailable_fields := sorted_texts (od_unavailable_fields o); f_exclusion_reason := None |}.
Definition omission_fields (o : OrderDetailObservation) (version : option string) : receipt_fields :=
  {| f_observed_at := od_observed_at o; f_source_hash := Some (item_source_fingerprint (od_source_payload o));
     f_source_payload := Some (od_source_payload o); f_source_version := version; f_payload := None; f_payload_hash := None;
     f_unavailable_fields := []; f_exclusion_reason := Some cancelled_reason |}.

Definition _known_cancelled (job : doc) (head : SheetsHistoryAcquisition) : act SheetsHistoryAcquisition :=
  let~ known := fetched (fun n => Ok (known_orders n (h_seller_id head) (h_date_from head) (h_date_to head))) in
  let~ pending := read_store (fun s => List.find (fun i => negb (is_some (find_first (member_of head i) (st_receipts s)))) known) in
  match pending with
  | None => in_tx (fun clock => begin_publication clock enabled_models allowed_sellers job head)
  | Some identity =>
      check~ h_discovered_count head <? 10000 else over_limit "known order inventory exceeds local acquisition budget" in
      check~ digits1 identity else bad_value "known order identity is invalid" in
      let~ observation := fetched (fun n => order_detail n (h_seller_id head) identity (h_date_from head) (h_date_to head) None) in
      let status := doc_get (od_source_payload observation) "status" in
      check~ is_str status && truthy status else bad_value "known order lacks current source status" in
      check~ py_eq status (VStr "cancelled") else order_drift "non-cancelled known order is missing from search" in
      let~ version := act_lift (_version (od_source_payload observation)) in
      let~ membership := act_lift (_receipt head identity Membership (evidence_fields observation version)) in
      let~ detail := act_lift (_receipt head identity Detail (detail_fields observation version)) in
      let~ exclusion := act_lift (_receipt head identity Exclusion (omission_fields observation version)) in
      _save job head [membership; detail; exclusion]
        (no_changes {{ s_discovered_count := Some (h_discovered_count head + 1); s_fetched_count := Some (h_fetched_count head + 1) }})
  end.

(** ** Hydration *)

Definition receipt_before (a b : SheetsHistoryReceipt) : bool := String.ltb (r_resource_id a) (r_resource_id b).
(** The first membership, by [resource_id], without a detail. *)
Definition undetailed (head : SheetsHistoryAcquisition) (s : store) : option SheetsHistoryReceipt :=
  foldr (fun r best => match best with Some b => Some (if receipt_before b r then b else r) | None => Some r end) None
    (found (fun r => of_kind head Membership r
                     && negb (is_some (find_first (fun d => of_kind head Detail d && String.eqb (r_resource_id d) (r_resource_id r)) (st_receipts s))))
       (st_receipts s)).

Definition _hydrate (job : doc) (head : SheetsHistoryAcquisition) : act SheetsHistoryAcquisition :=
  let~ pending := read_store (undetailed head) in
  match pending with
  | None => in_tx (fun clock => begin_verification clock enabled_models allowed_sellers job head)
  | Some membership =>
      let~ observation := fetched (fun n =>
        order_detail n (h_seller_id head) (r_resource_id membership) (h_date_from head) (h_date_to head) (r_source_payload membership)) in
      let~ version := act_lift (_version (od_resource observation)) in
      check~ match version, r_source_version membership with Some v, Some v' => String.eqb v v' | _, _ => true end
        else order_drift "order changed between search and detail" in
      let~ receipt := act_lift (_receipt head (r_resource_id membership) Detail (detail_fields observation version)) in
      _save job head [receipt] (no_changes {{ s_fetched_count := Some (h_fetched_count head + 1) }})
  end.

(** ** A step *)

Variable quota_expired : bool.   (* a quota wait of this step reached its deadline *)

Definition release_reason (e : exn) : option string :=
  if isinstance e "OrderEnumerationDriftError" || isinstance e "RangeSourceDriftError" then Some "source_drift"%string
  else if isinstance e "HistoryLimitError" || isinstance e "HistoryConflictError" then None
  else if isinstance e "LocalQuotaTimeoutError" then Some "quota"%string
  else if isinstance e "HTTPError" || isinstance e "GatewayRateLimitError" || isinstance e "TimeoutError" || isinstance e "ValueError"
  then Some (if isinstance e "TimeoutError" && quota_expired then "quota" else "failure")%string
  else None.

Definition step (job : doc) (head : SheetsHistoryAcquisition) : act SheetsHistoryAcquisition :=
  check~ bool_decide (h_read_model head = Orders) && is_staging (h_phase head) else conflict "this producer only stages order observations" in
  do~ in_tx (fun clock => tx_current clock job head) in
  act_try
    (if is_verify head && negb (is_some (h_next_cursor head)) then _known_cancelled job head
     else if bool_decide (h_phase head = Discover) || is_verify head then _discover job head
     else _hydrate job head)
    (fun e => match release_reason e with
              | Some reason => in_tx (fun clock => tx_release clock job head reason)
              | None => act_fail e
              end).
End Producer.
