(* ===== verification/HistoryProofs.v ===== *)
(** What the staging store keeps, whoever calls it and in whatever order: the
    counts of a head are the receipts stored for its pass. *)

From S2P Require Export Transactions RangeStore.

#[local] Open Scope Z_scope.

(** The decided hypotheses. *)
Ltac bools := repeat match goal with Hb : bool_decide _ = true |- _ => apply bool_decide_eq_true in Hb end.

(** ** Counting *)

Section Count.
Context {A : Type}.
Implicit Types (p : A -> bool) (m : gmap string A).

Lemma found_spec p m x : In x (found p m) <-> exists i, m !! i = Some x /\ p x = true.
Proof.
  unfold found. rewrite filter_In. split.
  - intros [Hx Hp]. apply list_elem_of_In, list_elem_of_fmap in Hx as ([i y] & -> & Hy). apply elem_of_map_to_list in Hy. eauto.
  - intros (i & Hi & Hp). split; [|done]. apply list_elem_of_In, list_elem_of_fmap. exists (i, x). split; [done|]. by apply elem_of_map_to_list.
Qed.
Lemma find_first_some p m x : find_first p m = Some x -> exists i, m !! i = Some x /\ p x = true.
Proof. intros Hf. apply found_spec. unfold find_first in Hf. destruct (found p m); [done|]. simplify_eq/=. by left. Qed.
Lemma find_first_none p m : find_first p m = None <-> forall i x, m !! i = Some x -> p x = false.
Proof.
  unfold find_first. split.
  - intros Hf i x Hi. destruct (p x) eqn:Hp; [|done]. assert (Hin : In x (found p m)) by (apply found_spec; eauto).
    by destruct (found p m).
  - intros Hf. destruct (found p m) as [|x l] eqn:Hl; [done|]. assert (Hin : In x (found p m)) by (rewrite Hl; by left).
    apply found_spec in Hin as (i & Hi & Hp). by rewrite (Hf i x Hi) in Hp.
Qed.

Lemma Permutation_found p m l : map_to_list m ≡ₚ l -> found p m ≡ₚ List.filter p l.*2.
Proof.
  intros Hm. unfold found. induction Hm as [|[i x] l1 l2 Hp IH|[i x] [j y] l1|l1 l2 l3 H1 IH1 H2 IH2]; simpl.
  - done.
  - destruct (p x); [by apply perm_skip|done].
  - destruct (p x), (p y); try done. apply perm_swap.
  - by etrans.
Qed.
Lemma found_insert p m i x : m !! i = None -> found p (<[i := x]> m) ≡ₚ (if p x then [x] else []) ++ found p m.
Proof. intros Hi. etrans; [apply Permutation_found, map_to_list_insert; done|]. simpl. by destruct (p x). Qed.
Lemma count_put p m i x : m !! i = None -> count p (<[i := x]> m) = count p m + Z.b2z (p x).
Proof. intros Hi. unfold count. rewrite (Permutation_length (found_insert p m i x Hi)). destruct (p x); simpl; lia. Qed.
Lemma count_ext p q m : (forall i x, m !! i = Some x -> p x = q x) -> count p m = count q m.
Proof.
  intros Hpq. unfold count, found. do 2 f_equal. apply filter_ext_in. intros x Hx.
  apply list_elem_of_In, list_elem_of_fmap in Hx as ([i y] & -> & Hy). apply elem_of_map_to_list in Hy. by eapply Hpq.
Qed.
Lemma count_none p m : (forall i x, m !! i = Some x -> p x = false) -> count p m = 0.
Proof. intros Hp. apply find_first_none in Hp. unfold find_first, count in *. by destruct (found p m). Qed.
Lemma count_nonneg p m : 0 <= count p m.
Proof. unfold count. lia. Qed.
End Count.

(** ** Frames *)

(** Only jobs changed. *)
Definition jobs_only (s s' : store) : Prop :=
  st_heads s' = st_heads s /\ st_receipts s' = st_receipts s /\ st_ranges s' = st_ranges s.

Section Frames.
Context `{PyRepr} `{BsonLength} `{ItemFingerprint} `{HistoryIndexes} `{Sha256}.
Variable clock : nat -> Z.
Variable enabled_models : list string.
Variable allowed_sellers : option (list string).
Abbreviation fence := (_fence clock enabled_models allowed_sellers).
Abbreviation current := (_current clock enabled_models allowed_sellers).

Lemma jobs_only_refl s : jobs_only s s.
Proof using Type. done. Qed.
Lemma jobs_only_trans s s' s'' : jobs_only s s' -> jobs_only s' s'' -> jobs_only s s''.
Proof using Type. unfold jobs_only. intuition congruence. Qed.

Lemma update_job_frame i f ops s : twp (update_job i f ops) (fun _ s' => jobs_only s s') s.
Proof using Type.
  unfold update_job. tx_step. destruct (st_jobs s !! i) as [d|]; [|by tx_step]. destruct (matches 0 f d); [|by tx_step].
  destruct (apply_upds _ _ _ _); repeat tx_step. done.
Qed.
Lemma fence_frame job h s : twp (fence job h) (fun _ s' => jobs_only s s') s.
Proof using Type.
  unfold _fence. repeat tx_step. tx_use update_job_frame. intros m s' Hs. by repeat tx_step.
Qed.
Lemma pending_frame job h a d s : twp (_pending clock job h a d) (fun _ s' => jobs_only s s') s.
Proof using Type.
  unfold _pending. repeat tx_step. tx_use update_job_frame. intros m s' Hs. by repeat tx_step.
Qed.
Lemma finish_frame job b r s : twp (finish_in_tx clock job b r) (fun _ s' => jobs_only s s') s.
Proof using Type.
  unfold finish_in_tx. repeat tx_step. case_match; [|tx_step]. repeat tx_step. tx_use update_job_frame. intros m s' Hs. by repeat tx_step.
Qed.

(** A transaction of the store sees the head it was given. *)
Lemma read_head_spec i s : twp (read_head i) (fun o s' => s' = s /\ o = st_heads s !! i) s.
Proof using Type.
  unfold read_head. tx_step. destruct (st_heads s !! i) as [h|]; [|by tx_step]. repeat tx_step. split; [done|].
  f_equal. unfold validate_acquisition in *. match goal with Hv : _ = Ok _ |- _ => repeat case_hyp Hv; try done; by injection Hv end.
Qed.
Lemma current_frame job h s :
  twp (current job h) (fun _ s' => jobs_only s s' /\ st_heads s !! h_id h = Some h /\ is_staging (h_phase h) = true /\ h_published_count h = 0) s.
Proof using Type.
  unfold _current. tx_use fence_frame. intros _ s1 Hs1. repeat tx_step.
  tx_use read_head_spec. intros o s2 [-> Ho]. subst o. repeat tx_step.
  destruct (st_jobs s1 !! _) as [d|]; repeat tx_step. bool_to_prop. pose proof Hs1 as (Hh & _ & _). rewrite <- Hh.
  match goal with Hb : bool_decide _ = true |- _ => apply bool_decide_eq_true in Hb end. done.
Qed.
End Frames.

(** ** Heads through BSON *)

Section Heads.
Context `{BsonLength}.
Lemma validate_acquisition_same h h' : validate_acquisition h = Ok h' -> h' = h.
Proof using Type. unfold validate_acquisition. intros Hv. repeat case_hyp Hv; try done; by injection Hv. Qed.
Lemma _head_spec h h' : _head h = Ok h' -> h' = bson_acquisition h /\ validate_acquisition h' = Ok h'.
Proof using Type.
  unfold _head. intros Hh. result_inv. apply validate_acquisition_same in E. subst a. unfold acquisition_document in *.
  repeat case_hyp E0; try done. injection E0 as <-. pose proof (validate_acquisition_same _ _ Hh) as ->. done.
Qed.
End Heads.

(** ** Staging *)

(** No receipt identity is stored twice. *)
Definition identities_unique (m : gmap string SheetsHistoryReceipt) : Prop :=
  forall i j r r', m !! i = Some r -> m !! j = Some r' -> same_receipt_identity r r' = true -> i = j.

(** Every detail has the membership of its order. *)
Definition membership_of (d r : SheetsHistoryReceipt) : Prop := same_receipt_identity (d {{ r_kind := Membership }}) r = true.
Definition details_have_members (m : gmap string SheetsHistoryReceipt) : Prop :=
  forall i d, m !! i = Some d -> r_kind d = Detail -> exists j r, m !! j = Some r /\ membership_of d r.

Lemma same_receipt_identity_iff a b : same_receipt_identity a b = true <->
  r_acquisition_id a = r_acquisition_id b /\ r_generation a = r_generation b /\ r_pass_number a = r_pass_number b /\
  r_kind a = r_kind b /\ r_resource_id a = r_resource_id b.
Proof. unfold same_receipt_identity. rewrite !andb_true_iff, !bool_decide_eq_true, !Z.eqb_eq. tauto. Qed.
Lemma same_receipt_identity_sym a b : same_receipt_identity a b = same_receipt_identity b a.
Proof. apply eq_true_iff_eq. rewrite !same_receipt_identity_iff. intuition congruence. Qed.
Lemma same_receipt_identity_refl a : same_receipt_identity a a = true.
Proof. by apply same_receipt_identity_iff. Qed.

Lemma identities_insert m i r : m !! i = None -> find_first (same_receipt_identity r) m = None ->
  identities_unique m -> identities_unique (<[i := r]> m).
Proof.
  intros Hi Hn Hu j k a b Ha Hb Hab. apply lookup_insert_Some in Ha as [[<- <-]|[Hj Ha]], Hb as [[<- <-]|[Hk Hb]]; [done| | |by eapply Hu].
  - pose proof (proj1 (find_first_none _ _) Hn _ _ Hb). congruence.
  - pose proof (proj1 (find_first_none _ _) Hn _ _ Ha). rewrite same_receipt_identity_sym in Hab. congruence.
Qed.

Definition number (p : SheetsHistoryReceipt -> bool) (l : list SheetsHistoryReceipt) : Z := Z.of_nat (length (List.filter p l)).
Lemma number_cons p r l : number p (r :: l) = Z.b2z (p r) + number p l.
Proof. unfold number. simpl. destruct (p r); simpl; lia. Qed.
Lemma number_none p l : Forall (fun r => p r = false) l -> number p l = 0.
Proof. induction 1 as [|r l Hr Hl IH]; [done|]. rewrite number_cons, Hr, IH. done. Qed.
Lemma number_ext p q l : Forall (fun r => p r = q r) l -> number p l = number q l.
Proof. induction 1 as [|r l Hr Hl IH]; [done|]. by rewrite !number_cons, Hr, IH. Qed.

(** The receipts [new] that a batch adds to the collection. *)
Record staged (docs new : list SheetsHistoryReceipt) (m m' : gmap string SheetsHistoryReceipt) : Prop := {
  sg_incl : incl new docs;
  sg_count p : count p m' = count p m + number p new;
  sg_origin i r : m' !! i = Some r -> m !! i = Some r \/ In r new /\ r_id r = i;
  sg_grow : m ⊆ m';
  sg_unique : identities_unique m -> identities_unique m';
  sg_members : details_have_members m -> details_have_members m';
  sg_fresh : distinct docs = true -> (forall d, In d docs -> find_first (same_receipt_identity d) m = None) -> new = docs;
}.

Lemma staged_nil m : staged [] [] m m.
Proof.
  split; try done; [apply incl_refl| |by eauto..]. intros p. change (number p []) with 0. lia.
Qed.
Lemma staged_skip d docs new m m' : is_some (find_first (same_receipt_identity d) m) = true ->
  staged docs new m m' -> staged (d :: docs) new m m'.
Proof.
  intros Hd [Hi ? ? ? ? ? _]. split; try done; [by apply incl_tl|]. intros _ Hn. rewrite (Hn d) in Hd by (by left). done.
Qed.
Lemma members_insert m d : m !! r_id d = None -> (r_kind d = Detail -> exists j r, m !! j = Some r /\ membership_of d r) ->
  details_have_members m -> details_have_members (<[r_id d := d]> m).
Proof.
  intros Hn Hd Hm i e He Hk. assert (Hw : forall j r, m !! j = Some r -> <[r_id d := d]> m !! j = Some r).
  { intros j r Hj. rewrite lookup_insert_ne; [done|congruence]. }
  apply lookup_insert_Some in He as [[<- <-]|[_ He]]; [destruct (Hd Hk) as (j & r & Hj & Hr)|destruct (Hm i e He Hk) as (j & r & Hj & Hr)];
    exists j, r; eauto.
Qed.
Lemma staged_add d docs new m m' : m !! r_id d = None -> find_first (same_receipt_identity d) m = None ->
  (r_kind d = Detail -> exists j r, m !! j = Some r /\ membership_of d r) ->
  staged docs new (<[r_id d := d]> m) m' -> staged (d :: docs) (d :: new) m m'.
Proof.
  intros Hd Hn Hdet [Hi Hc Ho Hg Hu Hmem Hf]. split.
  - apply incl_cons; [by left|by apply incl_tl].
  - intros p. rewrite Hc, count_put, number_cons by done. lia.
  - intros i r Hir. destruct (Ho i r Hir) as [Hi'|[Hi' <-]]; [|right; split; [by right|done]].
    apply lookup_insert_Some in Hi' as [[<- <-]|[_ Hi']]; [right; split; [by left|done]|by left].
  - etrans; [|exact Hg]. by apply insert_subseteq.
  - intros Hids. by apply Hu, identities_insert.
  - intros Hm. by apply Hmem, members_insert.
  - intros Hdist Hfresh. simpl in Hdist. apply andb_true_iff in Hdist as [Hnd Hdist]. apply negb_true_iff in Hnd. f_equal. apply Hf; [done|].
    intros e He. apply find_first_none. intros i x Hx. apply lookup_insert_Some in Hx as [[<- <-]|[_ Hx]].
    + rewrite same_receipt_identity_sym. destruct (same_receipt_identity d e) eqn:Hde; [|done].
      rewrite <- Hnd. symmetry. apply existsb_exists. eauto.
    + apply (proj1 (find_first_none _ _) (Hfresh e (or_intror He)) _ _ Hx).
Qed.

(** Heads and ranges are as before. *)
Definition receipts_only (s s' : store) : Prop := st_heads s' = st_heads s /\ st_ranges s' = st_ranges s.

Section Staging.
Context `{PyRepr} `{BsonLength} `{ItemFingerprint} `{HistoryIndexes}.

Lemma stage_spec replay docs s :
  twp (stage_receipts replay docs) (fun df s' => receipts_only s s' /\ exists new, staged docs new (st_receipts s) (st_receipts s') /\
    df = (number (is_kind Membership) new, number (is_kind Detail) new) /\ (replay = true -> st_receipts s' = st_receipts s)) s.
Proof using Type.
  revert s. induction docs as [|d docs IH]; intros s; cbn [stage_receipts].
  { tx_step. split; [done|]. exists []. split; [apply staged_nil|done]. }
  tx_step. destruct (find_first (same_receipt_identity d) (st_receipts s)) as [stored|] eqn:Hf.
  - tx_step. eapply twp_mono; [apply IH|]. cbv beta. intros df s' [Hs (new & Hst & Hdf & Hrp)]. split; [done|]. exists new. split; [|done].
    apply staged_skip; [by rewrite Hf|done].
  - repeat tx_step. bool_to_prop. tx_use IH. intros [dd ff] s' [Hs (new & Hst & [= -> ->] & _)]. tx_step.
    split; [done|]. exists (d :: new). split; [apply staged_add; [|exact Hf| |exact Hst]|].
    + destruct (st_receipts s !! r_id d); [done|reflexivity].
    + intros Hk. destruct (find_first (same_receipt_identity (d {{ r_kind := Membership }})) (st_receipts s)) as [r|] eqn:Hr.
      * apply find_first_some in Hr as (j & Hj & Hr). by exists j, r.
      * match goal with Hg : _ \/ is_some None = true |- _ => destruct Hg as [Hg|Hg]; [by rewrite bool_decide_true in Hg|done] end.
    + rewrite !number_cons. split; [unfold is_kind; f_equal; lia|congruence].
Qed.

Lemma check_receipts_batch after rs docs : check_receipts after rs = Ok docs -> Forall (fun d => same_batch d after = true) docs.
Proof using Type.
  revert docs. induction rs as [|r rs IH]; intros docs Hc; cbn [check_receipts] in Hc; result_inv; [constructor|].
  constructor; [|by apply IH]. unfold check_receipt in E. result_inv. repeat case_hyp E; try done. injection E as <-. bool_to_prop.
  by destruct (same_batch _ after).
Qed.

(** A batch without repeated identities names no record twice in one kind. *)
Definition named (r : SheetsHistoryReceipt) : receipt_kind * string := (r_kind r, r_resource_id r).
Lemma validate_receipt_same r r' : validate_receipt r = Ok r' -> r' = r.
Proof using Type. unfold validate_receipt. intros Hv. repeat case_hyp Hv; try done; by injection Hv. Qed.
Lemma check_receipts_named after rs docs : check_receipts after rs = Ok docs -> map named docs = map named rs.
Proof using Type.
  revert docs. induction rs as [|r rs IH]; intros docs Hc; cbn [check_receipts] in Hc; result_inv; [done|]. cbn. f_equal; [|by apply IH].
  unfold check_receipt in E. apply result_bind_Ok in E as (x & ->%validate_receipt_same & E). apply result_bind_Ok in E as (y & Hy & E).
  repeat case_hyp E; try done. injection E as ->. unfold receipt_document in Hy. result_inv. repeat case_hyp Hy; try done; by injection Hy as <-.
Qed.
Lemma same_batch_iff d after : same_batch d after = true -> r_acquisition_id d = h_id after /\ r_generation d = h_generation after /\ r_pass_number d = h_pass_number after.
Proof using Type. unfold same_batch. rewrite !andb_true_iff, ?bool_decide_eq_true, ?Z.eqb_eq. intuition congruence. Qed.
Lemma distinct_named after docs : Forall (fun d => same_batch d after = true) docs -> distinct docs = true -> List.NoDup (map named docs).
Proof using Type.
  induction docs as [|d docs IH]; cbn [distinct map]; intros Hb Hd; [constructor|]. apply Forall_cons in Hb as [Hbd Hb]. apply andb_true_iff in Hd as [Hn Hd].
  constructor; [|by apply IH]. intros (x & Hx & Hin)%in_map_iff. apply negb_true_iff, not_true_iff_false in Hn. apply Hn, existsb_exists. exists x. split; [done|].
  rewrite Forall_forall in Hb. apply list_elem_of_In in Hin. apply same_batch_iff in Hbd as (Ha & Hg & Hp). destruct (same_batch_iff _ _ (Hb x Hin)) as (Ha' & Hg' & Hp').
  injection Hx as Hk Hi. unfold same_receipt_identity. rewrite !andb_true_iff, !bool_decide_eq_true, !Z.eqb_eq. intuition congruence.
Qed.

(** ** A checkpoint *)

Variable clock : nat -> Z.
Variable enabled_models : list string.
Variable allowed_sellers : option (list string).

(** What a committed checkpoint did: nothing, when it was a replay, or one
    step of the head with the receipts of its batch. *)
Record checkpointed (before after : SheetsHistoryAcquisition) (docs new : list SheetsHistoryReceipt) (s s' : store) : Prop := {
  cp_before : st_heads s !! h_id before = Some before;
  cp_identity : same_identity before after = true;
  cp_pass : same_pass before after = true;
  cp_step : staging_step before after = true;
  cp_batch : Forall (fun d => same_batch d after = true) docs;
  cp_distinct : distinct docs = true;
  cp_staged : staged docs new (st_receipts s) (st_receipts s');
  cp_discovered : h_discovered_count after = h_discovered_count before + number (is_kind Membership) new;
  cp_fetched : h_fetched_count after = h_fetched_count before + number (is_kind Detail) new;
  cp_heads : st_heads s' = <[h_id before := after]> (st_heads s);
}.

Lemma replace_head_spec expected saved msg s :
  twp (replace_head expected saved msg) (fun _ s' => s' = with_heads (insert (h_id expected) saved) s) s.
Proof using Type. unfold replace_head. tx_step. destruct (st_heads s !! _); repeat tx_step. done. Qed.

Lemma checkpoint_spec job expected proposed receipts s :
  twp (checkpoint clock enabled_models allowed_sellers job expected proposed receipts)
    (fun after s' => exists before docs, _head expected = Ok before /\ _head proposed = Ok after /\
       check_receipts after receipts = Ok docs /\ st_ranges s' = st_ranges s /\
       (jobs_only s s' /\ st_heads s !! h_id before = Some after \/ exists new, checkpointed before after docs new s s')) s.
Proof using Type.
  unfold checkpoint. tx_step. rename a into before. tx_step. rename a into after. tx_step. tx_step. tx_step. tx_step. rename a into docs. tx_step. tx_step.
  tx_use fence_frame. intros _ s1 (Hh1 & Hr1 & Hg1). tx_use read_head_spec. intros current s2 [-> Hcur]. subst current. tx_step.
  tx_use stage_spec. intros [d f] s3 [[Hh3 Hg3] (new & Hst & [= -> ->] & Hrp)].
  case_bool_decide as Hcur.
  - repeat tx_step. tx_use fence_frame. intros _ s4 (Hh4 & Hr4 & Hg4). tx_step. exists before, docs. do 3 (split; [done|]).
    split; [congruence|]. left. split; [|congruence]. split; [congruence|]. split; [rewrite Hr4, (Hrp eq_refl); congruence|congruence].
  - rewrite orb_false_r in *. bool_to_prop. repeat tx_step. tx_use replace_head_spec. intros _ s4 ->.
    tx_use fence_frame. intros _ s5 (Hh5 & Hr5 & Hg5). tx_step. exists before, docs. do 3 (split; [done|]).
    split; [rewrite Hg5; cbn; congruence|]. right. exists new.
    match goal with Hb : bool_decide _ = true |- _ => apply bool_decide_eq_true in Hb; rename Hb into Hbefore end. bool_to_prop.
    split; try done; try congruence.
    + by eapply check_receipts_batch.
    + rewrite Hr5. cbn. by rewrite <- Hr1.
    + rewrite Hh5. cbn. congruence.
Qed.
End Staging.

(** ** The invariant of heads and receipts *)

Record counts_inv (s : store) : Prop := {
  ci_key i h : st_heads s !! i = Some h -> h_id h = i;
  ci_pass i r : st_receipts s !! i = Some r -> r_id r = i /\ exists h, st_heads s !! r_acquisition_id r = Some h /\
    r_generation r = h_generation h /\ r_pass_number r <= h_pass_number h;
  ci_unique : identities_unique (st_receipts s);
  ci_members : details_have_members (st_receipts s);
  ci_counts i h : st_heads s !! i = Some h -> is_staging (h_phase h) = true ->
    h_discovered_count h = count (of_kind h Membership) (st_receipts s) /\ h_fetched_count h = count (of_kind h Detail) (st_receipts s);
}.

Lemma of_kind_iff h k r : of_kind h k r = true <->
  r_acquisition_id r = h_id h /\ r_generation r = h_generation h /\ r_pass_number r = h_pass_number h /\ r_kind r = k.
Proof. unfold of_kind, in_scope, is_kind. rewrite !andb_true_iff, !bool_decide_eq_true, !Z.eqb_eq. tauto. Qed.
Lemma of_kind_false h k r : r_acquisition_id r <> h_id h \/ r_pass_number r <> h_pass_number h -> of_kind h k r = false.
Proof. intros Hne. destruct (of_kind h k r) eqn:E; [|done]. apply of_kind_iff in E. intuition congruence. Qed.
(** The scope is the identity and the pass of the head. *)
Lemma of_kind_same h h' k r : h_id h' = h_id h -> h_generation h' = h_generation h -> h_pass_number h' = h_pass_number h ->
  of_kind h' k r = of_kind h k r.
Proof. intros Hi Hg Hp. unfold of_kind, in_scope. by rewrite Hi, Hg, Hp. Qed.

Lemma counts_jobs s s' : jobs_only s s' -> counts_inv s -> counts_inv s'.
Proof. intros (Hh & Hr & _) [Hk Hp Hu Hm Hc]. split; rewrite ?Hh, ?Hr; done. Qed.

(** A head moves on: its counts are settled, the others keep their scope. *)
Lemma counts_update s s' i h h' docs new :
  counts_inv s -> st_heads s !! i = Some h -> st_heads s' = <[i := h']> (st_heads s) ->
  h_id h' = h_id h -> h_generation h' = h_generation h -> h_pass_number h <= h_pass_number h' ->
  staged docs new (st_receipts s) (st_receipts s') ->
  Forall (fun r => r_acquisition_id r = h_id h' /\ r_generation r = h_generation h' /\ r_pass_number r = h_pass_number h') new ->
  (is_staging (h_phase h') = true ->
     h_discovered_count h' = count (of_kind h' Membership) (st_receipts s') /\ h_fetched_count h' = count (of_kind h' Detail) (st_receipts s')) ->
  counts_inv s'.
Proof.
  intros [Hk Hp Hu Hm Hc] Hh Hs' Hid Hg Hpass Hst Hnew Hcounts. pose proof (Hk _ _ Hh) as Hidh. rewrite Forall_forall in Hnew. split; rewrite ?Hs'.
  - intros j g Hj. apply lookup_insert_Some in Hj as [[<- <-]|[_ Hj]]; [congruence|by apply Hk].
  - intros j r Hj. destruct (sg_origin _ _ _ _ Hst j r Hj) as [Hj'|[Hr <-]].
    + destruct (Hp j r Hj') as (Hrid & g & Hg' & Hgen & Hle). split; [done|]. destruct (decide (r_acquisition_id r = i)) as [Hi|Hne].
      * exists h'. rewrite Hi, lookup_insert_eq. rewrite Hi in Hg'. split; [done|]. simplify_eq. split; [congruence|lia].
      * exists g. rewrite lookup_insert_ne by done. done.
    + split; [done|]. apply list_elem_of_In in Hr. destruct (Hnew r Hr) as (Ha & Hgen & Hpn). exists h'.
      rewrite Ha, Hid, Hidh, lookup_insert_eq. split; [done|]. split; [done|lia].
  - by apply (sg_unique _ _ _ _ Hst).
  - by apply (sg_members _ _ _ _ Hst).
  - intros j g Hj Hstage. apply lookup_insert_Some in Hj as [[<- <-]|[Hne Hj]]; [by apply Hcounts|].
    rewrite !(sg_count _ _ _ _ Hst), !number_none; rewrite ?Z.add_0_r; [by apply (Hc j)|..]; apply Forall_forall; intros r Hr;
      destruct (Hnew r Hr) as (Ha & _ & _); apply of_kind_false; left; rewrite Ha, Hid, Hidh, (Hk _ _ Hj); done.
Qed.

Lemma counts_checkpointed before after docs new s s' : checkpointed before after docs new s s' -> counts_inv s -> counts_inv s'.
Proof.
  intros [Hb Hid Hpass Hstep Hbatch _ Hst Hd Hf Hh] Hi. unfold same_identity, same_pass in *. bool_to_prop.
  bools.
  assert (Hdocs : Forall (fun r => r_acquisition_id r = h_id after /\ r_generation r = h_generation after /\ r_pass_number r = h_pass_number after) new).
  { apply Forall_forall. intros r Hr. rewrite Forall_forall in Hbatch. specialize (Hbatch r). unfold same_batch in Hbatch.
    assert (Hin : r ∈ docs) by (apply list_elem_of_In, (sg_incl _ _ _ _ Hst); by apply list_elem_of_In). specialize (Hbatch Hin). bool_to_prop.
    bools. done. }
  eapply counts_update; [exact Hi|exact Hb|exact Hh|congruence|congruence|lia|exact Hst|exact Hdocs|]. intros _.
  assert (Hstage : is_staging (h_phase before) = true) by (unfold staging_step in Hstep; by bool_to_prop).
  destruct (ci_counts _ Hi _ _ Hb Hstage) as [Hcd Hcf]. rewrite Hd, Hf, Hcd, Hcf, !(sg_count _ _ _ _ Hst).
  assert (Hnum : forall k, number (of_kind after k) new = number (is_kind k) new).
  { intros k. apply number_ext. eapply Forall_impl; [exact Hdocs|]. intros r (Ha & Hg & Hp). unfold of_kind, in_scope.
    by rewrite Ha, Hg, Hp, bool_decide_true, !Z.eqb_refl. }
  rewrite !Hnum. split; f_equal; apply count_ext; intros; symmetry; apply of_kind_same; congruence.
Qed.

(** A new pass starts with nothing staged. *)
Lemma counts_new_pass s h h' :
  counts_inv s -> st_heads s !! h_id h = Some h -> h_id h' = h_id h -> h_generation h' = h_generation h -> h_pass_number h' = h_pass_number h + 1 ->
  h_discovered_count h' = 0 -> h_fetched_count h' = 0 -> counts_inv (with_heads (insert (h_id h) h') s).
Proof.
  intros Hi Hh Hid Hg Hp Hd Hf. eapply (counts_update s _ (h_id h) h h' [] []); try done; [lia|apply staged_nil|].
  intros _. cbn. rewrite Hd, Hf, !count_none; [done|..]; intros i r Hr; destruct (ci_pass _ Hi i r Hr) as (_ & g & Hg' & _ & Hle);
    apply of_kind_false; (destruct (decide (r_acquisition_id r = h_id h)) as [He|Hne]; [right|left; congruence]);
    rewrite He in Hg'; simplify_eq; lia.
Qed.

(** Publication: the counts are settled. *)
Lemma counts_published s h h' :
  counts_inv s -> st_heads s !! h_id h = Some h -> h_id h' = h_id h -> h_generation h' = h_generation h -> h_pass_number h' = h_pass_number h ->
  is_staging (h_phase h') = false -> counts_inv (with_heads (insert (h_id h) h') s).
Proof.
  intros Hi Hh Hid Hg Hp Hst. eapply (counts_update s _ (h_id h) h h' [] []); try done; [lia|apply staged_nil|congruence].
Qed.

Lemma counts_first s h :
  counts_inv s -> st_heads s !! h_id h = None -> h_discovered_count h = 0 -> h_fetched_count h = 0 ->
  counts_inv (with_heads (insert (h_id h) h) s).
Proof.
  intros [Hk Hp Hu Hm Hc] Hn Hd Hf.
  assert (Hscope : forall i r, st_receipts s !! i = Some r -> r_acquisition_id r <> h_id h).
  { intros i r Hr He. destruct (Hp i r Hr) as (_ & g & Hg & _). congruence. }
  split; cbn; try done.
  - intros j g Hj. apply lookup_insert_Some in Hj as [[<- <-]|[_ Hj]]; [done|by apply Hk].
  - intros j r Hj. destruct (Hp j r Hj) as (Hrid & g & Hg & Hgp). split; [done|]. exists g.
    rewrite lookup_insert_ne by (intros He; by eapply Hscope). done.
  - intros j g Hj Hst. apply lookup_insert_Some in Hj as [[<- <-]|[_ Hj]]; [|by apply (Hc j)].
    rewrite Hd, Hf, !count_none; [done|..]; intros i r Hr; apply of_kind_false; left; by eapply Hscope.
Qed.
