(* ===== verification/RecoveryProofs.v ===== *)
(** What the recovery queue keeps: its calls on the jobs, the invariant of the
    active jobs of a seller, the fence of an attempt. *)

From S2P Require Export RecoveryWork HistoryProofs MongoRef.

#[local] Open Scope Z_scope.

(** ** The calls on the jobs *)

(** Every job is stored under its [_id]. *)
Definition keyed (s : store) : Prop := forall i d, st_jobs s !! i = Some d -> doc_id d = Some i.

Definition frames (k : string) (ops : list upd) : bool := forallb (fun u => negb (String.eqb (upd_field u) k)) ops.
Lemma frames_app k a b : frames k (a ++ b) = frames k a && frames k b.
Proof. apply forallb_app. Qed.
Lemma frames_keep k ops d d' : apply_upds 0 false ops d = Some d' -> frames k ops = true -> d' !! k = d !! k.
Proof.
  intros Ha Hf. eapply apply_upds_frame; [exact Ha|]. apply Forall_forall. intros u Hu Hk. unfold frames in Hf.
  rewrite forallb_forall in Hf. apply list_elem_of_In in Hu. specialize (Hf u Hu). rewrite Hk, String.eqb_refl in Hf. done.
Qed.

(** One job, in [s] a match of [f], changed by [ops]. *)
Definition changed (f : filter) (ops : list upd) (s s' : store) (i : string) (d d' : doc) : Prop :=
  st_jobs s !! i = Some d /\ matches 0 f d = true /\ apply_upds 0 false ops d = Some d' /\ s' = with_jobs (insert i d') s.
Definition no_match (f : filter) (s : store) : Prop := forall i d, st_jobs s !! i = Some d -> matches 0 f d = false.

Lemma jobs_of_spec f s d : In d (jobs_of f s) <-> exists i, st_jobs s !! i = Some d /\ matches 0 f d = true.
Proof. apply found_spec. Qed.
Lemma best_none sort ds : best sort ds = None -> ds = [].
Proof. destruct ds as [|d ds]; [done|]. cbn. destruct (foldr _ None ds); [case_match|]; done. Qed.
Lemma best_some sort ds d : best sort ds = Some d -> In d ds /\ forall e, In e ds -> doc_le sort d e = true.
Proof.
  assert (Hrefl : forall x, doc_le sort x x = true).
  { intros x. destruct (doc_le sort x x) eqn:E; [done|]. by apply doc_le_total in E as E'; congruence. }
  revert d. induction ds as [|x ds IH]; [done|]. intros d. cbn. fold (best sort ds).
  destruct (best sort ds) as [b|] eqn:Hb.
  - destruct (IH b eq_refl) as [Hin Hle]. destruct (doc_le sort x b) eqn:Hx; intros [= <-].
    + split; [by left|]. intros e [<-|He]; [apply Hrefl|]. eapply doc_le_trans; [exact Hx|by apply Hle].
    + split; [by right|]. intros e [<-|He]; [by apply doc_le_total|by apply Hle].
  - intros [= <-]. apply best_none in Hb as ->. split; [by left|]. intros e [<-|[]]. apply Hrefl.
Qed.

Lemma write_job_spec f ops s i d : keyed s -> st_jobs s !! i = Some d -> matches 0 f d = true ->
  twp (write_job d ops) (fun d' s' => changed f ops s s' i d d') s.
Proof.
  intros Hk Hi Hm. unfold write_job. rewrite (Hk i d Hi). destruct (apply_upds 0 false ops d) as [d'|] eqn:Ha; [|by apply twp_fail].
  repeat tx_step. done.
Qed.
Lemma no_match_of f s : jobs_of f s = [] -> no_match f s.
Proof.
  intros Hn i d Hi. destruct (matches 0 f d) eqn:Hm; [|done].
  assert (Hin : In d (jobs_of f s)) by (apply jobs_of_spec; eauto). by rewrite Hn in Hin.
Qed.

Lemma update_one_spec f ops s : keyed s ->
  twp (update_one f ops) (fun b s' => if b then exists i d d', changed f ops s s' i d d' else s' = s /\ no_match f s) s.
Proof.
  intros Hk. unfold update_one. tx_step. destruct (best [] (jobs_of f s)) as [d|] eqn:Hb.
  - apply best_some in Hb as [(i & Hi & Hm)%jobs_of_spec _].
    tx_use (write_job_spec f ops s i d Hk Hi Hm). intros d' s' Hc. tx_step. eauto.
  - apply best_none in Hb. tx_step. split; [done|]. by apply no_match_of.
Qed.
Lemma find_one_and_update_spec f ops sort s : keyed s ->
  twp (find_one_and_update f ops sort) (fun o s' =>
    match o with
    | Some c => exists i d d', changed f ops s s' i d d' /\ c = decode_doc true d' /\
        forall j e, st_jobs s !! j = Some e -> matches 0 f e = true -> doc_le sort d e = true
    | None => s' = s /\ no_match f s
    end) s.
Proof.
  intros Hk. unfold find_one_and_update. tx_step. destruct (best sort (jobs_of f s)) as [d|] eqn:Hb.
  - apply best_some in Hb as [(i & Hi & Hm)%jobs_of_spec Hle].
    tx_use (write_job_spec f ops s i d Hk Hi Hm). intros d' s' Hc. tx_step. exists i, d, d'. split; [done|]. split; [done|].
    intros j e Hj He. apply Hle, jobs_of_spec. eauto.
  - apply best_none in Hb. tx_step. split; [done|]. by apply no_match_of.
Qed.

Lemma changed_keyed f ops s s' i d d' : keyed s -> frames "_id" ops = true -> changed f ops s s' i d d' -> keyed s'.
Proof.
  intros Hk Hf (Hi & _ & Ha & ->) j e Hj. cbn in Hj. apply lookup_insert_Some in Hj as [[<- <-]|[_ Hj]]; [|by apply Hk].
  unfold doc_id. rewrite (frames_keep _ _ _ _ Ha Hf). by apply Hk.
Qed.

(** [update_many] under an invariant that each single update keeps. *)
Lemma write_jobs_keep (I : store -> Prop) f ops ds : (forall s, I s -> keyed s) ->
  (forall s s' i d d', I s -> changed f ops s s' i d d' -> I s') ->
  forall s, I s -> List.NoDup (omap doc_id ds) -> (forall d, In d ds -> exists i, st_jobs s !! i = Some d /\ matches 0 f d = true) ->
  twp (write_jobs ds ops) (fun _ s' => I s') s.
Proof.
  intros Hkeyed Hstep. induction ds as [|d ds IH]; intros s HI Hnd Hds; cbn [write_jobs].
  { by tx_step. }
  destruct (Hds d (or_introl eq_refl)) as (i & Hi & Hm). pose proof (Hkeyed s HI i d Hi) as Hid.
  tx_use (write_job_spec f ops s i d (Hkeyed s HI) Hi Hm). intros d' s' Hc. pose proof (Hstep _ _ _ _ _ HI Hc) as HI'.
  cbn in Hnd. rewrite Hid in Hnd. apply NoDup_cons_iff in Hnd as [Hni Hnd].
  apply (IH s' HI' Hnd). intros e He. destruct (Hds e (or_intror He)) as (j & Hj & Hme). exists j. split; [|done].
  destruct Hc as (_ & _ & _ & ->). cbn. rewrite lookup_insert_ne; [done|]. intros <-. apply Hni.
  apply list_elem_of_In, list_elem_of_omap. exists e. split; [by apply list_elem_of_In|]. exact (Hkeyed s HI i e Hj).
Qed.

Lemma ids_nodup (p : doc -> bool) (l : list (string * doc)) : (forall i d, In (i, d) l -> doc_id d = Some i) -> List.NoDup l.*1 ->
  List.NoDup (omap doc_id (List.filter p l.*2)) /\ forall i, In i (omap doc_id (List.filter p l.*2)) -> In i l.*1.
Proof.
  induction l as [|[i d] l IH]; intros Hid Hnd; [by split|]. cbn in *. apply NoDup_cons_iff in Hnd as [Hni Hnd].
  destruct IH as [IHn IHi]; [intros j e He; apply Hid; by right|done|]. destruct (p d); cbn.
  - rewrite (Hid i d (or_introl eq_refl)). cbn. split.
    + constructor; [|done]. intros Hin. by apply Hni, IHi.
    + intros j [<-|Hj]; [by left|right; by apply IHi].
  - split; [done|]. intros j Hj. right. by apply IHi.
Qed.
Lemma update_many_keep (I : store -> Prop) f ops : (forall s, I s -> keyed s) ->
  (forall s s' i d d', I s -> changed f ops s s' i d d' -> I s') -> forall s, I s -> twp (update_many f ops) (fun _ s' => I s') s.
Proof.
  intros Hkeyed Hstep s HI. unfold update_many. tx_step. apply (write_jobs_keep I f ops); [done|done|done| |].
  - apply ids_nodup; [|apply NoDup_ListNoDup, NoDup_fst_map_to_list].
    intros i d Hd. apply list_elem_of_In, elem_of_map_to_list in Hd. by apply (Hkeyed s HI).
  - intros d Hd. by apply jobs_of_spec.
Qed.

(** ** Identity *)

Definition NUL : ascii := "000"%char.
Definition nul_free (s : string) : bool := string_forallb (fun c => negb (Ascii.eqb c NUL)) s.
(** No NUL inside the names a key joins with NULs. *)
Definition named (r : request) : bool :=
  nul_free (seller_of r) && nul_free (model_of r) &&
  match r with QuestionScanRecoveryRequest _ p _ _ | OrderHistoryRecoveryRequest _ p _ _ => nul_free p | _ => true end.

Lemma nul_free_app a b : nul_free (a ++ b)%string = nul_free a && nul_free b.
Proof.
  induction a as [|c a IH]; [done|]. change (nul_free (append (String c a) b)) with (negb (Ascii.eqb c NUL) && nul_free (append a b)). by rewrite IH, andb_assoc.
Qed.
Lemma split_nul a b x y : nul_free a = true -> nul_free b = true -> (a ++ String NUL x)%string = (b ++ String NUL y)%string -> a = b /\ x = y.
Proof.
  revert b. induction a as [|c a IH]; intros [|c' b] Ha Hb; cbn in *.
  - by intros [= ->].
  - intros [= <- _]. done.
  - intros [= -> _]. done.
  - intros [= <- He]. bool_to_prop. destruct (IH b) as [-> ->]; done.
Qed.

Section Identity.
Context `{Sha256}.
(** SHA-256 does not collide. *)
Hypothesis sha_inj : forall a b, sha256_hex a = sha256_hex b -> a = b.

(** What a key joins: the seller, the model or plan, and the rest. *)
Definition middle (r : request) : string := match r with OrderHistoryRecoveryRequest _ p _ _ => p | _ => model_of r end.
Definition rest (r : request) : list string :=
  match r with
  | RecoveryRequest _ _ a b => [isoformat a; isoformat b]
  | YearHistoryRecoveryRequest _ _ a b => ["year_history"; isoformat a; isoformat b]
  | QuestionScanRecoveryRequest _ p _ _ => ["seller_scan"; p]
  | OrderHistoryRecoveryRequest _ _ a b => [order_scope_id a b]
  | OrderIdsRecoveryRequest _ ids | ShipmentIdsRecoveryRequest _ ids | ItemIdsRecoveryRequest _ _ ids => "ids" :: ids
  | ModifiedOrderIdsRecoveryRequest _ i v h => ["modified"; i; v; h]
  | CatalogProductIdsRecoveryRequest _ ids => "products" :: ids
  | CatalogRecoveryRequest _ _ ids => "catalog_intent" :: ids
  | RenewalRecoveryRequest _ _ _ slot => ["renewal"; isoformat slot]
  | ItemInventoryRecoveryRequest _ => ["inventory"]
  end%string.
Definition joined (l : list string) : string := String.concat (String NUL EmptyString) l.
Lemma joined_cons a b l : joined (a :: b :: l) = (a ++ String NUL (joined (b :: l)))%string.
Proof using Type. reflexivity. Qed.
Lemma key_joined r : key r = sha256_hex (joined (seller_of r :: middle r :: rest r)).
Proof using Type. by destruct r. Qed.
Lemma rest_cons r : exists a l, rest r = a :: l.
Proof using Type. destruct r; cbn; eauto. Qed.

Lemma inventory_rest r : joined (rest r) = "inventory"%string -> is_inventory r = true.
Proof using Type.
  assert (Hnul : forall a b l, joined (a :: b :: l) <> "inventory"%string).
  { intros a b l Hj. apply (f_equal nul_free) in Hj. rewrite joined_cons, nul_free_app in Hj. cbn in Hj. by rewrite andb_false_r in Hj. }
  destruct r; cbn [rest is_inventory]; try (intros Hj; exfalso; eapply Hnul, Hj); try done;
    try match goal with |- context [_ :: ?l] => destruct l as [|x l']; [by cbn|rewrite joined_cons; by cbn] end.
Qed.

(** The key of a request determines its seller and whether it is the inventory. *)
Lemma key_binds r r' : named r = true -> named r' = true -> key r = key r' -> seller_of r = seller_of r' /\ is_inventory r = is_inventory r'.
Proof using sha_inj.
  unfold named. intros Hn Hn' Hk. rewrite !key_joined in Hk. apply sha_inj in Hk. bool_to_prop. rewrite !joined_cons in Hk.
  apply split_nul in Hk as [-> Hk]; [|done|done]. split; [done|].
  destruct (rest_cons r) as (a & l & Hr), (rest_cons r') as (a' & l' & Hr'). rewrite Hr, Hr', !joined_cons, <- Hr, <- Hr' in Hk.
  assert (Hm : forall x, nul_free (model_of x) = true -> match x with QuestionScanRecoveryRequest _ p _ _ | OrderHistoryRecoveryRequest _ p _ _ => nul_free p | _ => true end = true ->
            nul_free (middle x) = true) by (intros []; cbn; done).
  apply split_nul in Hk as [_ Hk]; [|by apply Hm|by apply Hm].
  apply eq_true_iff_eq. split; intros Hi.
  - apply inventory_rest. rewrite <- Hk. by destruct r.
  - apply inventory_rest. rewrite Hk. by destruct r'.
Qed.
End Identity.

(** ** The capacity of a seller *)

Section Counting.
Context {A : Type}.
Lemma count_replace (p : A -> bool) m i x y : m !! i = Some x -> count p (<[i := y]> m) = count p m - Z.b2z (p x) + Z.b2z (p y).
Proof.
  intros Hi. rewrite <- (insert_delete_id m i x Hi) at 2. rewrite <- insert_delete_eq.
  rewrite !count_put by apply lookup_delete_eq. lia.
Qed.
Lemma count_le (p r : A -> bool) m : (forall x, p x = true -> r x = true) -> count p m <= count r m.
Proof.
  intros Hpr. unfold count, found. apply inj_le. induction (map_to_list m).*2 as [|x l IH]; cbn; [lia|].
  specialize (Hpr x). destruct (p x), (r x); cbn; lia.
Qed.
Lemma count_room (p : A -> bool) m i x bound : count p m < bound -> count p (<[i := x]> m) <= bound.
Proof.
  intros Hb. destruct (m !! i) as [y|] eqn:Hi; [rewrite (count_replace p m i y x Hi)|rewrite (count_put p m i x Hi)];
    destruct (p x); try destruct (p y); cbn; lia.
Qed.
Lemma count_stays (p : A -> bool) m i x bound : p x = false -> count p m <= bound -> count p (<[i := x]> m) <= bound.
Proof.
  intros Hp Hb. destruct (m !! i) as [y|] eqn:Hi; [rewrite (count_replace p m i y x Hi)|rewrite (count_put p m i x Hi)];
    rewrite Hp; try destruct (p y); cbn; lia.
Qed.
End Counting.

Definition active (seller : string) (d : doc) : bool := matches 0 (is_active seller) d.
Definition occupies (seller : string) (d : doc) : bool := matches 0 (FAnd [is_active seller; FNe ["inventory_scope"%string] (VBool true)]) d.
Definition in_progress (d : doc) : bool := existsb (match_eq d ["state"%string]) active_states.

Lemma active_iff seller d : active seller d = match_eq d ["seller_id"%string] (VStr seller) && in_progress d.
Proof. unfold active, in_progress, is_active. cbn [matches forallb]. by rewrite andb_true_r. Qed.
Lemma occupies_iff seller d : occupies seller d = active seller d && negb (match_eq d ["inventory_scope"%string] (VBool true)).
Proof. unfold occupies, active. cbn [matches forallb]. by rewrite !andb_true_r. Qed.

(** Updates that leave a job's seller and scope alone. *)
Definition tame (ops : list upd) : bool := frames "_id" ops && frames "seller_id" ops && frames "inventory_scope" ops.
Lemma tame_app a b : tame (a ++ b) = tame a && tame b.
Proof. unfold tame. rewrite !frames_app. apply eq_true_iff_eq. rewrite !andb_true_iff. tauto. Qed.

Lemma tame_cons u l : tame [u] = true -> tame l = true -> tame (u :: l) = true.
Proof. intros Hu Hl. change (u :: l) with ([u] ++ l). by rewrite tame_app, Hu, Hl. Qed.
Lemma tame_both a b : tame a = true -> tame b = true -> tame (a ++ b) = true.
Proof. intros Ha Hb. by rewrite tame_app, Ha, Hb. Qed.
(** Updates whose every field is seen. *)
Ltac tame_tac := repeat first [reflexivity|assumption|apply tame_cons; [reflexivity|]|apply tame_both|case_match].

Section Capacity.
Context `{Sha256}.
Variable q : queue.

Record queue_inv (s : store) : Prop := {
  qi_keyed : keyed s;
  qi_named : forall i d, st_jobs s !! i = Some d -> exists r, named r = true /\ i = key r /\
    doc_get d "seller_id" = VStr (seller_of r) /\ (is_inventory r = true -> doc_get d "inventory_scope" = VBool true);
  qi_active : forall seller, count (active seller) (st_jobs s) <= q_capacity q;
  qi_others : forall seller, count (occupies seller) (st_jobs s) <= q_capacity q - q_reserved q;
}.

Lemma frames_active seller ops d d' : apply_upds 0 false ops d = Some d' -> tame ops = true ->
  (in_progress d' = true -> in_progress d = true) ->
  (active seller d' = true -> active seller d = true) /\ (occupies seller d' = true -> occupies seller d = true).
Proof using Type.
  unfold tame. intros Ha Ht Hp. bool_to_prop. rewrite !occupies_iff, !active_iff.
  rewrite !(match_eq_same d d') by (by eapply frames_keep). rewrite !andb_true_iff. tauto.
Qed.

(** A change of a job in progress, or into a state that is not. *)
Lemma changed_inv f ops s s' i d d' : queue_inv s -> tame ops = true -> (in_progress d' = true -> in_progress d = true) ->
  changed f ops s s' i d d' -> queue_inv s'.
Proof using Type.
  intros [Hk Hn Ha Ho] Ht Hp Hc. pose proof Hc as (Hi & _ & Hu & ->). pose proof Ht as Ht'. unfold tame in Ht'. bool_to_prop. constructor.
  - by eapply changed_keyed.
  - intros j e He. cbn in He. apply lookup_insert_Some in He as [[-> <-]|[_ He]]; [|by apply Hn].
    destruct (Hn j d Hi) as (r & Hr & Hj & Hd). exists r. split; [done|]. split; [done|].
    unfold doc_get in *. by rewrite (frames_keep "seller_id" ops d d'), (frames_keep "inventory_scope" ops d d').
  - intros seller. cbn. rewrite (count_replace _ _ _ _ _ Hi). specialize (Ha seller).
    destruct (frames_active seller ops d d' Hu Ht Hp) as [Hx _]. destruct (active seller d'), (active seller d); cbn; lia.
  - intros seller. cbn. rewrite (count_replace _ _ _ _ _ Hi). specialize (Ho seller).
    destruct (frames_active seller ops d d' Hu Ht Hp) as [_ Hx]. destruct (occupies seller d'), (occupies seller d); cbn; lia.
Qed.

(** One more job of the seller, or a job of the seller back in progress. *)
Definition room (r : request) (s : store) : Prop :=
  count (active (seller_of r)) (st_jobs s) < q_capacity q /\
  (is_inventory r = false -> count (occupies (seller_of r)) (st_jobs s) < q_capacity q - q_reserved q).

Lemma check_capacity_spec r s : 0 <= q_reserved q <= 1 -> queue_inv s -> twp (check_capacity q r) (fun _ s' => s' = s /\ room r s) s.
Proof using Type.
  intros Hres Hinv. unfold check_capacity. tx_step.
  assert (Hac : count_jobs (is_active (seller_of r)) (q_capacity q) s = Z.min (q_capacity q) (count (active (seller_of r)) (st_jobs s))) by reflexivity.
  assert (Hoc : count_jobs (FAnd [is_active (seller_of r); FNe ["inventory_scope"%string] (VBool true)]) (q_capacity q) s
                = Z.min (q_capacity q) (count (occupies (seller_of r)) (st_jobs s))) by reflexivity.
  cbv zeta. rewrite Hac, Hoc. clear Hac Hoc.
  assert (Hle : count (occupies (seller_of r)) (st_jobs s) <= count (active (seller_of r)) (st_jobs s)).
  { apply count_le. intros d Hd. rewrite occupies_iff in Hd. by bool_to_prop. }
  case_match; [unfold capacity_error; by apply twp_fail|]. case_match; [unfold capacity_error; by apply twp_fail|].
  tx_step. split; [done|]. unfold room. split; [lia|]. intros Hi. rewrite Hi in *. cbn in *.
  destruct (q_reserved q =? 0) eqn:Hz; cbn in *; lia.
Qed.

(** A job of the request, placed where there is room. *)
Lemma placed_inv r s d : named r = true -> queue_inv s -> room r s ->
  doc_id d = Some (key r) -> doc_get d "seller_id" = VStr (seller_of r) -> (is_inventory r = true -> doc_get d "inventory_scope" = VBool true) ->
  queue_inv (with_jobs (insert (key r) d) s).
Proof using Type.
  intros Hr [Hk Hn Ha Ho] [Hra Hro] Hid Hs Hi.
  constructor.
  - intros i e He. cbn in He. apply lookup_insert_Some in He as [[<- <-]|[_ He]]; [done|by apply Hk].
  - intros i e He. cbn in He. apply lookup_insert_Some in He as [[<- <-]|[_ He]]; [by exists r|by apply Hn].
  - intros seller. cbn. destruct (active seller d) eqn:Hd; [|by apply count_stays].
    rewrite active_iff in Hd. bool_to_prop. rewrite (match_str d "seller_id" seller _ Hs) by done. by apply count_room.
  - intros seller. cbn. destruct (occupies seller d) eqn:Hd; [|by apply count_stays].
    rewrite occupies_iff, active_iff in Hd. bool_to_prop. rewrite (match_str d "seller_id" seller _ Hs) by done. apply count_room.
    apply Hro. destruct (is_inventory r); [|done]. exfalso. specialize (Hi eq_refl).
    unfold doc_get in Hi. destruct (d !! "inventory_scope"%string) as [v|] eqn:Hv; [|done]. cbn in Hi. subst v.
    match goal with Hm : match_eq d ["inventory_scope"%string] _ = false |- _ => unfold match_eq in Hm; cbn in Hm; by rewrite Hv in Hm end.
Qed.
End Capacity.

(** ** Admission *)

Section Admission.
Context `{Sha256}.
Hypothesis sha_inj : forall a b, sha256_hex a = sha256_hex b -> a = b.
Variable q : queue.
Hypothesis reserved_small : 0 <= q_reserved q <= 1.
Abbreviation inv := (queue_inv q).

Lemma initial_fields r now : doc_id (encode_doc (initial_job q r now)) = Some (key r) /\
  doc_get (encode_doc (initial_job q r now)) "seller_id" = VStr (seller_of r) /\
  (is_inventory r = true -> doc_get (encode_doc (initial_job q r now)) "inventory_scope" = VBool true).
Proof using Type.
  unfold doc_id, doc_get, encode_doc. rewrite !lookup_fmap. unfold initial_job, mk_doc.
  destruct (q_authority q), r; cbn -[key isoformat fromisoformat];
    try (match goal with |- context [if ?b then _ else _] => destruct b end); doc_simp; cbn; split_and!; done.
Qed.

(** The other key an admission may settle on. *)
Definition same_owner (r : request) (k : string) : Prop :=
  exists r', named r' = true /\ k = key r' /\ seller_of r' = seller_of r /\ (is_inventory r = true -> is_inventory r' = true).

Lemma insert_inv r i d s : named r = true -> room q r s -> inv s -> i = key r -> doc_id (encode_doc d) = Some (key r) ->
  doc_get (encode_doc d) "seller_id" = VStr (seller_of r) -> (is_inventory r = true -> doc_get (encode_doc d) "inventory_scope" = VBool true) ->
  twp (insert_job i d) (fun _ s' => inv s') s.
Proof using Type. intros Hr Hroom Hs -> Hid Hsel Hin. unfold insert_job. repeat tx_step. by apply placed_inv. Qed.

Lemma reopen_inv r k d now s : same_owner r k -> room q r s -> inv s -> twp (reopen r k d now) (fun _ s' => inv s') s.
Proof using sha_inj.
  intros (r' & Hr' & -> & Hsel & Hinv) Hroom Hs. unfold reopen. tx_step. destruct a as [cursor attempts].
  set (f := FAnd _). set (ops := _ ++ _).
  assert (Ht : tame ops = true).
  { subst ops. rewrite !tame_app.
    assert (Hc : tame cursor = true).
    { destruct r; try (by match goal with Hx : Ok _ = Ok _ |- _ => injection Hx as <- <- end).
      match goal with Hx : shipment_reopen _ _ _ = _ |- _ => unfold shipment_reopen in Hx; repeat case_hyp Hx; result_inv; try done end. }
    rewrite Hc. by destruct (is_catalog r), (is_inventory r). }
  tx_use (update_one_spec f ops s (qi_keyed _ _ Hs)). intros b s' Hb.
  assert (Hinv' : inv s').
  { destruct b; [|by destruct Hb as [-> _]]. destruct Hb as (i & e & e' & Hi & Hm & Ha & ->).
    subst f. cbn [matches forallb] in Hm. apply andb_true_iff in Hm as [Hid _].
    assert (i = key r') as ->.
    { symmetry. eapply match_str, Hid. pose proof (qi_keyed _ _ Hs i e Hi) as Hk. unfold doc_id in Hk. unfold doc_get.
      destruct (e !! "_id"%string) as [[]|]; try done. by injection Hk as ->. }
    destruct (qi_named _ _ Hs _ _ Hi) as (r2 & Hr2 & Hk2 & Hd & Hdi). destruct (key_binds sha_inj r' r2 Hr' Hr2 Hk2) as [Hs2 Hi2].
    unfold tame in Ht. bool_to_prop.
    assert (Hroom' : room q r' s).
    { destruct Hroom as [Hra Hro]. unfold room. rewrite Hsel. split; [done|]. intros Hni. apply Hro. by destruct (is_inventory r); [rewrite Hinv in Hni|]. }
    apply placed_inv; [done|done|done| | |].
    - unfold doc_id. rewrite (frames_keep "_id" ops e e') by done. by apply (qi_keyed _ _ Hs).
    - unfold doc_get in *. rewrite (frames_keep "seller_id" ops e e') by done. by rewrite Hd, Hs2.
    - unfold doc_get in *. rewrite (frames_keep "inventory_scope" ops e e') by done. rewrite Hi2. done. }
  by repeat tx_step.
Qed.

Lemma admit_existing_inv r reopen_terminal now k candidate_of d s : same_owner r k -> inv s ->
  named candidate_of = true -> seller_of candidate_of = seller_of r -> is_inventory candidate_of = is_inventory r ->
  doc_id (encode_doc d) = Some (key candidate_of) -> doc_get (encode_doc d) "seller_id" = VStr (seller_of r) ->
  (is_inventory r = true -> doc_get (encode_doc d) "inventory_scope" = VBool true) ->
  twp (admit_existing q r reopen_terminal now k (key candidate_of) d) (fun _ s' => inv s') s.
Proof using sha_inj reserved_small.
  intros Hk Hs Hn Hsel Hin Hid Hds Hdi. unfold admit_existing. tx_step. destruct (option_map _ _) as [e|] eqn:He.
  - destruct (negb _); [by tx_step|]. tx_step. destruct (is_final r || _); [by tx_step|]. tx_step. destruct (existsb _ _); [by tx_step|].
    tx_use (check_capacity_spec q r s reserved_small Hs). intros _ s' [-> Hroom]. by apply reopen_inv.
  - tx_use (check_capacity_spec q r s reserved_small Hs). intros _ s' [-> Hroom].
    apply (insert_inv candidate_of); try done; [|by rewrite Hsel|by rewrite Hin].
    unfold room in *. by rewrite Hsel, Hin.
Qed.

Lemma narrowed_spec r ids requested : requested_items r = Some requested -> named r = true ->
  named (narrowed r ids) = true /\ seller_of (narrowed r ids) = seller_of r /\ is_inventory (narrowed r ids) = is_inventory r /\ is_inventory r = false.
Proof using Type. unfold named. destruct r; cbn; try done. Qed.

Lemma admit_inv r reopen_terminal now k s : named r = true -> same_owner r k -> inv s ->
  twp (admit_in_tx q r reopen_terminal now k) (fun al s' => inv s' /\ same_owner r al.2) s.
Proof using sha_inj reserved_small.
  intros Hr Hk Hs. destruct (initial_fields r now) as (Hid & Hsel & Hin).
  assert (Hsame : forall k', same_owner r k' -> twp (do& admit_existing q r reopen_terminal now k' (key r) (initial_job q r now) in tx_ret (tt, k'))
            (fun al s' => inv s' /\ same_owner r al.2) s).
  { intros k' Hk'. tx_use (admit_existing_inv r reopen_terminal now k' r (initial_job q r now) s); try done. intros _ s' Hs'. by tx_step. }
  unfold admit_in_tx. tx_step. destruct (requested_items r) as [requested|] eqn:Hreq; [|by apply Hsame].
  destruct (narrowed_spec r (remaining_items q r s requested) requested Hreq Hr) as (Hn & Hns & Hni & Hnot).
  destruct (is_nil (remaining_items q r s requested)).
  - destruct (active_items q r s) as [|d ds] eqn:Hact; [by apply twp_fail|]. tx_step. split; [done|]. cbn.
    assert (Hd : In d (active_items q r s)) by (rewrite Hact; by left). unfold active_items in Hd. apply list_elem_of_In, elem_of_take in Hd as (j & Hj & _). apply list_elem_of_lookup_2, list_elem_of_In in Hj as Hd'.
    apply jobs_of_spec in Hd' as (i & Hi & Hm). rewrite (qi_keyed _ _ Hs i d Hi). cbn.
    cbn [matches forallb] in Hm. apply andb_true_iff in Hm as [Hm _].
    destruct (qi_named _ _ Hs i d Hi) as (r' & Hr' & -> & Hd & _). exists r'. split; [done|]. split; [done|].
    split; [symmetry; by eapply match_str|]. by rewrite Hnot.
  - destruct (bool_decide _); [by apply Hsame|].
    set (k' := key (narrowed r (remaining_items q r s requested))).
    assert (Hk' : same_owner r k') by (eexists; split_and!; [exact Hn|done|done|by rewrite Hni]).
    tx_use (admit_existing_inv r reopen_terminal now k' (narrowed r (remaining_items q r s requested))
      (<["_id" := VStr k']> (<["item_ids" := strs (remaining_items q r s requested)]> (initial_job q r now)))%string s); try done.
    + unfold doc_id, encode_doc. rewrite lookup_fmap. by doc_simp.
    + unfold doc_get, encode_doc in *. rewrite lookup_fmap in *. by doc_simp.
    + by rewrite Hnot.
    + intros _ s' Hs'. by tx_step.
Qed.
End Admission.
