(* ===== verification/RecoveryClaims.v ===== *)
(** What every operation of the recovery queue keeps, whoever else uses it; the
    capacity of a seller. *)

From S2P Require Export RecoveryProofs.

#[local] Open Scope Z_scope.

(** ** What every operation keeps *)

Section Operations.
Context `{Sha256} `{Surroundings} `{SellerGate} `{AttemptTokens}.
Variable q : queue.
(** What a change of a job in progress keeps. *)
Variable I : store -> Prop.
Hypothesis I_keyed : forall s, I s -> keyed s.
Hypothesis I_changed : forall f ops s s' i d d', I s -> tame ops = true -> (in_progress d' = true -> in_progress d = true) ->
  changed f ops s s' i d d' -> I s'.
Hypothesis others_keep : forall n s, I s -> I (others n s).
Abbreviation kept := (keeps I).

(** A filter that only jobs in progress meet. *)
Definition on_progress (f : filter) : Prop := forall d, matches 0 f d = true -> in_progress d = true.

Lemma kept_update_one f ops : on_progress f -> tame ops = true -> kept (visit (fun _ => update_one f ops)).
Proof using I_keyed I_changed others_keep.
  intros Hf Ht. apply (keeps_visit _ others_keep). intros _ s Hs. eapply twp_mono; [apply update_one_spec, I_keyed, Hs|].
  intros [] s' Hu; [|by destruct Hu as [-> _]]. destruct Hu as (i & d & d' & Hc). eapply I_changed, Hc; try done.
  intros _. apply Hf. by destruct Hc as (_ & Hm & _).
Qed.
Lemma kept_find_one_and_update f ops sort : on_progress f -> tame ops = true -> kept (visit (fun _ => find_one_and_update f ops sort)).
Proof using I_keyed I_changed others_keep.
  intros Hf Ht. apply (keeps_visit _ others_keep). intros _ s Hs. eapply twp_mono; [apply find_one_and_update_spec, I_keyed, Hs|].
  intros [c|] s' Hu; [|by destruct Hu as [-> _]]. destruct Hu as (i & d & d' & Hc & _). eapply I_changed, Hc; try done.
  intros _. apply Hf. by destruct Hc as (_ & Hm & _).
Qed.
Lemma kept_update_many f ops : on_progress f -> tame ops = true -> kept (visit (fun _ => update_many f ops)).
Proof using I_keyed I_changed others_keep.
  intros Hf Ht. apply (keeps_visit _ others_keep). intros _ s Hs. apply update_many_keep; [done| |done].
  intros s0 s1 i d d' Hs0 Hc. eapply I_changed, Hc; try done. intros _. apply Hf. by destruct Hc as (_ & Hm & _).
Qed.

Lemma in_progress_of d st : match_eq d ["state"%string] (VStr st) = true -> string_in st ["pending"; "running"]%string = true -> in_progress d = true.
Proof using Type.
  unfold in_progress, active_states. cbn. rewrite orb_false_r. intros Hm Hs. apply orb_true_iff in Hs as [Hs|Hs]; apply String.eqb_eq in Hs as ->; by rewrite Hm, ?orb_true_r.
Qed.
Lemma on_progress_head f fs : on_progress f -> on_progress (FAnd (f :: fs)).
Proof using Type. intros Hf d Hm. cbn in Hm. apply andb_true_iff in Hm as [Hm _]. by apply Hf. Qed.
Lemma on_progress_app a b : on_progress (FAnd b) -> on_progress (FAnd (a ++ b)).
Proof using Type. intros Hb d Hm. cbn [matches] in Hm. rewrite forallb_app in Hm. apply andb_true_iff in Hm as [_ Hm]. by apply Hb. Qed.
Lemma on_progress_owned job now f : _owned job now = Ok f -> on_progress f.
Proof using Type.
  unfold _owned. intros Ho. result_inv. intros d Hm. cbn [matches forallb] in Hm. bool_to_prop. by eapply (in_progress_of d "running").
Qed.
Lemma on_progress_running fs : In (FEq ["state"%string] (VStr "running")) fs -> on_progress (FAnd fs).
Proof using Type.
  intros Hin d Hm. cbn [matches] in Hm. rewrite forallb_forall in Hm. specialize (Hm _ Hin). by eapply (in_progress_of d "running").
Qed.
Lemma on_progress_claim lanes history now : on_progress (claim_filter q lanes history now).
Proof using Type.
  apply on_progress_app. intros d Hm. cbn [matches forallb existsb] in Hm. bool_to_prop.
  match goal with Hx : _ \/ _ |- _ => rewrite orb_false_r in Hx; destruct Hx as [Hx|Hx] end; [by eapply (in_progress_of d "pending")|].
  bool_to_prop. by eapply (in_progress_of d "running").
Qed.

Lemma kept_owned job now ops : tame ops = true -> kept (update_owned job now ops).
Proof using I_keyed I_changed others_keep. intros Ht. apply keeps_lifted. intros f Hf. apply kept_update_one; [by eapply on_progress_owned|done]. Qed.

Lemma tame_checkpoint job ids offset unavailable now ops : inventory_checkpoint job ids offset unavailable now = Ok ops -> tame ops = true.
Proof using Type.
  unfold inventory_checkpoint. intros Hc. result_inv.
  assert (Hf : tame a2 = true) by (case_hyp E2; result_inv; done). tame_tac.
Qed.
Lemma kept_checkpoint job ids offset unavailable : kept (checkpoint_inventory job ids offset unavailable).
Proof using I_keyed I_changed others_keep.
  unfold checkpoint_inventory. keeps_step; [keeps_step|]. destruct (a : bool); [|keeps_step]. keeps_step; [keeps_step|].
  apply keeps_lifted. intros ops Hops. apply kept_owned. by eapply tame_checkpoint.
Qed.

Lemma tame_catalog job succeeded reason now ops : catalog_fields job succeeded reason now = Ok ops -> tame ops = true.
Proof using Type.
  unfold catalog_fields. intros Hc. result_inv. repeat case_hyp Hc; try done; result_inv; tame_tac.
Qed.
Lemma tame_finish job succeeded retryable reason now ops : finish_change job succeeded retryable reason now = Ok (FinishUpdate ops) -> tame ops = true.
Proof using Type.
  unfold finish_change. intros Hc. apply result_bind_Ok in Hc as (retry & _ & Hc). case_hyp Hc; [done|]. case_hyp Hc; result_inv; [done|].
  match goal with Hx : (if ?b then catalog_fields _ _ _ _ else _) = Ok ?m |- _ =>
    assert (Hm : tame m = true) by (destruct b; [by eapply tame_catalog|by injection Hx as <-]) end.
  tame_tac.
Qed.
Lemma kept_finish job succeeded retryable reason : kept (finish job succeeded retryable reason).
Proof using I_keyed I_changed others_keep.
  unfold finish. keeps_step; [keeps_step|]. apply keeps_lifted. intros [ops|ids offset] Hp.
  - apply kept_owned. by eapply tame_finish.
  - keeps_step; [keeps_step|]. apply kept_checkpoint.
Qed.

Lemma kept_claim_loop fuel tails lanes history token now : kept (claim_loop q fuel tails (claim_filter q lanes history now) (claim_update token now) now).
Proof using I_keyed I_changed others_keep.
  induction fuel as [|fuel IH]; cbn [claim_loop]; [keeps_step|].
  keeps_step.
  { case_match; [|keeps_step]. apply kept_find_one_and_update; [|done]. apply on_progress_head, on_progress_claim. }
  keeps_step.
  { case_match; [keeps_step|]. apply kept_find_one_and_update; [|done]. apply on_progress_claim. }
  destruct a0 as [d|]; [|keeps_step]. keeps_step.
  { unfold gate_open. case_match; repeat keeps_step. }
  case_match; [keeps_step|]. keeps_step; [by apply kept_owned|exact IH].
Qed.
Lemma kept_settle lanes history now token : kept (settle_exhausted q lanes history now token).
Proof using I_keyed I_changed others_keep.
  unfold settle_exhausted. keeps_step.
  { apply kept_find_one_and_update; [|done]. apply on_progress_running, in_app_iff. right. do 2 right. by left. }
  keeps_step; [case_match; [apply kept_finish|keeps_step]|]. apply kept_update_many; [|done].
  apply on_progress_running, in_app_iff. right. right. by left.
Qed.
Lemma kept_claim fuel lane history : kept (claim q fuel lane history).
Proof using I_keyed I_changed others_keep.
  unfold claim. do 3 (keeps_step; [keeps_step|]). keeps_step; [apply kept_settle|]. keeps_step; [keeps_step|]. apply kept_claim_loop.
Qed.

Lemma kept_shipment_cursor job e n : kept (visit (fun clock => checkpoint_shipment_cursor q true job e n (clock O))).
Proof using I_keyed I_changed others_keep.
  apply (keeps_visit _ others_keep). intros clock s Hs. unfold checkpoint_shipment_cursor. tx_step. destruct a as [bound size]. tx_step.
  assert (Hp : on_progress (FAnd (bound ++ [FEq ["shipment_offset"%string] (VInt e)]))).
  { unfold _shipment_cursor_binding in *. result_inv. case_match; try done. case_match; try done. result_inv.
    apply on_progress_head. by eapply on_progress_owned. }
  eapply twp_mono; [apply update_one_spec, I_keyed, Hs|]. intros [] s' Hu; [|by destruct Hu as [-> _]]. destruct Hu as (i & d & d' & Hc).
  eapply I_changed, Hc; try done. intros _. apply Hp. by destruct Hc as (_ & Hm & _).
Qed.
Lemma kept_initialize job : kept (initialize_shipment_cursor q job).
Proof using I_keyed I_changed others_keep.
  unfold initialize_shipment_cursor. keeps_step; [keeps_step|]. apply keeps_lifted. intros [bound size] Hb. case_match; try keeps_step.
  case_match; [|keeps_step]. keeps_step; [|case_match; keeps_step]. apply kept_update_one; [|done].
  unfold _shipment_cursor_binding in Hb. result_inv. case_match; try done. case_match; try done. result_inv.
  apply on_progress_head. by eapply on_progress_owned.
Qed.
End Operations.

Section Enqueue.
Context `{Sha256} `{Surroundings} `{SellerGate}.
Hypothesis sha_inj : forall a b, sha256_hex a = sha256_hex b -> a = b.
Variable q : queue.
Hypothesis reserved_small : 0 <= q_reserved q <= 1.
Hypothesis others_keep : forall n s, queue_inv q s -> queue_inv q (others n s).
Abbreviation kept := (keeps (queue_inv q)).

Lemma same_owner_key r : named r = true -> same_owner r (key r).
Proof using Type. intros Hr. by exists r. Qed.
Lemma kept_gate seller : kept (gate_open q seller).
Proof using Type. unfold gate_open. case_match; keeps_step. Qed.
Lemma kept_enqueue r reopen_terminal : named r = true -> kept (enqueue q r reopen_terminal).
Proof using sha_inj reserved_small others_keep.
  intros Hr. unfold enqueue. do 3 (case_match; [|keeps_step]). keeps_step; [apply kept_gate|]. case_match; [|keeps_step].
  keeps_step; [apply (keeps_reading _ others_keep)|]. keeps_step; [keeps_step|]. case_match; [keeps_step|].
  keeps_step; [keeps_step|]. keeps_step.
  { unfold seed_guard. apply keeps_try; [|intros e; case_match; keeps_step]. apply (keeps_visit _ others_keep). intros _ s Hs. by tx_step. }
  keeps_step; [|keeps_step]. intros w x w' Hw. apply (keeps_visit_keeping _ others_keep (same_owner r)); [|by apply same_owner_key|done].
  intros _ l s Hs Hl. by apply admit_inv.
Qed.
End Enqueue.

(** ** A history of the queue *)

(** What a worker does with the attempt it claimed. *)
Inductive attempt_op :=
| Renew
| DeferQuota
| CheckpointInventory (item_ids : list string) (offset : Z) (unavailable : bool)
| Finish (succeeded retryable : bool) (failure_reason : string).
Inductive queue_op :=
| Enqueue (r : request) (reopen_terminal : bool)
| Claim (fuel : nat) (lane : option string) (history : bool)
| Attempt (job : doc) (op : attempt_op)
| InitializeShipmentCursor (job : doc)
| CheckpointShipmentCursor (job : doc) (expected_offset next_offset : Z).

Section Histories.
Context `{Sha256} `{Surroundings} `{SellerGate} `{AttemptTokens}.

Definition forget {A} (p : act A) : act unit := act_try (do~ p in act_ret tt) (fun _ => act_ret tt).
Definition run_attempt (job : doc) (op : attempt_op) : act bool :=
  match op with
  | Renew => renew job
  | DeferQuota => defer_quota job
  | CheckpointInventory ids offset unavailable => checkpoint_inventory job ids offset unavailable
  | Finish succeeded retryable reason => finish job succeeded retryable reason
  end.
(** The result, or the exception, goes to the caller. *)
Definition run_op (q : queue) (op : queue_op) : act unit :=
  match op with
  | Enqueue r reopen_terminal => forget (enqueue q r reopen_terminal)
  | Claim fuel lane history => forget (claim q fuel lane history)
  | Attempt job op => forget (run_attempt job op)
  | InitializeShipmentCursor job => forget (initialize_shipment_cursor q job)
  | CheckpointShipmentCursor job e n => forget (visit (fun clock => checkpoint_shipment_cursor q true job e n (clock O)))
  end.
Definition run_ops (q : queue) (ops : list queue_op) (w : HistoryStore.world) : HistoryStore.world := foldl (fun w op => (run_op q op w).2) w ops.
Definition op_named (op : queue_op) : bool := match op with Enqueue r _ => named r | _ => true end.

Lemma run_op_keeps q op : (forall a b, sha256_hex a = sha256_hex b -> a = b) -> 0 <= q_reserved q <= 1 ->
  (forall n s, queue_inv q s -> queue_inv q (others n s)) -> op_named op = true -> keeps (queue_inv q) (run_op q op).
Proof using Type.
  intros Hsha Hres Ho Hop.
  assert (Hf : forall A (p : act A), keeps (queue_inv q) p -> keeps (queue_inv q) (forget p)).
  { intros A p Hp. apply keeps_try; [|intros; keeps_step]. keeps_step; [done|keeps_step]. }
  assert (Hk : forall s, queue_inv q s -> keyed s) by (by intros ? []).
  pose proof (changed_inv q) as Hc.
  destruct op; apply Hf.
  - by apply kept_enqueue.
  - by apply kept_claim.
  - destruct op; cbn [run_attempt].
    + unfold renew. keeps_step; [keeps_step|by apply kept_owned].
    + unfold defer_quota. keeps_step; [keeps_step|by apply kept_owned].
    + by apply kept_checkpoint.
    + by apply kept_finish.
  - by apply kept_initialize.
  - by apply kept_shipment_cursor.
Qed.

Lemma new_queue_bounds q : new_queue q = Ok q -> 1 <= q_capacity q /\ 0 <= q_reserved q <= 1.
Proof using Type. unfold new_queue. intros Hq. repeat case_hyp Hq; try done. bool_to_prop. lia. Qed.

(** C5: whatever the callers and the workers of a recovery queue do, in
    whatever order, with whatever faults of the database, and whatever the
    other processes commit between their calls - as long as these keep to the
    same rules - a seller never has more jobs pending or running than the
    capacity, nor more of them outside the inventory than the capacity less
    the slot reserved for the inventory. *)
Theorem seller_capacity_respected q ops w seller :
  (forall a b, sha256_hex a = sha256_hex b -> a = b) -> new_queue q = Ok q ->
  (forall n s, queue_inv q s -> queue_inv q (others n s)) ->
  st_jobs (w_store w) = ∅ -> forallb op_named ops = true ->
  let jobs := st_jobs (w_store (run_ops q ops w)) in
  count (active seller) jobs <= q_capacity q /\ count (occupies seller) jobs <= q_capacity q - q_reserved q.
Proof using Type.
  intros Hsha Hq Ho Hw Hops jobs. destruct (new_queue_bounds q Hq) as [Hcap Hres].
  assert (Hinv : queue_inv q (w_store w)).
  { constructor; unfold keyed; rewrite Hw; try done; intros sel; rewrite count_none by done; lia. }
  assert (Hend : queue_inv q (w_store (run_ops q ops w))).
  { clear jobs Hw. revert w Hinv. unfold run_ops. induction ops as [|op ops IH]; intros w Hinv; [done|]. cbn in *. bool_to_prop.
    apply IH; [done|]. destruct (run_op q op w) as [r w'] eqn:E. by eapply (run_op_keeps q op), E. }
  split; [apply (qi_active _ _ Hend)|apply (qi_others _ _ Hend)].
Qed.
End Histories.
