(* ===== verification/RecoveryTurns.v ===== *)
(** The turns of a recovery worker: a claim ends, an attempt that lost its lease
    writes nothing, the chunks of a catalog are walked once, and what becomes of
    a shipment acquisition whose attempts ran out. *)

From S2P Require Export RecoveryClaims.

#[local] Open Scope Z_scope.

(** ** Errors other than the end of the fuel *)

Definition clean {A} (r : result A) : Prop := r <> Err out_of_fuel.
Lemma clean_ok {A} (a : A) : clean (Ok a).
Proof. done. Qed.
Lemma clean_value {A} msg : clean (raise_value msg : result A).
Proof. done. Qed.
Lemma clean_type {A} msg : clean (raise_type msg : result A).
Proof. done. Qed.
Lemma clean_at d k : clean (doc_at d k).
Proof. unfold doc_at. by case_match. Qed.
Lemma clean_bind {A B} (r : result A) (k : A -> result B) : clean r -> (forall a, clean (k a)) -> clean (result_bind r k).
Proof. intros Hr Hk. destruct r as [a|e]; [apply Hk|]. intros [= ->]. by apply Hr. Qed.
Create HintDb clean_results discriminated.
#[local] Hint Resolve clean_ok clean_value clean_type clean_at : clean_results.
Ltac clean_tac :=
  repeat first
    [ solve [auto with clean_results nocore]
    | lazymatch goal with
      | |- clean (result_bind _ _) => apply clean_bind; [|intros ?]
      | |- clean (let _ := _ in _) => cbv zeta
      | |- clean (if ?b then _ else _) => destruct b
      | |- clean (match ?x with _ => _ end) => destruct x
      end ].

Lemma clean_int d k : clean (int_at d k).
Proof. unfold int_at. clean_tac. Qed.
Lemma clean_list d k : clean (list_at d k).
Proof. unfold list_at. clean_tac. Qed.
Lemma clean_utc v : clean (utc_at v).
Proof. unfold utc_at. clean_tac. Qed.
Lemma clean_owned job now : clean (_owned job now).
Proof. unfold _owned. clean_tac. Qed.
Lemma clean_strings v : clean (strings_at v).
Proof. unfold strings_at. destruct v as [| | | | |l|]; clean_tac. induction l as [|[] l IH]; cbn [strings_of]; clean_tac. Qed.
#[local] Hint Resolve clean_int clean_list clean_utc clean_owned clean_strings : clean_results.
Lemma clean_catalog job b r now : clean (catalog_fields job b r now).
Proof. unfold catalog_fields. clean_tac. Qed.
#[local] Hint Resolve clean_catalog : clean_results.
Lemma clean_finish job b r m now : clean (finish_change job b r m now).
Proof. unfold finish_change. clean_tac. Qed.
Lemma clean_checkpoint_ok job ids o u : clean (inventory_checkpoint_ok job ids o u).
Proof. unfold inventory_checkpoint_ok. clean_tac. Qed.
Lemma clean_checkpoint job ids o u now : clean (inventory_checkpoint job ids o u now).
Proof. unfold inventory_checkpoint. clean_tac. Qed.
Lemma clean_lane lane : clean (recovery_lane_filter lane).
Proof. unfold recovery_lane_filter. clean_tac. Qed.

(** ** Undisturbed runs *)

Section Runs.
Context `{Sha256} `{Surroundings} `{SellerGate} `{AttemptTokens}.
(** No visit fails, and nobody else writes. *)
Hypothesis calm : forall n, faults n = NoFault.
Hypothesis alone : forall n s, others n s = s.

(** [p] ends, in [Q] or with an error other than the end of the fuel. *)
Definition runs {A} (p : act A) (w : HistoryStore.world) (Q : A -> HistoryStore.world -> Prop) : Prop :=
  match p w with (Ok a, w') => Q a w' | (Err e, _) => e <> out_of_fuel end.
Definition tx_clean {A} (t : tx A) : Prop := forall n s, t n s <> Err out_of_fuel.

Lemma runs_ret {A} (a : A) w (Q : A -> HistoryStore.world -> Prop) : Q a w -> runs (act_ret a) w Q.
Proof using Type. done. Qed.
Lemma runs_then {A B} (p : act A) (k : A -> act B) w Q : runs p w (fun a w' => runs (k a) w' Q) -> runs (act_bind p k) w Q.
Proof using Type. unfold runs, act_bind. destruct (p w) as [[a|e] w']; done. Qed.
Lemma runs_mono {A} (p : act A) w (Q R : A -> HistoryStore.world -> Prop) : runs p w Q -> (forall a w', Q a w' -> R a w') -> runs p w R.
Proof using Type. unfold runs. intros Hp HQ. destruct (p w) as [[a|e] w']; [by apply HQ|done]. Qed.
Lemma runs_lift {A} (r : result A) w (Q : A -> HistoryStore.world -> Prop) : clean r -> (forall a, r = Ok a -> Q a w) -> runs (act_lift r) w Q.
Proof using Type. unfold runs, act_lift, clean. intros Hc HQ. destruct r; [by apply HQ|congruence]. Qed.
Lemma runs_now w (Q : Z -> HistoryStore.world -> Prop) : (forall t n, Q t {| w_store := w_store w; w_turn := n |}) -> runs act_now w Q.
Proof using Type. intros HQ. apply HQ. Qed.
Lemma runs_visit {A} (t : (nat -> Z) -> tx A) w (Q : A -> HistoryStore.world -> Prop) : (forall c, tx_clean (t c)) ->
  (forall c, twp (t c) (fun a s' => forall n, Q a {| w_store := s'; w_turn := n |}) (w_store w)) -> runs (visit t) w Q.
Proof using calm alone.
  intros Hc Ht. unfold runs, visit, visit_keeping. rewrite calm, alone. unfold tx_bind.
  destruct (t (readings (w_turn w)) 0%nat (w_store w)) as [[[a m] s']|e] eqn:E.
  - cbn. eapply Ht, E.
  - intros ->. by eapply Hc.
Qed.
(** What is kept holds at the end of a run. *)
Lemma runs_kept {A} (I : store -> Prop) (p : act A) w : keeps I p -> I (w_store w) -> runs p w (fun _ _ => True) -> runs p w (fun _ w' => I (w_store w')).
Proof using Type. unfold runs. intros Hk Hi Hr. destruct (p w) as [[a|e] w'] eqn:E; [by eapply Hk|done]. Qed.

Lemma tx_clean_bind {A B} (t : tx A) (k : A -> tx B) : tx_clean t -> (forall a, tx_clean (k a)) -> tx_clean (tx_bind t k).
Proof using Type.
  intros Ht Hk n s. unfold tx_bind. destruct (t n s) as [[[a m] s1]|e] eqn:E; [apply Hk|]. intros [= ->]. by eapply Ht.
Qed.
Lemma tx_clean_write d ops : tx_clean (write_job d ops).
Proof using Type. unfold write_job. case_match; [case_match|]; done. Qed.
Lemma tx_clean_update_one f ops : tx_clean (update_one f ops).
Proof using Type. unfold update_one. apply tx_clean_bind; [done|]. intros s. case_match; [|done]. apply tx_clean_bind; [apply tx_clean_write|done]. Qed.
Lemma tx_clean_find f ops sort : tx_clean (find_one_and_update f ops sort).
Proof using Type. unfold find_one_and_update. apply tx_clean_bind; [done|]. intros s. case_match; [|done]. apply tx_clean_bind; [apply tx_clean_write|done]. Qed.
Lemma tx_clean_many f ops : tx_clean (update_many f ops).
Proof using Type.
  unfold update_many. apply tx_clean_bind; [done|]. intros s. induction (jobs_of f s) as [|d ds IH]; [done|]. cbn.
  apply tx_clean_bind; [apply tx_clean_write|done].
Qed.
Lemma twp_true {A} (t : tx A) s : twp t (fun _ _ => True) s.
Proof using Type. done. Qed.

Lemma runs_owned job now ops w : runs (update_owned job now ops) w (fun _ _ => True).
Proof using calm alone.
  apply runs_then, runs_lift; [apply clean_owned|]. intros f _. apply runs_visit; [intros; apply tx_clean_update_one|]. intros c. by eapply twp_mono; [apply twp_true|].
Qed.
Lemma runs_checkpoint job ids o u w : runs (checkpoint_inventory job ids o u) w (fun _ _ => True).
Proof using calm alone.
  apply runs_then, runs_lift; [apply clean_checkpoint_ok|]. intros [] _; [|done]. apply runs_then, runs_now. intros t n.
  apply runs_then, runs_lift; [apply clean_checkpoint|]. intros ops _. apply runs_owned.
Qed.
Lemma runs_finish job b r m w : runs (finish job b r m) w (fun _ _ => True).
Proof using calm alone.
  apply runs_then, runs_now. intros t n. apply runs_then, runs_lift; [apply clean_finish|]. intros [ops|ids o] _; [apply runs_owned|].
  apply runs_then, runs_lift; [apply clean_strings|]. intros l _. apply runs_checkpoint.
Qed.
End Runs.

(** ** A claim ends *)

Lemma upds_last k v a b d d' : apply_upds 0 false (a ++ USet [k] v :: b) d = Some d' -> frames k b = true -> d' !! k = Some (bson_encode v).
Proof.
  rewrite apply_upds_app. intros Ha Hb. destruct (apply_upds 0 false a d) as [d1|]; [|done]. change (apply_upds 0 false (USet [k] v :: b) d1 = Some d') in Ha.
  cbn [apply_upds apply_upd path_alter mbind option_bind] in Ha. by rewrite (frames_keep k b _ _ Ha Hb), lookup_insert_eq.
Qed.
Lemma upds_unset k a b d d' : apply_upds 0 false (a ++ UUnset [k] :: b) d = Some d' -> frames k b = true -> d' !! k = None.
Proof.
  rewrite apply_upds_app. intros Ha Hb. destruct (apply_upds 0 false a d) as [d1|]; [|done]. change (apply_upds 0 false (UUnset [k] :: b) d1 = Some d') in Ha.
  cbn [apply_upds apply_upd path_unset mbind option_bind] in Ha. by rewrite (frames_keep k b _ _ Ha Hb), lookup_delete_eq.
Qed.

Record taken (token : string) (now : Z) (d d' : doc) : Prop := {
  tk_state : d' !! "state"%string = Some (VStr "running");
  tk_token : d' !! "attempt_token"%string = Some (VStr token);
  tk_lease : d' !! "lease_until"%string = Some (VDate true (floor_ms (now + LEASE)));
  tk_attempts : exists a, match d !! "attempts"%string with None => a = 0 | Some v => v = VInt a end /\ d' !! "attempts"%string = Some (VInt (a + 1));
}.
Lemma claim_update_taken token now d d' : apply_upds 0 false (claim_update token now) d = Some d' -> taken token now d d'.
Proof.
  intros Ha. constructor.
  - eapply (upds_last "state" (VStr "running") []); [exact Ha|done].
  - eapply (upds_last "attempt_token" (VStr token) [_]); [exact Ha|done].
  - eapply (upds_last "lease_until" (VDate true (now + LEASE)) [_; _]); [exact Ha|done].
  - unfold claim_update, lease_to in Ha. cbn [apply_upds apply_upd path_alter mbind option_bind] in Ha.
    rewrite !lookup_insert_ne in Ha by done. destruct (d !! "attempts"%string) as [[| |a| | | |]|] eqn:Hd; try done.
    + exists a. split; [done|]. destruct (int64_ok _); [|done]. injection Ha as <-. by rewrite lookup_insert_eq.
    + exists 0. split; [done|]. injection Ha as <-. by rewrite lookup_insert_eq.
Qed.

Lemma rel_lte_date a b us : rel_test RLte (VDate true a) (VDate b us) = (us <=? a).
Proof. unfold rel_test, bson_cmp, Z.leb. cbn. by destruct (us ?= a). Qed.

Lemma jobs_after i d s : st_jobs (with_jobs (insert i d) s) = <[i := d]> (st_jobs s).
Proof. done. Qed.

Section Claim.
Context `{Sha256} `{Surroundings} `{SellerGate} `{AttemptTokens}.
Hypothesis calm : forall n, faults n = NoFault.
Hypothesis alone : forall n s, others n s = s.
Hypothesis gate_clean : forall n seller, clean (seller_gate n seller).
Variable q : queue.

Lemma claimable_state lanes history now d st : d !! "state"%string = Some (VStr st) -> matches 0 (claim_filter q lanes history now) d = true ->
  st = "pending"%string \/ st = "running"%string /\ (forall b us, d !! "lease_until"%string = Some (VDate b us) -> us <= floor_ms now).
Proof using Type.
  intros Hst Hm. unfold claim_filter in Hm. cbn [matches] in Hm. rewrite forallb_app in Hm. cbn [matches forallb existsb] in Hm. bool_to_prop.
  assert (Hs : forall x, match_eq d ["state"%string] (VStr x) = true -> st = x).
  { intros x Hx. symmetry. eapply match_str, Hx. unfold doc_get. by rewrite Hst. }
  match goal with Hx : _ \/ _ |- _ => rewrite orb_false_r in Hx; destruct Hx as [Hx|Hx] end; [left; by apply Hs|right].
  bool_to_prop. split; [by apply Hs|]. intros b us Hl. match goal with Hx : existsb _ (path_vals ["lease_until"%string] _) = true |- _ => rename Hx into Hle end.
  cbn [path_vals] in Hle. rewrite Hl in Hle. cbn [path_vals existsb meets bson_encode] in Hle. unfold meets in Hle. rewrite !orb_false_r, rel_lte_date in Hle. lia.
Qed.
Lemma taken_unclaimable lanes history token now d d' : taken token now d d' -> matches 0 (claim_filter q lanes history now) d' = false.
Proof using Type.
  intros [Hs _ Hl _]. destruct (matches _ _ _) eqn:Hm; [|done]. destruct (claimable_state lanes history now d' _ Hs Hm) as [?|[_ Hle]]; [done|].
  specialize (Hle _ _ Hl). unfold floor_ms, LEASE, minute, PyVal.second, millisecond in Hle.
  pose proof (Z.div_add now 600000 1000 ltac:(lia)). replace (now + 10 * (60 * 1000000)) with (now + 600000 * 1000) in Hle by lia. lia.
Qed.

Abbreviation claimables lanes history now s := (count (matches 0 (claim_filter q lanes history now)) (st_jobs s)).

Lemma take_runs f ops sort w lanes history now token : (forall d, matches 0 f d = true -> matches 0 (claim_filter q lanes history now) d = true) ->
  ops = claim_update token now -> keyed (w_store w) ->
  runs (visit (fun _ => find_one_and_update f ops sort)) w (fun o w' => keyed (w_store w') /\
    match o with Some _ => claimables lanes history now (w_store w') < claimables lanes history now (w_store w) | None => w_store w' = w_store w end).
Proof using calm alone.
  intros Hf -> Hk. apply runs_visit; [done|done|intros; apply tx_clean_find|]. intros _. eapply twp_mono; [by apply find_one_and_update_spec|].
  intros [c|] s' Hc n; cbn [w_store].
  - destruct Hc as (i & d & d' & Hc & _). split; [by eapply changed_keyed, Hc|]. destruct Hc as (Hi & Hm & Ha & ->).
    rewrite jobs_after, (count_replace _ _ _ _ _ Hi), (Hf d Hm), (taken_unclaimable lanes history token now d d' (claim_update_taken _ _ _ _ Ha)). cbn [Z.b2z]. lia.
  - by destruct Hc as [-> _].
Qed.

Lemma close_runs job now w lanes history : keyed (w_store w) ->
  runs (_close_ineligible job now) w (fun _ w' => keyed (w_store w') /\ claimables lanes history now (w_store w') <= claimables lanes history now (w_store w)).
Proof using calm alone.
  intros Hk. apply runs_then, runs_lift; [apply clean_owned|]. intros f Hf. apply runs_visit; [done|done|intros; apply tx_clean_update_one|].
  intros _. eapply twp_mono; [by apply update_one_spec|]. intros [] s' Hu n; cbn [w_store]; [|by destruct Hu as [-> _]].
  destruct Hu as (i & d & d' & Hc). split; [by eapply changed_keyed, Hc|]. destruct Hc as (Hi & Hm & Ha & ->). rewrite jobs_after, (count_replace _ _ _ _ _ Hi).
  assert (Hs : d' !! "state"%string = Some (VStr "failed")) by (eapply (upds_last "state" (VStr "failed") []); [exact Ha|done]).
  destruct (matches 0 (claim_filter q lanes history now) d') eqn:Hd; [|destruct (matches 0 (claim_filter q lanes history now) d); cbn [Z.b2z]; lia].
  destruct (claimable_state lanes history now d' _ Hs Hd) as [[=]|[[=] _]].
Qed.

Lemma claim_loop_runs lanes history now token tails : forall fuel w, keyed (w_store w) -> claimables lanes history now (w_store w) < Z.of_nat fuel ->
  runs (claim_loop q fuel tails (claim_filter q lanes history now) (claim_update token now) now) w (fun _ _ => True).
Proof using calm alone gate_clean.
  induction fuel as [|fuel IH]; intros w Hk Hfuel; [pose proof (count_nonneg (matches 0 (claim_filter q lanes history now)) (st_jobs (w_store w))); lia|].
  cbn [claim_loop]. set (n0 := claimables lanes history now (w_store w)) in *.
  set (reached := fun (o : option doc) w' => keyed (w_store w') /\
         match o with Some _ => claimables lanes history now (w_store w') < n0 | None => w_store w' = w_store w end).
  apply runs_then, (runs_mono _ _ reached).
  { destruct tails; [|by apply runs_ret]. apply (take_runs _ _ _ w lanes history now token); [|done|done].
    intros d Hd. cbn [matches forallb tail_filter] in Hd. by bool_to_prop. }
  intros first w1 [Hk1 Hfirst]. apply runs_then, (runs_mono _ _ reached).
  { destruct first; [by apply runs_ret|]. subst reached n0. cbv beta. rewrite <- Hfirst. by apply (take_runs _ _ _ w1 lanes history now token). }
  intros [d|] w2 [Hk2 Hd]; [|by apply runs_ret].
  apply runs_then, (runs_mono _ _ (fun _ w' => w_store w' = w_store w2)).
  { destruct (q_gated q) eqn:Hg; [|by apply runs_ret]. apply runs_then, runs_lift; [apply clean_at|]. intros v _. unfold gate_open. rewrite Hg.
    unfold runs, fetched. pose proof (gate_clean (w_turn w2) (match v with VStr s => s | _ => EmptyString end)) as Hc. unfold clean in Hc.
    destruct (seller_gate _ _); [done|congruence]. }
  intros eligible w3 Hw3. destruct eligible; [by apply runs_ret|]. apply runs_then, (runs_mono _ _ _ _ (close_runs d now w3 lanes history ltac:(by rewrite Hw3))).
  intros _ w4 [Hk4 Hle]. apply IH; [done|]. rewrite Hw3 in Hle. lia.
Qed.

(** The number of jobs does not change. *)
Definition sized (n : nat) (s : store) : Prop := keyed s /\ size (st_jobs s) = n.
Lemma changed_sized n f ops s s' i d d' : sized n s -> tame ops = true -> (in_progress d' = true -> in_progress d = true) ->
  changed f ops s s' i d d' -> sized n s'.
Proof using Type.
  intros [Hk Hn] Ht _ Hc. unfold tame in Ht. bool_to_prop. split; [by eapply changed_keyed|]. destruct Hc as (Hi & _ & _ & ->). cbn.
  by rewrite map_size_insert_Some; [|by exists d].
Qed.
Lemma count_size (p : doc -> bool) m : count p m <= Z.of_nat (size m).
Proof using Type.
  unfold count, found. rewrite <- length_map_to_list. apply inj_le. etrans; [apply List.filter_length_le|]. by rewrite length_fmap.
Qed.

(** A claim ends.  However many of the jobs in the queue belong to sellers
    that have become ineligible, each is closed at most once: with fuel for the
    jobs there are, the loop returns a job, nothing, or an error of a call. *)
Theorem claim_ends fuel lane history w : keyed (w_store w) -> (size (st_jobs (w_store w)) < fuel)%nat ->
  (claim q fuel lane history w).1 <> Err out_of_fuel.
Proof using calm alone gate_clean.
  intros Hk Hfuel. set (n := size (st_jobs (w_store w))) in *.
  assert (Hrun : runs (claim q fuel lane history) w (fun _ _ => True)); [|unfold runs in Hrun; destruct (claim _ _ _ _ w) as [[] ?]; cbn; congruence].
  apply runs_then, runs_lift; [apply clean_lane|]. intros lanes _. apply runs_then, runs_now. intros now t.
  apply runs_then. unfold runs at 1. cbn [fst]. apply runs_then.
  apply (runs_mono _ _ (fun _ w' => sized n (w_store w'))).
  { apply runs_kept; [|by split|].
    - apply (kept_settle q (sized n)); [by intros ? []|apply changed_sized|intros; by rewrite alone].
    - unfold settle_exhausted. apply runs_then, runs_visit; [done|done|intros; apply tx_clean_find|]. intros c. eapply twp_mono; [apply twp_true|].
      intros left s' _ k. apply runs_then, (runs_mono _ _ (fun _ _ => True)); [case_match; [by apply runs_finish|done]|].
      intros _ w' _. apply runs_visit; [done|done|intros; apply tx_clean_many|]. intros c'. by eapply twp_mono; [apply twp_true|]. }
  intros _ w' [Hk' Hn]. apply runs_then. unfold runs at 1. apply claim_loop_runs; [done|].
  pose proof (count_size (matches 0 (claim_filter q lanes history now)) (st_jobs (w_store w'))). lia.
Qed.
End Claim.

(** ** An attempt that lost its lease *)

Section Fence.
Context `{Sha256} `{Surroundings} `{SellerGate} `{AttemptTokens}.

(** Another attempt has the job, or nobody, or the lease has expired at every
    reading of the clock. *)
Definition lost (job : doc) (s : store) : Prop := forall i d, doc_get job "_id" = VStr i -> st_jobs s !! i = Some d ->
  (exists st, doc_get d "state" = VStr st /\ st <> "running"%string) \/
  (exists a b, doc_get job "attempt_token" = VStr a /\ doc_get d "attempt_token" = VStr b /\ a <> b) \/
  (exists b us, doc_get d "lease_until" = VDate b us /\ forall n, us <= floor_ms (readings n O)).
(** Only the others wrote. *)
Inductive only_others : store -> store -> Prop :=
| others_none s : only_others s s
| others_more n s s' : only_others (others n s) s' -> only_others s s'.

Lemma lost_no_match job n f s : keyed s -> lost job s -> _owned job (readings n O) = Ok f -> no_match f s.
Proof using Type.
  intros Hk Hl Ho i d Hi. destruct (matches 0 f d) eqn:Hm; [|done]. unfold _owned in Ho. result_inv. cbn [matches forallb] in Hm. bool_to_prop.
  assert (Hid : doc_get d "_id" = VStr i) by (specialize (Hk i d Hi); unfold doc_id in Hk; unfold doc_get; destruct (d !! "_id"%string) as [[]|]; try done; by injection Hk as ->).
  assert (Hjob : doc_get job "_id" = VStr i).
  { unfold doc_at in E. unfold doc_get in *. destruct (job !! "_id"%string) as [v|]; [|done]. injection E as ->. destruct (d !! "_id"%string) as [x|] eqn:Hx; [|done].
    cbn in Hid. subst x. match goal with Hm : match_eq d ["_id"%string] a = true |- _ => unfold match_eq in Hm; cbn in Hm; rewrite Hx in Hm; cbn in Hm;
      rewrite andb_false_r, !orb_false_r in Hm; unfold meets in Hm; cbn in Hm; rewrite orb_false_r in Hm end.
    destruct a; try done. cbn in *. f_equal. by apply String.eqb_eq. }
  exfalso. destruct (Hl i d Hjob Hi) as [(st & Hst & Hne)|[(x & y & Hx & Hy & Hne)|(b & us & Hus & Hle)]].
  - apply Hne. symmetry. by eapply match_str.
  - unfold doc_at in E0. unfold doc_get in Hx. destruct (job !! "attempt_token"%string) as [v|]; [|done]. injection E0 as <-. cbn in Hx. subst v.
    apply Hne. by eapply match_str.
  - unfold doc_get in Hus. destruct (d !! "lease_until"%string) as [v|] eqn:Hv; [|done]. cbn in Hus. subst v.
    match goal with Hx : existsb _ (path_vals ["lease_until"%string] _) = true |- _ => rename Hx into Hgt end.
    cbn [path_vals] in Hgt. rewrite Hv in Hgt. cbn [path_vals existsb meets bson_encode] in Hgt. unfold meets in Hgt. rewrite !orb_false_r in Hgt.
    unfold rel_test, bson_cmp in Hgt. cbn -[floor_ms] in Hgt. specialize (Hle n). destruct (us ?= floor_ms (readings n 0)) eqn:Hc; try done; lia.
Qed.

Variable job : doc.
Hypothesis others_lost : forall n s, keyed s -> lost job s -> keyed (others n s) /\ lost job (others n s).
(** From a store where the attempt is lost, [p] writes nothing and does not report success. *)
Definition fenced (p : act bool) : Prop := forall w r w', keyed (w_store w) -> lost job (w_store w) -> p w = (r, w') ->
  only_others (w_store w) (w_store w') /\ r <> Ok true.

Lemma fenced_fail e : fenced (act_fail e).
Proof using Type. intros w r w' _ _ [= <- <-]. split; [constructor|done]. Qed.
Lemma fenced_lift {A} (x : result A) k : (forall a, x = Ok a -> fenced (k a)) -> fenced (act_bind (act_lift x) k).
Proof using Type.
  intros Hk w r w' Hw Hl Hr. unfold act_bind, act_lift in Hr. destruct x as [a|e]; [by eapply Hk|]. injection Hr as <- <-. split; [constructor|done].
Qed.
Lemma fenced_now k : (forall n, fenced (k (readings n O))) -> fenced (act_bind act_now k).
Proof using Type. intros Hk w r w' Hw Hl Hr. by eapply Hk in Hr. Qed.
Lemma fenced_owned n ops : fenced (update_owned job (readings n O) ops).
Proof using others_lost.
  apply fenced_lift. intros f Hf w r w' Hk Hl Hr. unfold visit in Hr.
  destruct (visit_keeping _ _ _ w) as [r1 w1] eqn:E. injection Hr as <- <-.
  assert (Hgen : forall fl u w r1 w1, keyed (w_store w) -> lost job (w_store w) ->
      visit_keeping fl (fun clock (_ : unit) => let& a := update_one f ops in tx_ret (a, tt)) u w = (r1, w1) ->
      only_others (w_store w) (w_store w1) /\ forall l, r1 <> Ok (true, l)).
  { clear w r1 w1 Hk Hl E. induction fl as [|x0|x0|fl IH]; intros u w r1 w1 Hk Hl E; cbn [visit_keeping] in E; destruct (others_lost (w_turn w) _ Hk Hl) as [Hk' Hl'];
      try (injection E as <- <-; split; [eapply others_more, others_none|done]);
      unfold tx_bind in E; (destruct (update_one f ops 0%nat _) as [[[b m] s1]|x1] eqn:Eu;
        [|injection E as <- <-; split; [eapply others_more, others_none|done]]);
      pose proof (update_one_spec f ops _ Hk' _ _ _ _ Eu) as Hu; (destruct b; [destruct Hu as (i & d & d' & Hi & Hm & _);
        by rewrite (lost_no_match job n f _ Hk' Hl' Hf i d Hi) in Hm|]); destruct Hu as [-> _]; cbn in E.
    - injection E as <- <-. split; [eapply others_more, others_none|done].
    - injection E as <- <-. split; [eapply others_more, others_none|done].
    - destruct (IH tt {| w_store := others (w_turn w) (w_store w); w_turn := S (w_turn w) |} _ _ Hk' Hl' E) as [Ho Hr]. split; [by eapply others_more|done]. }
  destruct (Hgen _ _ _ _ _ Hk Hl E) as [Ho Hr]. split; [done|]. destruct r1 as [[b []]|e]; [|done]. intros [= ->]. by eapply Hr.
Qed.
Lemma fenced_checkpoint ids offset unavailable : fenced (checkpoint_inventory job ids offset unavailable).
Proof using others_lost.
  apply fenced_lift. intros [] _; [|apply fenced_fail]. apply fenced_now. intros n. apply fenced_lift. intros ops _. apply fenced_owned.
Qed.

(** C33: an attempt whose job was taken over, ended, or left until the lease
    expired cannot write to it any more: renewing, deferring, checkpointing and
    finishing change nothing and do not report success. *)
Theorem lost_attempt_writes_nothing op w r w' : keyed (w_store w) -> lost job (w_store w) -> run_attempt job op w = (r, w') ->
  only_others (w_store w) (w_store w') /\ r <> Ok true.
Proof using others_lost.
  revert w r w'. change (fenced (run_attempt job op)). destruct op; cbn [run_attempt].
  - apply fenced_now. intros n. apply fenced_owned.
  - apply fenced_now. intros n. apply fenced_owned.
  - apply fenced_checkpoint.
  - apply fenced_now. intros n. apply fenced_lift. intros [ops|ids offset] _; [apply fenced_owned|].
    apply fenced_lift. intros l _. apply fenced_checkpoint.
Qed.
End Fence.

(** The chunks of an explicit catalog acquisition, turn after turn, and the
    shipment acquisitions reopened with their attempts spent; runs of the queue
    on a small store. *)

(** ** Updates that set and unset fields *)

Definition plain (u : upd) : bool := match u with USet [_] _ | UUnset [_] => true | _ => false end.
(** What [ops] leave in field [k], when they touch it. *)
Fixpoint written (k : string) (ops : list upd) : option (option val) :=
  match ops with
  | [] => None
  | u :: ops =>
      match written k ops with
      | Some o => Some o
      | None => match u with
                | USet [k'] v => if String.eqb k' k then Some (Some (bson_encode v)) else None
                | UUnset [k'] => if String.eqb k' k then Some None else None
                | _ => None
                end
      end
  end.
Definition after (k : string) (ops : list upd) (d : doc) : option val := match written k ops with Some o => o | None => d !! k end.

Lemma plain_applies ops : forallb plain ops = true -> forall d, exists d', apply_upds 0 false ops d = Some d' /\ forall k, d' !! k = after k ops d.
Proof.
  unfold after. induction ops as [|u ops IH]; intros Hp d; [by exists d|]. cbn [forallb] in Hp. apply andb_true_iff in Hp as [Hu Hp].
  destruct u as [[|x []]| | |[|x []]| |]; try done; cbn [apply_upds apply_upd path_alter path_unset mbind option_bind].
  - destruct (IH Hp (<[x := bson_encode v]> d)) as (d' & Hd & Hk). exists d'. split; [done|]. intros k. rewrite Hk. cbn [written].
    destruct (written k ops); [done|]. destruct (String.eqb_spec x k) as [->|Hx]; [apply lookup_insert_eq|by rewrite lookup_insert_ne].
  - destruct (IH Hp (delete x d)) as (d' & Hd & Hk). exists d'. split; [done|]. intros k. rewrite Hk. cbn [written].
    destruct (written k ops); [done|]. destruct (String.eqb_spec x k) as [->|Hx]; [apply lookup_delete_eq|by rewrite lookup_delete_ne].
Qed.

(** ** One turn: claimed, and finished *)

Record outcome := { o_token : string; o_claimed : Z; o_finished : Z; o_ok : bool; o_retryable : bool; o_reason : string }.

Definition turn (o : outcome) (d : doc) : option doc :=
  match apply_upds 0 false (claim_update (o_token o) (o_claimed o)) d with
  | Some d1 =>
      match finish_change (decode_doc true d1) (o_ok o) (o_retryable o) (o_reason o) (o_finished o) with
      | Ok (FinishUpdate ops) => apply_upds 0 false ops d1
      | _ => None
      end
  | None => None
  end.
Definition turns (os : list outcome) (d : doc) : option doc := foldl (fun o x => match o with Some d => turn x d | None => None end) (Some d) os.

(** The field of a job that lists its identities. *)
Definition ids_field (m : string) : string := if String.eqb m "catalog_product_snapshots" then "catalog_product_ids" else "item_ids".

Record chunked (m : string) (ids : list string) (offset : Z) (failed : list Z) (d : doc) : Prop := {
  ch_model : d !! "read_model"%string = Some (VStr m);
  ch_ids : d !! ids_field m = Some (strs ids);
  ch_offset : d !! "catalog_offset"%string = Some (VInt offset);
  ch_failed : default_to (VList []) (d !! "catalog_failed_offsets"%string) = VList (map VInt failed);
  ch_reason : failed <> [] -> exists r, d !! "catalog_failure_reason"%string = Some (VStr r);
  ch_scope : d !! "inventory_scope"%string = None;
}.

Lemma encode_strs ids : bson_encode (strs ids) = strs ids.
Proof. unfold strs. cbn. f_equal. induction ids as [|i ids IH]; [done|]. cbn. by rewrite IH. Qed.
Lemma encode_ints l : bson_encode (VList (map VInt l)) = VList (map VInt l).
Proof. cbn. f_equal. induction l as [|i l IH]; [done|]. cbn. by rewrite IH. Qed.
Lemma decode_strs ids : bson_decode true (strs ids) = strs ids.
Proof. unfold strs. cbn. f_equal. induction ids as [|i ids IH]; [done|]. cbn. by rewrite IH. Qed.
Lemma decode_ints l : bson_decode true (VList (map VInt l)) = VList (map VInt l).
Proof. cbn. f_equal. induction l as [|i l IH]; [done|]. cbn. by rewrite IH. Qed.

(** The state after a chunk. *)
Definition chunk_state (size offset : Z) (failed : list Z) : string :=
  if offset =? size then if is_nil failed then "completed" else "failed" else "pending".

Definition chunk_ops (size offset : Z) (failed : list Z) (reason : val) (o : outcome) : list upd :=
  (if o_ok o then [] else [USet ["catalog_failure_reason"%string] (VStr (o_reason o))]) ++
  [USet ["catalog_offset"%string] (VInt offset); USet ["catalog_failed_offsets"%string] (VList (map VInt failed)); USet ["attempts"%string] (VInt 0);
   USet ["state"%string] (VStr (chunk_state size offset failed));
   USet ["available_at"%string] (VDate true (if offset =? size then o_finished o + COOLDOWN else o_finished o))] ++
  (if is_nil failed then [] else [USet ["failure_reason"%string] reason]).

Section Chunk.
Variables (m : string) (ids : list string) (offset : Z) (failed : list Z) (o : outcome).
Abbreviation size := (Z.of_nat (length ids)).
Hypothesis offset_in : 0 <= offset < size.
Hypothesis offset_chunk : offset mod 20 = 0.
Hypothesis reason_public : string_in (o_reason o) public_reasons = true.
Abbreviation offset' := (Z.min (offset + 20) size).
Abbreviation failed' := (failed ++ (if o_ok o then [] else [offset])).

Lemma reason_nonempty : string_is_empty (o_reason o) = false.
Proof using reason_public. destruct (o_reason o); [done|done]. Qed.

Lemma catalog_fields_chunk job now : chunked m ids offset failed job -> now = o_finished o ->
  exists reason, catalog_fields (decode_doc true job) (o_ok o) (o_reason o) now = Ok (chunk_ops size offset' failed' reason o).
Proof using offset_in offset_chunk reason_public.
  intros [Hm Hids Hoff Hf Hr _] ->. unfold catalog_fields, list_at, doc_at, doc_get_or, decode_doc. rewrite !lookup_fmap, Hm, Hoff.
  cbn [fmap option_fmap option_map bson_decode result_bind py_eq]. change (if String.eqb m "catalog_product_snapshots" then _ else _) with (ids_field m).
  rewrite lookup_fmap, Hids. cbn [fmap option_fmap option_map]. rewrite decode_strs. cbn [strs result_bind]. rewrite length_map.
  rewrite (proj2 (Z.leb_le _ _)), (proj2 (Z.ltb_lt _ _)), offset_chunk by lia. cbn [andb orb negb Z.eqb].
  assert (Hearlier : default_to (VList []) (bson_decode true <$> job !! "catalog_failed_offsets"%string) = VList (map VInt failed)).
  { destruct (job !! "catalog_failed_offsets"%string) as [v|]; cbn [fmap option_fmap option_map default_to] in *; [|done]. subst v. apply decode_ints. }
  rewrite Hearlier. cbn [result_bind].
  assert (Hmap : (if o_ok o then map VInt failed else map VInt failed ++ [VInt offset]) = map VInt failed').
  { rewrite map_app. destruct (o_ok o); cbn; [by rewrite app_nil_r|done]. }
  rewrite Hmap. assert (Hnil : is_nil (map VInt failed') = is_nil failed') by by destruct failed'. rewrite Hnil.
  rewrite reason_nonempty. unfold chunk_ops, chunk_state. destruct (o_ok o) eqn:Hok; cbn [negb andb].
  - rewrite app_nil_r in *. destruct failed as [|x l] eqn:Hfl; cbn [is_nil result_bind]; [by exists VNone|].
    destruct (Hr ltac:(done)) as [r ->]. cbn [fmap option_fmap option_map result_bind bson_decode]. by exists (VStr r).
  - cbn [result_bind]. by exists (VStr (o_reason o)).
Qed.

(** The turn decides its chunk: it succeeds, fails for good, or spends the last attempt. *)
Definition decides (spent : Z) : bool := o_ok o || negb (o_retryable o) || (MAX_ATTEMPTS <=? spent + 1).

Lemma attempts_decoded job a : job !! "attempts"%string = Some (VInt a) -> int_at (decode_doc true job) "attempts" = Ok a.
Proof using Type. intros Ha. unfold int_at, doc_at, decode_doc. by rewrite lookup_fmap, Ha. Qed.

Lemma finish_chunk job u a : chunked m ids offset failed job -> job !! "updated_at"%string = Some (VDate true u) ->
  job !! "attempts"%string = Some (VInt (a + 1)) -> decides a = true ->
  exists ops reason b, finish_change (decode_doc true job) (o_ok o) (o_retryable o) (o_reason o) (o_finished o) = Ok (FinishUpdate ops) /\
    ops = [USet ["state"%string] (VStr (if o_ok o then "completed" else "failed")%string); USet ["available_at"%string] (VDate true b);
           USet ["updated_at"%string] (VDate true (o_finished o))] ++
          (if o_ok o then [] else [USet ["failure_reason"%string] (VStr (o_reason o))]) ++
          chunk_ops size offset' failed' reason o ++ release_lease ++
          (if o_ok o && is_nil failed' then [UUnset ["failure_reason"%string]] else []).
Proof using offset_in offset_chunk reason_public.
  intros Hc Hu Ha Hdec. destruct (catalog_fields_chunk job (o_finished o) Hc eq_refl) as [reason Hcat]. destruct Hc as [Hm Hids Hoff Hf Hr Hsc].
  unfold finish_change. assert (Hretry : (if negb (o_ok o) && o_retryable o then let! a := int_at (decode_doc true job) "attempts" in Ok (a <? MAX_ATTEMPTS) else Ok false) = Ok false).
  { rewrite (attempts_decoded _ _ Ha). unfold decides in Hdec. destruct (o_ok o), (o_retryable o); cbn in *; try done. f_equal. lia. }
  rewrite Hretry. clear Hretry Hdec. cbn [result_bind negb]. rewrite reason_public. cbn [negb].
  assert (Hscope : doc_get (decode_doc true job) "inventory_scope" = VNone) by (unfold doc_get, decode_doc; by rewrite lookup_fmap, Hsc).
  rewrite Hscope. cbn [py_eq]. rewrite !andb_false_r, ?andb_true_r. cbn [andb result_bind].
  assert (Hkey : has_key (decode_doc true job) "catalog_offset" = true) by (unfold has_key, decode_doc; by rewrite lookup_fmap, Hoff).
  rewrite Hkey. cbn [andb negb]. rewrite Hcat.
  assert (Hfailed : chunk_failed (decode_doc true job) (o_ok o) = negb (o_ok o) || negb (is_nil failed)).
  { unfold chunk_failed, doc_get_or, decode_doc. rewrite lookup_fmap. f_equal.
    destruct (job !! "catalog_failed_offsets"%string) as [v|]; cbn [fmap option_fmap option_map default_to] in *.
    - subst v. rewrite decode_ints. by destruct failed.
    - injection Hf as Hf. by destruct failed. }
  rewrite Hfailed.
  assert (Hav : exists b, (if o_ok o then let! model := doc_at (decode_doc true job) "read_model" in
      if py_eq model (VStr "catalog_product_snapshots") || py_eq model (VStr "catalog_buybox_snapshots")
      then let! observed := doc_at (decode_doc true job) "updated_at" in let! observed := utc_at observed in Ok (Z.max (o_finished o) (observed + COOLDOWN))
      else Ok (o_finished o + COOLDOWN) else Ok (o_finished o + COOLDOWN)) = Ok b).
  { unfold doc_at, decode_doc. rewrite !lookup_fmap, Hm, Hu. cbn [fmap option_fmap option_map bson_decode result_bind utc_at].
    destruct (o_ok o); [|by eexists]. case_match; by eexists. }
  destruct Hav as [b Hav]. exists (
    [USet ["state"%string] (VStr (if o_ok o then "completed" else "failed")%string); USet ["available_at"%string] (VDate true b);
           USet ["updated_at"%string] (VDate true (o_finished o))] ++
          (if o_ok o then [] else [USet ["failure_reason"%string] (VStr (o_reason o))]) ++
          chunk_ops size offset' failed' reason o ++ release_lease ++
          (if o_ok o && is_nil failed' then [UUnset ["failure_reason"%string]] else [])), reason, b. split; [|done].
  rewrite Hav. cbn [result_bind]. do 7 f_equal. destruct (o_ok o); cbn [negb andb orb]; [|done]. rewrite app_nil_r. by destruct failed.
Qed.

(** A failure that may be tried again leaves the chunk for another turn. *)
Lemma finish_retry job a : chunked m ids offset failed job -> job !! "attempts"%string = Some (VInt (a + 1)) -> decides a = false ->
  exists b, finish_change (decode_doc true job) (o_ok o) (o_retryable o) (o_reason o) (o_finished o) = Ok (FinishUpdate
    ([USet ["state"%string] (VStr "pending"); USet ["available_at"%string] (VDate true b); USet ["updated_at"%string] (VDate true (o_finished o));
      USet ["failure_reason"%string] (VStr (o_reason o))] ++ release_lease)).
Proof using reason_public.
  intros Hc Ha Hdec. unfold finish_change. rewrite !(attempts_decoded _ _ Ha). unfold decides in Hdec.
  destruct (o_ok o), (o_retryable o); try done. cbn [orb negb andb result_bind] in *. rewrite reason_public. rewrite (proj2 (Z.ltb_lt _ _)) by lia.
  cbn [negb andb result_bind]. rewrite !andb_false_r. cbn [result_bind]. by eexists.
Qed.
End Chunk.

(** A turn on a waiting chunk. *)
Lemma turn_chunk m ids offset failed o a d : let size := Z.of_nat (length ids) in
  0 <= offset < size -> offset mod 20 = 0 -> string_in (o_reason o) public_reasons = true ->
  chunked m ids offset failed d -> d !! "attempts"%string = Some (VInt a) -> 0 <= a < MAX_ATTEMPTS ->
  let offset' := if decides o a then Z.min (offset + 20) size else offset in
  let failed' := if decides o a && negb (o_ok o) then failed ++ [offset] else failed in
  let spent' := if decides o a then 0 else a + 1 in
  exists d', turn o d = Some d' /\ chunked m ids offset' failed' d' /\ d' !! "attempts"%string = Some (VInt spent') /\
    d' !! "state"%string = Some (VStr (chunk_state size offset' failed')).
Proof.
  intros size Hin Hmod Hreason Hc Hatt Hsp.
  destruct (apply_upds 0 false (claim_update (o_token o) (o_claimed o)) d) as [d1|] eqn:H1.
  2: { exfalso. unfold claim_update, lease_to in H1. cbn [apply_upds apply_upd path_alter mbind option_bind] in H1.
       rewrite !lookup_insert_ne, Hatt in H1 by done. unfold MAX_ATTEMPTS in Hsp. destruct (int64_ok (a + 1)) eqn:Hi; [done|]. unfold int64_ok in Hi. lia. }
  assert (Hframe : forall k, frames k (claim_update (o_token o) (o_claimed o)) = true -> d1 !! k = d !! k) by (intros k; by eapply frames_keep).
  assert (Hids : frames (ids_field m) (claim_update (o_token o) (o_claimed o)) = true) by (unfold ids_field; by case_match).
  assert (Hc1 : chunked m ids offset failed d1) by (destruct Hc; constructor; rewrite Hframe; done).
  assert (Hu1 : d1 !! "updated_at"%string = Some (VDate true (floor_ms (o_claimed o)))).
  { eapply (upds_last "updated_at" (VDate true (o_claimed o)) [_; _; _]); [exact H1|done]. }
  assert (Ha1 : d1 !! "attempts"%string = Some (VInt (a + 1))).
  { unfold claim_update, lease_to in H1. cbn [apply_upds apply_upd path_alter mbind option_bind] in H1. rewrite !lookup_insert_ne, Hatt in H1 by done.
    destruct (int64_ok _); [|done]. injection H1 as <-. by rewrite lookup_insert_eq. }
  destruct (decides o a) eqn:Hdec; cbv zeta.
  2: { destruct (finish_retry m ids offset failed o Hreason d1 a Hc1 Ha1 Hdec) as [b Hf]. unfold turn. rewrite H1, Hf.
       match goal with |- context [apply_upds 0 false ?l d1] => destruct (plain_applies l eq_refl d1) as (d' & Ha & Hk) end. exists d'. split; [exact Ha|].
       cbn [andb]. split; [|split; [by rewrite Hk|rewrite Hk; unfold chunk_state; rewrite (proj2 (Z.eqb_neq _ _)) by lia; done]].
       destruct Hc1 as [Cm Ci Co Cf Cr Cs]. constructor; rewrite Hk; [exact Cm| |exact Co|exact Cf|exact Cr|exact Cs].
       rewrite <- Ci. unfold ids_field. by destruct (String.eqb _ _). }
  destruct (finish_chunk m ids offset failed o Hin Hmod Hreason d1 _ a Hc1 Hu1 Ha1 Hdec) as (ops & reason & b & Hf & Hops). cbn [andb].
  assert (Hfl : (if negb (o_ok o) then failed ++ [offset] else failed) = failed ++ (if o_ok o then [] else [offset])) by (destruct (o_ok o); cbn; [by rewrite app_nil_r|done]).
  rewrite Hfl. clear Hfl. set (offset' := Z.min (offset + 20) size). set (failed' := failed ++ _).
  fold size offset' failed' in Hops.
  assert (Hplain : forallb plain ops = true).
  { rewrite Hops. unfold chunk_ops. destruct (o_ok o), (is_nil failed'); done. }
  destruct (plain_applies ops Hplain d1) as (d' & Ha & Hk). exists d'. unfold turn. rewrite H1, Hf. split; [done|].
  assert (Hw : after "state" ops d1 = Some (VStr (chunk_state size offset' failed')) /\ after "attempts" ops d1 = Some (VInt 0) /\
    after "catalog_offset" ops d1 = Some (VInt offset') /\ after "catalog_failed_offsets" ops d1 = Some (VList (map VInt failed')) /\
    after "read_model" ops d1 = d1 !! "read_model"%string /\ after (ids_field m) ops d1 = d1 !! ids_field m /\
    after "inventory_scope" ops d1 = d1 !! "inventory_scope"%string /\
    after "catalog_failure_reason" ops d1 = if o_ok o then d1 !! "catalog_failure_reason"%string else Some (VStr (o_reason o))).
  { rewrite <- (encode_ints failed'). rewrite Hops. unfold chunk_ops, after, ids_field.
    destruct (o_ok o), (is_nil failed'), (String.eqb m "catalog_product_snapshots"); split_and!; reflexivity. }
  destruct Hw as (Hs & Hat & Ho & Hfl & Hm & Hi & Hsc & Hr). destruct Hc1 as [Cm Ci _ _ Cr Cs]. split; [|split; by rewrite Hk].
  constructor; rewrite ?Hk; [by rewrite Hm|by rewrite Hi|done|by rewrite Hfl| |by rewrite Hsc].
  rewrite Hr. intros Hne. destruct (o_ok o) eqn:Hok; [|by eexists]. apply Cr. subst failed'. rewrite app_nil_r in Hne. done.
Qed.

(** The walk over the chunks, as a worker is meant to do it: the chunk the job
    waits at, the attempts it spent there, and the chunks that failed.  A turn
    that decides its chunk moves on to the next; another spends an attempt.
    There is no turn once every chunk is decided. *)
Fixpoint walk (size offset spent : Z) (failed : list Z) (os : list outcome) : option (Z * Z * list Z) :=
  match os with
  | [] => Some (offset, spent, failed)
  | o :: os =>
      if offset <? size then
        if decides o spent then walk size (Z.min (offset + 20) size) 0 (if o_ok o then failed else failed ++ [offset]) os
        else walk size offset (spent + 1) failed os
      else None
  end.

Lemma turns_walk m ids : forall os offset spent failed d o' s' f', let size := Z.of_nat (length ids) in
  0 <= offset <= size -> (offset < size -> offset mod 20 = 0) -> 0 <= spent < MAX_ATTEMPTS ->
  forallb (fun o => string_in (o_reason o) public_reasons) os = true ->
  chunked m ids offset failed d -> d !! "attempts"%string = Some (VInt spent) -> d !! "state"%string = Some (VStr (chunk_state size offset failed)) ->
  walk size offset spent failed os = Some (o', s', f') ->
  exists d', turns os d = Some d' /\ chunked m ids o' f' d' /\ d' !! "attempts"%string = Some (VInt s') /\
    d' !! "state"%string = Some (VStr (chunk_state size o' f')) /\ 0 <= s' < MAX_ATTEMPTS /\
    (o' = Z.min (20 * ((o' + 19) / 20)) size) /\ Z.of_nat (length os) + spent + 3 * ((offset + 19) / 20) <= 3 * ((o' + 19) / 20) + s'.
Proof.
  induction os as [|o os IH]; intros offset spent failed d o' s' f' size Hpos Hmod Hsp Hr Hc Ha Hst Hw; cbn [walk] in Hw.
  { injection Hw as <- <- <-. exists d. split_and!; try done; try lia; cbn [length]; [|lia]. destruct (Z.eq_dec offset size) as [->|Hne].
    - Z.to_euclidean_division_equations. lia.
    - specialize (Hmod ltac:(lia)). Z.to_euclidean_division_equations. lia. }
  destruct (Z.ltb_spec offset size) as [Hlt|]; [|done]. cbn [forallb] in Hr. apply andb_true_iff in Hr as [Hro Hr].
  destruct (turn_chunk m ids offset failed o spent d) as (d1 & Ht & Hc1 & Ha1 & Hs1); [fold size; lia|by apply Hmod|done|done|done|done|].
  fold size in Hc1, Hs1. unfold turns. cbn [foldl]. rewrite Ht. fold (turns os d1). cbn [length]. pose proof (Hmod Hlt) as Hm20.
  destruct (decides o spent) eqn:Hdec.
  - assert (Hf : (if true && negb (o_ok o) then failed ++ [offset] else failed) = (if o_ok o then failed else failed ++ [offset])) by by destruct (o_ok o).
    rewrite Hf in *. destruct (IH (Z.min (offset + 20) size) 0 (if o_ok o then failed else failed ++ [offset]) d1 o' s' f') as (d' & H1 & H2 & H3 & H4 & H5 & H6 & H7); try done.
    { fold size. lia. } { fold size. intros. rewrite Z.min_l by lia. by rewrite <- Z.add_mod_idemp_l, Hm20 by lia. }
    exists d'. do 6 (split; [done|]). fold size in H7. assert ((Z.min (offset + 20) size + 19) / 20 = (offset + 19) / 20 + 1); [|unfold MAX_ATTEMPTS in Hsp; lia].
    pose proof (Z.div_mod offset 20 ltac:(lia)) as Hdm. rewrite Hm20, Z.add_0_r in Hdm. rewrite Hdm. set (q := offset / 20) in *.
    replace (20 * q + 19) with (19 + q * 20) by lia. rewrite Z.div_add by lia. change (19 / 20) with 0.
    symmetry. apply (Z.div_unique _ 20 _ (Z.min (20 * q + 20) size + 19 - 20 * (q + 1))); lia.
  - cbn [andb] in *. destruct (IH offset (spent + 1) failed d1 o' s' f') as (d' & H1 & H2 & H3 & H4 & H5 & H6 & H7); try done.
    { unfold decides, MAX_ATTEMPTS in *. destruct (o_ok o), (o_retryable o); cbn [orb negb] in Hdec; try done. lia. }
    exists d'. do 6 (split; [done|]). lia.
Qed.

Section Catalog.
Context `{Sha256}.

Lemma initial_chunked q seller m ids now :
  let d := encode_doc (initial_job q (CatalogRecoveryRequest seller m ids) now) in
  chunked m ids 0 [] d /\ d !! "attempts"%string = Some (VInt 0) /\ d !! "state"%string = Some (VStr "pending").
Proof using Type.
  intros d. assert (Hd : forall k, d !! k = bson_encode <$> initial_job q (CatalogRecoveryRequest seller m ids) now !! k) by (intros k; apply lookup_fmap).
  unfold initial_job, mk_doc in Hd. split; [constructor|split]; rewrite ?Hd; unfold ids_field; cbn [request_fields model_of seller_of];
    destruct (q_authority q), (String.eqb m "catalog_product_snapshots"); cbn -[key strs]; doc_simp; cbn [fmap option_fmap option_map]; rewrite ?encode_strs; done.
Qed.

(** C34: an explicit catalog acquisition follows the walk over its chunks of
    twenty identities, whatever its turns end in.  A turn that succeeds, fails
    for good or spends the third attempt decides its chunk, and the job waits at
    the next one with its attempts reset; any other failure leaves it at the same
    chunk with an attempt spent.  Chunks are decided in order, each once and after
    at most three turns; when the last one is, the job is closed, as completed
    exactly when no chunk failed, and the offsets of the chunks that failed are
    the ones recorded. *)
Theorem catalog_chunks_walked_once q seller m ids now os offset spent failed :
  let size := Z.of_nat (length ids) in 0 < size ->
  forallb (fun o => string_in (o_reason o) public_reasons) os = true -> walk size 0 0 [] os = Some (offset, spent, failed) ->
  (exists chunks, 0 <= chunks /\ offset = Z.min (20 * chunks) size /\ Z.of_nat (length os) <= 3 * chunks + spent) /\ 0 <= spent < 3 /\
  exists d, turns os (encode_doc (initial_job q (CatalogRecoveryRequest seller m ids) now)) = Some d /\
    d !! "catalog_offset"%string = Some (VInt offset) /\ d !! "attempts"%string = Some (VInt spent) /\
    default_to (VList []) (d !! "catalog_failed_offsets"%string) = VList (map VInt failed) /\
    d !! "state"%string = Some (VStr (if Z.eqb offset size then if is_nil failed then "completed" else "failed" else "pending"))%string.
Proof using Type.
  intros size Hsize Hr Hw. destruct (initial_chunked q seller m ids now) as (Hc & Ha & Hs).
  edestruct (turns_walk m ids os 0 0 []) as (d & Ht & [_ _ Co Cf _ _] & Hat & Hst & Hsp & Ho & Hlen); [| | |exact Hr|exact Hc|exact Ha| |exact Hw|];
    [fold size; lia|done|done|unfold chunk_state; fold size; rewrite (proj2 (Z.eqb_neq _ _)) by lia; exact Hs|].
  split; [|split; [exact Hsp|by exists d; split_and!]]. exists ((offset + 19) / 20). fold size in Ho. change (3 * ((0 + 19) / 20)) with 0 in Hlen.
  split; [unfold MAX_ATTEMPTS in Hsp; lia|split; [exact Ho|lia]].
Qed.
End Catalog.

(** ** Shipment acquisitions with their attempts spent *)

Section Shipments.
Context `{Sha256}.

Lemma rel_lt_int a b : rel_test RLt (VInt a) (VInt b) = (b <? a).
Proof using Type. unfold rel_test, bson_cmp, Z.ltb. cbn. by destruct (b ?= a). Qed.

(** No claim takes a job with its attempts spent, and none that waits is failed. *)
Definition stuck (d : doc) : Prop :=
  in_progress d = true /\ forall (q : queue) lanes history now fs,
    matches 0 (claim_filter q lanes history now) d = false /\ matches 0 (FAnd (fs ++ exhausted now)) d = false.

Lemma stuck_pending d a : d !! "state"%string = Some (VStr "pending") -> d !! "attempts"%string = Some (VInt a) -> MAX_ATTEMPTS <= a -> stuck d.
Proof using Type.
  intros Hs Ha Hmax. split.
  - unfold in_progress, active_states, match_eq. cbn. by rewrite Hs.
  - intros q lanes history now fs. split.
    + destruct (matches _ _ _) eqn:Hm; [|done]. unfold claim_filter in Hm. cbn [matches] in Hm. rewrite forallb_app in Hm. apply andb_true_iff in Hm as [_ Hm].
      cbn [matches forallb path_vals] in Hm. apply andb_true_iff in Hm as [Hm _]. rewrite Ha in Hm. cbn [path_vals existsb] in Hm. unfold meets in Hm.
      cbn [bson_encode] in Hm. rewrite !orb_false_r, rel_lt_int in Hm. lia.
    + destruct (matches _ _ _) eqn:Hm; [|done]. cbn [matches] in Hm. rewrite forallb_app in Hm. apply andb_true_iff in Hm as [_ Hm].
      cbn [matches forallb exhausted] in Hm. apply andb_true_iff in Hm as [Hm _]. unfold match_eq in Hm. cbn in Hm. by rewrite Hs in Hm.
Qed.

(** C35: a shipment acquisition that failed part of the way with its three
    attempts spent is reopened with the attempts it had: it waits again, and
    takes a place of its seller's capacity, but no claim will ever take it. *)
Theorem reopened_shipment_never_claimed seller ids d offset attempts now s :
  let r := ShipmentIdsRecoveryRequest seller ids in
  keyed s -> st_jobs s !! key r = Some d -> d !! "shipment_offset"%string = Some (VInt offset) -> 0 <= offset < Z.of_nat (length ids) ->
  d !! "state"%string = Some (VStr "failed") -> d !! "attempts"%string = Some (VInt attempts) -> MAX_ATTEMPTS <= attempts ->
  twp (reopen r (key r) (decode_doc true d) now) (fun _ s' => exists d', st_jobs s' !! key r = Some d' /\ stuck d') s.
Proof using Type.
  intros r Hk Hd Hoff Hin Hs Ha Hmax. unfold reopen. tx_step.
  match goal with Hx : _ = Ok a |- _ => rename Hx into Hre; change (shipment_reopen r (decode_doc true d) ids = Ok a) in Hre end.
  unfold shipment_reopen, has_key, doc_get, int_at, doc_at, decode_doc in Hre. rewrite !lookup_fmap, Hoff, Hs, Ha in Hre.
  cbn [fmap option_fmap option_map default_to bson_decode is_some negb result_bind as_int] in Hre.
  rewrite (proj2 (Z.leb_le _ _)), (proj2 (Z.leb_le offset _)) in Hre by lia. cbn in Hre. injection Hre as <-.
  set (f := FAnd _). set (ops := _ ++ _).
  tx_use (update_one_spec f ops s Hk). intros b s' Hb. destruct b; [|by apply twp_fail].
  destruct Hb as (i & e & e' & Hi & Hm & Hu & ->). apply twp_ret.
  assert (i = key r) as ->.
  { subst f. cbn [matches forallb] in Hm. apply andb_true_iff in Hm as [Hid _]. symmetry. eapply match_str, Hid. specialize (Hk i e Hi).
    unfold doc_id in Hk. unfold doc_get. destruct (e !! "_id"%string) as [[]|]; try done. by injection Hk as ->. }
  exists e'. split; [apply lookup_insert_eq|]. apply (stuck_pending e' attempts); [| |done].
  - eapply (upds_last "state" (VStr "pending") []); [exact Hu|done].
  - eapply (upds_last "attempts" (VInt attempts) [_]); [exact Hu|done].
Qed.
End Shipments.
