(* ===== verification/RecoveryDemo.v ===== *)
(** What an admission promises its caller, and runs of the recovery queue on a
    small store. *)

From S2P Require Export RecoveryTurns.

#[local] Open Scope Z_scope.

(** ** The key an admission returns *)

Section Enqueued.
Context `{Sha256} `{Surroundings} `{SellerGate}.
Hypothesis calm : forall n, faults n = NoFault.
Hypothesis alone : forall n s, others n s = s.
Variable q : queue.

(** A job in progress stands under the key, or one that another authority runs. *)
Definition admitted_job (k : string) (s : store) : Prop := exists d, st_jobs s !! k = Some d /\
  (in_progress d = true \/
   py_eq (doc_get (decode_doc true d) "policy_authority") (match q_authority q with Some a => VStr a | None => VNone end) = false).

Lemma keyed_at k i d s : keyed s -> st_jobs s !! i = Some d -> match_eq d ["_id"%string] (VStr k) = true -> i = k.
Proof using Type.
  intros Hk Hi Hm. symmetry. eapply match_str, Hm. specialize (Hk i d Hi). unfold doc_id in Hk. unfold doc_get.
  destruct (d !! "_id"%string) as [[]|]; try done. by injection Hk as ->.
Qed.
Lemma pending_progress d : d !! "state"%string = Some (VStr "pending") -> in_progress d = true.
Proof using Type. intros Hs. unfold in_progress, active_states, match_eq. cbn. by rewrite Hs. Qed.

Lemma reopen_admits r k d now s : keyed s -> st_jobs s !! k = Some d -> twp (reopen r k (decode_doc true d) now) (fun _ s' => admitted_job k s') s.
Proof using Type.
  intros Hk Hd. unfold reopen. tx_step. destruct a as [cursor attempts]. set (f := FAnd _). set (ops := _ ++ _).
  assert (Hst : forall e e', apply_upds 0 false ops e = Some e' -> e' !! "state"%string = Some (VStr "pending")).
  { intros e e' He. subst ops. eapply (upds_last "state" (VStr "pending") []); [exact He|].
    change (frames "state" ([USet ["attempts"%string] (VInt attempts); USet ["updated_at"%string] (VDate true now)] ++ cursor ++
      (if is_catalog r then [USet ["catalog_offset"%string] (VInt 0); UUnset ["catalog_failed_offsets"%string]; UUnset ["catalog_failure_reason"%string]] else []) ++
      (if is_inventory r then [UUnset ["inventory_offset"%string]; UUnset ["inventory_unavailable_ids"%string]] else [])) = true).
    assert (Hc : frames "state" cursor = true).
    { match goal with Hx : _ = Ok (cursor, attempts) |- _ => rename Hx into Hre end. destruct r; try (by injection Hre as <- <-).
      unfold shipment_reopen in Hre. repeat case_hyp Hre; result_inv; try done. }
    rewrite !frames_app, Hc. by destruct (is_catalog r), (is_inventory r). }
  tx_use (update_one_spec f ops s Hk). intros b s' Hb. destruct b.
  - destruct Hb as (i & e & e' & Hi & Hm & Hu & ->). apply twp_bind, twp_ret || apply twp_ret.
    subst f. cbn [matches forallb] in Hm. apply andb_true_iff in Hm as [Hid _]. apply (keyed_at k i e s Hk Hi) in Hid as ->.
    exists e'. split; [apply lookup_insert_eq|]. left. apply pending_progress. by eapply Hst.
  - destruct Hb as [-> Hno]. destruct r; cbn [orb negb]; try (by apply twp_fail); exfalso;
      (assert (Hm : matches 0 f d = true); [|by rewrite (Hno k d Hd) in Hm]); subst f; cbn [matches forallb]; rewrite andb_true_r;
      (specialize (Hk k d Hd); unfold doc_id in Hk; unfold match_eq; cbn; destruct (d !! "_id"%string) as [[]|]; try done; injection Hk as ->;
       cbn; unfold meets; cbn; by rewrite String.eqb_refl).
Qed.

Lemma py_state_progress d v : doc_at (decode_doc true d) "state" = Ok v -> existsb (py_eq v) active_states = true -> in_progress d = true.
Proof using Type.
  unfold doc_at, decode_doc. rewrite lookup_fmap. destruct (d !! "state"%string) as [x|] eqn:Hx; [|done]. cbn. intros [= <-] Hv.
  destruct x as [| | |st| | |]; try done. change (String.eqb st "pending" || (String.eqb st "running" || false) = true) in Hv. rewrite orb_false_r in Hv.
  unfold in_progress, active_states, match_eq. cbn. rewrite Hx. apply orb_true_iff in Hv as [->%String.eqb_eq| ->%String.eqb_eq]; done.
Qed.

Lemma check_capacity_frame r s : twp (check_capacity q r) (fun _ s' => s' = s) s.
Proof using Type.
  unfold check_capacity, capacity_error. tx_step. cbv zeta.
  match goal with |- twp (if ?b then _ else _) _ _ => destruct b; [by apply twp_fail|] end.
  match goal with |- twp (if ?b then _ else _) _ _ => destruct b; [by apply twp_fail|] end. by tx_step.
Qed.
Lemma existing_admits r now candidate d s : is_final r = false -> keyed s -> doc_id (encode_doc d) = Some candidate ->
  doc_get d "state" = VStr "pending" ->
  twp (admit_existing q r true now candidate candidate d) (fun _ s' => admitted_job candidate s') s.
Proof using Type.
  intros Hfin Hk Hid Hst. unfold admit_existing. tx_step. destruct (st_jobs s !! candidate) as [e|] eqn:He; cbn [option_map].
  - destruct (negb _) eqn:Hpol; [tx_step; exists e; split; [done|right; by apply negb_true_iff]|]. tx_step. rewrite Hfin. cbn [orb negb]. tx_step.
    destruct (existsb _ _) eqn:Hact; [tx_step; exists e; split; [done|left; by eapply py_state_progress]|].
    tx_use (check_capacity_frame r s). intros _ s' ->. by apply reopen_admits.
  - tx_use (check_capacity_frame r s). intros _ s' ->.
    unfold insert_job. repeat tx_step. exists (encode_doc d). split; [rewrite jobs_after; apply lookup_insert_eq|]. left. apply pending_progress.
    unfold encode_doc. rewrite lookup_fmap. unfold doc_get in Hst. destruct (d !! "state"%string); cbn in *; [by rewrite Hst|done].
Qed.

Lemma initial_state r now : doc_id (encode_doc (initial_job q r now)) = Some (key r) /\ doc_get (initial_job q r now) "state" = VStr "pending".
Proof using Type.
  split; [by apply initial_fields|]. unfold doc_get, initial_job, mk_doc. destruct (q_authority q), r; cbn -[key isoformat fromisoformat];
    try (match goal with |- context [if ?b then _ else _] => destruct b end); by doc_simp.
Qed.
Lemma admit_admits r now s : is_final r = false -> keyed s -> twp (admit_in_tx q r true now (key r)) (fun al s' => admitted_job al.2 s') s.
Proof using Type.
  intros Hfin Hk. destruct (initial_state r now) as [Hid Hst].
  assert (Hsame : twp (do& admit_existing q r true now (key r) (key r) (initial_job q r now) in tx_ret (tt, key r)) (fun al s' => admitted_job al.2 s') s).
  { tx_use (existing_admits r now (key r) (initial_job q r now) s Hfin Hk Hid Hst). intros _ s' Hs. by tx_step. }
  unfold admit_in_tx. tx_step. destruct (requested_items r) as [requested|]; [|exact Hsame].
  destruct (is_nil _).
  - destruct (active_items q r s) as [|d ds] eqn:Hact; [by apply twp_fail|]. tx_step. cbn.
    assert (Hd : In d (active_items q r s)) by (rewrite Hact; by left). unfold active_items in Hd.
    apply list_elem_of_In, elem_of_take in Hd as (j & Hj & _). apply list_elem_of_lookup_2, list_elem_of_In in Hj as Hd.
    apply jobs_of_spec in Hd as (i & Hi & Hm). rewrite (Hk i d Hi). cbn. exists d. split; [done|]. left.
    cbn [matches forallb] in Hm. by bool_to_prop.
  - destruct (bool_decide _); [exact Hsame|]. set (k' := key (narrowed r _)).
    match goal with |- twp (tx_bind (admit_existing _ _ _ _ _ _ ?d) _) _ _ => tx_use (existing_admits r now k' d s Hfin Hk) end.
    + unfold doc_id, encode_doc. rewrite lookup_fmap. by doc_simp.
    + unfold doc_get in *. by doc_simp.
    + intros _ s' Hs. by tx_step.
Qed.

(** An admitted request has a job.  When no call fails and nobody else
    writes meanwhile, the key that [enqueue] returns for a request that may be
    reopened is that of a stored job which waits or runs - a new one, the
    reopened one, or one that already covers what is asked - unless the job
    under that key belongs to another authority, whose workers run it. *)
Theorem enqueue_leaves_a_job r w k w' : keyed (w_store w) -> is_final r = false -> enqueue q r true w = (Ok k, w') -> admitted_job k (w_store w').
Proof using calm alone.
  intros Hk Hfin Hr. unfold enqueue in Hr. do 3 (match type of Hr with (if ?b then _ else _) _ = _ => destruct b; [|done] end).
  unfold act_bind at 1, gate_open in Hr.
  assert (Hg : forall x w1, (if q_gated q then fetched (fun n => seller_gate n (seller_of r)) else act_ret true) w = (x, w1) -> w_store w1 = w_store w).
  { destruct (q_gated q); by intros x w1 [= <- <-]. }
  match type of Hr with match ?p with _ => _ end = _ => destruct p as [[eligible|] w1] eqn:E1; [|done] end. specialize (Hg _ _ eq_refl). destruct eligible; [|done].
  unfold act_bind at 1, read_store, visit, visit_keeping in Hr. rewrite calm, alone in Hr. cbn [tx_bind tx_get tx_ret fst snd w_store w_turn] in Hr.
  unfold act_bind at 1, act_lift in Hr. match type of Hr with match ?p with _ => _ end = _ => destruct p; [|done] end.
  rewrite Hg in Hr. destruct (find_job _ [] (w_store w)) as [d|] eqn:Hfound; cbn [is_some] in Hr.
  - injection Hr as <- <-. cbn [w_store]. unfold find_job in Hfound. destruct (best _ _) as [e|] eqn:Hb; [|done].
    apply best_some in Hb as [(i & Hi & Hm)%jobs_of_spec _]. cbn [matches forallb] in Hm. bool_to_prop.
    assert (i = key r) as -> by (by eapply keyed_at). exists e. split; [done|]. by left.
  - unfold act_bind, act_now, seed_guard, act_try, visit, visit_keeping in Hr. cbn [w_store w_turn] in Hr. rewrite !calm, !alone in Hr.
    unfold tx_bind, tx_ret in Hr. cbn [w_store w_turn] in Hr. rewrite !calm, !alone in Hr. cbn [w_store w_turn] in Hr.
    match type of Hr with context [admit_in_tx q r true ?t (key r) ?n0 ?s0] => destruct (admit_in_tx q r true t (key r) n0 s0) as [[[[[] k'] n] s']|] eqn:Ha; [|done] end. injection Hr as <- <-. cbn.
    apply (admit_admits r _ (w_store w) Hfin Hk _ _ _ _ Ha).
Qed.
End Enqueued.

(** ** Runs on a small store *)

Module RecoveryRuns.
#[local] Instance sha_id : Sha256 := fun s => s.
#[local] Instance tokens : AttemptTokens := fun n => str_of_Z (Z.of_nat n).
#[local] Instance anyone : SellerGate := fun _ _ => Ok true.
(** Undisturbed calls, the given time apart. *)
Definition paced (step : Z) : Surroundings :=
  {| others := fun _ s => s; faults := fun _ => NoFault; readings := fun n _ => 90 * day + Z.of_nat n * step |}.
Definition empty_store : store := {| st_jobs := ∅; st_heads := ∅; st_receipts := ∅; st_ranges := ∅ |}.
Definition start : HistoryStore.world := {| w_store := empty_store; w_turn := 0 |}.
Definition shared : queue :=
  {| q_models := RECOVERABLE_MODELS; q_sellers := None; q_gated := false; q_capacity := 2; q_reserved := 1; q_authority := None; q_year_history := true |}.
Definition gated : queue :=
  {| q_models := RECOVERABLE_MODELS; q_sellers := None; q_gated := true; q_capacity := 2; q_reserved := 1; q_authority := None; q_year_history := true |}.

Definition a_day (m : string) (n : Z) : request := RecoveryRequest "7" m (n * day) ((n + 1) * day).
Definition busy : list queue_op :=
  [Enqueue (a_day "orders" 1) true; Enqueue (a_day "orders" 2) true; Enqueue (ItemInventoryRecoveryRequest "7") true;
   Enqueue (a_day "questions" 1) true; Claim 9 None false].

Lemma empty_keyed : keyed empty_store.
Proof. done. Qed.

Section Calm.
#[local] Instance seconds : Surroundings := paced PyVal.second.

Lemma seller_capacity_respected_witness : let jobs := st_jobs (w_store (run_ops shared busy start)) in
  size jobs = 2%nat /\ count (active "7") jobs = 2 /\ count (active "7") jobs <= 2 /\ count (occupies "7") jobs <= 1.
Proof.
  intros jobs. split; [vm_compute; reflexivity|]. split; [vm_compute; reflexivity|].
  apply (seller_capacity_respected shared busy start "7"); [intros a b Hab; exact Hab|reflexivity|intros n s Hs; exact Hs|reflexivity|reflexivity].
Defined.

(** Two jobs, whose seller has become ineligible. *)
Definition two_jobs : HistoryStore.world := run_ops shared (firstn 3 busy) start.
Definition jobs_keyed (s : store) : bool := forallb (fun id => bool_decide (doc_id id.2 = Some id.1)) (map_to_list (st_jobs s)).
Lemma jobs_keyed_ok s : jobs_keyed s = true -> keyed s.
Proof.
  unfold jobs_keyed. intros Hs i d Hi. rewrite forallb_forall in Hs. apply elem_of_map_to_list, list_elem_of_In in Hi. apply Hs in Hi.
  by apply bool_decide_eq_true in Hi.
Qed.
Section Closed.
#[local] Instance nobody : SellerGate := fun _ _ => Ok false.
Lemma claim_ends_witness : (claim gated 3 None false two_jobs).1 = Ok None /\ (claim gated 3 None false two_jobs).1 <> Err out_of_fuel.
Proof.
  split; [vm_compute; reflexivity|].
  apply (@claim_ends seconds nobody tokens (fun _ => eq_refl) (fun _ _ => eq_refl)); [intros n seller; discriminate|apply jobs_keyed_ok; vm_compute; reflexivity|vm_compute; lia].
Defined.
End Closed.

Definition fetched_doc (r : result (option doc)) : doc := match r with Ok (Some d) => d | _ => ∅ end.

(** The first chunk fails, is tried again, and is rejected; the second succeeds. *)
Definition chunks : list outcome :=
  [{| o_token := "a"; o_claimed := 90 * day; o_finished := 90 * day + minute; o_ok := false; o_retryable := true; o_reason := "source_temporarily_unavailable" |};
   {| o_token := "b"; o_claimed := 90 * day + 2 * minute; o_finished := 90 * day + 3 * minute; o_ok := false; o_retryable := false; o_reason := "source_rejected" |};
   {| o_token := "c"; o_claimed := 90 * day + 4 * minute; o_finished := 90 * day + 5 * minute; o_ok := true; o_retryable := false; o_reason := "recovery_failed" |}]%string.
Definition items : list string := map (fun n => ("MLA" ++ str_of_Z (Z.of_nat n))%string) (seq 10 25).
Lemma catalog_chunks_walked_once_witness : exists d,
  turns chunks (encode_doc (initial_job shared (CatalogRecoveryRequest "7" "item_formula_rows" items) 0)) = Some d /\
  d !! "catalog_offset"%string = Some (VInt 25) /\ d !! "state"%string = Some (VStr "failed").
Proof.
  destruct (catalog_chunks_walked_once shared "7" "item_formula_rows" items 0 chunks 25 0 [0]) as (_ & _ & d & Ht & Ho & _ & _ & Hs);
    [vm_compute; reflexivity|vm_compute; reflexivity|vm_compute; reflexivity|].
  exists d. split; [exact Ht|]. split; [exact Ho|exact Hs].
Defined.

Definition shipments : request := ShipmentIdsRecoveryRequest "7" ["1"; "2"]%string.
(** The third attempt failed after the first shipment. *)
Definition spent : doc := mk_doc
  [("_id", VStr (key shipments)); ("seller_id", VStr "7"); ("read_model", VStr "shipments"); ("shipment_ids", strs ["1"; "2"]);
   ("state", VStr "failed"); ("attempts", VInt 3); ("shipment_offset", VInt 1); ("updated_at", VDate true 0); ("available_at", VDate true 0)]%string.
Definition spent_store : store := with_jobs (fun _ => {[ key shipments := spent ]}) empty_store.
Lemma spent_keyed : keyed spent_store.
Proof. apply jobs_keyed_ok. vm_compute. reflexivity. Qed.
Lemma reopened_shipment_never_claimed_witness : exists n s' d', reopen shipments (key shipments) (decode_doc true spent) (90 * day) 0%nat spent_store = Ok (tt, n, s') /\
  st_jobs s' !! key shipments = Some d' /\ stuck d'.
Proof.
  assert (Hrun : exists n s', reopen shipments (key shipments) (decode_doc true spent) (90 * day) 0%nat spent_store = Ok (tt, n, s')).
  { eexists _, _. vm_compute. reflexivity. }
  destruct Hrun as (n & s' & Hrun). exists n, s'.
  destruct (reopened_shipment_never_claimed "7" ["1"; "2"]%string spent 1 3 (90 * day) spent_store spent_keyed) with (7 := Hrun) as (d' & Hd & Hs);
    [reflexivity|reflexivity|cbn; lia|reflexivity|reflexivity|unfold MAX_ATTEMPTS; lia|]. exists d'. split; [exact Hrun|]. split; [exact Hd|exact Hs].
Defined.
(** Asked for again, it occupies the seller's only free place for good. *)
Example spent_shipment_waits : let w := run_ops shared [Enqueue shipments true; Claim 9 None false] {| w_store := spent_store; w_turn := 0 |} in
  (claim shared 9 None false w).1 = Ok None /\ count (active "7") (st_jobs (w_store w)) = 1 /\
  (enqueue shared (a_day "orders" 1) true w).1 = Err (mk_exn "RecoveryCapacityError" "recovery seller capacity reached").
Proof. vm_compute. split_and!; reflexivity. Qed.

Lemma enqueue_leaves_a_job_witness : exists k w', enqueue shared (a_day "orders" 1) true start = (Ok k, w') /\ admitted_job shared k (w_store w').
Proof.
  assert (Hrun : exists k w', enqueue shared (a_day "orders" 1) true start = (Ok k, w')) by (eexists _, _; vm_compute; reflexivity).
  destruct Hrun as (k & w' & Hrun). exists k, w'. split; [exact Hrun|].
  apply (@enqueue_leaves_a_job sha_id seconds anyone (fun _ => eq_refl) (fun _ _ => eq_refl) shared (a_day "orders" 1) start k w'); [exact empty_keyed|reflexivity|exact Hrun].
Defined.
End Calm.

(** ** An attempt overtaken *)

Section Slow.
(** Each call comes a lease after the one before. *)
#[local] Instance slow : Surroundings := paced (2 * LEASE).
Definition queued : HistoryStore.world := run_ops shared (firstn 1 busy) start.
Definition first_claim := claim shared 9 None false queued.
Definition overtaken : doc := fetched_doc first_claim.1.
Definition second_claim := claim shared 9 None false first_claim.2.
Lemma overtaken_lost : lost overtaken (w_store second_claim.2).
Proof.
  intros i d Hid Hd. assert (Hi : i = key (a_day "orders" 1)).
  { assert (He : doc_get overtaken "_id" = VStr (key (a_day "orders" 1))) by (vm_compute; reflexivity). rewrite He in Hid. injection Hid as <-. reflexivity. }
  subst i. right. left. exists "7"%string, "11"%string. split; [vm_compute; reflexivity|]. split; [|discriminate].
  assert (Ht : option_map (fun d => doc_get d "attempt_token") (st_jobs (w_store second_claim.2) !! key (a_day "orders" 1)) = Some (VStr "11")) by (vm_compute; reflexivity).
  rewrite Hd in Ht. injection Ht as Ht. exact Ht.
Qed.
Lemma lost_attempt_writes_nothing_witness : exists r w', run_attempt overtaken (Finish true false "recovery_failed") second_claim.2 = (r, w') /\
  only_others (w_store second_claim.2) (w_store w') /\ r = Ok false.
Proof.
  assert (Hrun : exists w', run_attempt overtaken (Finish true false "recovery_failed") second_claim.2 = (Ok false, w')) by (eexists; vm_compute; reflexivity).
  destruct Hrun as (w' & Hrun). exists (Ok false), w'. split; [exact Hrun|]. split; [|reflexivity].
  assert (Hk : keyed (w_store second_claim.2)) by (apply jobs_keyed_ok; vm_compute; reflexivity).
  exact (proj1 (lost_attempt_writes_nothing overtaken (fun _ _ Hs Hl => conj Hs Hl) (Finish true false "recovery_failed") _ _ _ Hk overtaken_lost Hrun)).
Defined.
End Slow.

(** ** A transaction run again *)

Section Retry.
Definition one_item : request := ItemIdsRecoveryRequest "7" "item_formula_rows" ["MLA1"]%string.
Definition two_items : request := ItemIdsRecoveryRequest "7" "item_formula_rows" ["MLA1"; "MLA2"]%string.
(** The admission conflicts once; before it runs again, the running job for
    the first item completes. *)
#[local] Instance conflicting : Surroundings := {|
  others := fun n s => if Nat.eqb n 4 then with_jobs (fmap (fun d => <["state" := VStr "completed"]> d)%string) s else s;
  faults := fun n => if Nat.eqb n 3 then Retried NoFault else NoFault;
  readings := fun n _ => 90 * day + Z.of_nat n |}.
Definition item_running : HistoryStore.world :=
  {| w_store := with_jobs (fun _ => {[ key one_item := encode_doc (initial_job shared one_item (89 * day)) ]}) empty_store; w_turn := 0 |}.
Definition roomy : queue :=
  {| q_models := RECOVERABLE_MODELS; q_sellers := None; q_gated := false; q_capacity := 4; q_reserved := 0; q_authority := None; q_year_history := true |}.
(** [admitted_key] keeps the narrowed key of the first run: the caller is given
    the key of a job that does not exist, while the job inserted has another. *)
Example retried_admission_returns_stale_key : exists k w', enqueue roomy two_items true item_running = (Ok k, w') /\
  st_jobs (w_store w') !! k = None /\ is_some (st_jobs (w_store w') !! key two_items) = true.
Proof. eexists _, _. split; [vm_compute; reflexivity|]. vm_compute. split; reflexivity. Qed.
End Retry.
End RecoveryRuns.
