(* ===== verification/StockTimeCalls.v ===== *)
(** What the calls of the stock-time engine do to its collections, and what its
    comparison of documents as canonical BSON establishes. *)

From S2P Require Export Transactions StockTimeRollback.

#[local] Open Scope Z_scope.

(** ** Stored documents *)

Lemma encode_decode_val tz v : bson_encode (bson_decode tz (bson_encode v)) = bson_encode v.
Proof.
  induction v as [v Hv|l Hl|d Hd] using val_nested_ind.
  - destruct v; try done. cbn. by rewrite floor_ms_idem.
  - cbn. f_equal. rewrite <- !list_fmap_compose. apply list_fmap_ext. intros i x Hx. rewrite Forall_forall in Hl.
    apply Hl. by eapply list_elem_of_lookup_2.
  - cbn. f_equal. rewrite <- !map_fmap_compose. apply map_fmap_ext. intros k x Hx. by eapply Hd.
Qed.
Lemma encode_decode_any tz v : bson_encode (bson_decode tz v) = bson_encode v.
Proof.
  induction v as [v Hv|l Hl|d Hd] using val_nested_ind.
  - by destruct v.
  - cbn. f_equal. rewrite <- list_fmap_compose. apply list_fmap_ext. intros i x Hx. rewrite Forall_forall in Hl.
    apply Hl. by eapply list_elem_of_lookup_2.
  - cbn. f_equal. rewrite <- map_fmap_compose. apply map_fmap_ext. intros k x Hx. by eapply Hd.
Qed.
Lemma encode_canonical d : encode_doc (canonical d) = encode_doc d.
Proof. unfold encode_doc, canonical, decode_doc. rewrite <- map_fmap_compose. apply map_fmap_ext. intros k x _. apply encode_decode_any. Qed.
Lemma canonical_idem d : canonical (canonical d) = canonical d.
Proof.
  unfold canonical, decode_doc. rewrite <- map_fmap_compose. apply map_fmap_ext. intros k v _. cbn. clear.
  induction v as [v Hv|l Hl|d Hd] using val_nested_ind.
  - by destruct v.
  - cbn. f_equal. rewrite <- list_fmap_compose. apply list_fmap_ext. intros i x Hx. rewrite Forall_forall in Hl. apply Hl. by eapply list_elem_of_lookup_2.
  - cbn. f_equal. rewrite <- map_fmap_compose. apply map_fmap_ext. intros k x Hx. by eapply Hd.
Qed.
Lemma encode_idem d : encode_doc (encode_doc d) = encode_doc d.
Proof.
  unfold encode_doc. rewrite <- map_fmap_compose. apply map_fmap_ext. intros k x _. cbn.
  rewrite <- (encode_decode_any true (bson_encode x)). apply encode_decode_val.
Qed.
Lemma decode_get d k : doc_get (decode_doc true d) k = bson_decode true (doc_get d k).
Proof. unfold doc_get, decode_doc. rewrite lookup_fmap. by destruct (d !! k). Qed.
Lemma encode_get d k : doc_get (encode_doc d) k = bson_encode (doc_get d k).
Proof. unfold doc_get, encode_doc. rewrite lookup_fmap. by destruct (d !! k). Qed.
Lemma doc_id_encode d : doc_id (encode_doc d) = doc_id d.
Proof. unfold doc_id, encode_doc. rewrite lookup_fmap. by destruct (d !! "_id"%string) as [[]|]. Qed.
Lemma doc_id_decode d : doc_id (decode_doc true d) = doc_id d.
Proof. unfold doc_id, decode_doc. rewrite lookup_fmap. by destruct (d !! "_id"%string) as [[]|]. Qed.
Lemma doc_id_get d i : doc_get d "_id" = VStr i <-> doc_id d = Some i.
Proof.
  unfold doc_id, doc_get. destruct (d !! "_id"%string) as [[]|]; cbn; split; intros Hd; try discriminate Hd; injection Hd as ->; reflexivity.
Qed.

(** The collection holds documents under their [_id], as the server stores them. *)
Definition well_kept (m : gmap string doc) : Prop := forall i d, m !! i = Some d -> doc_id d = Some i /\ encode_doc d = d.
Lemma well_kept_insert m i d : well_kept m -> doc_id d = Some i -> well_kept (<[i := encode_doc d]> m).
Proof.
  intros Hm Hd j e Hj. destruct (decide (i = j)) as [<-|Hij].
  - rewrite lookup_insert_eq in Hj. injection Hj as <-. by rewrite doc_id_encode, encode_idem.
  - rewrite lookup_insert_ne in Hj by done. by apply Hm.
Qed.
Lemma well_kept_delete m i : well_kept m -> well_kept (delete i m).
Proof. intros Hm j e Hj. apply lookup_delete_Some in Hj as [_ Hj]. by apply Hm. Qed.
Lemma well_kept_decode m i d : well_kept m -> m !! i = Some d -> encode_doc (decode_doc true d) = d.
Proof. intros Hm Hd. fold (canonical d). rewrite encode_canonical. by apply (Hm i). Qed.

(** ** Documents by their identifier *)

Definition id_of (d : doc) : string := str_at d "_id".
Definition by_id (l : list doc) : gmap string doc := list_to_map (map (fun d => (id_of d, encode_doc d)) l).

Lemma id_of_doc_id d i : doc_id d = Some i -> id_of d = i.
Proof. intros Hd. unfold id_of, str_at. by rewrite (proj2 (doc_id_get d i) Hd). Qed.
Lemma id_of_encode d : id_of (encode_doc d) = id_of d.
Proof. unfold id_of, str_at. rewrite encode_get. by destruct (doc_get d "_id"). Qed.

(** The documents of a collection, up to their order. *)
Lemma by_id_docs (m : gmap string doc) l : well_kept m -> map encode_doc l ≡ₚ (map_to_list m).*2 -> by_id l = m.
Proof.
  intros Hm Hl.
  assert (Hids : map (fun d => (id_of d, encode_doc d)) l = map (fun d => (id_of d, d)) (map encode_doc l)).
  { rewrite map_map. apply map_ext. intros d. by rewrite id_of_encode. }
  assert (Heq : map (fun d => (id_of d, d)) (map_to_list m).*2 = map_to_list m).
  { change (map (fun d => (id_of d, d)) (map_to_list m).*2) with ((fun d => (id_of d, d)) <$> (map_to_list m).*2). rewrite <- list_fmap_compose.
    rewrite <- (list_fmap_id (map_to_list m)) at 2. apply list_fmap_ext. intros n [i d] Hx. cbn. f_equal.
    apply list_elem_of_lookup_2, elem_of_map_to_list in Hx. apply id_of_doc_id. by apply Hm. }
  unfold by_id. rewrite Hids, <- (list_to_map_to_list m). symmetry. apply list_to_map_proper.
  - apply NoDup_fst_map_to_list.
  - rewrite <- Heq at 1. by apply Permutation_map, Permutation_sym.
Qed.

Lemma by_id_lookup l d : NoDup (map id_of l) -> d ∈ l -> by_id l !! id_of d = Some (encode_doc d).
Proof.
  intros Hn Hd. apply elem_of_list_to_map_1.
  - by rewrite map_map in *.
  - apply list_elem_of_In, in_map_iff. exists d. split; [done|]. by apply list_elem_of_In.
Qed.
Lemma by_id_none l i : i ∉ map id_of l -> by_id l !! i = None.
Proof. intros Hi. apply not_elem_of_list_to_map_1. by change (i ∉ map fst (map (fun d => (id_of d, encode_doc d)) l)); rewrite map_map. Qed.

(** ** Equal as canonical BSON *)

Class ExactBson `{Bson} : Prop := bson_exact : forall a b x, bson_bytes a = Some x -> bson_bytes b = Some x -> encode_doc a = encode_doc b.

Definition same_docs (l l' : list doc) : Prop := map encode_doc l ≡ₚ map encode_doc l'.

Lemma all_of_Forall2 {A B} (f : A -> result B) l l' : all_of f l = Ok l' -> Forall2 (fun a b => f a = Ok b) l l'.
Proof.
  revert l'. induction l as [|a l IH]; intros l' Hl; cbn in Hl; [injection Hl as <-; constructor|].
  destruct (f a) as [b|] eqn:Hb; [|done]. cbn in Hl. destruct (all_of f l) as [bs|]; [|done]. cbn in Hl. injection Hl as <-. constructor; [done|by apply IH].
Qed.
Lemma insert_bytes_perm x l : insert_bytes x l ≡ₚ x :: l.
Proof. induction l as [|y l IH]; cbn; [done|]. case_match; [done|]. rewrite IH. constructor. Qed.
Lemma sort_bytes_perm l : sort_bytes l ≡ₚ l.
Proof. induction l as [|x l IH]; cbn; [done|]. rewrite insert_bytes_perm. by constructor. Qed.

Section Exact.
Context `{ExactBson}.

Lemma canonical_bytes_exact a b x : _canonical_bson_bytes a = Ok x -> _canonical_bson_bytes b = Ok x -> encode_doc a = encode_doc b.
Proof using All.
  unfold _canonical_bson_bytes. destruct (bson_bytes (canonical a)) as [y|] eqn:Ha; [|done]. destruct (bson_bytes (canonical b)) as [z|] eqn:Hb; [|done].
  intros [= ->] [= ->]. rewrite <- (encode_canonical a), <- (encode_canonical b). by eapply bson_exact.
Qed.
Lemma exact_docs l l' : _exact_preimages_match l l' = true -> same_docs l l'.
Proof using All.
  unfold _exact_preimages_match. destruct (all_of _canonical_bson_bytes l) as [b|] eqn:Hl; [|done].
  destruct (all_of _canonical_bson_bytes l') as [b'|] eqn:Hl'; [|done]. intros Hs%bool_decide_eq_true.
  assert (Hp : b' ≡ₚ b) by (rewrite <- (sort_bytes_perm b), <- (sort_bytes_perm b'), Hs; done).
  apply all_of_Forall2 in Hl, Hl'. destruct (Permutation_Forall2 Hp (proj2 (Forall2_flip _ _ _) Hl')) as (l2 & Hp2 & Hf2).
  unfold same_docs. rewrite Hp2. apply Forall2_flip in Hf2. assert (map encode_doc l = map encode_doc l2) as ->; [|done].
  clear -Hl Hf2 H H0. revert l2 Hf2. induction Hl; intros l2 Hf2; inversion Hf2; subst; cbn; [done|]. f_equal; [by eapply canonical_bytes_exact|by apply IHHl].
Qed.
End Exact.

(** ** The calls *)

Lemma docs_with c m s : docs c (with_docs c m s) = m.
Proof. by destruct c. Qed.
Lemma docs_with_ne c c' m s : c <> c' -> docs c (with_docs c' m s) = docs c s.
Proof. by destruct c, c'. Qed.
Lemma with_docs_same c s : with_docs c (docs c s) s = s.
Proof. by destruct c, s. Qed.

Section Calls.
Variables (c : coll) (now : Z).
Implicit Types (s : time_db) (d e : doc).

Lemma hit_spec f s i e : (i, e) ∈ hits c now f s <-> docs c s !! i = Some e /\ matches now f e = true.
Proof. unfold hits. rewrite list_elem_of_In, filter_In, <- list_elem_of_In, elem_of_map_to_list. done. Qed.
Lemma stored_hits_head f s i e l : hits c now f s = (i, e) :: l -> docs c s !! i = Some e /\ matches now f e = true.
Proof. intros Hh. apply (hit_spec f). rewrite Hh. constructor. Qed.
Lemma hits_nil f s i e : hits c now f s = [] -> docs c s !! i = Some e -> matches now f e = false.
Proof. intros Hh Hi. destruct (matches now f e) eqn:Hm; [|done]. assert (Hx : (i, e) ∈ hits c now f s) by by apply hit_spec. rewrite Hh in Hx. by apply not_elem_of_nil in Hx. Qed.

Lemma find_one_spec f s d : find_one c now f s = Some d -> exists i e, docs c s !! i = Some e /\ matches now f e = true /\ d = decode_doc true e.
Proof.
  unfold find_one, find. destruct (hits c now f s) as [|[i e] l] eqn:Hh; cbn; intros Hd; [discriminate Hd|]. injection Hd as <-. apply stored_hits_head in Hh as [Hi Hm]. by exists i, e.
Qed.
Lemma find_elem f s d : d ∈ find c now f s <-> exists i e, docs c s !! i = Some e /\ matches now f e = true /\ d = decode_doc true e.
Proof.
  unfold find. rewrite list_elem_of_In, in_map_iff. setoid_rewrite <- list_elem_of_In. split.
  - intros ([i e] & <- & Hx). apply hit_spec in Hx as [Hi Hm]. by exists i, e.
  - intros (i & e & Hi & Hm & ->). exists (i, e). by rewrite hit_spec.
Qed.

(** The collection with [d] written. *)
Definition written d s : time_db := with_docs c (<[id_of d := encode_doc d]> (docs c s)) s.

Lemma put_spec d s : twp (put c d) (fun _ s' => doc_id d = Some (id_of d) /\ s' = written d s) s.
Proof.
  unfold put. tx_step. destruct (doc_id d) as [i|] eqn:Hd; [|tx_step]. destruct (clashes _ _ _); tx_step. unfold written. rewrite (id_of_doc_id d i Hd). done.
Qed.
Lemma insert_one_spec d s : twp (insert_one c d) (fun _ s' => doc_id d = Some (id_of d) /\ docs c s !! id_of d = None /\ s' = written d s) s.
Proof.
  unfold insert_one. tx_step. destruct (doc_id d) as [i|] eqn:Hd; [|tx_step]. rewrite (id_of_doc_id d i Hd).
  destruct (docs c s !! i) eqn:Hi; cbn [is_some]; [tx_step|]. eapply twp_mono; [apply put_spec|]. intros _ s' [_ ->]. done.
Qed.
Lemma insert_many_spec ds s : twp (insert_many c ds) (fun _ s' => NoDup (map id_of ds) /\ (forall d, d ∈ ds -> doc_id d = Some (id_of d) /\ docs c s !! id_of d = None) /\
  s' = with_docs c (by_id ds ∪ docs c s) s) s.
Proof.
  revert s. induction ds as [|d ds IH]; intros s; cbn.
  - tx_step. split_and!; [constructor|intros d Hd; by apply not_elem_of_nil in Hd|]. unfold by_id. cbn. by rewrite (left_id_L ∅ (∪)), with_docs_same.
  - tx_use (insert_one_spec d s). intros _ s1 (Hd & Hnone & ->). eapply twp_mono; [apply IH|]. intros _ s' (Hn & Hall & ->).
    unfold written in *. setoid_rewrite docs_with in Hall. rewrite docs_with.
    assert (Hfresh : id_of d ∉ map id_of ds).
    { rewrite list_elem_of_In, in_map_iff. intros (e & He & Hin). apply list_elem_of_In, Hall in Hin as [_ Hin]. by rewrite He, lookup_insert_eq in Hin. }
    split_and!; [by constructor| |].
    + intros e [->|He]%elem_of_cons; [done|]. destruct (Hall e He) as [? Hl]. split; [done|]. rewrite lookup_insert_ne in Hl; [done|].
      intros Heq. apply Hfresh. rewrite Heq, list_elem_of_In. by apply in_map, list_elem_of_In.
    + unfold by_id. cbn. fold (by_id ds). rewrite <- insert_union_l, insert_union_r by (apply not_elem_of_list_to_map_1; change (id_of d ∉ map fst (map (fun d => (id_of d, encode_doc d)) ds)); by rewrite map_map).
      by destruct c, s.
Qed.

Definition replace_result f d (upsert : bool) s (r : replaced) s' : Prop :=
  let '(matched, modified, upserted) := r in
  (exists e, matched = 1 /\ doc_id d = Some (id_of d) /\ docs c s !! id_of d = Some e /\ matches now f e = true /\ s' = written d s /\ upserted = None) \/
  (matched = 0 /\ hits c now f s = [] /\
   if upsert then doc_id d = Some (id_of d) /\ docs c s !! id_of d = None /\ s' = written d s /\ upserted = Some (id_of d) else s' = s /\ upserted = None).
Lemma replace_one_spec f d upsert s : twp (replace_one c now f d upsert) (replace_result f d upsert s) s.
Proof.
  unfold replace_one. tx_step. destruct (hits c now f s) as [|[i e] l] eqn:Hh.
  - destruct upsert; [|tx_step; right; done]. tx_use (insert_one_spec d s). intros _ s' (Hd & Hnone & ->). tx_step. right. done.
  - tx_step. apply bool_decide_eq_true in E. destruct (stored_hits_head f s i e l Hh) as [Hi Hm]. tx_use (put_spec d s). intros _ s' [_ ->]. tx_step. left.
    rewrite (id_of_doc_id d i E). by exists e.
Qed.
Lemma delete_one_spec f s : twp (delete_one c now f)
  (fun r s' => (r = 1 /\ exists i e, docs c s !! i = Some e /\ matches now f e = true /\ s' = with_docs c (delete i (docs c s)) s) \/ (r = 0 /\ s' = s)) s.
Proof.
  unfold delete_one. tx_step. destruct (hits c now f s) as [|[i e] l] eqn:Hh; [tx_step; by right|]. destruct (stored_hits_head f s i e l Hh) as [Hi Hm].
  repeat tx_step. left. split; [done|]. by exists i, e.
Qed.
Lemma update_set_spec f stage s : twp (update_set c now f stage)
  (fun r s' => (r.1 = 1 /\ exists i e, docs c s !! i = Some e /\ matches now f e = true /\ s' = with_docs c (<[i := apply_stage now stage e]> (docs c s)) s) \/ (r = (0, 0) /\ s' = s)) s.
Proof.
  unfold update_set. tx_step. destruct (hits c now f s) as [|[i e] l] eqn:Hh; [tx_step; by right|]. destruct (stored_hits_head f s i e l Hh) as [Hi Hm].
  cbv zeta. repeat tx_step. left. split; [done|]. by exists i, e.
Qed.
End Calls.

(** ** The metrics of an interval *)

Section Interval.
Context `{PyRepr} `{Sha256} `{Bson}.
Variable b : binding.

Definition in_scope (d : doc) : bool := matches 0 (FAnd (_metric_interval_query b)) d.
(** The metrics of the interval, as stored. *)
Definition scoped (s : time_db) : gmap string doc := base.filter (fun id : string * doc => in_scope id.2 = true) (db_metrics s).

Lemma interval_docs s : well_kept (db_metrics s) -> map encode_doc (_metric_interval_documents b s) ≡ₚ (map_to_list (scoped s)).*2.
Proof using Type.
  intros Hk. unfold _metric_interval_documents, find, hits. rewrite map_map. cbn [docs].
  assert (Hl : map_to_list (scoped s) ≡ₚ List.filter (fun id => matches 0 (FAnd (_metric_interval_query b)) id.2) (map_to_list (db_metrics s))).
  { apply NoDup_Permutation; [apply NoDup_map_to_list|apply NoDup_ListNoDup, List.NoDup_filter, NoDup_ListNoDup, NoDup_map_to_list|].
    intros [i d]. rewrite elem_of_map_to_list, list_elem_of_In, filter_In, <- list_elem_of_In, elem_of_map_to_list. unfold scoped. by rewrite map_lookup_filter_Some. }
  rewrite Hl. match goal with |- ?A ≡ₚ ?B => assert (A = B) as ->; [|done] end. apply map_ext_in. intros [i d] Hx. apply filter_In in Hx as [Hx _]. apply list_elem_of_In, elem_of_map_to_list in Hx. cbn.
  by eapply well_kept_decode.
Qed.
Lemma scoped_by_id s l : well_kept (db_metrics s) -> same_docs (_metric_interval_documents b s) l -> scoped s = by_id l.
Proof using Type.
  intros Hk Hs. symmetry. apply by_id_docs.
  - intros i d Hi. apply map_lookup_filter_Some in Hi as [Hi _]. by apply Hk.
  - unfold same_docs in Hs. by rewrite <- Hs, interval_docs.
Qed.

(** Only metrics change, and none outside the interval. *)
Definition metric_writes (s s' : time_db) : Prop :=
  (forall c, c <> Metrics -> docs c s' = docs c s) /\ (well_kept (db_metrics s) -> well_kept (db_metrics s')) /\
  (forall i d, db_metrics s !! i = Some d -> in_scope d = false -> db_metrics s' !! i = Some d).
#[export] Instance metric_writes_preorder : PreOrder metric_writes.
Proof.
  split; [by split|]. intros s1 s2 s3 (Ho & Hk & Hf) (Ho' & Hk' & Hf'). split_and!; [|tauto|].
  - intros c Hc. by rewrite Ho', Ho.
  - intros i d Hi Hd. by apply Hf', Hd; apply Hf.
Qed.

Definition scope_filter (f : filter) : Prop := forall d, matches 0 f d = true -> in_scope d = true.
Lemma written_scoped s d e : db_metrics s !! id_of d = e -> (forall x, e = Some x -> in_scope x = true) -> doc_id d = Some (id_of d) -> metric_writes s (written Metrics d s).
Proof using Type.
  intros He Hx Hd. unfold written. split_and!; [intros c Hc; by apply docs_with_ne|intros Hk; by apply well_kept_insert|].
  intros i x Hi Hs. cbn [db_metrics with_docs docs]. rewrite lookup_insert_ne; [done|]. intros <-. rewrite Hi in He. by rewrite (Hx x) in Hs.
Qed.
Lemma replace_writes f d upsert s : scope_filter f -> twp (replace_one Metrics 0 f d upsert) (fun _ s' => metric_writes s s') s.
Proof using Type.
  intros Hf. eapply twp_mono; [apply replace_one_spec|]. intros [[m u] o] s' [(e & _ & Hd & He & Hm & -> & _)|(_ & _ & Hr)].
  - eapply written_scoped; [exact He| |done]. intros x [= <-]. by apply Hf.
  - destruct upsert; [|by destruct Hr as [-> _]]. destruct Hr as (Hd & Hnone & -> & _). by eapply written_scoped.
Qed.
Lemma delete_writes f s : scope_filter f -> twp (delete_one Metrics 0 f) (fun _ s' => metric_writes s s') s.
Proof using Type.
  intros Hf. eapply twp_mono; [apply delete_one_spec|]. intros r s' [(_ & i & e & He & Hm & ->)|[_ ->]]; [|done].
  split_and!; [intros c Hc; by apply docs_with_ne|intros Hk; by apply well_kept_delete|].
  intros j x Hj Hs. cbn [db_metrics with_docs docs]. rewrite lookup_delete_ne; [done|]. intros ->. cbn [docs] in He. rewrite Hj in He. injection He as ->. by rewrite Hf in Hs.
Qed.
Lemma scope_filter_and i more : scope_filter (FAnd (FEq ["_id"%string] (VStr i) :: _metric_interval_query b ++ more)).
Proof using Type. intros d. unfold in_scope. cbn [matches forallb]. rewrite forallb_app, !andb_true_iff. tauto. Qed.
End Interval.
