(* ===== verification/StockTimeForward.v ===== *)
(** The forward transaction of the stock-time engine: what a sealed plan is, and
    what the commit of its transaction establishes. *)

From S2P Require Export StockTimeCalls.
From Stdlib Require Import OrderedTypeEx.

#[local] Open Scope Z_scope.

(** ** Sealed plans *)

Section Sealed.
Context `{PyRepr} `{Sha256} `{Bson}.

Definition sealed (p : sealed_plan) : Prop := exists seller date_from date_to source plan marker,
  _seal_forward_plan seller date_from date_to source plan marker = Ok p.

(** The metric an action leaves. *)
Definition final_of (operation_id : string) (a : stock_action) : option doc :=
  if String.eqb (a_action a) "no-op" then a_preimage a
  else if String.eqb (a_action a) "delete" then None
  else match a_document a, _operation_revision operation_id METRIC_COLLECTION (a_target_id a) (a_action a) with
       | Some d, Ok r => Some (canonical (<["revision"%string := VStr r]> d))
       | _, _ => None
       end.
Definition is_change (a : stock_action) : bool := negb (String.eqb (a_action a) "no-op").
Definition mutation_of (a : stock_action) (m : mutation) : Prop :=
  m_target_collection m = METRIC_COLLECTION /\ m_target_id m = a_target_id a /\ m_action m = a_action a /\ m_preimage m = a_preimage a.
Definition action_ok (a : stock_action) : Prop :=
  presence (a_action a) = Some (is_some (a_document a), is_some (a_preimage a)) /\
  forall d, a_document a = Some d \/ a_preimage a = Some d -> doc_get d "_id" = VStr (a_target_id a).

Record plan_ok (p : sealed_plan) : Prop := {
  po_ids : NoDup (map a_target_id (ap_actions (sp_action_plan p)));
  po_actions : forall a, a ∈ ap_actions (sp_action_plan p) -> action_ok a;
  po_expected : sp_expected_metric_documents p = omap (final_of (sp_operation_id p)) (ap_actions (sp_action_plan p));
  po_mutations : exists metrics last, sp_mutations p = metrics ++ [last] /\
    Forall2 mutation_of (List.filter is_change (ap_actions (sp_action_plan p))) metrics /\
    m_target_collection last = MARKER_COLLECTION /\ m_target_id last = marker_id (b_seller_id (sp_binding p)) /\ m_preimage last = sp_marker_preimage p /\
    m_action last = (if is_some (sp_marker_preimage p) then "replace" else "insert")%string;
  po_marker : doc_get (sp_desired_marker p) "_id" = VStr (marker_id (b_seller_id (sp_binding p)));
  po_count : planned_preimage_count (sp_ledger_counts p) = Z.of_nat (length (sp_mutations p));
}.

Lemma mutation_fields op n c i a d pre m : _mutation op n c i a d pre = Ok m ->
  m_target_collection m = c /\ m_target_id m = i /\ m_action m = a /\ m_preimage m = pre.
Proof using Type.
  unfold _mutation. destruct (_preimage_fingerprint pre); [|done]. cbn. destruct (_operation_revision _ _ _ _); [|done]. cbn. by intros [= <-].
Qed.
Lemma metric_mutations_spec op ms fs acts ms' fs' : metric_mutations op ms fs acts = Ok (ms', fs') ->
  fs' = fs ++ omap (final_of op) acts /\ exists l, ms' = ms ++ l /\ Forall2 mutation_of (List.filter is_change acts) l.
Proof using Type.
  revert ms fs. induction acts as [|a acts IH]; intros ms fs; cbn [metric_mutations].
  - intros [= <- <-]. cbn. rewrite !app_nil_r. split; [done|]. exists []. by rewrite app_nil_r.
  - unfold is_change at 1, final_of at 1. cbn [omap list_omap]. cbn [List.filter]. destruct (String.eqb (a_action a) "no-op") eqn:Hn.
    + destruct (a_preimage a) as [q|] eqn:Hq; [|done]. intros Hm. destruct (IH _ _ Hm) as (-> & l & -> & Hl). cbn [negb].
      split; [by rewrite <- app_assoc|by exists l].
    + destruct (_operation_revision op METRIC_COLLECTION (a_target_id a) (a_action a)) as [r|] eqn:Hr; [|done]. cbn [result_bind].
      intros Hm.
      assert (Hx : exists m d, final_of op a = d /\ mutation_of a m /\ metric_mutations op (ms ++ [m]) (fs ++ match d with Some x => [x] | None => [] end) acts = Ok (ms', fs')).
      { unfold final_of. rewrite Hn, Hr. destruct (String.eqb (a_action a) "delete"); [|destruct (a_document a) as [d|]; [|done]]; cbn [result_bind] in Hm;
          (destruct (_mutation _ _ _ _ _ _ _) as [m|] eqn:Hmu; [|done]); cbn [result_bind] in Hm; apply mutation_fields in Hmu; eexists m, _; by split_and!. }
      destruct Hx as (m & d & Hd & Hmu & Hrest). destruct (IH _ _ Hrest) as (-> & l & -> & Hl). cbn [negb].
      split.
      * unfold final_of in Hd. rewrite Hn, Hr in Hd. rewrite Hd. destruct d; by rewrite <- app_assoc.
      * exists (m :: l). split; [by rewrite <- app_assoc|by constructor].
Qed.

Lemma check_actions_spec seller start end_ acts : check_actions seller start end_ acts = Ok tt -> forall a, a ∈ acts -> action_ok a.
Proof using Type.
  induction acts as [|b acts IH]; cbn; [intros _ a Ha; by apply not_elem_of_nil in Ha|].
  destruct (presence (a_action b)) as [pr|] eqn:Hp; [|done]. destruct (bool_decide _) eqn:Hpr; cbn [negb]; [|done]. apply bool_decide_eq_true in Hpr.
  destruct (existsb _ _) eqn:He; [done|]. intros Hc a [->|Ha]%elem_of_cons; [|by apply IH]. split; [by rewrite Hp, Hpr|].
  intros d Hd. assert (Hin : In d (option_list (a_document b) ++ option_list (a_preimage b))).
  { apply in_or_app. destruct Hd as [->| ->]; [left|right]; by left. }
  apply not_true_iff_false in He. destruct (in_scope_of seller start end_ (a_target_id b) d) eqn:Hs.
  - unfold in_scope_of in Hs. rewrite !andb_true_iff in Hs. destruct Hs as [[[Hs _] _] _]. by apply py_eq_str.
  - exfalso. apply He, existsb_exists. exists d. by rewrite Hs.
Qed.

(** [sorted(set(ids))] repeats nothing. *)
Lemma ltb_trans a b c : String.ltb a b = true -> String.ltb b c = true -> String.ltb a c = true.
Proof using Type.
  unfold String.ltb. intros Hab Hbc. destruct (String.compare a b) eqn:Ea; [done| |done]. destruct (String.compare b c) eqn:Eb; [done| |done].
  apply String_as_OT.cmp_lt in Ea, Eb. assert (Hc : String_as_OT.lt a c) by (eapply String_as_OT.lt_trans; eassumption). apply String_as_OT.cmp_lt in Hc.
  unfold String_as_OT.cmp in Hc. by rewrite Hc.
Qed.
Lemma ltb_total a b : String.eqb a b = false -> String.ltb a b = false -> String.ltb b a = true.
Proof using Type.
  unfold String.ltb. rewrite (String.compare_antisym b a). intros He. destruct (String.compare a b) eqn:E; cbn; try done.
  apply String.compare_eq_iff in E. subst. by rewrite String.eqb_refl in He.
Qed.
Lemma ltb_irrefl a : String.ltb a a = false.
Proof using Type. unfold String.ltb. pose proof (String.compare_antisym a a) as Ha. by destruct (String.compare a a). Qed.
Lemma insert_id_sorted x l : StronglySorted (fun a b => String.ltb a b = true) l ->
  StronglySorted (fun a b => String.ltb a b = true) (insert_id x l) /\ forall y, y ∈ insert_id x l -> y = x \/ y ∈ l.
Proof using Type.
  induction 1 as [|y l Hl IH Hy]; cbn.
  - split; [by repeat constructor|]. intros y Hy. left. by apply list_elem_of_singleton in Hy.
  - destruct (String.eqb x y) eqn:Exy; [split; [by constructor|by right]|]. destruct (String.ltb x y) eqn:Elt.
    + split; [|intros z Hz; by apply elem_of_cons in Hz]. constructor; [by constructor|]. constructor; [done|].
      eapply List.Forall_impl; [|exact Hy]. intros z Hz. by eapply ltb_trans.
    + destruct IH as [IHs IHm]. split.
      * constructor; [done|]. apply List.Forall_forall. intros z Hz. apply list_elem_of_In, IHm in Hz as [->|Hz]; [by apply ltb_total|].
        rewrite List.Forall_forall in Hy. by apply Hy, list_elem_of_In.
      * intros z [->|Hz]%elem_of_cons; [right; constructor|]. destruct (IHm z Hz) as [->|Hz']; [by left|]. right. by constructor.
Qed.
Lemma sorted_set_NoDup l : NoDup (sorted_set l).
Proof using Type.
  assert (Hs : StronglySorted (fun a b => String.ltb a b = true) (sorted_set l)).
  { induction l as [|x l IH]; cbn; [constructor|]. by apply insert_id_sorted. }
  induction Hs as [|y m Hm IH Hy]; constructor; [|done]. intros Hin. rewrite List.Forall_forall in Hy.
  apply list_elem_of_In, Hy in Hin. by rewrite ltb_irrefl in Hin.
Qed.

Lemma plan_actions_named planned existing ids acts : all_of (plan_action planned existing) ids = Ok acts -> map a_target_id acts = ids.
Proof using Type.
  intros Ha. apply all_of_Forall2 in Ha. induction Ha as [|i a is_ acts Hi _ IH]; cbn; [done|]. rewrite IH. f_equal.
  unfold plan_action in Hi. result_inv. done.
Qed.
Lemma plan_actions_ids src planned existing plan : _plan_stock_time_actions src planned existing = Ok plan -> NoDup (map a_target_id (ap_actions plan)).
Proof using Type.
  unfold _plan_stock_time_actions. intros Hp. result_inv. case_hyp Hp; [done|]. result_inv. cbv zeta in Hp. case_hyp Hp; [done|]. result_inv. cbn.
  erewrite plan_actions_named; [apply sorted_set_NoDup|eassumption].
Qed.

Lemma action_kind a : action_ok a -> a_action a = "insert"%string \/ a_action a = "replace"%string \/ a_action a = "delete"%string \/ a_action a = "no-op"%string.
Proof using Type.
  intros [Hp _]. unfold presence in Hp.
  repeat match type of Hp with context [if String.eqb ?x ?y then _ else _] => destruct (String.eqb_spec x y); [tauto|] end. done.
Qed.

Lemma sealed_ok p : sealed p -> plan_ok p.
Proof using Type.
  intros (seller & df & dt & src & plan & marker & Hs). unfold _seal_forward_plan in Hs.
  destruct (string_is_empty _); [done|]. destruct (utc_bound df) as [start|]; [|done]. destruct (utc_bound dt) as [end_|]; [|done].
  destruct (end_ <=? start); [done|]. destruct (negb (forallb hex64 _)); [done|]. cbv zeta in Hs.
  match type of Hs with context [if ?b then _ else _] => destruct b; [done|] end. result_inv.
  destruct a. rename a0 into validated, E into Hc, E0 into Hv. unfold _validated_action_plan in Hv. result_inv. destruct (bool_decide _) eqn:Heq; [|done].
  apply bool_decide_eq_true in Heq. result_inv. unfold recast in E. match type of E with (match ?r with _ => _ end) = _ => destruct r as [v|e] eqn:Hplan end;
    [|by destruct (String.eqb _ _)]. injection E as ->. result_inv. unfold _materialize_forward_plan in Hs. result_inv. destruct a0 as [metrics finals]. result_inv.
  match goal with Hm : metric_mutations _ _ _ _ = Ok _ |- _ => apply metric_mutations_spec in Hm as [-> (l & -> & Hl)] end.
  match goal with Hm : _mutation _ _ _ _ _ _ _ = Ok _ |- _ => apply mutation_fields in Hm as (Hc1 & Hc2 & Hc3 & Hc4) end. rewrite app_nil_l in *.
  constructor; cbn.
  - by eapply plan_actions_ids.
  - by eapply check_actions_spec.
  - done.
  - exists l. eexists. split_and!; try done.
  - reflexivity.
  - done.
Qed.
End Sealed.

(** ** The forward transaction *)

(** One document of an operation is updated. *)
Definition operation_updated (id : string) (stage : list (string * aexpr)) (s s' : time_db) : Prop := exists now i e,
  db_operations s !! i = Some e /\ match_eq e ["_id"%string] (VStr id) = true /\ db_operations s' = <[i := apply_stage now stage e]> (db_operations s).

Section Forward.
Context `{PyRepr} `{Sha256} `{Bson}.
Variables (p : sealed_plan) (c : operation_context).
Implicit Types (s : time_db).

Definition live_attempt : filter :=
  FAnd (fields_filter ([("_id", VStr (sp_operation_id p)); ("state", VStr "prepared")]%string ++ attempt_fields c) ++ [lease_live]).
(** At [now] the caller's attempt is the stored one, prepared and live. *)
Definition owner (now : Z) (s : time_db) (o : doc) : Prop :=
  operation_of (sp_operation_id p) s = Some o /\ _validate_persisted_operation o (_operation_immutable p) = Ok o /\
  str_at o "state" = "prepared"%string /\ differs o (attempt_fields c) = false /\ is_some (find_one Operations now live_attempt s) = true.
Definition interval_is (s : time_db) (l : list doc) : Prop := _exact_preimages_match (_metric_interval_documents (sp_binding p) s) l = true.
Definition marker_is (s : time_db) (o : option doc) : Prop :=
  _exact_preimages_match (option_list (marker_of (b_seller_id (sp_binding p)) s)) (option_list o) = true.

(** From [s] to [s'] the whole plan is carried out, by the owner of the lease and
    over the preimages it was planned for. *)
Record forward_step (s s' : time_db) : Prop := {
  fs_owner : exists now o records, owner now s o /\ _preimage_records p (doc_get o "lease_acquired_at") = Ok records /\
    NoDup (map id_of records) /\ (forall r, r ∈ records -> doc_id r = Some (id_of r) /\ db_preimages s !! id_of r = None) /\
    db_preimages s' = by_id records ∪ db_preimages s;
  fs_metrics_before : interval_is s (omap a_preimage (ap_actions (sp_action_plan p)));
  fs_marker_before : marker_is s (sp_marker_preimage p);
  fs_metrics : interval_is s' (sp_expected_metric_documents p);
  fs_marker : marker_is s' (Some (sp_desired_marker p));
  fs_committed : exists o, operation_of (sp_operation_id p) s' = Some o /\ _validated_committed_operation (Some o) p c = Ok o;
  fs_other_metrics : forall i d, db_metrics s !! i = Some d -> in_scope (sp_binding p) d = false -> db_metrics s' !! i = Some d;
  fs_other_markers : forall i, i <> marker_id (b_seller_id (sp_binding p)) -> db_markers s' !! i = db_markers s !! i;
  fs_operations : operation_updated (sp_operation_id p) commit_stage s s';
  fs_kept : well_kept (db_metrics s) /\ well_kept (db_markers s) -> well_kept (db_metrics s') /\ well_kept (db_markers s');
}.

Section Clock.
Variable clock : nat -> Z.

Lemma execution_spec s : twp (_validated_execution_operation clock p c) (fun o s' => s' = s /\ exists now, owner now s o) s.
Proof using Type.
  unfold _validated_execution_operation. tx_step. repeat tx_step.
  match goal with |- twp (match ?m with _ => _ end) _ _ => change m with (operation_of (sp_operation_id p) s); destruct (operation_of (sp_operation_id p) s) as [o|] eqn:Ho; [|tx_step] end.
  tx_step. tx_step. tx_step. tx_step. tx_step. split; [done|]. exists t.
  assert (Ha : a = o) by (match goal with Hv : _validate_persisted_operation o _ = Ok a |- _ => unfold _validate_persisted_operation in Hv; repeat case_hyp Hv; by result_inv end).
  subst a. split_and!; try done; [by apply String.eqb_eq|by apply negb_true_iff].
Qed.
Lemma revalidate_spec s : twp (_revalidate_forward_preimages p)
  (fun _ s' => s' = s /\ interval_is s (omap a_preimage (ap_actions (sp_action_plan p))) /\ marker_is s (sp_marker_preimage p)) s.
Proof using Type. unfold _revalidate_forward_preimages. repeat tx_step. by apply andb_true_iff in E. Qed.
Lemma persist_spec s : twp (persist_tx clock p c) (fun _ s' => exists now o records, owner now s o /\ _preimage_records p (doc_get o "lease_acquired_at") = Ok records /\
  NoDup (map id_of records) /\ (forall r, r ∈ records -> doc_id r = Some (id_of r) /\ db_preimages s !! id_of r = None) /\
  interval_is s (omap a_preimage (ap_actions (sp_action_plan p))) /\ marker_is s (sp_marker_preimage p) /\
  s' = with_docs Preimages (by_id records ∪ db_preimages s) s) s.
Proof using Type.
  unfold persist_tx. tx_use (execution_spec s). intros o s1 [-> [now Ho]]. tx_use (revalidate_spec s). intros _ s1 (-> & Hi & Hm).
  tx_step. eapply twp_mono; [apply insert_many_spec|]. intros _ s' (Hn & Hall & ->). by exists now, o, a.
Qed.

Lemma exact_write_spec b s : twp (exact_write b) (fun _ s' => s' = s /\ b = true) s.
Proof using Type. unfold exact_write. by repeat tx_step. Qed.
Lemma required_spec o s : twp (required o) (fun d s' => s' = s /\ o = Some d) s.
Proof using Type. unfold required. destruct o; by tx_step. Qed.

Lemma cas_scoped a rev : scope_filter (sp_binding p) (_metric_cas_selector p a rev).
Proof using Type. unfold _metric_cas_selector. apply scope_filter_and. Qed.
Lemma write_metric_spec a s : twp (write_metric p a) (fun _ s' => metric_writes (sp_binding p) s s') s.
Proof using Type.
  unfold write_metric, _insert_metric_cas, _replace_metric_cas, _delete_metric_cas, _touch_noop_metric_cas.
  repeat match goal with |- twp (if ?b then _ else _) _ _ => destruct b end; try by tx_step.
  - tx_use (required_spec (a_document a) s). intros d s1 [-> _]. tx_step. tx_use (replace_writes (sp_binding p)); [apply cas_scoped|]. intros [[m u] o] s2 Hw.
    eapply twp_mono; [apply exact_write_spec|]. by intros _ s3 [-> _].
  - tx_use (required_spec (a_document a) s). intros d s1 [-> _]. tx_use (required_spec (a_preimage a) s). intros q s1 [-> _].
    tx_step. tx_use (replace_writes (sp_binding p)); [apply cas_scoped|]. intros [[m u] o] s2 Hw. eapply twp_mono; [apply exact_write_spec|]. by intros _ s3 [-> _].
  - tx_use (required_spec (a_preimage a) s). intros q s1 [-> _]. tx_use (delete_writes (sp_binding p)); [apply cas_scoped|]. intros n s2 Hw.
    eapply twp_mono; [apply exact_write_spec|]. by intros _ s3 [-> _].
  - tx_use (required_spec (a_preimage a) s). intros q s1 [-> _]. do 2 tx_step. cbv zeta.
    tx_use (replace_writes (sp_binding p)); [apply cas_scoped|]. intros [[m u] o] s2 Hw. tx_use exact_write_spec. intros _ s3 [-> _].
    tx_use (replace_writes (sp_binding p)); [apply cas_scoped|]. intros [[m' u'] o'] s4 Hw'. eapply twp_mono; [apply exact_write_spec|]. intros _ s5 [-> _].
    by etransitivity.
Qed.
Lemma write_metrics_spec acts s : twp (write_metrics p acts) (fun _ s' => metric_writes (sp_binding p) s s') s.
Proof using Type.
  revert s. induction acts as [|a acts IH]; intros s; cbn; [by tx_step|]. tx_use (write_metric_spec a s). intros _ s1 Hw.
  eapply twp_mono; [apply IH|]. cbv beta. intros _ s2 Hw2. by etransitivity.
Qed.
Lemma forward_metrics_spec s : twp (_write_and_verify_forward_metrics p)
  (fun _ s' => metric_writes (sp_binding p) s s' /\ interval_is s' (sp_expected_metric_documents p)) s.
Proof using Type. unfold _write_and_verify_forward_metrics. tx_use write_metrics_spec. intros _ s1 Hw. by repeat tx_step. Qed.

Hypothesis Hp : plan_ok p.

Lemma desired_id : doc_id (canonical (sp_desired_marker p)) = Some (marker_id (b_seller_id (sp_binding p))).
Proof using Hp. unfold canonical. rewrite doc_id_decode. apply doc_id_get, Hp. Qed.
Lemma forward_marker_spec s : twp (_write_and_verify_forward_marker p)
  (fun _ s' => s' = written Markers (canonical (sp_desired_marker p)) s /\ marker_is s' (Some (sp_desired_marker p))) s.
Proof using Hp.
  unfold _write_and_verify_forward_marker. cbv zeta. tx_use replace_one_spec. intros [[m u] o] s1 Hr.
  match goal with |- twp (if ?b then _ else _) _ _ => destruct b eqn:Hb; [|tx_step] end. do 2 tx_step. tx_step.
  assert (Hs : s1 = written Markers (canonical (sp_desired_marker p)) s).
  { destruct Hr as [(e & _ & _ & _ & _ & -> & _)|(-> & _ & Hr)]; [done|]. destruct (is_some (sp_marker_preimage p)); [done|]. cbn in Hr. by destruct Hr as (_ & _ & -> & _). }
  split; [done|]. match goal with Hx : _exact_preimages_match _ _ = true |- _ => rename Hx into He end.
  rewrite (proj2 (doc_id_get _ _) desired_id) in He. fold (marker_of (b_seller_id (sp_binding p)) s1) in He.
  unfold marker_is. cbn [option_list]. revert He. unfold _exact_preimages_match. cbn [all_of].
  assert (Hc : _canonical_bson_bytes (canonical (sp_desired_marker p)) = _canonical_bson_bytes (sp_desired_marker p)).
  { unfold _canonical_bson_bytes. by rewrite canonical_idem. }
  by rewrite Hc.
Qed.

Lemma committed_same o q : _validated_committed_operation (Some o) p c = Ok q -> q = o.
Proof using Type.
  unfold _validated_committed_operation, recast. destruct (_validate_persisted_operation o _) as [x|x] eqn:Hv; [|by destruct (String.eqb (exn_cls x) _)]. cbn [result_bind].
  assert (x = o) as -> by (unfold _validate_persisted_operation in Hv; repeat case_hyp Hv; by result_inv). intros Hr. case_hyp Hr; by result_inv.
Qed.
Lemma operation_commit_spec s : twp (_write_and_verify_operation_commit clock p c) (fun _ s' =>
  (forall k, k <> Operations -> docs k s' = docs k s) /\ operation_updated (sp_operation_id p) commit_stage s s' /\
  exists o, operation_of (sp_operation_id p) s' = Some o /\ _validated_committed_operation (Some o) p c = Ok o) s.
Proof using Type.
  unfold _write_and_verify_operation_commit. tx_step. tx_use update_set_spec. intros [m u] s1 Hu. tx_step. do 3 tx_step.
  destruct Hu as [(_ & i & e & Hi & Hm & ->)|[[= -> ->] ->]]; [|done]. split_and!.
  - intros k Hk. by apply docs_with_ne.
  - exists t, i, e. split_and!; [done| |done]. cbn [matches forallb fields_filter map _operation_immutable app fst snd] in Hm. by apply andb_true_iff in Hm as [Hm _].
  - match goal with Hv : _validated_committed_operation ?o _ _ = Ok _ |- context [operation_of _ ?s1] =>
      change o with (operation_of (sp_operation_id p) s1) in Hv; destruct (operation_of (sp_operation_id p) s1) as [o1|] eqn:Ho; [|done]; exists o1;
      assert (Heq : a = o1); [|subst a; done] end.
    eapply committed_same. eassumption.
Qed.

Lemma forward_tx_spec s : twp (forward_tx clock p c) (fun _ s' => forward_step s s') s.
Proof using Hp.
  unfold forward_tx. tx_use (persist_spec s). intros _ s1 (now & o & records & Ho & Hr & Hn & Hfresh & Hi & Hm & Hs1).
  tx_use (forward_metrics_spec s1). intros _ s2 ((Hsame & Hkept & Hother) & Hi2). tx_use (forward_marker_spec s2). intros _ s3 (Hs3 & Hm3).
  eapply twp_mono; [apply operation_commit_spec|]. intros _ s4 (Hsame4 & Hops & Hc).
  pose proof (Hsame4 Metrics ltac:(done)) as H4m. pose proof (Hsame4 Markers ltac:(done)) as H4k. pose proof (Hsame4 Preimages ltac:(done)) as H4p.
  pose proof (Hsame Markers ltac:(done)) as H2k. pose proof (Hsame Preimages ltac:(done)) as H2p. pose proof (Hsame Operations ltac:(done)) as H2o.
  cbn [docs] in *. subst s3 s1. cbn [written with_docs docs db_metrics db_markers db_preimages db_operations] in *.
  assert (Hint : forall l, interval_is s2 l -> interval_is s4 l).
  { intros l. unfold interval_is, _metric_interval_documents, find, hits. cbn [docs]. by rewrite H4m. }
  constructor.
  - exists now, o, records. split_and!; try done. by rewrite H4p, H2p.
  - done.
  - done.
  - by apply Hint.
  - revert Hm3. unfold marker_is, marker_of, find_one, find, hits. cbn [docs]. by rewrite H4k.
  - done.
  - intros i d Hd Hs. rewrite H4m. by apply Hother.
  - intros i Hne. rewrite H4k, <- H2k, lookup_insert_ne; [done|]. intros <-. apply Hne. apply id_of_doc_id, desired_id.
  - unfold operation_updated in *. by rewrite H2o in Hops.
  - intros [Hk1 Hk2]. rewrite H4m, H4k. split; [by apply Hkept|]. apply well_kept_insert; [by rewrite H2k|].
    rewrite (id_of_doc_id _ _ desired_id). apply desired_id.
Qed.
End Clock.
End Forward.
