(* ===== verification/StockTimeRestore.v ===== *)
(** The rollback of the stock-time engine: what its transactions establish, and
    that a rollback after a forward operation restores what the operation
    found. *)

From S2P Require Export StockTimeForward.

#[local] Open Scope Z_scope.

(** ** The transactions *)

Section Backward.
Context `{PyRepr} `{Sha256} `{Bson}.
Implicit Types (s : time_db) (o : doc).

Definition not_named (i : string) (d : doc) : bool := negb (match_eq d ["_id"%string] (VStr i)).
(** The writes of a rollback: of metrics in the interval, of the marker. *)
Definition restoring (o : doc) (s s' : time_db) : Prop :=
  db_preimages s' = db_preimages s /\ db_operations s' = db_operations s /\ (well_kept (db_metrics s) -> well_kept (db_metrics s')) /\
  (forall i d, db_metrics s !! i = Some d -> in_scope (_rollback_binding o) d = false -> db_metrics s' !! i = Some d) /\
  (forall i d, db_markers s !! i = Some d -> not_named (marker_id (str_at o "seller_id")) d = true -> db_markers s' !! i = Some d).
#[export] Instance restoring_preorder o : PreOrder (restoring o).
Proof.
  split; [intros s; by split_and!|]. intros s1 s2 s3 (Hp & Ho & Hk & Hm & Hf) (Hp' & Ho' & Hk' & Hm' & Hf'). split_and!; [by rewrite Hp', Hp|by rewrite Ho', Ho|tauto| |].
  - intros i d Hi Hd. by apply Hm', Hd; apply Hm.
  - intros i d Hi Hd. by apply Hf', Hd; apply Hf.
Qed.
Lemma metric_restoring o s s' : metric_writes (_rollback_binding o) s s' -> restoring o s s'.
Proof using Type.
  intros (Hs & Hk & Hf). pose proof (Hs Preimages ltac:(done)). pose proof (Hs Operations ltac:(done)). pose proof (Hs Markers ltac:(done)) as Hm. cbn [docs] in *.
  split_and!; try done. intros i d Hi _. by rewrite Hm.
Qed.

Definition named_filter (i : string) (f : filter) : Prop := forall d, matches 0 f d = true -> match_eq d ["_id"%string] (VStr i) = true.
Lemma marker_replaced o f d upsert s : named_filter (marker_id (str_at o "seller_id")) f ->
  twp (replace_one Markers 0 f d upsert) (fun _ s' => restoring o s s') s.
Proof using Type.
  intros Hf. eapply twp_mono; [apply replace_one_spec|]. cbv beta. intros [[m u] ups] s' Hr.
  assert (Hw : forall e, db_markers s !! id_of d = e -> (forall x, e = Some x -> match_eq x ["_id"%string] (VStr (marker_id (str_at o "seller_id"))) = true) ->
    restoring o s (written Markers d s)).
  { intros e He Hx. split_and!; try done. intros i x Hi Hn. cbn [written db_markers with_docs docs]. rewrite lookup_insert_ne; [done|]. intros <-.
    rewrite Hi in He. unfold not_named in Hn. by rewrite (Hx x) in Hn. }
  destruct Hr as [(e & _ & _ & He & Hm & -> & _)|(_ & _ & Hr)]; [eapply Hw; [exact He|]; intros x [= <-]; by apply Hf|].
  destruct upsert; [|by destruct Hr as [-> _]]. destruct Hr as (_ & Hn & -> & _). by eapply Hw.
Qed.
Lemma marker_deleted o f s : named_filter (marker_id (str_at o "seller_id")) f -> twp (delete_one Markers 0 f) (fun _ s' => restoring o s s') s.
Proof using Type.
  intros Hf. eapply twp_mono; [apply delete_one_spec|]. cbv beta. intros r s' [(_ & i & e & He & Hm & ->)|[_ ->]]; [|done].
  split_and!; try done. intros j x Hj Hn. cbn [db_markers with_docs docs] in *. rewrite lookup_delete_ne; [done|]. intros <-. rewrite Hj in He. injection He as ->.
  unfold not_named in Hn. by rewrite Hf in Hn.
Qed.

Lemma selector_scoped o m rev : String.eqb (rm_target_collection m) MARKER_COLLECTION = false -> scope_filter (_rollback_binding o) (_rollback_selector o m rev).
Proof using Type. intros Hc. unfold _rollback_selector. rewrite Hc. apply scope_filter_and. Qed.
Lemma selector_named o m rev : rm_target_id m = marker_id (str_at o "seller_id") -> named_filter (marker_id (str_at o "seller_id")) (_rollback_selector o m rev).
Proof using Type.
  intros Hi d Hm. unfold _rollback_selector in Hm. rewrite <- app_comm_cons in Hm. cbn [matches forallb] in Hm. apply andb_true_iff in Hm as [Hm _]. by rewrite <- Hi.
Qed.

(** The marker is the target of its mutation. *)
Definition aimed (o : doc) (m : rollback_mutation) : Prop :=
  String.eqb (rm_target_collection m) MARKER_COLLECTION = true -> rm_target_id m = marker_id (str_at o "seller_id").
Lemma exact_or_drift_spec b s : twp (exact_or_drift b) (fun _ s' => s' = s) s.
Proof using Type. unfold exact_or_drift. by repeat tx_step. Qed.
Lemma restoration_spec m s : twp (restoration m) (fun _ s' => s' = s) s.
Proof using Type. unfold restoration. destruct (rm_restoration m); by tx_step. Qed.
Lemma duplicate_spec {A} (t : etx A) Q s : twp t Q s -> twp (duplicate_is_drift t) Q s.
Proof using Type.
  intros Ht n a n' s' Hr. unfold duplicate_is_drift in Hr. destruct (t n s) as [[[b k] s1]|e] eqn:E; [|by destruct (String.eqb _ _)].
  injection Hr as <- <- <-. by eapply Ht.
Qed.
Lemma apply_mutation_spec o m s : aimed o m -> twp (_apply_rollback_mutation o m) (fun _ s' => restoring o s s') s.
Proof using Type.
  intros Ha. unfold _apply_rollback_mutation. cbv zeta.
  assert (Hrep : forall rev d ups s, twp (replace_one (target_coll m) 0 (_rollback_selector o m rev) d ups) (fun _ s' => restoring o s s') s).
  { intros rev d ups s1. unfold target_coll. destruct (String.eqb (rm_target_collection m) MARKER_COLLECTION) eqn:Hc.
    - apply marker_replaced, selector_named. by apply Ha.
    - eapply twp_mono; [apply (replace_writes (_rollback_binding o)); by apply selector_scoped|]. cbv beta. intros _ s'. apply metric_restoring. }
  repeat match goal with |- twp (if ?b then _ else _) _ _ => destruct b end; [| | |by tx_step].
  - apply twp_bind. unfold target_coll. destruct (String.eqb (rm_target_collection m) MARKER_COLLECTION) eqn:Hc.
    + eapply twp_mono; [apply marker_deleted, selector_named; by apply Ha|]. cbv beta. intros r s1 Hr. eapply twp_mono; [apply exact_or_drift_spec|]. by intros _ s2 ->.
    + eapply twp_mono; [apply (delete_writes (_rollback_binding o)); by apply selector_scoped|]. cbv beta. intros r s1 Hr%metric_restoring.
      eapply twp_mono; [apply exact_or_drift_spec|]. by intros _ s2 ->.
  - tx_use (restoration_spec m s). intros d s1 ->. tx_use Hrep. intros [[x y] z] s1 Hr. eapply twp_mono; [apply exact_or_drift_spec|]. by intros _ s2 ->.
  - tx_use (restoration_spec m s). intros d s1 ->. apply twp_bind, duplicate_spec. eapply twp_mono; [apply Hrep|]. cbv beta. intros [[x y] z] s1 Hr.
    eapply twp_mono; [apply exact_or_drift_spec|]. by intros _ s2 ->.
Qed.
Lemma apply_mutations_spec o ms s : (forall m, m ∈ ms -> aimed o m) -> twp (apply_mutations o ms) (fun _ s' => restoring o s s') s.
Proof using Type.
  revert s. induction ms as [|m ms IH]; intros s Ha; cbn; [by tx_step|]. tx_use (apply_mutation_spec o m s); [apply Ha; constructor|]. intros _ s1 Hr.
  eapply twp_mono; [apply IH; intros m' Hm'; apply Ha; by constructor|]. cbv beta. intros _ s2 Hr2. by etransitivity.
Qed.

(** ** The record set and the plan *)

Record rows_ok (o : doc) (rows : list doc) : Prop := {
  ro_row : forall row, row ∈ rows -> rollback_row_ok o row (row_target row) (row_action row) = true /\ rollback_target_ok o row (row_target row) (row_action row) = true;
  ro_targets : NoDup (map row_target rows);
  ro_last : exists front row, rows = front ++ [row] /\ is_marker_row row = true;
  ro_one_marker : forall row row', row ∈ rows -> row' ∈ rows -> is_marker_row row = true -> is_marker_row row' = true -> row = row';
}.

Lemma rollback_rows_spec o seen rows : rollback_rows_ok o seen rows = true ->
  (forall row, row ∈ rows -> rollback_row_ok o row (row_target row) (row_action row) = true /\ rollback_target_ok o row (row_target row) (row_action row) = true) /\
  NoDup (map row_target rows) /\ (forall row, row ∈ rows -> row_target row ∉ seen).
Proof using Type.
  revert seen. induction rows as [|row rows IH]; intros seen; cbn [rollback_rows_ok map].
  - intros _. split_and!; [|constructor|]; intros row Hr; by apply not_elem_of_nil in Hr.
  - rewrite !andb_true_iff. intros (((((_ & _) & Hrow) & Hseen) & Htarget) & Hrest). apply negb_true_iff, bool_decide_eq_false in Hseen.
    destruct (IH _ Hrest) as (Hall & Hn & Hs). split_and!.
    + intros r [->|Hr]%elem_of_cons; [done|by apply Hall].
    + constructor; [|done]. intros Hin. apply list_elem_of_In, in_map_iff in Hin as (r & Heq & Hr). apply list_elem_of_In in Hr.
      apply (Hs r Hr). rewrite Heq. constructor.
    + intros r [->|Hr]%elem_of_cons; [done|]. specialize (Hs r Hr). intros Hin. apply Hs. by constructor.
Qed.

Lemma insert_by_sequence_perm d l : insert_by_sequence d l ≡ₚ d :: l.
Proof using Type. induction l as [|e l IH]; cbn; [done|]. case_match; [done|]. rewrite IH. constructor. Qed.
Lemma sort_by_sequence_perm l : sort_by_sequence l ≡ₚ l.
Proof using Type. induction l as [|d l IH]; cbn; [done|]. rewrite insert_by_sequence_perm. by constructor. Qed.

Lemma one_marker rows : py_eq (count_rows is_marker_row rows) (VInt 1) = true ->
  forall row row', row ∈ rows -> row' ∈ rows -> is_marker_row row = true -> is_marker_row row' = true -> row = row'.
Proof using Type.
  unfold count_rows. intros Hc%Z.eqb_eq row row' Hr Hr' Hm Hm'.
  assert (Hin : forall r, r ∈ rows -> is_marker_row r = true -> In r (List.filter is_marker_row rows)) by (intros r Hx Hy; apply filter_In; split; [by apply list_elem_of_In|done]).
  pose proof (Hin _ Hr Hm) as H2. pose proof (Hin _ Hr' Hm') as H3. destruct (List.filter is_marker_row rows) as [|x [|y l]]; [done| |cbn in Hc; lia].
  destruct H2 as [<-|[]], H3 as [<-|[]]. done.
Qed.
Lemma record_set_spec id operation preimages rs : validated_record_set id operation preimages = Ok rs ->
  rs_operation_id rs = id /\ operation = Some (rs_operation rs) /\ rs_records rs = sort_by_sequence preimages /\ rows_ok (rs_operation rs) (rs_records rs) /\
  Z.of_nat (length preimages) = int_of (doc_get (rs_operation rs) "planned_preimage_count") /\ str_at (rs_operation rs) "_id" = id.
Proof using Type.
  unfold validated_record_set. intros Hr. result_inv. cbn. match goal with Hx : _validate_rollback_operation _ _ = Ok ?a, Hy : _validate_rollback_preimages _ _ = Ok ?b |- _ => rename a into o, b into rows, Hx into Ho, Hy into Hrows end.
  assert (Heq : operation = Some o /\ str_at o "_id" = id).
  { unfold _validate_rollback_operation in Ho. destruct operation as [o'|]; [|done]. destruct (operation_digest o'); [|done].
    destruct (has_fields _ _ && _) eqn:Hok; [|done]. injection Ho as <-. split; [done|]. apply andb_true_iff in Hok as [_ Hok]. unfold rollback_operation_ok in Hok.
    rewrite !andb_true_iff in Hok. repeat match goal with Hx : _ /\ _ |- _ => destruct Hx end.
    match goal with Hx : py_eq (doc_get o' "_id") _ = true |- _ => apply py_eq_str in Hx; unfold str_at; by rewrite Hx end. }
  destruct Heq as [-> Hid]. unfold _validate_rollback_preimages in Hrows. destruct (_ && _) eqn:Hv; [|done]. injection Hrows as <-.
  rewrite !andb_true_iff in Hv. destruct Hv as [[[[Hseq Hrows] Hone] _] Hlast]. apply rollback_rows_spec in Hrows as (Hall & Hn & _).
  split_and!; try done.
  - constructor; try done; [|by apply one_marker]. destruct (last (sort_by_sequence preimages)) as [row|] eqn:Hl; [|done].
    apply last_Some in Hl as [front Hf]. by exists front, row.
  - unfold sequences_ok in Hseq. apply andb_true_iff in Hseq as [Hlen%Z.eqb_eq _]. by rewrite <- Hlen, sort_by_sequence_perm.
Qed.

(** What a rollback of a committed operation relies on. *)
Record prepared_facts (rs : record_set) (marker : option doc) (documents : list doc) (plan : rollback_plan) (metrics : gmap string doc) : Prop := {
  pf_marker : exists m, marker = Some m /\ _validated_rollback_marker (rs_operation rs) (rs_records rs) marker = Ok m /\
    exists proof, _metric_proof_fingerprint (map_to_list metrics).*2 = Ok proof /\ doc_get m "proof_fingerprint" = VStr proof;
  pf_metrics : _validated_rollback_metrics (rs_operation rs) documents = Ok metrics;
  pf_undrifted : forall row, row ∈ rs_records rs -> is_metric_row row = true -> undrifted metrics row = true;
  pf_plan : exists front row mm ms, rs_records rs = front ++ [row] /\ _rollback_mutation row = Ok mm /\
    all_of _rollback_mutation (List.filter is_metric_row (rev front)) = Ok ms /\ rp_mutations plan = mm :: ms;
}.
Lemma prepare_spec rs marker documents plan mk metrics : rs_state rs = "committed"%string ->
  _prepare_rollback_record_set rs marker documents = Ok (plan, mk, metrics) -> prepared_facts rs marker documents plan metrics.
Proof using Type.
  unfold _prepare_rollback_record_set. intros ->. cbn [one_of existsb py_eq String.eqb Ascii.eqb Bool.eqb orb]. intros Hp. result_inv.
  destruct (negb _) eqn:Hproof in Hp; [done|]. destruct (negb _) eqn:Hun in Hp; [done|]. result_inv. apply negb_false_iff in Hproof, Hun.
  match goal with Hx : _validated_rollback_marker _ _ _ = Ok ?a, Hy : recast _ _ _ = Ok ?b |- _ => rename a into m, b into proof end.
  destruct (last (rs_records rs)) as [row|] eqn:Hl; [|done]. apply last_Some in Hl as [front Hf].
  constructor.
  - assert (Hm : marker = Some m). { match goal with Hx : _validated_rollback_marker _ _ _ = Ok m |- _ => unfold _validated_rollback_marker in Hx;
      destruct (last _); [|done]; destruct marker; [|done]; destruct (_ && _); [by injection Hx as <-|done] end. }
    exists m. split_and!; [done|done|]. exists proof. split.
    + match goal with Hx : recast _ _ ?r = Ok proof |- _ => unfold recast in Hx; destruct r as [q|e] eqn:Hq; [|by destruct (String.eqb _ _)]; by injection Hx as -> end.
    + destruct (doc_get m "proof_fingerprint"); try done. cbn in Hproof. by apply String.eqb_eq in Hproof as ->.
  - done.
  - intros r Hr Hm. rewrite forallb_forall in Hun. apply Hun, filter_In. split; [by apply list_elem_of_In|done].
  - exists front, row. rewrite Hf, removelast_last in *. eexists _, _. split_and!; [done|eassumption|eassumption|done].
Qed.
End Backward.

(** What the rollback transactions of the stock-time engine commit: the targets
    restored and the operation [rolled_back], or, after a drift, the operation
    [rollback_blocked] and its marker stale. *)

Section Steps.
Context `{PyRepr} `{Sha256} `{Bson}.
Implicit Types (s : time_db) (o : doc).

Definition committed_set (id : string) (s : time_db) (rs : record_set) : Prop :=
  validated_record_set id (operation_of id s) (preimages_of id s) = Ok rs /\ rs_state rs = "committed"%string.

Record rollback_step (id : string) (rs : record_set) (plan : rollback_plan) (metrics : gmap string doc) (s s' : time_db) : Prop := {
  bs_set : committed_set id s rs;
  bs_prepared : prepared_facts rs (owned_marker (rs_operation rs) s) (metrics_of (rs_operation rs) s) plan metrics;
  bs_metrics : _exact_preimages_match (metrics_of (rs_operation rs) s') (_rollback_baseline metrics plan) = true;
  bs_marker : _exact_preimages_match (option_list (owned_marker (rs_operation rs) s')) (option_list (_marker_restoration plan)) = true;
  bs_operation : operation_updated id rolled_back_stage s s';
  bs_preimages : db_preimages s' = db_preimages s;
  bs_kept : well_kept (db_metrics s) -> well_kept (db_metrics s');
  bs_other_metrics : forall i d, db_metrics s !! i = Some d -> in_scope (_rollback_binding (rs_operation rs)) d = false -> db_metrics s' !! i = Some d;
  bs_other_markers : forall i d, db_markers s !! i = Some d -> not_named (marker_id (str_at (rs_operation rs) "seller_id")) d = true -> db_markers s' !! i = Some d;
}.
Record block_step (id : string) (s s' : time_db) : Prop := {
  ks_set : exists rs, committed_set id s rs /\
    (db_markers s' = db_markers s \/ exists j e m blocked, db_markers s !! j = Some e /\ owned_marker (rs_operation rs) s = Some m /\
       _validated_rollback_marker (rs_operation rs) (rs_records rs) (Some m) = Ok m /\ matches 0 (_full_document_selector m) e = true /\
       db_markers s' = <[j := apply_stage 0 (stale_stage blocked) e]> (db_markers s));
  ks_operation : operation_updated id blocked_stage s s';
  ks_metrics : db_metrics s' = db_metrics s;
  ks_preimages : db_preimages s' = db_preimages s;
}.

Lemma record_set_transaction id s : twp (_transaction_rollback_record_set id)
  (fun rs s' => s' = s /\ validated_record_set id (operation_of id s) (preimages_of id s) = Ok rs) s.
Proof using Type. unfold _transaction_rollback_record_set. by repeat tx_step. Qed.
Lemma same_committed a b : same_records a b = true -> rs_state a = "committed"%string.
Proof using Type. unfold same_records. rewrite !andb_true_iff. intros [[Hs _] _]. by apply String.eqb_eq. Qed.

Lemma plan_aimed rs opn pre' plan metrics marker documents : validated_record_set (rs_operation_id rs) opn pre' = Ok rs ->
  prepared_facts rs marker documents plan metrics -> forall m, m ∈ rp_mutations plan -> aimed (rs_operation rs) m.
Proof using Type.
  intros Hset%record_set_spec Hpf m Hm Hc. destruct Hset as (_ & _ & _ & Hrows & _). destruct (pf_plan _ _ _ _ _ Hpf) as (front & row & mm & ms & Hf & Hmm & Hms & Hplan).
  assert (Hrow : forall r x, _rollback_mutation r = Ok x -> rm_target_collection x = (row_target r).1 /\ rm_target_id x = (row_target r).2).
  { intros r x. unfold _rollback_mutation. destruct (inverse _); [|done]. by intros [= <-]. }
  rewrite Hplan in Hm. apply elem_of_cons in Hm as [->|Hm].
  - destruct (Hrow _ _ Hmm) as [H1' ->]. destruct (ro_row _ _ Hrows row) as [_ Ht]; [rewrite Hf; apply elem_of_app; right; constructor|].
    unfold rollback_target_ok in Ht. rewrite <- H1', Hc in Ht. unfold marker_row_ok in Ht. rewrite !andb_true_iff in Ht. destruct Ht as [[Ht _] _]. by apply String.eqb_eq.
  - exfalso. apply all_of_Forall2 in Hms. apply list_elem_of_In in Hm. apply List.Forall2_flip in Hms.
    assert (Hx : exists r, In r (List.filter is_metric_row (rev front)) /\ _rollback_mutation r = Ok m).
    { clear -Hms Hm. induction Hms as [|x y l l' Hxy _ IH]; [done|]. destruct Hm as [->|Hm]; [exists y; split; [by left|done]|]. destruct (IH Hm) as (r & Hr & Hv). exists r. split; [by right|done]. }
    destruct Hx as (r & Hr & Hv). apply filter_In in Hr as [_ Hr]. destruct (Hrow _ _ Hv) as [H1' _]. unfold is_metric_row in Hr.
    apply String.eqb_eq in Hr. rewrite H1', Hr in Hc. done.
Qed.

Lemma operation_update_spec id fs stage now s : (forall e, matches now (FAnd fs) e = true -> match_eq e ["_id"%string] (VStr id) = true) ->
  twp (update_set Operations now (FAnd fs) stage) (fun r s' => r = (0, 0) \/
    operation_updated id stage s s' /\ db_metrics s' = db_metrics s /\ db_preimages s' = db_preimages s /\ db_markers s' = db_markers s) s.
Proof using Type.
  intros Hid. eapply twp_mono; [apply update_set_spec|]. cbv beta. intros r s' [(_ & i & e & Hi & Hm & ->)|[-> _]]; [|by left]. right. split_and!; try done.
  exists now, i, e. split_and!; [done|by apply Hid|done].
Qed.
Lemma close_spec clock rs s : str_at (rs_operation rs) "_id" = rs_operation_id rs -> is_str (doc_get (rs_operation rs) "_id") = true ->
  twp (close_operation clock rs) (fun _ s' => operation_updated (rs_operation_id rs) rolled_back_stage s s' /\
    db_metrics s' = db_metrics s /\ db_preimages s' = db_preimages s /\ db_markers s' = db_markers s) s.
Proof using Type.
  intros Hid Hstr. unfold close_operation. cbv zeta. tx_step. tx_use (operation_update_spec (rs_operation_id rs)).
  - intros e Hm. cbn [_rollback_operation_identity map app fields_filter matches forallb fst snd] in Hm. apply andb_true_iff in Hm as [Hm _].
    rewrite <- Hid. unfold str_at. by destruct (doc_get (rs_operation rs) "_id").
  - intros [m u] s1 [[= -> ->]|Hu]; [by tx_step|]. repeat tx_step. done.
Qed.

Lemma operation_id_str id o : _validate_rollback_operation (Some o) id = Ok o -> doc_get o "_id" = VStr id.
Proof using Type.
  unfold _validate_rollback_operation. destruct (operation_digest o); [|done]. destruct (_ && _) eqn:Hv; [|done]. intros _.
  unfold rollback_operation_ok in Hv. rewrite !andb_true_iff in Hv. repeat match goal with Hx : _ /\ _ |- _ => destruct Hx end. by apply py_eq_str.
Qed.
Lemma record_set_operation id operation pre rs : validated_record_set id operation pre = Ok rs -> doc_get (rs_operation rs) "_id" = VStr id.
Proof using Type.
  intros Hs. destruct (record_set_spec _ _ _ _ Hs) as (_ & -> & _). unfold validated_record_set in Hs. result_inv. by apply operation_id_str.
Qed.

Lemma rollback_tx_spec clock majority s : twp (rollback_tx clock majority)
  (fun rv s' => exists plan metrics, rollback_step (rs_operation_id majority) (rv_record_set rv) plan metrics s s') s.
Proof using Type.
  unfold rollback_tx. tx_use (record_set_transaction (rs_operation_id majority) s). intros rs s1 [-> Hset]. tx_step. cbv zeta. tx_step. tx_step.
  destruct a as [[plan mk] metrics]. match goal with Hx : _prepare_rollback_record_set _ _ _ = _ |- _ => rename Hx into Hprep end.
  match goal with Hx : same_records _ _ = true |- _ => pose proof (same_committed _ _ Hx) as Hst end. apply prepare_spec in Hprep; [|done].
  destruct (record_set_spec _ _ _ _ Hset) as (Hid & _ & _ & _ & _ & Hoid). pose proof (record_set_operation _ _ _ _ Hset) as Hdoc.
  tx_use (apply_mutations_spec (rs_operation rs)); [eapply plan_aimed; [rewrite Hid; exact Hset|exact Hprep]|]. intros _ s2 (Hp & Ho & Hk & Hm & Hf).
  tx_step. tx_step. tx_step. tx_step. tx_use (close_spec clock rs s2); [by rewrite Hoid|by rewrite Hdoc|]. intros _ s3 (Hu & H3m & H3p & H3k).
  tx_step. exists plan, metrics. constructor; try done; cbn.
  - unfold metrics_of, _metric_interval_documents, StockTimeEngine.find, hits. cbn [docs]. by rewrite H3m.
  - unfold owned_marker, marker_of, find_one, StockTimeEngine.find, hits. cbn [docs]. by rewrite H3k.
  - rewrite Hid in Hu. unfold operation_updated in *. by rewrite Ho in Hu.
  - by rewrite H3p.
  - rewrite H3m. done.
  - rewrite H3m. done.
  - rewrite H3k. done.
Qed.

Lemma quarantine_spec rs blocked s : twp (quarantine_marker rs blocked) (fun _ s' =>
  db_metrics s' = db_metrics s /\ db_preimages s' = db_preimages s /\ db_operations s' = db_operations s /\
  (db_markers s' = db_markers s \/ exists j e m, db_markers s !! j = Some e /\ owned_marker (rs_operation rs) s = Some m /\
     _validated_rollback_marker (rs_operation rs) (rs_records rs) (Some m) = Ok m /\ matches 0 (_full_document_selector m) e = true /\
     db_markers s' = <[j := apply_stage 0 (stale_stage blocked) e]> (db_markers s))) s.
Proof using Type.
  unfold quarantine_marker. cbv zeta. tx_step. destruct (_validated_rollback_marker _ _ _) as [m|x] eqn:Hv; [|tx_step; split_and!; try done; by left].
  tx_use update_set_spec. intros [n u] s1 Hu. repeat tx_step. destruct Hu as [(_ & j & e & Hj & Hm & ->)|[[= -> ->] _]]; [|done]. split_and!; try done. right. exists j, e, m.
  assert (Hs : owned_marker (rs_operation rs) s = Some m).
  { unfold _validated_rollback_marker in Hv. destruct (last _); [|done]. destruct (owned_marker _ s); [|done]. destruct (_ && _); [by injection Hv as <-|done]. }
  rewrite Hs in Hv. done.
Qed.
Lemma finalize_tx_spec clock majority s : twp (finalize_tx clock majority) (fun _ s' => block_step (rs_operation_id majority) s s') s.
Proof using Type.
  unfold finalize_tx. tx_use (record_set_transaction (rs_operation_id majority) s). intros rs s1 [-> Hset]. tx_step. cbv zeta. tx_step.
  match goal with Hx : same_records _ _ = true |- _ => pose proof (same_committed _ _ Hx) as Hst end.
  pose proof (record_set_operation _ _ _ _ Hset) as Hdoc. tx_use (operation_update_spec (rs_operation_id majority)).
  { intros e Hm. unfold _full_document_selector in Hm. cbn [matches] in Hm. rewrite forallb_forall in Hm. unfold doc_get in Hdoc.
    destruct (rs_operation rs !! "_id"%string) as [v|] eqn:Hv; [|done]. cbn in Hdoc. subst v.
    apply (Hm (FEq ["_id"%string] (VStr (rs_operation_id majority)))). unfold fields_filter. apply in_map_iff. exists ("_id"%string, VStr (rs_operation_id majority)).
    split; [done|]. by apply list_elem_of_In, elem_of_map_to_list. }
  intros [n u] s1 [[= -> ->]|(Hu & H1m & H1p & H1k)]; [by tx_step|]. tx_step. tx_step. tx_step. tx_use quarantine_spec. intros mk s2 (H2m & H2p & H2o & H2k).
  repeat tx_step. constructor.
  - exists rs. split; [done|]. rewrite H1k in H2k. destruct H2k as [->|(j & e & m & Hj & Ho & Hv & Hm & Hs)]; [by left|]. right. exists j, e, m, a.
    split_and!; try done. revert Ho. unfold owned_marker, marker_of, find_one, StockTimeEngine.find, hits. cbn [docs]. by rewrite H1k.
  - unfold operation_updated in *. by rewrite H2o.
  - by rewrite H2m.
  - by rewrite H2p.
Qed.
End Steps.
