(* ===== verification/StockTimeRoundTrip.v ===== *)
(** A rollback after a forward operation restores what the operation found. *)

From S2P Require Export StockTimeRestore.

#[local] Open Scope Z_scope.

(** ** Lists without repetition *)

Lemma NoDup_map_filter {A B} (f : A -> B) (q : A -> bool) l : NoDup (map f l) -> NoDup (map f (List.filter q l)).
Proof.
  induction l as [|x l IH]; cbn; [done|]. intros Hn. inversion_clear Hn as [|? ? Hx Hn']. destruct (q x); [|by apply IH].
  cbn. constructor; [|by apply IH]. intros Hin. apply Hx. apply list_elem_of_In, in_map_iff in Hin as (y & Hy & Hf). apply filter_In in Hf as [Hf _].
  apply list_elem_of_In, in_map_iff. by exists y.
Qed.
Lemma NoDup_snd {A B C} (f : A -> B * C) b l : NoDup (map f l) -> (forall x, x ∈ l -> (f x).1 = b) -> NoDup (map (fun x => (f x).2) l).
Proof.
  intros Hn Hb. induction l as [|x l IH]; cbn in *; [constructor|]. inversion_clear Hn as [|? ? Hx Hn'].
  constructor; [|apply IH; [done|intros y Hy; apply Hb; by constructor]]. intros Hin. apply Hx. apply list_elem_of_In, in_map_iff in Hin as (y & Hy & Hin).
  apply list_elem_of_In, in_map_iff. exists y. split; [|done]. apply list_elem_of_In in Hin.
  pose proof (Hb y ltac:(by constructor)) as Hy1. pose proof (Hb x ltac:(constructor)) as Hx1. destruct (f x), (f y); cbn in *; congruence.
Qed.

(** ** Documents chosen by actions *)

Lemma by_id_omap (g : stock_action -> option doc) acts : NoDup (map a_target_id acts) ->
  (forall a d, a ∈ acts -> g a = Some d -> id_of d = a_target_id a) ->
  (forall a, a ∈ acts -> by_id (omap g acts) !! a_target_id a = option_map encode_doc (g a)) /\
  (forall i, i ∉ map a_target_id acts -> by_id (omap g acts) !! i = None).
Proof.
  induction acts as [|a acts IH]; intros Hn Hg.
  { split; [intros a Ha; by apply not_elem_of_nil in Ha|]. intros i _. done. }
  cbn [map] in *. inversion_clear Hn as [|? ? Ha Hn']. destruct IH as [IH1 IH2]; [done|intros b d Hb; apply Hg; by constructor|].
  assert (Hcons : by_id (omap g (a :: acts)) = match g a with Some d => <[a_target_id a := encode_doc d]> (by_id (omap g acts)) | None => by_id (omap g acts) end).
  { cbn. destruct (g a) as [d|] eqn:Hd; [|done]. unfold by_id. cbn. by rewrite (Hg a d ltac:(constructor) Hd). }
  rewrite Hcons. split.
  - intros b [->|Hb]%elem_of_cons.
    + destruct (g a); [by rewrite lookup_insert_eq|]. by apply IH2.
    + assert (a_target_id a <> a_target_id b). { intros Heq. apply Ha. rewrite Heq. apply list_elem_of_In, in_map. by apply list_elem_of_In. }
      destruct (g a); [rewrite lookup_insert_ne by done|]; by apply IH1.
  - intros i Hi. rewrite not_elem_of_cons in Hi. destruct Hi as [Hne Hi]. destruct (g a); [rewrite lookup_insert_ne by done|]; by apply IH2.
Qed.

(** ** The inverse, target by target *)

Definition restored (m : rollback_mutation) (before : option doc) : option doc :=
  if String.eqb (rm_action m) "delete" then None else match rm_restoration m with Some d => Some d | None => before end.
Lemma restore_lookup ms M i : NoDup (map rm_target_id ms) ->
  (forall m, m ∈ ms -> rm_target_id m = i -> foldl restore_metric M ms !! i = restored m (M !! i)) /\
  (i ∉ map rm_target_id ms -> foldl restore_metric M ms !! i = M !! i).
Proof.
  assert (Hne : forall m M, rm_target_id m <> i -> restore_metric M m !! i = M !! i).
  { intros m N Hi. unfold restore_metric. case_match; [by rewrite lookup_delete_ne|]. case_match; [by rewrite lookup_insert_ne|done]. }
  assert (Heq : forall m M, rm_target_id m = i -> restore_metric M m !! i = restored m (M !! i)).
  { intros m N <-. unfold restore_metric, restored. case_match; [by rewrite lookup_delete_eq|]. case_match; [by rewrite lookup_insert_eq|done]. }
  revert M. induction ms as [|m ms IH]; intros M Hn; cbn [map foldl].
  { split; [intros m Hm; by apply not_elem_of_nil in Hm|done]. }
  cbn [map] in Hn. inversion_clear Hn as [|? ? Hm Hn']. destruct (IH (restore_metric M m) Hn') as [IH1 IH2]. split.
  - intros m' [->|Hm']%elem_of_cons Hi; [rewrite IH2 by (by rewrite <- Hi); by apply Heq|]. rewrite (IH1 m' Hm' Hi). f_equal. apply Hne. intros Hx.
    apply Hm. rewrite Hx, <- Hi. apply list_elem_of_In, in_map. by apply list_elem_of_In.
  - rewrite not_elem_of_cons. intros [Hi Hi']. rewrite IH2 by done. apply Hne. congruence.
Qed.

Section RoundTrip.
Context `{PyRepr} `{Sha256} `{ExactBson}.
Implicit Types (s : time_db) (o : doc).

Lemma same_option (x y : option doc) : same_docs (option_list x) (option_list y) -> option_map encode_doc x = option_map encode_doc y.
Proof using Type.
  unfold same_docs. destruct x as [x|], y as [y|]; cbn; intros Hp; try done.
  - apply Permutation_singleton_r in Hp. by injection Hp as ->.
  - apply Permutation_length in Hp. done.
  - apply Permutation_length in Hp. done.
Qed.

(** ** The metrics a rollback reads *)

Lemma rollback_metrics_spec o m ds m' : rollback_metrics o m ds = Ok m' ->
  forall i d, m' !! i = Some d <-> m !! i = Some d \/ d ∈ ds /\ doc_get d "_id" = VStr i.
Proof using Type.
  revert m. induction ds as [|d ds IH]; intros m; cbn [rollback_metrics].
  { intros [= <-] i d. split; [by left|]. intros [Hm|[Hd _]]; [done|]. by apply not_elem_of_nil in Hd. }
  destruct (doc_get d "_id") as [| | |j| | |] eqn:Hd; try done. destruct (_canonical_bson_bytes d); [|done].
  destruct (_ || _) eqn:Hb; [done|]. rewrite !orb_false_iff in Hb. destruct Hb as [[_ Hfree] _]. intros Hr i e. rewrite (IH _ Hr i e), elem_of_cons.
  assert (Hj : m !! j = None) by by destruct (m !! j). destruct (decide (i = j)) as [->|Hne].
  - rewrite lookup_insert_eq, Hj. split; [intros [[= <-]|[He Hi]]; right; [split; [by left|done]|split; [by right|done]]|].
    intros [?|[[->|He] Hi]]; [done|by left|by right].
  - rewrite lookup_insert_ne by congruence. split; [intros [He|[He Hi]]; [by left|right; split; [by right|done]]|].
    intros [He|[[->|He] Hi]]; [by left| |by right]. rewrite Hd in Hi. by injection Hi as ->.
Qed.
Lemma rollback_metrics_scoped o s m : well_kept (db_metrics s) -> _validated_rollback_metrics o (metrics_of o s) = Ok m ->
  encode_doc <$> m = scoped (_rollback_binding o) s /\ forall i d, m !! i = Some d -> doc_get d "_id" = VStr i.
Proof using Type.
  intros Hk Hm. pose proof (rollback_metrics_spec _ _ _ _ Hm) as Hs.
  assert (Hdoc : forall d, d ∈ metrics_of o s <-> exists j e, scoped (_rollback_binding o) s !! j = Some e /\ d = decode_doc true e).
  { intros d. unfold metrics_of, _metric_interval_documents. rewrite find_elem. unfold scoped. setoid_rewrite map_lookup_filter_Some. cbn [docs]. naive_solver. }
  split.
  - apply map_eq. intros i. rewrite lookup_fmap. destruct (m !! i) as [d|] eqn:Hi; cbn.
    + apply Hs in Hi as [Hi|[Hi Hd]]; [by rewrite lookup_empty in Hi|]. apply Hdoc in Hi as (j & e & Hj & ->).
      pose proof Hj as Hj'. apply map_lookup_filter_Some in Hj' as [Hj' _]. destruct (Hk _ _ Hj') as [Hid He].
      rewrite (well_kept_decode _ _ _ Hk Hj'). apply doc_id_get in Hd. rewrite doc_id_decode, Hid in Hd. by injection Hd as ->.
    + destruct (scoped _ s !! i) as [e|] eqn:He; [|done]. exfalso. pose proof He as He'. apply map_lookup_filter_Some in He' as [He' _].
      destruct (Hk _ _ He') as [Hid _]. assert (Hx : m !! i = Some (decode_doc true e)); [|by rewrite Hi in Hx].
      apply Hs. right. split; [apply Hdoc; by exists i, e|]. apply doc_id_get. by rewrite doc_id_decode.
  - intros i d Hi. apply Hs in Hi as [Hi|[_ Hi]]; [by rewrite lookup_empty in Hi|done].
Qed.

(** The documents of a map of named documents. *)
Lemma by_id_values (M : gmap string doc) : (forall i d, M !! i = Some d -> doc_get d "_id" = VStr i) -> by_id (map_to_list M).*2 = encode_doc <$> M.
Proof using Type.
  intros HM. apply by_id_docs.
  - intros i d Hi. rewrite lookup_fmap in Hi. destruct (M !! i) as [e|] eqn:He; [|done]. injection Hi as <-.
    split; [rewrite doc_id_encode; by apply doc_id_get, HM|apply encode_idem].
  - rewrite map_to_list_fmap. change (map encode_doc (map_to_list M).*2) with (encode_doc <$> (map_to_list M).*2). rewrite <- !list_fmap_compose. done.
Qed.

(** ** The records of the plan *)

Lemma match_same d k a : doc_get d k = VStr a -> match_eq d [k] (VStr a) = true.
Proof using Type.
  unfold doc_get, match_eq. cbn. destruct (d !! k) as [v|]; [|done]. cbn. intros ->. cbn. unfold meets. cbn. by rewrite String.eqb_refl.
Qed.
Definition str_of_field (r : doc) (k : string) (x : string) : Prop := doc_get r k = VStr x.
Lemma record_fields op created m r : preimage_record op created m = Ok r ->
  str_of_field r "operation_id" op /\ str_of_field r "target_collection" (m_target_collection m) /\ str_of_field r "target_id" (m_target_id m) /\
  str_of_field r "action" (m_action m) /\ doc_get r "preimage" = opt_doc (option_map canonical (m_preimage m)).
Proof using Type.
  unfold preimage_record. intros Hr. result_inv. unfold str_of_field, mk_doc. cbn [foldl fst snd]. split_and!; by doc_simp.
Qed.
(** A row read back from the record of a mutation. *)
Definition row_for (m : mutation) (row : doc) : Prop :=
  row_target row = (m_target_collection m, m_target_id m) /\ row_action row = m_action m /\
  option_map encode_doc (opt_of (doc_get row "preimage")) = option_map encode_doc (m_preimage m).
Lemma record_row op created m r : preimage_record op created m = Ok r -> row_for m (decode_doc true (encode_doc r)).
Proof using Type.
  intros Hr. destruct (record_fields _ _ _ _ Hr) as (_ & Hc & Hi & Ha & Hp). unfold str_of_field in *.
  unfold row_for, row_target, row_action, str_at. rewrite !decode_get, !encode_get, Hc, Hi, Ha, Hp. cbn. split_and!; try done.
  destruct (m_preimage m) as [q|]; [|done]. cbn. f_equal. change (encode_doc (decode_doc true (encode_doc (canonical q))) = encode_doc q).
  fold (canonical (encode_doc (canonical q))). by rewrite encode_canonical, encode_idem, encode_canonical.
Qed.

Section Restored.
Variables (p : sealed_plan) (c : operation_context) (s s1 s2 : time_db).
Variables (rs : record_set) (plan : rollback_plan) (metrics : gmap string doc).
Hypothesis Hp : plan_ok p.
Hypothesis Hf : forward_step p c s s1.
Hypothesis Hr : rollback_step (sp_operation_id p) rs plan metrics s1 s2.

Lemma set_spec : operation_of (sp_operation_id p) s1 = Some (rs_operation rs) /\ rs_records rs = sort_by_sequence (preimages_of (sp_operation_id p) s1) /\
  rows_ok (rs_operation rs) (rs_records rs) /\
  Z.of_nat (length (preimages_of (sp_operation_id p) s1)) = int_of (doc_get (rs_operation rs) "planned_preimage_count").
Proof using Hr. destruct (bs_set _ _ _ _ _ _ Hr) as [Hs _]. destruct (record_set_spec _ _ _ _ Hs) as (_ & ? & ? & ? & ? & _). done. Qed.

(** The stored operation is the one the plan binds. *)
Lemma operation_bound : _rollback_binding (rs_operation rs) = sp_binding p /\ str_at (rs_operation rs) "seller_id" = b_seller_id (sp_binding p) /\
  int_of (doc_get (rs_operation rs) "planned_preimage_count") = Z.of_nat (length (sp_mutations p)).
Proof using Hp Hf Hr.
  destruct (fs_committed _ _ _ _ Hf) as (o & Ho & Hv). destruct set_spec as (Ho' & _). rewrite Ho in Ho'. injection Ho' as ->.
  unfold _validated_committed_operation in Hv. unfold recast in Hv. destruct (_validate_persisted_operation _ _) as [q|x] eqn:Hq; [|by destruct (String.eqb (exn_cls x) _)].
  clear Hv. unfold _validate_persisted_operation in Hq. destruct (operation_schema_ok _) eqn:Hschema; [|done]. cbn [negb] in Hq. destruct (differs _ _) eqn:Hd; [done|]. clear Hq.
  assert (Hfield : forall k v, In (k, v) (_operation_immutable p) -> py_eq (doc_get (rs_operation rs) k) v = true).
  { intros k v Hin. apply negb_false_iff. apply not_true_iff_false. intros Hx. apply not_true_iff_false in Hd. apply Hd. apply existsb_exists. by exists (k, v). }
  assert (Hstr : forall k x, In (k, VStr x) (_operation_immutable p) -> str_at (rs_operation rs) k = x).
  { intros k x Hin. unfold str_at. by rewrite (proj1 (py_eq_str _ _) (Hfield _ _ Hin)). }
  assert (Hdate : forall k x, In (k, VDate true x) (_operation_immutable p) -> date_of (doc_get (rs_operation rs) k) = x).
  { intros k x Hin. specialize (Hfield _ _ Hin). destruct (doc_get (rs_operation rs) k); try done. cbn in Hfield. destruct aware; [|done]. by apply Z.eqb_eq in Hfield. }
  split_and!.
  - unfold _rollback_binding. destruct (sp_binding p) as [sel df dt sf pf] eqn:Hb.
    rewrite (Hstr "seller_id"%string sel), (Hdate "date_from"%string df), (Hdate "date_to"%string dt), (Hstr "source_fingerprint"%string sf),
      (Hstr "plan_fingerprint"%string pf); [done|unfold _operation_immutable, exact_binding; rewrite Hb; cbn; tauto..].
  - apply Hstr. unfold _operation_immutable, exact_binding. cbn. tauto.
  - rewrite <- (po_count p Hp). assert (Hin : In ("planned_preimage_count"%string, VInt (planned_preimage_count (sp_ledger_counts p))) (_operation_immutable p))
      by (unfold _operation_immutable, exact_binding; cbn; tauto).
    specialize (Hfield _ _ Hin). unfold operation_schema_ok in Hschema. rewrite !andb_true_iff in Hschema. cbn [forallb] in Hschema.
    rewrite !andb_true_iff in Hschema. destruct Hschema as [[[_ (_ & _ & _ & Hint & _)] _] _].
    unfold int_of. destruct (doc_get (rs_operation rs) "planned_preimage_count"); try done. by apply Z.eqb_eq in Hfield.
Qed.

(** ** The rows of a rollback are the records of the plan *)

Lemma rows_records : exists records o, _preimage_records p (doc_get o "lease_acquired_at") = Ok records /\
  forall row, row ∈ rs_records rs <-> exists r, r ∈ records /\ row = decode_doc true (encode_doc r).
Proof using Hp Hf Hr.
  destruct (fs_owner _ _ _ _ Hf) as (now & o & records & _ & Hrec & Hn & _ & Hpre). exists records, o. split; [done|].
  pose proof (all_of_Forall2 _ _ _ Hrec) as Hall. destruct set_spec as (_ & Hrows & _ & Hlen). destruct operation_bound as (_ & _ & Hcount).
  set (mine := fun id : string * doc => matches 0 (FEq ["operation_id"%string] (VStr (sp_operation_id p))) id.2 = true).
  assert (Hsub : by_id records ⊆ base.filter mine (db_preimages s1)).
  { apply map_subseteq_spec. intros i d Hi. apply map_lookup_filter_Some. rewrite Hpre. split; [by apply lookup_union_Some_l|].
    apply elem_of_list_to_map_2 in Hi. apply list_elem_of_In, in_map_iff in Hi as (r & [= _ <-] & Hin). apply list_elem_of_In in Hin.
    destruct (list_elem_of_lookup_1 _ _ Hin) as [k Hk]. destruct (Forall2_lookup_r _ _ _ _ _ Hall Hk) as (m & _ & Hm).
    destruct (record_fields _ _ _ _ Hm) as (Hop & _). unfold mine. cbn [matches snd]. apply match_same. by rewrite encode_get, Hop. }
  assert (Hsize : size (by_id records) = length records).
  { unfold by_id. rewrite <- (length_map (fun d => (id_of d, encode_doc d)) records), <- length_map_to_list. apply Permutation_length, map_to_list_to_map.
    change (NoDup (map fst (map (fun d => (id_of d, encode_doc d)) records))). by rewrite map_map. }
  assert (Hlen2 : size (base.filter mine (db_preimages s1)) = length (preimages_of (sp_operation_id p) s1)).
  { unfold preimages_of, StockTimeEngine.find. rewrite length_map, <- length_map_to_list. apply Permutation_length, NoDup_Permutation;
      [apply NoDup_map_to_list|apply NoDup_ListNoDup, List.NoDup_filter, NoDup_ListNoDup, NoDup_map_to_list|].
    intros [i d]. rewrite elem_of_map_to_list, hit_spec, map_lookup_filter_Some. done. }
  assert (Heq : by_id records = base.filter mine (db_preimages s1)).
  { apply map_subseteq_size_eq; [done|]. pose proof (Forall2_length _ _ _ Hall). rewrite Hlen2, Hsize. lia. }
  intros row. rewrite Hrows, sort_by_sequence_perm. unfold preimages_of. rewrite find_elem. split.
  - intros (i & e & Hi & Hm & ->). cbn [docs] in Hi. assert (Hx : by_id records !! i = Some e) by (rewrite Heq; by apply map_lookup_filter_Some).
    apply elem_of_list_to_map_2, list_elem_of_In, in_map_iff in Hx as (r & [= _ <-] & Hin). exists r. split; [by apply list_elem_of_In|done].
  - intros (r & Hin & ->). exists (id_of r), (encode_doc r). pose proof (by_id_lookup _ _ Hn Hin) as Hx. rewrite Heq in Hx.
    apply map_lookup_filter_Some in Hx as [Hx Hm]. split_and!; done.
Qed.
Lemma row_mutation row : row ∈ rs_records rs -> exists m, m ∈ sp_mutations p /\ row_for m row.
Proof using Hp Hf Hr.
  destruct rows_records as (records & o & Hrec & Hrows). intros (r & Hin & ->)%Hrows. apply all_of_Forall2 in Hrec.
  destruct (list_elem_of_lookup_1 _ _ Hin) as [k Hk]. destruct (Forall2_lookup_r _ _ _ _ _ Hrec Hk) as (m & Hm & Hr').
  exists m. split; [by eapply list_elem_of_lookup_2|by eapply record_row].
Qed.
Lemma mutation_row m : m ∈ sp_mutations p -> exists row, row ∈ rs_records rs /\ row_for m row.
Proof using Hp Hf Hr.
  destruct rows_records as (records & o & Hrec & Hrows). intros Hin. apply all_of_Forall2 in Hrec.
  destruct (list_elem_of_lookup_1 _ _ Hin) as [k Hk]. destruct (Forall2_lookup_l _ _ _ _ _ Hrec Hk) as (r & Hr' & Hm).
  exists (decode_doc true (encode_doc r)). split; [|by eapply record_row]. apply Hrows. exists r. split; [by eapply list_elem_of_lookup_2|done].
Qed.

(** ** Target by target *)

Lemma final_named a d : a ∈ ap_actions (sp_action_plan p) -> final_of (sp_operation_id p) a = Some d -> id_of d = a_target_id a.
Proof using Hp.
  intros Ha Hd. destruct (po_actions p Hp a Ha) as [_ Hid]. unfold final_of in Hd. unfold id_of, str_at.
  destruct (String.eqb (a_action a) "no-op"); [by rewrite (Hid d (or_intror Hd))|]. destruct (String.eqb (a_action a) "delete"); [done|].
  destruct (a_document a) as [x|] eqn:Hx; [|done]. destruct (_operation_revision _ _ _ _); [|done]. injection Hd as <-.
  unfold canonical. rewrite decode_get, doc_get_insert_ne by done. by rewrite (Hid x (or_introl eq_refl)).
Qed.
Lemma preimage_named a d : a ∈ ap_actions (sp_action_plan p) -> a_preimage a = Some d -> id_of d = a_target_id a.
Proof using Hp. intros Ha Hd. destruct (po_actions p Hp a Ha) as [_ Hid]. unfold id_of, str_at. by rewrite (Hid d (or_intror Hd)). Qed.

(** The metric mutations are the changed actions. *)
Lemma mutation_action m : m ∈ sp_mutations p -> m_target_collection m = METRIC_COLLECTION ->
  exists a, a ∈ ap_actions (sp_action_plan p) /\ is_change a = true /\ mutation_of a m.
Proof using Hp.
  destruct (po_mutations p Hp) as (ms & lm & -> & Hall & Hc & _). rewrite elem_of_app, list_elem_of_singleton. intros [Hm| ->] Hcoll; [|by rewrite Hcoll in Hc].
  destruct (list_elem_of_lookup_1 _ _ Hm) as [k Hk]. destruct (Forall2_lookup_r _ _ _ _ _ Hall Hk) as (a & Ha & Hma). exists a.
  apply list_elem_of_lookup_2, list_elem_of_In, filter_In in Ha as [Ha Hch]. split; [by apply list_elem_of_In|done].
Qed.
Lemma action_mutation a : a ∈ ap_actions (sp_action_plan p) -> is_change a = true -> exists m, m ∈ sp_mutations p /\ mutation_of a m.
Proof using Hp.
  destruct (po_mutations p Hp) as (ms & lm & -> & Hall & _). intros Ha Hch.
  assert (Hin : a ∈ List.filter is_change (ap_actions (sp_action_plan p))) by (apply list_elem_of_In, filter_In; split; [by apply list_elem_of_In|done]).
  destruct (list_elem_of_lookup_1 _ _ Hin) as [k Hk]. destruct (Forall2_lookup_l _ _ _ _ _ Hall Hk) as (m & Hm & Hma). exists m.
  split; [apply elem_of_app; left; by eapply list_elem_of_lookup_2|done].
Qed.

(** The mutations of the rollback, by target. *)
Lemma rollback_of_row row m : _rollback_mutation row = Ok m -> rm_target_id m = (row_target row).2 /\ inverse (row_action row) = Some (rm_action m) /\
  rm_restoration m = if String.eqb (rm_action m) "delete" then None else opt_of (doc_get row "preimage").
Proof using Type. unfold _rollback_mutation. destruct (inverse (row_action row)); [|done]. by intros [= <-]. Qed.
Lemma target_inj a b : a ∈ ap_actions (sp_action_plan p) -> b ∈ ap_actions (sp_action_plan p) -> a_target_id a = a_target_id b -> a = b.
Proof using Hp.
  intros Ha Hb Heq. pose proof (po_ids p Hp) as Hn. destruct (list_elem_of_lookup_1 _ _ Ha) as [i Hi], (list_elem_of_lookup_1 _ _ Hb) as [j Hj].
  assert (i = j); [|congruence]. eapply (NoDup_lookup (map a_target_id (ap_actions (sp_action_plan p)))); [done| |].
  - change (map a_target_id (ap_actions (sp_action_plan p))) with (a_target_id <$> ap_actions (sp_action_plan p)). by rewrite list_lookup_fmap, Hi.
  - change (map a_target_id (ap_actions (sp_action_plan p))) with (a_target_id <$> ap_actions (sp_action_plan p)). by rewrite list_lookup_fmap, Hj, Heq.
Qed.

Definition metric_mutations_back : list rollback_mutation := tl (rp_mutations plan).
Lemma back_targets : NoDup (map rm_target_id metric_mutations_back) /\
  (forall m, m ∈ metric_mutations_back -> exists row, row ∈ rs_records rs /\ is_metric_row row = true /\ _rollback_mutation row = Ok m) /\
  (forall row, row ∈ rs_records rs -> is_metric_row row = true -> exists m, m ∈ metric_mutations_back /\ _rollback_mutation row = Ok m).
Proof using Hr.
  destruct set_spec as (_ & _ & Hrows & _). destruct (pf_plan _ _ _ _ _ (bs_prepared _ _ _ _ _ _ Hr)) as (front & last_ & mm & ms & Hrecs & _ & Hms & Hplan).
  unfold metric_mutations_back. rewrite Hplan. cbn [tl]. apply all_of_Forall2 in Hms. set (l := List.filter is_metric_row (rev front)) in *.
  assert (Hl : forall row, row ∈ l <-> row ∈ rs_records rs /\ is_metric_row row = true).
  { intros row. unfold l. rewrite list_elem_of_In, filter_In, <- in_rev, <- list_elem_of_In, Hrecs, elem_of_app, list_elem_of_singleton.
    destruct (ro_last _ _ Hrows) as (f' & r' & Heq & Hm). rewrite Hrecs in Heq. apply app_inj_tail in Heq as [_ <-].
    split; [tauto|]. intros [[Hx| ->] Hy]; [done|]. unfold is_marker_row, is_metric_row in *. apply String.eqb_eq in Hm, Hy. by rewrite Hy in Hm. }
  split_and!.
  - assert (Heq : map rm_target_id ms = map (fun row => (row_target row).2) l).
    { clear -Hms. induction Hms as [|row m l' ms' Hm _ IH]; cbn; [done|]. rewrite IH. f_equal. by destruct (rollback_of_row _ _ Hm). }
    rewrite Heq. eapply (NoDup_snd row_target METRIC_COLLECTION); [|intros row [_ Hm]%Hl; by apply String.eqb_eq].
    apply NoDup_map_filter. rewrite map_rev, <- Permutation_rev. pose proof (ro_targets _ _ Hrows) as Hn. rewrite Hrecs, map_app in Hn. by apply NoDup_app in Hn as (Hn & _ & _).
  - intros m Hm. destruct (list_elem_of_lookup_1 _ _ Hm) as [k Hk]. destruct (Forall2_lookup_r _ _ _ _ _ Hms Hk) as (row & Hrow & Hb). exists row.
    apply list_elem_of_lookup_2, Hl in Hrow as [Hrow Hmet]. done.
  - intros row Hrow Hmet. assert (Hin : row ∈ l) by by apply Hl. destruct (list_elem_of_lookup_1 _ _ Hin) as [k Hk].
    destruct (Forall2_lookup_l _ _ _ _ _ Hms Hk) as (m & Hm & Hb). exists m. split; [by eapply list_elem_of_lookup_2|done].
Qed.

Definition baseline : gmap string doc := foldl restore_metric metrics metric_mutations_back.

Lemma presence_of a : a ∈ ap_actions (sp_action_plan p) ->
  (a_action a = "insert"%string /\ a_preimage a = None) \/ (a_action a = "replace"%string /\ is_some (a_preimage a) = true) \/
  (a_action a = "delete"%string /\ is_some (a_preimage a) = true) \/ (a_action a = "no-op"%string /\ is_some (a_preimage a) = true).
Proof using Hp.
  intros Ha. destruct (po_actions p Hp a Ha) as [Hpr _].
  destruct (action_kind a (po_actions p Hp a Ha)) as [E|[E|[E|E]]]; rewrite E in Hpr; cbn in Hpr; injection Hpr as _ Hq; destruct (a_preimage a); naive_solver.
Qed.

(** The rollback finds in [metrics] what the forward operation left. *)
Lemma metrics_are_final : well_kept (db_metrics s1) -> encode_doc <$> metrics = by_id (omap (final_of (sp_operation_id p)) (ap_actions (sp_action_plan p))) /\
  forall i d, metrics !! i = Some d -> doc_get d "_id" = VStr i.
Proof using All.
  intros Hk. destruct operation_bound as (Hb & _ & _). pose proof (pf_metrics _ _ _ _ _ (bs_prepared _ _ _ _ _ _ Hr)) as Hm.
  destruct (rollback_metrics_scoped _ _ _ Hk Hm) as [Hs Hn]. split; [|done]. rewrite Hs, Hb.
  rewrite <- (po_expected p Hp). apply scoped_by_id; [done|]. apply exact_docs, Hf.
Qed.

(** The part of a changed action. *)
Lemma changed_back a : a ∈ ap_actions (sp_action_plan p) -> is_change a = true -> exists m, m ∈ metric_mutations_back /\ rm_target_id m = a_target_id a /\
  inverse (a_action a) = Some (rm_action m) /\ (String.eqb (rm_action m) "delete" = false -> option_map encode_doc (rm_restoration m) = option_map encode_doc (a_preimage a)).
Proof using Hp Hf Hr.
  intros Ha Hch. destruct (action_mutation a Ha Hch) as (m & Hm & Hc & Hi & Hact & Hpre). destruct (mutation_row m Hm) as (row & Hrow & Ht & Hra & Hrp).
  destruct back_targets as (_ & _ & Hback). destruct (Hback row Hrow) as (x & Hx & Hxr); [unfold is_metric_row; by rewrite Ht, Hc|].
  destruct (rollback_of_row _ _ Hxr) as (Hid & Hinv & Hres). exists x. split_and!; [done|by rewrite Hid, Ht|by rewrite <- Hact, <- Hra|].
  intros Hd. by rewrite Hres, Hd, Hrp, Hpre.
Qed.
Lemma untouched_back i : (forall a, a ∈ ap_actions (sp_action_plan p) -> is_change a = true -> a_target_id a <> i) -> i ∉ map rm_target_id metric_mutations_back.
Proof using Hp Hf Hr.
  intros Hno Hin. apply list_elem_of_In, in_map_iff in Hin as (x & Hx & Hin). apply list_elem_of_In in Hin. destruct back_targets as (_ & Hback & _).
  destruct (Hback x Hin) as (row & Hrow & Hmet & Hxr). destruct (row_mutation row Hrow) as (m & Hm & Ht & _ & _). destruct (rollback_of_row _ _ Hxr) as (Hid & _).
  destruct (mutation_action m Hm) as (a & Ha & Hch & _ & Hi & _); [unfold is_metric_row in Hmet; rewrite Ht in Hmet; by apply String.eqb_eq|].
  apply (Hno a Ha Hch). by rewrite <- Hi, <- Hx, Hid, Ht.
Qed.

Lemma baseline_is_preimages : well_kept (db_metrics s1) -> encode_doc <$> baseline = by_id (omap a_preimage (ap_actions (sp_action_plan p))).
Proof using All.
  intros Hk. destruct (metrics_are_final Hk) as [Hfin _]. pose proof (po_ids p Hp) as Hn. destruct back_targets as (Hback & _).
  destruct (by_id_omap a_preimage _ Hn preimage_named) as [Hpre Hpre0]. destruct (by_id_omap _ _ Hn final_named) as [Hf1 Hf0].
  apply map_eq. intros i. rewrite lookup_fmap. unfold baseline.
  destruct (decide (i ∈ map a_target_id (ap_actions (sp_action_plan p)))) as [Hi|Hi].
  - apply list_elem_of_In, in_map_iff in Hi as (a & <- & Ha). apply list_elem_of_In in Ha. rewrite (Hpre a Ha).
    destruct (is_change a) eqn:Hch.
    + destruct (changed_back a Ha Hch) as (m & Hm & Hid & Hinv & Hres). rewrite (proj1 (restore_lookup _ metrics (a_target_id a) Hback) m Hm Hid).
      unfold restored. destruct (presence_of a Ha) as [[E Hq]|[[E Hq]|[[E Hq]|[E Hq]]]]; rewrite E in Hinv; cbn in Hinv;
        [injection Hinv as <-; by rewrite Hq| | |by unfold is_change in Hch; rewrite E in Hch];
        injection Hinv as Hinv; rewrite <- Hinv in *; specialize (Hres eq_refl); cbn; destruct (a_preimage a); [|done| |done]; destruct (rm_restoration m); done.
    + rewrite (proj2 (restore_lookup _ metrics (a_target_id a) Hback)).
      * rewrite <- lookup_fmap, Hfin, (Hf1 a Ha). unfold final_of. unfold is_change in Hch. apply negb_false_iff in Hch. by rewrite Hch.
      * apply untouched_back. intros b Hb Hchb Heq. rewrite (target_inj b a Hb Ha Heq) in Hchb. by rewrite Hch in Hchb.
  - rewrite (proj2 (restore_lookup _ metrics i Hback)).
    + by rewrite <- lookup_fmap, Hfin, (Hf0 i Hi), (Hpre0 i Hi).
    + apply untouched_back. intros a Ha _ <-. apply Hi. apply list_elem_of_In, in_map. by apply list_elem_of_In.
Qed.

(** ** The store is restored *)

Lemma metrics_restored : well_kept (db_metrics s) -> well_kept (db_markers s) -> scoped (sp_binding p) s2 = scoped (sp_binding p) s.
Proof using All.
  intros Hk Hk'. destruct (fs_kept _ _ _ _ Hf (conj Hk Hk')) as [Hk1 _]. pose proof (bs_kept _ _ _ _ _ _ Hr Hk1) as Hk2.
  destruct operation_bound as (Hb & _ & _).
  rewrite (scoped_by_id (sp_binding p) s _ Hk (exact_docs _ _ (fs_metrics_before _ _ _ _ Hf))).
  pose proof (exact_docs _ _ (bs_metrics _ _ _ _ _ _ Hr)) as Hm. unfold metrics_of in Hm. rewrite Hb in Hm. rewrite (scoped_by_id (sp_binding p) s2 _ Hk2 Hm).
  unfold _rollback_baseline. fold metric_mutations_back baseline. rewrite <- (baseline_is_preimages Hk1). apply by_id_values.
  intros i d Hi. destruct (metrics_are_final Hk1) as [_ Hnamed]. pose proof (baseline_is_preimages Hk1) as Hbase.
  assert (Hx : by_id (omap a_preimage (ap_actions (sp_action_plan p))) !! i = Some (encode_doc d)) by (by rewrite <- Hbase, lookup_fmap, Hi).
  apply elem_of_list_to_map_2, list_elem_of_In, in_map_iff in Hx as (q & [= Hq1 Hq2] & Hq). apply list_elem_of_In, list_elem_of_omap in Hq as (a & Ha & Hq).
  destruct (po_actions p Hp a Ha) as [_ Hid]. apply doc_id_get. rewrite <- doc_id_encode, <- Hq2, doc_id_encode. apply doc_id_get.
  rewrite (Hid q (or_intror Hq)). f_equal. rewrite <- Hq1. symmetry. by apply preimage_named.
Qed.
Lemma marker_restored : option_map encode_doc (marker_of (b_seller_id (sp_binding p)) s2) = option_map encode_doc (marker_of (b_seller_id (sp_binding p)) s).
Proof using All.
  destruct operation_bound as (_ & Hsel & _). pose proof (same_option _ _ (exact_docs _ _ (fs_marker_before _ _ _ _ Hf))) as ->.
  pose proof (same_option _ _ (exact_docs _ _ (bs_marker _ _ _ _ _ _ Hr))) as Hm. unfold owned_marker in Hm. rewrite Hsel in Hm. rewrite Hm.
  destruct set_spec as (_ & _ & Hrows & _). destruct (pf_plan _ _ _ _ _ (bs_prepared _ _ _ _ _ _ Hr)) as (front & row & mm & ms & Hrecs & Hmm & _ & Hplan).
  destruct (ro_last _ _ Hrows) as (f' & r' & Heq & Hmark). rewrite Hrecs in Heq. apply app_inj_tail in Heq as [_ <-].
  destruct (row_mutation row) as (m & Hin & Ht & Hact & Hpre); [rewrite Hrecs; apply elem_of_app; right; constructor|].
  destruct (po_mutations p Hp) as (metr & lm & Hmut & Hall & _ & _ & Hlp & Hla).
  assert (m = lm) as ->.
  { rewrite Hmut, elem_of_app, list_elem_of_singleton in Hin. destruct Hin as [Hin| ->]; [|done]. exfalso.
    destruct (list_elem_of_lookup_1 _ _ Hin) as [k Hk]. destruct (Forall2_lookup_r _ _ _ _ _ Hall Hk) as (a & _ & Hc & _).
    unfold is_marker_row in Hmark. rewrite Ht in Hmark. cbn in Hmark. by rewrite Hc in Hmark. }
  destruct (rollback_of_row _ _ Hmm) as (_ & Hinv & Hres). unfold _marker_restoration. rewrite Hplan, Hres. rewrite Hact, Hla in Hinv.
  rewrite Hlp in Hpre. destruct (sp_marker_preimage p) as [q|]; cbn in Hinv; injection Hinv as <-; cbn; [done|done].
Qed.
End Restored.
End RoundTrip.
