(* ===== verification/StockTimeClaims.v ===== *)
(** Whole runs of the stock-time engine: every visit is one step of the
    operation, whatever fails; a forward run is all or nothing; a rollback after
    it restores the metrics and the marker. *)

From S2P Require Export StockTimeRoundTrip.

#[local] Open Scope Z_scope.

Section Runs.
Context `{PyRepr} `{Sha256} `{Bson}.
Implicit Types (s : time_db).

(** ** The steps of the engine *)

(** The lease of an operation is taken: of a new operation, or from an attempt
    whose lease is over. *)
Definition prepares (p : sealed_plan) (token : string) (s s' : time_db) : Prop := exists now, db_operations s !! sp_operation_id p = None /\
  db_operations s' = <[sp_operation_id p := encode_doc (prepared_operation p token now)]> (db_operations s).
Definition takes_over (p : sealed_plan) (token : string) (s s' : time_db) : Prop := exists now i e, db_operations s !! i = Some e /\
  matches now (FAnd [FEq ["_id"%string] (VStr (sp_operation_id p)); lease_over]) e = true /\
  db_operations s' = <[i := apply_stage now (takeover_stage token) e]> (db_operations s).
Definition lease_step (p : sealed_plan) (token : string) (s s' : time_db) : Prop :=
  (forall c, c <> Operations -> docs c s' = docs c s) /\ (s' = s \/ prepares p token s s' \/ takes_over p token s s').

Inductive engine_step (s s' : time_db) : Prop :=
| by_lease p token (Hs : lease_step p token s s')
| by_forward p c (Hs : forward_step p c s s')
| by_rollback id rs plan metrics (Hs : rollback_step id rs plan metrics s s')
| by_block id (Hs : block_step id s s').

Lemma prepared_named p token now : doc_get (prepared_operation p token now) "_id" = VStr (sp_operation_id p).
Proof using Type.
  unfold prepared_operation, _operation_immutable, exact_binding, mk_doc. cbn [app foldl fst snd]. repeat (rewrite doc_get_insert_ne by done). apply doc_get_insert.
Qed.
Lemma acquire_tx_spec clock p token s : twp (acquire_tx clock p token) (fun c s' => lease_step p token s s' /\
  (c_owns_lease c = true -> c_state c = "prepared"%string) /\ (c_owns_lease c = false -> c_state c = "committed"%string /\ s' = s)) s.
Proof using Type.
  unfold acquire_tx. do 2 tx_step. destruct (find_one _ _ _ _) as [o|] eqn:Ho.
  - tx_step. destruct (String.eqb (str_at a "state") "committed") eqn:Hst.
    { tx_step. apply String.eqb_eq in Hst. split_and!; [split; [done|by left]|done|]. intros _. split; [exact Hst|done]. }
    tx_step. cbv zeta. apply String.eqb_eq in E. destruct (is_some _) eqn:Hlive; [tx_step; split_and!; [split; [done|by left]|by intros _|done]|].
    tx_step. tx_use update_set_spec. intros [m u] s1 Hu. repeat tx_step. split; [|done].
    destruct Hu as [(_ & i & e & Hi & Hm & ->)|[[= -> ->] _]]; [|done]. split; [intros c Hc; by apply docs_with_ne|]. right. right. exists t, i, e.
    split_and!; [done| |done]. cbn [matches forallb] in *. rewrite forallb_app in Hm. apply andb_true_iff in Hm as [Hm1 Hm2].
    cbn [fields_filter map _operation_immutable app fst snd forallb matches] in Hm1. apply andb_true_iff in Hm1 as [Hm1 _]. rewrite Hm1. exact Hm2.
  - tx_use insert_one_spec. intros [] s1 (Hd & Hnone & ->). tx_step. split; [|done]. split; [intros c Hc; by apply docs_with_ne|]. right. left. exists t.
    rewrite (id_of_doc_id (prepared_operation p token t) _ (proj1 (doc_id_get _ _) (prepared_named p token t))) in Hnone. split; [done|].
    unfold written. by rewrite (id_of_doc_id (prepared_operation p token t) _ (proj1 (doc_id_get _ _) (prepared_named p token t))).
Qed.

(** ** Visits *)

Context `{Surrounding time_db} `{Commits}.

(** A commit of its own happens, or not; the caller may not know. *)
Lemma committing_run {A} (t : (nat -> Z) -> etx A) w r w' : committing t w = (r, w') ->
  let s := others (w_turn w) (w_store w) in
  (w_store w' = s /\ ((exists e, r = Err e) \/ exists clock a n s1 e, t clock 0%nat s = Ok (a, n, s1) /\ r = Ok (a, Err e))) \/
  (exists clock a n s1 cr, t clock 0%nat s = Ok (a, n, s1) /\ w_store w' = s1 /\ r = Ok (a, cr)).
Proof using Type.
  unfold committing. cbv zeta. set (s := others _ _). intros Hr.
  assert (Hgo : forall f, match t (readings (w_turn w)) 0%nat s with
    | Err e => (Err e, {| w_store := s; w_turn := S (w_turn w) |})
    | Ok (a, _, s') => match _commit_transaction_with_retry 3 0 (replies (w_turn w)) with
        | Ok _ => (Ok (a, match f with CommittedThen e => Err e | _ => Ok tt end), {| w_store := s'; w_turn := S (w_turn w) |})
        | Err e => (Ok (a, Err e), {| w_store := if durable (w_turn w) then s' else s; w_turn := S (w_turn w) |}) end end = (r, w') ->
    (w_store w' = s /\ ((exists e, r = Err e) \/ exists clock a n s1 e, t clock 0%nat s = Ok (a, n, s1) /\ r = Ok (a, Err e))) \/
    (exists clock a n s1 cr, t clock 0%nat s = Ok (a, n, s1) /\ w_store w' = s1 /\ r = Ok (a, cr))).
  { intros f. destruct (t _ 0%nat s) as [[[a n] s1]|e] eqn:Ht; [|intros [= <- <-]; left; split; [done|left; by exists e]].
    destruct (_commit_transaction_with_retry _ _ _) as [[]|e] eqn:Hc.
    - intros [= <- <-]. right. exists (readings (w_turn w)), a, n, s1. eexists. done.
    - intros [= <- <-]. destruct (durable (w_turn w)).
      + right. exists (readings (w_turn w)), a, n, s1. eexists. done.
      + left. split; [done|]. right. by exists (readings (w_turn w)), a, n, s1, e. }
  destruct (faults (w_turn w)) as [|e|e|f] eqn:Hf; [by apply (Hgo NoFault)| |by apply (Hgo (CommittedThen e))|by apply (Hgo (Retried f))].
  injection Hr as <- <-. left. split; [done|]. left. by exists e.
Qed.

Section Keeping.
Variable I : time_db -> Prop.
Hypothesis others_keep : forall n s, I s -> I (others n s).
Hypothesis steps_keep : forall s s', engine_step s s' -> I s -> I s'.

Lemma keeps_committing {A} (t : (nat -> Z) -> etx A) : (forall clock s, twp (t clock) (fun _ s' => engine_step s s') s) -> keeps I (committing t).
Proof using All.
  intros Ht w r w' Hw Hr. destruct (committing_run t w r w' Hr) as [[-> _]|(clock & a & n & s1 & cr & Hrun & -> & _)]; [by apply others_keep|].
  eapply steps_keep; [eapply Ht, Hrun|by apply others_keep].
Qed.
Lemma keeps_commit_readback p c : keeps I (_majority_commit_readback p c).
Proof using others_keep.
  unfold _majority_commit_readback. repeat (apply keeps_bind; [by apply keeps_reading|intros ?]). destruct (_validated_committed_operation _ _ _); [|apply keeps_ret].
  apply keeps_bind; [apply keeps_lift|intros ?]. destruct (_ && _); [|apply keeps_ret]. apply keeps_bind; [apply keeps_lift|intros ?]. apply keeps_ret.
Qed.
Lemma execute_keeps p token : plan_ok p -> keeps I (_execute_sealed_forward_operation p token).
Proof using All.
  intros Hp. unfold _execute_sealed_forward_operation. apply keeps_bind.
  - unfold _acquire_forward_operation. destruct (hex32 token); [|apply keeps_fail]. apply keeps_visit; [done|]. intros clock s Hs.
    eapply twp_mono; [apply acquire_tx_spec|]. cbv beta. intros c s' [Hl _]. eapply steps_keep; [by eapply by_lease|done].
  - intros c. destruct (_exact_forward_operation_context _ _ _ _); [apply keeps_ret|]. destruct (_ && _); [|apply keeps_fail].
    apply keeps_bind; [|intros ?; destruct (_ && _); [apply keeps_ret|apply keeps_fail]]. unfold _commit_forward_operation. apply keeps_bind.
    + apply keeps_committing. intros clock s. eapply twp_mono; [by apply forward_tx_spec|]. cbv beta. intros _ s' Hs. by eapply by_forward.
    + intros [a cr]. apply keeps_bind; [|intros ?; apply keeps_ret]. cbn [snd]. destruct cr; [apply keeps_ret|]. destruct (is_unknown _); [|apply keeps_fail].
      apply keeps_bind; [apply keeps_commit_readback|]. intros [|]; [apply keeps_ret|apply keeps_fail].
Qed.
Lemma keeps_load id : keeps I (_load_validated_rollback_record_set id).
Proof using others_keep.
  unfold _load_validated_rollback_record_set. destruct (hex64 id); [|apply keeps_fail]. repeat (apply keeps_bind; [by apply keeps_reading|intros ?]). apply keeps_lift.
Qed.
Lemma keeps_settle read o : (forall rv, keeps I (read rv)) -> keeps I (settle_commit read o).
Proof using Type.
  intros Hr. unfold settle_commit. destruct (o.2); [apply keeps_ret|]. destruct (is_unknown _); [|apply keeps_fail]. apply keeps_bind; [apply Hr|].
  intros [|]; [apply keeps_ret|apply keeps_fail].
Qed.
Lemma keeps_rollback_readback rv : keeps I (_majority_rollback_readback rv).
Proof using others_keep.
  unfold _majority_rollback_readback, readback. apply keeps_try; [|intros ?; apply keeps_ret]. repeat (apply keeps_bind; [by apply keeps_reading|intros ?]).
  apply keeps_bind; [apply keeps_lift|intros ?]. apply keeps_ret.
Qed.
Lemma keeps_drift_readback rv : keeps I (_majority_target_drift_finalizer_readback rv).
Proof using others_keep.
  unfold _majority_target_drift_finalizer_readback, readback. apply keeps_try; [|intros ?; apply keeps_ret]. repeat (apply keeps_bind; [by apply keeps_reading|intros ?]).
  apply keeps_bind; [apply keeps_lift|intros ?]. apply keeps_ret.
Qed.
Lemma rollback_keeps id : keeps I (_rollback_forward_operation id).
Proof using All.
  unfold _rollback_forward_operation. cbv zeta. apply keeps_bind; [apply keeps_load|intros majority].
  destruct (String.eqb _ _); [apply keeps_ret|]. destruct (negb _); [|apply keeps_fail]. apply keeps_bind; [|intros ?; apply keeps_ret]. apply keeps_try.
  - apply keeps_bind; [|intros o; apply keeps_settle, keeps_rollback_readback]. apply keeps_committing. intros clock s.
    eapply twp_mono; [apply rollback_tx_spec|]. cbv beta. intros rv s' (plan & metrics & Hs). by eapply by_rollback.
  - intros e. destruct (is_drift e); [|apply keeps_fail]. apply keeps_bind; [|intros ?; apply keeps_fail]. unfold _finalize_target_drift.
    apply keeps_bind; [|intros o; apply keeps_settle, keeps_drift_readback]. apply keeps_committing. intros clock s.
    eapply twp_mono; [apply finalize_tx_spec|]. cbv beta. intros _ s' Hs. by eapply by_block.
Qed.
End Keeping.
End Runs.

(** What the stock-time engine guarantees. *)

(** ** Undisturbed visits *)

Section Quiet.
Context {St : Type} `{Surrounding St}.
Hypothesis alone : forall n s, others n s = s.

Lemma visit_quiet {A} (t : (nat -> Z) -> stx St A) w r w' : visit t w = (r, w') ->
  (w_store w' = w_store w /\ exists e, r = Err e) \/
  (exists clock a n s', t clock 0%nat (w_store w) = Ok (a, n, s') /\ w_store w' = s' /\ (r = Ok a \/ exists e, r = Err e)).
Proof using alone.
  set (t' := fun clock (_ : unit) => tx_bind (t clock) (fun a => tx_ret (a, tt)) : stx St (A * unit)).
  assert (Hk : forall f l w r1 w1, visit_keeping f t' l w = (r1, w1) -> (w_store w1 = w_store w /\ exists e, r1 = Err e) \/
    (exists clock a n s', t clock 0%nat (w_store w) = Ok (a, n, s') /\ w_store w1 = s' /\ (r1 = Ok (a, tt) \/ exists e, r1 = Err e))).
  { intros f. induction f as [|e|e|f IH]; intros l v r1 w1 Hv; cbn [visit_keeping] in Hv; rewrite alone in Hv; try (injection Hv as <- <-; left; eauto; fail);
      unfold t' at 1, tx_bind, tx_ret in Hv; (destruct (t (readings (w_turn v)) 0%nat (w_store v)) as [[[a n] s1]|x] eqn:E; [|injection Hv as <- <-; left; eauto]).
    - injection Hv as <- <-. right. exists (readings (w_turn v)), a, n, s1. eauto.
    - injection Hv as <- <-. right. exists (readings (w_turn v)), a, n, s1. eauto.
    - by destruct (IH _ _ _ _ Hv) as [[Hs He]|Hs]; [left|right]. }
  unfold visit. fold t'. destruct (visit_keeping _ t' tt w) as [r1 w1] eqn:Hv. intros [= <- <-].
  destruct (Hk _ _ _ _ _ Hv) as [[Hs [e ->]]|(clock & a & n & s' & Ht & Hs & [->|[e ->]])]; [left; by eauto|right|right]; exists clock, a, n, s'; eauto.
Qed.
Lemma read_quiet {A} (f : St -> A) w r w' : read_store f w = (r, w') -> w_store w' = w_store w /\ (r = Ok (f (w_store w)) \/ exists e, r = Err e).
Proof using alone.
  intros Hr. apply visit_quiet in Hr as [[Hs He]|(clock & a & n & s' & Ht & Hs & Hres)]; [by auto|]. injection Ht as <- <- <-. auto.
Qed.
End Quiet.

Section Claims.
Context `{PyRepr} `{Sha256} `{Bson} `{Surrounding time_db} `{Commits}.
Hypothesis alone : forall n s, others n s = s.

(** Split a bind at a reading of the store. *)
Lemma bind_read {A B} (f : time_db -> A) (k : A -> eact B) w r w' : act_bind (read_store f) k w = (r, w') ->
  exists w1, w_store w1 = w_store w /\ ((exists e, r = Err e /\ w' = w1) \/ k (f (w_store w)) w1 = (r, w')).
Proof using alone.
  unfold act_bind. destruct (read_store f w) as [[a|e] w1] eqn:Hr; intros Hk; destruct (read_quiet alone f w _ _ Hr) as [Hs Hres]; exists w1; (split; [done|]).
  - right. destruct Hres as [Hres|[e Hres]]; [|done]. by injection Hres as ->.
  - left. injection Hk as <- <-. by exists e.
Qed.

Lemma commit_readback_quiet p c w r w' : _majority_commit_readback p c w = (r, w') -> w_store w' = w_store w /\
  (r = Ok true -> exists o, operation_of (sp_operation_id p) (w_store w) = Some o /\ _validated_committed_operation (Some o) p c = Ok o).
Proof using alone.
  intros Hr. split.
  - assert (Hk : keeps (fun s => s = w_store w) (_majority_commit_readback p c)) by (apply keeps_commit_readback; intros n s; by rewrite alone). by eapply Hk, Hr.
  - intros ->. unfold _majority_commit_readback in Hr. apply bind_read in Hr as (w1 & Q1 & [(e & He & _)|Hr]); [done|].
    apply bind_read in Hr as (w2 & Q2 & [(e & He & _)|Hr]); [done|]. apply bind_read in Hr as (w3 & Q3 & [(e & He & _)|Hr]); [done|].
    apply bind_read in Hr as (w4 & Q4 & [(e & He & _)|Hr]); [done|].
    change (find_one Operations 0 (FEq ["_id"%string] (VStr (sp_operation_id p))) (w_store w)) with (operation_of (sp_operation_id p) (w_store w)) in Hr.
    destruct (_validated_committed_operation (operation_of _ _) p c) as [o|e] eqn:Hv; [|done].
    destruct (operation_of (sp_operation_id p) (w_store w)) as [o'|]; [|done]. exists o'. split; [done|]. pose proof (committed_same _ _ _ _ Hv) as ->. exact Hv.
Qed.

(** ** A forward run *)

(** The whole plan is carried out over the store of [s], where the operation had
    been leased. *)
Definition carried_out (p : sealed_plan) (token : string) (s s' : time_db) : Prop := exists c s1, lease_step p token s s1 /\ forward_step p c s1 s'.
Definition only_leased (s s' : time_db) : Prop := forall c, c <> Operations -> docs c s' = docs c s.

Lemma committed_unowned p c now s o o' : owner p c now s o -> operation_of (sp_operation_id p) s = Some o' -> _validated_committed_operation (Some o') p c = Ok o' -> False.
Proof using Type.
  intros (Ho & _ & Hst & _) Ho' Hv. rewrite Ho in Ho'. injection Ho' as ->. unfold _validated_committed_operation, recast in Hv.
  destruct (_validate_persisted_operation o' _) as [x|x] eqn:Hx; [|by destruct (String.eqb (exn_cls x) _)]. cbn [result_bind] in Hv.
  assert (x = o') as -> by (unfold _validate_persisted_operation in Hx; repeat case_hyp Hx; by result_inv).
  destruct (negb (has_fields _ _)); [done|]. destruct (negb (is_utc _)); [done|]. cbn [orb differs existsb fst snd] in Hv.
  unfold str_at in Hst. destruct (doc_get o' "state") as [| | |st| | |]; try done. by subst st.
Qed.

Lemma commit_run p c w r w' : plan_ok p -> _commit_forward_operation p c w = (r, w') ->
  (w_store w' = w_store w /\ exists e, r = Err e) \/ forward_step p c (w_store w) (w_store w').
Proof using alone.
  intros Hp. unfold _commit_forward_operation, act_bind at 1. destruct (committing _ w) as [[[[] cr]|e] w1] eqn:Hc.
  2: { intros [= <- <-]. apply committing_run in Hc as [[Hs _]|(clock & a & n & s1 & cr & _ & _ & Hx)]; [|done]. left. rewrite Hs, alone. eauto. }
  apply committing_run in Hc. rewrite alone in Hc. cbn [snd]. intros Hrest.
  assert (Hstore : w_store w' = w_store w1).
  { destruct cr as [u|e]; [by injection Hrest as _ <-|]. destruct (is_unknown e); [|by injection Hrest as _ <-]. unfold act_bind at 1 2 in Hrest.
    destruct (_majority_commit_readback p c w1) as [[[]|x] w2] eqn:Hb; destruct (commit_readback_quiet _ _ _ _ _ Hb) as [Hs _]; by injection Hrest as _ <-. }
  destruct Hc as [[Hs Hc]|(clock & a & n & s1 & cr' & Hrun & Hs & _)].
  - left. rewrite Hstore. split; [done|]. destruct Hc as [[e He]|(clock & a & n & s1 & e & Hrun & [= _ ->])]; [done|].
    destruct (is_unknown e); [|injection Hrest as <- _; eauto]. unfold act_bind at 1 2 in Hrest.
    destruct (_majority_commit_readback p c w1) as [[[]|x] w2] eqn:Hb; [|injection Hrest as <- _; eauto..].
    exfalso. destruct (commit_readback_quiet _ _ _ _ _ Hb) as [_ Hdone]. destruct (Hdone eq_refl) as (o & Ho & Hv). rewrite Hs in Ho.
    destruct (fs_owner _ _ _ _ (forward_tx_spec p c clock Hp _ _ _ _ _ Hrun)) as (now & o1 & records & Hown & _). by eapply committed_unowned.
  - right. rewrite Hstore, Hs. eapply forward_tx_spec; [done|exact Hrun].
Qed.

(** C36: an undisturbed forward run, with any faults and unknown commit outcomes,
    either leaves metrics, marker and preimages alone or carries the whole plan
    out; it reports a commit only in the second case. *)
Theorem forward_all_or_nothing p token w r w' : sealed p -> _execute_sealed_forward_operation p token w = (r, w') ->
  (only_leased (w_store w) (w_store w') /\ r <> Ok "forward_committed"%string) \/ carried_out p token (w_store w) (w_store w').
Proof using alone.
  intros Hp%sealed_ok. unfold _execute_sealed_forward_operation, act_bind at 1. unfold _acquire_forward_operation.
  destruct (hex32 token); [|intros [= <- <-]; by left]. destruct (visit _ w) as [rc w1] eqn:Hv. apply (visit_quiet alone) in Hv.
  assert (Hl : (lease_step p token (w_store w) (w_store w1) /\ exists e, rc = Err e) \/ exists c, lease_step p token (w_store w) (w_store w1) /\ rc = Ok c).
  { destruct Hv as [[-> He]|(clock & c & n & s' & Hrun & -> & Hr)]; [left; split; [by split; [|left]|done]|].
    destruct (acquire_tx_spec clock p token _ _ _ _ _ Hrun) as [Hl _]. destruct Hr as [->|He]; [right; by exists c|by left]. }
  destruct Hl as [[[Hl _] [e ->]]|(c & Hl & ->)]; [intros [= <- <-]; by left|].
  destruct (_exact_forward_operation_context _ _ _ _); [intros [= <- <-]; left; split; [by destruct Hl|done]|]. destruct (_ && _); [|intros [= <- <-]; left; split; [by destruct Hl|done]].
  unfold act_bind. destruct (_commit_forward_operation p c w1) as [rk w2] eqn:Hk. intros Hrest.
  assert (Hs : w_store w' = w_store w2) by (destruct rk as [k|e]; [destruct (_ && _) in Hrest|]; by injection Hrest as _ <-).
  apply commit_run in Hk as [[Hst [e ->]]|Hf]; [| |done].
  - injection Hrest as <- <-. left. split; [|done]. rewrite Hst. by destruct Hl.
  - right. exists c, (w_store w1). by rewrite Hs.
Qed.

(** ** A rollback run *)

Lemma load_quiet id w r w' : _load_validated_rollback_record_set id w = (r, w') -> w_store w' = w_store w /\
  ((exists e, r = Err e) \/ exists rs, r = Ok rs /\ validated_record_set id (operation_of id (w_store w)) (preimages_of id (w_store w)) = Ok rs).
Proof using alone.
  unfold _load_validated_rollback_record_set. destruct (hex64 id); [|intros [= <- <-]; eauto]. intros Hr.
  apply bind_read in Hr as (w1 & Q1 & [(e & -> & ->)|Hr]); [eauto|]. apply bind_read in Hr as (w2 & Q2 & [(e & -> & ->)|Hr]); [rewrite Q2; eauto|].
  unfold act_lift in Hr. injection Hr as <- <-. rewrite Q2, Q1. split; [done|]. destruct (validated_record_set _ _ _); eauto.
Qed.

Lemma rollback_readback_quiet rv w r w' : _majority_rollback_readback rv w = (r, w') -> w_store w' = w_store w /\
  (r = Ok true -> exists o, operation_of (rs_operation_id (rv_record_set rv)) (w_store w) = Some o /\ doc_get o "state" = VStr "rolled_back").
Proof using alone.
  intros Hr. split.
  - assert (Hk : keeps (fun s => s = w_store w) (_majority_rollback_readback rv)) by (apply keeps_rollback_readback; intros n s; by rewrite alone). by eapply Hk, Hr.
  - intros ->. unfold _majority_rollback_readback, readback, act_try in Hr. cbv zeta in Hr.
    match type of Hr with (let '(_, _) := ?m in _) = _ => destruct m as [[b|e] w0] eqn:Hb end; [|done]. injection Hr as -> <-.
    do 4 (apply bind_read in Hb as (? & ? & [(? & ? & _)|Hb]); [done|]). destruct (_validate_rollback_operation _ _) as [o|e] eqn:Hv; [|done].
    unfold act_bind, act_lift, act_ret in Hb. injection Hb as Hb _. rewrite !andb_true_iff in Hb. destruct Hb as [[[[Hst _] _] _] _]. apply py_eq_str in Hst.
    exists o. split; [|done]. unfold _validate_rollback_operation in Hv. destruct (operation_of _ _) as [o'|]; [|done]. destruct (operation_digest o'); [|done].
    destruct (_ && _); [|done]. by injection Hv as ->.
Qed.
Lemma drift_readback_quiet rv w r w' : _majority_target_drift_finalizer_readback rv w = (r, w') -> w_store w' = w_store w.
Proof using alone.
  intros Hr. assert (Hk : keeps (fun s => s = w_store w) (_majority_target_drift_finalizer_readback rv)) by (apply keeps_drift_readback; intros n s; by rewrite alone).
  by eapply Hk, Hr.
Qed.

(** Faults of the driver are not the engine's own signal of a drift. *)
Definition foreign_faults : Prop :=
  (forall n e, faults n = Aborted e \/ faults n = CommittedThen e -> is_drift e = false) /\ (forall n k e, replies n k = Refused e -> is_drift e = false).
Lemma retry_foreign n attempts k e : foreign_faults -> _commit_transaction_with_retry attempts k (replies n) = Err e -> is_drift e = false.
Proof using Type.
  intros [_ Hf]. revert k. induction attempts as [|m IH]; intros k; cbn; [by intros [= <-]|]. destruct (replies n k) eqn:Hr; [done|apply IH|].
  intros [= <-]. by eapply Hf.
Qed.
Lemma committing_foreign {A} (t : (nat -> Z) -> etx A) w a e w' : foreign_faults -> committing t w = (Ok (a, Err e), w') -> is_drift e = false.
Proof using Type.
  intros Hf. unfold committing. cbv zeta. destruct (faults (w_turn w)) as [|x|x|f] eqn:Hx; [|done| |];
    (destruct (t _ 0%nat _) as [[[b n] s1]|y]; [|done]); destruct (_commit_transaction_with_retry _ _ _) as [[]|y] eqn:Hc; intros [= _ He _];
    try done; try (subst y; by eapply retry_foreign). subst x. eapply (proj1 Hf). by right.
Qed.
Lemma settle_quiet read (o : recovery * result unit) w r w' : (forall rv w r w', readback (read rv) w = (r, w') -> w_store w' = w_store w) ->
  settle_commit (fun rv => readback (read rv)) o w = (r, w') -> w_store w' = w_store w /\ (r = Ok tt -> o.2 = Ok tt \/ exists w1, readback (read o.1) w = (Ok true, w1)) /\
  ((forall e, o.2 = Err e -> is_drift e = false) -> forall e, r = Err e -> is_drift e = false).
Proof using Type.
  intros Hread. unfold settle_commit. destruct (o.2) as [[]|e]; [intros [= <- <-]; by auto|]. destruct (is_unknown e); [|intros [= <- <-]; split_and!; [done|done|naive_solver]].
  unfold act_bind. destruct (readback (read o.1) w) as [[[]|x] w1] eqn:Hr; intros [= <- <-]; pose proof (Hread _ _ _ _ Hr) as Hs.
  - split_and!; [done|intros _; right; by exists w1|done].
  - split_and!; [done|done|]. by intros _ e' [= <-].
  - exfalso. unfold readback, act_try, act_ret in Hr. destruct (read o.1 w) as [[?|?] ?]; done.
Qed.

(** A store whose operation is committed is not read back as rolled back. *)
Lemma committed_not_rolled_back id s rs o : committed_set id s rs -> operation_of id s = Some o -> doc_get o "state" = VStr "rolled_back" -> False.
Proof using Type.
  intros [Hs Hst] Ho Hd. destruct (record_set_spec _ _ _ _ Hs) as (_ & Ho' & _). rewrite Ho in Ho'. injection Ho' as ->.
  unfold validated_record_set in Hs. result_inv. cbn in *. unfold str_at in Hst. by rewrite Hd in Hst.
Qed.

(** One attempt: nothing, or the whole inverse. *)
Lemma rollback_attempt id majority w r w' : foreign_faults -> rs_operation_id majority = id ->
  (let~ o := committing (fun clock => rollback_tx clock majority) in settle_commit _majority_rollback_readback o) w = (r, w') ->
  (w_store w' = w_store w /\ exists e, r = Err e) \/
  ((exists rs plan metrics, rollback_step id rs plan metrics (w_store w) (w_store w')) /\ forall e, r = Err e -> is_drift e = false).
Proof using alone.
  intros Hforeign Hid. unfold act_bind. destruct (committing _ w) as [[[rv cr]|e] w3] eqn:Hcom; pose proof Hcom as Hc; apply committing_run in Hc; rewrite alone in Hc.
  2: { intros [= <- <-]. destruct Hc as [[Hs _]|(clock & a & n & s1 & cr & _ & _ & Hx)]; [left; eauto|done]. }
  intros Ht. apply settle_quiet in Ht as (Hs3 & Hok & Hnd); [|intros rv' v rr v' Hb; by apply rollback_readback_quiet in Hb as [? _]].
  destruct Hc as [[Hs Hc]|(clock & a & n & s1 & cr' & Hx & Hs & [= <- <-])].
  - left. split; [congruence|]. destruct r as [[]|e]; [|eauto]. exfalso. destruct Hc as [[e He]|(clock & a & n & s1 & e & Hx & [= -> ->])]; [done|].
    destruct (Hok eq_refl) as [Hk|(w4 & Hb)]; [done|]. apply rollback_readback_quiet in Hb as [_ Hb]. destruct (Hb eq_refl) as (o & Ho & Hst).
    destruct (rollback_tx_spec clock majority _ _ _ _ _ Hx) as (plan & metrics & Hstep). pose proof (bs_set _ _ _ _ _ _ Hstep) as Hcs.
    rewrite Hid in Hcs. cbn in Ho. rewrite (proj1 (record_set_spec _ _ _ _ (proj1 Hcs))), Hs in Ho. by eapply committed_not_rolled_back.
  - right. destruct (rollback_tx_spec clock majority _ _ _ _ _ Hx) as (plan & metrics & Hstep). rewrite Hid in Hstep. split.
    + exists (rv_record_set rv), plan, metrics. by rewrite Hs3, Hs.
    + apply Hnd. intros e He. cbn in He. subst cr. by eapply committing_foreign.
Qed.
Lemma finalize_run majority w r w' : _finalize_target_drift majority w = (r, w') -> w_store w' = w_store w \/ block_step (rs_operation_id majority) (w_store w) (w_store w').
Proof using alone.
  unfold _finalize_target_drift, act_bind. destruct (committing _ w) as [[[rv cr]|e] w3] eqn:Hc; apply committing_run in Hc; rewrite alone in Hc.
  2: { intros [= <- <-]. destruct Hc as [[Hs _]|(clock & a & n & s1 & cr & _ & _ & Hx)]; [by left|done]. }
  intros Ht. apply settle_quiet in Ht as (Hs3 & _); [|intros rv' v rr v' Hb; by apply drift_readback_quiet in Hb].
  destruct Hc as [[Hs _]|(clock & a & n & s1 & cr' & Hx & Hs & _)]; [left; congruence|]. right. rewrite Hs3, Hs. eapply finalize_tx_spec, Hx.
Qed.

(** A run that ends well rolled the operation back, or found it rolled back. *)
Lemma rollback_run id w r w' : foreign_faults -> _rollback_forward_operation id w = (r, w') ->
  (w_store w' = w_store w /\ ((exists e, r = Err e) \/
     exists rs, validated_record_set id (operation_of id (w_store w)) (preimages_of id (w_store w)) = Ok rs /\ rs_state rs = "rolled_back"%string)) \/
  (exists rs plan metrics, rollback_step id rs plan metrics (w_store w) (w_store w')) \/
  (block_step id (w_store w) (w_store w') /\ exists e, r = Err e).
Proof using alone.
  intros Hforeign. unfold _rollback_forward_operation. cbv zeta. unfold act_bind at 1. destruct (_load_validated_rollback_record_set id w) as [rl w1] eqn:Hl.
  apply load_quiet in Hl as [Hs1 [[e ->]|(majority & -> & Hset)]]; [intros [= <- <-]; left; eauto|].
  destruct (String.eqb_spec (rs_state majority) "rolled_back") as [Hrb|_]; [intros [= <- <-]; left; split; [done|]; right; by exists majority|].
  destruct (negb _); [|intros [= <- <-]; left; eauto]. destruct (record_set_spec _ _ _ _ Hset) as (Hid & _). intros Hrun.
  unfold act_bind at 1, act_try in Hrun.
  match type of Hrun with (let '(_, _) := (let '(_, _) := ?m in _) in _) = _ => destruct m as [rt w2] eqn:Ht end.
  apply (rollback_attempt id majority w1) in Ht; [|done|done]. rewrite <- Hs1. destruct rt as [[]|e].
  - injection Hrun as <- <-. destruct Ht as [[_ [e He]]|(Hm & _)]; [done|]. right. by left.
  - destruct (is_drift e) eqn:Hd.
    2: { injection Hrun as <- <-. destruct Ht as [[Hs _]|(Hm & _)]; [left; split; [done|eauto]|right; by left]. }
    destruct Ht as [[Hs2 _]|(_ & Hnd)]; [|by rewrite (Hnd e eq_refl) in Hd]. rewrite <- Hs2.
    unfold act_bind at 1 in Hrun. destruct (_finalize_target_drift majority w2) as [rf w3] eqn:Hf.
    assert (Hrw : w' = w3 /\ exists x, r = Err x) by (destruct rf; injection Hrun as <- <-; eauto). destruct Hrw as [-> Hx].
    apply finalize_run in Hf as [Hf|Hf]; [left; auto|right; right]. rewrite Hid in Hf. done.
Qed.

(** ** Round trip *)

Lemma forward_leaves_committed p c s s' rs : forward_step p c s s' ->
  validated_record_set (sp_operation_id p) (operation_of (sp_operation_id p) s') (preimages_of (sp_operation_id p) s') = Ok rs -> rs_state rs = "committed"%string.
Proof using Type.
  intros Hf Hs. destruct (fs_committed _ _ _ _ Hf) as (o & Ho & Hv). destruct (record_set_spec _ _ _ _ Hs) as (_ & Ho' & _). rewrite Ho in Ho'. injection Ho' as ->.
  unfold validated_record_set in Hs. result_inv. cbn in *. unfold _validated_committed_operation, recast in Hv.
  destruct (_validate_persisted_operation a _) as [x|x] eqn:Hx; [|by destruct (String.eqb (exn_cls x) _)]. cbn [result_bind] in Hv.
  assert (x = a) as -> by (unfold _validate_persisted_operation in Hx; repeat case_hyp Hx; by result_inv).
  destruct (negb (has_fields _ _)); [done|]. destruct (negb (is_utc _)); [done|]. cbn [orb differs existsb fst snd] in Hv.
  destruct (py_eq (doc_get a "state") (VStr "committed")) eqn:Hst; [|done]. apply py_eq_str in Hst. unfold str_at. by rewrite Hst.
Qed.

(** The metrics of the interval and its marker are those of [s], and no other
    metric of [s] changed. *)
Definition restored (b : binding) (s s' : time_db) : Prop :=
  scoped b s' = scoped b s /\
  (forall i d, db_metrics s !! i = Some d -> in_scope b d = false -> db_metrics s' !! i = Some d) /\
  option_map encode_doc (marker_of (b_seller_id b) s') = option_map encode_doc (marker_of (b_seller_id b) s).

(** C6: after an undisturbed forward run that reports a commit, an undisturbed
    rollback either leaves the metrics of the interval and its marker as they
    were before the run, with no other metric changed, or raises and leaves
    every metric as the run left it.  Calls may fail and commits may be
    acknowledged or not; a rollback that returns has restored everything. *)
Theorem rollback_restores `{!ExactBson} p token w w1 w2 r : foreign_faults -> sealed p ->
  well_kept (db_metrics (w_store w)) -> well_kept (db_markers (w_store w)) ->
  _execute_sealed_forward_operation p token w = (Ok "forward_committed"%string, w1) -> _rollback_forward_operation (sp_operation_id p) w1 = (r, w2) ->
  restored (sp_binding p) (w_store w) (w_store w2) \/
  (exists e, r = Err e) /\ db_metrics (w_store w2) = db_metrics (w_store w1).
Proof using alone.
  intros Hforeign Hp Hk Hk' Hrun Hback. apply forward_all_or_nothing in Hrun as [[_ Hne]|(c & s1 & Hl & Hf)]; [done| |done].
  pose proof (proj1 Hl Metrics ltac:(done)) as Hm. pose proof (proj1 Hl Markers ltac:(done)) as Hmk. cbn [docs] in Hm, Hmk.
  apply rollback_run in Hback as [[Hs [He|(rs & Hset & Hst)]]|[(rs & plan & metrics & Hr)|[Hb He]]]; [| | | |done].
  { right. by rewrite Hs. }
  { by rewrite (forward_leaves_committed _ _ _ _ _ Hf Hset) in Hst. }
  2: { right. split; [done|apply Hb]. }
  left. pose proof (sealed_ok p Hp) as Hok. rewrite <- Hm in Hk. rewrite <- Hmk in Hk'. unfold restored. split_and!.
  - rewrite (metrics_restored p c s1 (w_store w1) (w_store w2) rs plan metrics Hok Hf Hr Hk Hk'). unfold scoped. by rewrite Hm.
  - intros i d Hi Hd. rewrite <- Hm in Hi. pose proof (operation_bound p c s1 (w_store w1) (w_store w2) rs plan metrics Hok Hf Hr) as (Hb & _ & _).
    apply (bs_other_metrics _ _ _ _ _ _ Hr); [|by rewrite Hb]. by apply (fs_other_metrics _ _ _ _ Hf).
  - rewrite (marker_restored p c s1 (w_store w1) (w_store w2) rs plan metrics Hok Hf Hr). unfold marker_of, find_one, StockTimeEngine.find, hits. cbn [docs]. by rewrite Hmk.
Qed.

(** ** Drift *)

(** When one metric of an operation no longer has the revision the operation
    gave it, a rollback changes no metric, however it ends. *)
Theorem drifted_metrics_survive id w r w' rs row d : foreign_faults -> well_kept (db_metrics (w_store w)) ->
  validated_record_set id (operation_of id (w_store w)) (preimages_of id (w_store w)) = Ok rs -> row ∈ rs_records rs -> is_metric_row row = true ->
  scoped (_rollback_binding (rs_operation rs)) (w_store w) !! (row_target row).2 = Some d ->
  doc_get d "revision" <> doc_get row "expected_forward_revision" ->
  _rollback_forward_operation id w = (r, w') -> db_metrics (w_store w') = db_metrics (w_store w).
Proof using alone.
  intros Hforeign Hk Hs Hrow Hmet Hd Hrev Hrun. apply rollback_run in Hrun as [[-> _]|[(rs' & plan & metrics & Hr)|[Hb _]]]; [done| |by apply Hb|done].
  exfalso. destruct (bs_set _ _ _ _ _ _ Hr) as [Hs' _]. rewrite Hs in Hs'. injection Hs' as <-. pose proof (bs_prepared _ _ _ _ _ _ Hr) as Hpf.
  destruct (rollback_metrics_scoped _ _ _ Hk (pf_metrics _ _ _ _ _ Hpf)) as [Hm _]. rewrite <- Hm, lookup_fmap in Hd.
  destruct (metrics !! (row_target row).2) as [x|] eqn:Hx; [|done]. injection Hd as <-. pose proof (pf_undrifted _ _ _ _ _ Hpf row Hrow Hmet) as Hu.
  unfold undrifted in Hu. rewrite Hx in Hu. apply andb_true_iff in Hu as [_ Hu]. apply Hrev. destruct (record_set_spec _ _ _ _ Hs) as (_ & _ & _ & Hrows & _).
  destruct (ro_row _ _ Hrows row Hrow) as [Hok _]. unfold rollback_row_ok in Hok. rewrite !andb_true_iff in Hok. destruct Hok as [[_ Hdig] _].
  unfold digest_is in Hdig. destruct (_operation_revision _ _ _ _) as [z|]; [|done]. apply py_eq_str in Hdig. rewrite Hdig in *. apply py_eq_str in Hu.
  by rewrite encode_get, Hu.
Qed.
End Claims.

(** ** Fences *)

Section Stages.
Variables (now : Z) (e : doc).
Lemma stage_get k l (d0 : doc) : k ∉ map fst l ->
  foldl (fun acc (kv : string * aexpr) => match aeval now e kv.2 with Some v => <[kv.1 := v]> acc | None => acc end) d0 l !! k = d0 !! k.
Proof.
  revert d0. induction l as [|[j x] l IH]; intros d0 Hk; cbn; [done|]. cbn in Hk. rewrite not_elem_of_cons in Hk. destruct Hk as [Hj Hk].
  rewrite IH by done. cbn. destruct (aeval now e x); [by rewrite lookup_insert_ne|done].
Qed.
Lemma apply_stage_unnamed k l : k ∉ map fst l -> apply_stage now l e !! k = e !! k.
Proof. apply stage_get. Qed.
Lemma apply_stage_at k x v a b : k ∉ map fst b -> aeval now e x = Some v -> apply_stage now (a ++ (k, x) :: b) e !! k = Some v.
Proof. intros Hk Hv. unfold apply_stage. rewrite foldl_app. cbn. rewrite Hv, stage_get by done. apply lookup_insert_eq. Qed.
(** The expressions of the engine yield stored values. *)
Fixpoint plain_expr (x : aexpr) : bool :=
  match x with ALit _ | ANow => true | AAdd a b => true | ADateAdd a _ => match a with ANow => true | _ => false end | _ => false end.
Lemma plain_value x v : plain_expr x = true -> aeval now e x = Some v -> bson_encode v = v.
Proof.
  destruct x; try done; cbn; intros Hx.
  - intros [= <-]. rewrite <- (encode_decode_any true (bson_encode v0)). apply encode_decode_val.
  - intros [= <-]. cbn. by rewrite floor_ms_idem.
  - destruct (aeval now e x1) as [[]|]; try (by intros [= <-]). destruct (aeval now e x2) as [[]|]; by intros [= <-].
  - destruct x; try done. cbn. intros [= <-]. cbn. f_equal. unfold floor_ms, millisecond, second. rewrite Z.div_add_l; [|lia].
    replace (seconds * 1000000) with (seconds * 1000 * 1000) by lia. rewrite Z.div_mul; lia.
Qed.
Lemma apply_stage_stored l : forallb (fun kv => plain_expr kv.2) l = true -> encode_doc e = e -> encode_doc (apply_stage now l e) = apply_stage now l e.
Proof.
  intros Hl He. unfold apply_stage. revert He. generalize e at 1 2 4 6 as d0. induction l as [|[k x] l IH]; intros d0 Hd; [done|]. cbn in Hl. apply andb_true_iff in Hl as [Hx Hl].
  cbn. apply IH; [done|]. destruct (aeval now e x) as [v|] eqn:Hv; [|done]. unfold encode_doc in *. by rewrite fmap_insert, Hd, (plain_value x v).
Qed.
End Stages.

Section Fences.
Context `{PyRepr} `{Sha256} `{Bson}.
Implicit Types (s : time_db).

Definition fence_of (id : string) (s : time_db) : Z := match db_operations s !! id with Some o => int_of (doc_get o "fence") | None => 0 end.

Definition keeps_fence (stage : list (string * aexpr)) : bool :=
  forallb (fun kv => plain_expr kv.2 && negb (String.eqb kv.1 "_id") && negb (String.eqb kv.1 "fence")) stage.
(** An update of one stored operation. *)
Lemma operation_updated_fence id stage s s' : keeps_fence stage = true -> operation_updated id stage s s' -> well_kept (db_operations s) ->
  well_kept (db_operations s') /\ forall j, fence_of j s' = fence_of j s.
Proof using Type.
  intros Hst (now & i & e & Hi & Hm & Heq) Hk. unfold fence_of. rewrite !Heq. destruct (Hk i e Hi) as [Hid He].
  assert (Hkey : forall k, k = "_id"%string \/ k = "fence"%string -> k ∉ map fst stage).
  { intros k Hor Hin. apply list_elem_of_In, in_map_iff in Hin as (kv & Hkv & Hin). unfold keeps_fence in Hst. rewrite forallb_forall in Hst. specialize (Hst _ Hin).
    rewrite !andb_true_iff, !negb_true_iff in Hst. destruct Hst as [[_ H1'] H2']. rewrite Hkv in H1', H2'. destruct Hor as [->| ->]; done. }
  split.
  - intros j d Hj. destruct (decide (i = j)) as [<-|Hne]; [|rewrite lookup_insert_ne in Hj by done; by apply Hk]. rewrite lookup_insert_eq in Hj. injection Hj as <-. split.
    + unfold doc_id. rewrite apply_stage_unnamed by (apply Hkey; by left). exact Hid.
    + apply apply_stage_stored; [|done]. apply forallb_forall. intros kv Hin. unfold keeps_fence in Hst. rewrite forallb_forall in Hst. specialize (Hst _ Hin).
      rewrite !andb_true_iff in Hst. tauto.
  - intros j. destruct (decide (i = j)) as [<-|Hne]; [|by rewrite lookup_insert_ne]. rewrite lookup_insert_eq, Hi.
    unfold doc_get. rewrite apply_stage_unnamed; [done|]. apply Hkey. by right.
Qed.
(** A takeover counts the fence up. *)
Lemma takes_over_fence p token s s' : takes_over p token s s' -> well_kept (db_operations s) ->
  well_kept (db_operations s') /\ (forall j, fence_of j s <= fence_of j s') /\
  forall o, db_operations s !! sp_operation_id p = Some o -> int_with (Z.ltb 0) (doc_get o "fence") = true -> fence_of (sp_operation_id p) s' = fence_of (sp_operation_id p) s + 1.
Proof using Type.
  intros (now & i & e & Hi & Hm & Heq) Hk. unfold fence_of. rewrite !Heq. destruct (Hk i e Hi) as [Hid He]. cbn [matches forallb] in Hm. apply andb_true_iff in Hm as [Hm _].
  assert (i = sp_operation_id p) as -> by (symmetry; eapply match_str, Hm; by apply doc_id_get).
  set (f := match doc_get e "fence" with VInt z => VInt (z + 1) | _ => VNone end).
  assert (Hf : doc_get (apply_stage now (takeover_stage token) e) "fence" = f).
  { apply doc_get_lookup. unfold takeover_stage. apply (apply_stage_at now e "fence" (AAdd (AField ["fence"%string]) (ALit (VInt 1))) f (firstn 3 (takeover_stage token)));
      [rewrite list_elem_of_In; cbn; intuition discriminate|]. cbn [aeval path_get]. unfold f, doc_get. by destruct (e !! "fence"%string) as [[]|]. }
  split_and!.
  - intros j d Hj. destruct (decide (sp_operation_id p = j)) as [<-|Hne]; [|rewrite lookup_insert_ne in Hj by done; by apply Hk]. rewrite lookup_insert_eq in Hj. injection Hj as <-. split.
    + unfold doc_id. rewrite apply_stage_unnamed; [exact Hid|]. rewrite list_elem_of_In. cbn. intuition discriminate.
    + by apply apply_stage_stored.
  - intros j. destruct (decide (sp_operation_id p = j)) as [<-|Hne]; [|by rewrite lookup_insert_ne].
    rewrite lookup_insert_eq, Hi, Hf. unfold f. destruct (doc_get e "fence"); cbn; lia.
  - intros o Ho Hpos. rewrite Hi in *. injection Ho as <-. rewrite lookup_insert_eq, Hf. unfold f. by destruct (doc_get e "fence").
Qed.

Lemma engine_step_fence s s' : engine_step s s' -> well_kept (db_operations s) -> well_kept (db_operations s') /\ forall id, fence_of id s <= fence_of id s'.
Proof using Type.
  intros Hst Hk. assert (Hu : forall id stage, keeps_fence stage = true -> operation_updated id stage s s' -> well_kept (db_operations s') /\ forall id, fence_of id s <= fence_of id s').
  { intros id stage Hs Hu. destruct (operation_updated_fence _ _ _ _ Hs Hu Hk) as [Hk' Hf]. split; [done|]. intros j. by rewrite Hf. }
  destruct Hst as [p token [_ [->|[Hp|Ht]]]|p c Hf|id rs plan metrics Hr|id Hb].
  - split; [done|reflexivity].
  - destruct Hp as (now & Hnone & Heq). unfold fence_of. rewrite !Heq. split.
    + apply well_kept_insert; [done|]. apply doc_id_get, prepared_named.
    + intros j. destruct (decide (sp_operation_id p = j)) as [<-|Hne]; [|by rewrite lookup_insert_ne]. rewrite Hnone, lookup_insert_eq, encode_get.
      unfold prepared_operation, _operation_immutable, exact_binding, mk_doc. cbn [app foldl fst snd]. doc_simp. cbn. lia.
  - destruct (takes_over_fence _ _ _ _ Ht Hk) as (Hk' & Hf & _). done.
  - eapply Hu, (fs_operations _ _ _ _ Hf). reflexivity.
  - eapply Hu, (bs_operation _ _ _ _ _ _ Hr). reflexivity.
  - eapply Hu, (ks_operation _ _ _ Hb). reflexivity.
Qed.
Lemma operation_at id s o : well_kept (db_operations s) -> operation_of id s = Some o -> exists e, db_operations s !! id = Some e /\ o = decode_doc true e.
Proof using Type.
  intros Hk Ho. apply find_one_spec in Ho as (i & e & Hi & Hm & ->). destruct (Hk i e Hi) as [Hid _]. cbn [matches docs] in *.
  assert (i = id) as -> by (symmetry; eapply match_str, Hm; by apply doc_id_get). by exists e.
Qed.
Lemma owner_fence p c now s o : well_kept (db_operations s) -> owner p c now s o -> fence_of (sp_operation_id p) s = c_fence c /\
  exists e, db_operations s !! sp_operation_id p = Some e /\ int_with (Z.ltb 0) (doc_get e "fence") = true.
Proof using Type.
  intros Hk (Ho & Hv & _ & Hd & _). destruct (operation_at _ _ _ Hk Ho) as (e & He & ->). unfold fence_of. rewrite He.
  unfold _validate_persisted_operation in Hv. destruct (operation_schema_ok _) eqn:Hs; [|done]. unfold operation_schema_ok in Hs. rewrite !andb_true_iff in Hs.
  destruct Hs as [[[[_ Hs] _] _] _]. cbn [forallb] in Hs. rewrite !andb_true_iff in Hs. destruct Hs as (_ & Hs & _). rewrite decode_get in Hs.
  unfold differs in Hd. cbn [attempt_fields existsb fst snd] in Hd. rewrite !orb_false_iff, !negb_false_iff in Hd. destruct Hd as (_ & _ & Hd & _). rewrite decode_get in Hd.
  destruct (doc_get e "fence") as [| |z| | | |] eqn:Hz; try done. cbn in Hd, Hs. apply Z.eqb_eq in Hd. split; [done|]. exists e. by rewrite Hz.
Qed.

(** C37: an attempt whose operation was taken over never commits its plan again,
    whatever runs of the engine come in between: the takeover counted the fence
    up and no step counts it down. *)
Theorem superseded_attempt_never_commits p token c now o s s1 s2 clock n : sealed p -> well_kept (db_operations s) -> owner p c now s o ->
  takes_over p token s s1 -> rtc engine_step s1 s2 -> exists e, forward_tx clock p c n s2 = Err e.
Proof using Type.
  intros Hp%sealed_ok Hk Ho Ht Hsteps. destruct (owner_fence _ _ _ _ _ Hk Ho) as [Hf (e & He & Hpos)]. destruct (takes_over_fence _ _ _ _ Ht Hk) as (Hk1 & _ & Hup).
  specialize (Hup e He Hpos).
  assert (H12 : well_kept (db_operations s2) /\ fence_of (sp_operation_id p) s1 <= fence_of (sp_operation_id p) s2).
  { clear -Hsteps Hk1. induction Hsteps as [s|s x y Hst _ IH]; [split; [done|reflexivity]|]. destruct (engine_step_fence _ _ Hst Hk1) as [Hkx Hfx].
    destruct (IH Hkx) as [Hky Hfy]. split; [done|]. specialize (Hfx (sp_operation_id p)). lia. }
  destruct H12 as [Hk2 Hle]. destruct (forward_tx clock p c n s2) as [[[[] k] s3]|x] eqn:Hrun; [exfalso|by exists x].
  destruct (fs_owner _ _ _ _ (forward_tx_spec p c clock Hp s2 _ _ _ _ Hrun)) as (now2 & o2 & records & Hown & _).
  destruct (owner_fence _ _ _ _ _ Hk2 Hown) as [Hf2 _]. lia.
Qed.
End Fences.

(** ** Every run is a sequence of steps *)

Section Refinement.
Context `{PyRepr} `{Sha256} `{Bson} `{Surrounding time_db} `{Commits}.

Inductive stock_op := Execute (p : sealed_plan) (token : string) | RollBack (id : string).
Definition run_stock_op (op : stock_op) (w : sworld time_db) : sworld time_db :=
  match op with Execute p token => (_execute_sealed_forward_operation p token w).2 | RollBack id => (_rollback_forward_operation id w).2 end.
Definition run_stock_ops (ops : list stock_op) (w : sworld time_db) : sworld time_db := foldl (fun w op => run_stock_op op w) w ops.

(** What others commit, or a whole step of the engine. *)
Definition stock_step (s s' : time_db) : Prop := (exists n, s' = others n s) \/ engine_step s s'.

(** C7: any sequence of forward and rollback runs, with any faults and any commits
    of others in between, takes the store through whole steps only: a lease
    taken, a plan carried out, an operation rolled back, or blocked with its
    metrics untouched. *)
Theorem runs_take_whole_steps ops w : (forall p token, Execute p token ∈ ops -> sealed p) -> rtc stock_step (w_store w) (w_store (run_stock_ops ops w)).
Proof using Type.
  set (I := rtc stock_step (w_store w)).
  assert (Hothers : forall n s, I s -> I (others n s)) by (intros n s Hs; eapply rtc_r; [exact Hs|]; left; by exists n).
  assert (Hsteps : forall s s', engine_step s s' -> I s -> I s') by (intros s s' Hst Hs; eapply rtc_r; [exact Hs|]; by right).
  enough (Hgo : forall v, (forall p token, Execute p token ∈ ops -> sealed p) -> I (w_store v) -> I (w_store (run_stock_ops ops v))) by (intros Hops; apply Hgo; [done|unfold I; reflexivity]).
  unfold run_stock_ops. induction ops as [|op ops IH]; intros v Hops Hv; cbn [foldl]; [exact Hv|].
  apply IH; [intros p token Hin; eapply Hops; by constructor|]. destruct op as [p token|id]; cbn [run_stock_op].
  - destruct (_execute_sealed_forward_operation p token v) as [r v'] eqn:Hr.
    eapply (execute_keeps I Hothers Hsteps p token); [eapply sealed_ok, Hops; constructor|exact Hv|exact Hr].
  - destruct (_rollback_forward_operation id v) as [r v'] eqn:Hr. eapply (rollback_keeps I Hothers Hsteps id); [exact Hv|exact Hr].
Qed.
End Refinement.
