(* ===== verification/StockTimeDemo.v ===== *)
(** The stock-time engine run on a small store: an exact byte encoding of
    documents, a plan of one action of each kind, its forward run and its
    rollback, with every commit acknowledged by its readback only. *)

From S2P Require Export StockTimeClaims.

#[local] Open Scope Z_scope.

(** ** An exact encoding *)

Section Encoding.
Local Open Scope char_scope.
Fixpoint put_str (s k : string) : string := match s with EmptyString => String "." k | String c s => String "+" (String c (put_str s k)) end.
Fixpoint put_pos (p : positive) (k : string) : string := match p with xH => String "." k | xO p => String "0" (put_pos p k) | xI p => String "1" (put_pos p k) end.
Definition put_Z (z : Z) (k : string) : string := match z with Z0 => String "z" k | Zpos p => String "p" (put_pos p k) | Zneg p => String "m" (put_pos p k) end.
Fixpoint put_val (v : val) (k : string) : string :=
  match v with
  | VNone => String "n" k
  | VBool b => String (if b then "t" else "f") k
  | VInt z => String "i" (put_Z z k)
  | VStr s => String "s" (put_str s k)
  | VDate w us => String (if w then "d" else "e") (put_Z us k)
  | VList l => String "l" (foldr put_val (String "." k) l)
  | VDict d => String "o" (map_fold (fun i x acc => String "k" (put_str i (put_val x acc))) (String "." k) d)
  end.
End Encoding.

Lemma put_str_inj s : forall s' k k', put_str s k = put_str s' k' -> s = s' /\ k = k'.
Proof. induction s as [|c s IH]; intros [|c' s'] k k'; cbn; intros Hk; try discriminate Hk; [by injection Hk|]. injection Hk as -> Hk. by destruct (IH _ _ _ Hk) as [-> ->]. Qed.
Lemma put_pos_inj p : forall p' k k', put_pos p k = put_pos p' k' -> p = p' /\ k = k'.
Proof. induction p as [p IH|p IH|]; intros [p'|p'|] k k'; cbn; intros Hk; try discriminate Hk; injection Hk as Hk; try (by destruct (IH _ _ _ Hk) as [-> ->]). done. Qed.
Lemma put_Z_inj z z' k k' : put_Z z k = put_Z z' k' -> z = z' /\ k = k'.
Proof. destruct z, z'; cbn; intros Hk; try discriminate Hk; injection Hk as Hk; try (by destruct (put_pos_inj _ _ _ _ Hk) as [-> ->]). done. Qed.
Lemma put_val_not_end v k r : put_val v k <> String "." r.
Proof. destruct v as [|[]| | |[]| |]; discriminate. Qed.
Lemma put_val_inj v : forall v' k k', put_val v k = put_val v' k' -> v = v' /\ k = k'.
Proof.
  induction v as [v Hv|l Hl|d Hd] using val_nested_ind; intros v' k k'.
  - destruct v as [|b|z|s|a us| |], v' as [|b'|z'|s'|a' us'| |]; try done; cbn; intros Hk; try destruct b; try destruct b'; try destruct a; try destruct a'; try discriminate Hk; injection Hk as Hk;
      try (by destruct (put_Z_inj _ _ _ _ Hk) as [-> ->]); try (by destruct (put_str_inj _ _ _ _ Hk) as [-> ->]); by subst.
  - destruct v' as [|[]| | |[]|l'|]; cbn; intros Hk; try discriminate Hk. injection Hk as Hk.
    enough (l = l' /\ k = k') as [-> ->] by done. revert l' Hk. induction l as [|x l IH]; intros [|x' l'] Hk; cbn in Hk.
    + by injection Hk.
    + symmetry in Hk. by apply put_val_not_end in Hk.
    + by apply put_val_not_end in Hk.
    + inversion_clear Hl as [|? ? Hx Hl']. destruct (Hx _ _ _ Hk) as [-> Hk']. by destruct (IH Hl' _ Hk') as [-> ->].
  - destruct v' as [|[]| | |[]| |d']; cbn; intros Hk; try discriminate Hk. injection Hk as Hk. rewrite !map_fold_foldr in Hk.
    assert (Hall : forall i x, (i, x) ∈ map_to_list d -> forall v' k k', put_val x k = put_val v' k' -> x = v' /\ k = k') by (intros i x Hx; eapply Hd; by apply elem_of_map_to_list in Hx).
    enough (map_to_list d = map_to_list d' /\ k = k') as [Heq ->]; [split; [|done]; f_equal; apply map_to_list_inj; by rewrite Heq|].
    revert Hall Hk. generalize (map_to_list d) as l, (map_to_list d') as l'. clear. intros l. induction l as [|[i x] l IH]; intros [|[i' x'] l'] Hall Hk; cbn in Hk; try discriminate Hk.
    + by injection Hk.
    + injection Hk as Hk. destruct (put_str_inj _ _ _ _ Hk) as [-> Hk']. destruct (Hall i' x ltac:(constructor) _ _ _ Hk') as [-> Hk2].
      by destruct (IH l' ltac:(intros j y Hy; apply (Hall j y); by constructor) Hk2) as [-> ->].
Qed.

Module StockTimeRuns.
#[local] Instance plain_bson : Bson := {| bson_bytes := fun d => Some (put_val (VDict (encode_doc d)) EmptyString); extended_json_length := fun _ => 100 |}.
#[local] Instance plain_exact : ExactBson.
Proof.
  intros a b x Ha Hb. assert (Hab : put_val (VDict (encode_doc a)) EmptyString = put_val (VDict (encode_doc b)) EmptyString) by (unfold bson_bytes, plain_bson in *; congruence).
  apply put_val_inj in Hab as [Hab _]. by injection Hab.
Qed.
#[local] Instance no_repr : PyRepr := fun _ => EmptyString.
(** A digest of sixty-four hexadecimal digits. *)
Definition hex_digit (z : Z) : ascii := ascii_of_N (Z.to_N (if z <? 10 then 48 + z else 87 + z)).
Fixpoint hex_digits (n : nat) (z : Z) : string := match n with O => EmptyString | S n => String (hex_digit (z mod 16)) (hex_digits n (z / 16)) end.
Fixpoint mix (a b : Z) (s : string) : Z :=
  match s with EmptyString => a + b * 2 ^ 20 | String c s => let a := a + Z.of_N (N_of_ascii c) in mix a (b + a) s end.
#[local] Instance mixed : Sha256 := fun s => hex_digits 64 (mix 1 0 s).
#[local] Instance calm : Surrounding time_db := {| others := fun _ s => s; faults := fun _ => NoFault; readings := fun n _ => 100 * day + Z.of_nat n * second |}.
(** No commit is acknowledged; all are durable. *)
#[local] Instance silent : Commits := {| replies := fun _ _ => UnknownResult; durable := fun _ => true |}.

Definition metric (i seller : string) (stock : Z) : doc := mk_doc
  [("_id", VStr i); ("seller_id", VStr seller); ("date_from", VDate true (10 * day)); ("date_to", VDate true (20 * day)); ("stock", VInt stock); ("revision", VStr "r0")]%string.
Definition marker : doc := mk_doc [("_id", VStr (marker_id "77")); ("seller_id", VStr "77"); ("read_model", VStr READ_MODEL); ("state", VStr "stale"); ("revision", VStr "m0")]%string.
Definition source : list doc := [mk_doc [("_id", VStr "o1"); ("quantity", VInt 2)]]%string.
Definition planned : list doc := [metric "a" "77" 5; metric "c" "77" 3; metric "d" "77" 8].
Definition existing : list doc := [metric "a" "77" 1; metric "b" "77" 2; metric "c" "77" 3].
Definition plan : result sealed_plan :=
  let! p := _plan_stock_time_actions source planned existing in
  _seal_forward_plan "77" (VDate true (10 * day)) (VDate true (20 * day)) source p (Some marker).
Definition no_plan : sealed_plan :=
  {| sp_binding := {| b_seller_id := ""; b_date_from := 0; b_date_to := 0; b_source_fingerprint := ""; b_plan_fingerprint := "" |};
     sp_action_plan := {| ap_actions := []; ap_source_fingerprint := ""; ap_preimage_fingerprint := ""; ap_plan_fingerprint := ""; ap_action_count := 0; ap_insert_count := 0;
       ap_replace_count := 0; ap_delete_count := 0; ap_no_op_count := 0; ap_preimage_count := 0; ap_estimated_bson_bytes := 0; ap_estimated_json_bytes := 0;
       ap_estimated_transaction_payload_bytes := 0 |};
     sp_operation_id := ""; sp_marker_action := ""; sp_marker_preimage := None; sp_mutations := []; sp_expected_metric_documents := []; sp_desired_marker := ∅;
     sp_expected_metric_fingerprint := "";
     sp_ledger_counts := {| planned_insert_count := 0; planned_update_count := 0; planned_delete_count := 0; planned_preimage_count := 0 |} |}.
Definition p : sealed_plan := Eval vm_compute in match plan with Ok p => p | Err _ => no_plan end.
Definition keyed_docs (l : list doc) : gmap string doc := list_to_map (map (fun d => (id_of d, encode_doc d)) l).
Definition start : sworld time_db :=
  {| w_store := {| db_operations := ∅; db_preimages := ∅; db_metrics := keyed_docs (metric "x" "8" 9 :: existing); db_markers := keyed_docs [marker] |}; w_turn := 0 |}.
Definition token : string := "0123456789abcdef0123456789abcdef".
Definition after_forward : sworld time_db := Eval vm_compute in (_execute_sealed_forward_operation p token start).2.
Definition after_rollback : sworld time_db := Eval vm_compute in (_rollback_forward_operation (sp_operation_id p) after_forward).2.

Lemma p_sealed : sealed p.
Proof.
  eexists "77"%string, (VDate true (10 * day)), (VDate true (20 * day)), source, _, (Some marker).
  instantiate (1 := match _plan_stock_time_actions source planned existing with Ok a => a | Err _ => sp_action_plan no_plan end). by_vm.
Qed.
Lemma calm_foreign : foreign_faults.
Proof. split; [intros n e [He|He]; discriminate He|intros n k e He; discriminate He]. Qed.
Lemma calm_alone : forall n (s : time_db), others n s = s.
Proof. done. Qed.
Definition kept (m : gmap string doc) : bool := forallb (fun id => bool_decide (doc_id id.2 = Some id.1) && bool_decide (encode_doc id.2 = id.2)) (map_to_list m).
Lemma kept_ok m : kept m = true -> well_kept m.
Proof.
  unfold kept. intros Hm i d Hi. rewrite forallb_forall in Hm. apply elem_of_map_to_list, list_elem_of_In in Hi. apply Hm in Hi.
  apply andb_true_iff in Hi as [H1%bool_decide_eq_true H2%bool_decide_eq_true]. done.
Qed.
Lemma forward_runs : _execute_sealed_forward_operation p token start = (Ok "forward_committed"%string, after_forward).
Proof. by_vm. Qed.
Lemma backward_runs : _rollback_forward_operation (sp_operation_id p) after_forward =
  (Ok {| rp_operation_id := sp_operation_id p; rp_state := "rolled_back"; rp_mutations := [] |}, after_rollback).
Proof. by_vm. Qed.

(** The forward run replaced, deleted and inserted; the rollback undid it. *)
Lemma rollback_restores_witness : is_some (db_metrics (w_store after_forward) !! "b"%string) = false /\ is_some (db_metrics (w_store after_forward) !! "d"%string) = true /\
  scoped (sp_binding p) (w_store after_rollback) = scoped (sp_binding p) (w_store start) /\ is_some (scoped (sp_binding p) (w_store start) !! "b"%string) = true.
Proof.
  split; [by_vm|]. split; [by_vm|]. split; [|by_vm].
  assert (Hm : well_kept (db_metrics (w_store start))) by (apply kept_ok; by_vm).
  assert (Hk : well_kept (db_markers (w_store start))) by (apply kept_ok; by_vm).
  destruct (rollback_restores calm_alone p token start after_forward after_rollback _ calm_foreign p_sealed Hm Hk forward_runs backward_runs) as [[Hr _]|[[e He] _]];
    [exact Hr|discriminate He].
Defined.
Lemma forward_all_or_nothing_witness : carried_out p token (w_store start) (w_store after_forward).
Proof.
  destruct (forward_all_or_nothing calm_alone p token start (Ok "forward_committed"%string) after_forward p_sealed forward_runs) as [[_ Hne]|Hc]; [|exact Hc].
  exfalso. apply Hne. reflexivity.
Defined.

(** Another process touched a metric after the forward run. *)
Definition touched : sworld time_db := Eval vm_compute in
  {| w_store := with_docs Metrics (<["a"%string := metric "a" "77" 6]> (db_metrics (w_store after_forward))) (w_store after_forward); w_turn := w_turn after_forward |}.
Definition touched_set : record_set := Eval vm_compute in
  match validated_record_set (sp_operation_id p) (operation_of (sp_operation_id p) (w_store touched)) (preimages_of (sp_operation_id p) (w_store touched)) with
  | Ok rs => rs | Err _ => {| rs_operation_id := ""; rs_state := ""; rs_operation := ∅; rs_records := [] |} end.
Definition touched_row : doc := Eval vm_compute in default ∅ (head (rs_records touched_set)).
Lemma touched_valid : validated_record_set (sp_operation_id p) (operation_of (sp_operation_id p) (w_store touched)) (preimages_of (sp_operation_id p) (w_store touched)) = Ok touched_set.
Proof. by_vm. Qed.
Lemma drifted_metrics_survive_witness : row_target touched_row = (METRIC_COLLECTION, "a"%string) /\
  (_rollback_forward_operation (sp_operation_id p) touched).1 = Err rollback_blocked /\
  db_metrics (w_store (_rollback_forward_operation (sp_operation_id p) touched).2) = db_metrics (w_store touched).
Proof.
  split; [by_vm|]. split; [by_vm|].
  assert (Hk : well_kept (db_metrics (w_store touched))) by (apply kept_ok; by_vm).
  assert (Hin : touched_row ∈ rs_records touched_set) by exact (list_elem_of_lookup_2 (rs_records touched_set) 0 touched_row eq_refl).
  assert (Hmet : is_metric_row touched_row = true) by (by_vm).
  assert (Hd : scoped (_rollback_binding (rs_operation touched_set)) (w_store touched) !! (row_target touched_row).2 = Some (metric "a" "77" 6)) by (by_vm).
  assert (Hne : doc_get (metric "a" "77" 6) "revision" <> doc_get touched_row "expected_forward_revision") by (vm_compute; discriminate).
  exact (drifted_metrics_survive calm_alone (sp_operation_id p) touched (_rollback_forward_operation (sp_operation_id p) touched).1
    (_rollback_forward_operation (sp_operation_id p) touched).2 touched_set touched_row (metric "a" "77" 6) calm_foreign Hk touched_valid Hin Hmet Hd Hne (surjective_pairing _)).
Defined.

(** A second attempt took the operation over after the lease of the first. *)
Definition second_token : string := "fedcba9876543210fedcba9876543210".
Definition at_minute (n : Z) (k : nat) : Z := 100 * day + n * minute.
Definition first_context : operation_context :=
  {| c_operation_id := sp_operation_id p; c_state := "prepared"; c_attempt := 1; c_attempt_token := token; c_fence := 1; c_owns_lease := true |}.
Definition leased : time_db := Eval vm_compute in match acquire_tx (at_minute 0) p token 0%nat (w_store start) with Ok (_, _, s) => s | Err _ => w_store start end.
Definition leased_operation : doc := Eval vm_compute in default ∅ (operation_of (sp_operation_id p) leased).
Definition stored_operation : doc := Eval vm_compute in default ∅ (db_operations leased !! sp_operation_id p).
Definition taken : time_db := Eval vm_compute in
  with_docs Operations (<[sp_operation_id p := apply_stage (at_minute 3 0%nat) (takeover_stage second_token) stored_operation]> (db_operations leased)) leased.
Lemma superseded_attempt_never_commits_witness : exists e, forward_tx (at_minute 1) p first_context 0%nat taken = Err e.
Proof.
  assert (Hk : well_kept (db_operations leased)) by (apply kept_ok; by_vm).
  assert (Ho : owner p first_context (at_minute 1 0%nat) leased leased_operation) by (split_and!; by_vm).
  assert (Ht : takes_over p second_token leased taken).
  { exists (at_minute 3 0%nat), (sp_operation_id p), stored_operation. split_and!; by_vm. }
  exact (superseded_attempt_never_commits p second_token first_context (at_minute 1 0%nat) leased_operation leased taken taken (at_minute 1) 0%nat p_sealed Hk Ho Ht (rtc_refl _ _)).
Defined.

Lemma runs_take_whole_steps_witness : let w := run_stock_ops [Execute p token; RollBack (sp_operation_id p)] start in
  rtc stock_step (w_store start) (w_store w) /\ option_map (fun o => doc_get o "state") (operation_of (sp_operation_id p) (w_store w)) = Some (VStr "rolled_back").
Proof.
  split; [|by_vm].
  apply (runs_take_whole_steps [Execute p token; RollBack (sp_operation_id p)] start). intros q t Hin.
  apply elem_of_cons in Hin as [Hin|Hin]; [injection Hin as -> ->; exact p_sealed|]. apply list_elem_of_singleton in Hin. discriminate Hin.
Defined.
End StockTimeRuns.
