(* ===== verification/HistorySteps.v ===== *)
(** The staging store under any interleaving of its operations. *)

From S2P Require Export HistoryOrders HistoryProofs.

#[local] Open Scope Z_scope.

Section Calls.
Context `{PyRepr} `{BsonLength} `{ItemFingerprint} `{HistoryIndexes} `{Sha256}.

(** The settings of a worker. *)
Record settings := { g_models : list string; g_sellers : option (list string); g_budget : Z }.

(** The operations of the store. *)
Inductive call :=
| Initialize (job : doc) (initial : SheetsHistoryAcquisition)
| Checkpoint (job : doc) (expected proposed : SheetsHistoryAcquisition) (receipts : list SheetsHistoryReceipt)
| Progress (job : doc) (expected proposed : SheetsHistoryAcquisition) (receipts : list SheetsHistoryReceipt)
| BeginVerification (job : doc) (expected : SheetsHistoryAcquisition)
| BeginPublication (job : doc) (expected : SheetsHistoryAcquisition)
| Release (job : doc) (expected : SheetsHistoryAcquisition) (reason : string)
| Start (job : doc) (head : SheetsHistoryAcquisition) (total observed_at : option Z)
| SplitRange (job : doc) (head : SheetsHistoryAcquisition) (total : Z) (observed_at : option Z)
| Page (job : doc) (head : SheetsHistoryAcquisition) (source_total next_offset : Z) (receipts : list SheetsHistoryReceipt)
    (observed_at : option Z) (verify : bool).

Definition run_call (g : settings) (clock : nat -> Z) (c : call) : tx SheetsHistoryAcquisition :=
  let m := g_models g in let a := g_sellers g in
  match c with
  | Initialize job h => initialize clock m a job h
  | Checkpoint job e p rs => checkpoint clock m a job e p rs
  | Progress job e p rs => progress clock m a job e p rs
  | BeginVerification job e => begin_verification clock m a job e
  | BeginPublication job e => begin_publication clock m a job e
  | Release job e reason => release clock m a job e reason
  | Start job h total at_ => start clock m a (g_budget g) job h total at_
  | SplitRange job h total at_ => split clock m a (g_budget g) job h total at_
  | Page job h total next rs at_ verify =>
      page clock m a (g_budget g) job h total next rs at_ (if verify then Some (_compare_manifest h rs) else None)
  end.

(** A step: an operation commits, or something else changes jobs. *)
Inductive store_step (s : store) : store -> Prop :=
| step_call g clock c n a n' s' : run_call g clock c n s = Ok (a, n', s') -> store_step s s'
| step_jobs s' : jobs_only s s' -> store_step s s'.

(** The stores the modelled operations, those of orders, reach from empty
    collections. *)
Inductive reachable : store -> Prop :=
| reach_empty jobs : reachable {| st_jobs := jobs; st_heads := ∅; st_receipts := ∅; st_ranges := ∅ |}
| reach_step s s' : reachable s -> store_step s s' -> reachable s'.

(** ** What each operation does to heads and receipts *)

Variable g : settings.
Variable clock : nat -> Z.
Abbreviation models := (g_models g).
Abbreviation sellers := (g_sellers g).

(** Only ranges and jobs changed. *)
Definition ranges_only (s s' : store) : Prop := st_heads s' = st_heads s /\ st_receipts s' = st_receipts s.
Lemma jobs_ranges s s' : jobs_only s s' -> ranges_only s s'.
Proof using Type. intros (Hh & Hr & _). done. Qed.
Lemma ranges_refl s : ranges_only s s.
Proof using Type. done. Qed.
Lemma ranges_trans s s1 s2 : ranges_only s s1 -> ranges_only s1 s2 -> ranges_only s s2.
Proof using Type. intros [Hh Hr] [Hh' Hr']. split; congruence. Qed.
Lemma insert_range_frame o s : twp (insert_range o) (fun _ s' => ranges_only s s') s.
Proof using Type. unfold insert_range. repeat tx_step. done. Qed.
Lemma put_range_frame o s : twp (put_range o) (fun _ s' => ranges_only s s') s.
Proof using Type. unfold put_range. tx_step. destruct (st_ranges s !! o_id o); by tx_step. Qed.
Lemma active_frame h s : twp (_active h) (fun _ s' => s' = s) s.
Proof using Type. unfold _active. tx_step. case_match; repeat tx_step. done. Qed.
Lemma split_frame budget h o total s : twp (_split_node budget h o total) (fun _ s' => ranges_only s s') s.
Proof using Type.
  unfold _split_node. repeat tx_step. destruct a0 as [|a0 [|b0 [|]]]; repeat tx_step.
  tx_use insert_range_frame. intros _ s1 Hs1. tx_use insert_range_frame. intros _ s2 Hs2. tx_step.
  tx_use put_range_frame. intros _ s3 Hs3. tx_step. eauto using ranges_trans.
Qed.
Lemma compare_rows_frame h rs s : twp (compare_rows h rs) (fun _ s' => s' = s) s.
Proof using Type. induction rs as [|r rs IH]; cbn [compare_rows]; [by tx_step|]. tx_step. tx_step. apply IH. Qed.
Lemma compare_frame h rs b s : twp (_compare_manifest h rs b) (fun _ s' => s' = s) s.
Proof using Type. unfold _compare_manifest. tx_use compare_rows_frame. intros _ s1 ->. destruct b; by repeat tx_step. Qed.
Lemma check_page_frame h n rs s : twp (check_page h n rs) (fun _ s' => s' = s) s.
Proof using Type. induction rs as [|r rs IH]; cbn [check_page]; [by tx_step|]. repeat tx_step. apply IH. Qed.
Lemma check_totals_frame h s : twp (_check_split_totals h) (fun _ s' => s' = s) s.
Proof using Type. unfold _check_split_totals. repeat tx_step. done. Qed.
Lemma page_action_frame h total next rs v s :
  twp (page_action (g_budget g) h total next rs (if v : bool then Some (_compare_manifest h rs) else None)) (fun _ s' => ranges_only s s') s.
Proof using Type.
  unfold page_action. tx_use active_frame. intros node s1 ->. repeat tx_step. tx_use check_page_frame. intros _ s1 ->. repeat tx_step.
  tx_use put_range_frame. intros _ s1 Hs1. tx_step. apply twp_bind.
  eapply (twp_mono _ (fun _ s' => s' = s1)).
  { repeat case_match; repeat tx_step; try done; (tx_use check_totals_frame; intros _ s2 ->; by tx_step). }
  intros fin s2 ->. apply twp_bind. eapply (twp_mono _ (fun _ s' => s' = s1)).
  { destruct v; [apply compare_frame|by tx_step]. }
  intros _ s2 ->. by tx_step.
Qed.


(** ** The transitions of heads and receipts *)

Definition published_head (h : SheetsHistoryAcquisition) (members now : Z) : SheetsHistoryAcquisition :=
  h {{ h_phase := Publish; h_fetched_count := members; h_checkpoint_revision ::= Z.succ; h_updated_at := now }}.

(** The head as it is stored. *)
Definition stored_head (s : store) (h : SheetsHistoryAcquisition) : Prop := st_heads s !! h_id h = Some h /\ bson_acquisition h = h.

Inductive head_transition (s s' : store) : Prop :=
| tr_idle : ranges_only s s' -> head_transition s s'
| tr_new h : st_heads s !! h_id h = None -> untouched h = true ->
    st_heads s' = <[h_id h := h]> (st_heads s) -> st_receipts s' = st_receipts s -> head_transition s s'
| tr_staged before after docs new : checkpointed before after docs new s s' -> head_transition s s'
| tr_verify h now : stored_head s h -> hydrated h = true -> baseline_complete h (st_receipts s) = true ->
    st_heads s' = <[h_id h := bson_acquisition (verification_pass h now)]> (st_heads s) -> st_receipts s' = st_receipts s -> head_transition s s'
| tr_restart h now : stored_head s h -> is_staging (h_phase h) = true -> h_drift_restarts h + 1 <= 3 ->
    st_heads s' = <[h_id h := bson_acquisition (restart_pass h now)]> (st_heads s) -> st_receipts s' = st_receipts s -> head_transition s s'
| tr_publish h now : stored_head s h -> verified h = true ->
    manifest_counts_ok h (st_receipts s) = true -> find_first (lacks_detail h (st_receipts s)) (st_receipts s) = None ->
    st_heads s' = <[h_id h := bson_acquisition (published_head h (count (of_kind h Membership) (st_receipts s)) now)]> (st_heads s) ->
    st_receipts s' = st_receipts s -> head_transition s s'.

Lemma stored_heads s s1 h : st_heads s1 = st_heads s -> stored_head s h -> stored_head s1 h.
Proof using Type. unfold stored_head. by intros ->. Qed.

Lemma transition_frame s s1 s2 s3 : ranges_only s s1 -> head_transition s1 s2 -> ranges_only s2 s3 -> head_transition s s3.
Proof using Type.
  intros [Hh Hr] Ht [Hh' Hr'].
  destruct Ht as [[Hh2 Hr2]|h Hn Hu Hi Hr2|b a docs new [Hb ? ? ? ? ? Hst ? ? Hs]|h now Hs Hhy Hba Hi Hr2|h now Hs Hst Hd Hi Hr2|h now Hs Hv Hm Hd Hi Hr2];
    rewrite ?Hh, ?Hr in *.
  - apply tr_idle. split; congruence.
  - apply (tr_new _ _ h); congruence.
  - apply (tr_staged _ _ b a docs new). split; try done; congruence.
  - apply (tr_verify _ _ h now); try congruence. by eapply stored_heads; [symmetry; exact Hh|].
  - apply (tr_restart _ _ h now); try congruence. by eapply stored_heads; [symmetry; exact Hh|].
  - apply (tr_publish _ _ h now); try congruence. by eapply stored_heads; [symmetry; exact Hh|].
Qed.
Lemma transition_from s s1 s2 : jobs_only s s1 -> head_transition s1 s2 -> head_transition s s2.
Proof using Type. intros Hj Ht. eapply transition_frame; [by apply jobs_ranges|exact Ht|done]. Qed.
Lemma transition_to s s1 s2 : head_transition s s1 -> jobs_only s1 s2 -> head_transition s s2.
Proof using Type. intros Ht Hj. eapply transition_frame; [by apply ranges_refl|exact Ht|by apply jobs_ranges]. Qed.
Lemma transition_jobs s s' : jobs_only s s' -> head_transition s s'.
Proof using Type. intros Hj. apply tr_idle. by apply jobs_ranges. Qed.
Lemma bson_idem h : bson_acquisition (bson_acquisition h) = bson_acquisition h.
Proof using Type.
  destruct h as [? ? ? ? ? ? ? ? ? ? ? ? ? ? ? ? ? ? ? ? ? from until ? ?]. unfold bson_acquisition.
  cbv beta iota delta -[floor_ms option_map]. rewrite !floor_ms_idem. destruct from, until; cbv beta iota delta -[floor_ms]; by rewrite ?floor_ms_idem.
Qed.
Lemma jobs_head s s' e h : jobs_only s s' -> _head e = Ok h -> st_heads s !! h_id h = Some h -> stored_head s' h.
Proof using Type. intros [Hh _] He Hs. apply _head_spec in He as [-> _]. split; [by rewrite Hh|apply bson_idem]. Qed.

Lemma checkpoint_transition job e p rs s : twp (checkpoint clock models sellers job e p rs) (fun _ s' => head_transition s s') s.
Proof using Type.
  eapply twp_mono; [apply checkpoint_spec|]. cbv beta.
  intros a s' (before & docs & _ & _ & _ & _ & [[Hj _]|[new Hc]]); [by apply transition_jobs|by eapply tr_staged].
Qed.

Lemma initialize_transition job h s : twp (initialize clock models sellers job h) (fun _ s' => head_transition s s') s.
Proof using Type.
  unfold initialize. repeat tx_step. tx_use fence_frame. intros _ s1 Hs1. tx_step. apply twp_bind.
  eapply (twp_mono _ (fun _ s' => head_transition s1 s')).
  - destruct (st_heads s1 !! h_id a) as [h'|] eqn:Hh; repeat tx_step; [by apply tr_idle|by apply (tr_new _ _ a)].
  - intros h' s2 Hs2. repeat tx_step. tx_use fence_frame. intros _ s3 Hs3. repeat tx_step.
    eapply transition_from; [exact Hs1|]. by eapply transition_to.
Qed.

Lemma progress_transition job e p rs s : twp (progress clock models sellers job e p rs) (fun _ s' => head_transition s s') s.
Proof using Type.
  unfold progress. repeat tx_step. tx_use current_frame. intros _ s1 (Hs1 & _).
  tx_use checkpoint_transition. intros saved s2 Hs2. tx_use pending_frame. intros _ s3 Hs3. tx_step.
  eapply transition_from; [exact Hs1|]. by eapply transition_to.
Qed.

(** A range action leaves heads and receipts to the checkpoint. *)
Lemma run_transition job h (action : tx (range_changes * list SheetsHistoryReceipt)) at_ s :
  (forall s1, twp action (fun _ s2 => ranges_only s1 s2) s1) ->
  twp (_run clock models sellers job h action at_) (fun _ s' => head_transition s s') s.
Proof using Type.
  intros Ha. unfold _run. repeat tx_step. tx_use current_frame. intros _ s1 (Hs1 & _). tx_use Ha. intros [c rs] s2 Hs2. repeat tx_step.
  tx_use checkpoint_transition. intros saved s3 Hs3. tx_use pending_frame. intros _ s4 Hs4. tx_step.
  eapply transition_frame; [|exact Hs3|by apply jobs_ranges]. eapply ranges_trans; [by apply jobs_ranges|done].
Qed.

Lemma saved_head_spec h h' : (let! x := validate_acquisition h in _head x) = Ok h' -> h' = bson_acquisition h /\ validate_acquisition h' = Ok h'.
Proof using Type. intros Hs. result_inv. apply validate_acquisition_same in E as ->. by apply _head_spec. Qed.
Ltac saved_head_is := match goal with Hv : (let! _ := validate_acquisition _ in _) = Ok _ |- _ => apply saved_head_spec in Hv as [-> Hvalid] end.

Lemma begin_verification_transition job e s : twp (begin_verification clock models sellers job e) (fun _ s' => head_transition s s') s.
Proof using Type.
  unfold begin_verification. repeat tx_step. tx_use current_frame. intros d s1 (Hs1 & Hh & _). repeat tx_step. saved_head_is.
  tx_use replace_head_spec. intros _ s2 ->. tx_use fence_frame. intros _ s3 Hs3. tx_use pending_frame. intros _ s4 Hs4. tx_step.
  eapply transition_to; [|exact Hs4]. eapply transition_to; [|exact Hs3]. eapply transition_from; [exact Hs1|].
  by eapply tr_verify; [eapply jobs_head| | | |].
Qed.

Lemma begin_publication_transition job e s : twp (begin_publication clock models sellers job e) (fun _ s' => head_transition s s') s.
Proof using Type.
  unfold begin_publication. repeat tx_step. tx_use current_frame. intros d s1 (Hs1 & Hh & _). repeat tx_step. saved_head_is.
  tx_use replace_head_spec. intros _ s2 ->. tx_use pending_frame. intros _ s4 Hs4. tx_step.
  eapply transition_to; [|exact Hs4]. eapply transition_from; [exact Hs1|].
  eapply tr_publish; [by eapply jobs_head|done|done| |done|done]. by destruct (find_first (lacks_detail _ _) _).
Qed.

Lemma restarts_valid h : validate_acquisition h = Ok h -> h_drift_restarts h <= 3.
Proof using Type.
  unfold validate_acquisition. intros Hv. destruct (acquisition_fields_ok h) eqn:E; [|done]. unfold acquisition_fields_ok in E. bool_to_prop. lia.
Qed.

Lemma restart_valid h now : validate_acquisition (bson_acquisition (restart_pass h now)) = Ok (bson_acquisition (restart_pass h now)) ->
  h_drift_restarts h + 1 <= 3.
Proof using Type.
  intros Hv%restarts_valid. change (h_drift_restarts _) with (Z.succ (h_drift_restarts h)) in Hv. lia.
Qed.

Lemma release_transition job e reason s : twp (release clock models sellers job e reason) (fun _ s' => head_transition s s') s.
Proof using Type.
  unfold release. repeat tx_step. tx_use current_frame. intros claimed s1 (Hs1 & Hh & Hst & _). case_match; [|case_match].
  - tx_use finish_frame. intros f s2 Hs2. repeat tx_step. eapply transition_from; [exact Hs1|by apply transition_jobs].
  - tx_use finish_frame. intros f s2 Hs2. repeat tx_step. tx_use update_job_frame. intros m s3 Hs3. tx_step.
    eapply transition_from; [exact Hs1|]. eapply transition_to; [|exact Hs3]. by apply transition_jobs.
  - apply twp_bind. eapply (twp_mono _ (fun _ s' => head_transition s s')).
    + case_match; [|tx_step; by apply transition_jobs]. repeat tx_step. saved_head_is.
      tx_use replace_head_spec. intros _ s2 ->. tx_step. eapply transition_from; [exact Hs1|].
      eapply tr_restart; [by eapply jobs_head|done| |done|done]. by eapply restart_valid.
    + intros saved s2 Ht. tx_use fence_frame. intros _ s3 Hs3. repeat tx_step. tx_use pending_frame. intros _ s4 Hs4. tx_step.
      eapply transition_to; [|exact Hs4]. by eapply transition_to.
Qed.

Lemma call_transition c s : twp (run_call g clock c) (fun _ s' => head_transition s s') s.
Proof using Type.
  destruct c; cbn [run_call].
  - apply initialize_transition.
  - apply checkpoint_transition.
  - apply progress_transition.
  - apply begin_verification_transition.
  - apply begin_publication_transition.
  - apply release_transition.
  - unfold start. apply run_transition. intros s1. unfold start_action. repeat tx_step. tx_use insert_range_frame. intros _ s2 Hs2.
    destruct total; [|by tx_step]. tx_use split_frame. intros ch s3 Hs3. tx_step. by eapply ranges_trans.
  - unfold split. apply run_transition. intros s1. unfold split_action. tx_use active_frame. intros o s2 ->. tx_use split_frame. intros ch s3 Hs3. by tx_step.
  - unfold page. repeat tx_step. apply run_transition. intros s1. apply page_action_frame.
Qed.
End Calls.

Section Reach.
Context `{PyRepr} `{BsonLength} `{ItemFingerprint} `{HistoryIndexes} `{Sha256}.

Lemma step_transition s s' : store_step s s' -> head_transition s s'.
Proof using Type. intros [g clock c n a n' s1 Hc|s1 Hj]; [by eapply call_transition|by apply tr_idle, jobs_ranges]. Qed.

Lemma reachable_ind_transition (I : store -> Prop) :
  (forall jobs, I {| st_jobs := jobs; st_heads := ∅; st_receipts := ∅; st_ranges := ∅ |}) ->
  (forall s s', reachable s -> I s -> head_transition s s' -> I s') -> forall s, reachable s -> I s.
Proof using Type. intros Hempty Hs s Hr. induction Hr as [jobs|s s' Hr IH Hst]; [done|]. by eapply Hs, step_transition. Qed.

(** ** Counts *)

Lemma counts_ranges s s' : ranges_only s s' -> counts_inv s -> counts_inv s'.
Proof using Type. intros [Hh Hr] [Hk Hp Hu Hm Hc]. split; rewrite ?Hh, ?Hr; done. Qed.

Lemma counts_transition s s' : head_transition s s' -> counts_inv s -> counts_inv s'.
Proof using Type.
  intros Ht Hi.
  destruct Ht as [Hj|h Hn Hu Hs Hr|b a docs new Hc|h now [Hs _] _ _ Hs' Hr|h now [Hs _] _ _ Hs' Hr|h now [Hs _] _ _ _ Hs' Hr].
  - by eapply counts_ranges.
  - unfold untouched in Hu. bool_to_prop. eapply (counts_ranges (with_heads (insert (h_id h) h) s)); [by split|]. apply counts_first; [done|done|lia|lia].
  - by eapply counts_checkpointed.
  - eapply (counts_ranges (with_heads (insert (h_id h) (bson_acquisition (verification_pass h now))) s)); [by split|]. by apply counts_new_pass.
  - eapply (counts_ranges (with_heads (insert (h_id h) (bson_acquisition (restart_pass h now))) s)); [by split|]. by apply counts_new_pass.
  - eapply (counts_ranges (with_heads (insert (h_id h) (bson_acquisition (published_head h (count (of_kind h Membership) (st_receipts s)) now))) s)); [by split|]. by apply counts_published.
Qed.
Lemma counts_reachable s : reachable s -> counts_inv s.
Proof using Type.
  apply reachable_ind_transition; [|eauto using counts_transition]. intros jobs. split; cbn; by intros *; rewrite ?lookup_empty.
Qed.

(** ** Publication *)

(** A published acquisition: its counts are those of its memberships, and each
    has a detail, of this pass or of the one before. *)
Record complete_head (h : SheetsHistoryAcquisition) (m : gmap string SheetsHistoryReceipt) : Prop := {
  ch_fetched : h_fetched_count h = count (of_kind h Membership) m;
  ch_discovered : h_discovered_count h = count (of_kind h Membership) m;
  ch_details i r : m !! i = Some r -> of_kind h Membership r = true -> exists j d, m !! j = Some d /\ detail_of h (r_resource_id r) d = true;
}.
Definition published_inv (s : store) : Prop :=
  counts_inv s /\ forall i h, st_heads s !! i = Some h -> h_phase h = Publish -> complete_head h (st_receipts s).

(** Receipts of other acquisitions do not matter. *)
Lemma complete_staged h docs new m m' : staged docs new m m' -> Forall (fun r => r_acquisition_id r <> h_id h) new ->
  complete_head h m -> complete_head h m'.
Proof using Type.
  intros Hst Hnew [Hf Hd Hdet].
  assert (Hn : number (of_kind h Membership) new = 0).
  { apply number_none. eapply Forall_impl; [exact Hnew|]. intros r Hr. apply of_kind_false. by left. }
  split; rewrite ?(sg_count _ _ _ _ Hst), ?Hn; [lia|lia|].
  intros i r Hr Hm. destruct (sg_origin _ _ _ _ Hst i r Hr) as [Hr'|[Hr' _]].
  - destruct (Hdet i r Hr' Hm) as (j & d & Hj & Hd'). exists j, d. split; [|done]. eapply lookup_weaken; [exact Hj|]. apply (sg_grow _ _ _ _ Hst).
  - apply of_kind_iff in Hm as (Ha & _). rewrite Forall_forall in Hnew. destruct (Hnew r); [by apply list_elem_of_In|done].
Qed.

Lemma published_transition s s' : head_transition s s' -> published_inv s -> published_inv s'.
Proof using Type.
  intros Ht [Hi Hp]. split; [by eapply counts_transition|]. intros i h Hh Hph.
  destruct Ht as [[Hhs Hrs]|g Hn Hu Hs Hr|b a docs new Hc|g now Hg _ _ Hs' Hr|g now Hg _ _ Hs' Hr|g now [Hg _] Hv Hm Hl Hs' Hr].
  - rewrite Hrs. rewrite Hhs in Hh. by apply (Hp i).
  - rewrite Hr. rewrite Hs in Hh. apply lookup_insert_Some in Hh as [[<- <-]|[_ Hh]]; [|by apply (Hp i)].
    unfold untouched in Hu. bool_to_prop. bools. congruence.
  - rewrite (cp_heads _ _ _ _ _ _ Hc) in Hh. pose proof (cp_batch _ _ _ _ _ _ Hc) as Hbatch. pose proof (cp_staged _ _ _ _ _ _ Hc) as Hst.
    apply lookup_insert_Some in Hh as [[<- <-]|[Hne Hh]].
    { pose proof (cp_step _ _ _ _ _ _ Hc) as Hstep. unfold staging_step in Hstep. rewrite Hph in Hstep. done. }
    eapply complete_staged; [exact Hst| |by apply (Hp i)]. apply Forall_forall. intros r Hr.
    rewrite Forall_forall in Hbatch. specialize (Hbatch r (proj2 (list_elem_of_In _ _) (sg_incl _ _ _ _ Hst r (proj1 (list_elem_of_In _ _) Hr)))).
    unfold same_batch in Hbatch. bool_to_prop. pose proof (cp_identity _ _ _ _ _ _ Hc) as Hid. unfold same_identity in Hid. bool_to_prop.
    bools.
    pose proof (ci_key _ Hi _ _ Hh). congruence.
  - rewrite Hr. rewrite Hs' in Hh. apply lookup_insert_Some in Hh as [[<- <-]|[_ Hh]]; [done|by apply (Hp i)].
  - rewrite Hr. rewrite Hs' in Hh. apply lookup_insert_Some in Hh as [[<- <-]|[_ Hh]]; [done|by apply (Hp i)].
  - rewrite Hr. rewrite Hs' in Hh. apply lookup_insert_Some in Hh as [[<- <-]|[_ Hh]]; [|by apply (Hp i)].
    unfold manifest_counts_ok in Hm. bool_to_prop.
    split; [done|by symmetry|]. intros j r Hj Hk. change (of_kind g Membership r = true) in Hk.
    pose proof (proj1 (find_first_none _ _) Hl j r Hj) as Hd. unfold lacks_detail in Hd. rewrite Hk in Hd. cbn in Hd.
    destruct (find_first (detail_of g (r_resource_id r)) (st_receipts s)) as [d|] eqn:Hf; [|done].
    apply find_first_some in Hf as (k & Hk' & Hd'). exists k, d. done.
Qed.
Lemma published_reachable s : reachable s -> published_inv s.
Proof using Type.
  apply reachable_ind_transition; [|eauto using published_transition]. intros jobs. split; [|intros i h; cbn; by rewrite lookup_empty].
  split; cbn; by intros *; rewrite ?lookup_empty.
Qed.

(** ** Revisions *)

(** A head after some transitions: the same, or a later revision of the same
    acquisition, at the same pass or a later one. *)
Record follows (h h' : SheetsHistoryAcquisition) : Prop := {
  fo_identity : same_identity h h' = true;
  fo_generation : h_generation h' = h_generation h;
  fo_pass : h_pass_number h <= h_pass_number h';
  fo_drifts : h_drift_restarts h <= h_drift_restarts h';
  fo_revision : h' = h \/ h_checkpoint_revision h < h_checkpoint_revision h';
}.
Lemma same_identity_refl h : same_identity h h = true.
Proof using Type. unfold same_identity. by rewrite !bool_decide_true. Qed.
Lemma same_identity_trans a b c : same_identity a b = true -> same_identity b c = true -> same_identity a c = true.
Proof using Type. unfold same_identity. rewrite !andb_true_iff, !bool_decide_eq_true. intuition congruence. Qed.
Lemma follows_refl h : follows h h.
Proof using Type. split; try done; [apply same_identity_refl|by left]. Qed.
Lemma follows_trans a b c : follows a b -> follows b c -> follows a c.
Proof using Type.
  intros [Hi Hg Hp Hd Hr] [Hi' Hg' Hp' Hd' Hr']. split; [by eapply same_identity_trans|congruence|lia|lia|].
  destruct Hr as [->|Hr], Hr' as [->|Hr']; [by left|by right|by right|right; lia].
Qed.

(** The saved head keeps the identity. *)
Lemma same_identity_saved h h' : bson_acquisition h = h ->
  (h_id h', h_seller_id h', h_read_model h', h_plan_id h', h_scope_id h', h_job_id h', h_date_from h', h_date_to h', h_created_at h') =
  (h_id h, h_seller_id h, h_read_model h, h_plan_id h, h_scope_id h, h_job_id h, h_date_from h, h_date_to h, h_created_at h) ->
  same_identity h (bson_acquisition h') = true.
Proof using Type.
  intros Hb [= Hi Hs Hm Hp Hc Hj Hf Ht Ha]. unfold same_identity. rewrite !andb_true_iff, !bool_decide_eq_true.
  repeat split; [by symmetry..| | |];
    [change (h_date_from h = floor_ms (h_date_from h')); rewrite Hf; by rewrite <- Hb at 1
    |change (h_date_to h = floor_ms (h_date_to h')); rewrite Ht; by rewrite <- Hb at 1
    |change (h_created_at h = floor_ms (h_created_at h')); rewrite Ha; by rewrite <- Hb at 1].
Qed.

Definition heads_follow (s s' : store) : Prop :=
  forall i h, st_heads s !! i = Some h -> exists h', st_heads s' !! i = Some h' /\ follows h h'.

Lemma heads_insert s s' i h h' : st_heads s' = <[i := h']> (st_heads s) -> st_heads s !! i = Some h -> follows h h' -> heads_follow s s'.
Proof using Type.
  intros Hs Hh Hf j k Hk. rewrite Hs. destruct (decide (i = j)) as [<-|Hne].
  - rewrite lookup_insert_eq. exists h'. split; [done|]. by simplify_eq.
  - rewrite lookup_insert_ne by done. exists k. split; [done|apply follows_refl].
Qed.

Lemma follow_transition s s' : head_transition s s' -> heads_follow s s'.
Proof using Type.
  intros [[Hhs Hrs]|g Hn Hu Hs Hr|b a docs new Hc|g now [Hg Hb] _ _ Hs' Hr|g now [Hg Hb] _ _ Hs' Hr|g now [Hg Hb] Hv Hm Hl Hs' Hr].
  - intros i h Hh. rewrite Hhs. exists h. split; [done|apply follows_refl].
  - intros i h Hh. rewrite Hs, lookup_insert_ne by congruence. exists h. split; [done|apply follows_refl].
  - eapply heads_insert; [apply Hc|apply Hc|]. pose proof (cp_pass _ _ _ _ _ _ Hc) as Hp. pose proof (cp_step _ _ _ _ _ _ Hc) as Hst.
    unfold same_pass, staging_step in *. bool_to_prop. bools. split; [apply Hc|congruence|lia|lia|right; lia].
  - eapply heads_insert; [exact Hs'|exact Hg|].
    split; [by apply same_identity_saved|done|change (h_pass_number g <= Z.succ (h_pass_number g)); lia|done|].
    right. change (h_checkpoint_revision g < Z.succ (h_checkpoint_revision g)). lia.
  - eapply heads_insert; [exact Hs'|exact Hg|].
    split; [by apply same_identity_saved|done|change (h_pass_number g <= Z.succ (h_pass_number g)); lia
           |change (h_drift_restarts g <= Z.succ (h_drift_restarts g)); lia|].
    right. change (h_checkpoint_revision g < Z.succ (h_checkpoint_revision g)). lia.
  - eapply heads_insert; [exact Hs'|exact Hg|]. split; [by apply same_identity_saved|done|done|done|].
    right. change (h_checkpoint_revision g < Z.succ (h_checkpoint_revision g)). lia.
Qed.

(** One store after another, some steps later. *)
Inductive later (s : store) : store -> Prop :=
| later_refl : later s s
| later_step s1 s2 : later s s1 -> store_step s1 s2 -> later s s2.

Lemma follow_later s s' : later s s' -> heads_follow s s'.
Proof using Type.
  induction 1 as [|s1 s2 _ IH Hs]; [intros i h Hh; exists h; split; [done|apply follows_refl]|].
  intros i h Hh. destruct (IH i h Hh) as (h1 & Hh1 & Hf1). destruct (follow_transition _ _ (step_transition _ _ Hs) i h1 Hh1) as (h2 & Hh2 & Hf2).
  exists h2. split; [done|]. by eapply follows_trans.
Qed.
End Reach.
