(* ===== verification/RangeProofs.v ===== *)
(** The ranges of an acquisition cover its interval: whatever operations ran,
    the ranges of a pass that are not split hold each instant once. *)

From S2P Require Export HistorySteps.

#[local] Open Scope Z_scope.

Abbreviation ranges := (gmap string SheetsHistoryOrderRange).

(** ** The tree of a pass *)

(** The key of the root of the head's pass. *)
Definition root_key `{Sha256} (h : SheetsHistoryAcquisition) : string := sha256_hex (scope_identity h (h_id h)).

(** An unsplit range of the pass at [i] holds the instant. *)
Definition leaf_at (h : SheetsHistoryAcquisition) (m : ranges) (t : Z) (i : string) : Prop :=
  exists o, m !! i = Some o /\ scoped h o = true /\ o_state o <> Split /\ inside (o_node o) t = true.

Definition ranges_wf (m : ranges) : Prop := forall i o, m !! i = Some o -> o_id o = i /\ bson_node (o_node o) = o_node o.

(** Its ends are those of the acquisition, or hours. *)
Definition ends_ok (h : SheetsHistoryAcquisition) (n : OrderRangeNode) : Prop :=
  (date_from n = h_date_from h \/ on_hour (date_from n)) /\ (date_to n = h_date_to h \/ on_hour (date_to n)).

Record tree_ok `{Sha256} (h : SheetsHistoryAcquisition) (m : ranges) : Prop := {
  tk_root i o : m !! i = Some o -> scoped h o = true -> is_some (m !! root_key h) = true;
  tk_tiles t : (exists i o, m !! i = Some o /\ scoped h o = true) -> h_date_from h <= t < h_date_to h ->
    exists i, leaf_at h m t i /\ forall j, leaf_at h m t j -> j = i;
  tk_ends i o : m !! i = Some o -> scoped h o = true -> ends_ok h (o_node o);
}.

(** What a range operation of the head does. *)
Record ranges_step `{Sha256} (h : SheetsHistoryAcquisition) (m m' : ranges) : Prop := {
  rs_dom i : is_some (m !! i) = true -> is_some (m' !! i) = true;
  rs_other i o : scoped h o = false -> m !! i = Some o <-> m' !! i = Some o;
  rs_wf : ranges_wf m -> ranges_wf m';
  rs_tree : ranges_wf m -> tree_ok h m -> tree_ok h m';
}.

Section Trees.
Context `{Sha256}.
Implicit Types (h : SheetsHistoryAcquisition) (m : ranges) (o p a b : SheetsHistoryOrderRange).

Lemma ranges_step_refl h m : ranges_step h m m.
Proof using Type. by split. Qed.
Lemma ranges_step_trans h m m1 m2 : ranges_step h m m1 -> ranges_step h m1 m2 -> ranges_step h m m2.
Proof using Type. intros [D O W T] [D' O' W' T']. split; [by auto| |by auto|by auto]. intros i o Ho. by rewrite O, O'. Qed.

Lemma wf_insert m o : bson_node (o_node o) = o_node o -> ranges_wf m -> ranges_wf (<[o_id o := o]> m).
Proof using Type. intros Hb Hw i x Hx. apply lookup_insert_Some in Hx as [[<- <-]|[_ Hx]]; [done|by apply Hw]. Qed.

(** The root of a pass. *)
Lemma insert_root_step h m o : m !! o_id o = None -> o_id o = root_key h -> scoped h o = true -> o_state o <> Split ->
  bson_node (o_node o) = o_node o -> date_from (o_node o) = h_date_from h -> date_to (o_node o) = h_date_to h ->
  ranges_step h m (<[o_id o := o]> m).
Proof using Type.
  intros Hn Hk Hs Hst Hb Hf Ht. split.
  - intros i Hi. destruct (decide (o_id o = i)) as [<-|Hne]; [by rewrite lookup_insert_eq|by rewrite lookup_insert_ne].
  - intros i x Hx. rewrite lookup_insert_Some. split; [intros Hi; right; split; [congruence|done]|]. intros [[_ <-]|[_ Hi]]; [congruence|done].
  - by apply wf_insert.
  - intros _ [Hroot _ _].
    assert (Hempty : forall i x, m !! i = Some x -> scoped h x = false).
    { intros i x Hx. destruct (scoped h x) eqn:Hsx; [|done]. specialize (Hroot i x Hx Hsx). rewrite <- Hk, Hn in Hroot. done. }
    split; [intros i x _ _; by rewrite <- Hk, lookup_insert_eq| |].
    2: { intros i x Hx Hsx. apply lookup_insert_Some in Hx as [[_ <-]|[_ Hx]]; [split; by left|]. by rewrite (Hempty i x Hx) in Hsx. }
    intros t _ Hin. exists (o_id o). split.
    + exists o. rewrite lookup_insert_eq. repeat split; try done. unfold inside. rewrite Hf, Ht. apply andb_true_iff. split; [apply Z.leb_le|apply Z.ltb_lt]; lia.
    + intros j (x & Hx & Hsx & _). apply lookup_insert_Some in Hx as [[<- _]|[_ Hx]]; [done|]. by rewrite (Hempty j x Hx) in Hsx.
Qed.

(** A page of a range: its node stays. *)
Lemma replace_leaf_step h m p p' : m !! o_id p = Some p -> o_id p' = o_id p -> scoped h p = true -> scoped h p' = true ->
  o_node p' = o_node p -> o_state p <> Split -> o_state p' <> Split -> ranges_step h m (<[o_id p' := p']> m).
Proof using Type.
  intros Hp Hid Hs Hs' Hn Hst Hst'. rewrite Hid. split.
  - intros i Hi. destruct (decide (o_id p = i)) as [<-|Hne]; [by rewrite lookup_insert_eq|by rewrite lookup_insert_ne].
  - intros i x Hx. rewrite lookup_insert_Some. split; [intros Hi; right; split; [congruence|done]|]. intros [[_ <-]|[_ Hi]]; [congruence|done].
  - intros Hw i x Hx. apply lookup_insert_Some in Hx as [[<- <-]|[_ Hx]]; [|by apply Hw]. split; [done|]. rewrite Hn. by apply (Hw (o_id p)).
  - intros Hw [Hroot Htiles Hends].
    assert (Hleaf : forall t j, leaf_at h (<[o_id p := p']> m) t j <-> leaf_at h m t j).
    { intros t j. unfold leaf_at. destruct (decide (o_id p = j)) as [<-|Hne].
      - rewrite lookup_insert_eq, Hp. split; intros (x & [= <-] & _ & _ & Hi); [exists p|exists p']; by rewrite ?Hn, <- ?Hn in *.
      - by rewrite lookup_insert_ne. }
    split.
    + intros i x _ _. assert (Hr := Hroot (o_id p) p Hp Hs). destruct (decide (o_id p = root_key h)) as [He|Hne]; [by rewrite He, lookup_insert_eq|by rewrite lookup_insert_ne].
    + intros t _ Hin. destruct (Htiles t ltac:(by exists (o_id p), p) Hin) as (i & Hi & Hu). exists i. rewrite Hleaf. split; [done|].
      intros j Hj. apply Hu. by rewrite <- Hleaf.
    + intros i x Hx Hsx. apply lookup_insert_Some in Hx as [[_ <-]|[_ Hx]]; [rewrite Hn; by eapply Hends|by eapply Hends].
Qed.

(** A split: two children take the place of their parent. *)
Lemma split_step h m p p' a b :
  m !! o_id p = Some p -> o_id p' = o_id p -> scoped h p = true -> scoped h p' = true -> o_node p' = o_node p ->
  o_state p <> Split -> o_state p' = Split ->
  m !! o_id a = None -> <[o_id a := a]> m !! o_id b = None -> scoped h a = true -> scoped h b = true ->
  o_state a <> Split -> o_state b <> Split -> bson_node (o_node a) = o_node a -> bson_node (o_node b) = o_node b ->
  date_from (o_node a) = date_from (o_node p) -> date_to (o_node a) = date_from (o_node b) -> date_to (o_node b) = date_to (o_node p) ->
  date_from (o_node a) <= date_to (o_node a) <= date_to (o_node b) -> on_hour (date_to (o_node a)) ->
  ranges_step h m (<[o_id p' := p']> (<[o_id b := b]> (<[o_id a := a]> m))).
Proof using Type.
  intros Hp Hid Hsp Hsp' Hn Hst Hst' Ha Hb Hsa Hsb Hsta Hstb Hba Hbb Hf Hm Ht Hord Hhour. rewrite Hid.
  apply lookup_insert_None in Hb as [Hb Hab].
  assert (Hpa : o_id p <> o_id a) by congruence. assert (Hpb : o_id p <> o_id b) by congruence.
  assert (Hdom : forall i, is_some (m !! i) = true -> is_some (<[o_id p := p']> (<[o_id b := b]> (<[o_id a := a]> m)) !! i) = true).
  { intros i Hi. destruct (decide (o_id p = i)) as [<-|H1]; [by rewrite lookup_insert_eq|]. rewrite lookup_insert_ne by done.
    destruct (decide (o_id b = i)) as [<-|H2]; [by rewrite lookup_insert_eq|]. rewrite lookup_insert_ne by done.
    destruct (decide (o_id a = i)) as [<-|H3]; [by rewrite lookup_insert_eq|]. by rewrite lookup_insert_ne. }
  split; [exact Hdom| | |].
  - intros i x Hx. rewrite !lookup_insert_Some. split.
    + intros Hi. right. split; [congruence|]. right. split; [congruence|]. right. split; [congruence|done].
    + intros [[_ <-]|[_ [[_ <-]|[_ [[_ <-]|[_ Hi]]]]]]; congruence.
  - intros Hw. rewrite <- Hid. apply wf_insert; [rewrite Hn; by apply (Hw (o_id p))|]. by apply wf_insert, wf_insert.
  - intros Hw [Hroot Htiles Hends]. split.
    { intros i x _ _. apply Hdom. by apply (Hroot (o_id p) p). }
    2: { intros i x Hx Hsx. destruct (Hends _ _ Hp Hsp) as [Hef Het].
      apply lookup_insert_Some in Hx as [[_ <-]|[_ Hx]]; [by rewrite Hn|].
      apply lookup_insert_Some in Hx as [[_ <-]|[_ Hx]]; [split; [right; by rewrite <- Hm|by rewrite Ht]|].
      apply lookup_insert_Some in Hx as [[_ <-]|[_ Hx]]; [split; [by rewrite Hf|by right]|by eapply Hends]. }
    intros t _ Hin. destruct (Htiles t ltac:(by exists (o_id p), p) Hin) as (i & Hi & Hu).
    assert (Hleaf : forall j, leaf_at h (<[o_id p := p']> (<[o_id b := b]> (<[o_id a := a]> m))) t j <->
      (j <> o_id p /\ leaf_at h m t j) \/ (j = o_id a /\ inside (o_node a) t = true) \/ (j = o_id b /\ inside (o_node b) t = true)).
    { intros j. unfold leaf_at. setoid_rewrite lookup_insert_Some. setoid_rewrite lookup_insert_Some. setoid_rewrite lookup_insert_Some. split.
      - intros (x & [[_ <-]|[Hj [[<- <-]|[_ [[<- <-]|[_ Hj']]]]]] & Hs & Hns & Hx); [done|by right; right|by right; left|].
        left. split; [done|]. by exists x.
      - intros [(Hj & x & Hx & Hs & Hns & Hi')|[[-> Hi']|[-> Hi']]].
        + exists x. split; [|done]. right. split; [done|]. right. split; [congruence|]. right. split; [congruence|done].
        + exists a. split; [|done]. right. split; [done|]. right. split; [congruence|]. by left.
        + exists b. split; [|done]. right. split; [done|]. by left. }
    unfold inside in Hleaf. destruct (decide (i = o_id p)) as [->|Hne].
    + destruct Hi as (x & Hx & _ & _ & Hix). rewrite Hp in Hx. injection Hx as <-. unfold inside in Hix. bool_to_prop.
      destruct (Z_lt_ge_dec t (date_to (o_node a))) as [Hlt|Hge].
      * exists (o_id a). split; [apply Hleaf; right; left; split; [done|]; apply andb_true_iff; rewrite Z.leb_le, Z.ltb_lt; lia|].
        intros j Hj. apply Hleaf in Hj as [[Hj Hl]|[[-> _]|[-> Hj]]]; [by apply Hu in Hl|done|]. bool_to_prop. lia.
      * exists (o_id b). split; [apply Hleaf; right; right; split; [done|]; apply andb_true_iff; rewrite Z.leb_le, Z.ltb_lt; lia|].
        intros j Hj. apply Hleaf in Hj as [[Hj Hl]|[[-> Hj]|[-> _]]]; [by apply Hu in Hl| |done]. bool_to_prop. lia.
    + assert (Hout : inside (o_node p) t = false).
      { destruct (inside (o_node p) t) eqn:Hip; [|done]. exfalso. apply Hne. symmetry. apply Hu. by exists p. }
      unfold inside in Hout. apply andb_false_iff in Hout. rewrite Z.leb_gt, Z.ltb_ge in Hout.
      exists i. split; [apply Hleaf; by left|]. intros j Hj. apply Hleaf in Hj as [[Hj Hl]|[[-> Hj]|[-> Hj]]]; [by apply Hu| |]; bool_to_prop; lia.
Qed.
End Trees.

(** ** The operations *)

Section Operations.
Context `{PyRepr} `{BsonLength} `{ItemFingerprint} `{HistoryIndexes} `{Sha256}.

Lemma validate_range_same o o' : validate_range o = Ok o' -> o' = o.
Proof using Type. unfold validate_range. intros Hv. unfold result_bind in Hv. repeat case_hyp Hv; try done; by injection Hv. Qed.
Lemma range_document_spec o limit o' : range_document o limit = Ok o' -> o' = bson_range o.
Proof using Type. unfold range_document. intros Hv. repeat case_hyp Hv; try done; by injection Hv. Qed.
Lemma bson_node_idem n : bson_node (bson_node n) = bson_node n.
Proof using Type. destruct n. unfold bson_node. cbv beta iota delta -[floor_ms]. by rewrite !floor_ms_idem. Qed.
Lemma bson_node_fixed n : bson_node n = n <-> floor_ms (date_from n) = date_from n /\ floor_ms (date_to n) = date_to n.
Proof using Type.
  destruct n as [a b c f t d]. unfold bson_node. cbv beta iota delta -[floor_ms]. split; [by intros [= Hf Ht]|intros [Hf Ht]; by rewrite Hf, Ht].
Qed.
Lemma floor_ms_hour us : on_hour us -> floor_ms us = us.
Proof using Type.
  unfold on_hour, floor_ms. intros Hh. pose proof (Z.div_mod us hour ltac:(done)) as Hd. rewrite Hh, Z.add_0_r in Hd. rewrite Hd.
  replace (hour * (us / hour)) with (us / hour * 3600000 * 1000) by (unfold hour, minute, second; ring). by rewrite Z.div_mul.
Qed.

Lemma node_spec h n o : _node h n = Ok o ->
  o_id o = sha256_hex (scope_identity h (node_id n)) /\ scoped h o = true /\ o_state o = Pending /\ o_node o = bson_node n /\
  bson_node (o_node o) = o_node o.
Proof using Type.
  unfold _node. intros Hn. result_inv. apply validate_range_same in E as ->. apply range_document_spec in Hn as ->. cbn.
  split; [done|]. split; [unfold scoped; cbn; by rewrite bool_decide_true, !Z.eqb_refl|]. split; [done|]. split; [done|apply bson_node_idem].
Qed.

Lemma insert_range_spec o s :
  twp (insert_range o) (fun _ s' => st_ranges s !! o_id o = None /\ s' = with_ranges (insert (o_id o) o) s) s.
Proof using Type.
  unfold insert_range. repeat tx_step. bool_to_prop. split; [|done]. by destruct (st_ranges s !! o_id o).
Qed.
Lemma put_range_spec o x s : st_ranges s !! o_id o = Some x ->
  twp (put_range o) (fun _ s' => s' = with_ranges (insert (o_id o) o) s) s.
Proof using Type. intros Hx. unfold put_range. tx_step. rewrite Hx. by tx_step. Qed.

Lemma active_spec h s :
  twp (_active h) (fun o s' => s' = s /\ exists i, h_active_range_id h = Some i /\ st_ranges s !! i = Some o /\ scoped h o = true /\ o_state o = Pending /\
    h_date_from h <= date_from (o_node o) /\ date_to (o_node o) <= h_date_to h) s.
Proof using Type.
  unfold _active. tx_step. destruct (h_active_range_id h) as [i|] eqn:Hi; cbn; [|apply twp_fail].
  destruct (st_ranges s !! i) as [o|] eqn:Ho; [|apply twp_fail]. repeat tx_step. bool_to_prop. bools.
  match goal with Hv : validate_range _ = Ok _ |- _ => apply validate_range_same in Hv as -> end. split; [done|]. by exists i.
Qed.

Lemma split_node_spec budget h0 h p total s :
  (forall o, scoped h o = scoped h0 o) -> ranges_wf (st_ranges s) -> st_ranges s !! o_id p = Some p -> scoped h p = true -> o_state p = Pending ->
  twp (_split_node budget h0 p total) (fun c s' => ranges_only s s' /\ ranges_step h (st_ranges s) (st_ranges s') /\ c_active c <> None) s.
Proof using Type.
  intros Hsc Hw Hp Hsp Hst. unfold _split_node. tx_step. tx_step. tx_step.
  match goal with Hs : subdivide_order_range _ _ _ = Ok _ |- _ => apply subdivide_ok in Hs as (_ & _ & _ & [[_ ->]|(_ & na & nb & -> & Hh)]) end;
    [tx_step|].
  match goal with Hv : validate_bounds _ = Ok _ |- _ => apply validate_bounds_ok in Hv as [-> Hwf] end.
  tx_step. rename a into ra. match goal with Hn : _node h0 na = Ok _ |- _ => apply node_spec in Hn as (_ & Hsa & Hsta & Hna & Hba) end; rewrite <- Hsc in Hsa.
  tx_step. rename a into rb. match goal with Hn : _node h0 nb = Ok _ |- _ => apply node_spec in Hn as (_ & Hsb & Hstb & Hnb & Hbb) end; rewrite <- Hsc in Hsb.
  tx_use insert_range_spec. intros _ s1 [Ha ->]. tx_use insert_range_spec. intros _ s2 [Hb ->]. tx_step. cbn in Hb.
  assert (Hpa : o_id p <> o_id ra) by congruence. apply lookup_insert_None in Hb as [Hb Hab]. assert (Hpb : o_id p <> o_id rb) by congruence.
  tx_use (put_range_spec (p {{ o_state := Split; o_source_total := Some total }}) p); [cbn; by rewrite !lookup_insert_ne|]. intros _ s3 ->. tx_step. split; [done|]. split; [|done].
  pose proof (proj1 (bson_node_fixed _) (proj2 (Hw _ _ Hp))) as [Hf Ht]. pose proof (floor_ms_hour _ (hv_hour _ _ _ Hh)) as Hm.
  pose proof (hv_from _ _ _ Hh) as Hhf. pose proof (hv_mid _ _ _ Hh) as Hhm. pose proof (hv_to _ _ _ Hh) as Hht.
  destruct (hv_wf _ _ _ Hh) as [Hwa Hwb]. pose proof (wf_span _ Hwa). pose proof (wf_span _ Hwb).
  cbn [st_ranges with_ranges]. apply split_step with (p := p); try done; try congruence.
  - by rewrite lookup_insert_ne.
  - rewrite Hna. change (floor_ms (date_from na) = date_from (o_node p)). by rewrite Hhf.
  - rewrite Hna, Hnb. change (floor_ms (date_to na) = floor_ms (date_from nb)). by rewrite Hhm.
  - rewrite Hnb. change (floor_ms (date_to nb) = date_to (o_node p)). by rewrite Hht.
  - rewrite Hna, Hnb. change (floor_ms (date_from na) <= floor_ms (date_to na) <= floor_ms (date_to nb)).
    rewrite Hm, Hhf, Hf, Hht, Ht. lia.
  - rewrite Hna. change (on_hour (floor_ms (date_to na))). rewrite Hm. apply Hh.
Qed.

Lemma start_step budget h0 h total s :
  _head h0 = Ok h -> ranges_wf (st_ranges s) ->
  twp (start_action budget h0 total)
    (fun cr s' => ranges_only s s' /\ ranges_step h (st_ranges s) (st_ranges s') /\ cr.2 = [] /\ c_active cr.1 <> None) s.
Proof using Type.
  intros Hh Hw. apply _head_spec in Hh as [-> _]. unfold start_action. tx_step. tx_step.
  match goal with Hv : validate_bounds _ = Ok _ |- _ => apply validate_bounds_ok in Hv as [-> _] end.
  tx_step. match goal with Hn : _node _ _ = Ok _ |- _ => apply node_spec in Hn as (Hid & Hs & Hst & Hnode & Hb) end. rename a into root.
  tx_use insert_range_spec. intros _ s1 [Hn ->].
  assert (Hstep : ranges_step (bson_acquisition h0) (st_ranges s) (<[o_id root := root]> (st_ranges s))).
  { apply insert_root_step; try done; [congruence|by rewrite Hnode..]. }
  destruct total as [total|]; [|tx_step; by split].
  tx_use (split_node_spec budget h0 (bson_acquisition h0)); [done|cbn; by apply (rs_wf _ _ _ Hstep)|cbn; by rewrite lookup_insert_eq|done|done|].
  intros c s2 (Hr & Hst2 & Hc). tx_step. split; [done|]. split; [|done]. by eapply ranges_step_trans.
Qed.

(** A receipt of a page: classified by the range, and not acquired before. *)
Definition page_receipt (h : SheetsHistoryAcquisition) (n : OrderRangeNode) (s : store) (r : SheetsHistoryReceipt) : Prop :=
  exists created, receipt_created r = Ok created /\ page_receipt_ok n created r = true /\
    forall i r', st_receipts s !! i = Some r' -> in_scope h r' = true -> r_resource_id r' <> r_resource_id r.

Lemma check_page_spec h n rs s : twp (check_page h n rs) (fun _ s' => s' = s /\ Forall (page_receipt h n s) rs) s.
Proof using Type.
  induction rs as [|r rs IH]; cbn [check_page]; [by tx_step|]. repeat tx_step. eapply twp_mono; [apply IH|]. cbv beta.
  intros _ s' [-> Hf]. split; [done|]. constructor; [|done]. eexists. split; [done|]. split; [done|]. intros i r' Hi Hs Heq.
  match goal with Hg : negb (is_some ?f) = true |- _ => destruct f eqn:Hn; [done|] end.
  pose proof (proj1 (find_first_none _ _) Hn i r' Hi) as Hc. cbv beta in Hc. by rewrite Hs, Heq, String.eqb_refl in Hc.
Qed.

Lemma first_range_none p m : first_range p m = None -> forall i o, m !! i = Some o -> p o = false.
Proof using Type.
  unfold first_range. intros Hf. apply find_first_none. unfold find_first. destruct (found p m) as [|o l]; [done|].
  cbn in Hf. by case_match.
Qed.

Definition all_enumerated (h : SheetsHistoryAcquisition) (m : ranges) : Prop :=
  (exists i o, m !! i = Some o /\ scoped h o = true) /\ forall i o, m !! i = Some o -> scoped h o = true -> o_state o <> Pending.

Lemma page_action_spec budget h0 h total next rs v s :
  (forall o, scoped h o = scoped h0 o) -> ranges_wf (st_ranges s) ->
  twp (page_action budget h0 total next rs (if v : bool then Some (_compare_manifest h0 rs) else None))
    (fun cr s' => ranges_only s s' /\ ranges_step h (st_ranges s) (st_ranges s') /\ cr.2 = rs /\
       (c_active cr.1 = None -> all_enumerated h (st_ranges s')) /\
       exists i o, h_active_range_id h0 = Some i /\ st_ranges s !! i = Some o /\ scoped h o = true /\
         h_date_from h0 <= date_from (o_node o) /\ date_to (o_node o) <= h_date_to h0 /\ Forall (page_receipt h0 (o_node o) s) rs) s.
Proof using Type.
  intros Hsc Hw. unfold page_action. tx_use active_spec. intros o s1 [-> (i & Hi & Ho & Hso & Hst & Hbf & Hbt)].
  destruct (Hw i o Ho) as [Hid Hb]. repeat tx_step. rename a into changed.
  match goal with Hv : validate_range _ = Ok _ |- _ => apply validate_range_same in Hv as -> end.
  match goal with Hv : validate_bounds _ = Ok _ |- _ => apply validate_bounds_ok in Hv as [-> _] end.
  tx_use check_page_spec. intros _ s1 [-> Hrs]. repeat tx_step. rename a into o'.
  match goal with Hv : range_document _ _ = Ok _ |- _ => apply range_document_spec in Hv as Ho' end.
  set (changed := o {{ o_source_total := _; o_next_offset := _; o_state := _ }}) in *.
  assert (Hid' : o_id o' = o_id o) by (by subst o'). assert (Hn' : o_node o' = o_node o) by (subst o'; exact Hb).
  assert (Hs' : scoped h o' = true) by (subst o'; rewrite Hsc; exact Hso).
  assert (Hst' : o_state o' <> Split) by (subst o'; cbn; by destruct (next =? total)).
  tx_use (put_range_spec o' o); [by rewrite Hid', Hid|]. intros _ s1 ->. tx_step.
  assert (Hstep : ranges_step h (st_ranges s) (<[o_id o' := o']> (st_ranges s))).
  { apply replace_leaf_step with (p := o); [by rewrite Hid|done|by rewrite Hsc|done|done|by rewrite Hst|done]. }
  apply twp_bind. eapply (twp_mono _ (fun _ s' => s' = with_ranges (insert (o_id o') o') s)).
  { repeat case_match; repeat tx_step; try done; (tx_use check_totals_frame; intros _ s2 ->; by tx_step). }
  intros fin s2 ->. apply twp_bind. eapply (twp_mono _ (fun _ s' => s' = with_ranges (insert (o_id o') o') s)).
  { destruct v; [apply compare_frame|by tx_step]. }
  intros _ s2 ->. tx_step. cbn [st_ranges with_ranges c_active fst snd]. split; [done|]. split; [exact Hstep|]. split; [done|]. split.
  - intros Hact. destruct (next =? total); [|done]. split; [exists (o_id o'), o'; by rewrite lookup_insert_eq|].
    intros j x Hx Hsx Hpx. destruct (first_range _ _) eqn:Hfr in Hact; [done|]. pose proof (first_range_none _ _ Hfr j x Hx) as Hf.
    cbv beta in Hf. rewrite <- Hsc, Hsx, bool_decide_true in Hf by done. done.
  - exists i, o. rewrite Hsc. done.
Qed.

(** ** A range operation and its checkpoint *)

Variable g : settings.
Variable clock : nat -> Z.

Lemma apply_active c h : h_active_range_id (apply_changes c h) = c_active c.
Proof using Type. destruct c as [a cu d [[f t]|] [[p tot]|]], d; done. Qed.
Lemma apply_revision c h : h_checkpoint_revision (apply_changes c h) = h_checkpoint_revision h.
Proof using Type. destruct c as [a cu d [[f t]|] [[p tot]|]], d; done. Qed.
Lemma observe_active at_ h c : c_active (observe at_ h c) = c_active c.
Proof using Type. by destruct at_. Qed.

Lemma run_ranges job e h action at_ s (P : range_changes * list SheetsHistoryReceipt -> store -> Prop) :
  _head e = Ok h ->
  (forall s1, jobs_only s s1 -> twp action (fun cr s2 => ranges_only s1 s2 /\ ranges_step h (st_ranges s1) (st_ranges s2) /\ P cr s2) s1) ->
  twp (_run clock (g_models g) (g_sellers g) job e action at_)
    (fun saved s' => st_heads s !! h_id h = Some h /\ ranges_step h (st_ranges s) (st_ranges s') /\
       exists cr s2, P cr s2 /\ st_ranges s' = st_ranges s2 /\ h_active_range_id saved = c_active cr.1 /\
         st_heads s' !! h_id h = Some saved /\ same_identity h saved = true /\ same_pass h saved = true /\ List.NoDup (map named cr.2)) s.
Proof using Type.
  intros He Ha. unfold _run. tx_step. assert (a = h) as -> by congruence. tx_step. tx_use current_frame. intros _ s1 (Hs1 & Hh & _).
  tx_use Ha; [done|]. intros [c rs] s2 (Hr2 & Hstep & HP). tx_step. tx_step. rename a into proposed.
  match goal with Hv : validate_acquisition _ = Ok proposed |- _ => apply validate_acquisition_same in Hv; rename Hv into Hprop end.
  tx_use checkpoint_spec. intros saved s3 (before & docs & Hb & Hsv & Hdocs & Hrg & Hc). tx_use pending_frame. intros _ s4 (Hh4 & _ & Hr4). tx_step.
  apply _head_spec in He as [-> _]. apply _head_spec in Hb as [-> _]. rewrite bson_idem in Hc.
  destruct Hs1 as (Hhs1 & _ & Hrs1). destruct Hr2 as [Hhs2 _].
  split; [done|]. split; [rewrite Hr4, Hrg, <- Hrs1; done|]. exists (c, rs), s2. split; [done|]. split; [congruence|].
  apply _head_spec in Hsv as [-> _]. split; [|rewrite Hh4].
  - rewrite Hprop. change (h_active_range_id (bson_acquisition ?x)) with (h_active_range_id x). by rewrite apply_active, observe_active.
  - destruct Hc as [[(Hj & _) Hst]|[new Hcp]].
    + exfalso. rewrite Hhs2, Hhs1, Hh in Hst. apply (inj Some), (f_equal h_checkpoint_revision) in Hst.
      rewrite Hprop in Hst. change (h_checkpoint_revision (bson_acquisition ?x)) with (h_checkpoint_revision x) in Hst.
      rewrite apply_revision in Hst. revert Hst. change (h_checkpoint_revision e = Z.succ (h_checkpoint_revision e) -> False). lia.
    + rewrite (cp_heads _ _ _ _ _ _ Hcp). split; [by rewrite lookup_insert_eq|]. split; [apply Hcp|]. split; [apply Hcp|].
      cbn [snd]. rewrite <- (check_receipts_named _ _ _ Hdocs). eapply distinct_named; apply Hcp.
Qed.
End Operations.

(** ** Every reachable store *)

Section Reach.
Context `{PyRepr} `{BsonLength} `{ItemFingerprint} `{HistoryIndexes} `{Sha256}.

(** What an operation does to the ranges. *)
Definition ranges_moved (s s' : store) : Prop :=
  st_ranges s' = st_ranges s \/ exists h, st_heads s !! h_id h = Some h /\ ranges_step h (st_ranges s) (st_ranges s').

Record ranges_inv (s : store) : Prop := {
  ri_wf : ranges_wf (st_ranges s);
  ri_pass i o : st_ranges s !! i = Some o -> exists h, st_heads s !! o_acquisition_id o = Some h /\
    o_generation o = h_generation h /\ o_pass_number o <= h_pass_number h;
  ri_tree i h : st_heads s !! i = Some h -> tree_ok h (st_ranges s);
}.

Lemma scoped_iff h o : scoped h o = true <-> o_acquisition_id o = h_id h /\ o_generation o = h_generation h /\ o_pass_number o = h_pass_number h.
Proof using Type. unfold scoped. rewrite !andb_true_iff, bool_decide_eq_true, !Z.eqb_eq. tauto. Qed.
Lemma scoped_same h h' : h_id h' = h_id h -> h_generation h' = h_generation h -> h_pass_number h' = h_pass_number h -> forall o, scoped h' o = scoped h o.
Proof using Type. intros Hi Hg Hp o. unfold scoped. by rewrite Hi, Hg, Hp. Qed.
Lemma root_key_same h h' : h_id h' = h_id h -> h_generation h' = h_generation h -> h_pass_number h' = h_pass_number h -> root_key h' = root_key h.
Proof using Type. intros Hi Hg Hp. unfold root_key, scope_identity. by rewrite Hi, Hg, Hp. Qed.

(** The tree of a head is the tree of the same pass with the same dates. *)
Lemma tree_same h h' m : same_identity h h' = true -> h_generation h' = h_generation h -> h_pass_number h' = h_pass_number h ->
  tree_ok h m -> tree_ok h' m.
Proof using Type.
  unfold same_identity. intros Hid Hg Hp [Hr Ht He]. bool_to_prop. bools. assert (Hs := scoped_same h h' ltac:(congruence) Hg Hp).
  split; [intros i o Ho; rewrite Hs, (root_key_same h h') by congruence; by apply (Hr i)| |].
  2: { intros i o Ho. rewrite Hs. intros Hso. destruct (He i o Ho Hso). split; intuition congruence. }
  intros t (i & o & Ho & Hso) Hin. rewrite Hs in Hso. destruct (Ht t ltac:(by exists i, o) ltac:(lia)) as (j & (x & Hx & Hsx & Hst & Hix) & Hu).
  exists j. split; [exists x; by rewrite Hs|]. intros k (y & Hy & Hsy & Hsty & Hiy). apply Hu. exists y. by rewrite <- Hs.
Qed.
(** Ranges of other scopes do not matter. *)
Lemma tree_other h m m' : (forall i, is_some (m !! i) = true -> is_some (m' !! i) = true) ->
  (forall i o, scoped h o = true -> m !! i = Some o <-> m' !! i = Some o) -> tree_ok h m -> tree_ok h m'.
Proof using Type.
  intros Hd Ho [Hr Ht He]. split; [intros i o Hi Hs; apply Hd; by apply (Hr i o), Hs; apply Ho| |].
  2: { intros i o Hi Hs. eapply He; [by apply Ho|done]. }
  assert (Hl : forall t i, leaf_at h m' t i <-> leaf_at h m t i).
  { intros t i. split; intros (o & Hi & Hs & Hx); exists o; split; try done; by apply Ho. }
  intros t (i & o & Hi & Hs) Hin. destruct (Ht t ltac:(exists i, o; split; [by apply Ho|done]) Hin) as (j & Hj & Hu).
  exists j. rewrite Hl. split; [done|]. intros k Hk. apply Hu. by rewrite <- Hl.
Qed.
Lemma tree_empty h m : (forall i o, m !! i = Some o -> scoped h o = false) -> tree_ok h m.
Proof using Type. intros He. split; [intros i o Hi Hs|intros t (i & o & Hi & Hs)|intros i o Hi Hs]; by rewrite (He i o Hi) in Hs. Qed.

(** A range after the operation: of the operated pass, or there before. *)
Lemma moved_origin s s' i o : ranges_moved s s' -> st_ranges s' !! i = Some o ->
  st_ranges s !! i = Some o \/ exists h, st_heads s !! h_id h = Some h /\ scoped h o = true.
Proof using Type.
  intros [->|(h & Hh & Hst)] Ho; [by left|]. destruct (scoped h o) eqn:Hs; [right; by exists h|]. left. by apply (rs_other _ _ _ Hst).
Qed.

Lemma ranges_inv_step s s' : head_transition s s' -> ranges_moved s s' -> counts_inv s -> ranges_inv s -> ranges_inv s'.
Proof using Type.
  intros Ht Hm Hc [Hw Hp Htr]. pose proof (follow_transition _ _ Ht) as Hf.
  assert (Hw' : ranges_wf (st_ranges s')) by (destruct Hm as [->|(h & _ & Hst)]; [done|by apply (rs_wf _ _ _ Hst)]).
  assert (Hp' : forall i o, st_ranges s' !! i = Some o -> exists h h', st_heads s !! o_acquisition_id o = Some h /\
     st_heads s' !! o_acquisition_id o = Some h' /\ follows h h' /\ o_generation o = h_generation h /\ o_pass_number o <= h_pass_number h).
  { intros i o Ho. destruct (moved_origin s s' i o Hm Ho) as [Hi|(h & Hh & (Ha & Hg & Hps)%scoped_iff)].
    - destruct (Hp i o Hi) as (h & Hh & Hg & Hps). destruct (Hf _ _ Hh) as (h' & Hh' & Hfo). exists h, h'. done.
    - rewrite <- Ha in Hh. destruct (Hf _ _ Hh) as (h' & Hh' & Hfo). exists h, h'. do 4 (split; [done|]). lia. }
  split; [done| |].
  - intros i o Ho. destruct (Hp' i o Ho) as (h & h' & _ & Hh' & Hfo & Hg & Hps). exists h'. split; [done|].
    rewrite (fo_generation _ _ Hfo). pose proof (fo_pass _ _ Hfo). split; [done|lia].
  - intros i h' Hh'. pose proof (ci_key _ (counts_transition _ _ Ht Hc) _ _ Hh') as Hid'.
    destruct (st_heads s !! i) as [h|] eqn:Hh.
    + destruct (Hf i h Hh) as (h1 & Hh1 & Hfo). rewrite Hh' in Hh1. injection Hh1 as <-. pose proof (ci_key _ Hc _ _ Hh) as Hid.
      destruct (decide (h_pass_number h' = h_pass_number h)) as [Hpe|Hpne].
      * eapply tree_same; [apply Hfo|apply Hfo|exact Hpe|]. destruct Hm as [->|(g & Hg & Hst)]; [by apply (Htr i)|].
        destruct (decide (h_id g = i)) as [He|Hne].
        { assert (g = h) as -> by congruence. apply (rs_tree _ _ _ Hst Hw). by apply (Htr i). }
        apply (tree_other h (st_ranges s)); [apply Hst| |by apply (Htr i)]. intros j o Hs. apply (rs_other _ _ _ Hst).
        destruct (scoped g o) eqn:Hsg; [|done]. apply scoped_iff in Hs, Hsg. exfalso. intuition congruence.
      * apply tree_empty. intros j o Ho. destruct (scoped h' o) eqn:Hs; [|done]. apply scoped_iff in Hs as (Ha & Hg & Hps).
        destruct (Hp' j o Ho) as (h2 & h2' & Hh2 & _ & _ & _ & Hle). pose proof (fo_pass _ _ Hfo).
        assert (h2 = h) as -> by congruence. lia.
    + apply tree_empty. intros j o Ho. destruct (scoped h' o) eqn:Hs; [|done]. apply scoped_iff in Hs as (Ha & _ & _).
      destruct (Hp' j o Ho) as (h2 & h2' & Hh2 & _). congruence.
Qed.

(** ** The operations move the ranges *)

Lemma twp_frame_ranges {A} (t : tx A) s : twp t (fun _ s' => st_ranges s' = st_ranges s) s -> twp t (fun _ s' => ranges_moved s s') s.
Proof using Type. intros Ht. eapply twp_mono; [exact Ht|]. intros a s' Hr. by left. Qed.

Lemma checkpoint_ranges g clock job e p rs s : twp (checkpoint clock (g_models g) (g_sellers g) job e p rs) (fun _ s' => st_ranges s' = st_ranges s) s.
Proof using Type. eapply twp_mono; [apply checkpoint_spec|]. cbv beta. by intros a s' (b & docs & _ & _ & _ & Hr & _). Qed.

Ltac keep := match goal with
  | Hs : jobs_only _ _ |- _ => destruct Hs as (_ & _ & Hs); cbn in Hs; keep
  | |- _ => cbn; congruence
  end.
Lemma call_moves g clock c s : ranges_wf (st_ranges s) -> twp (run_call g clock c) (fun _ s' => ranges_moved s s') s.
Proof using Type.
  intros Hw. assert (Hws : forall s1, jobs_only s s1 -> ranges_wf (st_ranges s1)) by (by intros s1 (_ & _ & ->)).
  assert (Hrun : forall job e action at_ (P : range_changes * list SheetsHistoryReceipt -> store -> Prop),
    (forall h, _head e = Ok h -> forall s1, jobs_only s s1 -> twp action (fun cr s2 => ranges_only s1 s2 /\ ranges_step h (st_ranges s1) (st_ranges s2) /\ P cr s2) s1) ->
    twp (_run clock (g_models g) (g_sellers g) job e action at_) (fun _ s' => ranges_moved s s') s).
  { intros job e action at_ P Ha n a n' s' Hr. destruct (_head e) as [h|x] eqn:He.
    - pose proof (run_ranges g clock job e h action at_ s P He (Ha h eq_refl) n a n' s' Hr) as (Hh & Hst & _). right. by exists h.
    - unfold _run, tx_bind, tx_lift in Hr. by rewrite He in Hr. }
  destruct c; cbn [run_call].
  - apply twp_frame_ranges. unfold initialize. repeat tx_step. tx_use fence_frame. intros _ s1 Hs1. tx_step. apply twp_bind.
    eapply (twp_mono _ (fun _ s' => st_ranges s' = st_ranges s)); [case_match; repeat tx_step; keep|].
    intros h' s2 Hs2. repeat tx_step. tx_use fence_frame. intros _ s3 Hs3. repeat tx_step. keep.
  - apply twp_frame_ranges, checkpoint_ranges.
  - apply twp_frame_ranges. unfold progress. repeat tx_step. tx_use current_frame. intros _ s1 (Hs1 & _).
    tx_use checkpoint_ranges. intros saved s2 Hs2. tx_use pending_frame. intros _ s3 Hs3. tx_step. keep.
  - apply twp_frame_ranges. unfold begin_verification. repeat tx_step. tx_use current_frame. intros d s1 (Hs1 & _). repeat tx_step.
    tx_use replace_head_spec. intros _ s2 ->. tx_use fence_frame. intros _ s3 Hs3. tx_use pending_frame. intros _ s4 Hs4. tx_step. keep.
  - apply twp_frame_ranges. unfold begin_publication. repeat tx_step. tx_use current_frame. intros d s1 (Hs1 & _). repeat tx_step.
    tx_use replace_head_spec. intros _ s2 ->. tx_use pending_frame. intros _ s4 Hs4. tx_step. keep.
  - apply twp_frame_ranges. unfold release. repeat tx_step. tx_use current_frame. intros claimed s1 (Hs1 & _). case_match; [|case_match].
    + tx_use finish_frame. intros f s2 Hs2. repeat tx_step. keep.
    + tx_use finish_frame. intros f s2 Hs2. repeat tx_step. tx_use update_job_frame. intros m s3 Hs3. tx_step. keep.
    + apply twp_bind. eapply (twp_mono _ (fun _ s' => st_ranges s' = st_ranges s)).
      * case_match; repeat tx_step; [|keep]. tx_use replace_head_spec. intros _ s2 ->. tx_step. keep.
      * intros saved s2 Hs2. tx_use fence_frame. intros _ s3 Hs3. repeat tx_step. tx_use pending_frame. intros _ s4 Hs4. tx_step. keep.
  - apply (Hrun _ _ _ _ (fun cr _ => cr.2 = [] /\ c_active cr.1 <> None)). intros h He s1 Hs1. by apply start_step, Hws.
  - apply (Hrun _ _ _ _ (fun _ _ => True)). intros h He s1 Hs1. apply _head_spec in He as [-> _]. unfold split_action.
    tx_use active_spec. intros o s2 [-> (i & Hi & Ho & Hso & Hst & _)]. destruct (Hws s1 Hs1 i o Ho) as [Hid _].
    tx_use (split_node_spec (g_budget g) head (bson_acquisition head) o total s1); [done|by apply Hws|by rewrite Hid|done|done|].
    intros ch s2 (Hr & Hst2 & _). by tx_step.
  - unfold page. repeat tx_step. eapply (Hrun _ _ _ _ (fun _ _ => True)). intros h He s1 Hs1. apply _head_spec in He as [-> _].
    eapply twp_mono; [apply (page_action_spec (g_budget g) head (bson_acquisition head)); [done|by apply Hws]|]. cbv beta. by intros cr s2 (Hr & Hst & _).
Qed.

Lemma step_moves s s' : ranges_wf (st_ranges s) -> store_step s s' -> ranges_moved s s'.
Proof using Type. intros Hw [g clock c n a n' s1 Hc|s1 (_ & _ & Hr)]; [by eapply call_moves|by left]. Qed.
Lemma ranges_reachable s : reachable s -> ranges_inv s.
Proof using Type.
  induction 1 as [jobs|s s' Hr IH Hst]; [split; cbn; by intros *; rewrite ?lookup_empty|].
  eapply ranges_inv_step; [by apply step_transition|apply step_moves; [apply IH|done]|by apply counts_reachable|done].
Qed.

(** ** Pages *)

Lemma floor_ms_below us : floor_ms us <= us.
Proof using Type. unfold floor_ms, millisecond. pose proof (Z.mod_pos_bound us 1000 ltac:(lia)). pose proof (Z.div_mod us 1000 ltac:(lia)). lia. Qed.

(** Within the hours a range queries, its interval is the acquisition's. *)
Lemma inside_acquisition h n created :
  ends_ok h n -> h_date_from h <= date_from n -> date_to n <= h_date_to h ->
  (provider_hours n).1 <= created < (provider_hours n).2 + hour ->
  inside n created = true <-> h_date_from h <= created < h_date_to h.
Proof using Type.
  intros [Hf Ht] Hlf Hlt Hq. unfold inside. rewrite andb_true_iff, Z.leb_le, Z.ltb_lt. unfold provider_hours in Hq. cbn in Hq.
  destruct (floor_hour_spec (date_from n)) as [_ Hff]. split; [lia|]. intros Hin. split.
  - destruct Hf as [->|Hf]; [lia|]. rewrite (floor_hour_on _ Hf) in Hq. lia.
  - destruct Ht as [->|Ht]; [lia|]. rewrite (floor_hour_on _ Ht), Z.eqb_refl in Hq. lia.
Qed.

Definition page_outcome (e h : SheetsHistoryAcquisition) (rs : list SheetsHistoryReceipt) (s : store) (cr : range_changes * list SheetsHistoryReceipt) (s2 : store) : Prop :=
  (c_active cr.1 = None -> all_enumerated h (st_ranges s2)) /\ cr.2 = rs /\
  exists i o, st_ranges s !! i = Some o /\ scoped h o = true /\ h_date_from e <= date_from (o_node o) /\ date_to (o_node o) <= h_date_to e /\
    Forall (page_receipt h (o_node o) s) rs.

Lemma page_run g clock job e h total next rs at_ v s :
  ranges_wf (st_ranges s) -> _head e = Ok h ->
  twp (run_call g clock (Page job e total next rs at_ v))
    (fun saved s' => st_heads s' !! h_id h = Some saved /\ same_identity h saved = true /\ same_pass h saved = true /\
       List.NoDup (map named rs) /\ exists cr s2, page_outcome e h rs s cr s2 /\ st_ranges s' = st_ranges s2 /\ h_active_range_id saved = c_active cr.1) s.
Proof using Type.
  intros Hw He. cbn [run_call]. unfold page. tx_step. tx_step. eapply twp_mono; [apply (run_ranges g clock job e h _ at_ s (page_outcome e h rs s) He)|].
  - intros s1 (Hh1 & Hr1 & Hg1). pose proof He as He'. apply _head_spec in He' as [-> _].
    eapply twp_mono; [apply (page_action_spec (g_budget g) e (bson_acquisition e)); [done|by rewrite Hg1]|]. cbv beta.
    intros cr s2 (Hro & Hst & Hcr & Ha & i & o & _ & Ho & Hso & Hf & Ht & Hrs). split; [done|]. split; [done|]. split; [done|]. split; [done|].
    exists i, o. rewrite Hg1 in Ho. do 4 (split; [done|]). eapply Forall_impl; [exact Hrs|]. intros r (c & Hc & Hok & Hnew).
    exists c. rewrite Hr1 in Hnew. done.
  - cbv beta. intros saved s' (_ & _ & cr & s2 & HP & Hrg & Hact & Hh & Hid & Hp & Hnd). do 3 (split; [done|]). split; [by rewrite <- (proj1 (proj2 HP))|]. by exists cr, s2.
Qed.
End Reach.
