(* ===== verification/HistoryClaims.v ===== *)
(** A small acquisition, to run the operations on: two orders of July 2024. *)

From S2P Require Export HistorySteps.

#[local] Open Scope Z_scope.

Module Demo.
#[export] Instance repr : PyRepr := fun _ => "?"%string.
#[export] Instance lengths : BsonLength := {| acquisition_length := fun _ => 700; range_length := fun _ => 300; receipt_length := fun _ => 900 |}.
Definition digest : string := String.concat "" (List.repeat "0123456789abcdef"%string 4).
#[export] Instance fingerprint : ItemFingerprint := fun _ => digest.
#[export] Instance indexes : HistoryIndexes := {| head_unique := fun _ _ => true; receipt_unique := fun _ _ => true; range_unique := fun _ _ => true |}.
(** An injective digest: these identities are short. *)
#[export] Instance sha : Sha256 := fun s => s.

Definition start_us : Z := instant (Date 2024 7 1) 0.
Definition end_us : Z := instant (Date 2024 8 1) 0.
Definition clock (n : nat) : Z := end_us + Z.of_nat n * second.
Definition config : settings := {| g_models := ["orders"%string]; g_sellers := None; g_budget := 1000 |}.

Definition job : doc := mk_doc
  [("_id", VStr "job"); ("seller_id", VStr "77"); ("read_model", VStr "orders"); ("date_from", VDate true start_us); ("date_to", VDate true end_us);
   ("state", VStr "running"); ("attempts", VInt 1); ("attempt_token", VStr "token"); ("lease_until", VDate true (end_us + hour))]%string.
Definition head : SheetsHistoryAcquisition :=
  {| h_id := "acquisition"; h_seller_id := "77"; h_plan_id := "plan"; h_scope_id := "orders:20240701:20240801"; h_job_id := "job";
     h_read_model := Orders; h_date_from := start_us; h_date_to := end_us; h_generation := 1; h_pass_number := 1; h_checkpoint_revision := 0;
     h_page_sequence := 0; h_phase := Discover; h_next_cursor := None; h_active_range_id := None; h_source_total := None;
     h_discovered_count := 0; h_fetched_count := 0; h_published_count := 0; h_drift_restarts := 0; h_publish_after := None;
     h_observed_from := None; h_observed_until := None; h_created_at := start_us; h_updated_at := start_us |}.

Definition order (id : Z) : doc := mk_doc [("id", VInt id); ("date_created", VStr "2024-07-10T10:00:00.000-04:00"%string)]%string.
Definition demo_receipt (h : SheetsHistoryAcquisition) (k : receipt_kind) (id : Z) : SheetsHistoryReceipt :=
  let detail := bool_decide (k = Detail) in
  {| r_id := (str_of_Z (h_pass_number h) ++ kind_name k ++ str_of_Z id)%string; r_acquisition_id := h_id h; r_seller_id := h_seller_id h;
     r_read_model := Orders; r_generation := h_generation h; r_pass_number := h_pass_number h; r_page_sequence := h_page_sequence h + 1;
     r_kind := k; r_resource_id := str_of_Z id; r_observed_at := end_us; r_source_version := None; r_source_hash := Some digest;
     r_source_payload := Some (order id); r_payload_hash := if detail then Some digest else None;
     r_payload := if detail then Some (order id) else None; r_unavailable_fields := []; r_exclusion_reason := None |}.

(** The head as it stands in the store. *)
Definition now_at (s : store) : SheetsHistoryAcquisition := default head (st_heads s !! "acquisition"%string).
Definition advanced (h : SheetsHistoryAcquisition) : SheetsHistoryAcquisition :=
  h {{ h_checkpoint_revision ::= Z.succ; h_page_sequence ::= Z.succ; h_updated_at := end_us + minute;
       h_observed_from := Some end_us; h_observed_until := Some end_us; h_source_total := Some 2 }}.

(** Another claim of the job, then an operation on the stored head. *)
Definition reclaim (s : store) : store := with_jobs (fun _ => {[ "job"%string := job ]}) s.
Definition after_with (g : settings) (c : SheetsHistoryAcquisition -> call) (s : store) : store :=
  let s := reclaim s in
  match run_call g clock (c (now_at s)) O s with Ok (_, _, s') => s' | Err _ => s end.
Definition after := after_with config.

Definition empty : store := {| st_jobs := ∅; st_heads := ∅; st_receipts := ∅; st_ranges := ∅ |}.
Definition initialized : store := after (fun _ => Initialize job head) empty.
Definition discovered : store := after (fun h =>
  Progress job h ((advanced h) {{ h_phase := Hydrate; h_discovered_count := 2 }}) [demo_receipt h Membership 1; demo_receipt h Membership 2]) initialized.
Definition hydrated_store : store := after (fun h =>
  Progress job h ((advanced h) {{ h_fetched_count := 2 }}) [demo_receipt h Detail 1; demo_receipt h Detail 2]) discovered.
Definition verifying : store := after (fun h => BeginVerification job h) hydrated_store.
Definition verified_store : store := after (fun h =>
  Progress job h ((advanced h) {{ h_discovered_count := 2; h_next_cursor := None }}) [demo_receipt h Membership 1; demo_receipt h Membership 2]) verifying.
Definition published : store := after (fun h => BeginPublication job h) verified_store.

(** The same month by ranges, with a budget of one order. *)
Definition narrow : settings := config {{ g_budget := 1 }}.
Definition started : store := after_with narrow (fun h => Start job h (Some 2) (Some end_us)) initialized.
Definition first_order (h : SheetsHistoryAcquisition) : SheetsHistoryReceipt := demo_receipt h Membership 1.
Definition late_order : doc := mk_doc [("id", VInt 2); ("date_created", VStr "2024-07-20T10:00:00.000-04:00"%string)]%string.
Definition second_order (h : SheetsHistoryAcquisition) : SheetsHistoryReceipt := (demo_receipt h Membership 2) {{ r_source_payload := Some late_order }}.
Definition first_page : store := after_with narrow (fun h => Page job h 1 1 [first_order h] (Some end_us) false) started.
Definition last_page (h : SheetsHistoryAcquisition) : call := Page job h 1 1 [second_order h] (Some end_us) false.

Section Reached.
Lemma reach_after g c s : reachable s -> reachable (after_with g c s).
Proof.
  intros Hr. unfold after_with. assert (Hc : reachable (reclaim s)) by (eapply reach_step; [exact Hr|by apply step_jobs]).
  destruct (run_call g clock _ O (reclaim s)) as [[[a n] s']|e] eqn:E; [|done]. eapply reach_step; [exact Hc|]. by eapply step_call.
Qed.
End Reached.
Lemma reach_hydrated : reachable hydrated_store.
Proof. repeat apply reach_after. apply (reach_empty ∅). Qed.
Lemma reach_first_page : reachable first_page.
Proof. repeat apply reach_after. apply (reach_empty ∅). Qed.
Lemma reach_published : reachable published.
Proof. repeat apply reach_after. apply (reach_empty ∅). Qed.
End Demo.

(** What holds of every store of staged acquisitions, with a store that was
    reached by running operations. *)

(** Values under different keys that a test tells apart. *)
Lemma found_nodup {A B} (f : A -> B) (p : A -> bool) (m : gmap string A) :
  (forall i j x y, m !! i = Some x -> m !! j = Some y -> p x = true -> p y = true -> f x = f y -> i = j) ->
  List.NoDup (map f (found p m)).
Proof.
  intros Hinj. unfold found. pose proof (NoDup_fst_map_to_list m) as Hnd.
  assert (Hl : forall i x, (i, x) ∈ map_to_list m -> m !! i = Some x) by (intros i x; by rewrite elem_of_map_to_list).
  induction (map_to_list m) as [|[i x] l IH]; [constructor|]. cbn in Hnd. apply NoDup_cons in Hnd as [Hi Hnd].
  assert (Hl' : forall j y, (j, y) ∈ l -> m !! j = Some y) by (intros j y Hy; apply Hl; by right).
  specialize (IH Hnd Hl'). cbn. destruct (p x) eqn:Hp; [|exact IH]. cbn. constructor; [|exact IH].
  intros Hin. apply in_map_iff in Hin as (y & Hy & Hin). apply filter_In in Hin as [Hin Hpy].
  apply list_elem_of_In, list_elem_of_fmap in Hin as ([j y'] & -> & Hj). apply Hi.
  rewrite (Hinj i j x y' (Hl i x (list_elem_of_here _ _)) (Hl' j y' Hj) Hp Hpy (eq_sym Hy)). apply list_elem_of_fmap. by exists (j, y').
Qed.

Section Claims.
Context `{PyRepr} `{BsonLength} `{ItemFingerprint} `{HistoryIndexes} `{Sha256}.

Lemma resources_nodup s h k : counts_inv s -> List.NoDup (map r_resource_id (found (of_kind h k) (st_receipts s))).
Proof using Type.
  intros Hi. apply found_nodup. intros i j x y Hx Hy Hpx Hpy Hr. apply (ci_unique _ Hi i j x y Hx Hy).
  apply of_kind_iff in Hpx, Hpy. apply same_receipt_identity_iff. intuition congruence.
Qed.
Lemma membership_of_iff d r : membership_of d r <->
  r_acquisition_id d = r_acquisition_id r /\ r_generation d = r_generation r /\ r_pass_number d = r_pass_number r /\
  r_kind r = Membership /\ r_resource_id d = r_resource_id r.
Proof using Type.
  unfold membership_of. rewrite same_receipt_identity_iff. split; intros (Ha & Hg & Hp & Hk & Hr); repeat split; try done.
Qed.
Lemma detail_member s h d : counts_inv s -> In d (found (of_kind h Detail) (st_receipts s)) ->
  exists r, In r (found (of_kind h Membership) (st_receipts s)) /\ r_resource_id r = r_resource_id d.
Proof using Type.
  intros Hi Hd. apply found_spec in Hd as (i & Hd & Hk). pose proof Hk as (Ha & Hg & Hp & Hkd)%of_kind_iff.
  destruct (ci_members _ Hi i d Hd Hkd) as (j & r & Hj & Hm). apply membership_of_iff in Hm as (Ha' & Hg' & Hp' & Hk' & Hr'). exists r. split; [|by symmetry]. apply found_spec. exists j. split; [done|].
  apply of_kind_iff. intuition congruence.
Qed.

(** Every membership has a detail once as many are fetched as discovered. *)
Lemma hydrated_details s h : counts_inv s -> h_fetched_count h = count (of_kind h Detail) (st_receipts s) ->
  h_discovered_count h = count (of_kind h Membership) (st_receipts s) -> h_fetched_count h = h_discovered_count h ->
  forall r, In r (found (of_kind h Membership) (st_receipts s)) ->
    exists d, In d (found (of_kind h Detail) (st_receipts s)) /\ r_resource_id d = r_resource_id r.
Proof using Type.
  intros Hi Hf Hd Heq r Hr. unfold count in *.
  assert (Hincl : incl (map r_resource_id (found (of_kind h Detail) (st_receipts s))) (map r_resource_id (found (of_kind h Membership) (st_receipts s)))).
  { intros x Hx. apply in_map_iff in Hx as (d & <- & Hin). destruct (detail_member s h d Hi Hin) as (m & Hm & <-). by apply in_map. }
  assert (Hback : incl (map r_resource_id (found (of_kind h Membership) (st_receipts s))) (map r_resource_id (found (of_kind h Detail) (st_receipts s)))).
  { apply NoDup_length_incl; [by apply resources_nodup|rewrite !length_map; lia|done]. }
  specialize (Hback _ (in_map r_resource_id _ _ Hr)). apply in_map_iff in Hback as (d & Hd' & Hin). eauto.
Qed.

(** ** Stale heads *)

(** The head an operation presents as the current one.  A bare checkpoint may
    also repeat the commit that followed it. *)
Definition presents (c : call) : option SheetsHistoryAcquisition :=
  match c with
  | Initialize _ _ | Checkpoint _ _ _ _ => None
  | Progress _ e _ _ | BeginVerification _ e | BeginPublication _ e | Release _ e _ => Some e
  | Start _ h _ _ | SplitRange _ h _ _ | Page _ h _ _ _ _ _ => Some h
  end.

Lemma twp_pure {A} (t : tx A) (P : Prop) s : P -> twp t (fun _ _ => P) s.
Proof using Type. by intros HP n a n' s' _. Qed.

Lemma run_current g clock job e action at_ s :
  twp (_run clock (g_models g) (g_sellers g) job e action at_) (fun _ _ => forall h, _head e = Ok h -> st_heads s !! h_id h = Some h) s.
Proof using Type.
  unfold _run. tx_step. tx_step. tx_use current_frame. intros d s1 (_ & Hh & _). apply twp_pure. intros h Hh'. congruence.
Qed.
Lemma call_current g clock c e s : presents c = Some e ->
  twp (run_call g clock c) (fun _ _ => forall h, _head e = Ok h -> st_heads s !! h_id h = Some h) s.
Proof using Type.
  intros Hp. destruct c; cbn in Hp; simplify_eq; cbn [run_call].
  - unfold progress. repeat tx_step. tx_use current_frame. intros d s1 (_ & Hh & _). apply twp_pure. intros h Hh'. congruence.
  - unfold begin_verification. repeat tx_step. tx_use current_frame. intros d s1 (_ & Hh & _). apply twp_pure. intros h Hh'. congruence.
  - unfold begin_publication. repeat tx_step. tx_use current_frame. intros d s1 (_ & Hh & _). apply twp_pure. intros h Hh'. congruence.
  - unfold release. repeat tx_step. tx_use current_frame. intros d s1 (_ & Hh & _). apply twp_pure. intros h Hh'. congruence.
  - apply run_current.
  - apply run_current.
  - unfold page. repeat tx_step. apply run_current.
Qed.

(** ** The claims *)

(** C3: whatever operations ran, in whatever order and on whatever clocks: the
    counts of an acquisition that is being staged are the memberships and the
    details stored for its pass, no identity is stored twice, and once as many
    orders are fetched as were discovered every membership has its detail. *)
Theorem staging_is_accounted s i h :
  reachable s -> st_heads s !! i = Some h -> is_staging (h_phase h) = true ->
  h_discovered_count h = count (of_kind h Membership) (st_receipts s) /\
  h_fetched_count h = count (of_kind h Detail) (st_receipts s) /\
  identities_unique (st_receipts s) /\
  (h_fetched_count h = h_discovered_count h ->
   forall r, In r (found (of_kind h Membership) (st_receipts s)) ->
     exists d, In d (found (of_kind h Detail) (st_receipts s)) /\ r_resource_id d = r_resource_id r).
Proof using Type.
  intros Hr Hh Hs. pose proof (counts_reachable s Hr) as Hi. destruct (ci_counts _ Hi i h Hh Hs) as [Hd Hf].
  repeat split; [done|done|apply Hi|]. intros Heq. by apply hydrated_details.
Qed.

(** C32: in every store the staging operations of orders reach, an acquisition
    handed over to publication (by [begin_publication] of
    history_continuation.py) counts its memberships, and each of them has a
    stored detail, of this pass or of the one before. *)
Theorem published_acquisition_complete s i h :
  reachable s -> st_heads s !! i = Some h -> h_phase h = Publish ->
  h_fetched_count h = count (of_kind h Membership) (st_receipts s) /\
  h_discovered_count h = h_fetched_count h /\
  forall j r, st_receipts s !! j = Some r -> of_kind h Membership r = true ->
    exists k d, st_receipts s !! k = Some d /\ detail_of h (r_resource_id r) d = true.
Proof using Type.
  intros Hr Hh Hp. destruct (published_reachable s Hr) as [_ Hpub]. destruct (Hpub i h Hh Hp) as [Hf Hd Hdet].
  repeat split; [done|congruence|exact Hdet].
Qed.

(** An operation that presents a head whose revision has passed fails,
    however long ago, and changes nothing: no concurrent progress is lost. *)
Theorem stale_head_refused g clock c e h h1 s s' n :
  presents c = Some e -> _head e = Ok h -> st_heads s !! h_id h = Some h1 ->
  h_checkpoint_revision h < h_checkpoint_revision h1 -> later s s' ->
  exists x, run_call g clock c n s' = Err x.
Proof using Type.
  intros Hp He Hh1 Hrev Hl. destruct (run_call g clock c n s') as [[[a m] s2]|x] eqn:Hrun; [exfalso|by exists x].
  pose proof (call_current g clock c e s' Hp _ _ _ _ Hrun h He) as Hcur.
  destruct (follow_later s s' Hl _ _ Hh1) as (h2 & Hh2 & Hf). rewrite Hcur in Hh2. simplify_eq.
  destruct (fo_revision _ _ Hf) as [->|Hlt]; lia.
Qed.
End Claims.

(** ** Two orders staged, and published *)

Section Witnesses.
Import Demo.
Lemma hydrated_facts : st_heads hydrated_store !! "acquisition"%string = Some (now_at hydrated_store) /\
  is_staging (h_phase (now_at hydrated_store)) = true /\ h_fetched_count (now_at hydrated_store) = h_discovered_count (now_at hydrated_store) /\
  In (demo_receipt (now_at initialized) Membership 2) (found (of_kind (now_at hydrated_store) Membership) (st_receipts hydrated_store)).
Proof. split; [|split; [|split]]; vm_compute; auto. Qed.
Lemma staging_is_accounted_witness :
  exists d, In d (found (of_kind (now_at hydrated_store) Detail) (st_receipts hydrated_store)) /\ r_resource_id d = "2"%string.
Proof.
  destruct hydrated_facts as (Hh & Hs & He & Hin).
  destruct (staging_is_accounted hydrated_store _ _ reach_hydrated Hh Hs) as (_ & _ & _ & Hall).
  destruct (Hall He _ Hin) as (d & Hd & Hr). exists d. split; [exact Hd|]. etransitivity; [exact Hr|]. vm_compute. reflexivity.
Defined.

Lemma published_head_is : st_heads published !! "acquisition"%string = Some (now_at published) /\ h_phase (now_at published) = Publish.
Proof. by vm_compute. Qed.
Lemma published_acquisition_complete_witness : h_discovered_count (now_at published) = h_fetched_count (now_at published).
Proof.
  destruct published_head_is as [Hh Hp]. destruct (published_acquisition_complete published _ _ reach_published Hh Hp) as (_ & Heq & _). exact Heq.
Defined.

(** A worker that still holds the head of the discovered acquisition comes too late. *)
Lemma later_after g c s : later s (after_with g c s).
Proof.
  unfold after_with. assert (Hc : later s (reclaim s)) by (eapply later_step; [apply later_refl|by apply step_jobs]).
  destruct (run_call g clock _ O (reclaim s)) as [[[a n] s']|e] eqn:E; [|done]. eapply later_step; [exact Hc|]. by eapply step_call.
Qed.
Lemma stale_head_refused_witness :
  exists x, run_call config clock (BeginVerification job (now_at discovered)) O hydrated_store = Err x.
Proof.
  apply (stale_head_refused config clock (BeginVerification job (now_at discovered)) (now_at discovered) (now_at discovered) (now_at hydrated_store)
           hydrated_store hydrated_store).
  - reflexivity.
  - vm_compute. reflexivity.
  - exact (proj1 hydrated_facts).
  - vm_compute. reflexivity.
  - apply later_refl.
Defined.
End Witnesses.
