(* ===== verification/RangeClaims.v ===== *)
(** The enumeration of an acquisition by ranges: what a committed page stages,
    and what is covered when the last one is staged. *)

From S2P Require Export HistoryOrders RangeProofs HistoryClaims.

#[local] Open Scope Z_scope.

Section Claims.
Context `{PyRepr} `{BsonLength} `{ItemFingerprint} `{HistoryIndexes} `{Sha256}.

(** C31: a page committed against any reachable store counts exactly the orders
    created in the acquisition's interval as memberships and excludes the
    others, although each range only queries whole hours and only compares with
    its own bounds.  It repeats no order that the pass had staged before it, and
    within the page names none twice as a membership or twice as an exclusion. *)
Theorem page_classifies_by_interval g clock job e h total next rs at_ v n s saved n' s' :
  reachable s -> _head e = Ok h ->
  run_call g clock (Page job e total next rs at_ v) n s = Ok (saved, n', s') ->
  Forall (fun r => exists created, receipt_created r = Ok created /\
    (r_kind r = Membership <-> h_date_from h <= created < h_date_to h) /\ r_kind r <> Detail /\
    forall i r', st_receipts s !! i = Some r' -> in_scope h r' = true -> r_resource_id r' <> r_resource_id r) rs /\
  List.NoDup (map (fun r => (r_kind r, r_resource_id r)) rs).
Proof using Type.
  intros Hr He Hrun. pose proof (ranges_reachable s Hr) as Hi.
  destruct (page_run g clock job e h total next rs at_ v s (ri_wf _ Hi) He _ _ _ _ Hrun) as (_ & _ & _ & Hnd & cr & s2 & (_ & _ & i & o & Ho & Hso & Hf & Ht & Hrs) & _ & _).
  split; [|exact Hnd]. destruct (ri_pass _ Hi i o Ho) as (h1 & Hh1 & _). eapply Forall_impl; [exact Hrs|]. intros r (created & Hc & Hok & Hnew).
  exists created. split; [done|]. unfold page_receipt_ok in Hok. destruct (provider_hours (o_node o)) as [lower upper] eqn:Hph. bool_to_prop. bools.
  assert (Hcur : st_heads s !! h_id h = Some h).
  { pose proof (call_current g clock (Page job e total next rs at_ v) e s eq_refl _ _ _ _ Hrun h He) as Hcur. done. }
  pose proof (tk_ends _ _ (ri_tree _ Hi _ _ Hcur) i o Ho Hso) as Hends.
  destruct (proj1 (scoped_iff h o) Hso) as (Ha & _ & _). destruct (ri_wf _ Hi i o Ho) as [_ [Hbf Hbt]%bson_node_fixed].
  apply _head_spec in He as [-> _].
  assert (Hin : inside (o_node o) created = true <-> h_date_from (bson_acquisition e) <= created < h_date_to (bson_acquisition e)).
  { apply inside_acquisition; [exact Hends|pose proof (floor_ms_below (h_date_from e)); change (floor_ms (h_date_from e) <= date_from (o_node o)); lia| |rewrite Hph; cbn; lia].
    change (date_to (o_node o) <= floor_ms (h_date_to e)). rewrite <- Hbt. by apply floor_ms_mono. }
  rewrite <- Hin. destruct (inside (o_node o) created); repeat split; try done; by intros; congruence.
Qed.

(** C2: when a page hands the acquisition on, every instant of its interval lies
    in exactly one of the unsplit ranges of the pass, and that range has been
    enumerated to its end: no moment was left out or searched twice. *)
Theorem finished_enumeration_covers g clock job e h total next rs at_ v n s saved n' s' :
  reachable s -> _head e = Ok h ->
  run_call g clock (Page job e total next rs at_ v) n s = Ok (saved, n', s') -> h_active_range_id saved = None ->
  forall t, h_date_from saved <= t < h_date_to saved ->
    exists i o, st_ranges s' !! i = Some o /\ scoped saved o = true /\ o_state o = Enumerated /\ inside (o_node o) t = true /\
      forall j, leaf_at saved (st_ranges s') t j -> j = i.
Proof using Type.
  intros Hr He Hrun Hact t Hin. pose proof (ranges_reachable s Hr) as Hi.
  destruct (page_run g clock job e h total next rs at_ v s (ri_wf _ Hi) He _ _ _ _ Hrun)
    as (Hsaved & Hid & Hp & _ & cr & s2 & [Hdone _] & Hrg & Hcr).
  destruct (Hdone (eq_trans (eq_sym Hcr) Hact)) as ((i0 & o0 & Ho0 & Hs0) & Hall). rewrite <- Hrg in Ho0, Hall.
  assert (Hr' : reachable s').
  { eapply reach_step, step_call; done. }
  unfold same_pass, same_identity in *. bool_to_prop. bools. assert (Hsc := scoped_same h saved ltac:(congruence) ltac:(congruence) ltac:(congruence)).
  destruct (tk_tiles _ _ (ri_tree _ (ranges_reachable s' Hr') _ _ Hsaved) t) as (i & (o & Ho & Hso & Hst & Hio) & Hu); [by exists i0, o0; rewrite Hsc|done|].
  exists i, o. do 2 (split; [done|]). rewrite Hsc in Hso. specialize (Hall i o Ho Hso). split; [by destruct (o_state o)|done].
Qed.
End Claims.

(** ** Two halves of a month *)

Section Witnesses.
Import Demo.
Definition last_run : result (SheetsHistoryAcquisition * nat * store) := run_call narrow clock (last_page (now_at first_page)) O (reclaim first_page).
Lemma last_run_ok : exists saved n s', last_run = Ok (saved, n, s') /\ h_active_range_id saved = None /\ h_phase saved = Hydrate /\
  h_source_total saved = Some 2 /\ h_discovered_count saved = 2 /\ h_date_from saved = start_us /\ h_date_to saved = end_us.
Proof. eexists _, _, _. split; [vm_compute; reflexivity|]. vm_compute. auto 10. Qed.
Lemma claimed_first_page : reachable (reclaim first_page).
Proof. eapply reach_step; [exact reach_first_page|by apply step_jobs]. Qed.
Lemma first_page_head : _head (now_at first_page) = Ok (now_at first_page).
Proof. vm_compute. reflexivity. Qed.

Lemma finished_enumeration_covers_witness :
  exists saved n s' i o, last_run = Ok (saved, n, s') /\ st_ranges s' !! i = Some o /\ o_state o = Enumerated /\
    inside (o_node o) (start_us + 15 * day) = true.
Proof.
  destruct last_run_ok as (saved & n & s' & Hrun & Hact & _ & _ & _ & Hf & Ht).
  destruct (finished_enumeration_covers narrow clock job (now_at first_page) (now_at first_page) 1 1 [second_order (now_at first_page)] (Some end_us) false
    O (reclaim first_page) saved n s' claimed_first_page first_page_head Hrun Hact (start_us + 15 * day)) as (i & o & Ho & _ & Hst & Hin & _).
  { rewrite Hf, Ht. vm_compute. split; [discriminate|reflexivity]. }
  exists saved, n, s', i, o. auto.
Defined.

Lemma page_classifies_by_interval_witness :
  exists created, receipt_created (second_order (now_at first_page)) = Ok created /\ start_us <= created < end_us.
Proof.
  destruct last_run_ok as (saved & n & s' & Hrun & _).
  pose proof (page_classifies_by_interval narrow clock job (now_at first_page) (now_at first_page) 1 1 [second_order (now_at first_page)] (Some end_us) false
    O (reclaim first_page) saved n s' claimed_first_page first_page_head Hrun) as [Hall _].
  destruct (Forall_inv Hall) as (created & Hc & Hm & _). exists created. split; [exact Hc|]. exact (proj1 Hm eq_refl).
Defined.
End Witnesses.

(** The producer of an acquisition against the store it fills. *)

(** ** Rows and pages *)

Section Rows.
Context `{PyRepr} `{BsonLength} `{ItemFingerprint} `{HistoryIndexes} `{Sha256}.

Definition no_z (s : string) : bool := string_forallb (fun c => negb (Ascii.eqb c "Z")) s.
Lemma replace_z_same s : no_z s = true -> replace_z s = s.
Proof using Type.
  unfold no_z. induction s as [|c s IH]; [done|]. cbn. intros Hz. bool_to_prop. destruct (Ascii.eqb c "Z"); [done|]. by rewrite IH.
Qed.
(** The creation date of a row, written with a numeric offset. *)
Definition offset_date (row : val) : bool :=
  match row with VDict d => match doc_get d "date_created" with VStr s => no_z s | _ => true end | _ => true end.

Lemma floor_ms_before us b : floor_ms b = b -> floor_ms us < b <-> us < b.
Proof using Type.
  intros Hb. pose proof (floor_ms_below us). split; [|lia]. intros Hlt. destruct (Z_lt_ge_dec us b) as [|Hge]; [done|].
  pose proof (floor_ms_mono b us ltac:(lia)). lia.
Qed.
Lemma floor_ms_after us a : floor_ms a = a -> a <= floor_ms us <-> a <= us.
Proof using Type. intros Ha. pose proof (floor_ms_before us a Ha). lia. Qed.
Lemma inside_floor n us : bson_node n = n -> inside n (floor_ms us) = inside n us.
Proof using Type.
  intros [Hf Ht]%bson_node_fixed. unfold inside. apply eq_true_iff_eq. rewrite !andb_true_iff, !Z.leb_le, !Z.ltb_lt, floor_ms_after, floor_ms_before by done. done.
Qed.
Lemma hours_on_hour n : on_hour (provider_hours n).1 /\ on_hour ((provider_hours n).2 + hour).
Proof using Type.
  unfold provider_hours. cbn. destruct (floor_hour_spec (date_from n)) as [Hf _], (floor_hour_spec (date_to n)) as [Ht _]. split; [done|].
  case_match; [by rewrite Z.sub_add|]. replace hour with (hour * 1) by ring. by apply on_hour_add.
Qed.


Lemma row_receipt_page h n at_ seen row r : bson_node n = n -> offset_date row = true -> row_receipt h n at_ seen row = Ok r ->
  (exists created, receipt_created r = Ok created /\ page_receipt_ok n created r = true) /\ ~ In (r_resource_id r) seen.
Proof using Type.
  intros Hn Hz. unfold row_receipt. destruct (provider_hours n) as [lower upper] eqn:Hph. destruct row as [| | | | | |d]; try done.
  cbn in Hz. intros Hr. case_hyp Hr; [|done]. case_hyp Hr; [|done]. result_inv. case_hyp Hr; [|done]. case_hyp Hr; [|done]. result_inv.
  unfold _receipt in Hr. apply validate_receipt_same in Hr as ->. bool_to_prop. split.
  - unfold _date in E1. destruct (doc_get d "date_created") as [| | |s| | |] eqn:Hd; try done. rewrite (replace_z_same s Hz) in E1. result_inv.
    repeat case_hyp E1; try done. injection E1 as <-. exists us. split.
    + unfold receipt_created. change (default ∅ _) with d. rewrite Hd. cbn [py_str]. match goal with Hp : fromisoformat s = Ok _ |- _ => by rewrite Hp end.
    + destruct (hours_on_hour n) as [Hl Hu]. rewrite Hph in Hl, Hu. cbn in Hl, Hu. pose proof (floor_ms_hour _ Hl) as Hl'. pose proof (floor_ms_hour _ Hu) as Hu'.
      unfold page_receipt_ok. rewrite Hph. cbn. rewrite (inside_floor n us Hn), bool_decide_true by done.
      match goal with Hx : lower <= floor_ms us |- _ => apply (floor_ms_after us lower Hl') in Hx as Hlo end.
      match goal with Hx : floor_ms us < _ |- _ => apply (floor_ms_before us _ Hu') in Hx as Hup end.
      rewrite (proj2 (Z.leb_le _ _) Hlo), (proj2 (Z.ltb_lt _ _) Hup). by destruct (inside n us).
  - cbn. intros Hin. match goal with Hs : string_in _ _ = false |- _ => rename Hs into Hs' end. apply (string_in_iff) in Hin. congruence.
Qed.

Lemma row_receipts_page h n at_ rows : bson_node n = n -> forallb offset_date rows = true -> forall seen rs, row_receipts h n at_ seen rows = Ok rs ->
  Forall (fun r => exists created, receipt_created r = Ok created /\ page_receipt_ok n created r = true) rs /\
  List.NoDup (map r_resource_id rs) /\ Forall (fun r => ~ In (r_resource_id r) seen) rs.
Proof using Type.
  intros Hn. induction rows as [|row rows IH]; intros Hz seen rs Hr; cbn [row_receipts] in Hr.
  { injection Hr as <-. repeat constructor. }
  cbn in Hz. bool_to_prop. result_inv. destruct (row_receipt_page h n at_ seen row _ Hn ltac:(eassumption) E) as [Hp Hs].
  destruct (IH ltac:(done) _ _ E0) as (Hps & Hnd & Hns). split; [by constructor|]. split.
  - cbn. constructor; [|done]. intros Hin. apply in_map_iff in Hin as (x & Hx & Hin). rewrite Forall_forall in Hns.
    apply (Hns x); [by apply list_elem_of_In|]. rewrite Hx. by left.
  - constructor; [done|]. eapply Forall_impl; [exact Hns|]. intros x Hx Hin. apply Hx. by right.
Qed.
End Rows.

(** ** A step of the producer *)

Section Producer.
Context `{PyRepr} `{BsonLength} `{ItemFingerprint} `{HistoryIndexes} `{Sha256} `{Surroundings} `{OrderSource}.
(** The other processes use the same operations. *)
Hypothesis others_reach : forall n s, reachable s -> reachable (others n s).

Abbreviation keeps := (keeps reachable).

(** A visit that only reads. *)
Lemma keeps_read {A} (t : (nat -> Z) -> tx A) : (forall clock s, twp (t clock) (fun _ s' => jobs_only s s') s) -> keeps (visit t).
Proof using others_reach.
  intros Ht. apply (keeps_visit _ others_reach). intros clock s Hr n a n' s' Hrun. eapply reach_step; [exact Hr|]. apply step_jobs. by eapply Ht.
Qed.
Lemma keeps_call g (c : call) : keeps (visit (fun clock => run_call g clock c)).
Proof using others_reach. apply (keeps_visit _ others_reach). intros clock s Hr n a n' s' Hrun. by eapply reach_step, step_call. Qed.

Variable g : settings.
Variable quota_expired : bool.
Abbreviation models := (g_models g).
Abbreviation sellers := (g_sellers g).

Lemma keeps_save job h rs c : keeps (_save models sellers job h rs c).
Proof using others_reach. unfold _save. repeat keeps_step. apply (keeps_call g (Progress job h _ rs)). Qed.
Lemma keeps_discover job h : keeps (_discover models sellers (g_budget g) job h).
Proof using others_reach.
  unfold _discover. apply keeps_bind; [keeps_step|]. intros offset. apply keeps_bind; [|intros active].
  { case_match; [|keeps_step]. apply keeps_read. intros clock s. tx_use active_frame. intros o s1 ->. by tx_step. }
  apply keeps_bind; [keeps_step|]. intros bounds. apply keeps_bind; [keeps_step|]. intros answer. apply keeps_bind; [keeps_step|]. intros at_.
  apply keeps_bind; [keeps_step|]. intros [total rows]. case_match.
  { destruct active; [apply (keeps_call g (SplitRange job h total (Some at_)))|apply (keeps_call g (Start job h (Some total) (Some at_)))]. }
  case_match; [|keeps_step]. apply keeps_bind; [keeps_step|]. intros rs. apply keeps_bind; [case_match; [keeps_step|apply (keeps_reading _ others_reach)]|].
  intros repeated. case_match; [|keeps_step].
  destruct active; [apply (keeps_call g (Page job h total _ rs (Some at_) (is_verify h)))|]. keeps_step; [|apply keeps_save].
  case_match; [|keeps_step]. apply keeps_read. intros clock s. eapply twp_mono; [apply compare_frame|]. by intros ? ? ->.
Qed.

Ltac keeps_auto := repeat first [apply keeps_save|apply (keeps_reading _ others_reach)|progress keeps_step|case_match].
Lemma keeps_known job h : keeps (_known_cancelled models sellers job h).
Proof using others_reach.
  unfold _known_cancelled. keeps_step; [keeps_step|]. keeps_step; [apply (keeps_reading _ others_reach)|]. case_match; [|apply (keeps_call g (BeginPublication job h))].
  keeps_auto.
Qed.
Lemma keeps_hydrate job h : keeps (_hydrate models sellers job h).
Proof using others_reach.
  unfold _hydrate. keeps_step; [apply (keeps_reading _ others_reach)|]. case_match; [|apply (keeps_call g (BeginVerification job h))]. keeps_auto.
Qed.
Lemma keeps_step_of job h : keeps (step models sellers (g_budget g) quota_expired job h).
Proof using others_reach.
  unfold step. case_match; [|keeps_step]. keeps_step.
  { apply keeps_read. intros clock s. eapply twp_mono; [apply current_frame|]. by intros ? ? (Hj & _). }
  apply keeps_try.
  - case_match; [apply keeps_known|]. case_match; [apply keeps_discover|apply keeps_hydrate].
  - intros e. case_match; [apply (keeps_call g (Release job h _))|keeps_step].
Qed.
End Producer.

(** ** The claims *)

Section Claims.
Context `{PyRepr} `{BsonLength} `{ItemFingerprint} `{HistoryIndexes} `{Sha256}.

(** The receipts the producer makes of a page of dated orders are those the
    range store accepts for that range: the hour check, the classification
    and the reason agree, although the producer rounds creation dates to
    milliseconds and the store does not; and no order comes twice. *)
Theorem producer_agrees_with_range_store h n at_ rows rs :
  bson_node n = n -> forallb offset_date rows = true -> row_receipts h n at_ [] rows = Ok rs ->
  Forall (fun r => exists created, receipt_created r = Ok created /\ page_receipt_ok n created r = true) rs /\
  List.NoDup (map r_resource_id rs).
Proof using Type. intros Hn Hz Hr. by destruct (row_receipts_page h n at_ rows Hn Hz [] rs Hr) as (Hp & Hd & _). Qed.

(** A step of the producer - whatever the provider answers, whichever
    visits of the database fail before or after their commit, and whatever the
    other workers commit in between - leaves the staging store in a state the
    operations reach, where its accounts hold. *)
Theorem producer_step_keeps_store `{Surroundings} `{OrderSource} g quota_expired job h w r w' :
  (forall n s, reachable s -> reachable (others n s)) -> reachable (w_store w) ->
  step (g_models g) (g_sellers g) (g_budget g) quota_expired job h w = (r, w') ->
  reachable (w_store w') /\ counts_inv (w_store w') /\ ranges_inv (w_store w').
Proof using Type.
  intros Ho Hr Hs. assert (Hw : reachable (w_store w')) by (by eapply keeps_step_of).
  split; [done|]. split; [by apply counts_reachable|by apply ranges_reachable].
Qed.
End Claims.

(** ** A page of two orders, one of them created before the interval *)

Section Witnesses.
Import Demo.
Definition early_head : SheetsHistoryAcquisition := head {{ h_date_from := start_us + 30 * minute }}.
Definition rows : list val :=
  [VDict (mk_doc [("id", VInt 1); ("date_created", VStr "2024-07-01T00:10:00.000123+00:00")]%string);
   VDict (mk_doc [("id", VInt 2); ("date_created", VStr "2024-07-01T00:40:00.000-00:00")]%string)].
Lemma producer_agrees_with_range_store_witness :
  exists a b, row_receipts early_head (root_node early_head) end_us [] rows = Ok [a; b] /\ r_kind a = Exclusion /\ r_kind b = Membership /\
    exists created, receipt_created a = Ok created /\ page_receipt_ok (root_node early_head) created a = true.
Proof.
  assert (Hrun : exists a b, row_receipts early_head (root_node early_head) end_us [] rows = Ok [a; b] /\ r_kind a = Exclusion /\ r_kind b = Membership).
  { eexists _, _. split; [vm_compute; reflexivity|]. vm_compute. auto. }
  destruct Hrun as (a & b & Hr & Ha & Hb). exists a, b. split; [exact Hr|]. split; [exact Ha|]. split; [exact Hb|].
  destruct (producer_agrees_with_range_store early_head (root_node early_head) end_us rows [a; b]) as [Hall _];
    [vm_compute; reflexivity|vm_compute; reflexivity|exact Hr|]. exact (Forall_inv Hall).
Defined.

#[local] Instance calm : Surroundings := {| others := fun _ s => s; faults := fun _ => NoFault; readings := fun n k => end_us + Z.of_nat (n + k) * second |}.
#[local] Instance provider : OrderSource := {|
  search := fun _ _ => Ok (VDict (mk_doc [("paging", VDict (mk_doc [("total", VInt 2)])); ("results", VList rows)]%string));
  order_detail := fun _ _ _ _ _ _ => Err (mk_exn "ReadError" ""); page_length := fun _ => 100; known_orders := fun _ _ _ _ => [] |}.
Lemma claimed_initialized : reachable (reclaim initialized).
Proof.
  assert (Hi : reachable initialized) by (repeat apply reach_after; apply (reach_empty ∅)).
  eapply reach_step; [exact Hi|by apply step_jobs].
Qed.
Lemma producer_step_keeps_store_witness :
  exists h w', step (g_models config) (g_sellers config) (g_budget config) false job (now_at initialized) {| w_store := reclaim initialized; w_turn := 0 |} = (Ok h, w') /\
    h_discovered_count h = 2 /\ h_phase h = Hydrate /\ counts_inv (w_store w').
Proof.
  assert (Hrun : exists h w', step (g_models config) (g_sellers config) (g_budget config) false job (now_at initialized)
      {| w_store := reclaim initialized; w_turn := 0 |} = (Ok h, w') /\ h_discovered_count h = 2 /\ h_phase h = Hydrate).
  { eexists _, _. split; [vm_compute; reflexivity|]. vm_compute. auto. }
  destruct Hrun as (h & w' & Hs & Hd & Hp). exists h, w'. split; [exact Hs|]. split; [exact Hd|]. split; [exact Hp|].
  apply (producer_step_keeps_store config false job (now_at initialized) {| w_store := reclaim initialized; w_turn := 0 |} (Ok h) w'); [auto|exact claimed_initialized|exact Hs].
Defined.
End Witnesses.
