(* ===== verification/HistorySend.v ===== *)
(** The proxy's reservations: a historical request is charged to its plan before
    it leaves ([_history_trace], [_reserve_history_send], [_pilot_plan_available]
    and [_reserve_pilot_get_send] of gateway/.../proxy/router.py). *)

From S2P Require Export HistoryWork Retry.

#[local] Open Scope Z_scope.

(** The proxied request: its method, headers, and the module and seller its
    token authenticated. *)
Record proxied := {
  px_method : string; px_headers : list (string * string); px_module : string; px_seller : string;
}.

Definition trace_sources : list string := ["orders"; "questions"; "shipments"; "messages"; "claims_returns"]%string.

(** [h1-<execution>:<source>:<phase>]. *)
Definition parse_trace (value : string) : option (string * string * string) :=
  match split_char ":" value with
  | [tag; source; phase] =>
      match strip_prefix "h1-" tag with
      | Some execution =>
          if hex32 execution && string_in source trace_sources && string_in phase ["initial"; "maintenance"]%string
          then Some (execution, source, phase) else None
      | None => None
      end
  | _ => None
  end.

Definition _history_trace (rq : proxied) (module_id : string) : option (string * string * string) :=
  if string_in module_id ["bootstrap"; "sheets"]%string && String.eqb (px_method rq) "GET" &&
     bool_decide (header_get (px_headers rq) "X-Zeler-Proxy-Retry" = Some "disabled"%string)
  then parse_trace (default EmptyString (header_get (px_headers rq) "X-Zeler-History-Trace"))
  else None.

(** The paths a source may request, beside the shipping relation. *)
Definition send_path_ok (source path : string) : bool :=
  match segments path with
  | [""; "orders"; n] =>
      String.eqb source "orders" && (String.eqb n "search" || digits1 n) || String.eqb source "claims_returns" && digits1 n
  | [""; "questions"; n] => String.eqb source "questions" && (String.eqb n "search" || digits1 n)
  | [""; "shipments"; n] => String.eqb source "shipments" && digits1 n
  | [""; "shipments"; n; ("costs" | "payments")] => String.eqb source "shipments" && digits1 n
  | [""; "messages"; "packs"; n; "sellers"; m] => String.eqb source "messages" && digits1 n && digits1 m
  | [""; "post-purchase"; "v1"; "claims"; n] => String.eqb source "claims_returns" && (String.eqb n "search" || digits1 n)
  | [""; "post-purchase"; "v2"; "claims"; n; "returns"] => String.eqb source "claims_returns" && digits1 n
  | _ => false
  end%string.
Definition shipment_orders_path (path : string) : bool :=
  match segments path with [""; "shipments"; n; "orders"] => digits1 n | _ => false end%string.

Definition policy_rejected : exn := mk_exn "HistoryPolicyRejectedError" "".
Definition budget_wait (code : string) : exn := mk_exn "PilotGetBudgetWaitError" code.

Definition charged_path (execution source phase : string) : path := ["execution_charged"; execution; source; phase]%string.
Definition sent_path (execution source phase : string) : path :=
  ["execution_sent_by_source"; execution; source; phase]%string.

Definition history_send_query (seller execution source phase : string) (selected : bool) (now : Z) : filter :=
  FAnd (app
        [FEq ["_id"] (VStr seller); FEq ["seller_id"] (VStr seller); FEq ["policy_version"] (VStr POLICY_VERSION);
         FEq ["authority"; "kind"] (VStr "account_link_policy"); FEq ["execution_id"] (VStr execution);
         FEq ["state"] (VStr "active"); FEq ["eligible"] (VBool true); FEq ["sources"] (VStr source);
         FTypeInt ["execution_consumed"]; FRel RGte ["execution_consumed"] (VInt 0);
         FTypeInt (charged_path execution source phase); FRel RGt (charged_path execution source phase) (VInt 0);
         history_execution_query now true;
         counter_ok ["execution_sent"]; counter_ok (sent_path execution source phase);
         FExpr (ALt (AIfNull (AField ["execution_sent"]) (ALit (VInt 0))) (AField ["execution_consumed"]));
         FExpr (ALt (AIfNull (AField (sent_path execution source phase)) (ALit (VInt 0)))
                    (AIfNull (AField (charged_path execution source phase)) (ALit (VInt 0))))]
        (if selected then
           [FExists ["execution_until"] true; FRel RGt ["execution_until"] (VDate true now);
            FEq ["execution_utc_day"] (VStr (iso_day now));
            FTypeInt ["execution_attempt_limit"]; FRel RGte ["execution_attempt_limit"] (VInt 0)]
         else []))%string.

Definition history_send_update (execution source phase : string) : update :=
  UOps [UInc ["execution_sent"%string] 1; UInc (sent_path execution source phase) 1].

(** *** The pilot's global kernel *)

Definition exact_int_ge (z : Z) (v : val) : bool := match v with VInt x => z <=? x | _ => false end.

Definition _pilot_plan_available (plan : option doc) (now : Z) : bool :=
  match plan with
  | None => false
  | Some plan =>
      py_eq (doc_get plan "policy_version") (VStr POLICY_VERSION) &&
      match doc_get plan "authority" with
      | VDict a => py_eq (doc_get a "kind") (VStr "account_link_policy") | _ => false end &&
      py_eq (doc_get plan "state") (VStr "active") &&
      match doc_get plan "eligible" with VBool b => b | _ => false end &&
      hex32 (field_str plan "execution_id") &&
      is_date (doc_get plan "execution_until") &&
      py_eq (doc_get plan "execution_utc_day") (VStr (iso_day now)) &&
      exact_int_ge 0 (doc_get plan "execution_attempt_limit") &&
      exact_int_ge 0 (doc_get plan "execution_consumed") &&
      match doc_get_or plan "execution_sent" (VInt 0), doc_get plan "execution_consumed" with
      | VInt sent, VInt consumed => (0 <=? sent) && (sent <=? consumed)
      | _, _ => false
      end &&
      history_execution_allowed
        (mk_doc [("execution_until", doc_get plan "execution_until");
                 ("execution_utc_day", doc_get plan "execution_utc_day")]%string) now false
  end.

Definition pilot_query (seller execution : string) (plan : doc) (now : Z) : filter :=
  FAnd [FEq ["_id"] (VStr seller); FEq ["seller_id"] (VStr seller); FEq ["policy_version"] (VStr POLICY_VERSION);
        FEq ["authority"; "kind"] (VStr "account_link_policy"); FEq ["state"] (VStr "active");
        FEq ["eligible"] (VBool true); FEq ["execution_id"] (VStr execution);
        FEq ["execution_until"] (doc_get plan "execution_until");
        FEq ["execution_utc_day"] (doc_get plan "execution_utc_day");
        FEq ["execution_attempt_limit"] (doc_get plan "execution_attempt_limit");
        FTypeInt ["execution_consumed"]; FRel RGte ["execution_consumed"] (VInt 0);
        history_execution_query now false;
        counter_ok ["execution_sent"];
        FExpr (ALte (AIfNull (AField ["execution_sent"]) (ALit (VInt 0))) (AField ["execution_consumed"]))]%string.

Definition pilot_update : update :=
  UOps [UInc ["execution_consumed"%string] 1; UInc ["execution_sent"%string] 1].

Section Reserve.
Context {E : Type -> Type} `{PyRepr}.
(** [settings.history_pilot_get_budget_sellers]. *)
Variable pilot_sellers : option (list string).

(** The number of upstream attempts the request state records, if any. *)
Definition _reserve_history_send (rq : proxied) (full_path : string) : prog E (option Z) :=
  match _history_trace rq (px_module rq) with
  | None => Ret None
  | Some (execution, source, phase) =>
      let path := ("/" ++ default EmptyString (head (split_char "?" (lstrip_char "/" full_path))))%string in
      let work := header_get (px_headers rq) "X-Zeler-History-Work" in
      if negb (send_path_ok source path) &&
         negb (String.eqb source "shipments" && negb (is_some work) && shipment_orders_path path)
      then Raise policy_rejected
      else
        match work with
        | Some work_id =>
            if negb (hex32 work_id) || negb (String.eqb (px_module rq) "sheets") then Raise policy_rejected
            else
              let* now := now_utc in
              let* result := catch (reserve_history_work_send (px_seller rq) execution source phase work_id path now)
                               (fun e => if isinstance e "HistoryWorkWaitError" then Raise policy_rejected else Raise e) in
              let* later := now_utc in
              if negb (history_execution_allowed result later true) then Raise policy_rejected else Ret (Some 1)
        | None =>
            let* now := now_utc in
            let selected := match pilot_sellers with Some l => string_in (px_seller rq) l | None => false end in
            let* result := mongo (MFindOneAndUpdate PLAN_COLLECTION
                (history_send_query (px_seller rq) execution source phase selected now)
                (history_send_update execution source phase) false true) in
            match result with
            | None => Raise policy_rejected
            | Some result =>
                let* later := now_utc in
                if negb (history_execution_allowed result later true) then Raise policy_rejected else Ret (Some 1)
            end
        end
  end.

(** [previous]: the execution on the request's state; [remember] puts one there. *)
Definition _reserve_pilot_get_send (rq : proxied) (previous : option string) (remember : string -> prog E unit) : prog E unit :=
  let seller := px_seller rq in
  let* now := now_utc in
  let* plan := mongo (MFindOne PLAN_COLLECTION (plan_filter seller []) []) in
  if negb (_pilot_plan_available plan now) then Raise (budget_wait "pilot_execution_unavailable")
  else
    let plan := default ∅ plan in
    let execution := field_str plan "execution_id" in
    if negb (String.eqb (default execution previous) execution) then Raise (budget_wait "pilot_execution_unavailable")
    else
      do* remember execution in
      if int_or 0 (plan !! "execution_attempt_limit"%string) <=? int_or 0 (plan !! "execution_consumed"%string)
      then Raise (budget_wait "pilot_budget_exhausted")
      else
      let* result := mongo (MFindOneAndUpdate PLAN_COLLECTION (pilot_query seller execution plan now) pilot_update false true) in
      match result with
      | None => Raise (budget_wait "pilot_execution_unavailable")
      | Some result =>
          let* later := now_utc in
          if negb (history_execution_allowed result later true) then Raise (budget_wait "pilot_execution_unavailable")
          else Ret tt
      end.
End Reserve.
