(* ===== verification/HistoryLedger.v ===== *)
(** Reservations conserve the ledger of a plan, in every interleaving. *)

From S2P Require Export HistorySend.

#[local] Open Scope Z_scope.

(** ** Counters at a path *)

Definition counter_at (d : doc) (p : path) : Z :=
  match path_get p (VDict d) with Some (VInt z) => z | _ => 0 end.

(** The path holds an integer or nothing, and no array lies on the way. *)
Definition plain (d : doc) (p : path) : Prop :=
  path_vals p (VDict d) = [] /\ path_get p (VDict d) = None \/
  exists z, path_vals p (VDict d) = [VInt z] /\ path_get p (VDict d) = Some (VInt z).

Lemma path_alter_cons k k2 p f d :
  path_alter (k :: k2 :: p) f d =
  match d !! k with
  | None => d1 ← path_alter (k2 :: p) f ∅; Some (<[k := VDict d1]> d)
  | Some (VDict sub) => d1 ← path_alter (k2 :: p) f sub; Some (<[k := VDict d1]> d)
  | Some _ => None
  end.
Proof. done. Qed.

Lemma path_vals_dict k p d :
  path_vals (k :: p) (VDict d) = match d !! k with Some y => path_vals p y | None => [] end.
Proof. done. Qed.

Lemma path_vals_other p f d d' q :
  path_alter p f d = Some d' -> ~ p `prefix_of` q -> ~ q `prefix_of` p -> path_vals q (VDict d') = path_vals q (VDict d).
Proof.
  revert d d' q. induction p as [|k p IH]; intros d d' q Ha Hpq Hqp; [done|].
  destruct q as [|k' q]; [exfalso; apply Hqp, prefix_nil|].
  destruct (decide (k' = k)) as [->|Hne].
  2: { rewrite !path_vals_dict. assert (Hf : d' !! k' = d !! k'); [|by rewrite Hf].
       eapply path_alter_frame; [exact Ha|]. simpl. congruence. }
  assert (Hpq' : ~ p `prefix_of` q) by (intros Hp; apply Hpq, prefix_cons, Hp).
  assert (Hqp' : ~ q `prefix_of` p) by (intros Hp; apply Hqp, prefix_cons, Hp).
  destruct p as [|k2 p]; [exfalso; apply Hpq', prefix_nil|]. rewrite path_alter_cons in Ha. rewrite !path_vals_dict.
  destruct (d !! k) as [v|] eqn:Hk.
  - destruct v as [| | | | | |sub]; try done. apply bind_Some in Ha as (d1 & Hd1 & [= <-]).
    rewrite lookup_insert_eq. by apply (IH sub).
  - apply bind_Some in Ha as (d1 & Hd1 & [= <-]). rewrite lookup_insert_eq, (IH _ _ _ Hd1 Hpq' Hqp').
    destruct q; [exfalso; apply Hqp', prefix_nil|done].
Qed.

Lemma path_alter_same p f d d' :
  path_alter p f d = Some d' ->
  exists v, f (path_get p (VDict d)) = Some v /\ path_get p (VDict d') = Some v /\ path_vals p (VDict d') = [v].
Proof.
  revert d d'. induction p as [|k p IH]; intros d d' Ha; [done|]. destruct p as [|k2 p].
  - simpl in Ha. cbn [path_get]. rewrite path_vals_dict.
    assert (Hopt : match d !! k with Some x => Some x | None => None end = d !! k) by by destruct (d !! k).
    rewrite Hopt. destruct (f (d !! k)) as [v|]; [|done]. injection Ha as <-. exists v. by rewrite lookup_insert_eq.
  - rewrite path_alter_cons in Ha. rewrite path_vals_dict.
    change (path_get (k :: k2 :: p) (VDict d)) with (match d !! k with Some x => path_get (k2 :: p) x | None => None end).
    change (path_get (k :: k2 :: p) (VDict d')) with (match d' !! k with Some x => path_get (k2 :: p) x | None => None end).
    destruct (d !! k) as [v|] eqn:Hk.
    + destruct v as [| | | | | |sub]; try done. apply bind_Some in Ha as (d1 & Hd1 & [= <-]). rewrite lookup_insert_eq. by apply IH.
    + apply bind_Some in Ha as (d1 & Hd1 & [= <-]). rewrite lookup_insert_eq.
      pose proof (IH _ _ Hd1) as Hi. assert (He : path_get (k2 :: p) (VDict ∅) = None) by (cbn [path_get]; by rewrite lookup_empty).
      by rewrite He in Hi.
Qed.

(** ** The ledger of a plan *)

Inductive ledger_path : path -> Prop :=
| LSent : ledger_path ["execution_sent"%string]
| LConsumed : ledger_path ["execution_consumed"%string]
| LLimit : ledger_path ["execution_attempt_limit"%string]
| LCharged e s ph : ledger_path (charged_path e s ph)
| LSource e s ph : ledger_path (sent_path e s ph).

Lemma ledger_apart p q : ledger_path p -> ledger_path q -> p <> q -> ~ p `prefix_of` q.
Proof.
  intros Hp Hq Hne [r Hr]. apply Hne. destruct Hp, Hq; unfold charged_path, sent_path in *; simpl in Hr; by simplify_eq.
Qed.

Definition ledger_typed (d : doc) : Prop := forall p, ledger_path p -> plain d p.

(** One more at a ledger path. *)
Lemma ledger_inc now ins p d d' :
  ledger_path p -> ledger_typed d -> apply_upd now ins (UInc p 1) d = Some d' ->
  ledger_typed d' /\ counter_at d' p = counter_at d p + 1 /\
  forall q, ledger_path q -> q <> p -> counter_at d' q = counter_at d q.
Proof.
  intros Hp Ht Ha. cbn [apply_upd] in Ha. pose proof (path_alter_same _ _ _ _ Ha) as (v & Hv & Hg & Hvals).
  assert (Hother : forall q, ledger_path q -> q <> p ->
    path_get q (VDict d') = path_get q (VDict d) /\ path_vals q (VDict d') = path_vals q (VDict d)).
  { intros q Hq Hne. split; [eapply path_alter_other|eapply path_vals_other]; try exact Ha; by apply ledger_apart. }
  assert (Hz : exists z, v = VInt z /\ z = counter_at d p + 1).
  { unfold counter_at. destruct (Ht p Hp) as [[_ Hn]|(z & _ & Hs)].
    - rewrite Hn in *. injection Hv as <-. eauto.
    - rewrite Hs in *. destruct (int64_ok _); [|done]. injection Hv as <-. eauto. }
  destruct Hz as (z & -> & Hz). split; [|split].
  - intros q Hq. destruct (decide (q = p)) as [->|Hne]; [right; eauto|].
    destruct (Hother q Hq Hne) as [Hg' Hv']. unfold plain. rewrite Hg', Hv'. by apply Ht.
  - unfold counter_at at 1. by rewrite Hg.
  - intros q Hq Hne. unfold counter_at. by destruct (Hother q Hq Hne) as [-> _].
Qed.

(** ** What the queries say of the counters *)

Section Queries.
Variable now : Z.
Variable d : doc.

Lemma plain_int p : plain d p -> matches now (FTypeInt p) d = true -> path_get p (VDict d) = Some (VInt (counter_at d p)).
Proof.
  unfold counter_at. intros [[Hv Hg]|(z & Hv & Hg)]; cbn [matches]; rewrite Hv, Hg; done.
Qed.

Lemma ifnull_counter p : plain d p -> aeval now d (AIfNull (AField p) (ALit (VInt 0))) = Some (VInt (counter_at d p)).
Proof. unfold counter_at. intros [[_ Hg]|(z & _ & Hg)]; cbn [aeval]; by rewrite Hg. Qed.

Lemma expr_lt a b x y :
  aeval now d a = Some (VInt x) -> aeval now d b = Some (VInt y) -> matches now (FExpr (ALt a b)) d = true -> x < y.
Proof.
  intros Ha Hb. cbn [matches aeval]. rewrite Ha, Hb. cbn [agg_cmp agg_true]. rewrite bson_cmp_int.
  destruct (Z.compare_spec x y); by intros; try lia.
Qed.
Lemma expr_lte a b x y :
  aeval now d a = Some (VInt x) -> aeval now d b = Some (VInt y) -> matches now (FExpr (ALte a b)) d = true -> x <= y.
Proof.
  intros Ha Hb. cbn [matches aeval]. rewrite Ha, Hb. cbn [agg_cmp agg_true]. rewrite bson_cmp_int.
  destruct (Z.compare_spec x y); by intros; try lia.
Qed.
End Queries.

(** A reservation's move: one more send, within what was consumed; the sends of
    a source within its charges; a consumption only up to the limit. *)
Definition reserved (d d' : doc) : Prop :=
  counter_at d' ["execution_sent"%string] = counter_at d ["execution_sent"%string] + 1 /\
  counter_at d' ["execution_sent"%string] <= counter_at d' ["execution_consumed"%string] /\
  (forall e s ph, counter_at d' (charged_path e s ph) = counter_at d (charged_path e s ph) /\
     (counter_at d' (sent_path e s ph) = counter_at d (sent_path e s ph) \/
      counter_at d' (sent_path e s ph) = counter_at d (sent_path e s ph) + 1 /\
      counter_at d' (sent_path e s ph) <= counter_at d' (charged_path e s ph))) /\
  counter_at d' ["execution_attempt_limit"%string] = counter_at d ["execution_attempt_limit"%string] /\
  (counter_at d' ["execution_consumed"%string] = counter_at d ["execution_consumed"%string] \/
   counter_at d' ["execution_consumed"%string] = counter_at d ["execution_consumed"%string] + 1 /\
   counter_at d' ["execution_consumed"%string] <= counter_at d' ["execution_attempt_limit"%string]).

Definition ledger_move (d d' : doc) : Prop := ledger_typed d -> ledger_typed d' /\ reserved d d'.

Lemma history_send_moves now seller execution source phase selected t d d' :
  matches now (history_send_query seller execution source phase selected t) d = true ->
  apply_update now false (history_send_update execution source phase) d = Some d' -> ledger_move d d'.
Proof.
  intros Hm Ha Ht. unfold history_send_query in Hm. cbn [matches] in Hm. rewrite forallb_app in Hm.
  apply andb_true_iff in Hm as [Hm _]. cbn [forallb] in Hm. rewrite !andb_true_iff in Hm.
  destruct Hm as (_ & _ & _ & _ & _ & _ & _ & _ & Hci & _ & Hki & _ & _ & _ & _ & Hlt & Hslt & _).
  pose proof (plain_int now _ _ (Ht _ LConsumed) Hci) as Hc.
  eapply expr_lt in Hlt; [|apply ifnull_counter, Ht, LSent|exact Hc].
  eapply expr_lt in Hslt; [|apply ifnull_counter, Ht, LSource|apply ifnull_counter, Ht, LCharged].
  cbn [history_send_update apply_update apply_upds] in Ha.
  apply bind_Some in Ha as (d1 & Hd1 & Ha). apply bind_Some in Ha as (d2 & Hd2 & [= <-]).
  destruct (ledger_inc _ _ _ _ _ LSent Ht Hd1) as (Ht1 & Hs1 & Ho1).
  destruct (ledger_inc _ _ _ _ _ (LSource execution source phase) Ht1 Hd2) as (Ht2 & Hs2 & Ho2).
  split; [done|]. split; [|split; [|split; [|split]]].
  - rewrite Ho2 by (done || constructor). done.
  - rewrite !Ho2 by (done || constructor). rewrite Hs1, Ho1 by (done || constructor). lia.
  - intros e s ph. split.
    { rewrite Ho2 by (done || constructor). by rewrite Ho1 by (done || constructor). }
    destruct (decide (sent_path e s ph = sent_path execution source phase)) as [He|Hne].
    + right. unfold sent_path in He. injection He as -> -> ->.
      rewrite Hs2, !Ho2, !Ho1 by (done || constructor). split; [done|lia].
    + left. rewrite Ho2 by (done || constructor). by rewrite Ho1 by (done || constructor).
  - rewrite !Ho2, Ho1 by (done || constructor). done.
  - left. rewrite !Ho2, Ho1 by (done || constructor). done.
Qed.

Lemma plain_eq now d p z : plain d p -> matches now (FEq p (VInt z)) d = true -> path_vals p (VDict d) = [VInt z] /\ counter_at d p = z.
Proof.
  unfold counter_at. intros [[Hv Hg]|(x & Hv & Hg)]; cbn [matches]; unfold match_eq; rewrite Hv, Hg; [done|].
  unfold meets. cbn [existsb bson_encode is_none is_nil andb orb val_eqb]. rewrite !orb_false_r. intros Hz.
  apply Z.eqb_eq in Hz. by subst.
Qed.

Lemma uncharged_query_limit now t d z :
  ledger_typed d -> path_vals ["execution_attempt_limit"%string] (VDict d) = [VInt z] ->
  matches now (history_execution_query t false) d = true ->
  counter_at d ["execution_consumed"%string] < counter_at d ["execution_attempt_limit"%string].
Proof.
  intros Ht Hv Hm. unfold history_execution_query in Hm. cbn [matches forallb existsb] in Hm. rewrite Hv in Hm.
  rewrite !andb_true_iff in Hm. destruct Hm as (_ & _ & Hm & _). cbn [is_nil negb Bool.eqb orb] in Hm.
  rewrite orb_false_r in Hm. rewrite !andb_true_iff in Hm. destruct Hm as (_ & _ & _ & Hm & _).
  eapply expr_lt; [apply ifnull_counter, Ht, LConsumed| |exact Hm].
  destruct (Ht _ LLimit) as [[Hn _]|(x & _ & Hg)]; [by rewrite Hn in Hv|].
  unfold counter_at. cbn [aeval]. by rewrite Hg.
Qed.

Lemma pilot_moves now seller execution plan L t d d' :
  doc_get plan "execution_attempt_limit" = VInt L ->
  matches now (pilot_query seller execution plan t) d = true ->
  apply_update now false pilot_update d = Some d' -> ledger_move d d'.
Proof.
  intros HL Hm Ha Ht. unfold pilot_query in Hm. rewrite HL in Hm. cbn [matches forallb] in Hm. rewrite !andb_true_iff in Hm.
  destruct Hm as (_ & _ & _ & _ & _ & _ & _ & _ & _ & Hlim & Hci & _ & Hq & _ & Hle & _).
  pose proof (plain_int now _ _ (Ht _ LConsumed) Hci) as Hc.
  eapply expr_lte in Hle; [|apply ifnull_counter, Ht, LSent|exact Hc].
  destruct (plain_eq now _ _ _ (Ht _ LLimit) Hlim) as [Hv _].
  pose proof (uncharged_query_limit now t d L Ht Hv Hq) as Hlt.
  cbn [pilot_update apply_update apply_upds] in Ha.
  apply bind_Some in Ha as (d1 & Hd1 & Ha). apply bind_Some in Ha as (d2 & Hd2 & [= <-]).
  destruct (ledger_inc _ _ _ _ _ LConsumed Ht Hd1) as (Ht1 & Hs1 & Ho1).
  destruct (ledger_inc _ _ _ _ _ LSent Ht1 Hd2) as (Ht2 & Hs2 & Ho2).
  split; [done|]. split; [|split; [|split; [|split]]].
  - rewrite Hs2, Ho1 by (done || constructor). done.
  - rewrite Hs2, Ho2, Hs1, Ho1 by (done || constructor). lia.
  - intros e s ph. rewrite !Ho2, !Ho1 by (done || constructor). auto.
  - rewrite !Ho2, Ho1 by (done || constructor). done.
  - right. rewrite !Ho2, Hs1, Ho1 by (done || constructor). split; [done|lia].
Qed.

(** ** Any number of reservations *)

(** A reservation of a request that carries no work receipt, or of the pilot. *)
Inductive reservation := History (rq : proxied) (full_path : string) | Pilot (rq : proxied) (previous : option string).
Definition without_work (r : reservation) : Prop :=
  match r with History rq _ => header_get (px_headers rq) "X-Zeler-History-Work" = None | Pilot _ _ => True end.

(** A ledger in order: the sends within the consumption, those of each source
    within its charges. *)
Record ledger_ok (d : doc) : Prop := {
  lo_typed : ledger_typed d;
  lo_sent : counter_at d ["execution_sent"%string] <= counter_at d ["execution_consumed"%string];
  lo_source : forall e s ph, counter_at d (sent_path e s ph) <= counter_at d (charged_path e s ph);
}.

Lemma ledger_ok_moves d d' : ledger_ok d -> d' = d \/ ledger_move d d' -> ledger_ok d'.
Proof.
  intros [Ht Hs Hsrc] [->|Hm]; [done|]. destruct (Hm Ht) as (Ht' & _ & Hle & Hall & _). constructor; [done|done|].
  intros e s ph. destruct (Hall e s ph) as [Hc [Hsame|[_ Hmore]]]; [|done]. rewrite Hc, Hsame. apply Hsrc.
Qed.

Section Reservations.
Context {E : Type -> Type} {S : Type} `{PyRepr} `{MongoConf} `{ExtSpec E S}.
Variable pilot_sellers : option (list string).
Implicit Types w : world S.

Definition reserve (r : reservation) : prog E unit :=
  match r with
  | History rq full_path => do* _reserve_history_send pilot_sellers rq full_path in Ret tt
  | Pilot rq previous => _reserve_pilot_get_send rq previous (fun _ => Ret tt)
  end.

Lemma pilot_plan_limit plan t : _pilot_plan_available (Some plan) t = true ->
  exists L, doc_get plan "execution_attempt_limit" = VInt L.
Proof.
  unfold _pilot_plan_available. destruct (doc_get plan "execution_attempt_limit"); [| |by eauto|..];
    cbn [exact_int_ge]; by rewrite andb_false_r.
Qed.

Lemma reserve_moves r : without_work r -> guarded (E := E) (S := S) (doc_step PLAN_COLLECTION ledger_move) (reserve r).
Proof.
  intros Hw. destruct r as [rq full_path|rq previous]; cbn [reserve without_work] in *.
  - apply guarded_bind; [|done]. unfold _reserve_history_send. destruct (_history_trace _ _) as [[[execution source] phase]|]; [|done].
    destruct (_ && _); [done|]. rewrite Hw. apply guarded_bind; [auto with zeler|]. intros t.
    apply guarded_bind; [apply guarded_moves|].
    + intros _ now d d'. apply history_send_moves.
    + intros [plan|]; [|done]. apply guarded_bind; [auto with zeler|]. intros t'. by destruct (negb _).
  - unfold _reserve_pilot_get_send. apply guarded_bind; [auto with zeler|]. intros t.
    apply guarded_bind; [by apply guarded_moves|]. intros plan.
    destruct (_pilot_plan_available plan t) eqn:Hplan; [|done]. cbn [negb].
    destruct plan as [plan|]; [|done]. destruct (pilot_plan_limit _ _ Hplan) as [L HL]. cbn [default].
    destruct (negb _); [done|]. apply guarded_bind; [done|intros _]. destruct (_ <=? _); [done|]. apply guarded_bind; [apply guarded_moves|].
    + intros _ now d d'. by eapply pilot_moves.
    + intros [result|]; [|done]. apply guarded_bind; [auto with zeler|]. intros t'. by destruct (negb _).
Qed.

(** C21: prepaid sends are conserved.  Any number of reservations, of any
    sellers, interleaved in any way and losing any connection: the ledger of a
    plan stays in order (never more sends than consumed, never more of a source
    than charged to it), and every single call changes a plan by at most one
    reservation. *)
Theorem reservations_conserve_ledger (rs : list reservation) w c seller d :
  Forall without_work rs -> db_wf (w_db w) -> w_db w !! (PLAN_COLLECTION, seller) = Some d -> ledger_ok d ->
  pool_reach (reserve <$> rs, w) c ->
  (exists d', w_db c.2 !! (PLAN_COLLECTION, seller) = Some d' /\ ledger_ok d') /\
  forall ps' w', pool_step c.1 c.2 ps' w' -> doc_step PLAN_COLLECTION ledger_move c.2 w'.
Proof.
  intros Hrs Hwf Hd Hok Hr.
  pose proof (guarded_pool_inv (A := unit) (S := S) (doc_step PLAN_COLLECTION ledger_move)
    (fun w => db_wf (w_db w) /\ exists d', w_db w !! (PLAN_COLLECTION, seller) = Some d' /\ ledger_ok d')
    (reserve <$> rs, w) c) as Hinv.
  destruct Hinv as [Hg [_ Hinv]]; [|exact Hr| | |].
  - intros w1 w2 [Hwf1 (d1 & Hd1 & Hok1)] Hstep. destruct (Hstep Hwf1) as [Hwf2 Hmv]. split; [done|].
    destruct (Hmv _ _ Hd1) as (d2 & Hd2 & Hm). exists d2. split; [done|]. by eapply ledger_ok_moves.
  - apply Forall_fmap. eapply Forall_impl; [exact Hrs|]. intros r. apply reserve_moves.
  - eauto.
  - split; [done|]. intros ps' w' Hst. by destruct (guarded_pool_step _ _ _ _ _ Hg Hst).
Qed.
End Reservations.

(** ** Two requests on one credit *)

Section Example.
#[local] Instance no_repr : PyRepr := fun _ => EmptyString.
#[local] Instance aware : MongoConf := aware_conf.
Definition sample_execution : string := "0123456789abcdef0123456789abcdef".
Definition credit_of (z : Z) : val :=
  VDict {[ sample_execution := VDict {[ "orders"%string := VDict {[ "maintenance"%string := VInt z ]} ]} ]}.
Definition sample_plan : doc := mk_doc
  [("_id", VStr "7"); ("seller_id", VStr "7"); ("policy_version", VStr POLICY_VERSION);
   ("authority", VDict (mk_doc [("kind", VStr "account_link_policy")])); ("execution_id", VStr sample_execution);
   ("state", VStr "active"); ("eligible", VBool true); ("sources", VList [VStr "orders"]);
   ("execution_consumed", VInt 2); ("execution_charged", credit_of 1)]%string.
Definition plan_db : database := {[ (PLAN_COLLECTION, "7"%string) := sample_plan ]}.
Definition sample_world : world unit := World plan_db day None tt.
Definition sample_rq : proxied :=
  {| px_method := "GET"; px_module := "sheets"; px_seller := "7";
     px_headers := [("x-zeler-proxy-retry", "disabled");
                    ("x-zeler-history-trace", "h1-0123456789abcdef0123456789abcdef:orders:maintenance")]%string |}.
Definition sample_reserve : prog noE unit := reserve None (History sample_rq "orders/123").

Lemma sample_field k : is_some (sample_plan !! k) = false -> sample_plan !! k = None.
Proof. by destruct (sample_plan !! k). Qed.

Lemma sample_ok : ledger_ok sample_plan.
Proof.
  assert (Hch : sample_plan !! "execution_charged"%string = Some (credit_of 1)) by done.
  assert (Hso : sample_plan !! "execution_sent_by_source"%string = None) by (by apply sample_field).
  assert (Hcred : forall e s ph, exists o, path_get (charged_path e s ph) (VDict sample_plan) = VInt <$> o /\
    path_vals (charged_path e s ph) (VDict sample_plan) = match o with Some z => [VInt z] | None => [] end /\
    match o with Some z => 0 <= z | None => True end).
  { intros e s ph. unfold charged_path. cbn [path_get]. rewrite path_vals_dict, Hch. unfold credit_of.
    destruct (decide (e = sample_execution)) as [->|He]; [|exists None; rewrite path_vals_dict, lookup_singleton_ne by done; done].
    rewrite path_vals_dict, !lookup_singleton_eq. 
    destruct (decide (s = "orders"%string)) as [->|Hs]; [|exists None; rewrite path_vals_dict, lookup_singleton_ne by done; done].
    rewrite path_vals_dict, !lookup_singleton_eq.
    destruct (decide (ph = "maintenance"%string)) as [->|Hp]; [|exists None; rewrite path_vals_dict, lookup_singleton_ne by done; done].
    rewrite path_vals_dict, !lookup_singleton_eq. exists (Some 1). repeat split; done. }
  assert (Hsrc : forall e s ph, path_get (sent_path e s ph) (VDict sample_plan) = None /\
    path_vals (sent_path e s ph) (VDict sample_plan) = []).
  { intros e s ph. unfold sent_path. cbn [path_get]. by rewrite path_vals_dict, Hso. }
  constructor.
  - intros p Hp. destruct Hp.
    + by left.
    + right. by exists 2.
    + by left.
    + destruct (Hcred e s ph) as ([z|] & Hg & Hv & _); [right; by exists z|by left].
    + left. by destruct (Hsrc e s ph).
  - done.
  - intros e s ph. unfold counter_at. destruct (Hsrc e s ph) as [-> _].
    destruct (Hcred e s ph) as ([z|] & -> & _ & Hz); simpl; lia.
Qed.

Lemma reservations_conserve_ledger_witness :
  exists c, pool_reach ([sample_reserve; sample_reserve], sample_world) c /\
    c.1 = [Ret tt; Raise policy_rejected] /\
    exists d', w_db c.2 !! (PLAN_COLLECTION, "7"%string) = Some d' /\ ledger_ok d'.
Proof.
  set (r1 := run sample_reserve sample_world). set (r2 := run sample_reserve r1.1).
  assert (Hr : pool_reach ([sample_reserve; sample_reserve], sample_world) ([done_with r1.2; done_with r2.2], r2.1)).
  { apply (reach_pool (day + day)). etrans.
    - apply (reach_run noE_run_ext noE_run_uuid _ [sample_reserve; sample_reserve] 0%nat); [done|by vm_compute].
    - apply (reach_run noE_run_ext noE_run_uuid _ [done_with r1.2; sample_reserve] 1%nat); [done|by vm_compute]. }
  exists ([done_with r1.2; done_with r2.2], r2.1). split; [exact Hr|]. split; [by vm_compute|].
  apply (reservations_conserve_ledger None [History sample_rq "orders/123"; History sample_rq "orders/123"]
    sample_world ([done_with r1.2; done_with r2.2], r2.1) "7" sample_plan).
  - by repeat constructor.
  - apply db_wfb_ok. by vm_compute.
  - apply lookup_singleton_eq.
  - apply sample_ok.
  - exact Hr.
Defined.
End Example.
