(* ===== verification/Proxy.v ===== *)
(** The gateway's proxy: [proxy_meli] of gateway/.../proxy/router.py, from the
    bearer token of a module to MercadoLibre's answer.  [HistorySend.v] models
    the reservations of historical requests; metrics and logging are left out. *)

From S2P Require Export Trace PyRe Jwt Vault RateLimit HistorySend.

#[local] Open Scope Z_scope.

(** ** The request, the settings and the world outside *)

Record http_request := {
  hr_method : string;
  hr_headers : list (string * string);
  hr_query : list (string * string);
}.
Record gateway_settings := {
  gateway_proxy_rate_limit : Z;
  history_pilot_get_budget_sellers : option (list string);
  meli_api_base : string;
  kms_key_name : string;
}.

(** httpx's [client.build_request]: method, url, content, params, headers. *)
Class BuildRequest :=
  build_request : string -> string -> string -> list (string * string) -> list (string * string) -> result request.

(** The key service, the vault, the upstream client, the request's body, the
    performance counter (in microseconds) and [request.state]. *)
Inductive gateway_call `{JwtCrypto} : Type -> Type :=
| GJwt {X} (c : jwt_call X) : gateway_call X
| GVault {X} (c : vault_call X) : gateway_call X
| GUp {X} (c : upstream X) : gateway_call X
| GBody : gateway_call string
| GPerf : gateway_call Z
| GGet (attr : string) : gateway_call (option val)
| GSet (attr : string) (v : val) : gateway_call unit.

Inductive body := JsonBody (fields : list (string * string)) | RawBody (content : string).
Record reply := Reply {
  rp_status : Z;
  rp_body : body;
  rp_headers : list (string * string);
  rp_media_type : option string;
}.

Definition _json_error (status_code : Z) (error : string) (detail : option string) (headers : list (string * string)) : reply :=
  Reply status_code
    (JsonBody (("error", error) :: match detail with Some d => [("detail", d)] | None => [] end)%string)
    headers (Some "application/json"%string).

(** ** Scopes *)

(** Iterating over a stored value, as the [for] over the scopes does. *)
Fixpoint chars (s : string) : list val :=
  match s with EmptyString => [] | String c s => VStr (String c EmptyString) :: chars s end.
Definition py_iter (v : val) : result (list val) :=
  match v with
  | VList l => Ok l
  | VStr s => Ok (chars s)
  | VDict d => Ok (map (fun kv => VStr kv.1) (map_to_list d))
  | _ => raise_type "object is not iterable"
  end.
(** [any(fnmatchcase(requested, scope) for scope in scopes)]. *)
Fixpoint any_scope (requested : string) (scopes : list val) : result bool :=
  match scopes with
  | [] => Ok false
  | VStr scope :: rest => if fnmatchcase requested scope then Ok true else any_scope requested rest
  | _ :: _ => raise_type "expected str"
  end.

Definition upper_char (c : ascii) : ascii := if char_in 97 122 c then ascii_of_nat (nat_of_ascii c - 32) else c.
Fixpoint upper (s : string) : string :=
  match s with EmptyString => EmptyString | String c s => String (upper_char c) (upper s) end.

Definition claim_detail (path : string) : bool :=
  let normalized_path := default EmptyString (head (split_char "?" path)) in
  startswith "/post-purchase/v1/claims/" normalized_path && endswith "/detail" normalized_path.

Definition _scope_matches (method path : string) (allowed_scopes : val) : result bool :=
  if claim_detail path then Ok false
  else let! scopes := py_iter allowed_scopes in any_scope (upper method ++ " " ++ path) scopes.

(** ** Headers *)

(** Assignment to a [dict]: the key keeps its place. *)
Fixpoint dict_set (d : list (string * string)) (k v : string) : list (string * string) :=
  match d with
  | [] => [(k, v)]
  | (k', v') :: d => if String.eqb k' k then (k, v) :: d else (k', v') :: dict_set d k v
  end.

Definition HOP_BY_HOP_HEADERS : list string :=
  ["connection"; "keep-alive"; "proxy-authenticate"; "proxy-authorization"; "te"; "trailer"; "transfer-encoding";
   "upgrade"; "authorization"; "host"]%string.
Definition forwarded_header (key : string) : bool :=
  negb (string_in (lower key) HOP_BY_HOP_HEADERS) && negb (startswith "x-forwarded-" (lower key)) &&
  negb (string_in (lower key) ["x-zeler-history-trace"; "x-zeler-history-work"; "x-zeler-proxy-retry"]%string).
Definition _upstream_headers (headers : list (string * string)) (access_token : string) : list (string * string) :=
  dict_set (foldl (fun d kv => if forwarded_header kv.1 then dict_set d kv.1 kv.2 else d) [] headers)
    "Authorization" ("Bearer " ++ access_token).

Definition copied (r : response) (upstream_name name : string) : list (string * string) :=
  match httpx_get (rs_headers r) upstream_name with Some v => [(name, v)] | None => [] end.
Definition _response_headers (r : response) : list (string * string) :=
  (copied r "content-type" "Content-Type" ++ copied r "X-Zeler-Upstream-Attempts" "X-Zeler-Upstream-Attempts" ++
   copied r "X-Content-Missing" "X-Content-Missing")%list.

(** ** The handler *)

Definition rstrip_char (c : ascii) (s : string) : string := string_rev (lstrip_char c (string_rev s)).
Definition REFRESH_RETRY_AFTER_SECONDS : Z := 5.

(** [removeprefix] after its [startswith]. *)
Definition bearer (headers : list (string * string)) : option string :=
  match header_get headers "Authorization" with
  | Some auth_header => strip <$> strip_prefix "Bearer " auth_header
  | None => None
  end.

(** The sealed access token of an account document. *)
Definition stored_access_token (account : doc) : result EncryptedToken :=
  let! ct := doc_at account "access_token_ciphertext" in
  let! n := doc_at account "token_nonce" in
  let! dek := doc_at account "access_token_dek_wrapped" in
  let! version := doc_at account "kms_key_version" in
  let! ct := as_text ct in
  let! n := as_text n in
  let! dek := as_text dek in
  let! version := as_text version in
  Ok {| ciphertext := ct; nonce := n; dek_wrapped := dek; kms_key_version := version |}.

Section Proxy.
Context `{JwtCrypto} `{Aead} `{ParseDate} `{BuildRequest} `{PyRepr}.
Abbreviation gateway := (prog gateway_call).
Definition gjwt : forall X, jwt_call X -> gateway_call X := fun X c => GJwt c.
Definition gvault : forall X, vault_call X -> gateway_call X := fun X c => GVault c.
Definition gup : forall X, upstream X -> gateway_call X := fun X c => GUp c.
Variable settings : gateway_settings.

Definition _lock_is_held (lock_held_until : val) : gateway bool :=
  match utc_instant lock_held_until with
  | None => Ret false
  | Some lock_deadline => let* now := now_utc in Ret (now <? lock_deadline)
  end.

(** The polls of [_wait_for_active_account]: each sleeps 200 ms of the 5 s. *)
Fixpoint wait_loop (fuel : nat) (seller : Z) (deadline : Z) : gateway (option doc) :=
  match fuel with
  | O => Raise (mk_exn "OutOfFuel" "")
  | S fuel =>
      let* now := now_utc in
      if now <? deadline then
        do* sleep (200 * millisecond) in
        let* account := mongo (MFindOne "meli_accounts" (FEq ["seller_id"%string] (VInt seller)) []) in
        match account with
        | None => Ret None
        | Some account =>
            if py_eq (doc_get account "status") (VStr "active") then
              let* held := _lock_is_held (doc_get account "lock_held_until") in
              if negb held then Ret (Some account) else wait_loop fuel seller deadline
            else wait_loop fuel seller deadline
        end
      else Ret None
  end.
Definition WAIT_POLLS : nat := 26.
Definition _wait_for_active_account (seller : Z) : gateway (option doc) :=
  let* now := now_utc in wait_loop WAIT_POLLS seller (now + 5 * second).

Definition _write_audit_log (rq : proxied) (seller : Z) (path : string) (upstream_status duration_ms : Z)
    (response_status : option Z) : gateway unit :=
  catch
    (let* at_ := now_utc in
     mongo (MInsertOne "audit_log" (mk_doc (
       [("at", VDate true at_); ("module_id", VStr (px_module rq)); ("seller_id", VInt seller);
        ("method", VStr (px_method rq)); ("path", VStr path);
        ("status", VInt (default upstream_status response_status)); ("upstream_status", VInt upstream_status);
        ("duration_ms", VInt duration_ms); ("schema_version", VInt 1)]%string ++
       match _history_trace rq (px_module rq) with
       | Some _ => [("trace_id", VStr (default EmptyString (header_get (px_headers rq) "X-Zeler-History-Trace")))]%string
       | None => []
       end))))
    (fun e => if isinstance e "PyMongoError" then Ret tt else Raise e).

(** The pilot's kernel on [request.state]. *)
Definition before_attempt (rq : proxied) : gateway unit :=
  let* previous := ext (GGet "pilot_execution_id") in
  do* _reserve_pilot_get_send rq match previous with Some v => str_of v | None => None end
        (fun execution => ext (GSet "pilot_execution_id" (VStr execution))) in
  let* n := ext (GGet "pilot_upstream_attempts") in
  ext (GSet "pilot_upstream_attempts" (VInt (int_or 0 n + 1))).

Definition pilot_get (rq : proxied) : bool :=
  String.eqb (px_method rq) "GET" && String.eqb (px_module rq) "sheets" &&
  match history_pilot_get_budget_sellers settings with Some scope => string_in (px_seller rq) scope | None => false end.
Definition no_retry (rq : proxied) : bool :=
  bool_decide (header_get (px_headers rq) "X-Zeler-Proxy-Retry" = Some "disabled"%string).

Definition upstream_url (full_path : string) : string :=
  (rstrip_char "/" (meli_api_base settings) ++ "/" ++ lstrip_char "/" full_path)%string.

(** The upstream attempts that go out once the request is built. *)
Definition send_upstream (rq : proxied) (full_path : string) (upstream_request : request) : gateway response :=
  if no_retry rq then
    do* (if pilot_get rq && negb (is_some (_history_trace rq (px_module rq))) then before_attempt rq
         else
           let* attempts := _reserve_history_send (history_pilot_get_budget_sellers settings) rq full_path in
           match attempts with
           | Some n => ext (GSet "history_upstream_attempts" (VInt n))
           | None => Ret tt
           end) in
    send_single_attempt gup upstream_request
  else
    send_with_retry gup (500 * millisecond) 2 250 (30 * second)
      (if pilot_get rq then Some (before_attempt rq) else None) 3 upstream_request.

Definition _forward_to_meli (rq : proxied) (query : list (string * string)) (full_path access_token : string) :
    gateway response :=
  let* content := ext GBody in
  let headers := _upstream_headers (px_headers rq) access_token in
  if pilot_get rq && negb (is_some (_history_trace rq (px_module rq)))
  then Raise (budget_wait "pilot_execution_unavailable")
  else
    let* upstream_request := of_result (build_request (px_method rq) (upstream_url full_path) content query headers) in
    send_upstream rq full_path upstream_request.

(** How the exceptions of the upstream call are answered. *)
Definition answer_failure (rq : proxied) (seller : Z) (path : string) (started : Z) (exc : exn) : gateway reply :=
  let duration := let* now := ext GPerf in Ret (Z.quot (now - started) millisecond) in
  if isinstance exc "PilotGetBudgetWaitError" then
    let* duration_ms := duration in
    do* _write_audit_log rq seller path (-1) duration_ms (Some 429) in
    let* attempts := ext (GGet "pilot_upstream_attempts") in
    Ret (_json_error 429 (exn_msg exc) None
      [("Retry-After", "5"); ("X-Zeler-Pilot-Get-Budget-Status", "wait");
       ("X-Zeler-Upstream-Attempts", str_of_Z (int_or 0 attempts))]%string)
  else if isinstance exc "HistoryPolicyRejectedError" then
    let* duration_ms := duration in
    do* _write_audit_log rq seller path (-1) duration_ms (Some 412) in
    Ret (_json_error 412 "history_policy_wait" None
      [("X-Zeler-Upstream-Attempts", "0"); ("X-Zeler-History-Policy-Status", "wait")]%string)
  else if isinstance exc "RequestError" then
    let* attempts := ext (GGet "history_upstream_attempts") in
    do* (if int_or 0 attempts =? 1 then
           let* duration_ms := duration in _write_audit_log rq seller path 0 duration_ms (Some 500)
         else Ret tt) in
    Raise exc
  else Raise exc.

(** The authorised part: charge the rate limit, open the token, call. *)
Definition forward (request : http_request) (full_path : string) (claims : ModuleClaims) (account : doc) (started : Z) :
    gateway reply :=
  let path := ("/" ++ full_path)%string in
  let seller := seller_id claims in
  let* admitted := attempt (check_and_increment (gateway_proxy_rate_limit settings) RATE_LIMIT_WINDOW_SECONDS
                              (module_id claims) seller) in
  match admitted with
  | Err exc =>
      if isinstance exc "RateLimitExceeded" then
        Ret (_json_error 429 "rate_limit_exceeded" None
          [("Retry-After", str_of_Z (match exn_args exc with [VInt us] => Z.quot us second | _ => 0 end))]%string)
      else Raise exc
  | Ok _ =>
      let* token := of_result (stored_access_token account) in
      let* access_token := decrypt_token gvault token (str_of_Z seller) in
      let rq := {| px_method := hr_method request; px_headers := hr_headers request;
                   px_module := module_id claims; px_seller := str_of_Z seller |} in
      let* sent := attempt (_forward_to_meli rq (hr_query request) full_path access_token) in
      match sent with
      | Err exc => answer_failure rq seller path started exc
      | Ok upstream_response =>
          let* now := ext GPerf in
          do* _write_audit_log rq seller path (rs_status upstream_response) (Z.quot (now - started) millisecond) None in
          Ret (Reply (rs_status upstream_response) (RawBody (rs_content upstream_response))
                 (_response_headers upstream_response) (httpx_get (rs_headers upstream_response) "content-type"))
      end
  end.

(** The account of the seller, once it is active. *)
Definition active_account (seller : Z) : gateway (doc + reply) :=
  let refuse := inr (_json_error 412 "account_not_active" None []) in
  let* account := mongo (MFindOne "meli_accounts" (FEq ["seller_id"%string] (VInt seller)) []) in
  match account with
  | None => Ret refuse
  | Some account =>
      let settled account :=
        Ret (if py_eq (doc_get account "status") (VStr "active") then inl account else refuse) in
      if py_eq (doc_get account "status") (VStr "paused") then
        Ret (inr (Reply 423 (JsonBody [("code", "seller_paused")]%string) [] (Some "application/json"%string)))
      else if py_eq (doc_get account "status") (VStr "refresh_pending") then
        let* held := _lock_is_held (doc_get account "lock_held_until") in
        if held then
          let* refreshed := _wait_for_active_account seller in
          match refreshed with
          | None =>
              Ret (inr (_json_error 503 "token_refresh_timeout" None
                [("Retry-After", str_of_Z REFRESH_RETRY_AFTER_SECONDS)]%string))
          | Some account => settled account
          end
        else settled account
      else settled account
  end.

Definition proxy_meli (request : http_request) (full_path : string) : gateway reply :=
  let* started := ext GPerf in
  match bearer (hr_headers request) with
  | None => Ret (_json_error 401 "invalid_token" (Some "missing bearer token"%string) [])
  | Some token =>
      let* verified := attempt (verify_module_jwt gjwt token) in
      match verified with
      | Err exc =>
          if isinstance exc "InvalidJWTError" then Ret (_json_error 401 "invalid_token" (Some (exn_msg exc)) [])
          else Raise exc
      | Ok claims =>
          let* found := mongo (MFindOne "module_registry" (FEq ["_id"%string] (VStr (module_id claims))) []) in
          match found with
          | None => Ret (_json_error 401 "unknown_module" None [])
          | Some registered =>
              if negb (py_eq (doc_get registered "status") (VStr "enabled")) then
                Ret (Reply 412 (JsonBody [("code", "module_disabled");
                                          ("detail", ("module " ++ module_id claims ++ " is disabled")%string)]%string)
                       [] (Some "application/json"%string))
              else
                let* in_scope := of_result (_scope_matches (hr_method request) ("/" ++ full_path)
                                              (doc_get_or registered "allowed_meli_scopes" (VList []))) in
                if negb in_scope then Ret (_json_error 403 "out_of_scope" None [])
                else
                  let* account := active_account (seller_id claims) in
                  match account with
                  | inr refusal => Ret refusal
                  | inl account => forward request full_path claims account started
                  end
          end
      end
  end.
End Proxy.
