(* ===== verification/ProxyProofs.v ===== *)
(** What the proxy guarantees about every request it sends upstream, whatever
    its collaborators answer: the statements quantify over all histories. *)

From S2P Require Export Proxy Jwt.

#[local] Open Scope Z_scope.

Section Proofs.
Context `{Crypto : JwtCrypto} `{Aes : Aead} `{Dates : ParseDate} `{Builder : BuildRequest} `{Repr : PyRepr}.
Variable settings : gateway_settings.

(** ** The calls of interest *)

(** A request put on the wire. *)
Definition upstream_send {X : Type} (o : op gateway_call X) : option request :=
  match o with
  | OExt e => match e with GUp c => match c with USend rq => Some rq | _ => None end | _ => None end
  | _ => None
  end.
(** An audit record, by the status it notes. *)
Definition audit_status {X : Type} (o : op gateway_call X) : option Z :=
  match o with
  | OMongo m => match m with
                | MInsertOne c d => if String.eqb c "audit_log" then Some (int_or 0 (d !! "status"%string)) else None
                | _ => None
                end
  | _ => None
  end.
(** A charge of execution credit. *)
Definition charges (u : upd) : bool := match u with UInc p _ => bool_decide (p = ["execution_consumed"%string]) | _ => false end.
Definition credit_charge {X : Type} (o : op gateway_call X) : option unit :=
  match o with
  | OMongo m =>
      match m with
      | MFindOneAndUpdate _ _ u _ _ | MUpdateOne _ _ u _ | MUpdateMany _ _ u =>
          match u with UOps us => if existsb charges us then Some tt else None | _ => None end
      | _ => None
      end
  | _ => None
  end.

(** ** Programs that do none of it *)

Section Silent.
Context {V : Type} (f : forall X, op gateway_call X -> option V).
(** No call of the token library, the vault, the clock, a sleep or a read. *)
Definition aside : Prop :=
  (forall X (c : jwt_call X), f _ (OExt (GJwt c)) = None) /\ (forall X (c : vault_call X), f _ (OExt (GVault c)) = None) /\
  f _ ONow = None /\ (forall us, f _ (OSleep us) = None) /\ (forall c q s, f _ (OMongo (MFindOne c q s)) = None).
Hypothesis f_aside : aside.

Ltac quiet :=
  destruct f_aside as (Hjwt & Hvault & Hnow & Hsleep & Hfind);
  repeat lazymatch goal with
  | |- silent _ (bind _ _) => apply silent_bind; [|intros ?]
  | |- silent _ (of_result _) => apply silent_of_result
  | |- silent _ (ext _) => apply silent_perform; auto
  | |- silent _ now_utc => apply silent_perform; auto
  | |- silent _ (sleep _) => apply silent_perform; auto
  | |- silent _ (mongo _) => apply silent_perform; auto
  | |- silent _ (Ret _) => exact I
  | |- silent _ (Raise _) => exact I
  | |- silent _ (match ?x with _ => _ end) => destruct x
  end.

Lemma silent_verify token : silent f (verify_module_jwt gjwt token).
Proof using f_aside. unfold verify_module_jwt, _verify_es256_jwt, _verify_signature, _public_key, unix_time. quiet. Qed.
Lemma silent_decrypt t a : silent f (decrypt_token gvault t a).
Proof using f_aside. unfold decrypt_token. quiet. Qed.
Lemma silent_lock v : silent f (_lock_is_held v).
Proof using f_aside. unfold _lock_is_held. quiet. Qed.
Lemma silent_wait fuel seller deadline : silent f (wait_loop fuel seller deadline).
Proof using f_aside.
  induction fuel as [|fuel IH]; [done|]. cbn [wait_loop].
  pose proof silent_lock as Hlock. quiet; auto.
Qed.
Lemma silent_account seller : silent f (active_account seller).
Proof using f_aside.
  unfold active_account, _wait_for_active_account. pose proof silent_lock as Hlock. pose proof silent_wait as Hwait.
  quiet; auto.
Qed.
End Silent.

Lemma send_aside : aside (@upstream_send).
Proof using Type. done. Qed.
Lemma audit_aside : aside (@audit_status).
Proof using Type. done. Qed.
Lemma credit_aside : aside (@credit_charge).
Proof using Type. done. Qed.
#[local] Hint Resolve silent_verify silent_decrypt silent_lock silent_wait silent_account send_aside audit_aside credit_aside : silent.

Lemma send_silent_rate limit window m s : silent (@upstream_send) (check_and_increment limit window m s).
Proof using Type. unfold check_and_increment. silence. Qed.
Lemma audit_silent_rate limit window m s : silent (@audit_status) (check_and_increment limit window m s).
Proof using Type. unfold check_and_increment. silence. Qed.
Lemma credit_silent_rate limit window m s : silent (@credit_charge) (check_and_increment limit window m s).
Proof using Type. unfold check_and_increment. silence. Qed.

Lemma send_silent_reserve pilots rq path : silent (@upstream_send) (_reserve_history_send pilots rq path).
Proof using Type.
  unfold _reserve_history_send, reserve_history_work_send, transaction, spend_work,
    validate_history_work_receipt, check_claim, check_job, touch_fence. silence.
Qed.
Lemma audit_silent_reserve pilots rq path : silent (@audit_status) (_reserve_history_send pilots rq path).
Proof using Type.
  unfold _reserve_history_send, reserve_history_work_send, transaction, spend_work,
    validate_history_work_receipt, check_claim, check_job, touch_fence. silence.
Qed.
Lemma credit_silent_reserve pilots rq path : silent (@credit_charge) (_reserve_history_send pilots rq path).
Proof using Type.
  unfold _reserve_history_send, reserve_history_work_send, transaction, spend_work,
    validate_history_work_receipt, check_claim, check_job, touch_fence. silence.
Qed.
Lemma send_silent_pilot rq : silent (@upstream_send) (before_attempt rq).
Proof using Type. unfold before_attempt, _reserve_pilot_get_send. silence. Qed.
Lemma audit_silent_pilot rq : silent (@audit_status) (before_attempt rq).
Proof using Type. unfold before_attempt, _reserve_pilot_get_send. silence. Qed.
Lemma send_silent_audit rq seller path st d rst : silent (@upstream_send) (_write_audit_log rq seller path st d rst).
Proof using Type. unfold _write_audit_log. silence. Qed.
Lemma credit_silent_audit rq seller path st d rst : silent (@credit_charge) (_write_audit_log rq seller path st d rst).
Proof using Type. unfold _write_audit_log. silence. Qed.
#[local] Hint Resolve send_silent_rate audit_silent_rate credit_silent_rate send_silent_reserve audit_silent_reserve
  credit_silent_reserve send_silent_pilot audit_silent_pilot send_silent_audit credit_silent_audit : silent.

(** ** What precedes a send *)

Abbreviation find_account seller := (MFindOne "meli_accounts" (FEq ["seller_id"%string] (VInt seller)) []).

Lemma waited_account fuel seller deadline h account :
  runs (wait_loop fuel seller deadline) h (Ok (Some account)) ->
  py_eq (doc_get account "status") (VStr "active") = true /\ In (Call (OMongo (find_account seller)) (Ok (Some account))) h.
Proof using Type.
  revert h. induction fuel as [|fuel IH]; intros h Hr; cbn [wait_loop] in Hr; [by runs_inv|].
  apply runs_bind in Hr as (h1 & h2 & [now|e] & -> & _ & Hr); [|by runs_inv]. destruct (now <? deadline); [|by runs_inv].
  apply runs_bind in Hr as (h3 & h4 & [u|e] & -> & _ & Hr); [|by runs_inv].
  apply runs_bind in Hr as (h5 & h6 & [[found|]|e] & -> & Hf & Hr); [|by runs_inv..]. apply runs_perform in Hf as ->.
  assert (Hrest : forall h', runs (wait_loop fuel seller deadline) h' (Ok (Some account)) ->
    py_eq (doc_get account "status") (VStr "active") = true /\
    forall pre, In (Call (OMongo (find_account seller)) (Ok (Some account))) (pre ++ h')).
  { intros h' [Ha Hin]%IH. split; [done|]. intros pre. by apply in_or_app; right. }
  destruct (py_eq (doc_get found "status") (VStr "active")) eqn:Hact.
  - apply runs_bind in Hr as (h7 & h8 & [held|e] & -> & _ & Hr); [|by runs_inv]. destruct (negb held).
    + destruct Hr as [-> [= <-]]. split; [done|]. rewrite !in_app_iff. simpl. auto.
    + apply Hrest in Hr as [Ha Hin]. split; [done|]. rewrite !app_assoc. apply Hin.
  - apply Hrest in Hr as [Ha Hin]. split; [done|]. rewrite !app_assoc. apply Hin.
Qed.

Lemma account_is_active seller h account :
  runs (active_account seller) h (Ok (inl account)) ->
  doc_get account "status" = VStr "active" /\ In (Call (OMongo (find_account seller)) (Ok (Some account))) h.
Proof using Type.
  intros Hr. rewrite <- py_eq_str. unfold active_account in Hr.
  apply runs_bind in Hr as (h1 & h2 & [[found|]|e] & -> & Hf & Hr); [|by runs_inv..]. apply runs_perform in Hf as ->.
  assert (Hsettle : forall a pre h', runs (E := gateway_call)
      (Ret (if py_eq (doc_get a "status") (VStr "active") then inl a else inr (_json_error 412 "account_not_active" None []))) h'
      (Ok (inl account)) -> In (Call (OMongo (find_account seller)) (Ok (Some a))) pre ->
    py_eq (doc_get account "status") (VStr "active") = true /\ In (Call (OMongo (find_account seller)) (Ok (Some account))) (pre ++ h')).
  { intros a pre h' [-> Hx] Hin. destruct (py_eq (doc_get a "status") (VStr "active")) eqn:Ha; [|done].
    injection Hx as ->. by rewrite app_nil_r. }
  destruct (py_eq (doc_get found "status") (VStr "paused")); [by runs_inv|].
  destruct (py_eq (doc_get found "status") (VStr "refresh_pending")); [|apply (Hsettle found); [done|by left]].
  apply runs_bind in Hr as (h3 & h4 & [held|e] & -> & _ & Hr); [|by runs_inv].
  rewrite app_assoc. destruct held; [|apply (Hsettle found); [done|by left]].
  apply runs_bind in Hr as (h5 & h6 & [[again|]|e] & -> & Hw & Hr); [|by runs_inv..].
  apply runs_bind in Hw as (h7 & h8 & [now|e] & -> & _ & Hw); [|by runs_inv]. apply waited_account in Hw as [Ha Hin].
  rewrite !app_assoc. apply (Hsettle again); [done|]. rewrite !in_app_iff. auto.
Qed.
(** The loop of attempts sends its one request. *)
Lemma loop_sends guard_ todo k attempts waited last_error rq h v :
  (forall p, guard_ = Some p -> silent (@upstream_send) p) ->
  reaches (@upstream_send) (send_loop gup (500 * millisecond) 2 250 (30 * second) guard_ todo k attempts waited last_error rq) h v ->
  v = rq.
Proof using Type.
  intros Hg. revert k waited last_error h. induction todo as [|todo IH]; intros k waited last_error h Hr.
  { by destruct last_error. }
  cbn [send_loop] in Hr. apply reaches_silent_bind in Hr as (h1 & h2 & a & -> & _ & Hr);
    [|destruct guard_; [by apply Hg|done]].
  apply reaches_bind in Hr as [Hr|(h3 & h4 & sent & -> & _ & Hr)].
  { apply reaches_attempt, reaches_perform in Hr as [_ [= <-]]. by destruct rq. }
  assert (Hnext : forall s le waited', reaches (@upstream_send) (do* sleep_fn gup s in
      send_loop gup (500 * millisecond) 2 250 (30 * second) guard_ todo (k + 1) attempts waited' le rq) h4 v -> v = rq).
  { intros s le waited' (h5 & h6 & u & -> & _ & Hr')%reaches_silent_bind; [by apply IH in Hr'|]. unfold sleep_fn. silence. }
  destruct sent as [resp|exc].
  - destruct (negb _); [done|]. destruct (attempts <=? k); [done|].
    apply reaches_silent_bind in Hr as (h5 & h6 & s & -> & _ & Hr);
      [|unfold _retry_sleep_s, _parse_retry_after, _backoff_sleep_s; silence].
    destruct (_ && _); [done|]. apply reaches_silent_bind in Hr as (h7 & h8 & u & -> & _ & Hr); [by apply IH in Hr|].
    unfold sleep_fn. silence.
  - destruct (retryable_exception exc); [|done]. destruct (attempts <=? k); [done|].
    apply reaches_silent_bind in Hr as (h5 & h6 & s & -> & _ & Hr); [|unfold _backoff_sleep_s; silence].
    apply reaches_silent_bind in Hr as (h7 & h8 & u & -> & _ & Hr); [by apply IH in Hr|]. unfold sleep_fn. silence.
Qed.

Lemma trace_no_retry rq m t : _history_trace rq m = Some t -> no_retry rq = true.
Proof using Type. unfold _history_trace, no_retry. destruct (bool_decide _); [done|]. by rewrite andb_false_r. Qed.

Lemma reserved_once pilots rq path h o : runs (_reserve_history_send (E := gateway_call) pilots rq path) h (Ok o) ->
  is_some (_history_trace rq (px_module rq)) = true -> o = Some 1.
Proof using Type.
  unfold _reserve_history_send. destruct (_history_trace rq (px_module rq)) as [[[ex src] ph]|]; [|done]. intros Hr _.
  destruct (negb _ && _); [by runs_inv|]. destruct (header_get _ _) as [work|].
  - destruct (_ || _); [by runs_inv|].
    do 3 (apply runs_bind in Hr as (? & ? & [?|?] & -> & _ & Hr); [|by runs_inv]). destruct (negb _); [by runs_inv|].
    by destruct Hr as [_ [= <-]].
  - do 2 (apply runs_bind in Hr as (? & ? & [?|?] & -> & _ & Hr); [|by runs_inv]).
    destruct a0; [|by runs_inv]. apply runs_bind in Hr as (? & ? & [?|?] & -> & _ & Hr); [|by runs_inv].
    destruct (negb _); [by runs_inv|]. by destruct Hr as [_ [= <-]].
Qed.

(** A traced request leaves right after one reservation of its own. *)
Definition prepaid (rq : proxied) (full_path : string) (h : history gateway_call) : Prop :=
  exists hres r, h = hres ++ [Call (OExt (GSet "history_upstream_attempts" (VInt 1))) r] /\
    runs (_reserve_history_send (history_pilot_get_budget_sellers settings) rq full_path) hres (Ok (Some 1)).

Lemma send_is_prepaid rq full_path ureq h v :
  (pilot_get settings rq = true -> is_some (_history_trace rq (px_module rq)) = true) ->
  reaches (@upstream_send) (send_upstream settings rq full_path ureq) h v ->
  v = ureq /\ (is_some (_history_trace rq (px_module rq)) = true -> prepaid rq full_path h).
Proof using Type.
  intros Hpilot Hr. unfold send_upstream in Hr. destruct (no_retry rq) eqn:Hno.
  - assert (Hdead : pilot_get settings rq && negb (is_some (_history_trace rq (px_module rq))) = false).
    { destruct (pilot_get settings rq); [by rewrite Hpilot|done]. }
    rewrite Hdead in Hr. apply reaches_silent_bind in Hr as (h1 & h2 & u & -> & Hres & Hr); [|silence].
    apply reaches_bind in Hr as [Hr|(h3 & h4 & a & -> & _ & [])].
    apply reaches_perform in Hr as [-> [= <-]]. split; [done|]. intros Ht.
    apply runs_bind in Hres as (h3 & h4 & [o|e] & -> & Hres & Hset); [|by destruct Hset].
    pose proof (reserved_once _ _ _ _ _ Hres Ht) as ->. apply runs_perform in Hset as ->.
    exists h3. eexists. rewrite app_nil_r. split; [done|exact Hres].
  - unfold send_with_retry in Hr. apply loop_sends in Hr as ->.
    + split; [done|]. intros Ht. destruct (_history_trace rq (px_module rq)) as [t|] eqn:Htr; [|done].
      by rewrite (trace_no_retry _ _ _ Htr) in Hno.
    + intros p. destruct (pilot_get settings rq); [|done]. intros [= <-]. silence.
Qed.
(** ** The theorem *)

(** The request as the reservations see it. *)
Definition caller (request : http_request) (claims : ModuleClaims) : proxied :=
  {| px_method := hr_method request; px_headers := hr_headers request;
     px_module := module_id claims; px_seller := str_of_Z (seller_id claims) |}.

(** What was verified, read, charged and opened, in this order, before the
    request [urq] left. *)
Definition authorised (request : http_request) (full_path : string) (h : history gateway_call) (urq : Retry.request) : Prop :=
  exists token claims registered account sealed_token access content started body_read hv hm ha hr hd hs,
    h = (started :: hv ++ hm :: ha ++ hr ++ hd ++ body_read :: hs)%list /\
    bearer (hr_headers request) = Some token /\ runs (verify_module_jwt gjwt token) hv (Ok claims) /\
    hm = Call (OMongo (MFindOne "module_registry" (FEq ["_id"%string] (VStr (module_id claims))) [])) (Ok (Some registered)) /\
    doc_get registered "status" = VStr "enabled" /\
    _scope_matches (hr_method request) ("/" ++ full_path) (doc_get_or registered "allowed_meli_scopes" (VList [])) = Ok true /\
    In (Call (OMongo (find_account (seller_id claims))) (Ok (Some account))) ha /\ doc_get account "status" = VStr "active" /\
    runs (check_and_increment (gateway_proxy_rate_limit settings) RATE_LIMIT_WINDOW_SECONDS (module_id claims) (seller_id claims))
      hr (Ok tt) /\
    stored_access_token account = Ok sealed_token /\
    runs (decrypt_token gvault sealed_token (str_of_Z (seller_id claims))) hd (Ok access) /\
    build_request (hr_method request) (upstream_url settings full_path) content (hr_query request)
      (_upstream_headers (hr_headers request) access) = Ok urq /\
    (pilot_get settings (caller request claims) = true -> is_some (_history_trace (caller request claims) (module_id claims)) = true) /\
    (is_some (_history_trace (caller request claims) (module_id claims)) = true -> prepaid (caller request claims) full_path hs).

(** C14: no request goes upstream unauthorised.  Whatever the collaborators
    answer, before every request the proxy puts on the wire it has verified the
    bearer token, found the token's module enabled and the path in its scopes,
    read the seller's account active, passed the rate limit and opened the
    account's own token; the request is the one built from the caller's method,
    path, query and filtered headers; and a historical request leaves only
    right after a reservation of its own, one per request. *)
Theorem every_send_is_authorised request full_path h urq :
  reaches (@upstream_send) (proxy_meli settings request full_path) h urq -> authorised request full_path h urq.
Proof using Type.
  intros Hr. unfold proxy_meli in Hr. apply reaches_silent_bind in Hr as (hz0 & h1 & started & -> & Hs0 & Hr); [|silence].
  apply runs_perform in Hs0 as ->. destruct (bearer _) as [token|] eqn:Hb; [|done].
  apply reaches_silent_bind in Hr as (hv & h2 & verified & -> & Hv & Hr); [|silence].
  apply runs_attempt in Hv as (rv & Hv & [= ->]). destruct rv as [claims|exc]; [|by destruct (isinstance _ _)].
  apply reaches_silent_bind in Hr as (hm & h3 & found & -> & Hm & Hr); [|silence]. apply runs_perform in Hm as ->.
  destruct found as [registered|]; [|done]. destruct (py_eq _ (VStr "enabled")) eqn:Hen; [|done]. apply py_eq_str in Hen.
  apply reaches_silent_bind in Hr as (hz & h4 & in_scope & -> & Hsc & Hr); [|silence].
  apply runs_of_result in Hsc as [-> Hsc]. destruct in_scope; [|done].
  apply reaches_silent_bind in Hr as (ha & h5 & acct & -> & Ha & Hr); [|silence].
  destruct acct as [account|refusal]; [|done]. apply account_is_active in Ha as [Hact Hin]. unfold forward in Hr.
  apply reaches_silent_bind in Hr as (hr & h6 & admitted & -> & Hrate & Hr); [|silence].
  apply runs_attempt in Hrate as (rr & Hrate & [= ->]). destruct rr as [[]|exc]; [|by destruct (isinstance _ _)].
  apply reaches_silent_bind in Hr as (hz & h7 & sealed_token & -> & Hst & Hr); [|silence].
  apply runs_of_result in Hst as [-> Hst].
  apply reaches_silent_bind in Hr as (hd & h8 & access & -> & Hd & Hr); [|silence]. fold (caller request claims) in Hr.
  apply reaches_bind in Hr as [Hr|(h9 & h10 & sent & -> & _ & Hr)].
  2: { exfalso. revert Hr. apply silent_never. destruct sent; [silence|]. unfold answer_failure. silence. }
  rewrite reaches_attempt in Hr. unfold _forward_to_meli in Hr.
  apply reaches_silent_bind in Hr as (hb & h9 & content & -> & Hc & Hr); [|silence]. apply runs_perform in Hc as ->.
  destruct (pilot_get _ _ && _) eqn:Hpilot; [done|].
  apply reaches_silent_bind in Hr as (hz & hs & ureq & -> & Hbuild & Hr); [|silence].
  apply runs_of_result in Hbuild as [-> Hbuild].
  assert (Hp : pilot_get settings (caller request claims) = true ->
    is_some (_history_trace (caller request claims) (module_id claims)) = true).
  { intros Hg. rewrite Hg in Hpilot. by apply negb_false_iff in Hpilot. }
  apply send_is_prepaid in Hr as [-> Hpre]; [|exact Hp].
  exists token, claims, registered, account, sealed_token, access, content. do 2 eexists. exists hv. eexists. exists ha, hr, hd, hs.
  simpl. split; [done|]. repeat (split; [done|]). done.
Qed.
(** ** The audit *)

(** The clock answers. *)
Definition clock_ok (c : call gateway_call) : Prop :=
  match c with
  | Call o r => match o in op _ X return result X -> Prop with ONow => fun r => exists t, r = Ok t | _ => fun _ => True end r
  end.

Lemma silent_loop {V} (f : forall X, op gateway_call X -> option V) guard_ todo k attempts waited last_error rq :
  (forall X (c : upstream X), f _ (OExt (GUp c)) = None) -> f _ ONow = None ->
  (forall p, guard_ = Some p -> silent f p) ->
  silent f (send_loop gup (500 * millisecond) 2 250 (30 * second) guard_ todo k attempts waited last_error rq).
Proof using Type.
  intros Hup Hnow Hg. assert (Hext : forall X (c : upstream X), silent f (ext (gup X c))) by (intros; apply silent_perform, Hup).
  assert (Hclock : silent f now_utc) by (by apply silent_perform). revert k waited last_error.
  induction todo as [|todo IH]; intros k waited last_error; cbn [send_loop]; [silence|].
  unfold send, sleep_fn, _retry_sleep_s, _parse_retry_after, _backoff_sleep_s.
  repeat lazymatch goal with
  | |- silent _ (bind _ _) => apply silent_bind; [|intros ?]
  | |- silent _ (attempt _) => apply silent_attempt
  | |- silent _ (Ret _) => exact I
  | |- silent _ (Raise _) => exact I
  | |- silent _ (match ?x with _ => _ end) => destruct x eqn:?
  end; auto.
Qed.
Lemma audit_silent_forward rq query full_path token : silent (@audit_status) (_forward_to_meli settings rq query full_path token).
Proof using Type.
  unfold _forward_to_meli, send_upstream, send_single_attempt, send_with_retry, send. silence. apply silent_loop; [done..|].
  intros p. destruct (pilot_get settings rq); [|done]. intros [= <-]. silence.
Qed.

Lemma loop_send_count guard_ todo k attempts waited last_error rq h x :
  (forall p, guard_ = Some p -> silent (@upstream_send) p) ->
  runs (send_loop gup (500 * millisecond) 2 250 (30 * second) guard_ todo k attempts waited last_error rq) h x ->
  (length (made (@upstream_send) h) <= todo)%nat.
Proof using Type.
  intros Hg. revert k waited last_error h. induction todo as [|todo IH]; intros k waited last_error h Hr.
  { cbn [send_loop] in Hr. by destruct last_error, Hr as [-> _]. }
  cbn [send_loop] in Hr. apply runs_bind in Hr as (h1 & h2 & [[]|e] & -> & H1 & Hr);
    (apply (silent_made (@upstream_send)) in H1; [|destruct guard_; [by apply Hg|done]]); rewrite made_app, H1.
  2: { destruct Hr as [-> _]. simpl. lia. }
  apply runs_bind in Hr as (h3 & h4 & sent & -> & H3 & Hr). apply runs_attempt in H3 as (r3 & H3 & ->).
  apply runs_perform in H3 as ->. rewrite made_app, length_app. change (length (made (@upstream_send) [_])) with 1%nat.
  assert (Hnext : forall h w le s p, runs (do* sleep_fn gup s in p) h x ->
      (forall h', runs p h' x -> runs (send_loop gup (500 * millisecond) 2 250 (30 * second) guard_ todo (k + 1) attempts w le rq) h' x) ->
      (length (made (@upstream_send) h) <= todo)%nat).
  { intros h w le s p Hrun Hp. apply runs_bind in Hrun as (h5 & h6 & r & -> & H5 & Hrun). unfold sleep_fn in H5. apply runs_perform in H5 as ->.
    rewrite made_app. simpl. destruct r; [by eapply IH, Hp|]. destruct Hrun as [-> _]. simpl. lia. }
  assert (Hpause : forall (q : prog gateway_call Z) (k' : Z -> prog gateway_call Retry.response), silent (@upstream_send) q ->
      runs (bind q k') h4 x -> (forall s h', runs (k' s) h' x -> (length (made (@upstream_send) h') <= todo)%nat) ->
      (length (made (@upstream_send) h4) <= todo)%nat).
  { intros q k' Hq Hrun Hk. apply runs_bind in Hrun as (h5 & h6 & r & -> & H5 & Hrun).
    apply (silent_made (@upstream_send)) in H5; [|done]. rewrite made_app, H5. destruct r; [by eapply Hk|].
    destruct Hrun as [-> _]. simpl. lia. }
  assert (Hlen : (length (made (@upstream_send) h4) <= todo)%nat); [|simpl; lia].
  destruct r3 as [resp|exc].
  - destruct (negb _); [destruct Hr as [-> _]; simpl; lia|]. destruct (attempts <=? k); [destruct Hr as [-> _]; simpl; lia|].
    eapply Hpause; [|exact Hr|]; [unfold _retry_sleep_s, _parse_retry_after, _backoff_sleep_s; silence|].
    intros s h' Hr'. cbv beta in Hr'. destruct (_ && _) in Hr'; [destruct Hr' as [-> _]; simpl; lia|]. eapply Hnext; [exact Hr'|]. intros h'' Hx. exact Hx.
  - destruct (retryable_exception exc); [|destruct Hr as [-> _]; simpl; lia]. destruct (attempts <=? k); [destruct Hr as [-> _]; simpl; lia|].
    eapply Hpause; [|exact Hr|]; [unfold _backoff_sleep_s; silence|].
    intros s h' Hr'. eapply Hnext; [exact Hr'|]. intros h'' Hx. exact Hx.
Qed.
Lemma forward_send_count rq query full_path token h x :
  runs (_forward_to_meli settings rq query full_path token) h x ->
  (length (made (@upstream_send) h) <= if no_retry rq then 1 else 3)%nat.
Proof using Type.
  intros Hr. unfold _forward_to_meli in Hr. apply runs_bind in Hr as (h1 & h2 & r & -> & Hc & Hr). apply runs_perform in Hc as ->.
  rewrite made_app. simpl. destruct r as [content|e]; [|destruct Hr as [-> _]; simpl; lia].
  destruct (_ && _) in Hr; [destruct Hr as [-> _]; simpl; lia|].
  apply runs_bind in Hr as (h3 & h4 & r & -> & Hb & Hr). apply runs_of_result in Hb as [-> ->].
  destruct (build_request _ _ _ _ _) as [ureq|e]; [|destruct Hr as [-> _]; simpl; lia]. simpl. unfold send_upstream in Hr.
  destruct (no_retry rq).
  - apply runs_bind in Hr as (h5 & h6 & r & -> & Hres & Hr). apply (silent_made (@upstream_send)) in Hres; [|silence].
    rewrite made_app, Hres. destruct r as [[]|e]; [|destruct Hr as [-> _]; simpl; lia].
    apply runs_bind in Hr as (h7 & h8 & r & -> & Hs & Hr). apply runs_perform in Hs as ->. rewrite made_app.
    assert (h8 = []) as -> by (destruct r; by destruct Hr as [-> _]). simpl. lia.
  - eapply loop_send_count, Hr. intros p. destruct (pilot_get settings rq); [|done]. intros [= <-]. silence.
Qed.

Lemma audit_written rq seller path st d rst h x :
  Forall clock_ok h -> runs (_write_audit_log rq seller path st d rst) h x -> made (@audit_status) h = [default st rst].
Proof using Type.
  intros Hclock Hr. unfold _write_audit_log in Hr. apply runs_catch in Hr as (h1 & h2 & r & -> & H1 & Hr).
  assert (h2 = []) as -> by (destruct r; [|destruct (isinstance _ _) in Hr]; by destruct Hr).
  rewrite app_nil_r in *. apply runs_bind in H1 as (h3 & h4 & r3 & -> & H3 & H1). apply runs_perform in H3 as ->.
  cbn [app] in Hclock. apply Forall_cons in Hclock as [[t ->] _]. apply runs_perform in H1 as ->. unfold made. simpl.
  destruct (_history_trace rq (px_module rq)); unfold mk_doc; cbn [foldl fst snd app]; doc_simp; done.
Qed.

(** The first steps of a run make no call of interest. *)
Definition unseen (h : history gateway_call) : Prop := made (@upstream_send) h = [] /\ made (@audit_status) h = [].

Lemma failure_audited rq seller path started exc h answer :
  Forall clock_ok h -> runs (answer_failure rq seller path started exc) h (Ok answer) ->
  made (@upstream_send) h = [] /\ made (@audit_status) h = [rp_status answer].
Proof using Type.
  intros Hclock Hr. split.
  { eapply (silent_made (@upstream_send)); [|exact Hr]. unfold answer_failure. silence. }
  assert (Htail : forall st code p, rp_status answer = code ->
      Forall clock_ok h -> runs (let* duration_ms := let* now := ext GPerf in Ret (Z.quot (now - started) millisecond) in
         do* _write_audit_log rq seller path st duration_ms (Some code) in p) h (Ok answer) ->
      silent (@audit_status) p -> made (@audit_status) h = [rp_status answer]).
  { clear Hr. intros st code p Hcode Hcl Hr Hp. apply runs_bind in Hr as (h1 & h2 & r1 & -> & Hd & Hr).
    apply (silent_made (@audit_status)) in Hd; [|silence]. destruct r1 as [d|e]; [|by destruct Hr].
    apply runs_bind in Hr as (h3 & h4 & r2 & -> & Ha & Hr). apply Forall_app in Hcl as [_ Hcl]. apply Forall_app in Hcl as [Hcl _].
    apply audit_written in Ha; [|done]. destruct r2 as [u|e]; [|by destruct Hr]. apply (silent_made (@audit_status)) in Hr; [|done].
    by rewrite !made_app, Hd, Ha, Hr, Hcode. }
  unfold answer_failure in Hr. cbv zeta in Hr. destruct (isinstance exc "PilotGetBudgetWaitError").
  { assert (Hst : rp_status answer = 429); [|eapply Htail; [exact Hst|done|exact Hr|silence]].
    do 3 (apply runs_bind in Hr as (? & ? & [?|?] & -> & _ & Hr); [|by destruct Hr]). by destruct Hr as [_ [= ->]]. }
  destruct (isinstance exc "HistoryPolicyRejectedError").
  { assert (Hst : rp_status answer = 412); [|eapply Htail; [exact Hst|done|exact Hr|silence]].
    do 2 (apply runs_bind in Hr as (? & ? & [?|?] & -> & _ & Hr); [|by destruct Hr]). by destruct Hr as [_ [= ->]]. }
  destruct (isinstance exc "RequestError"); [|by destruct Hr].
  do 2 (apply runs_bind in Hr as (? & ? & [?|?] & -> & _ & Hr); [|by destruct Hr]). by destruct Hr.
Qed.

(** A reply and the calls behind it. *)
Definition on_record (limit : nat) (h : history gateway_call) (answer : reply) : Prop :=
  made (@audit_status) h = [rp_status answer] /\ (length (made (@upstream_send) h) <= limit)%nat.

Lemma accounted_app limit h1 h2 answer :
  unseen h1 -> unseen h2 \/ on_record limit h2 answer -> unseen (h1 ++ h2) \/ on_record limit (h1 ++ h2) answer.
Proof using Type.
  intros [Hs Ha] [[Hs' Ha']|[Ha' Hn]]; [left|right]; split; rewrite made_app.
  - by rewrite Hs.
  - by rewrite Ha.
  - by rewrite Ha.
  - by rewrite Hs.
Qed.

(** A step that makes no call of interest can be left out of the account. *)
Lemma accounted_bind {A} (p : prog gateway_call A) (k : A -> prog gateway_call reply) limit h answer :
  silent (@upstream_send) p -> silent (@audit_status) p ->
  (forall a h', Forall clock_ok h' -> runs (k a) h' (Ok answer) ->
     (exists h0, runs p h0 (Ok a)) -> unseen h' \/ on_record limit h' answer) ->
  Forall clock_ok h -> runs (bind p k) h (Ok answer) -> unseen h \/ on_record limit h answer.
Proof using Type.
  intros Hs Ha Hk Hcl (h1 & h2 & [a|e] & -> & Hp & Hr)%runs_bind; [|by destruct Hr].
  apply Forall_app in Hcl as [_ Hcl]. apply accounted_app; [|by eapply Hk; eauto].
  split; by eapply silent_made.
Qed.

Lemma accounted_ret limit x h answer : runs (E := gateway_call) (Ret x) h (Ok answer) -> unseen h \/ on_record limit h answer.
Proof using Type. intros [-> _]. by left. Qed.

(** The upstream part of the handler. *)
Lemma call_accounted rq seller path started query full_path token h answer :
  Forall clock_ok h ->
  runs (let* sent := attempt (_forward_to_meli settings rq query full_path token) in
        match sent with
        | Err exc => answer_failure rq seller path started exc
        | Ok upstream_response =>
            let* now := ext GPerf in
            do* _write_audit_log rq seller path (rs_status upstream_response) (Z.quot (now - started) millisecond) None in
            Ret (Reply (rs_status upstream_response) (RawBody (rs_content upstream_response))
                   (_response_headers upstream_response) (httpx_get (rs_headers upstream_response) "content-type"))
        end) h (Ok answer) ->
  on_record (if no_retry rq then 1 else 3) h answer.
Proof using Type.
  intros Hcl (h1 & h2 & [sent|e] & -> & Hs & Hr)%runs_bind; [|by destruct Hr].
  apply Forall_app in Hcl as [_ Hcl]. apply runs_attempt in Hs as (x & Hs & [= ->]).
  pose proof (forward_send_count _ _ _ _ _ _ Hs) as Hn. apply (silent_made (@audit_status)) in Hs; [|apply audit_silent_forward].
  unfold on_record. rewrite !made_app, Hs, length_app. destruct x as [resp|exc].
  - apply runs_bind in Hr as (h3 & h4 & [now|e] & -> & Hp & Hr); [|by destruct Hr]. apply runs_perform in Hp as ->.
    apply runs_bind in Hr as (h5 & h6 & r & -> & Hw & Hr). apply Forall_app in Hcl as [_ Hcl]. apply Forall_app in Hcl as [Hcl _].
    pose proof (audit_written _ _ _ _ _ _ _ _ Hcl Hw) as Ha. apply (silent_made (@upstream_send)) in Hw; [|silence].
    destruct r as [u|e]; [|by destruct Hr]. destruct Hr as [-> [= ->]]. rewrite !made_app, Ha, Hw. split; [done|].
    simpl. lia.
  - apply failure_audited in Hr as [Hr Ha]; [|done]. rewrite Hr, Ha. split; [done|]. simpl. lia.
Qed.

Ltac account_step Hr :=
  match type of Hr with
  | runs (bind ?p ?k) _ _ => apply (accounted_bind p k); [silence|silence| |assumption|exact Hr]
  end; clear Hr; intros ? ? ? Hr _; cbv beta in Hr.


(** The proxy never charges credit.  Whatever the collaborators answer,
    no request makes the proxy consume execution credit of a plan: it only
    spends what was charged before, so the pilot's global kernel is never
    reached. *)
Theorem proxy_never_charges request full_path h u :
  ~ reaches (@credit_charge) (proxy_meli settings request full_path) h u.
Proof using Type.
  intros Hr. revert Hr. apply silent_never. unfold proxy_meli, forward.
  assert (Hfwd : forall rq query token, silent (@credit_charge) (_forward_to_meli settings rq query full_path token)).
  { intros rq query token. unfold _forward_to_meli, send_upstream, send_with_retry, send_single_attempt, send.
    apply silent_bind; [silence|intros content]. destruct (pilot_get settings rq && _) eqn:Hdead; [silence|].
    apply silent_bind; [silence|intros ureq]. destruct (no_retry rq) eqn:Hno; [silence|]. apply silent_loop; [done..|].
    intros p. destruct (pilot_get settings rq); [|done]. destruct (_history_trace rq (px_module rq)) as [t|] eqn:Ht; [|done].
    by rewrite (trace_no_retry _ _ _ Ht) in Hno. }
  silence. unfold answer_failure. silence.
Qed.

(** ** Headers *)

Lemma dict_set_absent d k v : ~ In k (map fst d) -> dict_set d k v = (d ++ [(k, v)])%list.
Proof using Type.
  induction d as [|[k' v'] d IH]; simpl; [done|]. intros Hk. destruct (String.eqb_spec k' k) as [->|Hne]; [tauto|].
  by rewrite IH by tauto.
Qed.
Lemma dict_set_keys d k v :
  map fst (dict_set d k v) = if string_in k (map fst d) then map fst d else (map fst d ++ [k])%list.
Proof using Type.
  induction d as [|[k' v'] d IH]; simpl; [done|]. rewrite (String.eqb_sym k k').
  destruct (String.eqb_spec k' k) as [->|Hne]; [done|]. simpl. rewrite IH. by destruct (string_in k (map fst d)).
Qed.
Lemma dict_set_in d k v x : In x (dict_set d k v) -> x = (k, v) \/ In x d.
Proof using Type.
  induction d as [|[k' v'] d IH]; simpl; [intros [<-|[]]; auto|]. destruct (String.eqb k' k); simpl; intuition.
Qed.

(** The comprehension over the caller's headers. *)
Abbreviation kept_headers := (foldl (fun d kv => if forwarded_header kv.1 then dict_set d kv.1 kv.2 else d)).

Lemma kept_spec headers d :
  List.NoDup (map fst d) ->
  List.NoDup (map fst (kept_headers d headers)) /\
  (forall x, In x (kept_headers d headers) -> In x d \/ In x headers /\ forwarded_header x.1 = true) /\
  (forall k, In k (map fst (kept_headers d headers)) <->
     In k (map fst d) \/ exists v, In (k, v) headers /\ forwarded_header k = true).
Proof using Type.
  revert d. induction headers as [|[k0 v0] headers IH]; intros d Hd; cbn [foldl fst snd].
  { split; [done|]. split; [auto|]. intros k. split; [auto|]. by intros [?|(v & [] & _)]. }
  destruct (forwarded_header k0) eqn:Hf.
  - assert (Hkeys : forall k, In k (map fst (dict_set d k0 v0)) <-> In k (map fst d) \/ k = k0).
    { intros k. rewrite dict_set_keys. destruct (string_in k0 (map fst d)) eqn:Hin.
      - apply string_in_iff in Hin. split; [auto|]. intros [?| ->]; done.
      - rewrite in_app_iff. simpl. split; [intros [?|[?|[]]]; auto|]. intros [?| ->]; auto. }
    destruct (IH (dict_set d k0 v0)) as (Hn & Hin & Hk).
    { rewrite dict_set_keys. destruct (string_in k0 (map fst d)) eqn:Hin; [done|]. apply string_in_false in Hin.
      apply NoDup_ListNoDup, NoDup_app.
      split; [by apply NoDup_ListNoDup|]. split; [|apply NoDup_singleton]. intros x Hx ->%list_elem_of_singleton.
      by apply Hin, list_elem_of_In. }
    split; [done|]. split.
    + intros x Hx. destruct (Hin x Hx) as [Hx'|[Hx' Hfx]]; [|right; split; [by right|done]].
      apply dict_set_in in Hx' as [->|Hx']; [right; split; [by left|done]|by left].
    + intros k. rewrite Hk, Hkeys. split.
      * intros [[?| ->]|(v & Hv & ?)]; [by left|right; exists v0; split; [by left|done]|right; exists v; split; [by right|done]].
      * intros [?|(v & [[= <- <-]|Hv] & ?)]; [by left; left|left; by right|right; eauto].
  - destruct (IH d Hd) as (Hn & Hin & Hk). split; [done|]. split.
    + intros x Hx. destruct (Hin x Hx) as [?|[? ?]]; [by left|right; split; [by right|done]].
    + intros k. rewrite Hk. split.
      * intros [?|(v & Hv & ?)]; [by left|right; exists v; split; [by right|done]].
      * intros [?|(v & [[= <- <-]|Hv] & Hfk)]; [by left|congruence|right; eauto].
Qed.

(** The upstream headers.  They are the caller's headers that may be
    forwarded, each name once and none invented, followed by the one
    authorization header, which carries the account's token: nothing of the
    caller's credentials, hop-by-hop, forwarding or platform headers leaves. *)
Theorem upstream_headers_are_clean headers access_token : exists kept,
  _upstream_headers headers access_token = (kept ++ [("Authorization", "Bearer " ++ access_token)%string])%list /\
  List.NoDup (map fst kept) /\
  (forall x, In x kept -> In x headers /\ forwarded_header x.1 = true) /\
  (forall k v, In (k, v) headers -> forwarded_header k = true -> In k (map fst kept)).
Proof using Type.
  destruct (kept_spec headers [] (List.NoDup_nil _)) as (Hn & Hin & Hk). exists (kept_headers [] headers).
  split; [|split; [done|split]].
  - apply dict_set_absent. intros Ha. apply Hk in Ha as [[]|(v & _ & Hf)]. by vm_compute in Hf.
  - intros x Hx. by apply Hin in Hx as [[]|Hx].
  - intros k v Hkv Hf. apply Hk. right. eauto.
Qed.

(** ** The wait for a refresh *)

Section Wait.
Context `{MongoConf} {S : Type} `{!ExtSpec gateway_call S}.
Definition out_of_fuel {A} (r : result A) : Prop := r = Err (mk_exn "OutOfFuel" "").

Lemma wp_lock_held {B} v (k : bool -> prog gateway_call B) Q (w : world S) :
  (forall w' b, w_now w <= w_now w' -> wp (k b) Q w') -> wp (bind (_lock_is_held v) k) Q w.
Proof using Type.
  intros Hk. unfold _lock_is_held. destruct (utc_instant v); [|apply Hk; lia].
  apply wp_bind, wp_now. intros w' (_ & _ & _ & Ht). by apply Hk.
Qed.

Lemma wait_loop_ends fuel seller deadline (w : world S) :
  deadline - w_now w <= Z.of_nat fuel * (200 * millisecond) ->
  wp (wait_loop (Datatypes.S fuel) seller deadline) (fun _ r => ~ out_of_fuel r) w.
Proof using Type.
  revert w. induction fuel as [|fuel IH]; intros w Hb; remember (wait_loop _ seller deadline) as p eqn:Hp; cbn [wait_loop] in Hp; subst p.
  - apply wp_now. intros w1 (_ & _ & _ & Ht). destruct (w_now w1 <? deadline) eqn:Hlt; [apply Z.ltb_lt in Hlt; lia|done].
  - apply wp_now. intros w1 (_ & _ & _ & Ht). destruct (w_now w1 <? deadline) eqn:Hlt; [|done].
    apply wp_sleep. intros w2 _ Hsl.
    assert (Hrest : forall w3, w_now w2 <= w_now w3 -> wp (wait_loop (Datatypes.S fuel) seller deadline) (fun _ r => ~ out_of_fuel r) w3).
    { intros w3 Hw3. apply IH. unfold millisecond in *. lia. }
    apply wp_mongo; [|done]. intros w3 r Hr (_ & _ & Ht3). simpl in Hr. destruct r as [[found|]|e]; [|done|].
    2: { destruct Hr as [_ [[_ Hr]|(j & d & _ & _ & Hr)]]; done. }
    destruct (py_eq _ _); [|apply Hrest; lia]. apply wp_lock_held. intros w4 held Ht4.
    destruct (negb held); [done|]. apply Hrest. lia.
Qed.

(** The wait for a refresh ends.  Whatever the database answers, the wait
    gives up after the five seconds: its 26 polls of 200 ms are never used up
    before the clock is past the deadline. *)
Theorem refresh_wait_ends seller (w : world S) :
  wp (_wait_for_active_account seller) (fun _ r => ~ out_of_fuel r) w.
Proof using Type.
  apply wp_now. intros w1 _. apply wait_loop_ends. unfold second, millisecond. lia.
Qed.
End Wait.
End Proofs.

(** ** A run *)

Section Example.
#[local] Existing Instance toy_crypto.
#[local] Existing Instance toy_aead.
#[local] Instance aware : MongoConf := aware_conf.
#[local] Instance no_dates : ParseDate := fun _ => None.
#[local] Instance no_repr : PyRepr := fun _ => EmptyString.
#[local] Instance plain_build : BuildRequest := fun m url content params headers =>
  Ok {| rq_method := m; rq_url := url; rq_headers := headers; rq_content := content |}.

(** The process's caches, the request's state and the wire. *)
Record gateway_state := {
  g_key : option pubkey; g_cache : gmap string (string * string); g_attrs : gmap string val; g_wire : list Retry.request;
}.
#[local] Instance toy_gateway : ExtRun gateway_call gateway_state := {
  ext_run := fun X c => match c in gateway_call X return gateway_state -> gateway_state * result X with
    | GJwt c => fun s => let '(k, r) := Jwt.toy_run.(ext_run) _ c (g_key s) in
        ({| g_key := k; g_cache := g_cache s; g_attrs := g_attrs s; g_wire := g_wire s |}, r)
    | GVault c => fun s => let '(k, r) := Vault.toy_vault.(ext_run) _ c (g_cache s) in
        ({| g_key := g_key s; g_cache := k; g_attrs := g_attrs s; g_wire := g_wire s |}, r)
    | GUp c => match c in upstream X return gateway_state -> gateway_state * result X with
        | USend rq => fun s =>
            ({| g_key := g_key s; g_cache := g_cache s; g_attrs := g_attrs s; g_wire := g_wire s ++ [rq] |},
             Ok {| rs_status := if Nat.eqb (length (g_wire s)) 0 then 503 else 200;
                   rs_headers := [("content-type", "application/json")]%string; rs_content := "{}" |})
        | URandom lo hi => fun s => (s, Ok lo)
        | USleep us => fun s => (s, Ok tt)
        end
    | GBody => fun s => (s, Ok EmptyString)
    | GPerf => fun s => (s, Ok 0)
    | GGet a => fun s => (s, Ok (g_attrs s !! a))
    | GSet a v => fun s => ({| g_key := g_key s; g_cache := g_cache s; g_attrs := <[a := v]> (g_attrs s); g_wire := g_wire s |}, Ok tt)
    end;
  uuid_run := fun _ => "0123456789abcdef0123456789abcdef"%string;
}.

Definition sample_settings : gateway_settings :=
  {| gateway_proxy_rate_limit := 600; history_pilot_get_budget_sellers := None;
     meli_api_base := "https://api.mercadolibre.com"; kms_key_name := "key" |}.
Definition sample_token : string := match (run (H0 := Jwt.toy_run) sample_mint jwt_world).2 with Ok t => t | Err _ => EmptyString end.
Definition sample_request : http_request :=
  {| hr_method := "GET"; hr_query := [];
     hr_headers := [("host", "gateway"); ("authorization", "Bearer " ++ sample_token); ("accept", "*/*")]%string |}.
Definition sample_db : database :=
  <[("module_registry", "sheets") := mk_doc [("_id", VStr "sheets"); ("status", VStr "enabled");
      ("allowed_meli_scopes", VList [VStr "GET /users/*"; VStr "GET /orders/*"])]]>
  {[("meli_accounts", "a1") := mk_doc [("_id", VStr "a1"); ("seller_id", VInt 7); ("status", VStr "active");
      ("access_token_ciphertext", VStr (ciphertext old_token)); ("token_nonce", VStr (nonce old_token));
      ("access_token_dek_wrapped", VStr (dek_wrapped old_token)); ("kms_key_version", VStr (kms_key_version old_token))]]}%string.
Definition sample_world : world gateway_state :=
  World sample_db (1700000001 * second) None {| g_key := None; g_cache := ∅; g_attrs := ∅; g_wire := [] |}.
Definition sample_call : prog gateway_call reply := proxy_meli sample_settings sample_request "orders/search".
Definition sample_upstream : Retry.request :=
  {| rq_method := "GET"; rq_url := "https://api.mercadolibre.com/orders/search";
     rq_headers := [("accept", "*/*"); ("Authorization", "Bearer old")]%string; rq_content := EmptyString |}.

(** The first answer is a 503, the second a 200. *)
Example sample_answer :
  (run sample_call sample_world).2 =
    Ok (Reply 200 (RawBody "{}") [("Content-Type", "application/json")]%string (Some "application/json"%string)) /\
  g_wire (w_ext (run sample_call sample_world).1) = [sample_upstream; sample_upstream].
Proof. split; vm_compute; reflexivity. Qed.

Lemma every_send_is_authorised_witness : exists h,
  reaches (@upstream_send toy_crypto) sample_call h sample_upstream /\
  authorised sample_settings sample_request "orders/search" h sample_upstream.
Proof.
  assert (Hs : (run_until (@upstream_send toy_crypto) sample_call sample_world).2 = Some sample_upstream) by (vm_compute; reflexivity).
  apply run_until_reaches in Hs as Hr. clear Hs. revert Hr. generalize (run_until (@upstream_send toy_crypto) sample_call sample_world).1.
  intros h Hr. exists h.
  split; [exact Hr|exact (every_send_is_authorised sample_settings sample_request "orders/search" h sample_upstream Hr)].
Defined.

Definition clock_okb (c : call gateway_call) : bool :=
  match c with
  | Call o r => match o in op _ X return result X -> bool with
                | ONow => fun r => match r with Ok _ => true | Err _ => false end | _ => fun _ => true end r
  end.
Lemma clock_okb_ok h : forallb clock_okb h = true -> Forall clock_ok h.
Proof.
  induction h as [|[X o r] h IH]; simpl; [constructor|]. intros [Ho Hh]%andb_true_iff.
  constructor; [|by apply IH]. destruct o; try done. simpl in *. destruct r; [eauto|done].
Qed.


(** A scope admits dot segments; httpx resolves them in the request it sends. *)
Example scope_admits_dot_segments :
  _scope_matches "GET" "/items/../orders/search" (VList [VStr "GET /items/*"]) = Ok true /\
  upstream_url sample_settings "items/../orders/search" = "https://api.mercadolibre.com/items/../orders/search"%string.
Proof. split; reflexivity. Qed.
End Example.
