(* ===== verification/TokenIssue.v ===== *)
(** Tokens for modules: [issue_token] of gateway/.../internal/router.py, which
    hands a module the MercadoLibre token of a seller or an administration
    token, and [authorize_module_admin] of core/.../auth/module_admin.py, by
    which a module's API accepts the latter. *)

From S2P Require Export Proxy.

#[local] Open Scope Z_scope.

Definition ZELER_APP_CLIENT_ID : string := "zeler-app".
Definition ZELER_PLATFORM_APP_ID : string := "zeler-platform".
Definition ZELER_APP_SIGNATURE_HEADER : string := "X-Zeler-Signature".
Definition ZELER_CLIENT_ID_HEADER : string := "X-Zeler-Client-Id".

(** ** Requests and replies *)

Inductive token_kind := MeliAccess | ModuleAdmin.
Definition kind_name (k : token_kind) : string := match k with MeliAccess => "meli_access" | ModuleAdmin => "module_admin" end.

(** The parsed body, and whether it had the field [platform_user_id]. *)
Record TokenIssueRequest := {
  ti_seller_id : Z;
  ti_platform_user_id : option string;
  ti_platform_user_id_set : bool;
  ti_scopes : list string;
  ti_ttl_s : Z;
  ti_token_kind : token_kind;
  ti_target_module_id : option string;
}.
(** What pydantic lets through. *)
Definition valid_issue (p : TokenIssueRequest) : bool :=
  negb (is_nil (ti_scopes p)) && (0 <? ti_ttl_s p) && (ti_ttl_s p <=? 300).

Inductive issue_reply :=
| Refused (r : reply)
| Issued (access_token : string) (expires_in : Z) (scopes : list string).
Definition refuse {A : Type} (status : Z) (error : string) : A + reply := inr (_json_error status error None []).

(** hmac with SHA-256: key, message. *)
Class Hmac := hmac_sha256 : string -> string -> string.

(** ** The checks *)

Definition _scope_allowed (requested_scope : string) (allowed_scopes : list val) : result bool :=
  any_scope requested_scope allowed_scopes.
(** [all(_scope_allowed(scope, allowed_scopes) for scope in scopes)]. *)
Fixpoint all_allowed (scopes : list string) (allowed_scopes : val) : result bool :=
  match scopes with
  | [] => Ok true
  | scope :: rest =>
      let! allowed := py_iter allowed_scopes in
      let! ok := _scope_allowed scope allowed in
      if (ok : bool) then all_allowed rest allowed_scopes else Ok false
  end.
Definition _module_admin_scopes_match_target (scopes : list string) (target_module_id : string) : bool :=
  forallb (fun scope => String.eqb scope ("admin:" ++ target_module_id)) scopes.

Definition _signed_platform_user_id (p : TokenIssueRequest) : option string :=
  match ti_platform_user_id p with
  | None => None
  | Some u => let u := strip u in if string_is_empty u then None else Some u
  end.

Section Issue.
Context `{JwtCrypto} `{Aead} `{PyRepr} `{Hmac}.
Abbreviation gateway := (prog gateway_call).
(** [os.environ.get("ZELER_APP_BROKER_SECRET")]. *)
Variable broker_secret : option string.

Definition _string_set (raw_values : val) : list string :=
  match raw_values with
  | VList l => List.filter (fun s => negb (string_is_empty s)) (map (fun v => strip (py_str v)) l)
  | _ => []
  end.
Definition _seller_allowed (seller_id : Z) (allowed_seller_ids : val) : bool :=
  match allowed_seller_ids with VNone => true | v => string_in (str_of_Z seller_id) (_string_set v) end.

(** [hmac.compare_digest] of two texts. *)
Definition compare_digest (a b : string) : result bool :=
  if string_forallb (fun c => Nat.ltb (nat_of_ascii c) 128) (a ++ b)
  then Ok (String.eqb a b)
  else raise_type "comparing strings with non-ASCII characters is not supported".

Definition broker_signature (secret body : string) : string := ("sha256=" ++ _b64url_encode (hmac_sha256 secret body))%string.
Definition _verify_zeler_app_signature (headers : list (string * string)) : gateway bool :=
  match broker_secret with
  | None | Some EmptyString => Ret false
  | Some secret =>
      match header_get headers ZELER_APP_SIGNATURE_HEADER with
      | None => Ret false
      | Some provided_signature =>
          let* body := ext GBody in
          of_result (compare_digest provided_signature (broker_signature secret body))
      end
  end.

(** The caller's module, and whether it signed as zeler-app. *)
Definition _authenticate_issue_caller (headers : list (string * string)) (p : TokenIssueRequest) :
    gateway ((string * bool) + reply) :=
  if bool_decide (header_get headers ZELER_CLIENT_ID_HEADER = Some ZELER_APP_CLIENT_ID) then
    match ti_token_kind p with
    | MeliAccess => Ret (refuse 403 "out_of_scope")
    | ModuleAdmin =>
        let* signed := _verify_zeler_app_signature headers in
        Ret (if negb signed then inr (_json_error 401 "invalid_token" (Some "invalid zeler-app signature"%string) [])
             else inl (ZELER_APP_CLIENT_ID, true))
    end
  else if is_some (_signed_platform_user_id p) then Ret (refuse 403 "out_of_scope")
  else
    match bearer headers with
    | None => Ret (inr (_json_error 401 "invalid_token" (Some "missing bearer token"%string) []))
    | Some token =>
        let* verified := attempt (verify_module_jwt gjwt token) in
        match verified with
        | Err exc =>
            if isinstance exc "InvalidJWTError" then Ret (inr (_json_error 401 "invalid_token" (Some (exn_msg exc)) []))
            else Raise exc
        | Ok claims =>
            Ret (if negb (seller_id claims =? ti_seller_id p) then refuse 403 "seller_mismatch"
                 else if String.eqb (module_id claims) ZELER_APP_CLIENT_ID
                 then inr (_json_error 401 "invalid_token" (Some "zeler-app must use broker signature"%string) [])
                 else inl (module_id claims, false))
        end
    end.

Definition owned_query (platform_user_id : string) (seller_id : val) : filter :=
  FAnd [FEq ["platform_user_id"] (VStr platform_user_id); FEq ["app_id"] (VStr ZELER_PLATFORM_APP_ID);
        FEq ["seller_id"] seller_id; FEq ["status"] (VStr "active")]%string.
Definition _platform_user_owns_active_seller (platform_user_id : string) (seller_id : Z) : gateway bool :=
  let* account := mongo (MFindOne "meli_accounts" (owned_query platform_user_id (VInt seller_id)) []) in
  match account with
  | Some _ => Ret true
  | None =>
      let* account := mongo (MFindOne "meli_accounts" (owned_query platform_user_id (VStr (str_of_Z seller_id))) []) in
      Ret (is_some account)
  end.

(** The platform user the token is issued for, if the caller signed one. *)
Definition _authorize_token_issue_seller (p : TokenIssueRequest) (registered : doc) (signed : bool) :
    gateway (option string + reply) :=
  match _signed_platform_user_id p with
  | None =>
      Ret (if signed && ti_platform_user_id_set p then refuse 403 "seller_mismatch"
           else if _seller_allowed (ti_seller_id p) (doc_get registered "allowed_seller_ids") then inl None
           else refuse 403 "seller_mismatch")
  | Some user =>
      if signed then
        let* owns := _platform_user_owns_active_seller user (ti_seller_id p) in
        Ret (if negb owns then refuse 403 "seller_mismatch" else inl (Some user))
      else
        Ret (if _seller_allowed (ti_seller_id p) (doc_get registered "allowed_seller_ids") then inl None
             else refuse 403 "seller_mismatch")
  end.

Definition issue_record (at_ : Z) (issuer : string) (p : TokenIssueRequest) (target user : option string) : doc :=
  mk_doc ([("at", VDate true at_); ("module_id", VStr issuer); ("seller_id", VInt (ti_seller_id p)); ("method", VStr "POST");
           ("path", VStr "/internal/tokens/issue"); ("status", VInt 200); ("duration_ms", VInt 0);
           ("scopes", VList (map VStr (ti_scopes p))); ("ttl_s", VInt (ti_ttl_s p));
           ("token_kind", VStr (kind_name (ti_token_kind p))); ("decision", VStr "issued"); ("schema_version", VInt 1)]%string ++
          match target with Some t => [("target_module_id", VStr t)]%string | None => [] end ++
          match user with Some u => [("platform_user_id", VStr u)]%string | None => [] end).
Definition _insert_issue_audit (issuer : string) (p : TokenIssueRequest) (target user : option string) : gateway unit :=
  let* at_ := now_utc in mongo (MInsertOne "audit_log" (issue_record at_ issuer p target user)).

(** ** The handler *)

Definition issue_admin (p : TokenIssueRequest) (issuer : string) (user : option string) : gateway issue_reply :=
  match ti_target_module_id p with
  | None => Ret (Refused (_json_error 422 "target_module_id_required" None []))
  | Some target =>
      let target := strip target in
      if string_is_empty target then Ret (Refused (_json_error 422 "target_module_id_required" None []))
      else if negb (_module_admin_scopes_match_target (ti_scopes p) target)
      then Ret (Refused (_json_error 403 "out_of_scope" None []))
      else
        let* admin_token := mint_module_jwt gjwt target (ti_seller_id p) (ti_ttl_s p) (Some "module_admin"%string)
                              (Some (ti_scopes p)) (Some issuer) user in
        do* _insert_issue_audit issuer p (Some target) user in
        Ret (Issued admin_token (ti_ttl_s p) (ti_scopes p))
  end.

Definition issue_access (p : TokenIssueRequest) (issuer : string) (user : option string) : gateway issue_reply :=
  let* account := mongo (MFindOne "meli_accounts"
      (FAnd [FEq ["seller_id"] (VInt (ti_seller_id p)); FEq ["status"] (VStr "active")]%string) []) in
  match account with
  | None => Ret (Refused (_json_error 412 "account_not_active" None []))
  | Some account =>
      let* token := of_result (stored_access_token account) in
      let* access_token := decrypt_token gvault token (str_of_Z (ti_seller_id p)) in
      do* _insert_issue_audit issuer p None user in
      Ret (Issued access_token (ti_ttl_s p) (ti_scopes p))
  end.

Definition registry_query (module_id : string) : filter :=
  FAnd [FEq ["_id"] (VStr module_id); FEq ["status"] (VStr "enabled")]%string.

Definition issue_token (headers : list (string * string)) (p : TokenIssueRequest) : gateway issue_reply :=
  let* caller := _authenticate_issue_caller headers p in
  match caller with
  | inr refusal => Ret (Refused refusal)
  | inl (issuer, signed) =>
      let* found := mongo (MFindOne "module_registry" (registry_query issuer) []) in
      match found with
      | None => Ret (Refused (_json_error 401 "unknown_module" None []))
      | Some registered =>
          let* seller := _authorize_token_issue_seller p registered signed in
          match seller with
          | inr refusal => Ret (Refused refusal)
          | inl user =>
              let* allowed := of_result (all_allowed (ti_scopes p) (doc_get_or registered "allowed_meli_scopes" (VList []))) in
              if negb allowed then Ret (Refused (_json_error 403 "out_of_scope" None []))
              else match ti_token_kind p with
                   | ModuleAdmin => issue_admin p issuer user
                   | MeliAccess => issue_access p issuer user
                   end
          end
      end
  end.
End Issue.

(** ** The module's side *)

Section Admin.
Context {E : Type -> Type} `{PyRepr}.
Variable verifier : string -> prog E ModuleClaims.

Definition _module_admin_forbidden_detail (claims : ModuleClaims) (expected_module_id : string) (seller : val) : option string :=
  let required_scope := ("admin:" ++ expected_module_id)%string in
  if negb (bool_decide (token_type claims = Some "module_admin"%string)) then Some "JWT token_type must be module_admin"%string
  else if negb (String.eqb (module_id claims) expected_module_id) then Some ("JWT module_id must be " ++ expected_module_id)%string
  else if negb (string_in required_scope (default [] (scopes claims))) then Some ("JWT scopes must include " ++ required_scope)%string
  else if negb (is_none seller) && negb (String.eqb (str_of_Z (seller_id claims)) (py_str seller))
  then Some "JWT seller_id must match request seller_id"%string
  else None.

(** [None] admits the request. *)
Definition authorize_module_admin (headers : list (string * string)) (expected_module_id : string) (seller : val) :
    prog E (option reply) :=
  match bearer headers with
  | None => Ret (Some (_json_error 401 "invalid_token" (Some "missing bearer token"%string) []))
  | Some token =>
      let* verified := attempt (verifier token) in
      match verified with
      | Err exc =>
          if isinstance exc "InvalidJWTError"
          then Ret (Some (_json_error 401 "invalid_token" (Some (exn_msg exc)) []))
          else Raise exc
      | Ok claims =>
          Ret (match _module_admin_forbidden_detail claims expected_module_id seller with
               | Some detail => Some (_json_error 403 "forbidden" (Some detail) [])
               | None => None
               end)
      end
  end.
End Admin.
