(* ===== verification/TokenIssueProofs.v ===== *)
(** What a module's token has behind it: every token [issue_token] hands out was
    authorised and is on record, and an administration token opens the module
    it names and no other. *)

From S2P Require Export TokenIssue ProxyProofs.

#[local] Open Scope Z_scope.

Section Issued.
Context `{Crypto : JwtCrypto} `{Aes : Aead} `{Repr : PyRepr} `{Mac : Hmac}.
Variable broker_secret : option string.
Abbreviation find c q := (OMongo (MFindOne c q [])).

(** How the caller proved who it is. *)
Definition authenticated (headers : list (string * string)) (p : TokenIssueRequest) (issuer : string) (signed : bool)
    (h : history gateway_call) : Prop :=
  if signed then
    issuer = ZELER_APP_CLIENT_ID /\ header_get headers ZELER_CLIENT_ID_HEADER = Some ZELER_APP_CLIENT_ID /\
    ti_token_kind p = ModuleAdmin /\
    exists secret body, broker_secret = Some secret /\ secret <> EmptyString /\
      In (Call (OExt GBody) (Ok body)) h /\ header_get headers ZELER_APP_SIGNATURE_HEADER = Some (broker_signature secret body)
  else
    issuer <> ZELER_APP_CLIENT_ID /\ _signed_platform_user_id p = None /\
    exists token claims, bearer headers = Some token /\ runs (verify_module_jwt gjwt token) h (Ok claims) /\
      module_id claims = issuer /\ seller_id claims = ti_seller_id p.

(** Why the seller may be acted for. *)
Definition seller_authorised (p : TokenIssueRequest) (registered : doc) (user : option string) (signed : bool)
    (h : history gateway_call) : Prop :=
  match user with
  | Some u =>
      signed = true /\ _signed_platform_user_id p = Some u /\
      exists account sid, In (Call (find "meli_accounts" (owned_query u sid)) (Ok (Some account))) h /\
        (sid = VInt (ti_seller_id p) \/ sid = VStr (str_of_Z (ti_seller_id p)))
  | None =>
      (signed = true -> ti_platform_user_id_set p = false) /\
      _seller_allowed (ti_seller_id p) (doc_get registered "allowed_seller_ids") = true
  end.

Lemma caller_authenticated headers p h issuer signed :
  runs (_authenticate_issue_caller broker_secret headers p) h (Ok (inl (issuer, signed))) ->
  authenticated headers p issuer signed h.
Proof using Type.
  unfold _authenticate_issue_caller. destruct (bool_decide _) eqn:Hid.
  - apply bool_decide_eq_true in Hid. destruct (ti_token_kind p) eqn:Hk; [by intros [_ [=]]|].
    intros (h1 & h2 & [ok|e] & -> & Hs & Hr)%runs_bind; [|by destruct Hr]. destruct Hr as [-> Hr].
    destruct ok; [|done]. injection Hr as -> ->. unfold authenticated. repeat (split; [done|]). rewrite app_nil_r.
    unfold _verify_zeler_app_signature in Hs. destruct broker_secret as [secret|]; [|by destruct Hs].
    destruct secret as [|c secret]; [by destruct Hs|]. destruct (header_get headers ZELER_APP_SIGNATURE_HEADER) as [sig|]; [|by destruct Hs].
    apply runs_bind in Hs as (h3 & h4 & [body|e] & -> & Hb & Hs); [|by destruct Hs]. apply runs_perform in Hb as ->.
    apply runs_of_result in Hs as [-> Hs]. unfold compare_digest in Hs. destruct (string_forallb _ _); [|done].
    injection Hs as Hs. symmetry in Hs. apply String.eqb_eq in Hs as ->. exists (String c secret), body. split; [done|]. split; [done|].
    split; [by left|done].
  - destruct (_signed_platform_user_id p) eqn:Hu; [by intros [_ [=]]|]. simpl is_some. cbv iota.
    destruct (bearer headers) as [token|] eqn:Hb; [|by intros [_ [=]]].
    intros (h1 & h2 & [v|e] & -> & Hv & Hr)%runs_bind; [|by destruct Hr]. apply runs_attempt in Hv as (x & Hv & [= ->]).
    destruct x as [claims|exc]; [|by destruct (isinstance _ _); destruct Hr]. destruct Hr as [-> Hr].
    destruct (Z.eqb_spec (seller_id claims) (ti_seller_id p)) as [Hs|]; [|done].
    destruct (String.eqb_spec (module_id claims) ZELER_APP_CLIENT_ID); [done|]. injection Hr as -> ->.
    split; [done|]. split; [done|]. exists token, claims. by rewrite app_nil_r.
Qed.

Lemma seller_is_authorised p registered user signed h :
  runs (_authorize_token_issue_seller p registered signed) h (Ok (inl user)) -> seller_authorised p registered user signed h.
Proof using Type.
  unfold _authorize_token_issue_seller. destruct (_signed_platform_user_id p) as [u|] eqn:Hu.
  - destruct signed.
    + intros (h1 & h2 & [owns|e] & -> & Ho & Hr)%runs_bind; [|by destruct Hr]. destruct Hr as [-> Hr]. destruct owns; [|done].
      injection Hr as ->. split; [done|]. split; [done|]. rewrite app_nil_r. unfold _platform_user_owns_active_seller in Ho.
      apply runs_bind in Ho as (h3 & h4 & [[account|]|e] & -> & Hf & Ho); [| |by destruct Ho].
      { apply runs_perform in Hf as ->. exists account, (VInt (ti_seller_id p)). split; [by left|auto]. }
      apply runs_bind in Ho as (h5 & h6 & [[account|]|e] & -> & Hf' & Ho); [|by destruct Ho..].
      apply runs_perform in Hf as ->. apply runs_perform in Hf' as ->. exists account, (VStr (str_of_Z (ti_seller_id p))).
      split; [right; by left|auto].
    + intros [-> Hr]. destruct (_seller_allowed _ _) eqn:Ha; [|done]. by injection Hr as ->.
  - intros [-> Hr]. destruct (signed && _) eqn:Hs; [done|]. destruct (_seller_allowed _ _) eqn:Ha; [|done]. injection Hr as ->.
    split; [|done]. intros ->. simpl in Hs. by rewrite Hs.
Qed.

(** The token itself: minted for one module, or the seller's own. *)
Definition issued_from (p : TokenIssueRequest) (issuer : string) (user target : option string) (token : string)
    (h : history gateway_call) : Prop :=
  match target with
  | Some t =>
      ti_token_kind p = ModuleAdmin /\ t <> EmptyString /\ (forall scope, In scope (ti_scopes p) -> scope = ("admin:" ++ t)%string) /\
      runs (mint_module_jwt gjwt t (ti_seller_id p) (ti_ttl_s p) (Some "module_admin"%string) (Some (ti_scopes p)) (Some issuer) user)
        h (Ok token)
  | None =>
      ti_token_kind p = MeliAccess /\ exists account sealed_token hd,
        h = Call (find "meli_accounts" (FAnd [FEq ["seller_id"] (VInt (ti_seller_id p)); FEq ["status"] (VStr "active")]%string))
              (Ok (Some account)) :: hd /\
        stored_access_token account = Ok sealed_token /\
        runs (decrypt_token gvault sealed_token (str_of_Z (ti_seller_id p))) hd (Ok token)
  end.

Lemma audited_issue p issuer target user h (r : issue_reply) x :
  runs (do* _insert_issue_audit issuer p target user in Ret r) h (Ok x) -> x = r /\ exists at_,
    h = [Call ONow (Ok at_); Call (OMongo (MInsertOne "audit_log" (issue_record at_ issuer p target user))) (Ok tt)].
Proof using Type.
  intros (h1 & h2 & [[]|e] & -> & Ha & Hr)%runs_bind; [|by destruct Hr]. destruct Hr as [-> [= ->]]. split; [done|].
  apply runs_bind in Ha as (h3 & h4 & [at_|e] & -> & Hn & Ha); [|by destruct Ha]. apply runs_perform in Hn as ->.
  apply runs_perform in Ha as ->. by exists at_.
Qed.

(** C28: no token is issued unauthorised or off the record.  Whatever the
    collaborators answer, when a token is handed out the caller signed as
    zeler-app or presented its own verified token for that seller, its module
    is enabled, the seller is one it may act for, every scope asked for is
    among the module's, the token is an administration token for exactly one
    module or the seller's own access token, and the last thing done was a
    successful insertion of the audit record that says so. *)
Theorem issued_token_is_authorised headers p h token expires scopes_ :
  runs (issue_token broker_secret headers p) h (Ok (Issued token expires scopes_)) ->
  expires = ti_ttl_s p /\ scopes_ = ti_scopes p /\
  exists issuer signed registered user target at_ ha hs hi,
    h = (ha ++ Call (find "module_registry" (registry_query issuer)) (Ok (Some registered)) :: hs ++ hi ++
         [Call ONow (Ok at_); Call (OMongo (MInsertOne "audit_log" (issue_record at_ issuer p target user))) (Ok tt)])%list /\
    authenticated headers p issuer signed ha /\ seller_authorised p registered user signed hs /\
    all_allowed (ti_scopes p) (doc_get_or registered "allowed_meli_scopes" (VList [])) = Ok true /\
    issued_from p issuer user target token hi.
Proof using Type.
  intros Hr. unfold issue_token in Hr.
  apply runs_bind in Hr as (ha & h1 & [c|e] & -> & Ha & Hr); [|by destruct Hr]. destruct c as [[issuer signed]|refusal]; [|by destruct Hr].
  apply caller_authenticated in Ha.
  apply runs_bind in Hr as (hm & h2 & [[registered|]|e] & -> & Hm & Hr); [|by destruct Hr..]. apply runs_perform in Hm as ->.
  apply runs_bind in Hr as (hs & h3 & [s|e] & -> & Hs & Hr); [|by destruct Hr]. destruct s as [user|refusal]; [|by destruct Hr].
  apply seller_is_authorised in Hs.
  apply runs_bind in Hr as (hz & h4 & [allowed|e] & -> & Hal & Hr); [|by destruct Hr]. apply runs_of_result in Hal as [-> Hal].
  destruct allowed; [|by destruct Hr]. simpl negb in Hr. cbv iota in Hr.
  assert (Hdone : forall target hi at_ hall, hall =
        (ha ++ [Call (find "module_registry" (registry_query issuer)) (Ok (Some registered))] ++ hs ++ [] ++ h4)%list ->
      h4 = (hi ++ [Call ONow (Ok at_); Call (OMongo (MInsertOne "audit_log" (issue_record at_ issuer p target user))) (Ok tt)])%list ->
      issued_from p issuer user target token hi -> expires = ti_ttl_s p -> scopes_ = ti_scopes p ->
      expires = ti_ttl_s p /\ scopes_ = ti_scopes p /\
      exists issuer signed registered user target at_ ha hs hi,
        hall = (ha ++ Call (find "module_registry" (registry_query issuer)) (Ok (Some registered)) :: hs ++ hi ++
         [Call ONow (Ok at_); Call (OMongo (MInsertOne "audit_log" (issue_record at_ issuer p target user))) (Ok tt)])%list /\
        authenticated headers p issuer signed ha /\ seller_authorised p registered user signed hs /\
        all_allowed (ti_scopes p) (doc_get_or registered "allowed_meli_scopes" (VList [])) = Ok true /\
        issued_from p issuer user target token hi).
  { intros target hi at_ hall -> -> Hfrom -> ->. split; [done|]. split; [done|].
    exists issuer, signed, registered, user, target, at_, ha, hs, hi. by repeat (split; [done|]). }
  destruct (ti_token_kind p) eqn:Hk.
  - apply runs_bind in Hr as (hf & h5 & [[account|]|e] & -> & Hf & Hr); [|by destruct Hr..]. apply runs_perform in Hf as ->.
    apply runs_bind in Hr as (hz & h6 & [tok|e] & -> & Ht & Hr); [|by destruct Hr]. apply runs_of_result in Ht as [-> Ht].
    apply runs_bind in Hr as (hd & h7 & [access|e] & -> & Hd & Hr); [|by destruct Hr].
    apply audited_issue in Hr as [[= -> -> ->] [at_ ->]]. refine (Hdone None ([Call (find "meli_accounts" _) (Ok (Some account))] ++ hd)%list at_ _ eq_refl eq_refl _ eq_refl eq_refl).
    split; [done|]. by exists account, tok, hd.
  - unfold issue_admin in Hr. destruct (ti_target_module_id p) as [t|]; [|by destruct Hr].
    destruct (string_is_empty (strip t)) eqn:He; [by destruct Hr|].
    destruct (negb (_module_admin_scopes_match_target _ _)) eqn:Hsc; [by destruct Hr|]. apply negb_false_iff in Hsc.
    apply runs_bind in Hr as (hd & h7 & [access|e] & -> & Hd & Hr); [|by destruct Hr].
    apply audited_issue in Hr as [[= -> -> ->] [at_ ->]]. refine (Hdone (Some (strip t)) hd at_ _ eq_refl eq_refl _ eq_refl eq_refl).
    split; [done|]. split; [by intros Hz; rewrite Hz in He|]. split; [|exact Hd].
    intros scope Hin. unfold _module_admin_scopes_match_target in Hsc. rewrite forallb_forall in Hsc.
    by apply String.eqb_eq, Hsc.
Qed.
End Issued.

(** ** The module's side *)

Section AdminToken.
Context `{Kms} `{MongoConf} `{PyRepr}.

Definition bearer_header (token : string) : list (string * string) := [("authorization", "Bearer " ++ token)]%string.

Lemma bearer_of token : string_forallb (fun c => negb (is_space c)) token = true -> bearer (bearer_header token) = Some token.
Proof using Type. 
  intros Ht. unfold bearer.
  assert (Hg : header_get (bearer_header token) "Authorization" = Some ("Bearer " ++ token)%string) by reflexivity.
  rewrite Hg, strip_prefix_app. simpl. by rewrite strip_id.
Qed.

(** An administration token opens one module.  A token minted as
    [issue_token] mints it for the module [target], with its scopes, is
    admitted by [authorize_module_admin] exactly for that module and, when a
    seller is asked for, that seller; once it has expired it is refused as an
    invalid token; nothing else but a failure of the key service happens. *)
Theorem admin_token_opens_one_module target s ttl scopes_ issuer user expected seller (w : world (option pubkey)) :
  target <> EmptyString -> scopes_ <> [] -> _module_admin_scopes_match_target scopes_ target = true -> cache_ok w ->
  wp (let* token := mint_module_jwt here target s ttl (Some "module_admin"%string) (Some scopes_) (Some issuer) user in
      authorize_module_admin (verify_module_jwt here) (bearer_header token) expected seller)
    (fun w' r => match r with
       | Ok None => expected = target /\ (seller = VNone \/ py_str seller = str_of_Z s) /\
                    exists minted, w_now w / second <= minted /\ w_now w' / second < minted + ttl
       | Ok (Some refusal) => rp_status refusal = 401 /\ w_now w / second + ttl <= w_now w' / second \/
                    rp_status refusal = 403 /\ (expected <> target \/ seller <> VNone /\ py_str seller <> str_of_Z s)
       | Err e => kms_failure e
       end) w.
Proof using Type.
  intros Ht Hne Hsc Hc. apply wp_minted; [done|done| |by auto]. intros w1 token now [Hl Hu] [Hns Hv].
  unfold authorize_module_admin. rewrite (bearer_of token Hns). apply wp_bind, wp_attempt, Hv.
  - intros w2 Ht2 Hlive. simpl in Hlive. unfold _module_admin_forbidden_detail, minted_claims. cbn [token_type module_id scopes seller_id].
    change (default [] (Some scopes_)) with scopes_.
    rewrite bool_decide_true by done. cbn [negb]. destruct (String.eqb_spec target expected) as [<-|Hx]; cbn [negb wp].
    2: { right. split; [done|]. left. congruence. }
    assert (Hin : string_in ("admin:" ++ target)%string scopes_ = true).
    { destruct scopes_ as [|sc rest]; [done|]. simpl in Hsc. apply andb_true_iff in Hsc as [Hsc _]. apply String.eqb_eq in Hsc as ->.
      simpl. by rewrite String.eqb_refl. }
    rewrite Hin. cbn [negb]. destruct (is_none seller) eqn:Hn.
    + cbn. split; [done|]. split; [left; by destruct seller|]. by exists now.
    + assert (seller <> VNone) by (by intros ->). cbn [negb andb]. destruct (String.eqb_spec (str_of_Z s) (py_str seller)) as [He|He]; cbn.
      * split; [done|]. split; [by right|]. by exists now.
      * right. split; [done|]. right. split; [done|congruence].
  - intros w2 e [He|[He Hlate]].
    + unfold kms_failure in He. rewrite He. exact He.
    + unfold isinstance. rewrite He. cbn. left. split; [done|]. simpl in Hlate. lia.
Qed.
End AdminToken.

(** ** Runs *)

Section Example.
#[local] Existing Instance toy_crypto.
#[local] Existing Instance toy_kms.
#[local] Existing Instance toy_aead.
#[local] Existing Instance toy_gateway.
#[local] Instance aware : MongoConf := aware_conf.
#[local] Instance no_repr : PyRepr := fun _ => EmptyString.
#[local] Instance plain_hmac : Hmac := fun k m => (k ++ m)%string.

Definition sample_issue : TokenIssueRequest :=
  {| ti_seller_id := 7; ti_platform_user_id := None; ti_platform_user_id_set := false; ti_scopes := ["GET /orders/*"]%string;
     ti_ttl_s := 60; ti_token_kind := MeliAccess; ti_target_module_id := None |}.
Abbreviation sample_issue_call := (issue_token (H := toy_crypto) None (bearer_header sample_token) sample_issue).

Definition issues (token : string) (expires : Z) (scopes_ : list string) (x : result issue_reply) : bool :=
  match x with Ok (Issued t z l) => String.eqb t token && (z =? expires) && bool_decide (l = scopes_) | _ => false end.
Lemma issues_ok token expires scopes_ x : issues token expires scopes_ x = true -> x = Ok (Issued token expires scopes_).
Proof.
  destruct x as [[r|t z l]|e]; [done| |done]. simpl. intros [[Ht Hz]%andb_true_iff Hl]%andb_true_iff.
  apply String.eqb_eq in Ht as ->. apply Z.eqb_eq in Hz as ->. apply bool_decide_eq_true in Hl as ->. done.
Qed.

Lemma issued_token_is_authorised_witness :
  exists h, runs sample_issue_call h (Ok (Issued "old" 60 ["GET /orders/*"]%string)) /\
    exists issuer registered user target at_ ha hs hi,
      h = (ha ++ Call (OMongo (MFindOne "module_registry" (registry_query issuer) [])) (Ok (Some registered)) :: hs ++ hi ++
         [Call ONow (Ok at_);
          Call (OMongo (MInsertOne "audit_log" (issue_record at_ issuer sample_issue target user))) (Ok tt)])%list /\
      issued_from sample_issue issuer user target "old" hi.
Proof.
  pose proof (run_history_runs sample_issue_call sample_world) as Hr.
  assert (Hok : issues "old" 60 ["GET /orders/*"]%string (run_history sample_issue_call sample_world).2 = true) by (vm_compute; reflexivity).
  revert Hr Hok. generalize (run_history sample_issue_call sample_world).1.
  generalize (run_history sample_issue_call sample_world).2. intros x h Hr Hok.
  apply issues_ok in Hok as ->. exists h. split; [exact Hr|].
  apply issued_token_is_authorised in Hr as Ha.
  destruct Ha
    as (_ & _ & issuer & signed & registered & user & target & at_ & ha & hs & hi & -> & _ & _ & _ & Hfrom).
  exists issuer, registered, user, target, at_, ha, hs, hi. split; [reflexivity|exact Hfrom].
Defined.

Definition sample_admin (expected : string) : prog jwt_call (option reply) :=
  let* token := mint_module_jwt here "sheets" 7 60 (Some "module_admin"%string) (Some ["admin:sheets"]%string)
                  (Some "zeler-app"%string) None in
  authorize_module_admin (verify_module_jwt here) (bearer_header token) expected (VInt 7).

Lemma admin_token_opens_one_module_witness :
  match (run (H0 := Jwt.toy_run) (sample_admin "sheets") jwt_world).2 with
  | Ok None => "sheets" = "sheets"%string | _ => False end /\
  match (run (H0 := Jwt.toy_run) (sample_admin "repricer") jwt_world).2 with
  | Ok (Some refusal) => rp_status refusal = 401 \/ rp_status refusal = 403 | _ => False end.
Proof.
  assert (Hm : "sheets"%string <> EmptyString) by discriminate.
  assert (Hs : ["admin:sheets"%string] <> []) by discriminate.
  pose proof (fun x => wp_run Jwt.toy_sound (fun _ => eq_refl) _ _ _
    (admin_token_opens_one_module "sheets" 7 60 ["admin:sheets"]%string "zeler-app" None x (VInt 7) jwt_world Hm Hs eq_refl (or_introl eq_refl))) as Hw.
  split.
  - assert (Hok : match (run (H0 := Jwt.toy_run) (sample_admin "sheets") jwt_world).2 with Ok None => true | _ => false end = true)
      by (vm_compute; reflexivity).
    specialize (Hw "sheets"%string). fold (sample_admin "sheets") in Hw.
    destruct (run (sample_admin "sheets") jwt_world).2 as [[r|]|e]; [discriminate Hok|exact (proj1 Hw)|discriminate Hok].
  - assert (Hok : match (run (H0 := Jwt.toy_run) (sample_admin "repricer") jwt_world).2 with Ok (Some _) => true | _ => false end = true)
      by (vm_compute; reflexivity).
    specialize (Hw "repricer"%string). fold (sample_admin "repricer") in Hw.
    destruct (run (sample_admin "repricer") jwt_world).2 as [[r|]|e]; [|discriminate Hok..].
    destruct Hw as [[Hw _]|[Hw _]]; [left|right]; exact Hw.
Defined.
End Example.
