(* ===== verification/HistorySpend.v ===== *)
(** The work credit of a receipt is spent at most once, all or nothing. *)

From S2P Require Export HistoryLedger.

#[local] Open Scope Z_scope.

Section Transactions.
Context {E : Type -> Type} {S : Type} `{MongoConf} `{ExtSpec E S}.
Implicit Types w : world S.

Definition snap_same w w' : Prop := w_snap w' = w_snap w.
Lemma within_snap {A} cols (p : prog E A) : within cols p -> guarded (S := S) snap_same p.
Proof.
  apply within_guarded. intros X o w w' r Ho Hop. unfold snap_same. destruct o; simpl in *; try done.
  - by destruct Hop as (_ & Hs & _).
  - by destruct Hop as [(_ & Hs & _) _].
  - by destruct Hop as [(_ & Hs & _) _].
  - by destruct Hop as [(_ & Hs & _) _].
Qed.

(** A transaction keeps all the writes of its body or none; only one that
    returns is known to have kept them. *)
Lemma wp_transaction {A} cols (p : prog E A) (Q : world S -> result A -> Prop) w :
  within cols p ->
  (forall w0, w_db w0 = w_db w -> w_ext w0 = w_ext w ->
     wp p (fun w1 r => match r with
       | Ok a => forall w', w_db w' = w_db w1 -> w_ext w' = w_ext w1 -> Q w' (Ok a) /\ Q w' auto_reconnect
       | Err e => forall w', w_db w' = w_db w -> w_ext w' = w_ext w1 -> Q w' (Err e)
       end) w0) ->
  (forall w' e, w_db w' = w_db w -> isinstance e "PyMongoError" = true -> Q w' (Err e)) ->
  wp (transaction p) Q w.
Proof.
  intros Hin Hp Hc. unfold transaction. apply wp_bind, wp_perform. intros w0 r (He0 & _ & Hdb0 & Hs0 & ->).
  apply wp_bind, wp_attempt. eapply wp_mono.
  { apply wp_and; [by apply Hp|]. apply (guarded_wp snap_same); [done| |by eapply within_snap].
    unfold snap_same. congruence. }
  intros w1 r [Hr Hs1]. unfold snap_same in Hs1. destruct r as [a|e].
  - apply wp_bind, wp_perform. intros w2 r (He2 & _ & _ & [[Hdb [-> | ->]]|[Hdb [-> | ->]]]).
    + simpl. by apply Hr.
    + simpl. by apply Hr.
    + apply Hc; [|done]. rewrite Hdb, Hs1, Hs0. done.
    + apply Hc; [|done]. rewrite Hdb, Hs1, Hs0. done.
  - apply wp_bind, wp_perform. intros w2 r (He2 & _ & Hdb & _ & ->). simpl. apply Hr; [|done].
    rewrite Hdb, Hs1, Hs0. done.
Qed.
End Transactions.

Definition work_cols : list string := ["webhook_events"; "processed_event_claims"; "sheets_sync_jobs"]%string.

Section Spend.
Context {E : Type -> Type} {S : Type} `{PyRepr} `{MongoConf} `{ExtSpec E S}.
Implicit Types w : world S.

Lemma within_validate r current in_session touch :
  within work_cols (validate_history_work_receipt (E := E) r current in_session touch).
Proof.
  unfold validate_history_work_receipt, check_claim, check_job, touch_fence.
  apply within_bind; [apply within_of_result|]. intros [identity job].
  apply within_bind; [apply within_mongo; simpl; auto|]. intros [event|]; [|done].
  do 3 (apply within_bind; [apply within_of_result|intros _]). apply within_bind; [|intros _].
  { apply within_bind; [apply within_mongo; simpl; auto|]. intros [claim|]; [|done].
    apply within_bind; [apply within_of_result|]. intros _. apply within_of_result. }
  apply within_bind; [|intros _].
  { destruct job; [|done]. apply within_bind; [apply within_mongo; simpl; auto|]. intros [stored|]; [|done].
    repeat (apply within_bind; [apply within_of_result|intros ?]). apply within_of_result. }
  apply within_bind; [|done]. destruct touch; [|done]. apply within_bind; [|intros _].
  - apply within_bind; [apply within_mongo; simpl; auto|]. by intros [|].
  - destruct job; [|done]. apply within_bind; [apply within_mongo; simpl; auto|]. by intros [|].
Qed.

(** The only errors of the receipt's checks. *)
Definition wait_or_lost (e : exn) : Prop := e = work_wait \/ isinstance e "PyMongoError" = true.

Lemma mongo_errors {X} now (m : mongo_op X) db db' e : mongo_spec now m db db' (Err e) -> isinstance e "PyMongoError" = true.
Proof.
  assert (Hst : forall Y c i d (x : Y), stores db c i d x db' (Err e) -> isinstance e "PyMongoError" = true).
  { unfold stores. intros Y c i d x. destruct (unique_ok _ _ _ _); by intros [_ [= ->]]. }
  assert (Hup : forall Y c i d u (x : doc -> Y), updates now db c i d u x db' (Err e) -> isinstance e "PyMongoError" = true).
  { unfold updates. intros Y c i d u x. destruct (apply_update _ _ _ _); [|by intros [_ [= ->]]].
    destruct (decide _); [apply Hst|by intros [_ [= ->]]]. }
  assert (Hin : forall Y c d (x : doc -> Y), inserts db c d x db' (Err e) -> isinstance e "PyMongoError" = true).
  { unfold inserts. intros Y c [d|] x; [|by intros [_ [= ->]]]. destruct (doc_id d).
    - destruct (is_some _); [by intros [_ [= ->]]|apply Hst].
    - intros (i & _ & Hs). by eapply Hst. }
  intros [Hm|[[= ->] _]]; [|done]. destruct m; cbn [mongo_ok] in Hm.
  - by destruct Hm as [_ [[_ ?]|(? & ? & _ & _ & ?)]].
  - by destruct Hm as (_ & ? & _ & _ & ?).
  - by destruct Hm as (_ & ? & _ & _ & ?).
  - by eapply Hin.
  - destruct Hm as [(i & d & _ & Hm)|[_ Hm]]; [by eapply Hup|]. destruct upsert; [by eapply Hin|by destruct Hm].
  - destruct Hm as [(n & k & ? & _)|(_ & _ & [= ->])]; done.
  - destruct Hm as [(i & d & _ & Hm)|[_ Hm]]; [by eapply Hup|]. destruct upsert; [by eapply Hin|by destruct Hm].
  - destruct Hm as [(i & d0 & _ & Hm)|[_ Hm]]; [by eapply Hst|]. destruct upsert; [by eapply Hin|by destruct Hm].
  - destruct Hm as [(i & d & _ & _ & ?)|(_ & _ & ?)]; done.
Qed.

(** Programs that raise nothing but [work_wait] and the driver's errors. *)
Definition waits {A} (p : prog E A) : Prop :=
  forall w, wp (S := S) p (fun _ r => match r with Err e => wait_or_lost e | Ok _ => True end) w.

Lemma waits_bind {A B} (p : prog E A) (k : A -> prog E B) : waits p -> (forall a, waits (k a)) -> waits (bind p k).
Proof using Type. intros Hp Hk w. apply wp_bind. eapply wp_mono; [apply Hp|]. intros w' [a|e] Hr; [apply Hk|done]. Qed.
Lemma waits_mongo {X} (m : mongo_op X) : waits (mongo m).
Proof using Type.
  intros w. apply wp_perform. intros w' [x|e] (Hm & _); [done|]. right. by eapply mongo_errors.
Qed.
Definition only_waits {A} (r : result A) : Prop := match r with Err e => e = work_wait | Ok _ => True end.
Lemma waits_of_result {A} (r : result A) : only_waits r -> waits (of_result r).
Proof using Type. intros Hr w. destruct r as [a|e]; simpl in *; [done|by left]. Qed.
Lemma waits_ret {A} (a : A) : waits (Ret a).
Proof using Type. done. Qed.
Lemma waits_wait {A} : waits (Raise (A := A) work_wait).
Proof using Type. intros w. by left. Qed.

Lemma only_unless b : only_waits (work_unless b).
Proof. by destruct b. Qed.
Lemma only_bind {A B} (r : result A) (k : A -> result B) :
  only_waits r -> (forall a, only_waits (k a)) -> only_waits (result_bind r k).
Proof. destruct r; simpl; auto. Qed.
Lemma only_utc v : only_waits (_utc v).
Proof. by destruct v. Qed.
Lemma only_live d f t : only_waits (live_until d f t).
Proof. apply only_bind; [apply only_utc|]. intros x. apply only_unless. Qed.
Lemma only_each {A} (f : A -> result unit) l : (forall x, only_waits (f x)) -> only_waits (each f l).
Proof. intros Hf. induction l as [|x l IH]; [done|]. simpl. by apply only_bind. Qed.
Lemma only_wellformed r : only_waits (receipt_wellformed r).
Proof.
  unfold receipt_wellformed. apply only_bind; [apply only_each; intros; apply only_unless|]. intros _.
  do 4 (apply only_bind; [apply only_unless|intros _]). destruct (doc_get r "claim_identity"); try done.
  do 2 (apply only_bind; [apply only_unless|intros _]). destruct (doc_get r "job_identity"); try done.
  by apply only_bind; [apply only_unless|].
Qed.
Lemma only_receipt plan work_id source phase path seller : only_waits (stored_receipt plan work_id source phase path seller).
Proof.
  unfold stored_receipt. destruct plan as [plan|]; [|done]. destruct (doc_get plan _); try done.
  destruct (doc_get _ work_id); try done. by apply only_bind; [apply only_unless|].
Qed.
#[local] Hint Resolve waits_mongo waits_ret waits_wait only_unless only_utc only_live only_wellformed only_receipt : zeler.
#[local] Hint Resolve waits_of_result : zeler.

Lemma waits_validate r current in_session touch : waits (validate_history_work_receipt r current in_session touch).
Proof using Type.
  unfold validate_history_work_receipt, check_claim, check_job, touch_fence.
  repeat first [ solve [auto with zeler] | apply waits_bind; [|intros ?] | case_match ].
Qed.

(** Spending changes the plan at one place: the credit goes from unspent to spent. *)
Definition work_ledger_path (execution source phase work_id : string) (p : path) : Prop :=
  p = ["execution_sent"%string] \/ p = ["execution_consumed"%string] \/
  p = work_field work_id "sent" \/ p = work_field work_id "credit" \/ p = work_sent_path execution source phase.

Record spent (execution source phase work_id : string) (d d' : doc) : Prop := {
  sp_unspent : counter_at d (work_field work_id "sent") = 0;
  sp_spent : counter_at d' (work_field work_id "sent") = 1;
  sp_credit : counter_at d' (work_field work_id "credit") = 1;
  sp_sends : counter_at d' ["execution_sent"%string] = counter_at d ["execution_sent"%string] + 1;
  sp_prepaid : counter_at d' ["execution_sent"%string] <= counter_at d' ["execution_consumed"%string];
}.

Lemma inc_counter now ins p d d' :
  plain d p -> apply_upd now ins (UInc p 1) d = Some d' ->
  counter_at d' p = counter_at d p + 1 /\
  forall q, ~ p `prefix_of` q -> ~ q `prefix_of` p -> counter_at d' q = counter_at d q /\ (plain d q -> plain d' q).
Proof using Type.
  intros Hp Ha. cbn [apply_upd] in Ha. destruct (path_alter_same _ _ _ _ Ha) as (v & Hv & Hg & _). split.
  - unfold counter_at. rewrite Hg. destruct Hp as [[_ Hn]|(z & _ & Hs)].
    + rewrite Hn in *. by injection Hv as <-.
    + rewrite Hs in *. destruct (int64_ok _); [|done]. by injection Hv as <-.
  - intros q Hpq Hqp. unfold counter_at, plain.
    rewrite (path_alter_other _ _ _ _ _ Ha Hpq Hqp), (path_vals_other _ _ _ _ _ Ha Hpq Hqp). done.
Qed.

Lemma work_apart execution source phase work_id p q :
  work_ledger_path execution source phase work_id p -> work_ledger_path execution source phase work_id q -> p <> q ->
  ~ p `prefix_of` q.
Proof using Type.
  unfold work_ledger_path. intros Hp Hq Hne [r Hr]. apply Hne.
  destruct Hp as [->|[->|[->|[->| ->]]]], Hq as [->|[->|[->|[->| ->]]]];
    unfold work_field, work_sent_path in *; simpl in Hr; by simplify_eq.
Qed.

Lemma work_send_spends now seller execution source phase work_id t d d' :
  (forall p, work_ledger_path execution source phase work_id p -> plain d p) ->
  matches now (work_send_query seller execution source phase work_id t) d = true ->
  apply_update now false (work_send_update execution source phase work_id) d = Some d' ->
  spent execution source phase work_id d d'.
Proof using Type.
  intros Ht Hm Ha. unfold work_send_query in Hm. cbn [matches forallb] in Hm. rewrite !andb_true_iff in Hm.
  destruct Hm as (_ & _ & _ & _ & _ & _ & _ & _ & Hci & _ & _ & _ & _ & _ & _ & Hcr & _ & Hse & _ & _ & _ & Hlt & _).
  set (path_ok := work_ledger_path execution source phase work_id) in *.
  assert (P1 : path_ok ["execution_sent"%string]) by by left.
  assert (P2 : path_ok ["execution_consumed"%string]) by (right; by left).
  assert (P3 : path_ok (work_field work_id "sent")) by (do 2 right; by left).
  assert (P4 : path_ok (work_field work_id "credit")) by (do 3 right; by left).
  assert (P5 : path_ok (work_sent_path execution source phase)) by by do 4 right.
  assert (Hap : forall p q, path_ok p -> path_ok q -> p <> q -> ~ p `prefix_of` q /\ ~ q `prefix_of` p)
    by (intros p q Hp Hq Hne; split; eapply work_apart; eauto).
  pose proof (plain_int now _ _ (Ht _ P2) Hci) as Hc.
  eapply expr_lt in Hlt; [|apply ifnull_counter, Ht, P1|exact Hc].
  destruct (plain_eq now _ _ _ (Ht _ P4) Hcr) as [_ Hcredit]. destruct (plain_eq now _ _ _ (Ht _ P3) Hse) as [_ Hsent].
  cbn [work_send_update apply_update apply_upds] in Ha. apply bind_Some in Ha as (d1 & Hd1 & Ha).
  apply bind_Some in Ha as (d2 & Hd2 & Ha). apply bind_Some in Ha as (d3 & Hd3 & [= <-]).
  destruct (inc_counter _ _ _ _ _ (Ht _ P1) Hd1) as [Hs1 Ho1].
  assert (Hf1 : forall q, path_ok q -> q <> ["execution_sent"%string] -> counter_at d1 q = counter_at d q /\ plain d1 q).
  { intros q Hq Hne. destruct (Hap _ _ P1 Hq) as [A B]; [congruence|]. destruct (Ho1 q A B) as [C D]. split; [done|by apply D, Ht]. }
  destruct (inc_counter _ _ _ _ _ (proj2 (Hf1 _ P5 ltac:(done))) Hd2) as [Hs2 Ho2].
  assert (Hf2 : forall q, path_ok q -> q <> work_sent_path execution source phase ->
    counter_at d2 q = counter_at d1 q /\ (plain d1 q -> plain d2 q)).
  { intros q Hq Hne. destruct (Hap _ _ P5 Hq) as [A B]; [congruence|]. by apply Ho2. }
  destruct (inc_counter _ _ _ _ _ (proj2 (Hf2 _ P3 ltac:(done)) (proj2 (Hf1 _ P3 ltac:(done)))) Hd3) as [Hs3 Ho3].
  assert (Hf3 : forall q, path_ok q -> q <> work_field work_id "sent" -> counter_at d3 q = counter_at d2 q).
  { intros q Hq Hne. destruct (Hap _ _ P3 Hq) as [A B]; [congruence|]. by apply Ho3. }
  assert (Hkeep : forall q, path_ok q -> q <> ["execution_sent"%string] -> q <> work_sent_path execution source phase ->
    q <> work_field work_id "sent" -> counter_at d3 q = counter_at d q).
  { intros q Hq H1' H2' H3'. rewrite Hf3, (proj1 (Hf2 q Hq H2')), (proj1 (Hf1 q Hq H1')) by done. done. }
  assert (Hsends : counter_at d3 ["execution_sent"%string] = counter_at d ["execution_sent"%string] + 1).
  { rewrite Hf3, (proj1 (Hf2 _ P1 ltac:(done))) by done. done. }
  constructor; [done| | |done|].
  - rewrite Hs3, (proj1 (Hf2 _ P3 ltac:(done))), (proj1 (Hf1 _ P3 ltac:(done))), Hsent. done.
  - by rewrite (Hkeep _ P4).
  - rewrite Hsends, (Hkeep _ P2) by done. lia.
Qed.

(** The stored plan moved from the credit unspent to spent. *)
Definition credit_spent (seller execution source phase work_id : string) (db db' : database) (d' : doc) : Prop :=
  exists d, db !! (PLAN_COLLECTION, seller) = Some d /\ db' !! (PLAN_COLLECTION, seller) = Some d' /\
    spent execution source phase work_id d d'.

(** C22: one work credit funds one send.  A reservation under a work receipt
    that returns moved the stored plan from the credit unspent to spent, with
    one more send within what was consumed, so a second one cannot follow; one
    that does not return raises only the wait error, and has left the store as
    it was, or spent the credit whole when the commit lost its reply. *)
Theorem work_credit_spent_once seller execution source phase work_id path now w :
  db_wf (w_db w) ->
  (forall d p, w_db w !! (PLAN_COLLECTION, seller) = Some d ->
     work_ledger_path execution source phase work_id p -> plain d p) ->
  wp (reserve_history_work_send seller execution source phase work_id path now)
    (fun w' r => match r with
       | Ok plan => exists d', plan = dec d' /\ credit_spent seller execution source phase work_id (w_db w) (w_db w') d'
       | Err e => e = work_wait /\ (w_db w' = w_db w \/
           exists d', credit_spent seller execution source phase work_id (w_db w) (w_db w') d')
       end) w.
Proof using Type.
  intros Hwf Hplain. unfold reserve_history_work_send. apply wp_bind, wp_of_result.
  destruct (work_unless _) as [u|e] eqn:Hu.
  2: { pose proof (only_unless (String.eqb phase "maintenance" && hex32 work_id)) as Ho. rewrite Hu in Ho. simpl in Ho. split; [done|by left]. }
  apply wp_catch. eapply (wp_mono _ (fun w' r => match r with
       | Ok plan => exists d', plan = dec d' /\ credit_spent seller execution source phase work_id (w_db w) (w_db w') d'
       | Err e => wait_or_lost e /\ (w_db w' = w_db w \/
           exists d', credit_spent seller execution source phase work_id (w_db w) (w_db w') d')
       end)).
  2: { intros w' [plan|e]; [done|]. intros [[->|Hl] Hdb]; [done|]. by rewrite Hl. }
  assert (Hin : within (PLAN_COLLECTION :: work_cols) (spend_work (E := E) seller execution source phase work_id path now)).
  { unfold spend_work. apply within_bind; [apply within_mongo; by left|]. intros plan.
    apply within_bind; [apply within_of_result|]. intros r. apply within_bind.
    { pose proof (within_validate r now true true) as Hv. revert Hv. generalize (validate_history_work_receipt (E := E) r now true true).
      intros p Hv. clear -Hv. induction p as [|e|X o k IH]; [done..|]. destruct Hv as [Ho Hk]. split; [|intros x; apply IH, Hk].
      destruct o; try done. by right. }
    intros _. apply within_bind; [apply within_mongo; by left|]. by intros [|]. }
  eapply wp_transaction; [exact Hin| |intros; split; [by right|by left]].
  intros w0 Hdb0 _. unfold spend_work.
  apply wp_mongo; [|by intros w1 _ _ w' Hw' _; split; [by right|by left]]. intros w1 r Hm1 _.
  destruct Hm1 as [Hdb1 Hr]. destruct r as [plan|e]; [|by destruct Hr as [[_ ?]|(? & ? & _ & _ & ?)]].
  apply wp_bind, wp_of_result. destruct (stored_receipt _ _ _ _ _ _) as [rc|e] eqn:Hrc.
  2: { intros w' Hw' _. split; [|by left]. left. pose proof (only_receipt plan work_id source phase path seller) as Ho. by rewrite Hrc in Ho. }
  apply wp_bind. eapply wp_mono.
  { apply wp_and; [apply waits_validate|]. apply (wp_calm PLAN_COLLECTION). eapply within_calm; [apply within_validate|].
    unfold work_cols. simpl. intuition discriminate. }
  intros w2 r [Hwait [_ Hcalm]]. destruct r as [intent|e]; [|intros w' Hw' _; split; [done|by left]].
  assert (Hslot : w_db w2 !! (PLAN_COLLECTION, seller) = w_db w !! (PLAN_COLLECTION, seller)) by (by rewrite Hcalm, Hdb1, Hdb0).
  apply wp_mongo; [|by intros w3 _ _ w' Hw' _; split; [by right|by left]]. intros w3 r Hm3 _.
  destruct r as [[plan'|]|e].
  - assert (Hsp : exists d', plan' = dec d' /\ credit_spent seller execution source phase work_id (w_db w) (w_db w3) d').
    { destruct Hm3 as [(j & d & [Hd Hsel] & Hup)|[_ [_ [=]]]].
      rewrite Hcalm, Hdb1, Hdb0 in Hd. assert (j = seller) as -> by (by eapply (keyed_and seller); [exact Hsel|eapply Hwf]).
      unfold updates in Hup. destruct (apply_update _ _ _ _) as [d'|] eqn:Ha; [|by destruct Hup].
      destruct (decide _); [|by destruct Hup]. unfold stores in Hup. destruct (unique_ok _ _ _ _); [|by destruct Hup].
      destruct Hup as [Hdb3 [= ->]]. exists d'. split; [done|]. exists d. split; [done|]. split; [by rewrite Hdb3, lookup_insert_eq|].
      eapply work_send_spends; [|exact Hsel|exact Ha]. intros p. by apply Hplain. }
    destruct Hsp as (d' & -> & d & Hd & Hd' & Hs). intros w' Hw' _. split.
    + exists d'. split; [done|]. exists d. by rewrite Hw'.
    + split; [by right|]. right. exists d', d. by rewrite Hw'.
  - intros w' Hw' _. split; [by left|by left].
  - intros w' Hw' _. split; [right; eapply mongo_errors; left; exact Hm3|by left].
Qed.
End Spend.

(** ** A run on the reference server *)

Section Example.
#[local] Instance no_repr : PyRepr := fun _ => EmptyString.
#[local] Instance aware : MongoConf := aware_conf.
Definition hex_a : string := "0123456789abcdef0123456789abcdef".
Definition hex_b : string := "fedcba9876543210fedcba9876543210".
Definition work_key : string := processing_key None "orders_v2" "/orders/55" "ev1".
Definition work_receipt : doc := <["credit"%string := VInt 1]> (<["sent"%string := VInt 0]>
  (receipt_doc "ev1" "7" "orders.updated" "/orders/55" "orders" "/orders/55"
    (mk_doc [("processing_key", VStr work_key); ("module_id", VStr "sheets"); ("consumer_id", VStr CONSUMER);
             ("owner_token", VStr hex_a)]%string) None)).
Definition work_plan : doc := mk_doc
  [("_id", VStr "7"); ("seller_id", VStr "7"); ("policy_version", VStr POLICY_VERSION);
   ("authority", VDict (mk_doc [("kind", VStr "account_link_policy")])); ("execution_id", VStr hex_b);
   ("state", VStr "active"); ("eligible", VBool true); ("sources", VList [VStr "orders"]);
   ("execution_consumed", VInt 2); ("execution_until", VDate true day); ("execution_utc_day", VStr (iso_day hour));
   ("execution_attempt_limit", VInt 5); ("execution_work", VDict (mk_doc [(hex_a, VDict work_receipt)]))]%string.
Definition work_db : database := list_to_map
  [((PLAN_COLLECTION, "7"), work_plan);
   (("webhook_events", "ev1"), mk_doc [("_id", VStr "ev1"); ("user_id", VStr "7"); ("topic", VStr "orders_v2");
      ("resource", VStr "/orders/55")]);
   (("processed_event_claims", scoped_processed_event_id work_key CONSUMER),
     mk_doc (("expires_at", VDate true day) :: claim_fields work_key hex_a))]%string.
Definition work_world : world unit := World work_db hour None tt.
Definition work_send : prog noE doc := reserve_history_work_send "7" hex_b "orders" "maintenance" hex_a "/orders/55" hour.

Example credit_is_spent_once :
  (match (run work_send work_world).2 with Ok plan => path_get ["execution_work"; hex_a; "sent"]%string (VDict plan) | Err _ => None end) = Some (VInt 1) /\
  (run (do* work_send in work_send) work_world).2 = Err work_wait.
Proof. split; by vm_compute. Qed.

Lemma work_plan_plain d p :
  w_db work_world !! (PLAN_COLLECTION, "7"%string) = Some d ->
  work_ledger_path hex_b "orders" "maintenance" hex_a p -> plain d p.
Proof.
  intros Hd. assert (d = work_plan) as ->.
  { assert (Hl : w_db work_world !! (PLAN_COLLECTION, "7"%string) = Some work_plan) by by apply lookup_insert_eq. congruence. }
  intros [->|[->|[->|[->| ->]]]]; 
    [left|right; exists 2|right; exists 0|right; exists 1|left]; split; vm_compute; reflexivity.
Qed.

Lemma work_credit_spent_once_witness :
  exists plan, (run work_send work_world).2 = Ok plan /\
    exists d', plan = dec d' /\
      credit_spent "7" hex_b "orders" "maintenance" hex_a work_db (w_db (run work_send work_world).1) d'.
Proof.
  assert (Hok : match (run work_send work_world).2 with Ok _ => true | Err _ => false end = true) by (vm_compute; reflexivity).
  assert (Hw := wp_run noE_run_ext noE_run_uuid work_send _ work_world
    (work_credit_spent_once "7" hex_b "orders" "maintenance" hex_a "/orders/55" hour
      work_world ltac:(apply db_wfb_ok; by vm_compute) work_plan_plain)).
  destruct (run work_send work_world) as [w' [plan|e]]; [|discriminate Hok].
  exists plan. split; [reflexivity|exact Hw].
Defined.
End Example.
