(* ===== verification/BootstrapState.v ===== *)
(** The bootstrap job's state machine: [BootstrapStateMachine] of
    bootstrap/src/zeler_bootstrap/state_machine.py over [bootstrap_jobs]. *)

From S2P Require Export PyRe Concurrency.

(** ** Redaction of error texts *)

Definition is_token_char (c : ascii) : bool := is_alpha c || is_digit c || char_of "._-" c.
Definition is_b64_char (c : ascii) : bool := is_alpha c || is_digit c || char_of "_-" c.
Definition not_space (c : ascii) : bool := negb (is_space c).

Definition _REDACTION_PATTERNS : list (list re_atom * (string -> string)) := [
  (re_lit_nocase "bearer" ++ [Many is_space 1 None; Many is_token_char 1 None],
   fun _ => "Bearer ***"%string);
  ([once (char_in 97 122); Many (fun c => char_in 97 122 c || is_digit c || char_of "+.-" c) 0 None]
   ++ re_lit "://" ++ [Mark;
   Many (fun c => not_space c && negb (char_of "/:@" c)) 1 None; chr ":";
   Many (fun c => not_space c && negb (char_of "/@" c)) 1 None; chr "@"],
   fun g => (g ++ "***@")%string);
  ([WordB] ++ re_lit "eyJ" ++ [Many is_b64_char 1 None; chr "."; Many is_b64_char 1 None; chr ".";
   Many is_b64_char 1 None; WordB], fun _ => "***"%string);
  ([WordB; Many (fun c => is_b64_char c || char_of "+/" c) 40 None; Many (Ascii.eqb "=") 0 (Some 2%nat); WordB],
   fun _ => "***"%string);
  (re_lit_nocase "BOOTSTRAP_GATEWAY_TOKEN=" ++ [Many not_space 1 None],
   fun _ => "BOOTSTRAP_GATEWAY_TOKEN=***"%string)].

Definition _redact_error (text : string) : string :=
  string_take 1024 (foldl (fun redacted pr => re_sub pr.1 pr.2 redacted) text _REDACTION_PATTERNS).

Example redact_bearer :
  _redact_error "RuntimeError: bearer abc.DEF-1 at mongodb+srv://u:p@host/db" =
  "RuntimeError: Bearer *** at mongodb+srv://***@host/db"%string.
Proof. vm_compute. reflexivity. Qed.

(** [f"{type(error).__name__}: {error}"]. *)
Definition describe_error (error : exn) : string := (exn_cls error ++ ": " ++ exn_msg error)%string.

(** ** Operations *)

Definition ALLOWED_TRANSITIONS : list (string * list string) := [
  ("pending", ["running"; "cancelled"]);
  ("running", ["paused"; "succeeded"; "failed"; "cancelled"]);
  ("paused", ["running"; "cancelled"]);
  ("failed", ["pending"; "cancelled"]);
  ("succeeded", []);
  ("cancelled", [])]%string.

Definition assoc {A} (k : string) (l : list (string * A)) : option A :=
  match List.find (fun kv => String.eqb kv.1 k) l with Some kv => Some kv.2 | None => None end.

Definition invalid_transition {A} (msg : string) : result A := Err (mk_exn "InvalidTransitionError" msg).

Section Machine.
Context {E : Type -> Type} `{PyRepr}.
Variable job_id : string.

Definition jobs : string := "bootstrap_jobs".

Definition load : prog E doc :=
  let* document := mongo (MFindOne jobs (FEq ["_id"] (VStr job_id)) []) in
  match document with
  | None => Raise (mk_exn "KeyError" ("bootstrap job not found: " ++ job_id))
  | Some document => Ret document
  end.

(** The [$set] and [$inc] of a transition. *)
Definition transition_update (current : doc) (new_state : string) (error : option exn) (now : Z) : update :=
  UOps ([USet ["state"] (VStr new_state); USet ["updated_at"] (VDate true now)]
    ++ (if String.eqb new_state "running" && is_none (doc_get current "started_at")
        then [USet ["started_at"] (VDate true now)] else [])
    ++ (if string_in new_state ["succeeded"; "failed"; "cancelled"]%string
        then [USet ["finished_at"] (VDate true now)] else [])
    ++ (if String.eqb new_state "failed" then
          USet ["failed_at"] (VDate true now) ::
          match error with
          | Some error => [USet ["last_error"] (VStr (_redact_error (describe_error error)))]
          | None => []
          end
        else [])
    ++ (if String.eqb new_state "running" then [UInc ["attempt_count"] 1] else [])).

Definition transition (new_state : string) (error : option exn) : prog E doc :=
  let* current := load in
  let* state := of_result (doc_at current "state") in
  let current_state := py_str state in
  match assoc current_state ALLOWED_TRANSITIONS with
  | None => of_result (raise_key current_state)
  | Some allowed =>
      if negb (string_in new_state allowed) then
        of_result (invalid_transition ("invalid bootstrap transition: " ++ current_state ++ " -> " ++ new_state))
      else
        let* now := now_utc in
        let* updated :=
          mongo (MFindOneAndUpdate jobs
                   (FAnd [FEq ["_id"] (VStr job_id); FEq ["state"] (VStr current_state)])
                   (transition_update current new_state error now) false false) in
        match updated with
        | None => of_result (invalid_transition ("bootstrap transition raced: " ++ current_state ++ " -> " ++ new_state))
        | Some updated => Ret updated
        end
  end.

Definition requeue_filter (max_attempts : Z) : filter :=
  FAnd [FEq ["_id"] (VStr job_id); FIn ["state"] [VStr "failed"; VStr "pending"];
        FExpr (ALt (AIfNull (AField ["attempt_count"]) (ALit (VInt 0))) (ALit (VInt max_attempts)))].

Definition requeue_for_retry (max_attempts : Z) : prog E doc :=
  let* now := now_utc in
  let* updated :=
    mongo (MFindOneAndUpdate jobs (requeue_filter max_attempts)
             (UOps [USet ["state"] (VStr "pending"); USet ["updated_at"] (VDate true now)]) false false) in
  match updated with
  | None => Raise (mk_exn "IllegalTransition" ("cannot requeue bootstrap job for retry: " ++ job_id))
  | Some updated => Ret updated
  end.

(** A stage name becomes part of a field path, split at its dots. *)
Definition update_cursor (stage : string) (cursor_data : doc) : prog E doc :=
  let* now := now_utc in
  let* updated :=
    mongo (MFindOneAndUpdate jobs
             (FAnd [FEq ["_id"] (VStr job_id); FIn ["state"] [VStr "running"; VStr "paused"; VStr "failed"]])
             (UOps [USet ["current_stage"] (VStr stage);
                    USet ("checkpoints" :: split_dots stage) (VDict cursor_data);
                    USet ["updated_at"] (VDate true now)]) false false) in
  match updated with
  | None => of_result (invalid_transition ("cannot update cursor unless job is active: " ++ job_id))
  | Some updated => Ret updated
  end.

Definition mark_stage_done (stage : string) : prog E doc :=
  let* now := now_utc in
  let* updated :=
    mongo (MFindOneAndUpdate jobs
             (FAnd [FEq ["_id"] (VStr job_id); FEq ["state"] (VStr "running")])
             (UOps [USet ("dag" :: split_dots stage) (VStr "done");
                    USet ["current_stage"] (VStr stage);
                    USet ["updated_at"] (VDate true now)]) false false) in
  match updated with
  | None => of_result (invalid_transition ("cannot mark stage done unless job is running: " ++ job_id))
  | Some updated => Ret updated
  end.
End Machine.
