(* ===== verification/BootstrapDispatch.v ===== *)
(** Dispatch of bootstrap jobs: the consumer of linked-account events, the
    dispatcher and its Cloud Run client (accounts_consumer.py, dispatcher.py and
    cloud_run_jobs_client.py of bootstrap/src/zeler_bootstrap). *)

From S2P Require Export Broker BootstrapState Retry.

#[local] Open Scope Z_scope.

(** ** The Cloud Run client *)

(** Google's credentials (the token they produce) and the HTTP client. *)
Inductive cloud_call : Type -> Type :=
| CToken : cloud_call val
| CPost (url token : string) (args : list string) : cloud_call response.
Abbreviation dispatching := (prog (amqp cloud_call)).
Definition cloud {X : Type} (c : cloud_call X) : dispatching X := ext (AService c).

Record cloud_config := { cr_project : string; cr_location : string; cr_job_name : string }.

Section Dispatch.
Context `{PyRepr} `{PyJson}.
Variable config : cloud_config.
Variable max_concurrent max_attempts : Z.
Variable retry_delay : Z. (* microseconds *)

Definition _access_token : dispatching string :=
  let* token := cloud CToken in
  match token with
  | VStr token => Ret token
  | _ => of_result (raise_value "Google credentials did not produce an access token")
  end.

(** [response.raise_for_status()]. *)
Definition is_success (r : response) : bool := (200 <=? rs_status r) && (rs_status r <? 300).
Definition raise_for_status (r : response) : result unit :=
  check! is_success r else Exn "HTTPStatusError" "" [VInt (rs_status r)] in Ok tt.

Definition run_url : string :=
  ("https://run.googleapis.com/v2/projects/" ++ cr_project config ++ "/locations/" ++ cr_location config ++
   "/jobs/" ++ cr_job_name config ++ ":run")%string.
Definition run_args (seller_id job_id : string) : list string :=
  ["--seller-id=" ++ seller_id; "--job-id=" ++ job_id]%string.

(** [CloudRunJobsClient.run_job]. *)
Definition run_job (seller_id job_id : string) : dispatching string :=
  let* token := _access_token in
  let* r := cloud (CPost run_url token (run_args seller_id job_id)) in
  do* of_result (raise_for_status r) in
  let* payload := of_result (json_loads (rs_content r)) in
  match payload with
  | VDict payload =>
      match doc_get payload "name" with
      | VStr execution_name => Ret execution_name
      | _ => of_result (raise_value "Cloud Run Jobs response did not include execution name")
      end
  | _ => Raise (mk_exn "AttributeError" "object has no attribute 'get'")
  end.

(** ** The dispatcher *)

Definition locks : string := "bootstrap_dispatcher_locks".
Definition counter : filter := FEq ["_id"%string] (VStr "counter").
Definition lease (now : Z) : list upd :=
  [USet ["acquired_at"%string] (VDate true now); USet ["expires_at"%string] (VDate true (now + 60 * second))].

Definition _acquire_lock : dispatching bool :=
  let* now := now_utc in
  let* current := mongo (MFindOne locks counter []) in
  match current with
  | None =>
      do* mongo (MFindOneAndUpdate locks counter
            (UOps (USet ["holder_id"%string] (VStr "global") :: lease now ++
                   [USet ["schema_version"%string] (VInt 1); UInc ["count"%string] 1])) true false) in
      Ret true
  | Some current =>
      let* count := of_result (py_int (doc_get_or current "count" (VInt 0))) in
      if max_concurrent <=? count then Ret false
      else
        do* mongo (MFindOneAndUpdate locks counter (UOps (lease now ++ [UInc ["count"%string] 1])) false false) in
        Ret true
  end.

Definition _release_lock : dispatching unit :=
  let* current := mongo (MFindOne locks counter []) in
  match current with
  | None => Ret tt
  | Some current =>
      let* count := of_result (py_int (doc_get_or current "count" (VInt 0))) in
      if count <=? 0 then Ret tt
      else do* mongo (MFindOneAndUpdate locks counter (UOps [UInc ["count"%string] (-1)]) false false) in Ret tt
  end.

Definition _mark_failed (job : doc) : dispatching unit :=
  let* id := of_result (doc_at job "_id") in
  let* updated_at := now_utc in
  let* failed_at := now_utc in
  do* mongo (MUpdateOne jobs (FEq ["_id"%string] id)
        (UOps [USet ["state"] (VStr "failed"); USet ["last_error"] (VStr "max dispatch attempts exceeded");
               USet ["updated_at"] (VDate true updated_at); USet ["failed_at"] (VDate true failed_at)]%string) false) in
  Ret tt.

(** The claim of a pending job. *)
Definition claim_update (pending_job : doc) (now : Z) : update :=
  UOps [USet ["state"] (VStr "running"); USet ["updated_at"] (VDate true now);
        USet ["started_at"] (py_or (doc_get pending_job "started_at") (VDate true now));
        UInc ["dispatch_attempts"] 1; UInc ["attempt_count"] 1]%string.

(** The body of the [try]. *)
Definition claim_and_run (pending_job : doc) (seller_id job_id : string) (now : Z) : dispatching string :=
  let* id := of_result (doc_at pending_job "_id") in
  let* claim := mongo (MUpdateOne jobs (FAnd [FEq ["_id"] id; FEq ["state"] (VStr "pending")])%string
                        (claim_update pending_job now) false) in
  if negb (matched_count claim =? 1) then Ret "skipped"%string
  else do* run_job seller_id job_id in Ret "running"%string.

Definition reset_claim (pending_job : doc) : dispatching unit :=
  let* id := of_result (doc_at pending_job "_id") in
  let* now := now_utc in
  do* mongo (MUpdateOne jobs (FAnd [FEq ["_id"] id; FEq ["state"] (VStr "running")])%string
        (UOps [USet ["state"] (VStr "pending"); USet ["updated_at"] (VDate true now)])%string false) in
  Ret tt.

Definition active_filter (seller_id : string) : filter :=
  FAnd [FEq ["seller_id"] (VStr seller_id); FIn ["state"] [VStr "running"; VStr "dispatched"]]%string.
Definition pending_filter (seller_id : string) : filter :=
  FAnd [FEq ["seller_id"] (VStr seller_id); FEq ["state"] (VStr "pending")]%string.

(** From the attempts check on. *)
Definition dispatch_pending (seller_id : string) (pending_job : doc) : dispatching string :=
  let* attempts := of_result (py_int (doc_get_or pending_job "dispatch_attempts" (VInt 0))) in
  if max_attempts <=? attempts then do* _mark_failed pending_job in Ret "failed"%string
  else
    let* acquired := _acquire_lock in
    if negb acquired then Ret "backpressure"%string
    else
      let* id := of_result (doc_at pending_job "_id") in
      let* now := now_utc in
      let* outcome :=
        attempt (catch (claim_and_run pending_job seller_id (py_str id) now)
                  (fun exc => do* reset_claim pending_job in Raise exc)) in
      do* _release_lock in
      of_result outcome.

Definition handle_accounts_linked (event : doc) : dispatching string :=
  let* seller := of_result (doc_at event "seller_id") in
  let seller_id := py_str seller in
  let* active_job := mongo (MFindOne jobs (active_filter seller_id) []) in
  match active_job with
  | Some _ => Ret "skipped"%string
  | None =>
      let* pending_job := mongo (MFindOne jobs (pending_filter seller_id) []) in
      match pending_job with
      | None => Ret "skipped"%string
      | Some pending_job => dispatch_pending seller_id pending_job
      end
  end.

(** ** The consumer *)

Definition ACCOUNTS_ROUTING_KEY : string := "accounts.linked".

(** [int(s)] refuses more than 4300 digits. *)
Definition _parse_event (body : string) : result doc :=
  let! event := json_loads body in
  match event with
  | VDict event =>
      let raw_seller_id := doc_get event "seller_id" in
      let seller_id := if is_none raw_seller_id then EmptyString else py_str raw_seller_id in
      check! digits1 seller_id && Nat.leb (String.length seller_id) 4300 && (0 <? int_of_digits seller_id)
        else mk_exn "ValueError" "account-link event has invalid seller ID" in
      Ok (<["seller_id"%string := VStr seller_id]> event)
  | _ => raise_value "account-link event must be an object"
  end.

Definition _retry : dispatching unit :=
  do* (if retry_delay =? 0 then Ret tt else sleep retry_delay) in
  nack true.

(** [message.reject]: a single negative acknowledgement. *)
Abbreviation reject := nack.

Definition settle (result : string) : dispatching unit :=
  if string_in result ["running"; "skipped"]%string then ack
  else if String.eqb result "failed" then reject false
  else if String.eqb result "backpressure" then _retry
  else reject false.

Definition handle_message (m : message) : dispatching unit :=
  match _parse_event (msg_body m) with
  | Err exc => if isinstance exc "ValueError" then reject false else Raise exc
  | Ok event =>
      let* result := attempt (handle_accounts_linked event) in
      match result with
      | Err exc => _retry
      | Ok result => settle result
      end
  end.

(** A consumer process takes its messages one by one ([prefetch_count=1]). *)
Fixpoint consume_all (ms : list message) : dispatching unit :=
  match ms with
  | [] => Ret tt
  | m :: ms => do* attempt (handle_message m) in consume_all ms
  end.
End Dispatch.
