(* ===== verification/BootstrapDispatchProofs.v ===== *)
(** What the dispatch of bootstrap jobs guarantees: every Cloud Run execution
    was counted on its job first, the attempts are bounded whatever consumers
    race, and every message is settled once. *)

From S2P Require Export BootstrapDispatch.

#[local] Open Scope Z_scope.

(** ** Cloud Run, as the log of the executions started *)

(** An accepted request has started its execution, a failed one may have. *)
#[export] Instance cloud_spec : ExtSpec cloud_call (list (list string)) := fun X c =>
  match c in cloud_call X return list (list string) -> list (list string) -> result X -> Prop with
  | CToken => fun s s' r => s' = s
  | CPost _ _ args => fun s s' r => s' = s ++ [args] \/ s' = s /\ forall resp, r = Ok resp -> is_success resp = false
  end.

(** The job an execution was started for. *)
Definition started_job (args : list string) : option string :=
  match args with [_; arg] => strip_prefix "--job-id=" arg | _ => None end.
Lemma started_run_args seller job : started_job (run_args seller job) = Some job.
Proof. unfold started_job, run_args. apply strip_prefix_app. Qed.

Definition starts (job : string) (log : list (list string)) : Z :=
  Z.of_nat (length (List.filter (fun args => bool_decide (started_job args = Some job)) log)).
Lemma starts_snoc job log args :
  starts job (log ++ [args]) = starts job log + (if decide (started_job args = Some job) then 1 else 0).
Proof.
  unfold starts. rewrite List.filter_app, length_app. simpl. destruct (decide _) as [Hs|Hs].
  - rewrite bool_decide_eq_true_2 by done. simpl. lia.
  - rewrite bool_decide_eq_false_2 by done. simpl. lia.
Qed.

(** ** Attempts of the stored jobs *)

Definition dispatch_attempts (d : doc) : Z := match d !! "dispatch_attempts"%string with Some (VInt z) => z | _ => 0 end.
Definition attempts_of (db : database) (job : string) : Z := from_option dispatch_attempts 0 (db !! (jobs, job)).

Section Attempts.
Context `{MongoConf}.

(** Writes that leave the field alone. *)
Lemma attempts_stores {X} db i d d' (x : X) db' r job :
  stores db jobs i d' x db' r -> db !! (jobs, i) = Some d -> (i = job -> dispatch_attempts d' = dispatch_attempts d) ->
  attempts_of db' job = attempts_of db job.
Proof.
  unfold stores, attempts_of. intros Hs Hd Hk. destruct (unique_ok _ _ _ _); destruct Hs as [-> _]; [|done].
  destruct (decide (i = job)) as [->|Hne]; [by rewrite lookup_insert_eq, Hd; simpl; auto|].
  by rewrite lookup_insert_ne by congruence.
Qed.

Lemma attempts_update now f us db db' r job :
  Forall (fun u => upd_field u <> "dispatch_attempts"%string) us ->
  mongo_ok now (MUpdateOne jobs f (UOps us) false) db db' r -> attempts_of db' job = attempts_of db job.
Proof.
  intros Hus [(i & d & [Hd _] & Hu)|[_ [-> _]]]; [|done]. unfold updates in Hu.
  destruct (apply_update _ _ _ d) as [d'|] eqn:Ha; [|by destruct Hu as [-> _]].
  destruct (decide _); [|by destruct Hu as [-> _]]. eapply attempts_stores; [exact Hu|exact Hd|intros _].
  unfold dispatch_attempts. by rewrite (apply_update_frame _ _ _ _ _ _ Ha Hus).
Qed.

(** A claim counts one attempt. *)
Lemma claim_counts pending at_ now d d' : apply_update now false (claim_update pending at_) d = Some d' ->
  dispatch_attempts d' = dispatch_attempts d + 1.
Proof.
  unfold claim_update, apply_update, dispatch_attempts. simpl. rewrite !lookup_insert_ne by discriminate. intros Ha.
  repeat (case_match; simplify_eq/=);
    match goal with Hl : <[_ := _]> _ !! "dispatch_attempts"%string = _ |- _ => doc_simp_in Hl end; by simplify_eq.
Qed.

(** The claim of a pending job, as MongoDB answers it. *)
Lemma claim_outcome pending at_ now job db db' r :
  db_wf db ->
  mongo_ok now (MUpdateOne jobs (FAnd [FEq ["_id"] (VStr job); FEq ["state"] (VStr "pending")])%string (claim_update pending at_) false) db db' r ->
  (forall other, other <> job -> attempts_of db' other = attempts_of db other) /\
  (attempts_of db' job = attempts_of db job + 1 \/
   attempts_of db' job = attempts_of db job /\ forall u, r = Ok u -> matched_count u = 0).
Proof.
  intros Hwf Hm. apply mongo_ok_update_one with (i := job) in Hm; [|done|apply keyed_and]. unfold at_id in Hm.
  destruct (db !! (jobs, job)) as [d|] eqn:Hd; [destruct (matches _ _ d)|].
  2,3: destruct Hm as [-> ->]; split; [done|]; right; split; [done|]; by intros u [= <-].
  unfold updates in Hm. destruct (apply_update _ _ _ d) as [d'|] eqn:Ha; [destruct (decide _)|].
  2,3: destruct Hm as [-> ->]; split; [done|]; right; by split.
  split.
  - intros other Hne. eapply attempts_stores; [exact Hm|exact Hd|congruence].
  - unfold stores in Hm. destruct (unique_ok _ _ _ _); destruct Hm as [-> ->]; [left|right; by split].
    unfold attempts_of. rewrite lookup_insert_eq, Hd. simpl. by eapply claim_counts.
Qed.
End Attempts.

(** ** What a consumer holds *)

(** [Permit job]: it read the job with attempts left; [Claimed job]: it counted
    an attempt and has not started the execution. *)
Inductive role := Idle | Permit (job : string) | Claimed (job : string).
Definition permits (job : string) (g : role) : Z := match g with Permit k => if decide (k = job) then 1 else 0 | _ => 0 end.
Definition claims (job : string) (g : role) : Z := match g with Claimed k => if decide (k = job) then 1 else 0 | _ => 0 end.

Definition tally (f : role -> Z) (gs : list role) : Z := foldr (fun g n => f g + n) 0 gs.
Lemma role_insert f gs i g g' : gs !! i = Some g -> tally f (<[i := g']> gs) = tally f gs - f g + f g'.
Proof. revert i. induction gs as [|x gs IH]; intros [|i] Hi; simplify_eq/=; [lia|]. rewrite (IH i Hi). lia. Qed.
Lemma tally_others f gs i g : (forall g, f g <= 1) -> gs !! i = Some g -> f g = 0 -> tally f gs <= Z.of_nat (pred (length gs)).
Proof.
  intros Hf. assert (Hall : forall gs, tally f gs <= Z.of_nat (length gs)).
  { intros l. induction l as [|x l IH]; simpl; [lia|]. specialize (Hf x). lia. }
  revert i. induction gs as [|x gs IH]; intros [|i] Hi H0; simplify_eq/=.
  - specialize (Hall gs). lia.
  - specialize (IH i Hi H0). pose proof (Hf x). destruct gs; [done|]. simpl in *. lia.
Qed.
Lemma permits_le job g : permits job g <= 1.
Proof. destruct g; simpl; try case_decide; lia. Qed.
Lemma permits_nonneg job g : 0 <= permits job g.
Proof. destruct g; simpl; try case_decide; lia. Qed.
Lemma claims_nonneg job g : 0 <= claims job g.
Proof. destruct g; simpl; try case_decide; lia. Qed.
Lemma tally_nonneg f gs : (forall g, 0 <= f g) -> 0 <= tally f gs.
Proof. intros Hf. induction gs as [|g gs IH]; simpl; [lia|]. specialize (Hf g). lia. Qed.
Lemma tally_repeat f n : f Idle = 0 -> tally f (replicate n Idle) = 0.
Proof. intros Hf. induction n; simpl; lia. Qed.

(** ** The invariant *)

Section Bounded.
Context `{MongoConf} `{PyRepr} `{PyJson}.
Variable config : cloud_config.
Variable max_concurrent max_attempts retry_delay horizon : Z.
Hypothesis max_attempts_pos : 0 < max_attempts.
Abbreviation world := (world (amqp_state (list (list string)))).
Abbreviation log w := (service (w_ext w)).

(** Every execution started was counted, and so is every claim that has not
    started one; what is counted or may still be stays within the budget. *)
Definition inv (gs : list role) (w : world) : Prop :=
  db_wf (w_db w) /\
  forall job,
    starts job (log w) + tally (claims job) gs <= attempts_of (w_db w) job /\
    attempts_of (w_db w) job + tally (permits job) gs <= max_attempts + Z.of_nat (pred (length gs)).
Abbreviation safe := (cwp (E := amqp cloud_call) (S := amqp_state (list (list string))) inv horizon).

Lemma inv_idle gs w i g : gs !! i = Some g -> inv gs w -> inv (<[i := Idle]> gs) w.
Proof using Type.
  intros Hg [Hwf Hi]. split; [done|]. intros job. rewrite length_insert, !(role_insert _ gs i g Idle Hg).
  specialize (Hi job). destruct g; simpl in *; repeat case_decide; lia.
Qed.

(** Calls that neither count nor start anything. *)
Definition harmless (w w' : world) : Prop :=
  db_wf (w_db w) -> db_wf (w_db w') /\ (forall job, attempts_of (w_db w') job = attempts_of (w_db w) job) /\ log w' = log w.
Abbreviation aside := (guarded (E := amqp cloud_call) harmless).

Lemma inv_harmless gs w w' : inv gs w -> harmless w w' -> inv gs w'.
Proof using Type.
  intros [Hwf Hi] Hh. destruct (Hh Hwf) as (Hwf' & Ha & Hl). split; [done|]. intros job. rewrite Ha, Hl. apply Hi.
Qed.
Lemma same_harmless (w w' : world) : w_db w' = w_db w -> w_ext w' = w_ext w -> harmless w w'.
Proof using Type. intros Hdb He Hwf. by rewrite Hdb, He. Qed.
Abbreviation safe_aside := (cwp_aside inv horizon harmless _ _ _ _ inv_harmless).

Lemma harmless_same {X} (o : op (amqp cloud_call) X) :
  (forall w w' r, op_spec o w w' r -> w_db w' = w_db w /\ log w' = log w) -> aside (perform o).
Proof using Type. intros Ho. apply guarded_perform. intros w w' r Hr Hwf. destruct (Ho w w' r Hr) as [-> ->]. done. Qed.
Lemma aside_ack : aside ack.
Proof using Type. apply harmless_same. by intros w w' r ([-> _] & -> & _). Qed.
Lemma aside_nack b : aside (nack b).
Proof using Type. apply harmless_same. by intros w w' r ([-> _] & -> & _). Qed.
Lemma aside_token : aside (cloud CToken).
Proof using Type. apply harmless_same. by intros w w' r ([_ Hs] & -> & _). Qed.
Lemma harmless_mongo {X} (m : mongo_op X) :
  match m with MUpdateMany _ _ _ => False | _ => True end ->
  (forall now db db' r job, mongo_ok now m db db' r -> attempts_of db' job = attempts_of db job) -> aside (mongo m).
Proof using Type.
  intros Hone Hm. assert (Hwf : forall now db db' r, db_wf db -> mongo_ok now m db db' r -> db_wf db').
  { intros now db db' r Hwf Ho. pose proof (mongo_ok_wf now m db db' r Hwf Ho) as Hk. by destruct m. }
  apply guarded_perform. unfold harmless.
  intros w w' r ([Ho|[_ [->|[r' Ho]]]] & _ & -> & _) Hw; [|done|]; (split; [by eapply Hwf|]); split; try done; intros job; by eapply Hm.
Qed.
Lemma harmless_other {X} (m : mongo_op X) :
  match m with MUpdateMany _ _ _ => False | _ => True end -> collection_of m <> jobs -> aside (mongo m).
Proof using Type.
  intros Hone Hc. apply harmless_mongo; [done|]. intros now db db' r job Hm. unfold attempts_of.
  by rewrite (mongo_spec_frame now m db db' r jobs job (or_introl Hm) Hc).
Qed.
Lemma harmless_find f s : aside (mongo (MFindOne jobs f s)).
Proof using Type. apply harmless_mongo; [done|]. by intros now db db' r job [-> _]. Qed.
Lemma harmless_update f us : Forall (fun u => upd_field u <> "dispatch_attempts"%string) us -> aside (mongo (MUpdateOne jobs f (UOps us) false)).
Proof using Type. intros Hus. apply harmless_mongo; [done|]. intros now db db' r job Hm. by eapply attempts_update. Qed.

Ltac aside_tac :=
  repeat first
    [ progress cbv zeta | apply guarded_bind; [|intros ?] | apply guarded_of_result | apply aside_now, same_harmless | apply aside_sleep, same_harmless
    | apply aside_ack | apply aside_nack | apply harmless_find | apply harmless_other; [exact I|discriminate]
    | apply harmless_update; by repeat constructor | exact I
    | match goal with |- guarded _ (match ?x with _ => _ end) => destruct x end ].

Lemma aside_acquire : aside (_acquire_lock max_concurrent).
Proof using Type. unfold _acquire_lock. aside_tac. Qed.
Lemma aside_release : aside _release_lock.
Proof using Type. unfold _release_lock. aside_tac. Qed.
Lemma aside_failed job : aside (_mark_failed job).
Proof using Type. unfold _mark_failed. aside_tac. Qed.
Lemma aside_reset job : aside (reset_claim job).
Proof using Type. unfold reset_claim. aside_tac. Qed.
Lemma aside_retry : aside (_retry retry_delay).
Proof using Type. unfold _retry. aside_tac. Qed.
Lemma aside_settle s : aside (settle retry_delay s).
Proof using Type. unfold settle. pose proof aside_retry. aside_tac; done. Qed.

(** Starting an execution uses the claim up. *)
Lemma safe_run seller job i : safe (run_job config seller job) (fun _ _ => True) i (Claimed job).
Proof using Type.
  unfold run_job. apply cwp_bind, safe_aside; [unfold _access_token; apply guarded_bind; [apply aside_token|intros []; done]|].
  intros [token|exc]; [|done]. apply cwp_bind, cwp_perform. intros gs w w' r Hg [Hwf Hi] ([_ Hs] & Hdb & _) _.
  assert (Hrest : forall g, match r with
    | Ok resp => safe (do* of_result (raise_for_status resp) in
        let* payload := of_result (json_loads (rs_content resp)) in
        match payload with
        | VDict payload => match doc_get payload "name" with VStr n => Ret n
            | _ => of_result (raise_value "Cloud Run Jobs response did not include execution name") end
        | _ => Raise (mk_exn "AttributeError" "object has no attribute 'get'")
        end) (fun _ _ => True) i g
    | Err e => True end).
  { intros g. destruct r as [resp|e]; [|done]. apply safe_aside; [|done]. aside_tac. }
  destruct Hs as [Hs|[Hs _]].
  2: { exists (Claimed job). rewrite list_insert_id by done. split; [|apply Hrest]. unfold inv. by rewrite Hdb, Hs. }
  - exists Idle. split; [|apply Hrest]. split; [by rewrite Hdb|]. intros j. specialize (Hi j).
    rewrite Hdb, Hs, starts_snoc, length_insert, started_run_args, !(role_insert _ gs i (Claimed job) Idle Hg).
    simpl. repeat case_decide; simplify_eq; lia.
Qed.

Lemma inv_counted gs w w' i job :
  gs !! i = Some (Permit job) -> inv gs w -> db_wf (w_db w') -> log w' = log w ->
  (forall other, other <> job -> attempts_of (w_db w') other = attempts_of (w_db w) other) ->
  (attempts_of (w_db w') job = attempts_of (w_db w) job + 1 -> inv (<[i := Claimed job]> gs) w') /\
  (attempts_of (w_db w) job <= attempts_of (w_db w') job <= attempts_of (w_db w) job + 1 -> inv (<[i := Idle]> gs) w').
Proof using Type.
  intros Hg [_ Hi] Hwf Hl Ho.
  split; intros Ha; (split; [done|]); intros j; specialize (Hi j); rewrite Hl, length_insert, !(role_insert _ gs i _ _ Hg);
    destruct (decide (job = j)) as [<-|Hne]; rewrite ?(Ho j) by done; simpl; repeat case_decide; simplify_eq; lia.
Qed.

Lemma safe_claim pending seller job at_ i :
  doc_at pending "_id" = Ok (VStr job) -> safe (claim_and_run config pending seller job at_) (fun _ _ => True) i (Permit job).
Proof using Type.
  intros Hid. unfold claim_and_run. rewrite Hid. apply cwp_bind, cwp_of_result, cwp_bind, cwp_perform. intros gs w w' r Hg Hi (Hm & _ & He & _) _.
  assert (Hout : db_wf (w_db w') /\ (forall other, other <> job -> attempts_of (w_db w') other = attempts_of (w_db w) other) /\
    (attempts_of (w_db w') job = attempts_of (w_db w) job + 1 \/
     attempts_of (w_db w') job = attempts_of (w_db w) job /\ forall u, r = Ok u -> matched_count u = 0)).
  { pose proof (proj1 Hi) as Hwf. destruct Hm as [Hm|[-> [->|[r' Hm]]]].
    - split; [exact (mongo_ok_wf _ _ _ _ _ Hwf Hm)|]. by eapply claim_outcome.
    - split; [done|]. split; [done|]. right. by split.
    - split; [exact (mongo_ok_wf _ _ _ _ _ Hwf Hm)|].
      apply claim_outcome in Hm as [Ho [Ha|[Ha _]]]; [split; [done|by left]|split; [done|right; by split]|done]. }
  destruct Hout as (Hwf' & Ho & Ha).
  destruct (inv_counted gs w w' i job Hg Hi Hwf' (f_equal service He) Ho) as [Hcl Hid'].
  assert (Hidle : inv (<[i := Idle]> gs) w') by (apply Hid'; lia).
  destruct r as [u|exc]; [|by exists Idle]. destruct (matched_count u =? 1) eqn:Hu; cbn [negb]; [|by exists Idle].
  exists (Claimed job). split.
  - apply Hcl. destruct Ha as [Ha|[_ Ha]]; [done|]. specialize (Ha u eq_refl). apply Z.eqb_eq in Hu. lia.
  - apply cwp_bind. eapply cwp_mono; [apply safe_run|]. by intros g [].
Qed.

Lemma safe_pending seller pending job i g :
  doc_at pending "_id" = Ok (VStr job) ->
  (forall a, py_int (doc_get_or pending "dispatch_attempts" (VInt 0)) = Ok a -> a < max_attempts -> g = Permit job) ->
  safe (dispatch_pending config max_concurrent max_attempts seller pending) (fun _ _ => True) i g.
Proof using Type.
  intros Hid Hg. unfold dispatch_pending. apply cwp_bind, cwp_of_result. destruct (py_int _) as [a|exc]; [|done].
  destruct (max_attempts <=? a) eqn:Ha.
  { apply safe_aside; [|done]. apply guarded_bind; [apply aside_failed|done]. }
  apply Z.leb_gt in Ha. rewrite (Hg a eq_refl Ha). apply cwp_bind, safe_aside; [apply aside_acquire|].
  intros [[]|exc]; [|done..]. cbn [negb]. rewrite Hid. apply cwp_bind, cwp_of_result, cwp_bind, safe_aside; [apply aside_now, same_harmless|].
  intros [t|exc]; [|done]. apply cwp_bind, cwp_attempt, cwp_catch. eapply cwp_mono; [by apply safe_claim|].
  assert (Hrest : forall g' (x : result string), safe (do* _release_lock in of_result x) (fun _ _ => True) i g').
  { intros g' x. apply safe_aside; [|done]. apply guarded_bind; [apply aside_release|]. intros _. apply guarded_of_result. }
  intros g' [s|exc] _; [apply Hrest|]. apply cwp_bind, safe_aside; [apply aside_reset|]. intros [u|exc']; apply Hrest.
Qed.

(** Reading a job with attempts left permits to count one. *)
Lemma read_attempts d a : py_int (doc_get_or (dec d) "dispatch_attempts" (VInt 0)) = Ok a -> a < max_attempts ->
  dispatch_attempts d < max_attempts.
Proof using max_attempts_pos.
  unfold doc_get_or, dispatch_attempts, dec, decode_doc. rewrite lookup_fmap. destruct (d !! _) as [[]|]; simpl; try (intros; lia).
  by intros [= ->].
Qed.

Lemma safe_dispatch event i : safe (handle_accounts_linked config max_concurrent max_attempts event) (fun _ _ => True) i Idle.
Proof using max_attempts_pos.
  unfold handle_accounts_linked. apply cwp_bind, cwp_of_result. destruct (doc_at event "seller_id") as [seller|exc]; [|done].
  apply cwp_bind, safe_aside; [apply harmless_find|]. intros [[d|]|exc]; [done| |done].
  apply cwp_bind, cwp_perform. intros gs w w' r Hg Hi (Hm & _ & He & _) _.
  assert (Hkeep : w_db w' = w_db w -> inv gs w') by (unfold inv; rewrite He; by intros ->).
  destruct Hm as [[Hdb Hm]|[-> [Hdb|[r' [Hdb _]]]]]; 
    [|exists Idle; rewrite list_insert_id by done; by split; [apply Hkeep|]..].
  destruct Hm as [[_ ->]|(job & d & [Hd _] & _ & ->)]; 
    [exists Idle; rewrite list_insert_id by done; by split; [apply Hkeep|]|].
  assert (Hid : doc_at (dec d) "_id" = Ok (VStr job)).
  { apply (proj1 Hi) in Hd. unfold doc_id, doc_at, dec, decode_doc in *. rewrite lookup_fmap.
    destruct (d !! "_id"%string) as [[]|]; simplify_eq/=; done. }
  destruct (decide (dispatch_attempts d < max_attempts)) as [Hlt|Hge].
  - exists (Permit job). split; [|by apply (safe_pending _ _ job)].
    destruct Hi as [Hwf Hi]. split; [by rewrite Hdb|]. intros j. specialize (Hi j).
    rewrite Hdb, He, length_insert, !(role_insert _ gs i Idle _ Hg). simpl.
    pose proof (tally_others (permits j) gs i Idle (permits_le j) Hg eq_refl).
    case_decide as Hj; [|lia]. subst j. assert (attempts_of (w_db w) job = dispatch_attempts d) by (unfold attempts_of; by rewrite Hd). lia.
  - exists Idle. rewrite list_insert_id by done. split; [by apply Hkeep|].
    apply (safe_pending _ _ job); [done|]. intros a Ha Hlt. by destruct Hge; eapply read_attempts.
Qed.

Lemma safe_consume ms i g : safe (consume_all config max_concurrent max_attempts retry_delay ms) (fun _ _ => True) i g.
Proof using max_attempts_pos.
  revert g. induction ms as [|m ms IH]; intros g; [done|]. cbn [consume_all]. apply cwp_bind, cwp_attempt.
  eapply (cwp_mono _ _ _ (fun _ _ => True)); [|intros; apply IH]. apply (cwp_forget inv horizon _ (fun _ => True) _ _ Idle); [intros gs w; apply inv_idle|]. unfold handle_message.
  destruct (_parse_event (msg_body m)) as [event|exc]; [|by destruct (isinstance _ _); [apply safe_aside; [apply aside_nack|]|]].
  apply cwp_bind, cwp_attempt. eapply cwp_mono; [apply safe_dispatch|]. intros g' [s|exc] _; (apply safe_aside; [|done]).
  - apply aside_settle.
  - apply aside_retry.
Qed.
End Bounded.

Section Deliveries.
Context `{MongoConf} `{PyRepr} `{PyJson}.

(** Executions are counted before they start, and bounded.  Any number
    of consumer processes take their messages concurrently, interleaved call by
    call, with any answers and lost connections: the executions started for a
    job are at most the attempts counted on it, and these stay within the
    budget, up to one more for every consumer but one.  A single consumer never
    exceeds the budget. *)
Theorem dispatch_starts_bounded config max_concurrent max_attempts retry_delay horizon
    (consumers : list (list message)) (w w' : world (amqp_state (list (list string)))) ps' :
  0 < max_attempts -> db_wf (w_db w) ->
  (forall i d, w_db w !! (jobs, i) = Some d -> 0 <= dispatch_attempts d <= max_attempts) ->
  service (w_ext w) = [] ->
  reach horizon (map (consume_all config max_concurrent max_attempts retry_delay) consumers, w) (ps', w') ->
  forall job, starts job (service (w_ext w')) <= attempts_of (w_db w') job <=
    max_attempts + Z.of_nat (pred (length consumers)).
Proof using Type.
  intros Hpos Hwf Hjobs Hlog Hr job. pose proof (reach_length _ _ _ Hr) as Hsize. cbn [fst] in Hsize. rewrite length_map in Hsize.
  apply (reach_ok (inv max_attempts) horizon (fun _ _ _ => True)) in Hr.
  - destruct Hr as (gs & Hlen & (_ & Hi) & _). destruct (Hi job) as [Hs Ha]. cbn [fst snd] in *. rewrite Hlen, Hsize in Ha.
    pose proof (tally_nonneg (claims job) gs (claims_nonneg job)). pose proof (tally_nonneg (permits job) gs (permits_nonneg job)). lia.
  - exists (replicate (length consumers) Idle). cbn [fst snd]. split; [by rewrite length_replicate, length_map|]. split.
    + split; [done|]. intros j. rewrite Hlog, length_replicate, !tally_repeat by done. unfold attempts_of.
      destruct (w_db w !! (jobs, j)) as [d|] eqn:Hd; simpl; [specialize (Hjobs j d Hd)|]; unfold starts; simpl; lia.
    + intros i p Hp. rewrite list_lookup_fmap in Hp. destruct (consumers !! i) as [ms|] eqn:Hms; [|done].
      injection Hp as <-. exists Idle. split; [|by apply safe_consume].
      apply lookup_replicate. split; [done|]. by eapply lookup_lt_Some.
Qed.

(** ** Settlement *)

Abbreviation log w := (service (w_ext w)).

(** What a dispatch did, by its result. *)
Definition dispatched (w w' : world (amqp_state (list (list string)))) (r : result string) : Prop :=
  settled_same w w' /\
  match r with
  | Ok s =>
      s = "running"%string /\ (exists args, log w' = log w ++ [args]) \/
      s = "skipped"%string /\ calm jobs w w' \/
      (s = "failed" \/ s = "backpressure")%string /\ ext_same w w'
  | Err _ => True
  end.

Lemma dispatched_after w1 w2 w3 r : calm jobs w1 w2 -> dispatched w2 w3 r -> dispatched w1 w3 r.
Proof using Type.
  intros Hc [Hs Hr]. pose proof (proj1 Hc) as He. unfold ext_same in He. split; [unfold settled_same in *; congruence|].
  destruct r as [s|exc]; [|done]. destruct Hr as [[-> [args Ha]]|[[-> Hk]|[Hk Hx]]].
  - left. split; [done|]. exists args. by rewrite Ha, He.
  - right. left. split; [done|]. by eapply calm_trans.
  - right. right. split; [done|]. unfold ext_same in *. congruence.
Qed.
Lemma dispatched_before w1 w2 w3 r : dispatched w1 w2 r -> calm jobs w2 w3 -> dispatched w1 w3 r.
Proof using Type.
  intros [Hs Hr] Hc. pose proof (proj1 Hc) as He. unfold ext_same in He. split; [unfold settled_same in *; congruence|].
  destruct r as [s|exc]; [|done]. destruct Hr as [[-> [args Ha]]|[[-> Hk]|[Hk Hx]]].
  - left. split; [done|]. exists args. by rewrite He, Ha.
  - right. left. split; [done|]. by eapply calm_trans.
  - right. right. split; [done|]. unfold ext_same in *. congruence.
Qed.

Lemma calm_acquire max_concurrent : guarded (S := amqp_state (list (list string))) (calm jobs) (_acquire_lock max_concurrent).
Proof using Type.
  unfold _acquire_lock. repeat first [apply guarded_bind; [|intros ?]|apply calm_now|apply calm_mongo; discriminate|apply guarded_of_result
    |exact I|match goal with |- guarded _ (match ?x with _ => _ end) => destruct x end].
Qed.
Lemma calm_release : guarded (S := amqp_state (list (list string))) (calm jobs) _release_lock.
Proof using Type.
  unfold _release_lock. repeat first [apply guarded_bind; [|intros ?]|apply calm_mongo; discriminate|apply guarded_of_result
    |exact I|match goal with |- guarded _ (match ?x with _ => _ end) => destruct x end].
Qed.
Lemma calm_find f s : guarded (S := amqp_state (list (list string))) (E := amqp cloud_call) (calm jobs) (mongo (MFindOne jobs f s)).
Proof using Type.
  apply guarded_perform. intros w w' r (Hm & _ & He & _). split; [exact He|]. intros i.
  by destruct Hm as [[-> _]|[_ [->|[r' [-> _]]]]].
Qed.

Lemma wp_run_execution config seller job w :
  wp (run_job config seller job) (fun w' r => settled_same w w' /\ forall s, r = Ok s -> log w' = log w ++ [run_args seller job]) w.
Proof using Type.
  unfold run_job, _access_token. apply wp_bind, wp_bind, wp_perform. intros w1 r ([Hs Hl] & _) .
  destruct r as [token|exc]; [|done]. destruct token; try done. cbn [wp]. apply wp_bind, wp_perform. intros w2 r ([Hs2 Hp] & _).
  simpl in Hl, Hp. destruct r as [resp|exc]; [|split; [unfold settled_same; congruence|done]].
  assert (Hsame : settled_same w w2) by (unfold settled_same; congruence).
  unfold raise_for_status. destruct (is_success resp) eqn:Hok; [|done]. cbn [of_result bind].
  destruct Hp as [Hp|[_ Hp]]; [|by specialize (Hp resp eq_refl); congruence].
  apply wp_bind, wp_of_result. destruct (json_loads (rs_content resp)) as [payload|exc]; [|done].
  destruct payload as [| | | | | |payload]; try done. destruct (doc_get payload "name"); try done.
  split; [done|]. intros _ _. by rewrite Hp, Hl.
Qed.

Lemma wp_claim_and_run config pending seller job at_ w :
  wp (claim_and_run config pending seller job at_) (fun w' r => dispatched w w' r) w.
Proof using Type.
  unfold claim_and_run. apply wp_bind, wp_of_result. destruct (doc_at pending "_id") as [id|exc]; [|by split].
  apply wp_mongo; [|intros w1 (_ & He & _) _; split; [unfold settled_same; by rewrite He|done]].
  intros w1 r Hm (_ & He & _). destruct r as [u|exc]; [|split; [unfold settled_same; by rewrite He|done]].
  destruct (matched_count u =? 1) eqn:Hu; cbn [negb].
  - apply wp_bind. eapply wp_mono; [apply wp_run_execution|]. intros w2 [name|exc] [Hs Hl].
    + split; [unfold settled_same in *; congruence|]. left. split; [done|]. exists (run_args seller job). by rewrite (Hl name eq_refl), He.
    + split; [unfold settled_same in *; congruence|done].
  - assert (Hsame : w_db w1 = w_db w).
    { destruct Hm as [(i & d & _ & Hup)|[_ [-> _]]]; [|done]. unfold updates in Hup.
      destruct (apply_update _ _ _ d); [destruct (decide _)|]; try (by destruct Hup as [-> _]).
      unfold stores in Hup. destruct (unique_ok _ _ _ _); destruct Hup as [-> Hr]; [|done]. injection Hr as ->. done. }
    split; [unfold settled_same; by rewrite He|]. right. left. split; [done|]. split; [exact He|]. intros i. by rewrite Hsame.
Qed.

Lemma wp_dispatch_pending config max_concurrent max_attempts seller pending w :
  wp (dispatch_pending config max_concurrent max_attempts seller pending) (fun w' r => dispatched w w' r) w.
Proof using Type.
  unfold dispatch_pending. apply wp_bind, wp_of_result. destruct (py_int _) as [a|exc]; [|by split].
  assert (Hquiet : forall w1 w2 : world (amqp_state (list (list string))), ext_same w1 w2 -> settled_same w1 w2)
    by (unfold ext_same, settled_same; congruence).
  destruct (max_attempts <=? a).
  { apply wp_bind, wp_quiet; [unfold _mark_failed; quiet_tac|]. intros w1 [u|exc] He; (split; [by apply Hquiet|]); [|done].
    right. right. split; [by left|done]. }
  apply (wp_calm_bind jobs); [apply calm_acquire| |intros w1 exc [He _]; by split; [apply Hquiet|]]. intros w1 acquired Hw1.
  destruct acquired; cbn [negb].
  2: { split; [by apply Hquiet, Hw1|]. right. right. split; [by right|apply Hw1]. }
  apply wp_bind, wp_of_result. destruct (doc_at pending "_id") as [id|exc]; [|by split; [apply Hquiet, Hw1|]].
  apply wp_now. intros w2 Hw2. assert (Hc : calm jobs w w2).
  { eapply calm_trans; [exact Hw1|]. destruct Hw2 as (Hdb & _ & He & _). split; [exact He|]. intros i. by rewrite Hdb. }
  apply wp_bind, wp_attempt, wp_catch. eapply wp_mono; [apply wp_claim_and_run|].
  assert (Hrel : forall (x : result string) w3, dispatched w w3 x ->
    wp (do* _release_lock in of_result x) (fun w' r => dispatched w w' r) w3).
  { intros x w3 Hd. apply (wp_calm_bind jobs); [apply calm_release| |].
    - intros w4 _ Hw4. apply wp_of_result. by eapply dispatched_before.
    - intros w4 exc Hw4. split; [|done]. destruct Hd as [Hs _]. eapply settled_trans; [exact Hs|apply Hquiet, Hw4]. }
  intros w3 x Hd. apply (dispatched_after _ _ _ _ Hc) in Hd. destruct x as [s|exc]; [by apply Hrel|].
  apply wp_bind, wp_quiet; [unfold reset_claim; quiet_tac|].
  intros w4 [u|exc'] He; apply Hrel; (split; [|done]); eapply settled_trans; [apply Hd|by apply Hquiet|apply Hd|by apply Hquiet].
Qed.

Lemma wp_handle_accounts_linked config max_concurrent max_attempts event w :
  wp (handle_accounts_linked config max_concurrent max_attempts event) (fun w' r => dispatched w w' r) w.
Proof using Type.
  assert (Hskip : forall w1 : world (amqp_state (list (list string))), calm jobs w w1 -> dispatched w w1 (Ok "skipped"%string)).
  { intros w1 Hw1. apply (dispatched_before w w w1); [|done]. split; [done|]. right. left. split; [done|apply calm_refl]. }
  assert (Herr : forall w1 (e : exn), calm jobs w w1 -> dispatched w w1 (Err e)).
  { intros w1 e [He _]. split; [unfold settled_same; by rewrite He|done]. }
  unfold handle_accounts_linked. apply wp_bind, wp_of_result. destruct (doc_at event "seller_id") as [seller|exc]; [|by apply Herr, calm_refl].
  apply (wp_calm_bind jobs); [apply calm_find| |by auto]. intros w1 [d|] Hw1; [by apply Hskip|].
  apply (wp_calm_bind jobs); [apply calm_find| |].
  - intros w2 pending Hw2. apply (calm_trans _ _ _ _ Hw1) in Hw2. destruct pending as [d|]; [|by apply Hskip].
    eapply wp_mono; [apply wp_dispatch_pending|]. intros w3 r. by apply dispatched_after.
  - intros w2 exc Hw2. apply Herr. by eapply calm_trans.
Qed.

Definition settles (x : settlement) (w w' : world (amqp_state (list (list string)))) : Prop :=
  settled (w_ext w') = settled (w_ext w) ++ [x] /\ log w' = log w /\ coll_same jobs w w'.
Lemma wp_settle_ack (w : world (amqp_state (list (list string)))) : wp (ack (E := cloud_call)) (fun w' r => r = Ok tt /\ settles Acked w w') w.
Proof using Type. apply wp_perform. intros w' r ([He ->] & Hdb & _). split; [done|]. repeat split; [by rewrite He..|]. intros i. by rewrite Hdb. Qed.
Lemma wp_settle_nack b (w : world (amqp_state (list (list string)))) :
  wp (nack (E := cloud_call) b) (fun w' r => r = Ok tt /\ settles (Nacked b) w w') w.
Proof using Type. apply wp_perform. intros w' r ([He ->] & Hdb & _). split; [done|]. repeat split; [by rewrite He..|]. intros i. by rewrite Hdb. Qed.
Lemma wp_settle_retry retry_delay (w : world (amqp_state (list (list string)))) :
  wp (_retry retry_delay) (fun w' r => r = Ok tt /\ settles (Nacked true) w w') w.
Proof using Type.
  unfold _retry. apply wp_bind. destruct (retry_delay =? 0); [apply wp_settle_nack|].
  apply wp_perform. intros w1 r ((Hdb & _ & He & _) & _ & ->). eapply wp_mono; [apply wp_settle_nack|].
  intros w2 r (-> & Hs & Hl & Hc). split; [done|]. unfold settles. rewrite Hs, Hl, He. repeat split. intros i. by rewrite (Hc i), Hdb.
Qed.

(** Every event of a linked account is settled exactly once.  It is
    acknowledged when Cloud Run accepted the execution, or when nothing was
    started and no job was touched; rejected for good only with nothing
    started; requeued otherwise.  What escapes is an unexpected decoding error,
    before anything was done. *)
Theorem account_event_settled_exactly_once config max_concurrent max_attempts retry_delay m w :
  wp (handle_message config max_concurrent max_attempts retry_delay m)
    (fun w' r => match r with
       | Ok _ => exists s, settled (w_ext w') = settled (w_ext w) ++ [s] /\
           match s with
           | Acked => (exists args, log w' = log w ++ [args]) \/ log w' = log w /\ coll_same jobs w w'
           | Nacked requeue => requeue = false -> log w' = log w
           | Delayed _ => False
           end
       | Err e => ext_same w w' /\ _parse_event (msg_body m) = Err e /\ isinstance e "ValueError" = false
       end) w.
Proof using Type.
  unfold handle_message. destruct (_parse_event (msg_body m)) as [event|exc] eqn:Hparse.
  2: { destruct (isinstance exc "ValueError") eqn:He; [|done]. eapply wp_mono; [apply wp_settle_nack|].
       intros w1 r (-> & Hs & Hl & _). by exists (Nacked false). }
  apply wp_bind, wp_attempt. eapply wp_mono; [apply wp_handle_accounts_linked|]. intros w1 x [Hsame Hx].
  assert (Hafter : forall x w2, settles x w1 w2 -> settled (w_ext w2) = settled (w_ext w) ++ [x] /\ log w2 = log w1 /\ coll_same jobs w1 w2).
  { intros y w2 (Hs & Hl & Hc). unfold settled_same in Hsame. by rewrite Hs, Hsame. }
  destruct x as [s|exc].
  2: { eapply wp_mono; [apply wp_settle_retry|]. intros w2 r [-> Hw2]. apply Hafter in Hw2 as (Hs & _). by exists (Nacked true). }
  unfold settle. destruct Hx as [[-> [args Ha]]|[[-> [He Hc]]|[[-> | ->] He]]]; cbn [string_in existsb orb String.eqb Ascii.eqb Bool.eqb].
  - eapply wp_mono; [apply wp_settle_ack|]. intros w2 r [-> Hw2]. apply Hafter in Hw2 as (Hs & Hl & _).
    exists Acked. split; [done|]. left. exists args. by rewrite Hl.
  - eapply wp_mono; [apply wp_settle_ack|]. intros w2 r [-> Hw2]. apply Hafter in Hw2 as (Hs & Hl & Hk).
    exists Acked. split; [done|]. right. unfold ext_same in He. split; [by rewrite Hl, He|]. intros i. by rewrite (Hk i), (Hc i).
  - eapply wp_mono; [apply wp_settle_nack|]. intros w2 r [-> Hw2]. apply Hafter in Hw2 as (Hs & Hl & _).
    exists (Nacked false). split; [done|]. unfold ext_same in He. by rewrite Hl, He.
  - eapply wp_mono; [apply wp_settle_retry|]. intros w2 r [-> Hw2]. apply Hafter in Hw2 as (Hs & _). by exists (Nacked true).
Qed.
End Deliveries.

(** ** Runs *)

Section Examples.
#[local] Instance aware : MongoConf := aware_conf.
#[local] Instance no_repr : PyRepr := fun _ => EmptyString.
(** Every text is this account's event, or this execution's name. *)
#[local] Instance one_text : PyJson := fun _ => Ok (VDict (mk_doc [("seller_id", VStr "7"); ("name", VStr "executions/1")]%string)).
Definition cloud_answer (status : Z) {X : Type} (c : cloud_call X) (s : list (list string)) : list (list string) * result X :=
  match c in cloud_call X return list (list string) * result X with
  | CToken => (s, Ok (VStr "token"))
  | CPost _ _ args => (if status <? 400 then s ++ [args] else s, Ok {| rs_status := status; rs_headers := []; rs_content := "{}" |})
  end.
Definition cloud_run (status : Z) : ExtRun (amqp cloud_call) (amqp_state (list (list string))) := {|
  ext_run := fun X e s =>
    match e in amqp _ X return amqp_state (list (list string)) * result X with
    | AAck => (AmqpState (settled s ++ [Acked]) (service s), Ok tt)
    | ANack b => (AmqpState (settled s ++ [Nacked b]) (service s), Ok tt)
    | APublishDelay _ _ ms => (AmqpState (settled s ++ [Delayed ms]) (service s), Ok tt)
    | AService e => let '(s', r) := cloud_answer status e (service s) in (AmqpState (settled s) s', r)
    end;
  uuid_run := fun _ => "0123456789abcdef0123456789abcdef"%string |}.
#[local] Instance accepting : ExtRun (amqp cloud_call) (amqp_state (list (list string))) := cloud_run 200.
Lemma accepting_sound X (e : amqp cloud_call X) s : ext_spec X e s (ext_run X e s).1 (ext_run X e s).2.
Proof. destruct e; simpl; try done; [by left|]. destruct e; simpl; [done|]. split; [done|]. by left. Qed.

Definition pending_job : doc := mk_doc
  [("_id", VStr "bootstrap-7-oauth"); ("seller_id", VStr "7"); ("state", VStr "pending"); ("dispatch_attempts", VInt 0)]%string.
Definition linked_world : world (amqp_state (list (list string))) :=
  World ({[ (jobs, "bootstrap-7-oauth"%string) := pending_job ]}) day None (AmqpState [] []).
Abbreviation one_event := [Message "{}" None].
Abbreviation consumer ms := (consume_all (Build_cloud_config "p" "l" "j") 5 3 0 ms).
Abbreviation first := (run (consumer one_event) linked_world).
Abbreviation second := (run (consumer one_event) first.1).

(** The event is delivered to two consumers. *)
Lemma linked_twice :
  reach (2 ^ 60) (map (fun ms => consumer ms) [one_event; one_event], linked_world) ([done_with first.2; done_with second.2], second.1).
Proof.
  unfold reach. etrans.
  - apply (reach_run accepting_sound (fun _ => eq_refl) (2 ^ 60) [consumer one_event; consumer one_event] 0 (consumer one_event) linked_world);
      [reflexivity|]. apply Z.ltb_lt. vm_compute. reflexivity.
  - apply (reach_run accepting_sound (fun _ => eq_refl) (2 ^ 60) [done_with first.2; consumer one_event] 1 (consumer one_event) first.1);
      [reflexivity|]. apply Z.ltb_lt. vm_compute. reflexivity.
Qed.

Lemma dispatch_starts_bounded_witness :
  starts "bootstrap-7-oauth" (service (w_ext second.1)) <= attempts_of (w_db second.1) "bootstrap-7-oauth" <= 3 + 1 /\
  service (w_ext second.1) = [run_args "7" "bootstrap-7-oauth"] /\ settled (w_ext second.1) = [Acked; Acked].
Proof.
  split; [|split; vm_compute; reflexivity].
  refine (dispatch_starts_bounded (Build_cloud_config "p" "l" "j") 5 3 0 (2 ^ 60) [one_event; one_event] linked_world second.1
    [done_with first.2; done_with second.2] _ _ _ _ linked_twice "bootstrap-7-oauth").
  - lia.
  - apply db_wfb_ok. vm_compute. reflexivity.
  - intros i d Hd. cbn [w_db linked_world] in Hd. apply lookup_singleton_Some in Hd as [_ <-].
    assert (Hz : dispatch_attempts pending_job = 0) by (vm_compute; reflexivity). lia.
  - reflexivity.
Defined.

(** Cloud Run answers 503: the job is pending again, its attempt counted. *)
Example refused_execution_is_requeued :
  let r := run (H0 := cloud_run 503) (handle_message (Build_cloud_config "p" "l" "j") 5 3 0 (Message "{}" None)) linked_world in
  settled (w_ext r.1) = [Nacked true] /\ service (w_ext r.1) = [] /\ attempts_of (w_db r.1) "bootstrap-7-oauth" = 1.
Proof. vm_compute. repeat split. Qed.
End Examples.
