(* ===== verification/AccountEvents.v ===== *)
(** The account events of the gateway (oauth/events.py of
    gateway/src/zeler_gateway): a linked account admits its history plan, stores
    its bootstrap job and announces it to the dispatcher.  (Revocations are
    announced by the refresh worker: [Refresh.v].) *)

From S2P Require Import PyDate.
From S2P Require Export HistoryPlan BootstrapDispatch Trace.

#[local] Open Scope Z_scope.

(** The publisher of account events. *)
Inductive account_call : Type -> Type :=
| APublish (exchange routing_key : string) (payload : doc) : account_call unit.

(** [current_schema_version("bootstrap_jobs")]. *)
Definition bootstrap_jobs_version : Z := 1.

Section Events.
Context `{PyRepr}.
(** [os.environ.get] and [Settings().history_pilot_get_budget_sellers]. *)
Variable environ : string -> option string.
Variable history_pilot_get_budget_sellers : result (option (list string)).

Definition canonical_seller (seller : string) : bool :=
  digits1 seller && Nat.leb (String.length seller) 20 && String.eqb (str_of_Z (int_of_digits seller)) seller.

Definition _history_admission_allowed (seller_id : string) : bool :=
  let hold := lower (strip (default "false"%string (environ "ZELERDATA_HISTORY_ON_LINK_ADMISSION_HOLD"))) in
  if negb (string_in hold [""; "false"; "0"; "no"; "off"]%string) then false
  else
    match environ "ZELERDATA_HISTORY_ON_LINK_ADMISSION_SELLERS" with
    | None => true
    | Some raw =>
        let sellers := map strip (split_char "," raw) in
        if negb (forallb canonical_seller sellers) then false else string_in seller_id sellers
    end.

(** [existing.get("state") in {"pending", "running", "succeeded"}]. *)
Definition live_states : list string := ["pending"; "running"; "succeeded"]%string.
Definition in_live_states (v : val) : result bool :=
  match v with
  | VStr s => Ok (string_in s live_states)
  | VList _ | VDict _ => raise_type "unhashable type"
  | _ => Ok false
  end.
Definition live_filter (seller_id : string) : filter :=
  FAnd [FEq ["seller_id"%string] (VStr seller_id); FIn ["state"%string] (VStr <$> live_states)].

Definition bootstrap_job_id (seller_id : string) : string := ("bootstrap-" ++ seller_id ++ "-oauth")%string.
Definition bootstrap_job (seller_id : string) (force : bool) (created_at : val) (now : Z) : doc :=
  mk_doc [("_id", VStr (bootstrap_job_id seller_id)); ("state", VStr "pending"); ("seller_id", VStr seller_id);
          ("dag", VDict ∅); ("checkpoints", VDict ∅);
          ("triggered_by", VStr (if force then "oauth_callback_force" else "oauth_callback"));
          ("dispatch_attempts", VInt 0); ("created_at", created_at); ("updated_at", VDate true now);
          ("schema_version", VInt bootstrap_jobs_version)]%string.
Definition linked_payload (seller_id platform_user_id : string) (force : bool) (now : Z) : doc :=
  mk_doc [("seller_id", VStr seller_id); ("platform_user_id", VStr platform_user_id); ("occurred_at", VStr (isoformat now));
          ("idempotency_key", VStr ("accounts-linked-" ++ seller_id ++ "-" ++ (if force then "force" else "oauth")))]%string.

Definition emit_accounts_linked (seller_id platform_user_id : string) (force : bool) : prog account_call unit :=
  let* now := now_utc in
  do* (if digits1 seller_id && _history_admission_allowed seller_id then
         let* pilot_scope := of_result history_pilot_get_budget_sellers in
         match pilot_scope with
         | Some sellers => admit_history_onboarding seller_id now (string_in seller_id sellers)
         | None => admit_history_onboarding seller_id now false
         end
       else Ret tt) in
  let* existing := (if force then Ret None else mongo (MFindOne jobs (live_filter seller_id) [])) in
  let* existing :=
    match existing with
    | None => mongo (MFindOne jobs (FEq ["seller_id"%string] (VStr seller_id)) [])
    | Some existing => Ret (Some existing)
    end in
  let* skipped :=
    match existing with
    | Some existing =>
        let* live := of_result (in_live_states (doc_get existing "state")) in Ret (live && negb force)
    | None => Ret false
    end in
  if (skipped : bool) then Ret tt
  else
    let created_at := match existing with Some e => doc_get_or e "created_at" (VDate true now) | None => VDate true now end in
    do* mongo (MReplaceOne jobs (FEq ["_id"%string] (VStr (bootstrap_job_id seller_id)))
          (bootstrap_job seller_id force created_at now) true) in
    ext (APublish "meli.events" "accounts.linked" (linked_payload seller_id platform_user_id force now)).
End Events.

(** ** What a published event announces *)

Definition published {X : Type} (o : op account_call X) : option (string * string * doc) :=
  match o with OExt (APublish exchange key payload) => Some (exchange, key, payload) | _ => None end.

Section Linked.
Context `{PyRepr} `{PyJson}.

Lemma silent_legacy seller existing cutoff now pilot : silent (@published) (admit_legacy seller existing cutoff now pilot).
Proof using Type. unfold admit_legacy. silence. Qed.
Lemma silent_admission seller now pilot : silent (@published) (admit_history_onboarding seller now pilot).
Proof using Type. unfold admit_history_onboarding. pose proof silent_legacy. silence. Qed.

(** A linked account is announced once its job is there.  Before
    [emit_accounts_linked] publishes, MongoDB acknowledged the pending job of
    the seller with no attempt counted, and, unless forced, had answered that
    the seller has no live job.  The event goes to the route of the dispatcher,
    whose consumer accepts it as it is. *)
Theorem linked_event_has_job environ scope seller user force h exchange key payload :
  reaches (@published) (emit_accounts_linked environ scope seller user force) h (exchange, key, payload) ->
  exchange = "meli.events"%string /\ key = ACCOUNTS_ROUTING_KEY /\
  (exists h0 created_at now u, h = h0 ++ [Call (OMongo (MReplaceOne jobs (FEq ["_id"%string] (VStr (bootstrap_job_id seller)))
    (bootstrap_job seller force created_at now) true)) (Ok u)]) /\
  (force = false -> exists h1 h2 answer, h = h1 ++ Call (OMongo (MFindOne jobs (live_filter seller) [])) (Ok answer) :: h2 /\
    match answer with Some job => in_live_states (doc_get job "state") = Ok false | None => True end) /\
  (digits1 seller = true -> (String.length seller <= 4300)%nat -> 0 < int_of_digits seller ->
   forall body, json_loads body = Ok (VDict payload) -> _parse_event body = Ok payload).
Proof using Type.
  unfold emit_accounts_linked. intros Hr.
  apply reaches_silent_bind in Hr as (h0 & h1 & now & -> & _ & Hr); [|silence].
  apply reaches_silent_bind in Hr as (h2 & h3 & u & -> & _ & Hr); [|pose proof silent_admission; silence].
  apply reaches_silent_bind in Hr as (h4 & h5 & live & -> & Hlive & Hr); [|silence].
  apply reaches_silent_bind in Hr as (h6 & h7 & existing & -> & Hex & Hr); [|silence].
  apply reaches_silent_bind in Hr as (h8 & h9 & skipped & -> & Hsk & Hr); [|silence].
  destruct skipped; [done|]. apply reaches_silent_bind in Hr as (ha & hb & r & -> & Hrep & Hr); [|silence].
  apply runs_perform in Hrep as ->. apply reaches_perform in Hr as [-> [= <- <- <-]].
  split; [done|]. split; [done|]. split; [|split].
  - rewrite app_nil_r, !app_assoc. by do 4 eexists.
  - intros ->. apply runs_perform in Hlive as ->. exists (h0 ++ h2). do 2 eexists. split; [by rewrite <- app_assoc|].
    destruct live as [job|]; [|done]. destruct Hex as [-> [= ->]]. apply runs_bind in Hsk as (h10 & h11 & r' & _ & Hl & Hsk).
    apply runs_of_result in Hl as [_ ->]. destruct (in_live_states _) as [live|exc]; [|by destruct Hsk as [_ [=]]].
    destruct Hsk as [_ [= Hsk]]. by destruct live.
  - intros Hd Hlen Hpos body Hj. apply Nat.leb_le in Hlen. apply Z.ltb_lt in Hpos. unfold _parse_event. rewrite Hj. cbn [result_bind].
    assert (Hget : linked_payload seller user force now !! "seller_id"%string = Some (VStr seller)).
    { unfold linked_payload, mk_doc. cbn [foldl fst snd]. by doc_simp. }
    unfold doc_get. rewrite Hget. cbn [default_to is_none py_str]. rewrite Hd, Hlen, Hpos. cbn [andb].
    by rewrite insert_id.
Qed.
End Linked.

(** ** A run *)

Section Example.
#[local] Instance aware : MongoConf := aware_conf.
#[local] Instance no_repr : PyRepr := fun _ => EmptyString.
Definition sample_payload : doc := linked_payload "7" "u1" false day.
#[local] Instance one_text : PyJson := fun _ => Ok (VDict sample_payload).
#[local] Instance toy_events : ExtRun account_call unit := {
  ext_run := fun X c s => match c in account_call X return unit * result X with APublish _ _ _ => (s, Ok tt) end;
  uuid_run := fun _ => "0123456789abcdef0123456789abcdef"%string;
}.
(** The account was linked before, and its job failed. *)
Definition relinked_world : world unit :=
  World ({[ (jobs, "bootstrap-7-oauth"%string) := mk_doc [("_id", VStr "bootstrap-7-oauth"); ("seller_id", VStr "7"); ("state", VStr "failed")]%string ]})
    day None tt.
Abbreviation relink := (emit_accounts_linked (fun _ => Some "off"%string) (Ok None) "7" "u1" false).
Abbreviation sent := ("meli.events", "accounts.linked", sample_payload)%string.

Lemma linked_event_has_job_witness : exists h,
  reaches (@published) relink h sent /\
  (exists h0 created_at now u, h = h0 ++ [Call (OMongo (MReplaceOne jobs (FEq ["_id"%string] (VStr "bootstrap-7-oauth"))
    (bootstrap_job "7" false created_at now) true)) (Ok u)]) /\
  _parse_event "{}" = Ok sample_payload.
Proof.
  assert (Hs : (run_until (@published) relink relinked_world).2 = Some sent) by (vm_compute; reflexivity).
  apply run_until_reaches in Hs as Hr. clear Hs. revert Hr. generalize (run_until (@published) relink relinked_world).1.
  intros h Hr. exists h. split; [exact Hr|].
  destruct (linked_event_has_job _ _ _ _ _ _ _ _ _ Hr) as (_ & _ & Hjob & _ & Hparse). split; [exact Hjob|].
  apply Hparse; [reflexivity|apply Nat.leb_le; reflexivity|reflexivity|reflexivity].
Defined.
End Example.
