(* ===== verification/BootstrapRunner.v ===== *)
(** The bootstrap DAG runner: [BootstrapDagRunner] of
    bootstrap/src/zeler_bootstrap/runner.py over the state machine of
    [BootstrapState.v].  The stages and the publisher are programs the runner is
    given; [StageLaws] states what it relies on. *)

From S2P Require Export BootstrapState.

Definition DEFAULT_STAGE_ORDER : list string :=
  ["accounts"; "items"; "orders"; "questions"; "messages"; "shipments"; "claims"]%string.

(** [d.get(k, dflt)] of a value that must be a dict. *)
Definition val_get (v : val) (k : string) (dflt : val) : result val :=
  match v with
  | VDict d => Ok (doc_get_or d k dflt)
  | _ => Err (mk_exn "AttributeError" "object has no attribute 'get'")
  end.

Section Runner.
Context {E : Type -> Type} `{PyRepr}.
Variable job_id : string.
Variable stage_run : string -> doc -> prog E unit.
Variable publish : doc -> prog E unit.
Variable stages : list string.
Variable max_attempts : Z.

(** [self._logger(job)]: the log context reads two fields. *)
Definition _logger (job : doc) : result unit :=
  let! _ := doc_at job "seller_id" in
  let! _ := doc_at job "_id" in
  Ok tt.

(** [int(job.get("attempt_count", 0))]. *)
Definition attempt_count (job : doc) : result Z := py_int (doc_get_or job "attempt_count" (VInt 0)).

Definition _record_failure (stage : string) (exc : exn) : prog E doc :=
  let* failed_doc := transition job_id "failed" (Some exc) in
  do* of_result (attempt_count failed_doc) in
  Ret failed_doc.

Definition _enter_running_state_if_needed : prog E doc :=
  let* job := load job_id in
  let* state := of_result (doc_at job "state") in
  let* job :=
    if py_eq state (VStr "failed") then
      let* attempts := of_result (attempt_count job) in
      if max_attempts <=? attempts then
        do* of_result (_logger job) in
        let* i := of_result (doc_at job "_id") in
        Raise (mk_exn "BootstrapTerminalFailure"
                 ("bootstrap retry budget exhausted for job " ++ py_str i))
      else requeue_for_retry job_id max_attempts
    else Ret job in
  let* state := of_result (doc_at job "state") in
  if py_eq state (VStr "pending") || py_eq state (VStr "paused")
  then transition job_id "running" None
  else Ret job.

Fixpoint _run_stages (stages : list string) : prog E unit :=
  match stages with
  | [] => Ret tt
  | stage :: rest =>
      let* job := load job_id in
      let* status := of_result (val_get (doc_get_or job "dag" (VDict ∅)) stage VNone) in
      if py_eq status (VStr "done") then _run_stages rest
      else
        do* catch (stage_run stage job)
              (fun exc => do* _record_failure stage exc in Raise exc) in
        let* updated := mark_stage_done job_id stage in
        let* progress := of_result (
          let! all := val_get (VDict updated) "stage_progress" (VDict ∅) in
          let! progress := val_get all stage (VDict ∅) in
          let! written := val_get progress "records_written" (VInt 0) in
          py_int written) in
        _run_stages rest
  end.

(** One attempt: the body of the [try]. *)
Definition run_attempt : prog E doc :=
  do* _run_stages stages in
  let* final_job := load job_id in
  do* catch (publish final_job)
        (fun exc =>
           if isinstance exc "BootstrapPublishError"
           then do* _record_failure "__publish__" exc in Raise exc
           else Raise exc) in
  let* completed := transition job_id "succeeded" None in
  do* of_result (attempt_count completed) in
  Ret completed.

(** The [while True] of [run]. *)
Fixpoint run_loop (fuel : nat) : prog E doc :=
  match fuel with
  | O => Raise (mk_exn "OutOfFuel" "")
  | S fuel =>
      let* job := _enter_running_state_if_needed in
      do* of_result (_logger job) in
      do* of_result (attempt_count job) in
      catch run_attempt
        (fun exc =>
           let* current := load job_id in
           let* retry :=
             if negb (isinstance exc "BootstrapPublishError") && py_eq (doc_get current "state") (VStr "failed")
             then let* attempts := of_result (attempt_count current) in Ret (attempts <? max_attempts)
             else Ret false in
           if (retry : bool) then
             do* requeue_for_retry job_id max_attempts in
             run_loop fuel
           else Raise exc)
  end.

Definition run_job : prog E doc := run_loop (S (Z.to_nat (Z.max 0 max_attempts))).
End Runner.

(** ** The control fields of a job *)

(** The fields the runner decides by. *)
Definition job_state (d : doc) : val := doc_get d "state".
Definition job_attempts (d : doc) : Z := match d !! "attempt_count"%string with Some (VInt z) => z | _ => 0 end.

(** A job document of the expected shape. *)
Record job_typed (d : doc) : Prop := {
  jt_state : exists s, d !! "state"%string = Some (VStr s);
  jt_attempts : match d !! "attempt_count"%string with None | Some (VInt _) => True | _ => False end;
}.

(** The moves of [ALLOWED_TRANSITIONS]. *)
Definition allowed_move (s s' : string) : bool :=
  match assoc s ALLOWED_TRANSITIONS with Some l => string_in s' l | None => false end.

(** One call moves the job along an allowed edge, counting the runs. *)
Definition job_move (d d' : doc) : Prop :=
  (job_state d' = job_state d /\ job_attempts d' = job_attempts d) \/
  (exists s s', job_state d = VStr s /\ job_state d' = VStr s' /\ (s = s' \/ allowed_move s s' = true) /\
     job_attempts d' = job_attempts d + (if String.eqb s' "running" then 1 else 0)).

Section Lifecycle.
Context {E : Type -> Type} {S : Type} `{PyRepr} `{MongoConf} `{ExtSpec E S}.
Variable job_id : string.
Variable max_attempts : Z.
Implicit Types w : world S.
Abbreviation slot := (jobs, job_id).

(** The retry budget of one job document. *)
Record in_budget (d : doc) : Prop := {
  ib_typed : job_typed d;
  ib_attempts : job_attempts d <= max_attempts;
  ib_waiting : job_state d = VStr "pending" \/ job_state d = VStr "paused" -> job_attempts d < max_attempts;
}.
Definition budget_ok (db : database) : Prop := forall d, db !! slot = Some d -> in_budget d.

Definition slot_move (db db' : database) : Prop :=
  match db !! slot, db' !! slot with
  | Some d, Some d' => job_move d d'
  | None, None => True
  | _, _ => False
  end.

(** What one call does to the job. *)
Definition job_step w w' : Prop :=
  db_wf (w_db w) -> budget_ok (w_db w) ->
  db_wf (w_db w') /\ budget_ok (w_db w') /\ slot_move (w_db w) (w_db w').

Lemma job_move_refl d : job_move d d.
Proof. left. done. Qed.
Lemma slot_move_refl db : slot_move db db.
Proof. unfold slot_move. destruct (db !! slot); [apply job_move_refl|done]. Qed.

Lemma job_step_same w w' : w_db w' = w_db w -> job_step w w'.
Proof. intros Hd Hwf Hb. rewrite Hd. auto using slot_move_refl. Qed.

Lemma guarded_find {B : Type} c f s (k : option doc -> prog E B) :
  (forall o, guarded job_step (k o)) -> guarded job_step (bind (mongo (MFindOne c f s)) k).
Proof.
  intros Hk. apply guarded_bind; [|done]. apply guarded_perform.
  intros w w' r ([[Hd _]|[_ [Hd|(r' & Hd & _)]]] & _); by apply job_step_same.
Qed.

Lemma guarded_now {B : Type} (k : Z -> prog E B) :
  (forall t, guarded job_step (k t)) -> guarded job_step (bind now_utc k).
Proof.
  intros Hk. apply guarded_bind; [|done]. apply guarded_perform.
  intros w w' r [(Hd & _) _]. by apply job_step_same.
Qed.

(** An update of the job document. *)
Lemma guarded_update {B : Type} f u a (k : option doc -> prog E B) :
  keyed f job_id ->
  (forall now d d', in_budget d -> matches now f d = true -> apply_update now false u d = Some d' ->
     in_budget d' /\ job_move d d') ->
  (forall o, guarded job_step (k o)) ->
  guarded job_step (bind (mongo (MFindOneAndUpdate jobs f u false a)) k).
Proof.
  intros Hkey Hu Hk. apply guarded_bind; [|done]. apply guarded_perform.
  assert (Hok : forall w w' r,
    mongo_ok (w_now w') (MFindOneAndUpdate jobs f u false a) (w_db w) (w_db w') r -> job_step w w').
  { intros w w' r Hm Hwf Hb. pose proof (mongo_ok_wf _ _ _ _ _ Hwf Hm) as Hwf'.
    apply mongo_ok_find_one_and_update with (i := job_id) in Hm; [|done..].
    unfold at_id in Hm. destruct (w_db w !! slot) as [d|] eqn:Hd.
    2:{ destruct Hm as [Hdb _]. rewrite Hdb in *. auto using slot_move_refl. }
    destruct (matches (w_now w') f d) eqn:Hm1.
    2:{ destruct Hm as [Hdb _]. rewrite Hdb in *. auto using slot_move_refl. }
    unfold updates, stores in Hm. destruct (apply_update _ _ _ _) as [d'|] eqn:Ha.
    2:{ destruct Hm as [Hdb _]. rewrite Hdb in *. auto using slot_move_refl. }
    destruct (decide _); [|destruct Hm as [Hdb _]; rewrite Hdb in *; auto using slot_move_refl].
    destruct (unique_ok _ _ _ _); destruct Hm as [Hdb _]; rewrite Hdb in *; [|auto using slot_move_refl].
    destruct (Hu _ _ _ (Hb _ Hd) Hm1 Ha) as [Hb' Hmv]. split; [done|]. split.
    - intros x. rewrite lookup_insert_eq. by intros [= <-].
    - unfold slot_move. by rewrite Hd, lookup_insert_eq. }
  intros w w' r ([Hm|[_ [Hd|[r' Hm]]]] & _); [by eapply Hok|by apply job_step_same|by eapply Hok].
Qed.

(** An update that leaves the control fields alone. *)
Lemma frame_in_budget d d' :
  d' !! "state"%string = d !! "state"%string -> d' !! "attempt_count"%string = d !! "attempt_count"%string ->
  in_budget d -> in_budget d' /\ job_move d d'.
Proof.
  intros Hs Ha [[Hst Hat] Hle Hlt].
  assert (He : job_state d' = job_state d) by (unfold job_state, doc_get; by rewrite Hs).
  assert (Hc : job_attempts d' = job_attempts d) by (unfold job_attempts; by rewrite Ha).
  split; [|by left]. constructor; rewrite ?He, ?Hc; try done. constructor; by rewrite ?Hs, ?Ha.
Qed.

(** The control fields after a transition. *)
Lemma transition_update_fields now t current new_state error d d' :
  apply_update now false (transition_update current new_state error t) d = Some d' ->
  job_typed d ->
  d' !! "state"%string = Some (VStr new_state) /\ job_typed d' /\
  job_attempts d' = job_attempts d + (if String.eqb new_state "running" then 1 else 0).
Proof.
  unfold transition_update. cbn [apply_update]. rewrite apply_upds_app, !app_assoc.
  intros Ha [_ Hatt]. apply bind_Some in Ha as (d0 & Hd0 & Ha).
  rewrite apply_upds_app in Ha. apply bind_Some in Ha as (d1 & Hd1 & Hd2).
  assert (Hframe : forall k, k = "state"%string \/ k = "attempt_count"%string -> d1 !! k = d0 !! k).
  { intros k Hk. eapply apply_upds_frame; [exact Hd1|]. rewrite !Forall_app. unfold upd_field.
    destruct Hk as [->| ->]; repeat split; repeat (case_match || constructor || done). }
  injection Hd0 as <-.
  assert (Hs1 : d1 !! "state"%string = Some (VStr new_state)).
  { rewrite Hframe by auto. by doc_simp. }
  assert (Hf1 : d1 !! "attempt_count"%string = d !! "attempt_count"%string).
  { rewrite Hframe by auto. by doc_simp. }
  clear Hframe.
  destruct (String.eqb new_state "running") eqn:Hr.
  - simpl in Hd2. unfold job_attempts. rewrite Hf1 in Hd2.
    destruct (d !! "attempt_count"%string) as [[]|]; try done; simpl in Hd2.
    + destruct (int64_ok _); [|done]. injection Hd2 as <-. split; [by doc_simp|]. split; [|by doc_simp].
      constructor; [exists new_state|]; by doc_simp.
    + injection Hd2 as <-. split; [by doc_simp|]. split; [|by doc_simp].
      constructor; [exists new_state|]; by doc_simp.
  - injection Hd2 as <-. split; [done|]. split; [|unfold job_attempts; rewrite Hf1; lia].
    constructor; [eauto|by rewrite Hf1].
Qed.

Lemma matches_state now d s :
  job_typed d -> matches now (FAnd [FEq ["_id"%string] (VStr job_id); FEq ["state"%string] (VStr s)]) d = true ->
  d !! "state"%string = Some (VStr s).
Proof.
  intros [[s' Hs] _] Hm. simpl in Hm. apply andb_true_iff in Hm as [_ Hm]. apply andb_true_iff in Hm as [Hm _].
  rewrite (match_eq_str_field _ _ _ _ Hs) in Hm. apply String.eqb_eq in Hm as ->. done.
Qed.

Lemma guarded_load : guarded job_step (load (E := E) job_id).
Proof. apply guarded_find. by intros [d|]. Qed.

Lemma guarded_transition new_state error :
  new_state <> "pending"%string -> new_state <> "paused"%string ->
  guarded job_step (transition (E := E) job_id new_state error).
Proof.
  intros Hnp Hns. apply guarded_bind; [apply guarded_load|]. intros current.
  apply guarded_bind; [apply guarded_of_result|]. intros state.
  cbv zeta. destruct (assoc (py_str state) ALLOWED_TRANSITIONS) as [allowed|] eqn:Has; [|exact I].
  destruct (string_in new_state allowed) eqn:Hin; simpl; [|exact I].
  apply guarded_now. intros t. apply guarded_update; [apply keyed_and| |by intros [u|]].
  intros now d d' Hib Hm Ha. pose proof (ib_typed _ Hib) as Hty. pose proof (matches_state _ _ _ Hty Hm) as Hs.
  destruct (transition_update_fields _ _ _ _ _ _ _ Ha Hty) as (Hs' & Hty' & Hatt).
  assert (Hj : job_state d = VStr (py_str state)) by (unfold job_state, doc_get; by rewrite Hs).
  assert (Hj' : job_state d' = VStr new_state) by (unfold job_state, doc_get; by rewrite Hs').
  assert (Hmv : allowed_move (py_str state) new_state = true) by (unfold allowed_move; by rewrite Has).
  split; [|right; exists (py_str state), new_state; auto].
  constructor; [done| |rewrite Hj'; intros [[= ->]|[= ->]]; congruence].
  destruct (String.eqb new_state "running") eqn:Hr; [|pose proof (ib_attempts _ Hib); lia].
  apply String.eqb_eq in Hr. subst new_state. assert (job_attempts d < max_attempts); [|lia].
  apply (ib_waiting _ Hib). rewrite Hj. revert Hmv. unfold allowed_move, assoc, ALLOWED_TRANSITIONS. cbn [List.find fst snd].
  repeat match goal with
  | |- context [String.eqb ?x (py_str state)] =>
      destruct (String.eqb_spec x (py_str state)) as [<-|_]; [simpl; intros Hin'; by (discriminate Hin' || auto)|]
  end.
  discriminate.
Qed.

Lemma requeue_matches now d :
  job_typed d -> matches now (requeue_filter job_id max_attempts) d = true ->
  (d !! "state"%string = Some (VStr "failed") \/ d !! "state"%string = Some (VStr "pending")) /\
  job_attempts d < max_attempts.
Proof.
  intros [[s Hs] Ha] Hm. unfold requeue_filter in Hm. cbn [matches forallb existsb] in Hm.
  rewrite (agg_lt_int now d _ _ (job_attempts d) max_attempts) in Hm; [|by unfold job_attempts; simpl; destruct (d !! "attempt_count"%string) as [[]|]|done].
  rewrite !(match_eq_str_field _ _ _ _ Hs), orb_false_r, andb_true_r in Hm.
  apply andb_true_iff in Hm as [_ Hm]. apply andb_true_iff in Hm as [Hst Hlt]. apply Z.ltb_lt in Hlt.
  split; [|done]. rewrite Hs. apply orb_true_iff in Hst as [He|He]; apply String.eqb_eq in He as <-; auto.
Qed.

Lemma guarded_requeue : guarded job_step (requeue_for_retry (E := E) job_id max_attempts).
Proof.
  apply guarded_now. intros t. apply guarded_update; [apply keyed_and| |by intros [u|]].
  intros now d d' Hib Hm Ha. pose proof (ib_typed _ Hib) as Hty.
  destruct (requeue_matches _ _ Hty Hm) as [Hst Hlt].
  assert (Hs' : d' !! "state"%string = Some (VStr "pending")).
  { eapply (apply_update_set _ _ _ (VStr "pending")); [exact Ha|]. by repeat constructor. }
  assert (Hf : d' !! "attempt_count"%string = d !! "attempt_count"%string).
  { eapply apply_update_frame; [exact Ha|]. by repeat constructor. }
  assert (Hc : job_attempts d' = job_attempts d) by (unfold job_attempts; by rewrite Hf).
  split.
  - constructor; rewrite ?Hc; [|lia|done]. constructor; [eauto|]. rewrite Hf. apply Hty.
  - right. unfold job_state, doc_get. rewrite Hs'. destruct Hst as [Hst|Hst]; rewrite Hst; simpl.
    + exists "failed"%string, "pending"%string. rewrite Hc. repeat split; [by right|simpl; lia].
    + exists "pending"%string, "pending"%string. rewrite Hc. repeat split; [by left|simpl; lia].
Qed.

Lemma guarded_mark_stage_done stage : guarded job_step (mark_stage_done (E := E) job_id stage).
Proof.
  apply guarded_now. intros t. apply guarded_update; [apply keyed_and| |by intros [u|]].
  intros now d d' Hib Hm Ha. apply frame_in_budget; [| |done];
    (eapply apply_update_frame; [exact Ha|]; by repeat constructor).
Qed.

Lemma guarded_update_cursor stage cursor : guarded job_step (update_cursor (E := E) job_id stage cursor).
Proof.
  apply guarded_now. intros t. apply guarded_update; [apply keyed_and| |by intros [u|]].
  intros now d d' Hib Hm Ha. apply frame_in_budget; [| |done];
    (eapply apply_update_frame; [exact Ha|]; by repeat constructor).
Qed.
End Lifecycle.
