(* ===== verification/BootstrapProofs.v ===== *)
(** Properties of the bootstrap job: its lifecycle under interference, what one
    run of [BootstrapDagRunner.run] achieves, and the runs that cannot succeed. *)

From S2P Require Export BootstrapRunner.

Definition no_fuel (e : exn) : Prop := exn_cls e <> "OutOfFuel"%string.

(** The fields of a job that only the runner writes. *)
Definition control (d : doc) : list (option val) :=
  (fun k => d !! k) <$> ["_id"; "state"; "attempt_count"; "dag"; "seller_id"]%string.

(** A call of a stage or of the publisher leaves them alone. *)
Definition job_keeps {S : Type} (job_id : string) (w w' : world S) : Prop :=
  db_wf (w_db w) -> db_wf (w_db w') /\ control <$> w_db w' !! (jobs, job_id) = control <$> w_db w !! (jobs, job_id).

(** What the runner relies on: the stages and the publisher write other
    documents and fields, and raise exceptions of their own. *)
Class StageLaws {E : Type -> Type} {S : Type} `{MongoConf} `{ExtSpec E S} (job_id : string)
    (stage_run : string -> doc -> prog E unit) (publish : doc -> prog E unit) := {
  stage_keeps : forall name job, guarded (S := S) (job_keeps job_id) (stage_run name job);
  publish_keeps : forall job, guarded (S := S) (job_keeps job_id) (publish job);
  stage_raises : forall name job (w : world S),
    wp (stage_run name job) (fun _ r => forall e, r = Err e -> no_fuel e) w;
  publish_raises : forall job (w : world S),
    wp (publish job) (fun _ r => forall e, r = Err e -> no_fuel e) w;
}.

Lemma control_eq d d' k :
  control d' = control d -> In k ["_id"; "state"; "attempt_count"; "dag"; "seller_id"]%string -> d' !! k = d !! k.
Proof.
  unfold control. simpl. intros [= H1 H2 H3 H4 H5]. simpl.
  intros [<-|[<-|[<-|[<-|[<-|[]]]]]]; congruence.
Qed.

Section Sequential.
Context {E : Type -> Type} {S : Type} `{PyRepr} `{MongoConf} `{ExtSpec E S}.
Variable job_id : string.
Variable stage_run : string -> doc -> prog E unit.
Variable publish : doc -> prog E unit.
Context `{!StageLaws (S := S) job_id stage_run publish}.
Variable max_attempts : Z.
Implicit Types w : world S.
Abbreviation slot := (jobs, job_id).

Lemma keeps_step w w' : job_keeps job_id w w' -> job_step job_id max_attempts w w'.
Proof using.
  intros Hk Hwf Hb. destruct (Hk Hwf) as [Hwf' Hc]. split; [done|]. unfold budget_ok, slot_move in *.
  destruct (w_db w !! slot) as [d|], (w_db w' !! slot) as [d'|]; try done. apply (inj Some) in Hc.
  destruct (frame_in_budget max_attempts d d') as [Hb' Hm]; [apply (control_eq _ _ _ Hc); simpl; auto..|by apply Hb|].
  split; [|done]. by intros x [= <-].
Qed.

Lemma keeps_refl w : job_keeps job_id w w.
Proof using. done. Qed.
Lemma keeps_trans w w' w'' : job_keeps job_id w w' -> job_keeps job_id w' w'' -> job_keeps job_id w w''.
Proof using. intros Ha Hb Hwf. destruct (Ha Hwf) as [Hwf' Hc]. destruct (Hb Hwf') as [Hwf'' Hc']. split; [done|congruence]. Qed.

(** *** Calls on the job, nobody else writing *)

Lemma wp_load_job {B : Type} (k : doc -> prog E B) Q w d :
  db_wf (w_db w) -> w_db w !! slot = Some d ->
  (forall w', w_db w' = w_db w -> wp (k (dec d)) Q w') ->
  (forall w' e, w_db w' = w_db w -> no_fuel e -> Q w' (Err e)) ->
  wp (bind (load job_id) k) Q w.
Proof using.
  intros Hwf Hd Hk He. unfold load. apply wp_bind. eapply wp_find_one; [done|apply keyed_id| |].
  - intros w' Hs. rewrite at_id_eq, Hd by done. simpl. apply Hk. apply Hs.
  - intros w' Hs. apply He; [apply Hs|done].
Qed.

Lemma wp_job_update {B : Type} f u (k : option doc -> prog E B) Q w d :
  db_wf (w_db w) -> w_db w !! slot = Some d -> keyed f job_id ->
  (forall now w' d', matches now f d = true -> apply_update now false u d = Some d' ->
     w_db w' = <[slot := d']> (w_db w) -> db_wf (w_db w') ->
     wp (k (Some (dec d))) Q w' /\ Q w' auto_reconnect) ->
  (forall now w', w_db w' = w_db w -> matches now f d = false -> wp (k None) Q w') ->
  (forall w' e, w_db w' = w_db w -> no_fuel e -> Q w' (Err e)) ->
  wp (bind (mongo (MFindOneAndUpdate jobs f u false false)) k) Q w.
Proof using.
  intros Hwf Hd Hkey Hyes Hno Herr.
  assert (Hcall : forall w' r, mongo_ok (w_now w') (MFindOneAndUpdate jobs f u false false) (w_db w) (w_db w') r ->
    (match r with Ok x => wp (k x) Q w' | Err e => Q w' (Err e) end) /\ Q w' auto_reconnect).
  { intros w' r Hm. pose proof (mongo_ok_wf _ _ _ _ _ Hwf Hm) as Hwf'.
    apply mongo_ok_find_one_and_update with (i := job_id) in Hm; [|done..].
    unfold at_id in Hm. rewrite Hd in Hm. destruct (matches (w_now w') f d) eqn:Hmt.
    2:{ destruct Hm as [Hdb ->]. split; [by eapply Hno|by apply Herr]. }
    unfold updates, stores in Hm. destruct (apply_update _ _ _ _) as [d'|] eqn:Ha.
    2:{ destruct Hm as [Hdb ->]. split; by apply Herr. }
    destruct (decide _); [|destruct Hm as [Hdb ->]; split; by apply Herr].
    destruct (unique_ok _ _ _ _); destruct Hm as [Hdb ->]; [by eapply Hyes|split; by apply Herr]. }
  apply wp_mongo.
  - intros w' r Hm _. by apply Hcall.
  - intros w' _ [Hdb|[r Hm]]; [by apply Herr|by eapply Hcall].
Qed.

(** A job document in a state, with its attempts. *)
Record job_in (d : doc) (s : string) (a : Z) : Prop := {
  ji_typed : job_typed d;
  ji_state : d !! "state"%string = Some (VStr s);
  ji_attempts : job_attempts d = a;
}.

(** The stage is marked done. *)
Definition stage_done (d : doc) (stage : string) : Prop :=
  exists g, d !! "dag"%string = Some (VDict g) /\ g !! stage = Some (VStr "done").

Definition same_dag (d d' : doc) : Prop := d' !! "dag"%string = d !! "dag"%string.

Lemma doc_at_state d s a : job_in d s a -> doc_at (dec d) "state" = Ok (VStr s).
Proof using. intros [_ Hs _]. unfold doc_at, dec, decode_doc. by rewrite lookup_fmap, Hs. Qed.

Lemma attempt_count_in d s a : job_in d s a -> attempt_count (dec d) = Ok a.
Proof using.
  intros [[_ Ht] _ Ha]. unfold attempt_count, doc_get_or, dec, decode_doc. rewrite lookup_fmap.
  unfold job_attempts in Ha. destruct (d !! "attempt_count"%string) as [[]|]; simpl in *; congruence || done.
Qed.

Lemma wp_transition ns error w d s a (Q : world S -> result doc -> Prop) :
  db_wf (w_db w) -> w_db w !! slot = Some d -> job_in d s a ->
  (forall w' d', allowed_move s ns = true -> db_wf (w_db w') -> w_db w' !! slot = Some d' ->
     job_in d' ns (a + (if String.eqb ns "running" then 1 else 0)) -> same_dag d d' ->
     Q w' (Ok (dec d)) /\ Q w' auto_reconnect) ->
  (forall w' e, w_db w' = w_db w -> no_fuel e -> Q w' (Err e)) ->
  wp (transition job_id ns error) Q w.
Proof using.
  intros Hwf Hd Hj Hyes Herr. eapply wp_load_job; [done..| |done]. intros w1 Hw1.
  rewrite (doc_at_state _ _ _ Hj). cbn [bind of_result py_str]. cbv zeta.
  destruct (assoc s ALLOWED_TRANSITIONS) as [allowed|] eqn:Has; [|by apply Herr].
  destruct (string_in ns allowed) eqn:Hin; [|by apply Herr]. cbn [negb].
  apply wp_now. intros w2 (Hw2 & _). rewrite Hw1 in Hw2.
  eapply wp_job_update; [by rewrite Hw2|by rewrite Hw2|apply keyed_and| | |].
  - intros now w3 d' Hm Ha Hdb Hwf3.
    destruct (transition_update_fields _ _ _ _ _ _ _ Ha (ji_typed _ _ _ Hj)) as (Hs' & Ht' & Hat).
    apply (Hyes _ d'); [unfold allowed_move; by rewrite Has|done|by rewrite Hdb, lookup_insert_eq| |].
    + constructor; [done..|]. rewrite Hat. by rewrite (ji_attempts _ _ _ Hj).
    + eapply apply_update_frame; [exact Ha|]. rewrite !Forall_app. unfold upd_field.
      repeat split; repeat (case_match || constructor || done).
  - intros now w3 Hw3 _. apply Herr; [congruence|done].
  - intros w3 e Hw3 He. apply Herr; [congruence|done].
Qed.

(** Setting a stage done keeps the others. *)
Lemma mark_done_dag now ins stage d d' us :
  split_dots stage = [stage] ->
  apply_update now ins (UOps (USet ("dag" :: split_dots stage)%string (VStr "done") :: us)) d = Some d' ->
  Forall (fun u => upd_field u <> "dag"%string) us ->
  stage_done d' stage /\ forall st, stage_done d st -> stage_done d' st.
Proof using.
  intros Hdots Ha Hus. rewrite Hdots in Ha. cbn [apply_update apply_upds] in Ha.
  apply bind_Some in Ha as (d1 & Hd1 & Ha).
  assert (Hf : d' !! "dag"%string = d1 !! "dag"%string) by (by eapply apply_upds_frame).
  unfold stage_done. rewrite Hf. simpl in Hd1.
  destruct (d !! "dag"%string) as [[]|] eqn:Hdag; try done; injection Hd1 as <-; rewrite lookup_insert_eq.
  - split; [eexists; split; [done|apply lookup_insert_eq]|]. intros st (g & [= <-] & Hg).
    eexists. split; [done|]. destruct (decide (stage = st)) as [->|Hne]; [apply lookup_insert_eq|].
    by rewrite lookup_insert_ne.
  - split; [eexists; split; [done|apply lookup_insert_eq]|]. by intros st (g & ? & _).
Qed.

Lemma wp_mark_stage_done stage {B : Type} (k : doc -> prog E B) w d s a Q :
  split_dots stage = [stage] ->
  db_wf (w_db w) -> w_db w !! slot = Some d -> job_in d s a ->
  (forall w' d', s = "running"%string -> db_wf (w_db w') -> w_db w' !! slot = Some d' -> job_in d' s a ->
     stage_done d' stage -> (forall st, stage_done d st -> stage_done d' st) ->
     wp (k (dec d)) Q w' /\ Q w' auto_reconnect) ->
  (forall w' e, w_db w' = w_db w -> no_fuel e -> Q w' (Err e)) ->
  wp (bind (mark_stage_done job_id stage) k) Q w.
Proof using.
  intros Hdots Hwf Hd Hj Hyes Herr. apply wp_bind. apply wp_now. intros w1 (Hw1 & _).
  eapply wp_job_update; [by rewrite Hw1|by rewrite Hw1|apply keyed_and| | |].
  - intros now w2 d' Hm Ha Hdb Hwf2.
    pose proof (matches_state job_id _ _ _ (ji_typed _ _ _ Hj) Hm) as Hs. rewrite (ji_state _ _ _ Hj) in Hs.
    injection Hs as Hs. destruct (mark_done_dag _ _ _ _ _ _ Hdots Ha) as [Hdone Hkeep]; [by repeat constructor|].
    assert (Hf : forall f, f = "state"%string \/ f = "attempt_count"%string -> d' !! f = d !! f).
    { intros f Hf. eapply apply_update_frame; [exact Ha|]. destruct Hf as [->| ->]; by repeat constructor. }
    apply (Hyes _ d'); [done|done|by rewrite Hdb, lookup_insert_eq| |done|done].
    destruct Hj as [[Hts Hta] Hjs Hja]. constructor; [constructor; rewrite Hf by auto; eauto|by rewrite Hf by auto|].
    unfold job_attempts. rewrite Hf by auto. done.
  - intros now w2 Hw2 _. apply Herr; [congruence|done].
  - intros w2 e Hw2 He. apply Herr; [congruence|done].
Qed.

Lemma keeps_job w w' d s a :
  job_keeps job_id w w' -> db_wf (w_db w) -> w_db w !! slot = Some d -> job_in d s a ->
  db_wf (w_db w') /\ exists d', w_db w' !! slot = Some d' /\ job_in d' s a /\ same_dag d d'.
Proof using.
  intros Hk Hwf Hd [[Hts Hta] Hs Ha]. destruct (Hk Hwf) as [Hwf' Hc]. split; [done|]. rewrite Hd in Hc.
  destruct (w_db w' !! slot) as [d'|]; [|done]. apply (inj Some) in Hc. exists d'. split; [done|].
  assert (Hf : forall f, In f ["_id"; "state"; "attempt_count"; "dag"; "seller_id"]%string -> d' !! f = d !! f).
  { intros f Hf. by apply (control_eq _ _ _ Hc). }
  split; [|apply Hf; simpl; auto].
  constructor; [constructor|by rewrite Hf by (simpl; auto)|unfold job_attempts; rewrite Hf; [done|simpl; auto]].
  - rewrite Hf by (simpl; auto). done.
  - rewrite Hf by (simpl; auto). done.
Qed.

Lemma stage_done_dag d d' st : same_dag d d' -> stage_done d st -> stage_done d' st.
Proof using. intros Hd. unfold stage_done. by rewrite Hd. Qed.

(** The skip test of [_run_stages]. *)
Lemma skip_done d stage v :
  val_get (doc_get_or (dec d) "dag" (VDict ∅)) stage VNone = Ok v -> py_eq v (VStr "done") = true ->
  stage_done d stage.
Proof using.
  unfold doc_get_or, dec, decode_doc. rewrite lookup_fmap. unfold stage_done.
  destruct (d !! "dag"%string) as [x|]; [|by intros [= <-]].
  destruct x as [| | | | | |g]; simpl; try done. intros [= <-] Hv. apply py_eq_str in Hv.
  exists g. split; [done|]. unfold doc_get_or in Hv. rewrite lookup_fmap in Hv.
  destruct (g !! stage) as [y|]; [|done]. simpl in Hv. destruct y; simpl in Hv; congruence.
Qed.

(** What the job looks like after stages were run from state [s]. *)
Definition stages_post (sts : list string) (d : doc) (s : string) (a : Z) (w' : world S) (r : result unit) : Prop :=
  db_wf (w_db w') /\ exists d' s', w_db w' !! slot = Some d' /\ job_in d' s' a /\
    match r with
    | Ok _ => s' = s /\ (forall st, In st sts -> stage_done d' st) /\ (forall st, stage_done d st -> stage_done d' st)
    | Err e => no_fuel e /\ (s' = s \/ s = "running"%string /\ s' = "failed"%string)
    end.

Lemma ends_from_running s ns :
  ns = "failed"%string \/ ns = "succeeded"%string -> allowed_move s ns = true -> s = "running"%string.
Proof using.
  unfold allowed_move, assoc, ALLOWED_TRANSITIONS. cbn [List.find fst snd].
  repeat match goal with
  | |- context [String.eqb ?x s] => destruct (String.eqb_spec x s) as [<-|_]; [by intros [->| ->]|]
  end. by intros _.
Qed.

Lemma wp_record_failure stage exc w d s a {B : Type} (Q : world S -> result B -> Prop) :
  db_wf (w_db w) -> w_db w !! slot = Some d -> job_in d s a -> no_fuel exc ->
  (forall w' d' s' e, db_wf (w_db w') -> w_db w' !! slot = Some d' -> job_in d' s' a -> no_fuel e ->
     s' = s \/ s = "running"%string /\ s' = "failed"%string -> Q w' (Err e)) ->
  wp (do* _record_failure job_id stage exc in Raise exc) Q w.
Proof using.
  intros Hwf Hd Hj Hexc Hq. apply wp_bind. unfold _record_failure. apply wp_bind.
  eapply wp_transition; [done..| |].
  - intros w' d' Hmv Hwf' Hd' Hj' _. rewrite Z.add_0_r in Hj'.
    pose proof (ends_from_running _ _ (or_introl eq_refl) Hmv) as Hs.
    split.
    + apply wp_bind. rewrite (attempt_count_in _ _ _ Hj). simpl. by eapply Hq; eauto.
    + simpl. by eapply Hq; eauto.
  - intros w' e Hw' He. simpl. eapply Hq; eauto; by rewrite ?Hw'.
Qed.

(** Reading the progress of a stage raises exceptions of Python. *)
Lemma progress_errors updated stage e :
  (let! all := val_get (VDict updated) "stage_progress" (VDict ∅) in
   let! progress := val_get all stage (VDict ∅) in
   let! written := val_get progress "records_written" (VInt 0) in
   py_int written) = Err e -> no_fuel e.
Proof using.
  assert (Hget : forall v k x e, val_get v k x = Err e -> no_fuel e).
  { intros v k x e'. destruct v; simpl; intros [= <-]; done. }
  assert (Hint : forall v e, py_int v = Err e -> no_fuel e).
  { intros v e'. destruct v; simpl; try (intros [= <-]; done). destruct (int_literal s); intros [= <-]; done. }
  destruct (val_get _ _ _) as [v1|e1] eqn:H1'; simpl; [|intros [= <-]; eauto].
  destruct (val_get v1 _ _) as [v2|e2] eqn:H2'; simpl; [|intros [= <-]; eauto].
  destruct (val_get v2 _ _) as [v3|e3] eqn:H3'; simpl; [|intros [= <-]; eauto]. apply Hint.
Qed.

Lemma wp_run_stages sts w d s a :
  Forall (fun st => split_dots st = [st]) sts ->
  db_wf (w_db w) -> w_db w !! slot = Some d -> job_in d s a ->
  wp (_run_stages job_id stage_run sts) (stages_post sts d s a) w.
Proof using StageLaws0.
  intros Hdots. revert w d. induction Hdots as [|stage sts Hdot Hdots IH]; intros w d Hwf Hd Hj.
  { split; [done|]. exists d, s. split; [done|]. split; [done|]. split; [done|]. split; [by intros st []|done]. }
  assert (Herr : forall w' e, w_db w' = w_db w -> no_fuel e -> stages_post (stage :: sts) d s a w' (Err e)).
  { intros w' e Hw He. unfold stages_post. rewrite Hw. split; [done|]. exists d, s. auto. }
  cbn [_run_stages]. eapply wp_load_job; [done..| |done]. intros w1 Hw1.
  destruct (val_get _ stage VNone) as [v|e] eqn:Hv.
  2:{ simpl. apply Herr; [done|]. revert Hv. unfold val_get. destruct (doc_get_or _ _ _); intros [= <-]; done. }
  cbn [bind of_result]. destruct (py_eq v _) eqn:Hdone.
  { eapply wp_mono; [apply (IH w1 d)|]; rewrite ?Hw1; [done..|]. intros w' r (Hwf' & d' & s' & Hd' & Hj' & Hr).
    split; [done|]. exists d', s'. split; [done|]. split; [done|]. destruct r; [|done].
    destruct Hr as (-> & Hall & Hk). split; [done|]. split; [|done]. intros st [<-|Hin]; [|auto].
    apply Hk. by eapply skip_done. }
  apply wp_bind, wp_catch.
  pose proof (guarded_wp (job_keeps job_id) (stage_run stage (dec d)) w1 keeps_refl keeps_trans (stage_keeps stage (dec d))) as Hkeep.
  eapply wp_mono; [apply wp_and; [apply Hkeep|apply (stage_raises stage (dec d) w1)]|].
  intros w2 r [Hk Hexc]. destruct (keeps_job _ _ d s a Hk) as (Hwf2 & d2 & Hd2 & Hj2 & Hdag); rewrite ?Hw1; [done..|].
  destruct r as [u|exc].
  2:{ eapply wp_record_failure; eauto. intros w3 d3 s3 e Hwf3 Hd3 Hj3 He Hs3.
      split; [done|]. exists d3, s3. auto. }
  assert (Herr2 : forall w' e, w_db w' = w_db w2 -> no_fuel e -> stages_post (stage :: sts) d s a w' (Err e)).
  { intros w' e Hw He. unfold stages_post. rewrite Hw. split; [done|]. exists d2, s. auto. }
  eapply wp_mark_stage_done; [done..| |done].
  intros w3 d3 Hs Hwf3 Hd3 Hj3 Hdone3 Hkeep3.
  assert (Herr3 : forall e, no_fuel e -> stages_post (stage :: sts) d s a w3 (Err e)).
  { intros e He. split; [done|]. exists d3, s. auto. }
  split; [|by apply Herr3]. apply wp_bind, wp_of_result.
  match goal with |- context [match ?x with Ok _ => _ | Err _ => _ end] => destruct x as [n|e] eqn:Hp end.
  2:{ apply Herr3. by eapply progress_errors. }
  eapply wp_mono; [apply (IH w3 d3); done|]. intros w' r (Hwf' & d' & s' & Hd' & Hj' & Hr).
  split; [done|]. exists d', s'. split; [done|]. split; [done|]. destruct r; [|done].
  destruct Hr as (-> & Hall & Hk'). split; [done|]. split.
  - intros st [<-|Hin]; auto.
  - intros st Hst. apply Hk', Hkeep3. by eapply stage_done_dag.
Qed.

Variable stages : list string.
Hypothesis stages_plain : Forall (fun st => split_dots st = [st]) stages.

Definition attempt_post (s : string) (a : Z) (w' : world S) (r : result doc) : Prop :=
  db_wf (w_db w') /\ exists d' s', w_db w' !! slot = Some d' /\ job_in d' s' a /\
    match r with
    | Ok _ => s = "running"%string /\ s' = "succeeded"%string /\ forall st, In st stages -> stage_done d' st
    | Err e => no_fuel e /\ (s' = s \/ s = "running"%string /\ (s' = "failed"%string \/ s' = "succeeded"%string))
    end.

Lemma wp_run_attempt w d s a :
  db_wf (w_db w) -> w_db w !! slot = Some d -> job_in d s a ->
  wp (run_attempt job_id stage_run publish stages) (attempt_post s a) w.
Proof using StageLaws0 stages_plain.
  intros Hwf Hd Hj. unfold run_attempt. apply wp_bind. eapply wp_mono; [by eapply wp_run_stages|].
  intros w1 r (Hwf1 & d1 & s1 & Hd1 & Hj1 & Hr). destruct r as [u|e].
  2:{ split; [done|]. exists d1, s1. destruct Hr as [He [->|[-> ->]]]; auto 10. }
  destruct Hr as (-> & Hall & _).
  assert (Herr : forall w' e, w_db w' = w_db w1 -> no_fuel e -> attempt_post s a w' (Err e)).
  { intros w' e Hw He. unfold attempt_post. rewrite Hw. split; [done|]. exists d1, s. auto 10. }
  eapply wp_load_job; [done..| |done]. intros w2 Hw2. apply wp_bind, wp_catch.
  pose proof (guarded_wp (job_keeps job_id) (publish (dec d1)) w2 keeps_refl keeps_trans (publish_keeps (dec d1))) as Hkeep.
  eapply wp_mono; [apply wp_and; [apply Hkeep|apply (publish_raises (dec d1) w2)]|].
  intros w3 r [Hk Hexc]. destruct (keeps_job _ _ d1 s a Hk) as (Hwf3 & d3 & Hd3 & Hj3 & Hdag); rewrite ?Hw2; [done..|].
  destruct r as [u'|exc].
  2:{ destruct (isinstance exc _).
      - eapply wp_record_failure; eauto. intros w4 d4 s4 e Hwf4 Hd4 Hj4 He Hs4.
        split; [done|]. exists d4, s4. destruct Hs4 as [->|[-> ->]]; auto 10.
      - split; [done|]. exists d3, s. auto 10. }
  apply wp_bind. eapply wp_transition; [done..| |].
  - intros w4 d4 Hmv Hwf4 Hd4 Hj4 Hdag4. rewrite Z.add_0_r in Hj4.
    pose proof (ends_from_running _ _ (or_intror eq_refl) Hmv) as ->. split.
    + rewrite (attempt_count_in _ _ _ Hj3). split; [done|]. exists d4, "succeeded"%string.
      split; [done|]. split; [done|]. split; [done|]. split; [done|]. intros st Hst.
      eapply stage_done_dag; [done|]. eapply stage_done_dag; [done|]. auto 10.
    + split; [done|]. exists d4, "succeeded"%string. split; [done|]. split; [done|]. split; [done|]. auto 10.
  - intros w4 e Hw4 He. split; [by rewrite Hw4|]. exists d3, s. rewrite Hw4. auto 10.
Qed.

Lemma wp_requeue {B : Type} (k : doc -> prog E B) w d s a Q :
  db_wf (w_db w) -> w_db w !! slot = Some d -> job_in d s a ->
  (forall w' d', a < max_attempts -> db_wf (w_db w') -> w_db w' !! slot = Some d' -> job_in d' "pending" a ->
     wp (k (dec d)) Q w' /\ Q w' auto_reconnect) ->
  (forall w' e, w_db w' = w_db w -> no_fuel e -> Q w' (Err e)) ->
  wp (bind (requeue_for_retry job_id max_attempts) k) Q w.
Proof using.
  intros Hwf Hd Hj Hyes Herr. apply wp_bind. apply wp_now. intros w1 (Hw1 & _).
  eapply wp_job_update; [by rewrite Hw1|by rewrite Hw1|apply keyed_and| | |].
  - intros now w2 d' Hm Ha Hdb Hwf2. destruct Hj as [Hjt Hjs Hja].
    destruct (requeue_matches job_id max_attempts _ _ Hjt Hm) as [_ Hlt].
    assert (Hs' : d' !! "state"%string = Some (VStr "pending")).
    { eapply (apply_update_set _ _ _ (VStr "pending")); [exact Ha|]. by repeat constructor. }
    assert (Hf : d' !! "attempt_count"%string = d !! "attempt_count"%string).
    { eapply apply_update_frame; [exact Ha|]. by repeat constructor. }
    apply (Hyes _ d'); [lia|done|by rewrite Hdb, lookup_insert_eq|].
    constructor; [constructor; [eauto|rewrite Hf; apply Hjt]|done|]. unfold job_attempts. rewrite Hf. done.
  - intros now w2 Hw2 _. apply Herr; [congruence|done].
  - intros w2 e Hw2 He. apply Herr; [congruence|done].
Qed.

(** The outcome of a whole run. *)
Definition run_post (w' : world S) (r : result doc) : Prop :=
  match r with
  | Ok _ => exists d', w_db w' !! slot = Some d' /\ d' !! "state"%string = Some (VStr "succeeded") /\
              forall st, In st stages -> stage_done d' st
  | Err e => no_fuel e
  end.

(** The [except] of one attempt, once the job was set up. *)
Lemma wp_attempt_then fuel w d s a Q :
  db_wf (w_db w) -> w_db w !! slot = Some d -> job_in d s a -> s <> "failed"%string ->
  (forall w' c d', s = "running"%string -> db_wf (w_db w') -> w_db w' !! slot = Some d' ->
     job_in d' "succeeded" a -> (forall st, In st stages -> stage_done d' st) -> Q w' (Ok c)) ->
  (forall w' d' s' e, db_wf (w_db w') -> w_db w' !! slot = Some d' -> job_in d' s' a -> no_fuel e ->
     s' = s \/ s = "running"%string -> Q w' (Err e)) ->
  (forall w' d', s = "running"%string -> a < max_attempts -> db_wf (w_db w') -> w_db w' !! slot = Some d' ->
     job_in d' "pending" a -> wp (run_loop job_id stage_run publish stages max_attempts fuel) Q w') ->
  wp (catch (run_attempt job_id stage_run publish stages)
       (fun exc =>
          let* current := load job_id in
          let* retry :=
            if negb (isinstance exc "BootstrapPublishError") && py_eq (doc_get current "state") (VStr "failed")
            then let* attempts := of_result (attempt_count current) in Ret (attempts <? max_attempts)
            else Ret false in
          if (retry : bool) then
            do* requeue_for_retry job_id max_attempts in
            run_loop job_id stage_run publish stages max_attempts fuel
          else Raise exc)) Q w.
Proof using StageLaws0 stages_plain.
  intros Hwf Hd Hj Hnf Hok Herr Hloop. apply wp_catch. eapply wp_mono; [by eapply wp_run_attempt|].
  intros w1 r (Hwf1 & d1 & s1 & Hd1 & Hj1 & Hr). destruct r as [c|exc].
  { destruct Hr as (Hs & -> & Hall). eapply Hok; eauto. }
  destruct Hr as [Hexc Hs1].
  assert (Hs1' : s1 = s \/ s = "running"%string) by tauto.
  eapply wp_load_job; [done..| |].
  2:{ intros w2 e Hw2 He. eapply Herr; eauto; by rewrite Hw2. }
  intros w2 Hw2. rewrite (attempt_count_in _ _ _ Hj1).
  assert (Hst : doc_get (dec d1) "state" = VStr s1).
  { rewrite doc_get_dec. unfold doc_get. by rewrite (ji_state _ _ _ Hj1). }
  rewrite Hst. destruct (negb _ && py_eq _ _) eqn:Hc; cbn [bind of_result].
  2:{ eapply Herr; eauto; by rewrite Hw2. }
  apply andb_true_iff in Hc as [_ Hc]. apply py_eq_str in Hc. injection Hc as ->.
  assert (Hs : s = "running"%string) by (destruct Hs1 as [?|[? _]]; congruence).
  destruct (a <? max_attempts) eqn:Ha; [|eapply Herr; eauto; by rewrite Hw2].
  apply Z.ltb_lt in Ha. eapply wp_requeue; [by rewrite Hw2|by rewrite Hw2|done| |].
  - intros w3 d3 _ Hwf3 Hd3 Hj3. split; [by eapply Hloop|]. by eapply Herr; eauto.
  - intros w3 e Hw3 He. eapply Herr; eauto; by rewrite Hw3, Hw2.
Qed.

Lemma logger_error d e : _logger (dec d) = Err e -> no_fuel e.
Proof using.
  unfold _logger, doc_at. destruct (dec d !! _); simpl; [|intros [= <-]; done].
  destruct (dec d !! _); simpl; [done|intros [= <-]; done].
Qed.

Lemma wp_run_loop fuel w d s a :
  db_wf (w_db w) -> w_db w !! slot = Some d -> job_in d s a -> s <> "failed"%string ->
  (s = "pending"%string \/ s = "paused"%string -> a < max_attempts) ->
  max_attempts - a + (if String.eqb s "running" then 1 else 0) <= Z.of_nat fuel -> (1 <= fuel)%nat ->
  wp (run_loop job_id stage_run publish stages max_attempts fuel) run_post w.
Proof using StageLaws0 stages_plain.
  revert w d s a. induction fuel as [|fuel IH]; intros w d s a Hwf Hd Hj Hnf Hwait Hfuel Hpos; [lia|].
  cbn [run_loop]. apply wp_bind. unfold _enter_running_state_if_needed.
  eapply wp_load_job; [done..| |done]. intros w1 Hw1. rewrite (doc_at_state _ _ _ Hj). cbn [bind of_result].
  assert (Hne : py_eq (VStr s) (VStr "failed") = false) by (by apply String.eqb_neq).
  rewrite Hne. cbn [bind]. rewrite (doc_at_state _ _ _ Hj). cbn [bind of_result].
  assert (Hgo : forall w2 d2 s2 a2, db_wf (w_db w2) -> w_db w2 !! slot = Some d2 -> job_in d2 s2 a2 ->
    s2 <> "failed"%string -> (s2 = "running"%string -> max_attempts - a2 <= Z.of_nat fuel) ->
    wp (do* of_result (_logger (dec d)) in
        do* of_result (attempt_count (dec d)) in
        catch (run_attempt job_id stage_run publish stages)
          (fun exc =>
             let* current := load job_id in
             let* retry :=
               if negb (isinstance exc "BootstrapPublishError") && py_eq (doc_get current "state") (VStr "failed")
               then let* attempts := of_result (attempt_count current) in Ret (attempts <? max_attempts)
               else Ret false in
             if (retry : bool) then
               do* requeue_for_retry job_id max_attempts in
               run_loop job_id stage_run publish stages max_attempts fuel
             else Raise exc)) run_post w2).
  { intros w2 d2 s2 a2 Hwf2 Hd2 Hj2 Hnf2 Hf2. destruct (_logger (dec d)) as [u|e] eqn:Hlog.
    2:{ simpl. by eapply logger_error. }
    rewrite (attempt_count_in _ _ _ Hj). cbn [bind of_result].
    eapply wp_attempt_then; [done..| | |].
    - intros w3 c d3 _ _ Hd3 Hj3 Hall. exists d3. split; [done|]. split; [apply Hj3|done].
    - intros w3 d3 s3 e _ _ _ He _. done.
    - intros w3 d3 Hs2 Ha Hwf3 Hd3 Hj3. eapply IH; [done..| |simpl; specialize (Hf2 Hs2); lia|specialize (Hf2 Hs2); lia].
      intros _. done. }
  destruct (py_eq (VStr s) (VStr "pending") || py_eq (VStr s) (VStr "paused")) eqn:Hw.
  - eapply wp_transition; [by rewrite Hw1|by rewrite Hw1|done| |].
    + intros w2 d2 _ Hwf2 Hd2 Hj2 _. split; [|done]. eapply Hgo; [done..|].
      intros _. simpl. assert (s <> "running"%string).
      { intros ->. discriminate. }
      apply String.eqb_neq in H2. rewrite H2 in Hfuel. lia.
    + intros w2 e _ He. done.
  - eapply Hgo; [by rewrite Hw1|by rewrite Hw1|done|done|]. intros ->. simpl in Hfuel. lia.
Qed.
End Sequential.

(** ** The interface is met by stages that only move their cursor *)

Section CursorStage.
Context {E : Type -> Type} {S : Type} `{MongoConf} `{ExtSpec E S}.
Variable job_id : string.
Abbreviation slot := (jobs, job_id).

Lemma keeps_same (w w' : world S) : w_db w' = w_db w -> job_keeps job_id w w'.
Proof. intros Hd Hwf. by rewrite Hd. Qed.

Lemma update_cursor_keeps stage cursor :
  guarded (E := E) (S := S) (job_keeps job_id) (update_cursor job_id stage cursor).
Proof.
  apply guarded_bind; [apply guarded_perform; intros w w' r [(Hd & _) _]; by apply keeps_same|]. intros t.
  apply guarded_bind; [|by intros [u|]]. apply guarded_perform.
  set (f := FAnd _). set (u := UOps _).
  assert (Hok : forall w w' r, mongo_ok (w_now w') (MFindOneAndUpdate jobs f u false false) (w_db w) (w_db w') r ->
    job_keeps (S := S) job_id w w').
  { intros w w' r Hm Hwf. split; [apply (mongo_ok_wf _ _ _ _ _ Hwf Hm)|].
    apply mongo_ok_find_one_and_update with (i := job_id) in Hm; [|done|apply keyed_and].
    unfold at_id in Hm. destruct (w_db w !! slot) as [d|] eqn:Hd.
    2:{ destruct Hm as [-> _]. by rewrite Hd. }
    destruct (matches _ _ _); [|destruct Hm as [-> _]; by rewrite Hd].
    unfold updates, stores in Hm. destruct (apply_update _ _ _ _) as [d'|] eqn:Ha.
    2:{ destruct Hm as [-> _]. by rewrite Hd. }
    destruct (decide _); [|destruct Hm as [-> _]; by rewrite Hd].
    destruct (unique_ok _ _ _ _); destruct Hm as [-> _]; rewrite ?Hd; [|done].
    rewrite lookup_insert_eq. simpl. f_equal. unfold control. simpl.
    assert (Hf : forall k, k <> "current_stage"%string -> k <> "checkpoints"%string -> k <> "updated_at"%string ->
      d' !! k = d !! k).
    { intros k H1' H2' H3'. eapply apply_update_frame; [exact Ha|]. unfold upd_field. simpl.
      repeat constructor; simpl; congruence. }
    by rewrite !Hf. }
  intros w w' r ([Hm|[_ [Hd|[r' Hm]]]] & _); [by eapply Hok|by apply keeps_same|by eapply Hok].
Qed.

(** A stage that records its cursor, and a publisher that publishes nothing. *)
Definition cursor_stage (stage : string) (job : doc) : prog E unit :=
  do* update_cursor job_id stage ∅ in Ret tt.
Definition no_publish (job : doc) : prog E unit := Ret tt.

#[export] Instance cursor_stage_laws : StageLaws (S := S) job_id cursor_stage no_publish.
Proof.
  constructor.
  - intros name job. apply guarded_bind; [apply update_cursor_keeps|done].
  - done.
  - intros name job w. apply wp_bind. unfold update_cursor. apply wp_now. intros w1 _. apply wp_mongo.
    + intros w2 r Hm _. destruct r as [[d|]|e]; simpl; [by intros e [=]|by intros e [= <-]|].
      intros e' [= <-]. destruct Hm as [(i & d & _ & Hu)|(_ & _ & [=])].
      unfold updates, stores in Hu. destruct (apply_update _ _ _ _); [|by destruct Hu as [_ [= ->]]].
      destruct (decide _); [|by destruct Hu as [_ [= ->]]].
      destruct (unique_ok _ _ _ _); destruct Hu as [_ Hr]; [done|]. by injection Hr as ->.
    + intros w2 _ _. simpl. by intros e [= <-].
  - intros job w. simpl. by intros e [=].
Qed.
End CursorStage.

(** The run raised, the job is failed or pending as before. *)
Definition stuck_post {S : Type} (job_id : string) (a : Z) (w' : world S) (r : result doc) : Prop :=
  (exists e, r = Err e) /\
  exists d' s', w_db w' !! (jobs, job_id) = Some d' /\ job_in d' s' a /\
    (s' = "failed"%string \/ s' = "pending"%string).

(** ** The claims *)

Section Theorems.
Context {E : Type -> Type} {S : Type} `{PyRepr} `{MongoConf} `{ExtSpec E S}.
Variable job_id : string.
Variable stage_run : string -> doc -> prog E unit.
Variable publish : doc -> prog E unit.
Context `{!StageLaws (S := S) job_id stage_run publish}.

Lemma guarded_run_job stages max_attempts :
  guarded (S := S) (job_step job_id max_attempts) (run_job job_id stage_run publish stages max_attempts).
Proof.
  assert (Hkeep : forall w w' : world S, job_keeps job_id w w' -> job_step job_id max_attempts w w').
  { apply keeps_step. }
  assert (Hstage : forall name job, guarded (S := S) (job_step job_id max_attempts) (stage_run name job)).
  { intros name job. eapply guarded_mono; [exact Hkeep|apply stage_keeps]. }
  assert (Hpub : forall job, guarded (S := S) (job_step job_id max_attempts) (publish job)).
  { intros job. eapply guarded_mono; [exact Hkeep|apply publish_keeps]. }
  assert (Hfail : forall st exc, guarded (S := S) (job_step job_id max_attempts) (_record_failure job_id st exc)).
  { intros st exc. apply guarded_bind; [by apply guarded_transition|]. intros d.
    apply guarded_bind; [apply guarded_of_result|done]. }
  assert (Hstages : forall sts, guarded (S := S) (job_step job_id max_attempts) (_run_stages job_id stage_run sts)).
  { induction sts as [|st sts IH]; [done|]. cbn [_run_stages]. apply guarded_bind; [apply guarded_load|].
    intros job. apply guarded_bind; [apply guarded_of_result|]. intros v. destruct (py_eq _ _); [done|].
    apply guarded_bind; [apply guarded_catch; [done|]; intros exc; by apply guarded_bind|]. intros _.
    apply guarded_bind; [apply guarded_mark_stage_done|]. intros u.
    apply guarded_bind; [apply guarded_of_result|done]. }
  unfold run_job. generalize (Datatypes.S (Z.to_nat (Z.max 0 max_attempts))) as fuel. intros fuel. induction fuel as [|fuel IH]; [done|].
  cbn [run_loop]. apply guarded_bind.
  { unfold _enter_running_state_if_needed. apply guarded_bind; [apply guarded_load|]. intros job.
    apply guarded_bind; [apply guarded_of_result|]. intros st. apply guarded_bind.
    - destruct (py_eq _ _); [|done]. apply guarded_bind; [apply guarded_of_result|]. intros n.
      destruct (max_attempts <=? n); [|apply guarded_requeue].
      apply guarded_bind; [apply guarded_of_result|]. intros _. by apply guarded_bind; [apply guarded_of_result|].
    - intros job'. apply guarded_bind; [apply guarded_of_result|]. intros st'.
      destruct (_ || _); [by apply guarded_transition|done]. }
  intros job. apply guarded_bind; [apply guarded_of_result|]. intros _.
  apply guarded_bind; [apply guarded_of_result|]. intros _. apply guarded_catch.
  { apply guarded_bind; [done|]. intros _. apply guarded_bind; [apply guarded_load|]. intros final.
    apply guarded_bind.
    - apply guarded_catch; [done|]. intros exc. destruct (isinstance _ _); [|done]. by apply guarded_bind.
    - intros _. apply guarded_bind; [by apply guarded_transition|]. intros c.
      by apply guarded_bind; [apply guarded_of_result|]. }
  intros exc. apply guarded_bind; [apply guarded_load|]. intros current. apply guarded_bind.
  - destruct (_ && _); [|done]. by apply guarded_bind; [apply guarded_of_result|].
  - intros [|]; [|done]. by apply guarded_bind; [apply guarded_requeue|].
Qed.

(** C12: any number of runners of one job, restarted or concurrent, calls
    interleaved in any way: the job document stays well formed, the number of
    attempts never exceeds the budget, and every single call moves the job along
    an edge of [ALLOWED_TRANSITIONS], counting each start. *)
Theorem bootstrap_lifecycle max_attempts (runs : list (list string)) (w : world S) c :
  db_wf (w_db w) -> budget_ok job_id max_attempts (w_db w) ->
  pool_reach ((fun stages => run_job job_id stage_run publish stages max_attempts) <$> runs, w) c ->
  budget_ok job_id max_attempts (w_db c.2) /\
  forall ps' w', pool_step c.1 c.2 ps' w' -> slot_move job_id (w_db c.2) (w_db w').
Proof.
  intros Hwf Hb Hr.
  pose proof (guarded_pool_inv (A := doc) (S := S) (job_step job_id max_attempts)
    (fun w => db_wf (w_db w) /\ budget_ok job_id max_attempts (w_db w))
    ((fun stages => run_job job_id stage_run publish stages max_attempts) <$> runs, w) c) as Hinv.
  destruct Hinv as [Hg [Hwf' Hb']]; [|exact Hr| | |].
  - intros w1 w2 [H1' H2'] Hstep. destruct (Hstep H1' H2') as (? & ? & _). done.
  - apply Forall_fmap, Forall_forall. intros stages _. apply guarded_run_job.
  - done.
  - split; [done|]. intros ps' w' Hstep.
    destruct (guarded_pool_step _ _ _ _ _ Hg Hstep) as [Hjs _]. apply (Hjs Hwf' Hb').
Qed.

(** C16: one run, nobody else writing the job.  It always comes to an end (the
    loop never needs more than [max_attempts + 1] rounds), and when it returns,
    the job succeeded and every stage is marked done. *)
Theorem run_job_completes stages max_attempts (w : world S) d s a :
  Forall (fun st => split_dots st = [st]) stages ->
  db_wf (w_db w) -> w_db w !! (jobs, job_id) = Some d -> job_in d s a -> in_budget max_attempts d -> 0 <= a ->
  s <> "failed"%string ->
  wp (run_job job_id stage_run publish stages max_attempts)
    (fun w' r => match r with
       | Ok _ => exists d', w_db w' !! (jobs, job_id) = Some d' /\ d' !! "state"%string = Some (VStr "succeeded") /\
                   forall st, In st stages -> stage_done d' st
       | Err e => no_fuel e
       end) w.
Proof.
  intros Hdots Hwf Hd Hj Hb Ha Hnf.
  pose proof (ib_attempts _ _ Hb) as Hle. rewrite (ji_attempts _ _ _ Hj) in Hle.
  eapply wp_run_loop; [done..| | |lia].
  - intros Hs. rewrite <- (ji_attempts _ _ _ Hj). apply (ib_waiting _ _ Hb). unfold job_state, doc_get.
    rewrite (ji_state _ _ _ Hj). simpl. destruct Hs as [->| ->]; auto.
  - destruct (String.eqb s "running"); lia.
Qed.

(** A run that starts on a failed job never resumes it.  The update that
    requeues the job returns the document as it was, in state [failed], so the
    run goes on without entering [running]: it raises, whatever the stages do,
    and leaves the job failed or pending with the attempts it had. *)
Theorem failed_job_never_resumes stages max_attempts (w : world S) d a :
  Forall (fun st => split_dots st = [st]) stages ->
  db_wf (w_db w) -> w_db w !! (jobs, job_id) = Some d -> job_in d "failed" a ->
  wp (run_job job_id stage_run publish stages max_attempts)
    (stuck_post job_id a) w.
Proof.
  intros Hdots Hwf Hd Hj. unfold run_job. cbn [run_loop]. apply wp_bind. unfold _enter_running_state_if_needed.
  assert (Hstay : forall (w' : world S) (r : result doc), w_db w' = w_db w -> (exists e, r = Err e) ->
    stuck_post job_id a w' r).
  { intros w' r Hw He. unfold stuck_post. rewrite Hw. split; [done|]. exists d, "failed"%string. auto. }
  eapply wp_load_job; [done..| |]; [|intros; apply Hstay; eauto].
  intros w1 Hw1. rewrite (doc_at_state _ _ _ Hj). cbn [bind of_result].
  change (py_eq (VStr "failed") (VStr "failed")) with true. cbv iota.
  rewrite (attempt_count_in _ _ _ Hj). cbn [bind of_result]. destruct (max_attempts <=? a).
  { apply wp_bind, wp_bind, wp_of_result. destruct (_logger _); [|apply Hstay; eauto].
    apply wp_bind, wp_of_result. destruct (doc_at _ _); simpl; apply Hstay; eauto. }
  eapply wp_requeue; [by rewrite Hw1|by rewrite Hw1|done| |intros w2 e Hw2 _; apply Hstay; [congruence|eauto]].
  intros w2 d2 _ Hwf2 Hd2 Hj2.
  assert (Hpend : forall r : result doc, (exists e, r = Err e) -> stuck_post job_id a w2 r).
  { intros r He. split; [done|]. exists d2, "pending"%string. auto. }
  split; [|apply Hpend; eexists; done].
  rewrite (doc_at_state _ _ _ Hj). cbn [bind of_result].
  change (py_eq (VStr "failed") (VStr "pending") || py_eq (VStr "failed") (VStr "paused")) with false.
  cbv iota. cbn [wp]. destruct (_logger (dec d)) as [u|e]; [|simpl; apply Hpend; eauto].
  rewrite (attempt_count_in _ _ _ Hj). cbn [bind of_result]. eapply wp_attempt_then; [done..| | |].
  - by intros.
  - intros w3 d3 s3 e _ Hd3 Hj3 _ [->|[=]]. split; [eauto|]. exists d3, "pending"%string. auto.
  - by intros.
Qed.
End Theorems.

(** ** Witnesses *)

#[local] Instance sample_repr : PyRepr := fun _ => EmptyString.

Definition sample_job (state : string) : doc :=
  mk_doc [("_id", VStr "job-1"); ("state", VStr state); ("seller_id", VStr "123")]%string.
Definition sample_world (state : string) : world unit :=
  World {[ (jobs, "job-1"%string) := sample_job state ]} day None tt.
Definition sample_run : prog noE doc :=
  run_job "job-1" (cursor_stage "job-1") no_publish DEFAULT_STAGE_ORDER 3.

Lemma sample_job_in state : job_in (sample_job state) state 0.
Proof. constructor; [constructor; [by exists state|done]|done|done]. Qed.
Lemma sample_in_budget state : in_budget 3 (sample_job state).
Proof. constructor; [apply sample_job_in|done|done]. Qed.
Lemma stages_have_no_dots : Forall (fun st => split_dots st = [st]) DEFAULT_STAGE_ORDER.
Proof. repeat constructor. Qed.

Lemma bootstrap_lifecycle_witness :
  let _ := aware_conf in
  exists c, pool_reach ([sample_run; sample_run], sample_world "pending") c /\
    (doc_get (default ∅ (w_db c.2 !! (jobs, "job-1"%string))) "state" = VStr "succeeded") /\
    budget_ok "job-1" 3 (w_db c.2) /\
    forall ps' w', pool_step c.1 c.2 ps' w' -> slot_move "job-1" (w_db c.2) (w_db w').
Proof.
  intros conf. set (r := run sample_run (sample_world "pending")).
  assert (Hr : pool_reach ([sample_run; sample_run], sample_world "pending") ([done_with r.2; sample_run], r.1)).
  { apply (reach_pool (day + day)). apply (reach_run noE_run_ext noE_run_uuid _ [sample_run; sample_run] 0%nat);
      [done|by vm_compute]. }
  exists ([done_with r.2; sample_run], r.1). split; [exact Hr|]. split; [by vm_compute|].
  apply (bootstrap_lifecycle "job-1" (cursor_stage "job-1") no_publish 3
    [DEFAULT_STAGE_ORDER; DEFAULT_STAGE_ORDER] (sample_world "pending")); [apply db_wfb_ok; by vm_compute| |exact Hr].
  intros d. simpl. rewrite lookup_singleton_eq. intros [= <-]. apply sample_in_budget.
Defined.

Lemma run_job_completes_witness :
  let _ := aware_conf in
  wp sample_run
    (fun w' r => match r with
       | Ok _ => exists d', w_db w' !! (jobs, "job-1"%string) = Some d' /\ d' !! "state"%string = Some (VStr "succeeded") /\
                   forall st, In st DEFAULT_STAGE_ORDER -> stage_done d' st
       | Err e => no_fuel e
       end) (sample_world "pending") /\
  is_some (match (run sample_run (sample_world "pending")).2 with Ok d => Some d | Err _ => None end) = true.
Proof.
  intros conf. split; [|by vm_compute].
  apply (run_job_completes "job-1" (cursor_stage "job-1") no_publish DEFAULT_STAGE_ORDER 3 _ (sample_job "pending") "pending" 0);
    [apply stages_have_no_dots|apply db_wfb_ok; by vm_compute|apply lookup_singleton_eq
    |apply sample_job_in|apply sample_in_budget|done|done].
Defined.

Lemma failed_job_never_resumes_witness :
  let _ := aware_conf in
  wp sample_run (stuck_post "job-1" 0) (sample_world "failed") /\
  exists e, (run sample_run (sample_world "failed")).2 = Err e /\ exn_cls e = "InvalidTransitionError"%string.
Proof.
  intros conf. split; [|eexists; split; by vm_compute].
  apply (failed_job_never_resumes "job-1" (cursor_stage "job-1") no_publish DEFAULT_STAGE_ORDER 3 _ (sample_job "failed") 0);
    [apply stages_have_no_dots|apply db_wfb_ok; by vm_compute|apply lookup_singleton_eq|apply sample_job_in].
Defined.
