(* ===== verification/Certificates.v ===== *)
(** Certificates of returns coverage: the windows of an acquisition run
    (core/.../devoluciones_runs.py), the certificate documents, their selection
    for a requested interval and the evidence of a run
    (core/.../devoluciones_certificates.py).

    Instants are aware UTC datetimes in microseconds; a datetime of a document
    is read as UTC when it is naive.  Only dates far from the year 9999 are
    moved, so that [timedelta] never overflows. *)

From S2P Require Export Json OrderRanges.

#[local] Open Scope Z_scope.

(** ** Runs and their windows *)

Definition WINDOW_DAYS : Z := 10.

Definition no_attribute {A} : result A := Err (mk_exn "AttributeError" "no such attribute").
(** [value.strip()] is not empty. *)
Definition required_text (v : val) : result string :=
  match v with VStr s => if blank s then raise_value "a text is required" else Ok s | _ => no_attribute end.
Definition _utc (v : val) : result Z :=
  match v with VDate true us => Ok us | VDate false _ => raise_value "must be timezone-aware" | _ => no_attribute end.

Record RunBinding := {
  authorization_id : string;
  cohort_id : string;
  seller_id : string;
  scope : string;
  start : Z;
  stop : Z;
  partition_version : string;
  release_fingerprints : gmap string string;
}.

(** [sorted(d.items())], of texts as keys. *)
Fixpoint insert_key {A} (x : string * A) (l : list (string * A)) : list (string * A) :=
  match l with [] => [x] | y :: l' => if String.leb x.1 y.1 then x :: l else y :: insert_key x l' end.
Definition sorted_items {A} (d : gmap string A) : list (string * A) := foldr insert_key [] (map_to_list d).

Section Bindings.
Context `{PyRepr} `{Sha256}.

(** [RunBinding(...)]: the fields as [__post_init__] leaves them. *)
Definition run_binding (authorization cohort seller scope start stop version fingerprints : val) : result RunBinding :=
  let! a := required_text authorization in let! c := required_text cohort in let! s := required_text seller in
  let! sc := required_text scope in let! v := required_text version in
  let! from := _utc start in let! to := _utc stop in
  check! from <? to else mk_exn "ValueError" "start must be before end" in
  match fingerprints with
  | VDict d =>
      let texts := py_str <$> d in
      check! negb (Nat.eqb (size d) 0) && map_fold (fun _ t ok => ok && negb (string_is_empty t)) true texts
        else mk_exn "ValueError" "release_fingerprints are required" in
      Ok {| authorization_id := a; cohort_id := c; seller_id := s; scope := sc; start := from; stop := to; partition_version := v;
            release_fingerprints := texts |}
  | _ => no_attribute
  end.

Definition _digest (parts : list string) : string := sha256_hex (String.concat "|" parts).
Definition run_id (b : RunBinding) : string :=
  _digest ["v1"; authorization_id b; cohort_id b; seller_id b; scope b; isoformat (start b); isoformat (stop b); partition_version b;
           String.concat "," (map (fun kv => kv.1 ++ "=" ++ kv.2) (sorted_items (release_fingerprints b)))]%string.

Record RunWindow := { w_run_id : string; w_index : Z; w_start : Z; w_end : Z }.
Definition window_id (w : RunWindow) : string := _digest [w_run_id w; str_of_Z (w_index w); isoformat (w_start w); isoformat (w_end w)].

Definition window_end (from to : Z) : Z := Z.min (from + WINDOW_DAYS * day) to.
Fixpoint windows_from (fuel : nat) (run : string) (index from to : Z) : list RunWindow :=
  match fuel with
  | O => []
  | S fuel =>
      if from <? to then
        {| w_run_id := run; w_index := index; w_start := from; w_end := window_end from to |} :: windows_from fuel run (index + 1) (window_end from to) to
      else []
  end.
(** Every round but the last advances ten days. *)
Definition rounds (from to : Z) : nat := Z.to_nat ((to - from) / (WINDOW_DAYS * day) + 1).
Definition partition_windows (b : RunBinding) : list RunWindow := windows_from (rounds (start b) (stop b)) (run_id b) 0 (start b) (stop b).

Definition allowed_seconds (window_count : Z) : result Z :=
  if window_count <? 1 then raise_value "window_count must be positive" else Ok (895 * window_count + 175).
Definition expires_at (b : RunBinding) (created_at : Z) : result Z :=
  let! seconds := allowed_seconds (Z.of_nat (length (partition_windows b))) in Ok (created_at + seconds * second).
Definition is_expired (now deadline : Z) : bool := deadline <=? now.
End Bindings.

#[export] Instance run_window_eq_dec : EqDecision RunWindow.
Proof. solve_decision. Defined.
#[export] Instance run_binding_eq_dec : EqDecision RunBinding.
Proof. solve_decision. Defined.
Definition require_match (b candidate : RunBinding) : result unit :=
  if bool_decide (b = candidate) then Ok tt else Err (mk_exn "RunBindingDriftError" "run identity, coverage, or fingerprint drift").

(** ** Certificates *)

Definition unavailable (msg : string) : exn := mk_exn "CoverageUnavailableError" msg.
Definition KINDS : list string := ["quota_run"; "joint_snapshot"; "legacy_joint_snapshot"]%string.
Definition VALIDITY : Z := 30 * minute.
Definition utc (v : val) : result Z := match v with VDate _ us => Ok us | _ => Err (unavailable "invalid certificate time") end.
(** [utc(d[k])]. *)
Definition time_at (d : doc) (k : string) : result Z := let! v := doc_at d k in utc v.

(** What [ENTITY_SCHEMAS] says of a field of a certificate. *)
Inductive bson_kind := StringKind | NullKind | BoolKind | DateKind | IntKind.
Record field_rule := { f_enum : option (list val); f_kinds : list bson_kind; f_minimum : option Z; f_min_length : option Z }.
Definition one_of (vs : list val) : field_rule := {| f_enum := Some vs; f_kinds := []; f_minimum := None; f_min_length := None |}.
Definition of_kinds (ks : list bson_kind) : field_rule := {| f_enum := None; f_kinds := ks; f_minimum := None; f_min_length := None |}.
Definition text_rule : field_rule := {| f_enum := None; f_kinds := [StringKind]; f_minimum := None; f_min_length := Some 1 |}.
Definition count_rule (least : Z) : field_rule := {| f_enum := None; f_kinds := [IntKind]; f_minimum := Some least; f_min_length := None |}.
Definition INVALIDATION_REASONS : list string :=
  ["incompatible_writer"; "claim_mutation"; "order_mutation"; "unknown_impact"; "proof_drift"; "explicit_invalidation"]%string.
Definition certificate_schema : list (string * field_rule) :=
  [("_id", text_rule); ("acquired_at", of_kinds [DateKind]); ("acquisition_fingerprint", text_rule); ("certified_count", count_rule 0);
   ("coverage_epoch", count_rule 0); ("current_membership_hash", text_rule); ("current_read_model_fingerprint", text_rule);
   ("date_from", of_kinds [DateKind]); ("date_to", of_kinds [DateKind]); ("expected_count", count_rule 0);
   ("invalidation_reason", one_of (VNone :: map VStr INVALIDATION_REASONS)); ("kind", one_of (map VStr KINDS));
   ("needs_reacquisition", of_kinds [BoolKind]); ("next_check_at", of_kinds [DateKind]); ("revision", count_rule 1);
   ("schema_version", one_of [VInt 1]); ("seller_id", text_rule); ("source_fingerprint", of_kinds [StringKind; NullKind]);
   ("source_identity", text_rule); ("state", one_of (map VStr ["reconciled"; "stale"; "failed"])); ("valid_until", of_kinds [DateKind]);
   ("validated_at", of_kinds [DateKind])]%string.

Definition of_kind (v : val) (k : bson_kind) : bool :=
  match k with
  | StringKind => is_str v | NullKind => is_none v | BoolKind => is_exact_bool v | DateKind => is_date v | IntKind => is_exact_int v
  end.
Definition at_least (least : Z) (v : val) : bool := match v with VInt z => least <=? z | _ => false end.
Definition long_enough (least : Z) (v : val) : bool := match v with VStr s => least <=? Z.of_nat (String.length (strip s)) | _ => false end.
Definition opt_rule {A} (test : A -> bool) (o : option A) : bool := match o with Some a => test a | None => true end.
Definition field_ok (v : val) (r : field_rule) : bool :=
  opt_rule (existsb (py_eq v)) (f_enum r) && (match f_kinds r with [] => true | ks => existsb (of_kind v) ks end)
  && opt_rule (fun least => at_least least v) (f_minimum r) && opt_rule (fun least => long_enough least v) (f_min_length r).
Definition fields_ok (d : doc) : bool :=
  bool_decide (dom d = list_to_set (map fst certificate_schema)) && forallb (fun kr => field_ok (doc_get d kr.1) kr.2) certificate_schema.

Section Certificates.
Context `{PyRepr} `{Sha256}.

(** [json.dumps] of three texts. *)
Definition certificate_identity (seller kind source : string) : result string :=
  if negb (string_in kind KINDS) || string_is_empty seller || string_is_empty source then Err (unavailable "invalid certificate identity")
  else Ok (sha256_hex ("[" ++ dumps_str seller ++ ", " ++ dumps_str kind ++ ", " ++ dumps_str source ++ "]")%string).

Record evidence := {
  e_seller_id : string; e_kind : string; e_source_identity : string; e_source_fingerprint : option string; e_acquisition_fingerprint : string;
  e_date_from : Z; e_date_to : Z; e_acquired_at : Z; e_expected_count : Z; e_membership_hash : string; e_read_model_fingerprint : string;
  e_coverage_epoch : Z;
}.
Definition opt_text (o : option string) : val := match o with Some s => VStr s | None => VNone end.
Definition given (o : option string) : bool := match o with Some s => negb (string_is_empty s) | None => false end.
Definition make_certificate (e : evidence) (now : Z) : result doc :=
  check! (e_date_from e <? e_date_to e) && (e_date_to e <=? e_acquired_at e) && (e_acquired_at e <=? now)
    else unavailable "invalid acquired certificate bounds" in
  check! negb (string_is_empty (e_acquisition_fingerprint e)) && negb (string_is_empty (e_membership_hash e))
         && negb (string_is_empty (e_read_model_fingerprint e)) && (0 <=? e_expected_count e) && (0 <=? e_coverage_epoch e)
         && (String.eqb (e_kind e) "legacy_joint_snapshot" || given (e_source_fingerprint e))
    else unavailable "incomplete certificate evidence" in
  let! i := certificate_identity (e_seller_id e) (e_kind e) (e_source_identity e) in
  Ok (mk_doc
    [("_id", VStr i); ("seller_id", VStr (e_seller_id e)); ("kind", VStr (e_kind e)); ("source_identity", VStr (e_source_identity e));
     ("source_fingerprint", opt_text (e_source_fingerprint e)); ("acquisition_fingerprint", VStr (e_acquisition_fingerprint e));
     ("date_from", VDate true (e_date_from e)); ("date_to", VDate true (e_date_to e)); ("acquired_at", VDate true (e_acquired_at e));
     ("expected_count", VInt (e_expected_count e)); ("state", VStr "reconciled"); ("revision", VInt 1);
     ("current_membership_hash", VStr (e_membership_hash e)); ("current_read_model_fingerprint", VStr (e_read_model_fingerprint e));
     ("certified_count", VInt (e_expected_count e)); ("validated_at", VDate true now); ("valid_until", VDate true (now + VALIDITY));
     ("next_check_at", VDate true now); ("invalidation_reason", VNone); ("needs_reacquisition", VBool false);
     ("coverage_epoch", VInt (e_coverage_epoch e)); ("schema_version", VInt 1)]%string).

Definition text_at (d : doc) (k : string) : string := match doc_get d k with VStr s => s | _ => EmptyString end.
(** The fields are of their types by [fields_ok]. *)
Definition consistent (d : doc) (now : Z) : result bool :=
  let! i := certificate_identity (text_at d "seller_id") (text_at d "kind") (text_at d "source_identity") in
  let! from := time_at d "date_from" in let! to := time_at d "date_to" in let! acquired := time_at d "acquired_at" in
  let! validated := time_at d "validated_at" in let! until := time_at d "valid_until" in
  let legacy := String.eqb (text_at d "kind") "legacy_joint_snapshot" in
  Ok (String.eqb (text_at d "_id") i && ((from <? to) && (to <=? acquired) && (acquired <=? now)) && ((acquired <=? validated) && (validated <=? now))
      && (until <=? validated + VALIDITY)
      && (if legacy then is_none (doc_get d "source_fingerprint") else truthy (doc_get d "source_fingerprint"))).
Definition validate_certificate (d : doc) (now : Z) : result unit :=
  check! fields_ok d else unavailable "invalid certificate" in
  let! ok := consistent d now in
  check! ok else unavailable "inconsistent certificate evidence" in Ok tt.

(** ** Selection *)

(** [certificate[k]] of a valid certificate. *)
Definition instant_of (d : doc) (k : string) : Z := match doc_get d k with VDate _ us => us | _ => 0 end.
Definition c_from (d : doc) : Z := instant_of d "date_from".
Definition c_to (d : doc) : Z := instant_of d "date_to".

(** An exception of the test is one of those that make a certificate
    ineligible. *)
Definition eligible (seller : string) (now : Z) (c : doc) : bool :=
  match validate_certificate c now, certificate_identity seller (text_at c "kind") (text_at c "source_identity") with
  | Ok _, Ok i =>
      String.eqb (text_at c "seller_id") seller && String.eqb (text_at c "state") "reconciled" && bool_decide (doc_get c "needs_reacquisition" = VBool false)
      && (now <? instant_of c "valid_until") && ((c_from c <? c_to c) && (c_to c <=? instant_of c "acquired_at")) && String.eqb (text_at c "_id") i
      && truthy (doc_get c "current_membership_hash") && truthy (doc_get c "current_read_model_fingerprint")
  | _, _ => false
  end.

(** [min] by [(-utc(c["date_to"]).timestamp(), str(c["_id"]))]: stored dates
    are whole milliseconds, which timestamps tell apart. *)
Definition before (a b : doc) : bool := (c_to b <? c_to a) || (c_to a =? c_to b) && String.ltb (text_at a "_id") (text_at b "_id").
Definition furthest (covering : list doc) : option doc :=
  match covering with [] => None | c :: cs => Some (foldl (fun best c => if before c best then c else best) c cs) end.
Definition reaches (cursor : Z) (c : doc) : bool := (c_from c <=? cursor) && (cursor <? c_to c).
(** A certificate is chosen once: the cursor moves to its end. *)
Fixpoint cover (fuel : nat) (candidates : list doc) (cursor stop : Z) : list doc * Z :=
  match fuel with
  | O => ([], cursor)
  | S fuel =>
      if cursor <? stop then
        match furthest (List.filter (reaches cursor) candidates) with
        | None => ([], cursor)
        | Some c => let '(selected, reach) := cover fuel candidates (c_to c) stop in (c :: selected, reach)
        end
      else ([], cursor)
  end.
Definition coverage_prefix (certificates : list doc) (seller : string) (start stop : val) (now : Z) : result (list doc * Z) :=
  match start, stop with
  | VDate true from, VDate true to =>
      if from <? to then
        let candidates := List.filter (eligible seller now) certificates in
        let '(selected, cursor) := cover (length candidates + 1) candidates from to in
        Ok (selected, Z.min cursor to)
      else Err (unavailable "invalid requested bounds")
  | _, _ => Err (unavailable "invalid requested bounds")
  end.
Definition select_coverage (certificates : list doc) (seller : string) (start stop : val) (now : Z) : result (list doc) :=
  let! '(selected, reach) := coverage_prefix certificates seller start stop now in
  let! to := utc stop in
  check! negb (reach <? to) else unavailable "requested interval is not certified" in Ok selected.

(** ** The evidence of a run *)

(** [json.dumps(..., sort_keys=True, default=str)]. *)
Fixpoint json_of (v : val) : json :=
  match v with
  | VNone => JNull | VBool b => JBool b | VInt z => JInt z | VStr s => JStr s
  | VDate _ _ => JStr (py_str v)
  | VList l => JArr (json_of <$> l)
  | VDict d => JObj (sorted_items (json_of <$> d))
  end.
Definition digest (v : val) : string := sha256_hex (dumps (json_of v)).
(** [sorted(set(ids))]. *)
Definition membership_hash (ids : list string) : string := digest (VList (map (fun kv => VStr kv.1) (sorted_items (list_to_map (map (fun i => (i, tt)) ids))))).

(** [row["index"]]; an index that is no number is that of no window. *)
Definition index_of (row : doc) : result Z := let! v := doc_at row "index" in match as_int v with Some z => Ok z | None => raise_type "index" end.
Fixpoint insert_row (x : Z * doc) (l : list (Z * doc)) : list (Z * doc) :=
  match l with [] => [x] | y :: l' => if x.1 <? y.1 then x :: l else y :: insert_row x l' end.
Fixpoint indexed (rows : list doc) : result (list (Z * doc)) :=
  match rows with [] => Ok [] | r :: rows => let! i := index_of r in let! rows := indexed rows in Ok ((i, r) :: rows) end.
(** [sorted] is stable: a row goes behind those before it. *)
Definition sorted_rows (rows : list doc) : result (list doc) := let! rows := indexed rows in Ok (map snd (foldl (fun l x => insert_row x l) [] rows)).

Definition not_negative (v : val) : bool := match as_int v with Some z => 0 <=? z | None => false end.
Definition row_ok (b : RunBinding) (row : doc) (w : RunWindow) : result bool :=
  let! run := doc_at row "run_id" in let! index := doc_at row "index" in let! from := time_at row "start" in let! to := time_at row "end" in
  let! state := doc_at row "state" in let! source := doc_at row "source_fingerprint" in let! model := doc_at row "read_model_fingerprint" in
  let! missing := doc_at row "missing_count" in let! expected := doc_at row "expected_count" in let! persisted := doc_at row "persisted_count" in
  let! complete := doc_at row "complete_count" in
  Ok (py_eq run (VStr (run_id b)) && py_eq index (VInt (w_index w)) && (from =? w_start w) && (to =? w_end w) && py_eq state (VStr "completed")
      && truthy source && truthy model && py_eq missing (VInt 0) && (py_eq expected persisted && py_eq persisted complete) && not_negative expected).
Definition immutable_row (row : doc) (w : RunWindow) : val :=
  VDict (mk_doc [("index", VInt (w_index w)); ("start", VDate true (w_start w)); ("end", VDate true (w_end w)); ("expected_count", doc_get row "expected_count");
                 ("source_fingerprint", doc_get row "source_fingerprint"); ("read_model_fingerprint", doc_get row "read_model_fingerprint")]%string).
Fixpoint check_rows (b : RunBinding) (rows : list doc) (windows : list RunWindow) : result (list val) :=
  match rows, windows with
  | row :: rows, w :: windows =>
      let! ok := row_ok b row w in
      check! ok else unavailable "incomplete quota acquisition window" in
      let! rest := check_rows b rows windows in Ok (immutable_row row w :: rest)
  | _, _ => Ok []
  end.
Definition count_of (row : doc) : Z := match as_int (doc_get row "expected_count") with Some z => z | None => 0 end.

Definition binding_of (run : doc) : result RunBinding :=
  let! a := doc_at run "authorization_id" in let! c := doc_at run "cohort_id" in let! s := doc_at run "seller_id" in let! sc := doc_at run "scope" in
  let! from := time_at run "start" in let! to := time_at run "end" in let! v := doc_at run "partition_version" in
  let! f := doc_at run "release_fingerprints" in
  run_binding a c s sc (VDate true from) (VDate true to) v f.
Definition quota_evidence (run : doc) (windows : list doc) : result doc :=
  let! b := binding_of run in
  let! rows := sorted_rows windows in
  let expected := partition_windows b in
  let! i := doc_at run "_id" in let! state := doc_at run "state" in let! count := doc_at run "window_count" in
  check! py_eq i (VStr (run_id b)) && py_eq state (VStr "completed") && String.eqb (scope b) "devoluciones"
         && Nat.eqb (length rows) (length expected) && py_eq count (VInt (Z.of_nat (length expected)))
    else unavailable "invalid quota acquisition binding" in
  let! immutable := check_rows b rows expected in
  Ok (mk_doc [("expected_count", VInt (foldr Z.add 0 (map count_of rows)));
              ("source_fingerprint", VStr (digest (VList (map (fun row => doc_get row "source_fingerprint") rows))));
              ("acquisition_fingerprint", VStr (digest (VDict (mk_doc [("run_id", VStr (run_id b)); ("windows", VList immutable)]))))]%string).
(** [except (KeyError, TypeError, ValueError)]. *)
Definition quota_provenance (run : doc) (windows : list doc) : result doc :=
  match quota_evidence run windows with
  | Ok d => Ok d
  | Err e => if isinstance e "KeyError" || isinstance e "TypeError" || isinstance e "ValueError" then Err (unavailable "invalid quota acquisition evidence") else Err e
  end.
End Certificates.
