(* ===== verification/CoverageProofs.v ===== *)
(** Certificates cover what they are said to: the selection of a covering
    prefix, the windows of a run, and a certificate from its making to a read
    it serves. *)

From S2P Require Export Certificates Mongo.

#[local] Open Scope Z_scope.

(** ** Selection *)

(** The chosen certificate ends last. *)
Lemma furthest_fold cs best : let c := foldl (fun best c => if before c best then c else best) best cs in
  (c = best \/ c ∈ cs) /\ c_to best <= c_to c /\ forall d, d ∈ cs -> c_to d <= c_to c.
Proof.
  revert best. induction cs as [|x cs IH]; intros best; cbn; [repeat split; [by left|lia|by intros d ?%not_elem_of_nil]|].
  destruct (IH (if before x best then x else best)) as (Hc & Hb & Hcs). cbv zeta in *.
  assert (Hx : c_to x <= c_to (if before x best then x else best) /\ c_to best <= c_to (if before x best then x else best)).
  { unfold before. destruct (Z.ltb_spec (c_to best) (c_to x)); cbn [orb]; [lia|].
    destruct (Z.eqb_spec (c_to x) (c_to best)); cbn [andb]; [destruct (String.ltb _ _); lia|lia]. }
  repeat split; [|lia|intros d [->|Hd]%elem_of_cons; [lia|by apply Hcs]].
  destruct Hc as [->|Hc]; [destruct (before x best); [right; left|by left]|right; by right].
Qed.

Lemma furthest_spec cs c : furthest cs = Some c -> c ∈ cs /\ forall d, d ∈ cs -> c_to d <= c_to c.
Proof.
  destruct cs as [|x cs]; [done|]. intros [= <-]. destruct (furthest_fold cs x) as (Hc & Hb & Hcs). cbv zeta in *.
  split; [destruct Hc as [->|Hc]; [left|by right]|]. intros d [->|Hd]%elem_of_cons; [done|by apply Hcs].
Qed.
Lemma furthest_none cs : furthest cs = None -> cs = [].
Proof. by destruct cs. Qed.

Lemma elem_of_filter_list {A} (p : A -> bool) l x : x ∈ List.filter p l <-> x ∈ l /\ p x = true.
Proof. rewrite !list_elem_of_In. apply filter_In. Qed.

Definition spans (t : Z) (c : doc) : Prop := c_from c <= t < c_to c.
Lemma reaches_spans t c : reaches t c = true <-> spans t c.
Proof. unfold reaches, spans. lia. Qed.

(** [cs] cover every instant of an interval. *)
Definition covers (cs : list doc) (from to : Z) : Prop := forall t, from <= t < to -> exists c, c ∈ cs /\ spans t c.

(** What is left of a cover behind an instant: a member before it is not needed. *)
Lemma covers_drop l c from to : c ∈ l -> c_to c <= from -> covers l from to ->
  exists l', S (length l') = length l /\ (forall x, x ∈ l' -> x ∈ l) /\ covers l' from to.
Proof.
  intros (l1 & l2 & ->)%list_elem_of_split Hc Hl. exists (l1 ++ l2). rewrite !length_app. cbn. repeat split; [lia| |].
  - intros x. rewrite !elem_of_app, elem_of_cons. tauto.
  - intros t Ht. destruct (Hl t Ht) as (d & Hd & Hin). exists d. split; [|done].
    rewrite elem_of_app, elem_of_cons in Hd. rewrite elem_of_app. destruct Hd as [?|[->|?]]; [by left| |by right]. unfold spans in Hin. lia.
Qed.

Lemma covers_mono cs from to from' to' : covers cs from to -> from <= from' -> to' <= to -> covers cs from' to'.
Proof. intros Hc Hf Ht t Hin. apply Hc. lia. Qed.

Section Cover.
Variables (cands : list doc) (stop : Z).

(** Each selected certificate holds the instant the one before ends at. *)
Fixpoint gapless (from : Z) (selected : list doc) (reach : Z) : Prop :=
  match selected with [] => reach = from | c :: cs => c ∈ cands /\ spans from c /\ from < stop /\ gapless (c_to c) cs reach end.

Lemma gapless_covers selected from reach : gapless from selected reach -> from <= reach /\ covers selected from reach.
Proof.
  revert from. induction selected as [|c cs IH]; cbn; intros from; [intros ->; split; [lia|intros t ?; lia]|].
  intros (_ & Hc & _ & Hg). destruct (IH _ Hg) as [Hle Hcs]. unfold spans in *. split; [lia|].
  intros t Ht. destruct (Z.lt_ge_cases t (c_to c)); [exists c; split; [by left|unfold spans; lia]|].
  destruct (Hcs t) as (d & Hd & Hin); [lia|]. exists d. split; [by right|done].
Qed.

(** The candidates that end behind the cursor: one fewer every round. *)
Definition ahead (cursor : Z) : list doc := List.filter (fun c => cursor <? c_to c) cands.
Lemma ahead_shrinks cursor c : c ∈ cands -> spans cursor c -> (length (ahead (c_to c)) < length (ahead cursor))%nat.
Proof.
  intros Hc Hin. unfold ahead. clear stop. induction cands as [|x l IH]; [by apply not_elem_of_nil in Hc|]. cbn.
  assert (Hle : (length (List.filter (fun d : doc => (c_to c <? c_to d)%Z) l) <= length (List.filter (fun d : doc => (cursor <? c_to d)%Z) l))%nat).
  { clear IH Hc. unfold spans in Hin. induction l as [|y l IHl]; [done|]. cbn.
    destruct (Z.ltb_spec (c_to c) (c_to y)), (Z.ltb_spec cursor (c_to y)); cbn; lia. }
  unfold spans in Hin. apply elem_of_cons in Hc as [->|Hc].
  - rewrite (proj2 (Z.ltb_ge _ _)), (proj2 (Z.ltb_lt _ _)) by lia. cbn. lia.
  - specialize (IH Hc). destruct (Z.ltb_spec (c_to c) (c_to x)), (Z.ltb_spec cursor (c_to x)); cbn; lia.
Qed.

(** With a round more than candidates, the walk ends of itself. *)
Lemma cover_spec fuel cursor selected reach : cover fuel cands cursor stop = (selected, reach) -> (length (ahead cursor) < fuel)%nat ->
  gapless cursor selected reach /\ (reach < stop -> forall c, c ∈ cands -> ~ spans reach c).
Proof.
  revert cursor selected. induction fuel as [|fuel IH]; intros cursor selected Hr Hf; [lia|]. cbn [cover] in Hr.
  destruct (Z.ltb_spec cursor stop) as [Hlt|Hge]; [|simplify_eq; cbn; split; [done|lia]].
  destruct (furthest _) as [c|] eqn:Hfur.
  - destruct (cover fuel cands (c_to c) stop) as [cs r] eqn:Hc. simplify_eq.
    apply furthest_spec in Hfur as [[Hin Hcont%reaches_spans]%elem_of_filter_list _].
    pose proof (ahead_shrinks cursor c Hin Hcont). destruct (IH _ _ Hc) as [Hg Hmax]; [lia|]. exact (conj (conj Hin (conj Hcont (conj Hlt Hg))) Hmax).
  - simplify_eq. split; [done|]. intros _ c Hc Hin. apply furthest_none in Hfur.
    assert (Hx : c ∈ List.filter (reaches reach) cands) by (apply elem_of_filter_list; by rewrite reaches_spans).
    rewrite Hfur in Hx. by apply not_elem_of_nil in Hx.
Qed.

(** No cover of the interval has fewer certificates. *)
Lemma cover_shortest fuel cursor selected reach l : cover fuel cands cursor stop = (selected, reach) ->
  (forall c, c ∈ l -> c ∈ cands) -> covers l cursor stop -> (length selected <= length l)%nat.
Proof.
  revert cursor selected l. induction fuel as [|fuel IH]; intros cursor selected l Hr Hl Hc; cbn [cover] in Hr; [simplify_eq; cbn; lia|].
  destruct (Z.ltb_spec cursor stop) as [Hlt|Hge]; [|simplify_eq; cbn; lia].
  destruct (furthest _) as [c|] eqn:Hfur; [|simplify_eq; cbn; lia].
  destruct (cover fuel cands (c_to c) stop) as [cs r] eqn:Hrest. simplify_eq. apply furthest_spec in Hfur as [[Hin Hcont%reaches_spans]%elem_of_filter_list Hbest].
  destruct (Hc cursor) as (d & Hd & Hcov); [lia|].
  assert (Hdc : c_to d <= c_to c) by (apply Hbest, elem_of_filter_list; split; [by apply Hl|by apply reaches_spans]).
  destruct (covers_drop l d (c_to c) stop Hd Hdc) as (l' & Hlen & Hsub & Hc'); [unfold spans in Hcont; eapply covers_mono; [done|lia|lia]|].
  cbn. rewrite <- Hlen. apply le_n_S. eapply IH; [done|intros x Hx; by apply Hl, Hsub|done].
Qed.
End Cover.

Section Selected.
Context `{PyRepr} `{Sha256}.

Lemma ahead_length cands cursor : (length (ahead cands cursor) <= length cands)%nat.
Proof. unfold ahead. induction cands as [|c l IH]; cbn; [done|]. destruct (cursor <? c_to c); cbn; lia. Qed.

(** The selection of an interval: from eligible certificates, without a gap. *)
Lemma selection_facts (certificates : list doc) seller from to now selected reach : from < to ->
  coverage_prefix certificates seller (VDate true from) (VDate true to) now = Ok (selected, reach) ->
  (forall c, c ∈ selected -> c ∈ certificates /\ eligible seller now c = true) /\ covers selected from reach.
Proof using Type.
  intros Hlt. unfold coverage_prefix. rewrite (proj2 (Z.ltb_lt _ _) Hlt). cbv zeta. set (cands := List.filter _ certificates).
  destruct (cover _ cands from to) as [sel cursor] eqn:Hc. intros [= <- <-].
  destruct (cover_spec cands to _ _ _ _ Hc) as [Hg _]; [pose proof (ahead_length cands from); lia|].
  destruct (gapless_covers _ _ _ _ _ Hg) as [Hle Hcov]. split; [|eapply covers_mono; [done|lia|lia]].
  intros c Hin. apply (elem_of_filter_list (eligible seller now)). fold cands. clear -Hg Hin. revert from Hg.
  induction sel as [|c' cs IH]; cbn; intros from Hg; [by apply not_elem_of_nil in Hin|].
  destruct Hg as (Hc' & _ & _ & Hg). apply elem_of_cons in Hin as [->|Hx]; [done|by eapply IH].
Qed.

(** C11: For an interval, the walk always ends with a prefix of it.  The
    prefix is covered without a gap by stored, eligible certificates of the
    seller; when it is not the whole interval, no eligible certificate holds
    the instant it stops at; and no other choice of eligible certificates covers
    the interval with fewer of them. *)
Theorem selection_covers (certificates : list doc) seller from to now : from < to ->
  exists selected reach, coverage_prefix certificates seller (VDate true from) (VDate true to) now = Ok (selected, reach) /\
    from <= reach <= to /\ (forall c, c ∈ selected -> c ∈ certificates /\ eligible seller now c = true) /\ covers selected from reach /\
    (reach < to -> forall c, c ∈ certificates -> eligible seller now c = true -> ~ spans reach c) /\
    (forall l, (forall c, c ∈ l -> c ∈ certificates /\ eligible seller now c = true) -> covers l from to -> (length selected <= length l)%nat).
Proof.
  intros Hlt. unfold coverage_prefix. rewrite (proj2 (Z.ltb_lt _ _) Hlt). cbv zeta. set (cands := List.filter _ certificates).
  destruct (cover _ cands from to) as [selected cursor] eqn:Hc. exists selected, (Z.min cursor to). split; [done|].
  destruct (cover_spec cands to _ _ _ _ Hc) as [Hg Hmax]; [pose proof (ahead_length cands from); lia|].
  destruct (gapless_covers _ _ _ _ _ Hg) as [Hle _]. split; [lia|].
  destruct (selection_facts certificates seller from to now selected (Z.min cursor to) Hlt) as [Hsel Hcov];
    [unfold coverage_prefix; rewrite (proj2 (Z.ltb_lt _ _) Hlt); cbv zeta; fold cands; by rewrite Hc|].
  split; [done|]. split; [done|]. split.
  - intros Hr c Hin Hel. rewrite Z.min_l by lia. apply Hmax; [lia|]. by apply elem_of_filter_list.
  - intros l Hl Hcl. eapply cover_shortest; [done| |done]. intros c Hin. apply elem_of_filter_list. by apply Hl.
Qed.
End Selected.

(** ** Windows *)

(** Consecutive windows from [from] to [to], none longer than ten days, each but
    the last as long as that. *)
Fixpoint tiles (run : string) (index from to : Z) (ws : list RunWindow) : Prop :=
  match ws with
  | [] => from = to
  | w :: ws => w = {| w_run_id := run; w_index := index; w_start := from; w_end := window_end from to |} /\ from < w_end w <= from + WINDOW_DAYS * day /\
               tiles run (index + 1) (w_end w) to ws
  end.

Lemma window_advances from to : from < to -> from < window_end from to <= from + WINDOW_DAYS * day /\ window_end from to <= to.
Proof. unfold window_end. assert (0 < WINDOW_DAYS * day) by (by vm_compute). lia. Qed.

Lemma windows_tile fuel run index from to : from <= to -> to - from <= Z.of_nat fuel * (WINDOW_DAYS * day) ->
  tiles run index from to (windows_from fuel run index from to).
Proof.
  assert (Hspan : 0 < WINDOW_DAYS * day) by (by vm_compute). revert index from. induction fuel as [|fuel IH]; intros index from Hle Hf; [change (Z.of_nat 0) with 0 in Hf; cbn [windows_from tiles]; lia|]. cbn [windows_from].
  destruct (Z.ltb_spec from to) as [Hlt|Hge]; cbn; [|lia]. pose proof (window_advances from to Hlt) as [Hw Hto].
  repeat split; [lia..|]. apply IH; [done|]. unfold window_end.
  rewrite Nat2Z.inj_succ, Z.mul_succ_l in Hf. destruct (Z.min_spec (from + WINDOW_DAYS * day) to) as [[_ ->]|[_ ->]]; [lia|nia].
Qed.

Section Partition.
Context `{Sha256}.

Lemma partition_tiles b : start b < stop b -> tiles (run_id b) 0 (start b) (stop b) (partition_windows b).
Proof.
  intros Hlt. apply windows_tile; [lia|]. unfold rounds. assert (Hspan : 0 < WINDOW_DAYS * day) by (by vm_compute).
  generalize dependent (WINDOW_DAYS * day). intros span Hspan. assert (0 <= (stop b - start b) / span) by (apply Z.div_pos; lia).
  rewrite Z2Nat.id by lia. pose proof (Z.mul_succ_div_gt (stop b - start b) span Hspan). lia.
Qed.
Lemma partition_not_empty b : start b < stop b -> partition_windows b <> [].
Proof. intros Hlt Hw. pose proof (partition_tiles b Hlt) as Ht. rewrite Hw in Ht. cbn in Ht. lia. Qed.
End Partition.

(** ** From its making to a read *)

(** A document as a client reads it back. *)
Definition stored (aware : bool) (d : doc) : doc := decode_doc aware (encode_doc d).
Definition stored_val (aware : bool) (v : val) : val := bson_decode aware (bson_encode v).
Lemma stored_get aware d k : doc_get (stored aware d) k = stored_val aware (doc_get d k).
Proof. unfold stored, decode_doc, encode_doc, doc_get, stored_val. rewrite !lookup_fmap. by destruct (d !! k). Qed.
Lemma stored_dom aware d : dom (stored aware d) = dom d.
Proof. unfold stored, decode_doc, encode_doc. by rewrite !dom_fmap_L. Qed.
Lemma stored_at aware d k v : doc_at d k = Ok v -> doc_at (stored aware d) k = Ok (stored_val aware v).
Proof. unfold doc_at, stored, decode_doc, encode_doc, stored_val. rewrite !lookup_fmap. destruct (d !! k); [|done]. by intros [= ->]. Qed.

Lemma floor_ms_add a n : floor_ms (a + n * millisecond) = floor_ms a + n * millisecond.
Proof. unfold floor_ms, millisecond. rewrite Z.div_add by lia. apply Z.mul_add_distr_r. Qed.

Lemma text_length s : blank s = false -> (1 <=? Z.of_nat (String.length (strip s))) = true.
Proof. unfold blank. destruct (strip s); [done|]. intros _. apply Z.leb_le. cbn [String.length]. lia. Qed.

(** A field of a display is its last binding. *)
Fixpoint last_of (kvs : list (string * val)) (k : string) (v : val) : val :=
  match kvs with [] => v | (k', v') :: kvs => last_of kvs k (if String.eqb k' k then v' else v) end.
Lemma mk_doc_get kvs k : doc_get (mk_doc kvs) k = last_of kvs k VNone.
Proof.
  unfold mk_doc. change VNone with (doc_get ∅ k). generalize (∅ : doc). induction kvs as [|[k' v] kvs IH]; intros d; cbn; [done|].
  rewrite IH. f_equal. destruct (String.eqb_spec k' k) as [->|Hk]; [apply doc_get_insert|by apply doc_get_insert_ne].
Qed.
Ltac fields := cbn [last_of String.eqb Ascii.eqb Bool.eqb].

(** The check a result passed. *)
Ltac passed H := match type of H with (if ?b then _ else _) = Ok _ => let E := fresh "E" in destruct b eqn:E; [first [discriminate H|idtac]|first [discriminate H|idtac]] end.

Section Serves.
Context `{PyRepr} `{Sha256}.
Hypothesis digests_are_texts : forall s, blank (sha256_hex s) = false.

Definition evidence_ok (e : evidence) : Prop :=
  blank (e_seller_id e) = false /\ blank (e_source_identity e) = false /\ blank (e_acquisition_fingerprint e) = false /\
  blank (e_membership_hash e) = false /\ blank (e_read_model_fingerprint e) = false /\
  (e_kind e = "legacy_joint_snapshot"%string -> e_source_fingerprint e = None) /\ floor_ms (e_date_from e) < floor_ms (e_date_to e).

Lemma made_certificate_identity e now d : make_certificate e now = Ok d ->
  certificate_identity (e_seller_id e) (e_kind e) (e_source_identity e) = Ok (text_at d "_id") /\ string_in (e_kind e) KINDS = true.
Proof using Type.
  unfold make_certificate. intros Hm. passed Hm. passed Hm. result_inv. rewrite E1. split; [done|].
  unfold certificate_identity in E1. by destruct (string_in (e_kind e) KINDS).
Qed.

(** The certificate has the schema, stored or not. *)
Lemma made_certificate_fields e now d aware : evidence_ok e -> make_certificate e now = Ok d -> fields_ok (stored aware d) = true.
Proof using digests_are_texts.
  intros (Hs & Hi & Ha & Hm & Hr & Hl & Hd) Hmade. pose proof (made_certificate_identity _ _ _ Hmade) as [_ Hk].
  unfold make_certificate in Hmade. passed Hmade. passed Hmade. result_inv.
  unfold fields_ok. rewrite stored_dom. apply andb_true_iff. split; [by vm_compute|].
  unfold certificate_identity in E1. passed E1. injection E1 as Hid. cbn [certificate_schema forallb fst snd]. rewrite !stored_get, !mk_doc_get. fields.
  unfold field_ok. cbn -[Z.leb Z.of_nat strip String.eqb string_in]. rewrite !text_length by (by rewrite <- ?Hid). clear Hid E E2.
  unfold string_in, KINDS in Hk. cbn [existsb] in Hk. rewrite Hk. destruct (e_source_fingerprint e); cbn -[Z.leb]; lia.
Qed.

Lemma time_at_get d k aware us : doc_get d k = VDate aware us -> time_at d k = Ok us.
Proof using Type. unfold time_at, doc_at, doc_get. destruct (d !! k); [|done]. cbn. by intros ->. Qed.

(** Its dates, floored to milliseconds, are in order. *)
Lemma made_certificate_consistent e now d aware now' : evidence_ok e -> make_certificate e now = Ok d -> floor_ms now <= now' ->
  consistent (stored aware d) now' = Ok true.
Proof using Type.
  intros (_ & _ & _ & _ & _ & Hl & Hd) Hmade Hnow. pose proof (made_certificate_identity _ _ _ Hmade) as [Hid Hk].
  unfold make_certificate in Hmade. passed Hmade. passed Hmade. result_inv. revert Hid.
  unfold consistent, text_at. rewrite !stored_get, !mk_doc_get. fields. cbn [stored_val bson_encode bson_decode]. intros ->. cbn [result_bind].
  repeat (erewrite time_at_get by (rewrite stored_get, mk_doc_get; fields; reflexivity); cbn [result_bind]).
  rewrite String.eqb_refl. unfold VALIDITY.
  pose proof (floor_ms_mono (e_date_to e) (e_acquired_at e)). pose proof (floor_ms_mono (e_acquired_at e) now).
  pose proof (floor_ms_add now (30 * 60 * 1000)) as Hadd. change (30 * 60 * 1000 * millisecond) with (30 * minute) in Hadd. rewrite Hadd.
  assert (Hf : forall b b', b = true -> b' = true -> b && b' = true) by (intros [] []; done).
  f_equal. apply Hf; [lia|]. destruct (String.eqb_spec (e_kind e) "legacy_joint_snapshot") as [Hleg|Hleg]; [by rewrite (Hl Hleg)|].
  destruct (e_source_fingerprint e) as [[|]|]; cbn in *; [lia|done|lia].
Qed.

(** C39: A certificate that is made from complete evidence and published serves,
    as soon as it is stored and for its thirty minutes, the interval it was
    acquired for, however the client decodes dates. *)
Theorem made_certificate_serves e now d aware now' : evidence_ok e -> make_certificate e now = Ok d ->
  floor_ms now <= now' < floor_ms now + VALIDITY ->
  select_coverage [stored aware d] (e_seller_id e) (VDate true (floor_ms (e_date_from e))) (VDate true (floor_ms (e_date_to e))) now' = Ok [stored aware d].
Proof using digests_are_texts.
  intros He Hmade Hnow. pose proof (made_certificate_fields _ _ _ aware He Hmade) as Hfields.
  pose proof (made_certificate_consistent _ _ _ aware now' He Hmade (proj1 Hnow)) as Hcons.
  pose proof (made_certificate_identity _ _ _ Hmade) as [Hid _]. destruct He as (_ & _ & _ & Hm & Hr & _ & Hd).
  assert (Hall : eligible (e_seller_id e) now' (stored aware d) = true /\ c_from (stored aware d) = floor_ms (e_date_from e) /\ c_to (stored aware d) = floor_ms (e_date_to e)).
  { unfold eligible, validate_certificate. rewrite Hfields, Hcons. cbn [result_bind]. clear Hfields Hcons. revert Hid.
    unfold make_certificate in Hmade. passed Hmade. passed Hmade. result_inv. unfold c_from, c_to, text_at, instant_of.
    rewrite !stored_get, !mk_doc_get. fields. cbn [stored_val bson_encode bson_decode]. intros ->.
    rewrite !String.eqb_refl. pose proof (floor_ms_mono (e_date_to e) (e_acquired_at e)).
    pose proof (floor_ms_add now (30 * 60 * 1000)) as Hadd. change (30 * 60 * 1000 * millisecond) with VALIDITY in Hadd. rewrite Hadd.
    cbn [truthy bool_decide]. destruct (e_membership_hash e); [done|]. destruct (e_read_model_fingerprint e); [done|]. rewrite bool_decide_true by done. cbn [string_is_empty negb]. split; [lia|done]. }
  destruct Hall as (Hel & Hfrom & Hto). unfold select_coverage, coverage_prefix. rewrite (proj2 (Z.ltb_lt _ _) Hd). cbn [List.filter]. rewrite Hel. cbv zeta.
  cbn [length Nat.add cover]. rewrite (proj2 (Z.ltb_lt _ _) Hd). unfold reaches at 1. cbn [List.filter]. rewrite Hfrom, Hto, Z.leb_refl.
  rewrite (proj2 (Z.ltb_lt _ _) Hd). cbn [andb furthest foldl]. rewrite Hto, Z.ltb_irrefl, Z.min_id. cbn [result_bind utc]. by rewrite Z.ltb_irrefl.
Qed.
End Serves.
