(* ===== verification/Devoluciones.v ===== *)
(** The returns library on MongoDB: the operation lease and the writes it
    guards (core/.../devoluciones_readiness.py), the run windows
    (devoluciones_runs.py), the publication, reading and invalidation of
    certificates (devoluciones_certificates.py) and the operator's marker
    transitions (read_model_freshness.py).

    A transaction is a [stx] of the whole database, whose calls are those of
    the server of [MongoRef]; it is not run again by the driver.  The operation
    context is shared and [lease_lost] is set on it even when the transaction
    aborts, so that guarded transactions also pass that flag. *)

From S2P Require Export Certificates Transactions MongoRef.

#[local] Open Scope Z_scope.

(** ** Collections *)

Definition DEVOLUCIONES_OPERATIONS_COLLECTION : string := "sheets_devoluciones_operations".
Definition READ_MODEL_FRESHNESS_COLLECTION : string := "sheets_read_model_freshness".
Definition CERTIFICATES : string := "sheets_devoluciones_certificates".
Definition RUNS_COLLECTION : string := "sheets_devoluciones_runs".
Definition RUN_WINDOWS_COLLECTION : string := "sheets_devoluciones_run_windows".
Definition DEVOLUCIONES_READ_MODEL : string := "devoluciones".
Definition DEVOLUCIONES_LEASE_SECONDS : Z := 120.

Definition lease_conflict (msg : string) : exn := mk_exn "DevolucionesLeaseConflictError" msg.
Definition lease_lost_error (msg : string) : exn := mk_exn "DevolucionesLeaseLostError" msg.

Abbreviation dtx := (stx database).

Section Calls.
Context `{MongoConf}.
Variable clock : nat -> Z.

(** One call inside a transaction. *)
Definition call {X} (m : mongo_op X) : dtx X :=
  let& now := tx_now clock in
  fun n s => match ref_mongo now m s with (s', Ok x) => Ok (x, n, s') | (_, Err e) => Err e end.
(** [try: ... except Exception as exc: raise e from exc]. *)
Definition or_raise {A} (t : dtx A) (e : exn) : dtx A := fun n s => match t n s with Ok r => Ok r | Err _ => Err e end.
End Calls.

Definition eqs (kvs : list (string * val)) : list filter := map (fun kv => FEq [kv.1] kv.2) kvs.
Definition sets (kvs : list (string * val)) : list upd := map (fun kv => USet [kv.1] kv.2) kvs.
Definition inserts_of (kvs : list (string * val)) : list upd := map (fun kv => USetOnInsert [kv.1] kv.2) kvs.
Definition touched : update := UOps [UCurrentDate ["updated_at"%string]].

(** ** Guarded transactions *)

Definition gtx (A : Type) : Type := bool -> nat -> database -> result (A * nat * database) * bool.
Definition g_ret {A} (a : A) : gtx A := fun lost n s => (Ok (a, n, s), lost).
Definition g_lift {A} (t : dtx A) : gtx A := fun lost n s => (t n s, lost).
(** [operation.lease_lost = True], and raise. *)
Definition g_lose {A} (e : exn) : gtx A := fun _ _ _ => (Err e, true).
Definition g_bind {A B} (t : gtx A) (k : A -> gtx B) : gtx B := fun lost n s =>
  let '(r, lost) := t lost n s in match r with Ok (a, n, s) => k a lost n s | Err e => (Err e, lost) end.
Notation "'let^' x ':=' p 'in' k" := (g_bind p (fun x => k)) (at level 10, x name, p at level 100, k at level 200).
Notation "'do^' p 'in' k" := (g_bind p (fun _ => k)) (at level 10, p at level 100, k at level 200).

Section Transact.
Context `{Surrounding database}.

(** [async with session, session.start_transaction()]: an error aborts it, of
    the callback or of the server, which may also have committed. *)
Definition transact {A} (t : (nat -> Z) -> gtx A) (lost : bool) : sact database (result A * bool) := fun w =>
  let n := w_turn w in
  let s := others n (w_store w) in
  let ended r lost s := (Ok (r, lost), {| w_store := s; w_turn := S n |}) in
  match faults n with
  | Aborted e => ended (Err e) lost s
  | f =>
      match t (readings n) lost O s with
      | (Err e, lost) => ended (Err e) lost s
      | (Ok (a, _, s'), lost) => ended (match f with CommittedThen e => Err e | _ => Ok a end) lost s'
      end
  end.
Definition plainly {A} (t : (nat -> Z) -> dtx A) : sact database A :=
  let~ r := transact (fun clock => g_lift (t clock)) false in act_lift r.1.
End Transact.

(** ** The operation *)

Record DevolucionesOperationContext := {
  o_seller_id : string;
  o_scope : string;
  o_operation_id : string;
  o_attempt_token : string;
  o_fence : Z;
  o_owns_lease : bool;
  o_source_fingerprint : option string;
  o_required_coverage : option (Z * Z);
  o_checkpoint : doc;
  o_lease_lost : bool;
  o_coverage_mode : val;
  o_coverage_epoch : Z;
}.
Definition with_lost (lost : bool) (o : DevolucionesOperationContext) : DevolucionesOperationContext :=
  {| o_seller_id := o_seller_id o; o_scope := o_scope o; o_operation_id := o_operation_id o; o_attempt_token := o_attempt_token o; o_fence := o_fence o;
     o_owns_lease := o_owns_lease o; o_source_fingerprint := o_source_fingerprint o; o_required_coverage := o_required_coverage o;
     o_checkpoint := o_checkpoint o; o_lease_lost := lost; o_coverage_mode := o_coverage_mode o; o_coverage_epoch := o_coverage_epoch o |}.

Definition stable_devoluciones_operation_id `{Sha256} (writer_kind stable_source_id : string) : result string :=
  let basis := (strip writer_kind ++ ":" ++ strip stable_source_id)%string in
  if String.eqb basis ":" then raise_value "operation identity basis must not be empty" else Ok (sha256_hex basis).

Definition operation_lease_guard (o : DevolucionesOperationContext) : filter :=
  FAnd (eqs [("seller_id", VStr (o_seller_id o)); ("scope", VStr (o_scope o)); ("operation_id", VStr (o_operation_id o));
             ("attempt_token", VStr (o_attempt_token o)); ("fence", VInt (o_fence o)); ("state", VStr "running")]%string
        ++ [FExpr (ALt ANow (AField ["lease_until"%string]))]).

Definition devoluciones_run_allows_advancement (run : option doc) (o : DevolucionesOperationContext) (now : Z) : bool :=
  match run with
  | None => false
  | Some r =>
      truthy (doc_get r "authorization_id") && py_eq (doc_get r "seller_id") (VStr (o_seller_id o)) && py_eq (doc_get r "scope") (VStr (o_scope o))
      && existsb (py_eq (doc_get r "state")) (map VStr ["authorized"; "active"]%string)
      && match utc_instant (doc_get r "expires_at") with
         | None => false
         | Some expiry => (now <? expiry) && match utc_instant (doc_get r "not_before") with None => true | Some not_before => not_before <=? now end
         end
  end.

Definition takeover_checkpoint (existing : option doc) (source_fingerprint : option string) : option doc :=
  match existing, source_fingerprint with
  | Some e, Some f =>
      if py_eq (doc_get e "source_fingerprint") (VStr f) then match doc_get e "checkpoint" with VDict d => Some d | _ => None end else None
  | _, _ => None
  end.
Definition _required_identity (value field : string) : result string :=
  let normalized := strip value in
  if string_is_empty normalized then raise_value (field ++ " is required")%string else Ok normalized.
Definition marker_key (seller model : string) : string := (seller ++ ":" ++ model)%string.
(** [_stale_readiness_update], [_marker_transition_pipeline] and
    [_devoluciones_failed_pipeline]. *)
Definition expired_marker (seller model state source : string) : update :=
  UPipe [("_id", ALit (VStr (marker_key seller model))); ("seller_id", ALit (VStr seller)); ("read_model", ALit (VStr model)); ("state", ALit (VStr state));
         ("fresh_until", ANow); ("valid_until", ANow); ("updated_at", ANow); ("source", ALit (VStr source)); ("schema_version", ALit (VInt 1))]%string.
Definition _stale_readiness_update (seller source : string) : update := expired_marker seller DEVOLUCIONES_READ_MODEL "stale" source.
Definition _marker_coverage (marker : option doc) : option (Z * Z) :=
  match marker with
  | Some m =>
      match utc_instant (doc_get m "date_from"), utc_instant (doc_get m "reconciled_until") with
      | Some from, Some to => if from <? to then Some (from, to) else None
      | _, _ => None
      end
  | None => None
  end.

Definition invalidation (reason : string) : update :=
  UOps (sets [("state", VStr "stale"); ("needs_reacquisition", VBool true); ("invalidation_reason", VStr reason)]%string ++ [UInc ["revision"%string] 1]).

Definition lease_stage : list (string * aexpr) :=
  [("heartbeat_at", ANow); ("lease_until", ADateAdd ANow DEVOLUCIONES_LEASE_SECONDS); ("updated_at", ANow)]%string.
Definition finish_stage (succeeded : bool) (error_code : option string) : list (string * aexpr) :=
  [("state", ALit (VStr (if succeeded then "succeeded" else "failed"))); ("lease_until", ANow); ("heartbeat_at", ANow); ("updated_at", ANow);
   ("finished_at", ANow);
   ("error_code", ALit (if succeeded then VNone else VStr (match error_code with Some c => if string_is_empty c then "operation_failed" else c | None => "operation_failed" end)))]%string.

(** [_ensure_live_owner]. *)
Definition _ensure_live_owner (o : DevolucionesOperationContext) : result unit :=
  check! o_owns_lease o else lease_lost_error "nested operation does not own the lease" in
  check! negb (o_lease_lost o) else lease_lost_error "devoluciones operation lease was lost" in
  check! negb (o_fence o <? 1) else lease_lost_error "devoluciones operation fence is invalid" in Ok tt.

Section Library.
Context `{MongoConf} `{PyRepr} `{Sha256}.

(** *** Acquisition *)

Section Acquire.
Variables (clock : nat -> Z) (seller scope operation_id attempt_token : string).

Definition operation_key : list (string * val) := [("seller_id", VStr seller); ("scope", VStr scope)]%string.
Definition lease_fields (fence : Z) (mode : val) (epoch : Z) (source : option string) (checkpoint : option doc) : list (string * aexpr) :=
  map (fun kv => (kv.1, ALit kv.2))
    (("_id"%string, VStr (marker_key seller scope)) :: operation_key ++
     [("operation_id", VStr operation_id); ("attempt_token", VStr attempt_token); ("fence", VInt fence); ("coverage_mode", mode);
      ("coverage_epoch", VInt epoch); ("coverage_ack_fence", VInt fence); ("state", VStr "running")]%string)
  ++ [("lease_until", ADateAdd ANow DEVOLUCIONES_LEASE_SECONDS); ("heartbeat_at", ANow); ("source_fingerprint", ALit (opt_text source));
      ("checkpoint", ALit (match checkpoint with Some d => VDict d | None => VNone end)); ("started_at", ANow); ("updated_at", ANow);
      ("finished_at", ALit VNone); ("error_code", ALit VNone); ("schema_version", ALit (VInt 1))]%string.
Definition acquisition_filter (existing : option doc) : filter :=
  FAnd (eqs operation_key ++
    match existing with
    | Some e => [FEq ["fence"] (doc_get e "fence"); FOr [FNe ["state"] (VStr "running"); FExpr (ALte (AField ["lease_until"]) ANow)]]%string
    | None => []
    end).
Definition acknowledged (e : doc) : bool := py_eq (doc_get e "coverage_ack_fence") (doc_get e "fence").
Definition is_active (mode : val) : bool := py_eq mode (VStr "active").
Definition live_marker : filter :=
  FAnd (eqs [("_id", VStr (marker_key seller DEVOLUCIONES_READ_MODEL)); ("seller_id", VStr seller); ("read_model", VStr DEVOLUCIONES_READ_MODEL);
             ("state", VStr "reconciled")]%string ++ [FExpr (ALt ANow (AField ["valid_until"%string]))]).

Definition acquire_tx (source : option string) (invalidate_readiness require_coverage_compatible : bool) : dtx DevolucionesOperationContext :=
  let& valid_marker := call clock (MFindOne READ_MODEL_FRESHNESS_COLLECTION live_marker []) in
  do& (if invalidate_readiness then
         let& _ := call clock (MUpdateOne READ_MODEL_FRESHNESS_COLLECTION (FEq ["_id"%string] (VStr (marker_key seller DEVOLUCIONES_READ_MODEL)))
           (_stale_readiness_update seller "devoluciones_operation_acquire") true) in tx_ret tt
       else tx_ret tt) in
  let& existing := call clock (MFindOne DEVOLUCIONES_OPERATIONS_COLLECTION (FAnd (eqs operation_key)) []) in
  let& fence := match existing with Some e => let& f := tx_lift (py_int (doc_get_or e "fence" (VInt 0))) in tx_ret (f + 1) | None => tx_ret 1 end in
  let mode := match existing with Some e => doc_get_or e "coverage_mode" (VStr "legacy") | None => VStr "legacy" end in
  let& epoch := match existing with Some e => tx_lift (py_int (doc_get_or e "coverage_epoch" (VInt 0))) | None => tx_ret 0 end in
  let acked := match existing with Some e => acknowledged e | None => false end in
  check& negb (require_coverage_compatible && negb (is_active mode && acked)) else lease_conflict "renewal requires an acknowledged compatible fence" in
  let& epoch :=
    (if is_some existing && is_active mode && negb acked then
       let& _ := call clock (MUpdateMany CERTIFICATES (FEq ["seller_id"%string] (VStr seller)) (invalidation "incompatible_writer")) in tx_ret (epoch + 1)
     else tx_ret epoch) in
  let checkpoint := takeover_checkpoint existing source in
  let& r := or_raise (call clock (MUpdateOne DEVOLUCIONES_OPERATIONS_COLLECTION (acquisition_filter existing)
    (UPipe (lease_fields fence mode epoch source checkpoint)) (negb (is_some existing)))) (lease_conflict "operation lease is already owned") in
  check& negb (is_some existing && negb (matched_count r =? 1)) else lease_conflict "operation lease is already owned" in
  tx_ret {| o_seller_id := seller; o_scope := scope; o_operation_id := operation_id; o_attempt_token := attempt_token; o_fence := fence;
            o_owns_lease := true; o_source_fingerprint := source; o_required_coverage := _marker_coverage valid_marker;
            o_checkpoint := default_to ∅ checkpoint; o_lease_lost := false; o_coverage_mode := mode; o_coverage_epoch := epoch |}.
End Acquire.

(** *** Certificates and their readers *)

Section Certified.
Variable clock : nat -> Z.

Definition coverage_control (seller : string) : dtx doc :=
  let& found := call clock (MFindOne DEVOLUCIONES_OPERATIONS_COLLECTION (FAnd (eqs [("seller_id", VStr seller); ("scope", VStr "devoluciones")]%string)) []) in
  tx_ret (default_to ∅ found).
Definition require_compatible (control : doc) : dtx unit :=
  check& is_active (doc_get control "coverage_mode") && acknowledged control && is_exact_int (doc_get control "coverage_epoch")
    else unavailable "certificate writer compatibility unavailable" in tx_ret tt.

Definition same_instant (d : doc) (k : string) (r : doc) (k' : string) : result bool :=
  let! a := time_at d k in let! b := time_at r k' in Ok (a =? b).
Definition validate_provenance (d : doc) : dtx unit :=
  let& kind := tx_lift (doc_at d "kind") in
  if negb (py_eq kind (VStr "quota_run")) then tx_ret tt
  else
    let& source := tx_lift (doc_at d "source_identity") in
    let& seller := tx_lift (doc_at d "seller_id") in
    let& run := call clock (MFindOne RUNS_COLLECTION (FAnd (eqs [("_id", source); ("seller_id", seller)]%string)) []) in
    let& windows := call clock (MFind RUN_WINDOWS_COLLECTION (FEq ["run_id"%string] source) []) in
    let run := default_to ∅ run in
    let& evidence := tx_lift (quota_provenance run windows) in
    let& count := tx_lift (doc_at d "expected_count") in
    let& fingerprint := tx_lift (doc_at d "source_fingerprint") in
    let& acquisition := tx_lift (doc_at d "acquisition_fingerprint") in
    let changed := unavailable "certificate acquisition provenance changed" in
    check& py_eq count (doc_get evidence "expected_count") && py_eq fingerprint (doc_get evidence "source_fingerprint")
           && py_eq acquisition (doc_get evidence "acquisition_fingerprint") else changed in
    let& from_ok := tx_lift (same_instant d "date_from" run "start") in
    check& from_ok else changed in
    let& to_ok := tx_lift (same_instant d "date_to" run "end") in
    check& to_ok else changed in tx_ret tt.
Fixpoint validate_all (ds : list doc) : dtx unit :=
  match ds with [] => tx_ret tt | d :: ds => do& validate_provenance d in validate_all ds end.

Definition evidence_fields : list string :=
  ["seller_id"; "kind"; "date_from"; "date_to"; "source_identity"; "source_fingerprint"; "acquisition_fingerprint"; "expected_count"]%string.
(** [left != right], datetimes read as UTC. *)
Definition same_evidence_field (existing document : doc) (k : string) : result bool :=
  let! left := doc_at existing k in let! right := doc_at document k in
  match left with VDate _ us => let! us' := utc right in Ok (us =? us') | _ => Ok (py_eq left right) end.
Fixpoint same_evidence (existing document : doc) (ks : list string) : result bool :=
  match ks with [] => Ok true | k :: ks => let! same := same_evidence_field existing document k in if same then same_evidence existing document ks else Ok false end.

Definition publish_certificate (o : DevolucionesOperationContext) (document : doc) : dtx unit :=
  let& seller := tx_lift (doc_at document "seller_id") in
  check& py_eq (VStr (o_seller_id o)) seller else unavailable "certificate seller mismatch" in
  let& control := call clock (MFindOne DEVOLUCIONES_OPERATIONS_COLLECTION (operation_lease_guard o) []) in
  let lost := lease_lost_error "certificate publication lost compatible owner" in
  match control with
  | None => tx_fail lost
  | Some control =>
      check& py_eq (doc_get control "coverage_ack_fence") (VInt (o_fence o)) else lost in
      let& now := tx_now clock in
      do& tx_lift (validate_certificate document now) in
      check& py_eq (doc_get document "coverage_epoch") (doc_get_or control "coverage_epoch" (VInt 0)) else unavailable "certificate epoch changed" in
      do& validate_provenance document in
      let& existing := call clock (MFindOne CERTIFICATES (FEq ["_id"%string] (doc_get document "_id")) []) in
      match existing with
      | Some e =>
          let& same := tx_lift (same_evidence e document evidence_fields) in
          check& same else unavailable "conflicting certificate source identity" in tx_ret tt
      | None => call clock (MInsertOne CERTIFICATES document)
      end
  end.

Record ProofVector := { v_seller_id : string; v_start : val; v_end : Z; v_epoch : val; v_fence : val; v_proofs : list doc }.

Definition readable (seller : string) (control : doc) (start stop : val) (now : Z) : filter :=
  FAnd (eqs [("seller_id", VStr seller); ("state", VStr "reconciled")]%string ++
        [FRel RLt ["date_from"] stop; FRel RGt ["date_to"] start; FEq ["coverage_epoch"] (doc_get control "coverage_epoch");
         FRel RGt ["valid_until"] (VDate true now)]%string).
Definition select_covering_prefix (seller : string) (start stop : val) (now : Z) : dtx ProofVector :=
  let& control := coverage_control seller in
  do& require_compatible control in
  let& documents := call clock (MFind CERTIFICATES (readable seller control start stop now) []) in
  let& ' (selected, reach) := tx_lift (coverage_prefix documents seller start stop now) in
  check& negb (is_nil selected) else unavailable "requested interval is not certified" in
  do& validate_all selected in
  let& fence := tx_lift (doc_at control "fence") in
  tx_ret {| v_seller_id := seller; v_start := start; v_end := reach; v_epoch := doc_get control "coverage_epoch"; v_fence := fence; v_proofs := selected |}.
Definition select_covering_proofs (seller : string) (start stop : val) (now : Z) : dtx ProofVector :=
  let& vector := select_covering_prefix seller start stop now in
  let& to := tx_lift (utc stop) in
  check& negb (v_end vector <? to) else unavailable "requested interval is not certified" in tx_ret vector.

Definition proof_keys : list string :=
  ["_id"; "seller_id"; "date_from"; "date_to"; "revision"; "coverage_epoch"; "current_membership_hash"; "current_read_model_fingerprint";
   "acquisition_fingerprint"; "kind"; "source_identity"; "source_fingerprint"; "expected_count"; "certified_count"; "acquired_at"]%string.
Fixpoint agree (current proof : doc) (ks : list string) : result bool :=
  match ks with
  | [] => Ok true
  | k :: ks => let! a := doc_at current k in let! b := doc_at proof k in if py_eq a b then agree current proof ks else Ok false
  end.
Definition validate_proof (vector : ProofVector) (now : Z) (proof : doc) : dtx unit :=
  let& i := tx_lift (doc_at proof "_id") in
  let& current := call clock (MFindOne CERTIFICATES (FAnd (eqs [("_id", i); ("seller_id", VStr (v_seller_id vector))]%string)) []) in
  match current with
  | None => tx_fail (unavailable "certificate removed during read")
  | Some current =>
      let& from := tx_lift (time_at proof "date_from") in
      let& to := tx_lift (time_at proof "date_to") in
      do& tx_lift (select_coverage [current] (v_seller_id vector) (VDate true from) (VDate true to) now) in
      let& unchanged := tx_lift (agree current proof proof_keys) in
      check& unchanged else unavailable "certificate changed during read" in
      validate_provenance current
  end.
Fixpoint validate_proofs (vector : ProofVector) (now : Z) (proofs : list doc) : dtx unit :=
  match proofs with [] => tx_ret tt | p :: proofs => do& validate_proof vector now p in validate_proofs vector now proofs end.
Definition _validate_proof_vector (vector : ProofVector) (now : Z) : dtx unit :=
  let& control := coverage_control (v_seller_id vector) in
  do& require_compatible control in
  let& fence := tx_lift (doc_at control "fence") in
  check& py_eq (doc_get control "coverage_epoch") (v_epoch vector) && py_eq fence (v_fence vector)
    else unavailable "certificate ownership changed during read" in
  validate_proofs vector now (v_proofs vector).

(** *** Invalidation *)

(** The dates of the returns among the claims, and whether one is unclear. *)
Fixpoint impact (seller : string) (claims : list (option doc)) : list Z * bool :=
  match claims with
  | [] => ([], false)
  | None :: claims => impact seller claims
  | Some c :: claims =>
      let '(dates, unknown) := impact seller claims in
      if negb (String.eqb (py_str (doc_get c "seller_id")) seller) || negb (has_key c "type") then (dates, true)
      else if py_eq (doc_get c "type") (VStr "returns") then
        match doc_get c "date_created" with VDate _ us => (us :: dates, unknown) | _ => (dates, true) end
      else (dates, unknown)
  end.
Definition covering_any (upper : string) (dates : list Z) : filter :=
  FOr (map (fun us => FAnd [FRel RLte ["date_from"%string] (VDate true us); FRel RGt [upper] (VDate true us)]) dates).
Definition invalidate_claim_impact (seller : string) (claims : list (option doc)) (reason : string) : dtx unit :=
  let '(dates, unknown) := impact seller claims in
  if negb unknown && is_nil dates then tx_ret tt
  else
    let among upper := if unknown then [] else [covering_any upper dates] in
    let& _ := call clock (MUpdateOne READ_MODEL_FRESHNESS_COLLECTION
      (FAnd (eqs [("_id", VStr (marker_key seller DEVOLUCIONES_READ_MODEL)); ("seller_id", VStr seller)]%string ++ among "reconciled_until"%string))
      (UOps (sets [("state"%string, VStr "stale")])) false) in
    let& _ := call clock (MUpdateMany CERTIFICATES (FAnd (eqs [("seller_id"%string, VStr seller)] ++ among "date_to"%string))
      (invalidation (if unknown then "unknown_impact" else reason))) in
    tx_ret tt.
Definition invalidate_all_certificates (seller reason : string) : dtx unit :=
  let& _ := call clock (MUpdateMany CERTIFICATES (FEq ["seller_id"%string] (VStr seller)) (invalidation reason)) in tx_ret tt.

(** *** Guarded writes *)

(** The lease holds, or it is lost. *)
Definition hold (o : DevolucionesOperationContext) (u : update) (msg : string) : gtx unit :=
  let^ r := g_lift (call clock (MUpdateOne DEVOLUCIONES_OPERATIONS_COLLECTION (operation_lease_guard o) u false)) in
  if matched_count r =? 1 then g_ret tt else g_lose (lease_lost_error msg).
(** The resource a checkpoint names, when certificates depend on it. *)
Definition resource_of (o : DevolucionesOperationContext) (checkpoint : doc) (certificate_impact_handled : bool) : option (string * val) :=
  if is_active (o_coverage_mode o) && negb certificate_impact_handled then
    if truthy (doc_get checkpoint "order_id") then Some ("orders"%string, doc_get checkpoint "order_id")
    else if truthy (doc_get checkpoint "claim_id") then Some ("claims"%string, doc_get checkpoint "claim_id") else None
  else None.
Definition stored_resource (seller : string) (resource : option (string * val)) : dtx (option doc) :=
  match resource with
  | Some (kind, identity) => call clock (MFindOne kind (FAnd (eqs [("_id", VStr (py_str identity)); ("seller_id", VStr seller)]%string)) [])
  | None => tx_ret None
  end.
Definition opt_dict (o : option doc) : val := match o with Some d => VDict d | None => VNone end.
Definition certificate_impact (seller : string) (resource : option (string * val)) (prior : option doc) : dtx unit :=
  match resource with
  | None => tx_ret tt
  | Some (kind, identity) =>
      let& current := stored_resource seller resource in
      if py_eq (opt_dict prior) (opt_dict current) then tx_ret tt
      else if String.eqb kind "orders" then
        let& dependencies := call clock (MFind "claims" (FAnd (eqs [("seller_id", VStr seller); ("order_id", VStr (py_str identity))]%string)) []) in
        invalidate_claim_impact seller (map Some dependencies) "order_mutation"
      else invalidate_claim_impact seller [prior; current] "claim_mutation"
  end.
Definition guarded_write {A} (o : DevolucionesOperationContext) (seller : string) (checkpoint : doc) (writer : dtx A) (certificate_impact_handled : bool) : gtx A :=
  do^ hold o (UOps [USet ["checkpoint"%string] (VDict checkpoint); UCurrentDate ["updated_at"%string]]) "devoluciones operation lease guard failed" in
  let resource := resource_of o checkpoint certificate_impact_handled in
  let^ prior := g_lift (stored_resource seller resource) in
  let^ written := g_lift writer in
  do^ g_lift (certificate_impact seller resource prior) in
  do^ (if is_active (o_coverage_mode o) || py_eq (doc_get checkpoint "phase") (VStr "certificate_migration")
       then hold o touched "certificate transaction lost its lease before commit" else g_ret tt) in
  g_ret written.
Definition for_owner (o : DevolucionesOperationContext) (seller : string) : result unit :=
  let! _ := _ensure_live_owner o in
  let! normalized := _required_identity seller "seller_id" in
  check! String.eqb normalized (o_seller_id o) else lease_lost_error "mutation seller does not match operation seller" in Ok tt.
(** With the session of the caller, whose transaction is [in_transaction]. *)
Definition guarded_in_session {A} (in_transaction : bool) (o : DevolucionesOperationContext) (seller : string) (checkpoint : doc) (writer : dtx A)
    (certificate_impact_handled : bool) : gtx A :=
  match for_owner o seller with
  | Err e => g_lift (tx_fail e)
  | Ok _ => if in_transaction then guarded_write o seller checkpoint writer certificate_impact_handled
            else g_lift (tx_fail (mk_exn "ValueError" "covered write requires an active transaction"))
  end.
End Certified.

Section Operations.
Context `{Surrounding database}.

Definition guarded_devoluciones_write {A} (o : DevolucionesOperationContext) (seller : string) (checkpoint : doc) (writer : (nat -> Z) -> dtx A)
    (certificate_impact_handled : bool) : sact database (result A * DevolucionesOperationContext) :=
  match for_owner o seller with
  | Err e => act_ret (Err e, o)
  | Ok _ =>
      let~ r := transact (fun clock => guarded_write clock o seller checkpoint (writer clock) certificate_impact_handled) (o_lease_lost o) in
      act_ret (r.1, with_lost r.2 o)
  end.

(** An update of the operation outside a transaction. *)
Definition owner_update (o : DevolucionesOperationContext) (stage : list (string * aexpr)) (msg : string) : sact database (result unit * DevolucionesOperationContext) :=
  match _ensure_live_owner o with
  | Err e => act_ret (Err e, o)
  | Ok _ => let~ r := transact (fun clock => hold clock o (UPipe stage) msg) (o_lease_lost o) in act_ret (r.1, with_lost r.2 o)
  end.
Definition heartbeat_devoluciones_operation (o : DevolucionesOperationContext) : sact database (result unit * DevolucionesOperationContext) :=
  owner_update o lease_stage "devoluciones operation heartbeat lost its lease".
Definition finish_devoluciones_operation (o : DevolucionesOperationContext) (succeeded : bool) (error_code : option string) :
    sact database (result unit * DevolucionesOperationContext) :=
  owner_update o (finish_stage succeeded error_code) "devoluciones operation release lost its lease".

Definition _acquire_devoluciones_operation_once (seller scope operation_id attempt_token : string) (source : option string) (invalidate compatible : bool) :
    sact database DevolucionesOperationContext :=
  let~ seller := act_lift (_required_identity seller "seller_id") in
  let~ scope := act_lift (_required_identity scope "scope") in
  let~ operation_id := act_lift (_required_identity operation_id "operation_id") in
  let~ attempt_token := act_lift (_required_identity attempt_token "attempt_token") in
  plainly (fun clock => acquire_tx clock seller scope operation_id attempt_token source invalidate compatible).

(** [error.code] and [error.has_error_label]: the arguments of the exception. *)
Definition error_code (e : exn) : option Z := match exn_args e with VInt c :: _ => Some c | _ => None end.
Definition has_error_label (e : exn) (label : string) : bool := match exn_args e with [_; VList labels] => existsb (py_eq (VStr label)) labels | _ => false end.
Definition retryable (e : exn) : bool :=
  isinstance e "OperationFailure" && bool_decide (error_code e = Some 112) && has_error_label e "TransientTransactionError"
  && negb (has_error_label e "UnknownTransactionCommitResult").
Fixpoint acquire_attempts (attempts : nat) (once : sact database DevolucionesOperationContext) : sact database DevolucionesOperationContext :=
  match attempts with
  | O => act_fail (mk_exn "AssertionError" "unreachable bounded transaction retry")
  | S more => act_try once (fun e => if Nat.eqb more 0 || negb (retryable e) then act_fail e else acquire_attempts more once)
  end.
Definition acquire_devoluciones_operation (seller scope operation_id attempt_token : string) (source : option string) (invalidate compatible : bool) :
    sact database DevolucionesOperationContext :=
  acquire_attempts 3 (_acquire_devoluciones_operation_once seller scope operation_id attempt_token source invalidate compatible).

Definition invalidate_devoluciones_readiness (o : DevolucionesOperationContext) (source : string) : sact database (result unit * DevolucionesOperationContext) :=
  guarded_devoluciones_write o (o_seller_id o) (mk_doc [("phase", VStr "readiness_invalidation"); ("source", VStr source)]%string)
    (fun clock =>
       do& (if is_active (o_coverage_mode o) && negb (String.eqb source "devoluciones_relevant_order_event")
            then invalidate_all_certificates clock (o_seller_id o) "explicit_invalidation" else tx_ret tt) in
       let& _ := call clock (MUpdateOne READ_MODEL_FRESHNESS_COLLECTION (FEq ["_id"%string] (VStr (marker_key (o_seller_id o) DEVOLUCIONES_READ_MODEL)))
         (_stale_readiness_update (o_seller_id o) source) true) in tx_ret tt) false.

Definition validate_proof_vector (vector : ProofVector) (now : Z) : sact database unit := plainly (fun clock => _validate_proof_vector clock vector now).

(** *** Run windows *)

Definition _guard (clock : nat -> Z) (o : DevolucionesOperationContext) : dtx bool :=
  let& r := call clock (MUpdateOne DEVOLUCIONES_OPERATIONS_COLLECTION (operation_lease_guard o) touched false) in tx_ret (matched_count r =? 1).

Definition run_fields (b : RunBinding) (created_at expiry : Z) : list (string * val) :=
  [("_id", VStr (run_id b)); ("authorization_id", VStr (authorization_id b)); ("cohort_id", VStr (cohort_id b)); ("seller_id", VStr (seller_id b));
   ("scope", VStr (scope b)); ("start", VDate true (start b)); ("end", VDate true (stop b)); ("partition_version", VStr (partition_version b));
   ("release_fingerprints", VDict (VStr <$> release_fingerprints b)); ("window_count", VInt (Z.of_nat (length (partition_windows b))));
   ("state", VStr "authorized"); ("next_window_index", VInt 0); ("created_at", VDate true created_at); ("expires_at", VDate true expiry);
   ("schema_version", VInt 1)]%string.
(** The result of the driver is acknowledged. *)
Definition create_tx (clock : nat -> Z) (b : RunBinding) (o : DevolucionesOperationContext) (created_at : Z) : dtx bool :=
  let& held := _guard clock o in
  if held then
    let& expiry := tx_lift (expires_at b created_at) in
    let& _ := call clock (MUpdateOne RUNS_COLLECTION (FEq ["_id"%string] (VStr (run_id b))) (UOps (inserts_of (run_fields b created_at expiry))) true) in
    tx_ret true
  else tx_ret false.
Definition create (b : RunBinding) (o : DevolucionesOperationContext) (created_at : option val) : sact database bool :=
  let~ created_at := match created_at with Some v => act_lift (_utc v) | None => act_now end in
  plainly (fun clock => create_tx clock b o created_at).

(** [_mongo_utc(document[k])]. *)
Definition mongo_utc (d : doc) (k : string) : result Z := let! v := doc_at d k in match v with VDate _ us => Ok us | _ => no_attribute end.
Definition date_is (d : doc) (k : string) (us : Z) : bool := match doc_get d k with VDate _ us' => us' =? us | _ => false end.
Definition _prepared_window_matches (d : doc) (w : RunWindow) (idempotency_key : string) : bool :=
  py_eq (doc_get d "run_id") (VStr (w_run_id w)) && py_eq (doc_get d "index") (VInt (w_index w)) && date_is d "start" (w_start w)
  && date_is d "end" (w_end w) && py_eq (doc_get d "idempotency_key") (VStr idempotency_key).
Definition prepare_tx (clock : nat -> Z) (w : RunWindow) (o : DevolucionesOperationContext) (idempotency_key : string) : dtx bool :=
  let& held := _guard clock o in
  if held then
    let& existing := call clock (MFindOne RUN_WINDOWS_COLLECTION (FEq ["_id"%string] (VStr (window_id w))) []) in
    match existing with
    | Some d => tx_ret (_prepared_window_matches d w idempotency_key)
    | None =>
        let& created := tx_now clock in
        let& updated := tx_now clock in
        let& _ := call clock (MUpdateOne RUN_WINDOWS_COLLECTION (FEq ["_id"%string] (VStr (window_id w)))
          (UOps (inserts_of
             [("_id", VStr (window_id w)); ("run_id", VStr (w_run_id w)); ("index", VInt (w_index w)); ("start", VDate true (w_start w));
              ("end", VDate true (w_end w)); ("state", VStr "prepared"); ("fence", VInt (o_fence o)); ("idempotency_key", VStr idempotency_key);
              ("created_at", VDate true created); ("updated_at", VDate true updated); ("schema_version", VInt 1)]%string)) true) in
        tx_ret true
    end
  else tx_ret false.
Definition prepare (w : RunWindow) (o : DevolucionesOperationContext) (idempotency_key : string) : sact database bool :=
  plainly (fun clock => prepare_tx clock w o idempotency_key).

Fixpoint next_window (clock : nat -> Z) (run : string) (index from to : Z) (count : nat) : dtx (option RunWindow) :=
  match count with
  | O => tx_ret None
  | S count =>
      let window := {| w_run_id := run; w_index := index; w_start := from; w_end := window_end from to |} in
      let& document := call clock (MFindOne RUN_WINDOWS_COLLECTION (FAnd (eqs [("run_id", VStr run); ("index", VInt index)]%string)) []) in
      match document with
      | None => tx_ret (Some window)
      | Some d =>
          let& state := tx_lift (doc_at d "state") in
          if py_eq state (VStr "completed") then next_window clock run (index + 1) (w_end window) to count else tx_ret (Some window)
      end
  end.
Definition read_next_tx (clock : nat -> Z) (run : string) (o : DevolucionesOperationContext) : dtx (option RunWindow) :=
  let& held := _guard clock o in
  if held then
    let& found := call clock (MFindOne RUNS_COLLECTION (FEq ["_id"%string] (VStr run)) []) in
    match found with
    | None => tx_ret None
    | Some d =>
        let& from := tx_lift (mongo_utc d "start") in
        let& to := tx_lift (mongo_utc d "end") in
        let& count := tx_lift (let! v := doc_at d "window_count" in py_int v) in
        next_window clock run 0 from to (Z.to_nat count)
    end
  else tx_ret None.
Definition read_next (run : string) (o : DevolucionesOperationContext) : sact database (option RunWindow) :=
  plainly (fun clock => read_next_tx clock run o).

(** *** Marker transitions *)

Definition READ_MODELS : list string :=
  ["orders"; "shipments"; "items"; "questions"; "claims"; "catalog_product_snapshots"; "catalog_buybox_snapshots"; "sheets_item_formula_rows";
   "sheets_item_sku_index"; "item_status_states"; "item_status_transitions"; "price_history_snapshots"; "stockout_snapshots"; "stock_time_metrics";
   "catalog_time_metrics"; "full_withdrawals"]%string.
Definition ALL_READ_MODELS : list string := READ_MODELS ++ [DEVOLUCIONES_READ_MODEL].
Definition WRITER_TARGET_STATES : list string := ["stale"; "failed"]%string.
Definition WRITER_SOURCE_ALLOWLIST : list string := ["operator-action"]%string.
Definition _validate_writer_inputs (seller read_model target_state source : string) (approved_runtime : bool) : result unit :=
  check! negb (string_is_empty (strip seller)) else mk_exn "ValueError" "seller_id is required" in
  check! string_in read_model ALL_READ_MODELS else mk_exn "ValueError" ("unsupported read model: " ++ read_model)%string in
  check! string_in target_state WRITER_TARGET_STATES else mk_exn "ValueError" "target_state must be one of failed, stale" in
  check! string_in source WRITER_SOURCE_ALLOWLIST else mk_exn "ValueError" "source must be one of operator-action" in
  check! String.eqb read_model DEVOLUCIONES_READ_MODEL || approved_runtime else mk_exn "RuntimeError" "approved runtime is required for generic marker writes" in
  Ok tt.
Definition generic_transition (clock : nat -> Z) (seller read_model target_state source : string) (upsert : bool) : dtx unit :=
  let& _ := call clock (MUpdateOne READ_MODEL_FRESHNESS_COLLECTION
    (FAnd (eqs [("_id", VStr (marker_key seller read_model)); ("seller_id", VStr seller); ("read_model", VStr read_model)]%string))
    (expired_marker seller read_model target_state source) upsert) in tx_ret tt.
Definition _set_generic_state (seller read_model target_state source : string) : sact database unit :=
  act_try (plainly (fun clock => generic_transition clock seller read_model target_state source true))
    (fun e => if isinstance e "DuplicateKeyError" then plainly (fun clock => generic_transition clock seller read_model target_state source false) else act_fail e).
Definition _require_matching_live_lease (seller : string) (o : option DevolucionesOperationContext) : result DevolucionesOperationContext :=
  match o with
  | None => Err (lease_lost_error "devoluciones transitions require a live caller-owned operation lease")
  | Some o => check! String.eqb (o_seller_id o) seller else lease_lost_error "mutation seller does not match operation seller" in Ok o
  end.
Definition write_failed_marker (clock : nat -> Z) (seller source : string) (o : DevolucionesOperationContext) : dtx unit :=
  do& (if is_active (o_coverage_mode o) then invalidate_all_certificates clock seller "explicit_invalidation" else tx_ret tt) in
  let& _ := call clock (MUpdateOne READ_MODEL_FRESHNESS_COLLECTION (FEq ["_id"%string] (VStr (marker_key seller DEVOLUCIONES_READ_MODEL)))
    (expired_marker seller DEVOLUCIONES_READ_MODEL "failed" source) true) in tx_ret tt.
Definition set_devoluciones_state (seller target_state source : string) (o : option DevolucionesOperationContext) :
    sact database (result unit * option DevolucionesOperationContext) :=
  match _require_matching_live_lease seller o with
  | Err e => act_ret (Err e, o)
  | Ok c =>
      let~ r := (if String.eqb target_state "stale" then invalidate_devoluciones_readiness c "devoluciones_operation_invalidate"
                 else guarded_devoluciones_write c seller (mk_doc [("phase", VStr "failed_marker"); ("source", VStr source)]%string)
                        (fun clock => write_failed_marker clock seller source c) false) in
      act_ret (r.1, Some r.2)
  end.
Definition set_read_model_marker_state (seller read_model target_state source : string) (approved_runtime : bool) (o : option DevolucionesOperationContext) :
    sact database (result unit * option DevolucionesOperationContext) :=
  match _validate_writer_inputs seller read_model target_state source approved_runtime with
  | Err e => act_ret (Err e, o)
  | Ok _ =>
      if String.eqb read_model DEVOLUCIONES_READ_MODEL then set_devoluciones_state seller target_state source o
      else fun w => let '(r, w) := _set_generic_state seller read_model target_state source w in (Ok (r, o), w)
  end.
End Operations.
End Library.
