(* ===== verification/DevolucionesProofs.v ===== *)
(** The returns library keeps its fences and its evidence: what every step of
    it does to the operations and the certificates of the shared database, and
    what follows for a superseded operation and a changed claim. *)

From S2P Require Export CoverageProofs Devoluciones.

#[local] Open Scope Z_scope.

(** What others are known to keep: the operations, and some certificates. *)
Class Tracked := { track_operations : Prop; track_certificate : string -> Prop }.

(** ** Calls *)

Section Library.
Context `{MongoConf} `{PyRepr} `{Sha256} `{Tracked}.

Lemma twp_call {X : Type} (clock : nat -> Z) (m : mongo_op X) (Q : X -> database -> Prop) s :
  (forall now x s', mongo_ok now m s s' (Ok x) -> Q x s') -> twp (call clock m) Q s.
Proof using Type.
  intros HQ. unfold call. apply twp_bind, twp_now. intros now n x n' s' Hr. pose proof (ref_mongo_ok now m s) as Hok.
  destruct (ref_mongo now m s) as [s1 [y|e]]; [|done]. injection Hr as <- <- <-. by eapply HQ.
Qed.
Lemma twp_or_raise {A : Type} (t : dtx A) e Q s : twp t Q s -> twp (or_raise t e) Q s.
Proof using Type. intros Ht n a n' s' Hr. unfold or_raise in Hr. destruct (t n s) eqn:E; [|done]. injection Hr as ->. by eapply Ht. Qed.

(** ** The order of the databases

    What is tracked: the operations, whose identities stay and whose fences
    never fall, and certificates, which stay with their evidence. *)
Definition operation_ok (i : string) (d : doc) : Prop :=
  exists a b z, d !! "seller_id" = Some (VStr a) /\ d !! "scope" = Some (VStr b) /\ i = marker_key a b /\ d !! "_id" = Some (VStr i) /\ d !! "fence" = Some (VInt z).
Definition ops_ok (s : database) : Prop := forall i d, s !! (DEVOLUCIONES_OPERATIONS_COLLECTION, i) = Some d -> operation_ok i d.
(** The operation of a seller and a scope has a fence of at least [f]. *)
Definition fenced (a b : string) (f : Z) (s : database) : Prop :=
  exists d z, s !! (DEVOLUCIONES_OPERATIONS_COLLECTION, marker_key a b) = Some d /\ d !! "seller_id" = Some (VStr a) /\ d !! "scope" = Some (VStr b) /\
              d !! "fence" = Some (VInt z) /\ f <= z.
Definition operations_kept (s s' : database) : Prop := ops_ok s -> ops_ok s' /\ forall a b f, fenced a b f s -> fenced a b f s'.
Definition certificate_kept (i : string) (s s' : database) : Prop :=
  forall d, s !! (CERTIFICATES, i) = Some d -> exists d', s' !! (CERTIFICATES, i) = Some d' /\ forall k, k ∈ evidence_fields -> d' !! k = d !! k.
Definition moves (s s' : database) : Prop :=
  (track_operations -> operations_kept s s') /\ forall i, track_certificate i -> certificate_kept i s s'.

Lemma moves_refl s : moves s s.
Proof using Type. split; [by intros _ Hok|]. intros i _ d Hd. by exists d. Qed.
Lemma moves_trans s1 s2 s3 : moves s1 s2 -> moves s2 s3 -> moves s1 s3.
Proof using Type.
  intros [Ho Hc] [Ho' Hc']. split.
  - intros Ht Hok. destruct (Ho Ht Hok) as [Hok2 Hf]. destruct (Ho' Ht Hok2) as [Hok3 Hf']. split; [done|]. intros a b f Hab. by apply Hf', Hf.
  - intros i Hi d Hd. destruct (Hc i Hi d Hd) as (d2 & Hd2 & Hk). destruct (Hc' i Hi d2 Hd2) as (d3 & Hd3 & Hk'). exists d3. split; [done|].
    intros k Hin. rewrite Hk' by done. by apply Hk.
Qed.

(** Nothing of these two collections is touched. *)
Definition apart (s s' : database) : Prop :=
  (forall i, s' !! (DEVOLUCIONES_OPERATIONS_COLLECTION, i) = s !! (DEVOLUCIONES_OPERATIONS_COLLECTION, i)) /\
  forall i, s' !! (CERTIFICATES, i) = s !! (CERTIFICATES, i).
Lemma apart_moves s s' : apart s s' -> moves s s'.
Proof using Type.
  intros [Ho Hc]. split.
  - intros _ Hok. split; [intros i d Hd; apply Hok; by rewrite <- Ho|]. intros a b f (d & z & Hd & Hrest). exists d, z. by rewrite Ho.
  - intros i _ d Hd. exists d. by rewrite Hc.
Qed.
Lemma call_apart {X : Type} now (m : mongo_op X) s s' r : mongo_ok now m s s' r ->
  collection_of m <> DEVOLUCIONES_OPERATIONS_COLLECTION -> collection_of m <> CERTIFICATES -> apart s s'.
Proof using Type. intros Hm Ho Hc. split; intros i; (eapply mongo_spec_frame; [by left|done]). Qed.

(** A transaction moves the database along that order. *)
Definition advances {A : Type} (t : dtx A) : Prop := forall s, twp t (fun _ s' => moves s s') s.
Lemma advances_ret {A : Type} (a : A) : advances (tx_ret a).
Proof using Type. intros s. apply twp_ret, moves_refl. Qed.
Lemma advances_fail {A : Type} e : advances (tx_fail e : dtx A).
Proof using Type. intros s. apply twp_fail. Qed.
Lemma advances_lift {A : Type} (r : result A) : advances (tx_lift r).
Proof using Type. intros s. apply twp_lift. intros a _. apply moves_refl. Qed.
Lemma advances_now (clock : nat -> Z) : advances (tx_now clock).
Proof using Type. intros s. apply twp_now. intros t. apply moves_refl. Qed.
Lemma advances_bind {A B : Type} (t : dtx A) (k : A -> dtx B) : advances t -> (forall a, advances (k a)) -> advances (tx_bind t k).
Proof using Type.
  intros Ht Hk s. apply twp_bind. eapply twp_mono; [apply Ht|]. cbv beta. intros a s1 H1'. eapply twp_mono; [apply Hk|]. cbv beta. intros b s2.
  by apply moves_trans.
Qed.
Lemma advances_call {X : Type} (clock : nat -> Z) (m : mongo_op X) : (forall now s x s', mongo_ok now m s s' (Ok x) -> moves s s') -> advances (call clock m).
Proof using Type. intros Hm s. apply twp_call. intros now x s'. apply Hm. Qed.
Lemma advances_read {X : Type} (clock : nat -> Z) (m : mongo_op X) : match m with MFindOne _ _ _ | MFind _ _ _ => True | _ => False end -> advances (call clock m).
Proof using Type. intros Hm. apply advances_call. intros now s x s'. destruct m; try done; intros [-> _]; apply moves_refl. Qed.
Lemma advances_elsewhere {X : Type} (clock : nat -> Z) (m : mongo_op X) :
  collection_of m <> DEVOLUCIONES_OPERATIONS_COLLECTION -> collection_of m <> CERTIFICATES -> advances (call clock m).
Proof using Type. intros Ho Hc. apply advances_call. intros now s x s' Hm. by eapply apart_moves, call_apart. Qed.

(** An update that leaves given fields alone. *)
Definition upd_field (u : upd) : option string :=
  match u with USet [k] _ | USetOnInsert [k] _ | UInc [k] _ | UCurrentDate [k] => Some k | _ => None end.
Definition leaves (ks : list string) (u : update) : bool :=
  match u with
  | UOps ops => forallb (fun u => match upd_field u with Some k => negb (string_in k ks) | None => false end) ops
  | UPipe stage => forallb (fun kv => negb (string_in kv.1 ks)) stage
  end.
Lemma apply_upd_leaves ks u now ins d d' k : match upd_field u with Some k => negb (string_in k ks) | None => false end = true ->
  apply_upd now ins u d = Some d' -> k ∈ ks -> d' !! k = d !! k.
Proof using Type.
  intros Hu Ha Hk. assert (Hne : forall k', upd_field u = Some k' -> k' <> k).
  { intros k' Hk' ->. rewrite Hk' in Hu. apply negb_true_iff in Hu. apply not_true_iff_false in Hu. apply Hu, string_in_iff. by apply list_elem_of_In. }
  destruct u as [p v|p v|p z| | |p]; try done; (destruct p as [|k' [|]]; [done| |done]); specialize (Hne _ eq_refl); cbn in Ha;
    repeat case_match; simplify_eq; try done; by rewrite lookup_insert_ne.
Qed.
Lemma apply_upds_leaves ks ops now ins d d' k : leaves ks (UOps ops) = true -> apply_upds now ins ops d = Some d' -> k ∈ ks -> d' !! k = d !! k.
Proof using Type.
  revert d. induction ops as [|u ops IH]; intros d Hl Ha Hk; cbn in Ha; [by injection Ha as ->|]. apply andb_true_iff in Hl as [Hu Hl].
  destruct (apply_upd now ins u d) as [d1|] eqn:E; [|done]. cbn in Ha. rewrite (IH d1) by done. by eapply apply_upd_leaves.
Qed.
Lemma update_leaves ks u now d d' k : leaves ks u = true -> apply_update now false u d = Some d' -> k ∈ ks -> d' !! k = d !! k.
Proof using Type.
  destruct u as [ops|stage]; [apply apply_upds_leaves|]. cbn. intros Hl [= <-] Hk. apply apply_stage_other.
  rewrite forallb_forall in Hl |- *. intros kv Hin. specialize (Hl kv Hin). apply negb_true_iff in Hl. apply negb_true_iff.
  destruct (String.eqb_spec kv.1 k) as [He|]; [|done]. rewrite He in Hl. exfalso. apply not_true_iff_false in Hl. apply Hl, string_in_iff. by apply list_elem_of_In.
Qed.

(** ** Operations *)

Definition identity_fields : list string := ["seller_id"; "scope"; "_id"; "fence"]%string.

Lemma operation_kept i d d' : operation_ok i d -> (forall k, k ∈ identity_fields -> d' !! k = d !! k) -> operation_ok i d'.
Proof using Type.
  intros (a & b & z & Ha & Hb & Hi & Hid & Hf) Hk. exists a, b, z. rewrite !Hk by (unfold identity_fields; set_solver). done.
Qed.

(** One operation replaced by one of its identity, with a fence as high. *)
Lemma replace_operation s i d d' z z' : s !! (DEVOLUCIONES_OPERATIONS_COLLECTION, i) = Some d -> d !! "fence"%string = Some (VInt z) ->
  (ops_ok s -> operation_ok i d') -> d' !! "seller_id"%string = d !! "seller_id"%string -> d' !! "scope"%string = d !! "scope"%string ->
  d' !! "fence"%string = Some (VInt z') -> z <= z' -> moves s (<[(DEVOLUCIONES_OPERATIONS_COLLECTION, i) := d']> s).
Proof using Type.
  intros Hd Hz Hok' Hs Hsc Hz' Hle. split.
  - intros _ Hok. split.
    + intros j e He. destruct (decide (j = i)) as [->|Hne]; [rewrite lookup_insert_eq in He; injection He as <-; by apply Hok'|].
      rewrite lookup_insert_ne in He by congruence. by apply Hok.
    + intros a b f (e & y & He & Ha & Hb & Hy & Hfy). destruct (decide (marker_key a b = i)) as [Hi|Hne].
      * subst i. rewrite Hd in He. injection He as <-. rewrite Hz in Hy. injection Hy as <-. exists d', z'. rewrite lookup_insert_eq, Hs, Hsc.
        repeat split; [done..|lia].
      * exists e, y. rewrite lookup_insert_ne by congruence. done.
  - intros j _ e He. exists e. by rewrite lookup_insert_ne.
Qed.

Lemma insert_operation s i d : s !! (DEVOLUCIONES_OPERATIONS_COLLECTION, i) = None -> operation_ok i d ->
  moves s (<[(DEVOLUCIONES_OPERATIONS_COLLECTION, i) := d]> s).
Proof using Type.
  intros Hn Hd. split; [|intros j _ e He; exists e; by rewrite lookup_insert_ne]. intros _ Hok. split.
  - intros j e He. destruct (decide (j = i)) as [->|Hne]; [rewrite lookup_insert_eq in He; by injection He as <-|].
    rewrite lookup_insert_ne in He by congruence. by apply Hok.
  - intros a b f (e & z & He & Hrest). exists e, z. rewrite lookup_insert_ne; [done|]. intros [= Hi]. congruence.
Qed.

(** An update of operations that leaves their identities and fences. *)
Lemma advances_operation (clock : nat -> Z) f u : leaves identity_fields u = true ->
  advances (call clock (MUpdateOne DEVOLUCIONES_OPERATIONS_COLLECTION f u false)).
Proof using Type.
  intros Hu. apply advances_call. intros now s x s' [(i & d & [Hd _] & Hup)|[_ [-> _]]]; [|apply moves_refl]. unfold updates in Hup.
  destruct (apply_update now false u d) as [d'|] eqn:Ha; [|by destruct Hup as [_ ?]]. destruct (decide _) as [_|]; [|by destruct Hup as [_ ?]].
  unfold stores in Hup. destruct (unique_ok _ _ _ _); destruct Hup as [-> Hr]; [|done].
  assert (Hk : forall k, k ∈ identity_fields -> d' !! k = d !! k) by (intros k; by eapply update_leaves).
  split; [|intros j _ e He; exists e; by rewrite lookup_insert_ne].
  intros Ht Hok. destruct (Hok i d Hd) as (a & b & z & Ha' & Hb & Hi & Hid & Hz).
  assert (Hm : moves s (<[(DEVOLUCIONES_OPERATIONS_COLLECTION, i) := d']> s)).
  { eapply replace_operation; [done|done|intros _; by eapply operation_kept; [apply Hok|]|by apply Hk; unfold identity_fields; set_solver..| |done].
    rewrite Hk by (unfold identity_fields; set_solver). done. }
  by apply Hm.
Qed.

(** ** A lease that was taken over *)

Lemma match_int d k a b : doc_get d k = VInt b -> match_eq d [k] (VInt a) = true -> a = b.
Proof using Type.
  intros Hs Hm. unfold match_eq in Hm. cbn in Hm. unfold doc_get in Hs. destruct (d !! k) as [v|]; [|done].
  cbn in Hs. subst v. cbn in Hm. unfold meets in Hm. cbn in Hm. rewrite !orb_false_r in Hm. by apply Z.eqb_eq in Hm.
Qed.
Lemma matches_eqs now kvs fs d : matches now (FAnd (eqs kvs ++ fs)) d = true ->
  (forall k v, (k, v) ∈ kvs -> match_eq d [k] v = true) /\ forallb (fun f => matches now f d) fs = true.
Proof using Type.
  cbn. rewrite forallb_app, andb_true_iff. intros [Hk Hf]. split; [|done]. intros k v Hin. rewrite forallb_forall in Hk.
  apply (Hk (FEq [k] v)). unfold eqs. apply in_map_iff. exists (k, v). split; [done|]. by apply list_elem_of_In.
Qed.
(** The operation a query by seller and scope finds. *)
Lemma found_operation now s kvs fs i d a b : ops_ok s -> selected now s DEVOLUCIONES_OPERATIONS_COLLECTION (FAnd (eqs kvs ++ fs)) i d ->
  ("seller_id"%string, VStr a) ∈ kvs -> ("scope"%string, VStr b) ∈ kvs ->
  i = marker_key a b /\ exists z, d !! "seller_id"%string = Some (VStr a) /\ d !! "scope"%string = Some (VStr b) /\ d !! "_id"%string = Some (VStr i) /\ d !! "fence"%string = Some (VInt z).
Proof using Type.
  intros Hok [Hd [Hk _]%matches_eqs] Ha Hb. destruct (Hok i d Hd) as (a' & b' & z & Ha' & Hb' & Hi & Hid & Hz).
  pose proof (match_str _ _ _ _ (doc_get_lookup _ _ _ Ha') (Hk _ _ Ha)) as ->. pose proof (match_str _ _ _ _ (doc_get_lookup _ _ _ Hb') (Hk _ _ Hb)) as ->.
  split; [done|]. by exists z.
Qed.

(** Its guard matches nothing once the fence has moved on. *)
Lemma superseded_unguarded now s o f : ops_ok s -> fenced (o_seller_id o) (o_scope o) f s -> o_fence o < f ->
  none_selected now s DEVOLUCIONES_OPERATIONS_COLLECTION (operation_lease_guard o).
Proof using Type.
  intros Hok (d & z & Hd & Ha & Hb & Hz & Hfz) Hlt i e He. apply not_true_iff_false. intros Hm. unfold operation_lease_guard in Hm.
  destruct (found_operation now s _ _ i e (o_seller_id o) (o_scope o) Hok (conj He Hm)) as [-> (y & _ & _ & _ & Hy)]; [set_solver..|].
  rewrite Hd in He. injection He as <-. rewrite Hz in Hy. injection Hy as <-. apply matches_eqs in Hm as [Hk _].
  pose proof (match_int _ _ _ _ (doc_get_lookup _ _ _ Hz) (Hk "fence"%string (VInt (o_fence o)) ltac:(set_solver))). lia.
Qed.
Lemma superseded_not_held (clock : nat -> Z) s o f u msg lost n : ops_ok s -> fenced (o_seller_id o) (o_scope o) f s -> o_fence o < f ->
  hold clock o u msg lost n s = (Err (lease_lost_error msg), true).
Proof using Type.
  intros Hok Hf Hlt. unfold hold, g_bind, g_lift, call, tx_bind, tx_now. set (m := MUpdateOne _ _ u false).
  pose proof (ref_mongo_ok (clock n) m s) as Hr. destruct (ref_mongo (clock n) m s) as [s' r]. cbn in Hr.
  destruct Hr as [(i & d & [Hd Hm] & _)|[_ [-> ->]]]; [|done]. exfalso.
  pose proof (superseded_unguarded (clock n) s o f Hok Hf Hlt i d Hd). congruence.
Qed.

(** ** Acquisition *)

Section Acquire.
Variables (clock : nat -> Z) (seller scope operation_id token : string).

Lemma lease_stage_fields now (e : doc) fence mode epoch source checkpoint : let d := apply_stage now (lease_fields seller scope operation_id token fence mode epoch source checkpoint) e in
  d !! "_id"%string = Some (VStr (marker_key seller scope)) /\ d !! "seller_id"%string = Some (VStr seller) /\ d !! "scope"%string = Some (VStr scope) /\
  d !! "fence"%string = Some (VInt fence).
Proof using Type.
  unfold apply_stage, lease_fields, operation_key. cbn [map app foldl fst snd aeval bson_encode]. cbv zeta.
  split; [|split; [|split]]; by doc_simp.
Qed.

(** The invalidation of certificates leaves operations and evidence alone. *)
Lemma advances_invalidation f reason : advances (call clock (MUpdateMany CERTIFICATES f (invalidation reason))).
Proof using Type.
  apply advances_call. intros now s x s' [(n & m & _ & _ & _ & Hother & Hc)|(_ & -> & _)]; [|apply moves_refl]. split.
  - intros _ Hok. split; [intros i d Hd; apply Hok; by rewrite Hother in Hd|]. intros a b g (d & z & Hd & Hrest). exists d, z. by rewrite Hother.
  - intros i _ d Hd. specialize (Hc i). rewrite Hd in Hc. destruct (matches now f d); [|by exists d]. destruct Hc as (d' & Ha & Hd'). exists d'. split; [done|].
    intros k Hk. eapply (update_leaves evidence_fields); [|exact Ha|done]. by vm_compute.
Qed.

(** What an acquisition leaves behind: its own fence, above the one before. *)
Definition acquired (s : database) (o : DevolucionesOperationContext) (s' : database) : Prop :=
  moves s s' /\ (ops_ok s -> o_seller_id o = seller /\ o_scope o = scope /\ fenced seller scope (o_fence o) s' /\
                 forall f, fenced seller scope f s -> f < o_fence o).

(** The operation as the transaction found it. *)
Lemma acquisition_write s existing fence mode epoch source checkpoint :
  (ops_ok s -> match existing with
   | Some e => exists d z, s !! (DEVOLUCIONES_OPERATIONS_COLLECTION, marker_key seller scope) = Some d /\ e = dec d /\ d !! "fence"%string = Some (VInt z) /\ fence = z + 1
   | None => fence = 1 /\ forall i d, s !! (DEVOLUCIONES_OPERATIONS_COLLECTION, i) = Some d -> ~ (d !! "seller_id"%string = Some (VStr seller) /\ d !! "scope"%string = Some (VStr scope))
   end) ->
  twp (call clock (MUpdateOne DEVOLUCIONES_OPERATIONS_COLLECTION (acquisition_filter seller scope existing)
         (UPipe (lease_fields seller scope operation_id token fence mode epoch source checkpoint)) (negb (is_some existing))))
    (fun r s' => moves s s' /\ (ops_ok s -> is_some existing && negb (matched_count r =? 1) = false ->
       fenced seller scope fence s' /\ forall f, fenced seller scope f s -> f < fence)) s.
Proof using Type.
  intros Hex. apply twp_call. intros now r s' Hr.
  assert (He : forall i, certificate_kept i s s') by (intros i d Hd; exists d; split; [|done]; by rewrite (mongo_spec_frame _ _ _ _ _ CERTIFICATES i (or_introl Hr))).
  destruct existing as [e|]; cbn [is_some negb andb] in *.
  - assert (Hok' : ops_ok s -> moves s s' /\ (negb (matched_count r =? 1) = false -> fenced seller scope fence s' /\ forall f, fenced seller scope f s -> f < fence)).
    { intros Hok. destruct (Hex Hok) as (d & z & Hd & -> & Hz & ->). destruct Hr as [(i & d1 & Hsel & Hup)|[_ [-> Hr]]].
      - destruct (found_operation now s (operation_key seller scope) _ i d1 seller scope Hok Hsel) as [-> (y & Ha & Hb & Hid & Hy)]; [by left|by right; left|]. destruct Hsel as [Hd1 _].
        rewrite Hd in Hd1. injection Hd1 as <-. rewrite Hz in Hy. injection Hy as <-. unfold updates in Hup. cbn [apply_update] in Hup.
        destruct (lease_stage_fields now d (z + 1) mode epoch source checkpoint) as (Hid' & Ha' & Hb' & Hz'). set (d' := apply_stage _ _ d) in *.
        destruct (decide _) as [_|]; [|by destruct Hup]. unfold stores in Hup. destruct (unique_ok _ _ _ _); [|by destruct Hup]. destruct Hup as [-> _]. split.
        + eapply replace_operation; [done|done| |congruence|congruence|done|lia]. intros _. exists seller, scope, (z + 1). done.
        + intros _. split; [exists d', (z + 1); rewrite lookup_insert_eq; repeat split; [done..|lia]|].
          intros f (e & y & He' & _ & _ & Hy & Hf). rewrite Hd in He'. injection He' as <-. rewrite Hz in Hy. injection Hy as <-. lia.
      - split; [apply moves_refl|]. by injection Hr as ->. }
    split; [|intros Hok; by apply Hok']. split; [|intros i _; apply He]. intros Ht Hok. by apply (proj1 (Hok' Hok)).
  - assert (Hok' : ops_ok s -> moves s s' /\ fenced seller scope fence s' /\ forall f, fenced seller scope f s -> f < fence).
    { intros Hok. destruct (Hex Hok) as [-> Hno]. destruct Hr as [(i & d & Hsel & _)|[_ Hup]].
      { destruct (found_operation now s (operation_key seller scope) _ i d seller scope Hok Hsel) as [_ (y & Ha & Hb & _)]; [by left|by right; left|]. destruct Hsel as [Hd _]. by destruct (Hno i d Hd). }
      unfold upsert_doc in Hup. cbn -[apply_stage] in Hup. set (d0 := <["scope"%string := _]> _) in Hup.
      destruct (lease_stage_fields now d0 1 mode epoch source checkpoint) as (Hid' & Ha' & Hb' & Hz'). set (d' := apply_stage _ _ d0) in *.
      unfold doc_id in Hup. rewrite Hid' in Hup. destruct (s !! _) eqn:Hs; cbn [is_some] in Hup; [by destruct Hup|].
      unfold stores in Hup. destruct (unique_ok _ _ _ _); [|by destruct Hup]. destruct Hup as [-> _]. split; [|split].
      - apply insert_operation; [done|]. exists seller, scope, 1. done.
      - exists d', 1. rewrite lookup_insert_eq. done.
      - intros f (e & y & He' & Ha & Hb & _). by destruct (Hno _ _ He'). }
    split; [|intros Hok _; by apply Hok']. split; [|intros i _; apply He]. intros Ht Hok. by apply (proj1 (Hok' Hok)).
Qed.


(** The operations as they were. *)
Definition same_ops (s s' : database) : Prop := moves s s' /\ forall i, s' !! (DEVOLUCIONES_OPERATIONS_COLLECTION, i) = s !! (DEVOLUCIONES_OPERATIONS_COLLECTION, i).
Lemma same_ops_refl s : same_ops s s.
Proof using Type. split; [apply moves_refl|done]. Qed.
Lemma same_ops_trans s1 s2 s3 : same_ops s1 s2 -> same_ops s2 s3 -> same_ops s1 s3.
Proof using Type. intros [Hm Ho] [Hm' Ho']. split; [by eapply moves_trans|]. intros i. by rewrite Ho'. Qed.
Lemma same_ops_ok s s' : same_ops s s' -> ops_ok s -> ops_ok s'.
Proof using Type. intros [_ Ho] Hok i d Hd. apply Hok. by rewrite <- Ho. Qed.
Lemma fenced_back s s' a b f : same_ops s s' -> fenced a b f s -> fenced a b f s'.
Proof using Type. intros [_ Ho] (d & z & Hd & Hrest). exists d, z. by rewrite Ho. Qed.

Lemma call_same_ops {X : Type} (m : mongo_op X) s : advances (call clock m) -> collection_of m <> DEVOLUCIONES_OPERATIONS_COLLECTION ->
  twp (call clock m) (fun _ s' => same_ops s s') s.
Proof using Type.
  intros Ha Hc n x n' s' Hr. split; [by eapply Ha|]. revert n x n' s' Hr. change (twp (call clock m) (fun _ s' => forall i, s' !! (DEVOLUCIONES_OPERATIONS_COLLECTION, i) = s !! (DEVOLUCIONES_OPERATIONS_COLLECTION, i)) s).
  apply twp_call. intros now x s' Hm i. by eapply mongo_spec_frame; [left|].
Qed.
Lemma call_find (c : string) (f : filter) s : twp (call clock (MFindOne c f [])) (fun r s' => s' = s /\
  match r with Some e => exists now i d, selected now s c f i d /\ e = dec d | None => exists now, none_selected now s c f end) s.
Proof using Type.
  apply twp_call. intros now r s' [-> [[Hn [= ->]]|(i & d & Hsel & _ & [= ->])]]; (split; [done|]); [by exists now|by exists now, i, d].
Qed.

Lemma match_eq_text (d : doc) k a : d !! k = Some (VStr a) -> match_eq d [k] (VStr a) = true.
Proof using Type. intros Hk. unfold match_eq. cbn. rewrite Hk. cbn. unfold meets. cbn. by rewrite String.eqb_refl. Qed.

(** What the acquisition found is still the operation. *)
Lemma found_existing s1 s2 existing fence : same_ops s1 s2 ->
  match existing with
  | Some e => exists now i d, selected now s1 DEVOLUCIONES_OPERATIONS_COLLECTION (FAnd (eqs (operation_key seller scope))) i d /\ e = dec d
  | None => exists now, none_selected now s1 DEVOLUCIONES_OPERATIONS_COLLECTION (FAnd (eqs (operation_key seller scope)))
  end ->
  match existing with Some e => exists z, py_int (doc_get_or e "fence" (VInt 0)) = Ok z /\ fence = z + 1 | None => fence = 1 end ->
  ops_ok s2 ->
  match existing with
  | Some e => exists d z, s2 !! (DEVOLUCIONES_OPERATIONS_COLLECTION, marker_key seller scope) = Some d /\ e = dec d /\ d !! "fence"%string = Some (VInt z) /\ fence = z + 1
  | None => fence = 1 /\ forall i d, s2 !! (DEVOLUCIONES_OPERATIONS_COLLECTION, i) = Some d -> ~ (d !! "seller_id"%string = Some (VStr seller) /\ d !! "scope"%string = Some (VStr scope))
  end.
Proof using Type.
  intros [_ Ho] Hex Hf Hok. destruct existing as [e|].
  - destruct Hex as (now & i & d & Hsel & ->). destruct Hf as (z & Hz & ->).
    assert (Hok1 : ops_ok s1) by (intros j e He; apply Hok; by rewrite Ho).
    destruct (found_operation now s1 (operation_key seller scope) [] i d seller scope Hok1 Hsel) as [-> (y & _ & _ & _ & Hy)]; [by left|by right; left|].
    destruct Hsel as [Hd _]. exists d, y. rewrite Ho. split; [done|]. split; [done|]. split; [done|]. f_equal.
    unfold doc_get_or, dec, decode_doc in Hz. rewrite lookup_fmap, Hy in Hz. by injection Hz as ->.
  - destruct Hex as [now Hn]. split; [done|]. intros i d Hd [Ha Hb]. rewrite Ho in Hd. specialize (Hn i d Hd). cbn in Hn.
    by rewrite (match_eq_text d _ _ Ha), (match_eq_text d _ _ Hb) in Hn.
Qed.

Lemma acquisition_spec source invalidate compatible s : twp (acquire_tx clock seller scope operation_id token source invalidate compatible) (fun o s' => acquired s o s') s.
Proof using Type.
  unfold acquire_tx. tx_use call_find. intros marker s0 [-> _].
  apply twp_bind. eapply (twp_mono _ (fun _ s1 => same_ops s s1)).
  { destruct invalidate; [|apply twp_ret, same_ops_refl]. apply twp_bind. eapply twp_mono; [apply call_same_ops; [by apply advances_elsewhere|done]|].
    intros ? s1 Hs1. by apply twp_ret. }
  intros _ s1 Hs1. tx_use call_find. intros existing s1' [-> Hex].
  apply twp_bind. apply (twp_mono _ (fun fence s2 => s2 = s1 /\ match existing with Some e => exists z, py_int (doc_get_or e "fence" (VInt 0)) = Ok z /\ fence = z + 1 | None => fence = 1 end)).
  { destruct existing as [e|]; [|by apply twp_ret]. apply twp_bind, twp_lift. intros z Hz. apply twp_ret. split; [done|]. by exists z. }
  intros fence s1' [-> Hf]. apply twp_bind. apply (twp_mono _ (fun _ s2 => s2 = s1)).
  { destruct existing as [e|]; [by apply twp_lift|by apply twp_ret]. }
  intros epoch s1' ->. tx_step. apply twp_bind. eapply (twp_mono _ (fun _ s2 => same_ops s1 s2)).
  { match goal with |- twp (if ?b then _ else _) _ _ => destruct b end; [|apply twp_ret, same_ops_refl].
    apply twp_bind. eapply twp_mono; [apply call_same_ops; [apply advances_invalidation|done]|].
    intros ? s2 Hs2. by apply twp_ret. }
  intros epoch' s2 Hs2. apply twp_bind, twp_or_raise. eapply twp_mono; [apply acquisition_write; by apply found_existing with (s1 := s1)|]. cbv beta.
  intros r s3 [Hm Hacq]. tx_step. tx_step. pose proof (same_ops_trans _ _ _ Hs1 Hs2) as Hs. split; [by eapply moves_trans; [apply Hs|]|].
  intros Hok. cbn [o_seller_id o_scope o_fence]. apply negb_true_iff in E0. destruct (Hacq (same_ops_ok _ _ Hs Hok) E0) as [Hfen Hbelow].
  repeat split; [done|]. intros f Hf'. apply Hbelow. by eapply fenced_back.
Qed.
End Acquire.
End Library.
