(* ===== verification/DevolucionesClaims.v ===== *)
(** What the returns library guarantees, however its steps interleave with
    those of others and wherever a commit fails: a superseded operation writes
    nothing, evidence is immutable, a run is walked window by window, and a
    changed claim is not served. *)

From S2P Require Export DevolucionesProofs.

#[local] Open Scope Z_scope.

(** ** Every transaction moves forward *)

Section Transactions.
Context `{MongoConf} `{PyRepr} `{Sha256} `{Tracked}.

Lemma advances_insert (clock : nat -> Z) d : advances (call clock (MInsertOne CERTIFICATES d)).
Proof using Type.
  apply advances_call. intros now s x s' Hins. cbn in Hins.
  assert (Hnew : forall i e, s !! (CERTIFICATES, i) = None -> moves s (<[(CERTIFICATES, i) := e]> s)).
  { intros i e Hn. split.
    - intros _ Hok. split; [intros j c Hc; apply Hok; by rewrite lookup_insert_ne in Hc|]. intros a b f (c & z & Hc & Hrest). exists c, z. by rewrite lookup_insert_ne.
    - intros j _ c Hc. exists c. rewrite lookup_insert_ne; [done|]. intros [= ->]. congruence. }
  unfold inserts in Hins. destruct (doc_id _) as [i|].
  - destruct (s !! _) eqn:Hs; cbn in Hins; [by destruct Hins|]. unfold stores in Hins. destruct (unique_ok _ _ _ _); destruct Hins as [-> ?]; [by apply Hnew|done].
  - destruct Hins as (i & Hn & Hins). unfold stores in Hins. destruct (unique_ok _ _ _ _); destruct Hins as [-> ?]; [by apply Hnew|done].
Qed.

End Transactions.

Ltac advance :=
  repeat first
    [ apply advances_ret | apply advances_fail | apply advances_lift | apply advances_now
    | apply advances_invalidation | apply advances_insert
    | apply advances_read; exact I
    | apply advances_operation; by vm_compute
    | apply advances_elsewhere; done
    | assumption
    | progress cbv zeta
    | apply advances_bind; [|intros ?]
    | match goal with
      | |- advances (if ?b then _ else _) => destruct b
      | |- advances (match ?x with _ => _ end) => destruct x
      end ].

Section Library.
Context `{MongoConf} `{PyRepr} `{Sha256} `{Tracked}.
Variable clock : nat -> Z.

Lemma advances_control seller : advances (coverage_control clock seller).
Proof using Type. unfold coverage_control. advance. Qed.
Lemma advances_compatible control : advances (require_compatible control).
Proof using Type. unfold require_compatible. advance. Qed.
Lemma advances_provenance d : advances (validate_provenance clock d).
Proof using Type. unfold validate_provenance. advance. Qed.
Lemma advances_publish o d : advances (publish_certificate clock o d).
Proof using Type. unfold publish_certificate. advance. Qed.
Lemma advances_vector v now : advances (_validate_proof_vector clock v now).
Proof using Type.
  unfold _validate_proof_vector. apply advances_bind; [apply advances_control|intros c]. apply advances_bind; [apply advances_compatible|intros []].
  apply advances_bind; [apply advances_lift|intros f]. destruct (_ && _); [|apply advances_fail]. induction (v_proofs v) as [|p ps IH]; cbn [validate_proofs]; [advance|].
  apply advances_bind; [|by intros []]. unfold validate_proof. advance; apply advances_provenance.
Qed.
Lemma advances_impact seller claims reason : advances (invalidate_claim_impact clock seller claims reason).
Proof using Type. unfold invalidate_claim_impact. advance. Qed.
Lemma advances_resource seller r : advances (stored_resource clock seller r).
Proof using Type. unfold stored_resource. advance. Qed.
Lemma advances_certificate_impact seller r prior : advances (certificate_impact clock seller r prior).
Proof using Type.
  unfold certificate_impact. destruct r as [[kind i]|]; [|advance]. apply advances_bind; [apply advances_resource|intros c]. advance; apply advances_impact.
Qed.
Lemma advances_create b o t : advances (create_tx clock b o t).
Proof using Type. unfold create_tx, _guard. advance. Qed.
Lemma advances_prepare w o k : advances (prepare_tx clock w o k).
Proof using Type. unfold prepare_tx, _guard. advance. Qed.
Lemma advances_next run i from to n : advances (next_window clock run i from to n).
Proof using Type. revert i from. induction n as [|n IH]; intros i from; cbn [next_window]; advance. apply IH. Qed.
Lemma advances_read_next run o : advances (read_next_tx clock run o).
Proof using Type. unfold read_next_tx, _guard. advance. apply advances_next. Qed.
Lemma advances_generic seller model state source b : advances (generic_transition clock seller model state source b).
Proof using Type. unfold generic_transition. advance. Qed.
Lemma advances_failed seller source o : advances (write_failed_marker clock seller source o).
Proof using Type. unfold write_failed_marker, invalidate_all_certificates. advance. Qed.
Lemma advances_acquire seller scope i t source inv comp : advances (acquire_tx clock seller scope i t source inv comp).
Proof using Type. intros s. eapply twp_mono; [apply acquisition_spec|]. by intros o s' [Hm _]. Qed.
End Library.

(** ** Steps *)

Section Steps.
Context `{MongoConf} `{PyRepr} `{Sha256} `{Tracked} `{Surrounding database}.

(** A guarded transaction that commits. *)
Definition g_advances {A : Type} (t : gtx A) : Prop := forall lost n s a n' s' lost', t lost n s = (Ok (a, n', s'), lost') -> moves s s'.
Lemma g_advances_lift {A : Type} (t : dtx A) : advances t -> g_advances (g_lift t).
Proof using Type. intros Ht lost n s a n' s' lost' [= Hr _]. by eapply Ht. Qed.
Lemma g_advances_ret {A : Type} (a : A) : g_advances (g_ret a).
Proof using Type. intros lost n s b n' s' lost' [= _ _ -> _]. apply moves_refl. Qed.
Lemma g_advances_bind {A B : Type} (t : gtx A) (k : A -> gtx B) : g_advances t -> (forall a, g_advances (k a)) -> g_advances (g_bind t k).
Proof using Type.
  intros Ht Hk lost n s b n' s' lost' Hr. unfold g_bind in Hr. destruct (t lost n s) as [[[[a n1] s1]|e] lost1] eqn:E; [|done].
  eapply moves_trans; [by eapply Ht|by eapply Hk].
Qed.
Lemma g_advances_hold (clock : nat -> Z) (o : DevolucionesOperationContext) (u : update) (msg : string) : leaves identity_fields u = true -> g_advances (hold clock o u msg).
Proof using Type.
  intros Hu. apply g_advances_bind; [by apply g_advances_lift, advances_operation|]. intros r. destruct (_ =? _); [apply g_advances_ret|].
  by intros lost n s a n' s' lost' [=].
Qed.
Lemma g_advances_guarded {A : Type} (clock : nat -> Z) (o : DevolucionesOperationContext) (seller : string) (checkpoint : doc) (writer : dtx A) (handled : bool) : advances writer ->
  g_advances (guarded_write clock o seller checkpoint writer handled).
Proof using Type.
  intros Hw. unfold guarded_write. apply g_advances_bind; [by apply g_advances_hold|intros []].
  apply g_advances_bind; [apply g_advances_lift, advances_resource|intros prior]. apply g_advances_bind; [by apply g_advances_lift|intros a].
  apply g_advances_bind; [apply g_advances_lift, advances_certificate_impact|intros []].
  apply g_advances_bind; [|intros []; apply g_advances_ret]. destruct (_ || _); [by apply g_advances_hold|apply g_advances_ret].
Qed.

(** *** Programs *)

Hypothesis others_move : forall n s, moves s (others n s).

Definition only_moves {A : Type} (p : sact database A) : Prop := forall w r w', p w = (r, w') -> moves (w_store w) (w_store w').
Lemma forward_ret {A : Type} (a : A) : only_moves (act_ret a).
Proof using Type. intros w r w' [= _ <-]. apply moves_refl. Qed.
Lemma forward_fail {A : Type} e : only_moves (act_fail e : sact database A).
Proof using Type. intros w r w' [= _ <-]. apply moves_refl. Qed.
Lemma forward_lift {A : Type} (r : result A) : only_moves (act_lift r).
Proof using Type. intros w r' w' [= _ <-]. apply moves_refl. Qed.
Lemma forward_now : only_moves act_now.
Proof using Type. intros w r w' [= _ <-]. apply moves_refl. Qed.
Lemma forward_bind {A B : Type} (p : sact database A) (k : A -> sact database B) : only_moves p -> (forall a, only_moves (k a)) -> only_moves (act_bind p k).
Proof using Type.
  intros Hp Hk w r w' Hr. unfold act_bind in Hr. destruct (p w) as [[a|e] w1] eqn:E; [eapply moves_trans; [by eapply Hp|by eapply Hk]|].
  injection Hr as _ <-. by eapply Hp.
Qed.
Lemma forward_try {A : Type} (p : sact database A) h : only_moves p -> (forall e, only_moves (h e)) -> only_moves (act_try p h).
Proof using Type.
  intros Hp Hh w r w' Hr. unfold act_try in Hr. destruct (p w) as [[a|e] w1] eqn:E; [injection Hr as _ <-; by eapply Hp|].
  eapply moves_trans; [by eapply Hp|by eapply Hh].
Qed.
Lemma forward_transact {A : Type} (t : (nat -> Z) -> gtx A) lost : (forall clock, g_advances (t clock)) -> only_moves (transact t lost).
Proof using others_move.
  intros Ht w r w' Hr. unfold transact in Hr. pose proof (others_move (w_turn w) (w_store w)) as Ho.
  destruct (faults (w_turn w)) eqn:Hf; try (injection Hr as _ <-; exact Ho);
    (destruct (t _ lost 0%nat _) as [[[[a n] s1]|e'] lost'] eqn:E; injection Hr as _ <-; [eapply moves_trans; [exact Ho|by eapply Ht]|exact Ho]).
Qed.
Lemma forward_plainly {A : Type} (t : (nat -> Z) -> dtx A) : (forall clock, advances (t clock)) -> only_moves (plainly t).
Proof using others_move.
  intros Ht. apply forward_bind; [|intros r; apply forward_lift]. apply forward_transact. intros clock. by apply g_advances_lift.
Qed.

(** The steps of the library, by whichever worker. *)
Inductive returns_step :=
| Acquire (seller scope operation_id token : string) (source : option string) (invalidate compatible : bool)
| Heartbeat (o : DevolucionesOperationContext)
| Finish (o : DevolucionesOperationContext) (succeeded : bool) (error_code : option string)
| Write (o : DevolucionesOperationContext) (seller : string) (checkpoint : doc) (writer : (nat -> Z) -> dtx unit) (handled : bool)
| Publish (o : DevolucionesOperationContext) (checkpoint document : doc)
| Invalidate (o : DevolucionesOperationContext) (source : string)
| Validate (v : ProofVector) (now : Z)
| Create (b : RunBinding) (o : DevolucionesOperationContext) (created_at : option val)
| Prepare (w : RunWindow) (o : DevolucionesOperationContext) (idempotency_key : string)
| ReadNext (run : string) (o : DevolucionesOperationContext)
| Mark (seller model state source : string) (approved : bool) (o : option DevolucionesOperationContext).
Definition finishing {A : Type} (p : sact database A) : sact database unit := fun w => (Ok tt, (p w).2).
Definition run_step (st : returns_step) : sact database unit :=
  match st with
  | Acquire seller scope i t source inv comp => finishing (acquire_devoluciones_operation seller scope i t source inv comp)
  | Heartbeat o => finishing (heartbeat_devoluciones_operation o)
  | Finish o b c => finishing (finish_devoluciones_operation o b c)
  | Write o seller checkpoint writer handled => finishing (guarded_devoluciones_write o seller checkpoint writer handled)
  | Publish o checkpoint d => finishing (guarded_devoluciones_write o (o_seller_id o) checkpoint (fun clock => publish_certificate clock o d) true)
  | Invalidate o source => finishing (invalidate_devoluciones_readiness o source)
  | Validate v now => finishing (validate_proof_vector v now)
  | Create b o t => finishing (create b o t)
  | Prepare w o k => finishing (prepare w o k)
  | ReadNext run o => finishing (read_next run o)
  | Mark seller model state source approved o => finishing (set_read_model_marker_state seller model state source approved o)
  end.
Definition run_steps (steps : list returns_step) (w : sworld database) : sworld database := foldl (fun w st => (run_step st w).2) w steps.
(** The writers the callers pass move the database by [R] only. *)
Definition lawful (R : database -> database -> Prop) (st : returns_step) : Prop :=
  match st with Write _ _ _ writer _ => forall clock s, twp (writer clock) (fun _ s' => R s s') s | _ => True end.
Lemma lawful_mono R R' st : (forall s s', R s s' -> R' s s') -> lawful R st -> lawful R' st.
Proof using Type. intros HR. destruct st; try done. intros Hl clock s. eapply twp_mono; [apply Hl|]. intros ? s'. apply HR. Qed.

Lemma forward_finishing {A : Type} (p : sact database A) : only_moves p -> only_moves (finishing p).
Proof using Type. intros Hp w r w' [= _ <-]. destruct (p w) as [r' w'] eqn:E. by eapply Hp. Qed.
Lemma forward_guarded {A : Type} (o : DevolucionesOperationContext) (seller : string) (checkpoint : doc) (writer : (nat -> Z) -> dtx A) (handled : bool) : (forall clock, advances (writer clock)) ->
  only_moves (guarded_devoluciones_write o seller checkpoint writer handled).
Proof using others_move.
  intros Hw. unfold guarded_devoluciones_write. destruct (for_owner o seller); [|apply forward_ret]. apply forward_bind; [|intros r; apply forward_ret].
  apply forward_transact. intros clock. by apply g_advances_guarded.
Qed.
Lemma forward_owner (o : DevolucionesOperationContext) (stage : list (string * aexpr)) (msg : string) : leaves identity_fields (UPipe stage) = true -> only_moves (owner_update o stage msg).
Proof using others_move.
  intros Hs. unfold owner_update. destruct (_ensure_live_owner o); [|apply forward_ret]. apply forward_bind; [|intros r; apply forward_ret].
  apply forward_transact. intros clock. by apply g_advances_hold.
Qed.
Lemma forward_acquire (seller scope i t : string) (source : option string) (inv comp : bool) : only_moves (acquire_devoluciones_operation seller scope i t source inv comp).
Proof using others_move.
  unfold acquire_devoluciones_operation. assert (Honce : only_moves (_acquire_devoluciones_operation_once seller scope i t source inv comp)).
  { unfold _acquire_devoluciones_operation_once. repeat (apply forward_bind; [apply forward_lift|intros ?]). apply forward_plainly. intros clock. apply advances_acquire. }
  generalize 3%nat as n. intros n. induction n as [|n IH]; [apply forward_fail|]. apply forward_try; [done|]. intros e. destruct (_ || _); [apply forward_fail|done].
Qed.
Lemma forward_invalidate (o : DevolucionesOperationContext) (source : string) : only_moves (invalidate_devoluciones_readiness o source).
Proof using others_move. apply forward_guarded. intros clock. unfold invalidate_all_certificates. advance. Qed.
Lemma forward_step st : lawful moves st -> only_moves (run_step st).
Proof using others_move.
  intros Hl. destruct st; cbn [run_step]; apply forward_finishing.
  - apply forward_acquire.
  - by apply forward_owner.
  - by apply forward_owner; destruct succeeded.
  - by apply forward_guarded.
  - apply forward_guarded. intros clock. apply advances_publish.
  - apply forward_invalidate.
  - apply forward_plainly. intros clock. apply advances_vector.
  - unfold create. apply forward_bind; [destruct created_at; [apply forward_lift|apply forward_now]|]. intros t. apply forward_plainly. intros clock. apply advances_create.
  - apply forward_plainly. intros clock. apply advances_prepare.
  - apply forward_plainly. intros clock. apply advances_read_next.
  - unfold set_read_model_marker_state. destruct (_validate_writer_inputs _ _ _ _ _); [|apply forward_ret]. destruct (String.eqb _ _).
    + unfold set_devoluciones_state. destruct (_require_matching_live_lease _ _); [|apply forward_ret]. apply forward_bind; [|intros r; apply forward_ret].
      destruct (String.eqb _ _); [apply forward_invalidate|apply forward_guarded; intros clock; apply advances_failed].
    + intros w r w' Hr. destruct (_set_generic_state _ _ _ _ w) as [r1 w1] eqn:E. injection Hr as _ <-. revert w r1 w1 E.
      change (only_moves (_set_generic_state seller model state source)). unfold _set_generic_state.
      apply forward_try; [apply forward_plainly; intros clock; apply advances_generic|]. intros e.
      destruct (isinstance _ _); [apply forward_plainly; intros clock; apply advances_generic|apply forward_fail].
Qed.
Lemma forward_steps steps w : Forall (lawful moves) steps -> moves (w_store w) (w_store (run_steps steps w)).
Proof using others_move.
  revert w. induction steps as [|st steps IH]; intros w Hl; [apply moves_refl|]. inversion_clear Hl as [|? ? Hst Hrest]. cbn.
  eapply moves_trans; [|by apply IH]. destruct (run_step st w) as [r w'] eqn:E. by eapply forward_step.
Qed.

(** *** A superseded operation *)

Lemma acquire_ok (seller scope i t : string) (source : option string) (inv comp : bool) (w : sworld database) o w' : acquire_devoluciones_operation seller scope i t source inv comp w = (Ok o, w') ->
  exists s, moves (w_store w) s /\ acquired (strip seller) (strip scope) s o (w_store w').
Proof using others_move.
  unfold acquire_devoluciones_operation. generalize 3%nat as n. intros n. revert w. induction n as [|n IH]; intros w Hr; [done|].
  cbn [acquire_attempts] in Hr. unfold act_try in Hr. destruct (_acquire_devoluciones_operation_once _ _ _ _ _ _ _ w) as [r w1] eqn:E.
  unfold _acquire_devoluciones_operation_once in E. unfold act_bind, act_lift, _required_identity in E.
  destruct (string_is_empty (strip seller)), (string_is_empty (strip scope)), (string_is_empty (strip i)), (string_is_empty (strip t));
    try (injection E as <- <-; cbn in Hr; destruct (Nat.eqb n 0); done).
  assert (Hm : moves (w_store w) (w_store w1)) by (eapply (forward_plainly _ (fun clock => advances_acquire clock _ _ _ _ _ _ _)), E).
  destruct r as [o'|e].
  - injection Hr as -> ->. unfold plainly, act_bind in E. destruct (transact _ false w) as [[[r lost]|e] w2] eqn:Ht; [|done]. injection E as -> ->. cbn in Ht.
    unfold transact in Ht. destruct (faults (w_turn w)); try discriminate Ht; unfold g_lift in Ht;
      (destruct (acquire_tx _ _ _ _ _ _ _ _ 0%nat _) as [[[o2 n2] s2]|e2] eqn:Ha; injection Ht; try discriminate; intros; subst);
      (exists (others (w_turn w) (w_store w)); split; [apply others_move|by eapply acquisition_spec]).
  - destruct (_ || _); [done|]. destruct (IH w1 Hr) as (s & Hs & Hacq). exists s. split; [by eapply moves_trans|done].
Qed.

(** Whatever else happens, the database stays as others leave it. *)
Definition writes_nothing {A : Type} (p : sact database (result A * DevolucionesOperationContext)) (w : sworld database) : Prop :=
  exists e o, (p w).1 = Ok (Err e, o) /\ (w_store (p w).2 = w_store w \/ w_store (p w).2 = others (w_turn w) (w_store w)).

Lemma transact_stopped {A : Type} (t : (nat -> Z) -> gtx A) (lost : bool) (w : sworld database) (e : exn) : (forall clock n, t clock lost n (others (w_turn w) (w_store w)) = (Err e, true)) ->
  exists e' lost', transact t lost w = (Ok (Err e', lost'), {| w_store := others (w_turn w) (w_store w); w_turn := S (w_turn w) |}).
Proof using Type. intros Ht. unfold transact. destruct (faults (w_turn w)); rewrite ?Ht; eauto. Qed.
Lemma guarded_stopped {A : Type} (o : DevolucionesOperationContext) (f : Z) (w : sworld database) (seller : string) (checkpoint : doc) (writer : (nat -> Z) -> dtx A) (handled : bool) :
  ops_ok (others (w_turn w) (w_store w)) -> fenced (o_seller_id o) (o_scope o) f (others (w_turn w) (w_store w)) -> o_fence o < f ->
  writes_nothing (guarded_devoluciones_write o seller checkpoint writer handled) w.
Proof using Type.
  intros Hok Hf Hlt. unfold writes_nothing, guarded_devoluciones_write. destruct (for_owner o seller) as [|e]; [|by exists e, o; split; [|left]].
  edestruct (transact_stopped (fun clock => guarded_write clock o seller checkpoint (writer clock) handled) (o_lease_lost o) w) as (e & lost & Ht).
  { intros clock n. unfold guarded_write. unfold g_bind at 1. by rewrite (superseded_not_held _ _ _ f). }
  unfold act_bind. rewrite Ht. cbn. exists e. eexists. split; [done|by right].
Qed.
Lemma owner_stopped (o : DevolucionesOperationContext) (f : Z) (w : sworld database) (stage : list (string * aexpr)) (msg : string) : ops_ok (others (w_turn w) (w_store w)) -> fenced (o_seller_id o) (o_scope o) f (others (w_turn w) (w_store w)) ->
  o_fence o < f -> writes_nothing (owner_update o stage msg) w.
Proof using Type.
  intros Hok Hf Hlt. unfold writes_nothing, owner_update. destruct (_ensure_live_owner o) as [|e]; [|by exists e, o; split; [|left]].
  edestruct (transact_stopped (fun clock => hold clock o (UPipe stage) msg) (o_lease_lost o) w) as (e & lost & Ht).
  { intros clock n. by rewrite (superseded_not_held _ _ _ f). }
  unfold act_bind. rewrite Ht. cbn. exists e. eexists. split; [done|by right].
Qed.

(** A program that answers [no] or raises, and leaves the database as it is. *)
Definition declines {A : Type} (no : A) (p : sact database A) (w : sworld database) : Prop :=
  ((p w).1 = Ok no \/ exists e, (p w).1 = Err e) /\ (w_store (p w).2 = w_store w \/ exists n, w_store (p w).2 = others n (w_store w)).

Lemma guard_declined (clock : nat -> Z) (o : DevolucionesOperationContext) f n s : ops_ok s -> fenced (o_seller_id o) (o_scope o) f s -> o_fence o < f ->
  exists n', _guard clock o n s = Ok (false, n', s).
Proof using Type.
  intros Hok Hf Hlt. unfold _guard, call, tx_bind, tx_now. set (m := MUpdateOne _ _ _ false).
  pose proof (ref_mongo_ok (clock n) m s) as Hr. destruct (ref_mongo (clock n) m s) as [s' r]. cbn in Hr.
  destruct Hr as [(i & d & [Hd Hm] & _)|[_ [-> ->]]]; [|by eexists]. exfalso.
  pose proof (superseded_unguarded (clock n) s o f Hok Hf Hlt i d Hd). congruence.
Qed.
Lemma plainly_declines {A : Type} (no : A) (t : (nat -> Z) -> dtx A) (w : sworld database) :
  (forall clock n, exists n', t clock n (others (w_turn w) (w_store w)) = Ok (no, n', others (w_turn w) (w_store w))) -> declines no (plainly t) w.
Proof using Type.
  intros Ht. unfold declines, plainly, transact, act_bind, act_lift, g_lift.
  destruct (faults (w_turn w)) as [|e|e|]; cbn [w_store fst snd]; try (split; [right; by eexists|right; by eexists]);
    destruct (Ht (readings (w_turn w)) 0%nat) as [n' ->]; (split; [|right; by eexists]); cbn; eauto.
Qed.
End Steps.

Section Superseded.
Context `{MongoConf} `{PyRepr} `{Sha256} `{Surrounding database}.
#[local] Instance operations_tracked : Tracked := {| track_operations := True; track_certificate := fun _ => False |}.
Lemma moves_operations s s' : moves s s' -> operations_kept s s'.
Proof using Type. intros [Ho _]. by apply Ho. Qed.
Lemma operations_moves s s' : operations_kept s s' -> moves s s'.
Proof using Type. intros Ho. by split. Qed.
Hypothesis others_keep : forall n s, operations_kept s (others n s).
Lemma others_move n s : moves s (others n s).
Proof using others_keep. by apply operations_moves. Qed.
Lemma operations_steps steps w : Forall (lawful operations_kept) steps -> operations_kept (w_store w) (w_store (run_steps steps w)).
Proof using others_keep.
  intros Hl. apply moves_operations, forward_steps; [exact others_move|]. eapply Forall_impl; [exact Hl|]. intros st. apply lawful_mono. intros s s'. by apply operations_moves.
Qed.

(** An acquisition takes a fence above the one before. *)
Lemma acquire_fences (seller scope i t : string) (source : option string) (inv comp : bool) (w : sworld database) o w' : ops_ok (w_store w) ->
  acquire_devoluciones_operation seller scope i t source inv comp w = (Ok o, w') ->
  ops_ok (w_store w') /\ o_seller_id o = strip seller /\ o_scope o = strip scope /\ fenced (strip seller) (strip scope) (o_fence o) (w_store w') /\
  forall f, fenced (strip seller) (strip scope) f (w_store w) -> f < o_fence o.
Proof using others_keep.
  intros Hok Ha. destruct (acquire_ok others_move _ _ _ _ _ _ _ _ _ _ Ha) as (s & Hm & [Hm' Hacq]). apply moves_operations in Hm, Hm'.
  destruct (Hm Hok) as [Hok1 Hk]. destruct (Hm' Hok1) as [Hok2 _]. destruct (Hacq Hok1) as (Hs & Hsc & Hf & Hbelow). repeat split; [done..|].
  intros f Hf'. by apply Hbelow, Hk.
Qed.

Lemma create_declines (b : RunBinding) (o : DevolucionesOperationContext) (created_at : option val) (w : sworld database) :
  (forall n clock m, exists m', _guard clock o m (others n (w_store w)) = Ok (false, m', others n (w_store w))) -> declines false (create b o created_at) w.
Proof using Type.
  intros Hg. assert (Hp : forall t n, declines false (plainly (fun clock => create_tx clock b o t)) {| w_store := w_store w; w_turn := n |}).
  { intros t n. apply plainly_declines. intros clock m. unfold create_tx, tx_bind. cbn [w_store w_turn]. destruct (Hg n clock m) as [m' ->]. by eexists. }
  unfold create, act_bind. destruct w as [s n], created_at as [v|]; cbn [act_lift act_now w_store w_turn] in *; [|exact (Hp (readings n 0%nat) (S n))].
  destruct (_utc v) as [t|e]; [apply Hp|]. split; [right; by eexists|by left].
Qed.

(** C10: Of two acquisitions of the operation of a seller and a scope, with any
    steps of any workers after each, the second has the
    higher fence, and the first owner changes nothing any more, as long as the
    others and the callers' own writers leave the documents of the operations to
    the library (certificates they may write and remove): a write under its
    guard, a heartbeat and the finishing raise, creating a run and preparing a
    window answer [False] or raise, reading the next window answers [None] or
    raises, and each leaves the database as the others leave it. *)
Theorem superseded_operation_never_writes {A : Type} (seller scope i t i' t' : string) (source source' : option string) (inv comp inv' comp' : bool)
    (steps steps' : list returns_step) (w0 w1 w2 : sworld database) (old new : DevolucionesOperationContext)
    (checkpoint : doc) (writer : (nat -> Z) -> dtx A) (handled succeeded : bool) (error : option string)
    (b : RunBinding) (created_at : option val) (window : RunWindow) (key run : string) :
  ops_ok (w_store w0) -> Forall (lawful operations_kept) steps -> Forall (lawful operations_kept) steps' ->
  acquire_devoluciones_operation seller scope i t source inv comp w0 = (Ok old, w1) ->
  acquire_devoluciones_operation seller scope i' t' source' inv' comp' (run_steps steps w1) = (Ok new, w2) ->
  let w := run_steps steps' w2 in
  o_fence old < o_fence new /\ writes_nothing (guarded_devoluciones_write old (o_seller_id old) checkpoint writer handled) w /\
  writes_nothing (heartbeat_devoluciones_operation old) w /\ writes_nothing (finish_devoluciones_operation old succeeded error) w /\
  declines false (create b old created_at) w /\ declines false (prepare window old key) w /\ declines None (read_next run old) w.
Proof using others_keep.
  intros Hok Hl Hl' Hold Hnew. cbv zeta.
  destruct (acquire_fences _ _ _ _ _ _ _ _ _ _ Hok Hold) as (Hok1 & Hs & Hsc & Hf1 & _). destruct (operations_steps steps w1 Hl Hok1) as [Hok2 Hk2].
  destruct (acquire_fences _ _ _ _ _ _ _ _ _ _ Hok2 Hnew) as (Hok3 & _ & _ & Hf3 & Hbelow). pose proof (Hbelow _ (Hk2 _ _ _ Hf1)) as Hlt.
  destruct (operations_steps steps' w2 Hl' Hok3) as [Hok4 Hk4]. rewrite <- Hs, <- Hsc in Hf3. pose proof (Hk4 _ _ _ Hf3) as Hf4.
  set (w := run_steps steps' w2) in *. assert (Hk : forall n, ops_ok (others n (w_store w)) /\ fenced (o_seller_id old) (o_scope old) (o_fence new) (others n (w_store w))).
  { intros n. destruct (others_keep n (w_store w) Hok4) as [Hok5 Hk5]. split; [done|]. by apply Hk5. }
  assert (Hg : forall n clock m, exists m', _guard clock old m (others n (w_store w)) = Ok (false, m', others n (w_store w))) by (intros n clock m; eapply guard_declined; [apply Hk..|done]).
  split; [done|]. split; [eapply guarded_stopped; [apply Hk..|done]|]. split; [eapply owner_stopped; [apply Hk..|done]|].
  split; [eapply owner_stopped; [apply Hk..|done]|]. split; [|split].
  - by apply create_declines.
  - apply plainly_declines. intros clock n. unfold prepare_tx, tx_bind. destruct (Hg (w_turn w) clock n) as [n' ->]. by eexists.
  - apply plainly_declines. intros clock n. unfold read_next_tx, tx_bind. destruct (Hg (w_turn w) clock n) as [n' ->]. by eexists.
Qed.
End Superseded.

Section Immutable.
Context `{MongoConf} `{PyRepr} `{Sha256} `{Surrounding database}.
Variable i : string.
#[local] Instance certificate_tracked : Tracked := {| track_operations := False; track_certificate := eq i |}.
Lemma moves_certificate s s' : moves s s' -> certificate_kept i s s'.
Proof using Type. intros [_ Hc]. by apply Hc. Qed.
Lemma certificate_moves s s' : certificate_kept i s s' -> moves s s'.
Proof using Type. intros Hc. split; [done|]. by intros j <-. Qed.
Hypothesis others_keep : forall n s, certificate_kept i s (others n s).

(** C40: The library never removes a certificate and never changes its
    acquisition evidence: a stored certificate that the others and the callers'
    own writers keep is still stored, with the same seller, kind, interval,
    source, fingerprints and expected count, whatever steps of the library
    follow - publications under its identity and invalidations included. *)
Theorem evidence_is_immutable (steps : list returns_step) (w : sworld database) (d : doc) : Forall (lawful (certificate_kept i)) steps -> w_store w !! (CERTIFICATES, i) = Some d ->
  exists d', w_store (run_steps steps w) !! (CERTIFICATES, i) = Some d' /\ forall k, k ∈ evidence_fields -> d' !! k = d !! k.
Proof using others_keep.
  intros Hl. apply moves_certificate, forward_steps; [intros n s; by apply certificate_moves|]. eapply Forall_impl; [exact Hl|]. intros st. apply lawful_mono.
  intros s s'. by apply certificate_moves.
Qed.
End Immutable.

(** ** Changed claims *)

Section Impact.
Context `{MongoConf} `{PyRepr} `{Sha256}.

(** A return of the seller, created at [us]. *)
Definition is_return (seller : string) (c : doc) (us : Z) : Prop :=
  py_str (doc_get c "seller_id") = seller /\ doc_get c "type" = VStr "returns" /\ exists aware, doc_get c "date_created" = VDate aware us.
(** A stored certificate of the seller whose interval holds [us]. *)
Definition certifies (seller : string) (us : Z) (e : doc) : Prop :=
  e !! "seller_id"%string = Some (VStr seller) /\ exists w w' from to, e !! "date_from"%string = Some (VDate w from) /\ e !! "date_to"%string = Some (VDate w' to) /\ from <= us < to.
Definition all_stale (seller : string) (us : Z) (s : database) : Prop :=
  forall i e, s !! (CERTIFICATES, i) = Some e -> certifies seller us e -> e !! "state"%string = Some (VStr "stale").

Lemma impact_finds seller claims c us : Some c ∈ claims -> is_return seller c us -> (impact seller claims).2 = true \/ us ∈ (impact seller claims).1.
Proof using Type.
  intros Hin (Hs & Ht & aware & Hd). induction claims as [|x claims IH]; [by apply not_elem_of_nil in Hin|].
  apply elem_of_cons in Hin as [<-|Hin].
  - cbn. destruct (impact seller claims) as [dates unknown]. rewrite Hs, String.eqb_refl. unfold has_key. destruct (c !! "type"%string) eqn:E; cbn; [|by left].
    rewrite Ht, Hd. cbn. destruct unknown; [by left|right; by left].
  - specialize (IH Hin). cbn. destruct x as [x|]; [|done]. destruct (impact seller claims) as [dates unknown]. cbn in *.
    destruct (_ || _); [by left|]. destruct (py_eq _ _); [|done]. destruct (doc_get x "date_created"); try (by left). destruct IH as [|IH]; [by left|right; by right].
Qed.

Lemma invalidated_state now reason (e e' : doc) : apply_update now false (invalidation reason) e = Some e' -> e' !! "state"%string = Some (VStr "stale").
Proof using Type.
  cbn. repeat case_match; cbn; intros Ha; simplify_eq; by doc_simp.
Qed.

(** A date in the interval is found by the query on the interval. *)
Lemma certified_matches now seller us e dates : floor_ms us = us -> certifies seller us e -> us ∈ dates ->
  matches now (FAnd (eqs [("seller_id"%string, VStr seller)] ++ [covering_any "date_to" dates])) e = true.
Proof using Type.
  intros Hfl (Hs & w & w' & from & to & Hfrom & Hto & Hus) Hin. cbn. rewrite (match_eq_text e _ _ Hs). cbn. rewrite andb_true_r. apply existsb_exists.
  exists (FAnd [FRel RLte ["date_from"%string] (VDate true us); FRel RGt ["date_to"%string] (VDate true us)]). split; [apply in_map_iff; exists us; split; [done|by apply list_elem_of_In]|].
  cbn. rewrite Hfrom, Hto. cbn. unfold meets, rel_test, bson_cmp. cbn. rewrite Hfl.
  destruct (Z.compare_spec from us), (Z.compare_spec to us); try lia; done.
Qed.

Lemma impact_invalidates (clock : nat -> Z) seller claims reason s c us : Some c ∈ claims -> is_return seller c us -> floor_ms us = us ->
  twp (invalidate_claim_impact clock seller claims reason) (fun _ s' => all_stale seller us s') s.
Proof using Type.
  intros Hin Hret Hfl. pose proof (impact_finds _ _ _ _ Hin Hret) as Hfound. unfold invalidate_claim_impact. destruct (impact seller claims) as [dates unknown]. cbn in Hfound.
  destruct (negb unknown && is_nil dates) eqn:Hnone.
  { exfalso. apply andb_true_iff in Hnone as [Hu Hn]. destruct Hfound as [->|Hd]; [done|]. destruct dates; [by apply not_elem_of_nil in Hd|done]. }
  cbv zeta. apply twp_bind, twp_call. intros now0 r0 s1 _. apply twp_bind, twp_call. intros now r s' Hup. apply twp_ret.
  intros i e He Hcert. destruct Hup as [(n & m & _ & _ & _ & _ & Hup)|(_ & _ & Hr)]; [|done]. specialize (Hup i).
  destruct (s1 !! (CERTIFICATES, i)) as [e0|]; [|congruence].
  destruct (matches now _ e0) eqn:Hm; [destruct Hup as (e' & Ha & He'); rewrite He in He'; injection He' as ->; by eapply invalidated_state|].
  exfalso. rewrite He in Hup. injection Hup as ->. apply not_true_iff_false in Hm. apply Hm. destruct unknown.
  - cbn. rewrite (match_eq_text e0 _ _ (proj1 Hcert)). done.
  - destruct Hfound as [|Hd]; [done|]. by apply (certified_matches now seller us e0 dates).
Qed.

(** ** A guarded write of a claim or an order *)

Definition ids_ok (c : string) (s : database) : Prop := forall i d, s !! (c, i) = Some d -> d !! "_id"%string = Some (VStr i).
(** The document a guarded write compares. *)
Definition resource_at (kind seller i : string) (s : database) : option doc :=
  match s !! (kind, i) with Some d => if match_eq d ["seller_id"%string] (VStr seller) then Some (dec d) else None | None => None end.
Lemma find_resource (clock : nat -> Z) kind seller v s : ids_ok kind s ->
  twp (stored_resource clock seller (Some (kind, v))) (fun r s' => s' = s /\ r = resource_at kind seller (py_str v) s) s.
Proof using Type.
  intros Hids. cbn [stored_resource]. eapply twp_mono; [apply call_find|]. cbv beta. intros r s' [-> Hr]. split; [done|]. unfold resource_at.
  assert (Hq : forall now i d, s !! (kind, i) = Some d -> matches now (FAnd (eqs [("_id", VStr (py_str v)); ("seller_id", VStr seller)]%string)) d
    = (String.eqb (py_str v) i && match_eq d ["seller_id"%string] (VStr seller))).
  { intros now i d Hd. cbn. rewrite andb_true_r. f_equal. unfold match_eq at 1. cbn. rewrite (Hids i d Hd). cbn. unfold meets. cbn. by rewrite !orb_false_r. }
  destruct r as [e|].
  - destruct Hr as (now & i & d & [Hd Hm] & ->). rewrite (Hq now i d Hd) in Hm. apply andb_true_iff in Hm as [Hi Hm]. apply String.eqb_eq in Hi as ->. by rewrite Hd, Hm.
  - destruct Hr as [now Hn]. destruct (s !! (kind, py_str v)) as [d|] eqn:Hd; [|done]. specialize (Hn _ _ Hd). rewrite (Hq now _ d Hd), String.eqb_refl in Hn.
    cbn in Hn. by rewrite Hn.
Qed.

(** The claims whose facts a guarded write between two databases changed: the
    claim its checkpoint names, or those of the order it names. *)
Inductive changed (o : DevolucionesOperationContext) (seller : string) (checkpoint : doc) (s s' : database) : doc -> Prop :=
| changed_claim v c : resource_of o checkpoint false = Some ("claims"%string, v) ->
    py_eq (opt_dict (resource_at "claims" seller (py_str v) s)) (opt_dict (resource_at "claims" seller (py_str v) s')) = false ->
    Some c ∈ [resource_at "claims" seller (py_str v) s; resource_at "claims" seller (py_str v) s'] -> changed o seller checkpoint s s' c
| changed_order v i e : resource_of o checkpoint false = Some ("orders"%string, v) ->
    py_eq (opt_dict (resource_at "orders" seller (py_str v) s)) (opt_dict (resource_at "orders" seller (py_str v) s')) = false ->
    s' !! ("claims"%string, i) = Some e -> match_eq e ["seller_id"%string] (VStr seller) = true -> match_eq e ["order_id"%string] (VStr (py_str v)) = true ->
    changed o seller checkpoint s s' (dec e).

(** The collections a transaction does not write. *)
Definition untouched (cs : list string) (s s' : database) : Prop := forall c i, c ∉ cs -> s' !! (c, i) = s !! (c, i).
Lemma untouched_trans cs s1 s2 s3 : untouched cs s1 s2 -> untouched cs s2 s3 -> untouched cs s1 s3.
Proof using Type. intros H12 H23 c i Hc. by rewrite H23, H12. Qed.
Lemma untouched_mono cs cs' s s' : untouched cs s s' -> (forall c, c ∈ cs -> c ∈ cs') -> untouched cs' s s'.
Proof using Type. intros Hu Hc c i Hn. apply Hu. intros Hin. by apply Hn, Hc. Qed.
Lemma resource_untouched cs s s' kind seller i : untouched cs s s' -> kind ∉ cs -> resource_at kind seller i s' = resource_at kind seller i s.
Proof using Type. intros Hu Hk. unfold resource_at. by rewrite Hu. Qed.

Lemma impact_untouched (clock : nat -> Z) seller claims reason s :
  twp (invalidate_claim_impact clock seller claims reason) (fun _ s' => untouched [READ_MODEL_FRESHNESS_COLLECTION; CERTIFICATES] s s') s.
Proof using Type.
  unfold invalidate_claim_impact. destruct (impact seller claims) as [dates unknown]. destruct (_ && _); [by apply twp_ret|]. cbv zeta.
  apply twp_bind, twp_call. intros now0 r0 s1 H01. apply twp_bind, twp_call. intros now r s' H1'. apply twp_ret. intros c i Hc.
  rewrite not_elem_of_cons, list_elem_of_singleton in Hc. destruct Hc as [Hf Hc].
  rewrite (mongo_spec_frame _ _ _ _ _ c i (or_introl H1')) by (cbn; congruence). apply (mongo_spec_frame _ _ _ _ _ c i (or_introl H01)). cbn. congruence.
Qed.
Lemma certificate_impact_untouched (clock : nat -> Z) seller r prior s :
  twp (certificate_impact clock seller r prior) (fun _ s' => untouched [READ_MODEL_FRESHNESS_COLLECTION; CERTIFICATES] s s') s.
Proof using Type.
  unfold certificate_impact. destruct r as [[kind v]|]; [|by apply twp_ret]. apply twp_bind. eapply twp_mono; [apply call_find|]. cbv beta. intros current s1 [-> _].
  destruct (py_eq _ _); [by apply twp_ret|]. destruct (String.eqb kind "orders"); [|apply impact_untouched].
  apply twp_bind, twp_call. intros now ds s1 [-> _]. apply impact_untouched.
Qed.

Lemma certificate_impact_spec (clock : nat -> Z) seller kind v prior s c us : ids_ok kind s ->
  py_eq (opt_dict prior) (opt_dict (resource_at kind seller (py_str v) s)) = false -> is_return seller c us -> floor_ms us = us ->
  (kind = "claims"%string /\ Some c ∈ [prior; resource_at "claims" seller (py_str v) s]) \/
  (kind = "orders"%string /\ exists i e, s !! ("claims"%string, i) = Some e /\ c = dec e /\ match_eq e ["seller_id"%string] (VStr seller) = true /\
     match_eq e ["order_id"%string] (VStr (py_str v)) = true) ->
  twp (certificate_impact clock seller (Some (kind, v)) prior) (fun _ s' => all_stale seller us s') s.
Proof using Type.
  intros Hids Hneq Hret Hfl Hc. unfold certificate_impact. apply twp_bind. eapply twp_mono; [by apply find_resource|]. cbv beta. intros current s1 [-> ->]. rewrite Hneq.
  destruct Hc as [[-> Hin]|[-> (i & e & He & -> & Hs & Ho)]]; cbn [String.eqb Ascii.eqb Bool.eqb]; [by eapply impact_invalidates|].
  apply twp_bind, twp_call. intros now ds s1 [-> (es & Hes & _ & [= ->])]. eapply impact_invalidates; [|done|done].
  rewrite list_elem_of_In. apply in_map, in_map_iff. exists e. split; [done|]. apply list_elem_of_In, Hes. exists i. split; [done|]. cbn. by rewrite Hs, Ho.
Qed.

Lemma g_bind_ok {A B : Type} (t : gtx A) (k : A -> gtx B) lost n s r lost' : g_bind t k lost n s = (Ok r, lost') ->
  exists a n1 s1 lost1, t lost n s = (Ok (a, n1, s1), lost1) /\ k a lost1 n1 s1 = (Ok r, lost').
Proof using Type. unfold g_bind. destruct (t lost n s) as [[[[a n1] s1]|e] l]; [|done]. intros Hk. by exists a, n1, s1, l. Qed.
Lemma g_lift_ok {A : Type} (t : dtx A) lost n s r lost' : g_lift t lost n s = (Ok r, lost') -> t n s = Ok r.
Proof using Type. by intros [= -> _]. Qed.
Lemma hold_untouched (clock : nat -> Z) o u msg lost n s a n' s' lost' : hold clock o u msg lost n s = (Ok (a, n', s'), lost') ->
  untouched [DEVOLUCIONES_OPERATIONS_COLLECTION] s s'.
Proof using Type.
  intros Hr. apply g_bind_ok in Hr as (r & n1 & s1 & l & Hr%g_lift_ok & Hk). assert (Hs : s1 = s') by (destruct (_ =? _); [by injection Hk|done]). subst s1. revert n r n1 s' Hr Hk.
  assert (Hc : twp (call clock (MUpdateOne DEVOLUCIONES_OPERATIONS_COLLECTION (operation_lease_guard o) u false))
    (fun _ s' => untouched [DEVOLUCIONES_OPERATIONS_COLLECTION] s s') s); [|intros n r n1 s' Hr _; by eapply Hc].
  apply twp_call. intros now r s' Hm c i Hc. rewrite list_elem_of_singleton in Hc. apply (mongo_spec_frame _ _ _ _ _ c i (or_introl Hm)). cbn. congruence.
Qed.

(** The phases of a guarded write that commits. *)
Lemma guarded_write_ok {A : Type} (clock : nat -> Z) (o : DevolucionesOperationContext) (seller : string) (checkpoint : doc) (writer : dtx A)
    (handled lost : bool) (n : nat) (s : database) (a : A) (n' : nat) (s' : database) (lost' : bool) :
  guarded_write clock o seller checkpoint writer handled lost n s = (Ok (a, n', s'), lost') ->
  let resource := resource_of o checkpoint handled in
  exists prior n1 s1 n2 n3 s2 n4 s3, untouched [DEVOLUCIONES_OPERATIONS_COLLECTION] s s1 /\ stored_resource clock seller resource n1 s1 = Ok (prior, n2, s1) /\
    writer n2 s1 = Ok (a, n3, s2) /\ certificate_impact clock seller resource prior n3 s2 = Ok (tt, n4, s3) /\ untouched [DEVOLUCIONES_OPERATIONS_COLLECTION] s3 s'.
Proof using Type.
  intros Hr. cbv zeta. unfold guarded_write in Hr. apply g_bind_ok in Hr as ([] & n1 & s1 & l1 & Hh%hold_untouched & Hr).
  apply g_bind_ok in Hr as (prior & n2 & s1' & l2 & Hp%g_lift_ok & Hr).
  assert (Hs : s1' = s1).
  { destruct (resource_of o checkpoint handled) as [[kind v]|]; [|by injection Hp]. cbn in Hp. revert n1 Hh Hp Hr.
    intros n1 _ Hp _. pose proof (call_find clock _ _ _ _ _ _ _ Hp) as [Hs _]. done. }
  subst s1'. apply g_bind_ok in Hr as (w & n3 & s2 & l3 & Hw%g_lift_ok & Hr). apply g_bind_ok in Hr as ([] & n4 & s3 & l4 & Hi%g_lift_ok & Hr).
  apply g_bind_ok in Hr as ([] & n5 & s4 & l5 & Hf & Hr). injection Hr as -> -> -> ->.
  exists prior, n1, s1, n2, n3, s2, n4, s3. repeat split; [done..|]. revert Hf. destruct (_ || _); [apply hold_untouched|]. intros [= _ ->]. by intros c i _.
Qed.

Lemma decoded_text (d : doc) (k t : string) : text_at (dec d) k = t -> t <> EmptyString -> d !! k = Some (VStr t).
Proof using Type.
  unfold text_at, doc_get, dec, decode_doc. rewrite lookup_fmap. destruct (d !! k) as [v|]; cbn; [|congruence]. destruct v; cbn; try congruence.
Qed.
Lemma decoded_date (d : doc) (k : string) (us : Z) : is_date (doc_get (dec d) k) = true -> instant_of (dec d) k = us -> exists w, d !! k = Some (VDate w us).
Proof using Type.
  unfold instant_of, doc_get, dec, decode_doc. rewrite lookup_fmap. destruct (d !! k) as [v|]; cbn; [|done]. destruct v; cbn; try done. intros _ ->. by eexists.
Qed.
(** What an eligible certificate is in the store. *)
Lemma eligible_stored (seller : string) (now : Z) (d : doc) (us : Z) : eligible seller now (dec d) = true -> spans us (dec d) ->
  certifies seller us d /\ d !! "state"%string = Some (VStr "reconciled").
Proof using Type.
  intros Hel Hus. unfold eligible in Hel. destruct (validate_certificate _ _) eqn:Hv; [|done]. destruct (certificate_identity _ _ _) eqn:Hi; [|done].
  assert (Hne : seller <> EmptyString) by (intros ->; unfold certificate_identity in Hi; cbn in Hi; by rewrite orb_true_r in Hi).
  rewrite !andb_true_iff in Hel. destruct Hel as (((((((Hs & Hst) & _) & _) & _) & _) & _) & _).
  apply String.eqb_eq in Hs, Hst. unfold validate_certificate in Hv. destruct (fields_ok _) eqn:Hf; [|done].
  unfold fields_ok in Hf. apply andb_true_iff in Hf as [_ Hf]. rewrite forallb_forall in Hf.
  assert (Hdate : forall k, In (k, of_kinds [DateKind]) certificate_schema -> is_date (doc_get (dec d) k) = true).
  { intros k Hk. specialize (Hf _ Hk). unfold field_ok in Hf. cbn in Hf. by rewrite !andb_true_r, orb_false_r in Hf. }
  destruct (decoded_date d "date_from" _ (Hdate "date_from"%string ltac:(cbn; tauto)) eq_refl) as [w Hw].
  destruct (decoded_date d "date_to" _ (Hdate "date_to"%string ltac:(cbn; tauto)) eq_refl) as [w' Hw'].
  split; [|by apply decoded_text in Hst]. split; [by apply decoded_text|]. by exists w, w', (instant_of (dec d) "date_from"), (instant_of (dec d) "date_to").
Qed.

(** C9: When a guarded write of an owner with active coverage, which leaves the
    impact on certificates to the library (it does not declare it handled) and
    whose checkpoint names the claim or order, changes that claim or order and
    commits, no read is served from a certificate that holds the
    creation date of a return it concerns: the certified prefix of an interval
    that starts before that date stops at it, whichever certificates are then
    stored. *)
Theorem changed_claim_is_not_served {A : Type} (clock : nat -> Z) (o : DevolucionesOperationContext) (seller : string) (checkpoint : doc) (writer : dtx A)
    (lost : bool) (n : nat) (s : database) (a : A) (n' : nat) (s' : database) (lost' : bool) (c : doc) (us : Z) :
  guarded_write clock o seller checkpoint writer false lost n s = (Ok (a, n', s'), lost') ->
  ids_ok "orders" s -> ids_ok "orders" s' -> ids_ok "claims" s -> ids_ok "claims" s' -> floor_ms us = us ->
  changed o seller checkpoint s s' c -> is_return seller c us ->
  forall certificates from to now selected reach, (forall e, e ∈ certificates -> exists i d, s' !! (CERTIFICATES, i) = Some d /\ e = dec d) ->
  from <= us -> coverage_prefix certificates seller (VDate true from) (VDate true to) now = Ok (selected, reach) -> reach <= us.
Proof using Type.
  intros Hr Ho Ho' Hcl Hcl' Hfl Hch Hret certificates from to now selected reach Hcert Hfrom Hsel.
  assert (Hst : all_stale seller us s').
  { apply guarded_write_ok in Hr as (prior & n1 & s1 & n2 & n3 & s2 & n4 & s3 & H01 & Hp & _ & Hi & H34).
    pose proof (certificate_impact_untouched clock _ _ _ _ _ _ _ _ Hi) as H23. cbv beta in H23.
    assert (H2' : untouched [DEVOLUCIONES_OPERATIONS_COLLECTION; READ_MODEL_FRESHNESS_COLLECTION; CERTIFICATES] s2 s')
      by (eapply untouched_trans; eapply untouched_mono; [exact H23|set_solver|exact H34|set_solver]).
    assert (Hc2 : forall i, s' !! ("claims"%string, i) = s2 !! ("claims"%string, i)) by (intros i; apply H2'; set_solver).
    assert (Hids : forall kind, kind ∈ ["orders"; "claims"]%string -> ids_ok kind s2 /\ ids_ok kind s1).
    { intros kind Hk. split; intros i d Hd.
      - assert (Hd' : s' !! (kind, i) = Some d) by (rewrite H2'; [done|set_solver]). rewrite !elem_of_cons in Hk. destruct Hk as [->|[->|?%not_elem_of_nil]]; [by apply Ho'|by apply Hcl'|done].
      - assert (Hd' : s !! (kind, i) = Some d) by (rewrite <- H01; [done|set_solver]). rewrite !elem_of_cons in Hk. destruct Hk as [->|[->|?%not_elem_of_nil]]; [by apply Ho|by apply Hcl|done]. }
    assert (H3 : all_stale seller us s3); [|intros i e He; apply (H3 i); rewrite <- He; symmetry; apply H34; set_solver].
    destruct Hch as [v c Hres Hne Hin|v i e Hres Hne He Hse Hor]; rewrite Hres in Hp, Hi.
    - destruct (find_resource clock _ _ _ _ (proj2 (Hids "claims"%string ltac:(set_solver))) _ _ _ _ Hp) as [_ ->].
      rewrite (resource_untouched _ _ _ _ _ _ H01) in Hi by set_solver. rewrite !(resource_untouched _ _ _ _ _ _ H2') in Hne, Hin by set_solver.
      eapply (certificate_impact_spec clock seller "claims" v _ s2 c us); [by apply Hids; set_solver|done|done|done|by left|exact Hi].
    - destruct (find_resource clock _ _ _ _ (proj2 (Hids "orders"%string ltac:(set_solver))) _ _ _ _ Hp) as [_ ->].
      rewrite (resource_untouched _ _ _ _ _ _ H01) in Hi by set_solver. rewrite !(resource_untouched _ _ _ _ _ _ H2') in Hne by set_solver. rewrite Hc2 in He.
      eapply (certificate_impact_spec clock seller "orders" v _ s2 (dec e) us); [by apply Hids; set_solver|done|done|done|right; split; [done|by exists i, e]|exact Hi]. }
  destruct (Z.le_gt_cases reach us) as [?|Hgt]; [done|]. exfalso.
  assert (Hlt : from < to) by (unfold coverage_prefix in Hsel; destruct (Z.ltb_spec from to); [done|discriminate Hsel]).
  destruct (selection_facts certificates seller from to now selected reach Hlt Hsel) as (Hin & Hcov).
  destruct (Hcov us) as (e & He & Hcont); [lia|]. destruct (Hin e He) as [Hine Hel]. destruct (Hcert e Hine) as (i & d & Hd & ->).
  destruct (eligible_stored _ _ _ us Hel Hcont) as [Hseller Hstate]. by rewrite (Hst i d Hd Hseller) in Hstate.
Qed.
End Impact.

(** ** The windows of a run *)

Section Walk.
Context `{MongoConf} `{PyRepr} `{Sha256}.

(** The window is stored as completed. *)
Definition finished (s : database) (w : RunWindow) : Prop :=
  exists i d now, selected now s RUN_WINDOWS_COLLECTION (FAnd (eqs [("run_id", VStr (w_run_id w)); ("index", VInt (w_index w))]%string)) i d /\
    d !! "state"%string = Some (VStr "completed").
(** One document per window. *)
Definition windows_distinct (s : database) : Prop := forall run index now now' i j d e,
  let f := FAnd (eqs [("run_id", VStr run); ("index", VInt index)]%string) in
  selected now s RUN_WINDOWS_COLLECTION f i d -> selected now' s RUN_WINDOWS_COLLECTION f j e -> i = j.
(** The first window that is not finished. *)
Definition first_open (s : database) (ws : list RunWindow) (r : option RunWindow) : Prop :=
  match r with
  | Some w => exists before after, ws = before ++ w :: after /\ Forall (finished s) before /\ ~ finished s w
  | None => Forall (finished s) ws
  end.

Lemma first_open_cons s w ws r : finished s w -> first_open s ws r -> first_open s (w :: ws) r.
Proof using Type.
  intros Hw Hr. destruct r as [x|]; [|by constructor]. destruct Hr as (before & after & -> & Hb & Hx). exists (w :: before), after. split; [done|]. split; [by constructor|done].
Qed.

Lemma next_window_spec (clock : nat -> Z) run ws index from to s : windows_distinct s -> tiles run index from to ws ->
  twp (next_window clock run index from to (length ws)) (fun r s' => s' = s /\ first_open s ws r) s.
Proof using Type.
  intros Hd. revert index from. induction ws as [|w ws IH]; intros index from Ht; cbn [length next_window]; [apply twp_ret; split; [done|constructor]|].
  destruct Ht as (Hw & _ & Ht). tx_use call_find. intros found s1 [-> Hf].
  assert (Hopen : ~ finished s w -> first_open s (w :: ws) (Some w)) by (intros Hn; by exists [], ws).
  destruct found as [e|]; [destruct Hf as (now & i & d & Hsel & ->)|destruct Hf as [now Hn]].
  - tx_step. rename a into state. rename H2 into Hstate. unfold doc_at, dec, decode_doc in Hstate. rewrite lookup_fmap in Hstate.
    destruct (d !! "state"%string) as [v|] eqn:Hv; [|done]. injection Hstate as <-.
    destruct (py_eq _ _) eqn:Heq.
    + apply py_eq_str in Heq. destruct v; try discriminate Heq. injection Heq as ->.
      assert (Hfin : finished s w) by (exists i, d, now; rewrite Hw; cbn; by split).
      eapply twp_mono; [apply (IH (index + 1) (window_end from to)); by rewrite Hw in Ht|]. cbv beta. intros r s1 [-> Hr]. split; [done|]. by apply first_open_cons.
    + apply twp_ret. split; [done|]. cbn [w_start]. rewrite <- Hw. apply Hopen. intros (j & e & now' & Hsel' & He). rewrite Hw in Hsel'. cbn in Hsel'.
      pose proof (Hd run index now now' i j d e Hsel Hsel') as ->. destruct Hsel as [Hdd _], Hsel' as [Hee _]. rewrite Hdd in Hee. injection Hee as ->.
      rewrite Hv in He. injection He as ->. done.
  - apply twp_ret. split; [done|]. rewrite <- Hw. apply Hopen. intros (j & e & now' & [He Hm] & _). rewrite Hw in Hm. cbn [w_run_id w_index] in Hm.
    specialize (Hn j e He). cbn in Hn, Hm. congruence.
Qed.

(** The run as a creation leaves it. *)
Definition run_stored (b : RunBinding) (e : doc) : Prop :=
  e !! "start"%string = Some (VDate true (floor_ms (start b))) /\ e !! "end"%string = Some (VDate true (floor_ms (stop b))) /\
  e !! "window_count"%string = Some (VInt (Z.of_nat (length (partition_windows b)))).
Lemma created_run (clock : nat -> Z) b o t n s n' s' : create_tx clock b o t n s = Ok (true, n', s') -> s !! (RUNS_COLLECTION, run_id b) = None -> ids_ok RUNS_COLLECTION s ->
  exists e, s' !! (RUNS_COLLECTION, run_id b) = Some e /\ run_stored b e.
Proof using Type.
  intros Hr Hnone Hids. revert n n' s' Hr. enough (Hw : twp (create_tx clock b o t) (fun r s' => r = true -> exists e, s' !! (RUNS_COLLECTION, run_id b) = Some e /\ run_stored b e) s) by (intros n n' s' Hr; by apply (Hw n true n' s' Hr)).
  unfold create_tx, _guard. apply twp_bind, twp_bind, twp_call. intros now0 r0 s1 H01. apply twp_ret. destruct (matched_count r0 =? 1); [|by apply twp_ret].
  assert (Hsame : forall i, s1 !! (RUNS_COLLECTION, i) = s !! (RUNS_COLLECTION, i)) by (intros i; apply (mongo_spec_frame _ _ _ _ _ RUNS_COLLECTION i (or_introl H01)); done).
  tx_step. apply twp_bind, twp_call. intros now r s2 Hup. apply twp_ret. intros _. destruct Hup as [(i & d & [Hd Hm] & _)|[_ Hup]].
  { exfalso. rewrite Hsame in Hd. cbn in Hm. assert (i = run_id b); [|subst; congruence].
    pose proof (Hids i d Hd) as Hi. symmetry. eapply match_str; [by apply doc_get_lookup|exact Hm]. }
  unfold upsert_doc in Hup. cbn -[floor_ms isoformat run_id] in Hup. unfold doc_id in Hup. set (d := <["schema_version"%string := VInt 1]> _) in Hup.
  assert (Hid : d !! "_id"%string = Some (VStr (run_id b))) by (unfold d; by doc_simp).
  assert (Hrun : run_stored b d) by (unfold d, run_stored; split; [|split]; by doc_simp).
  rewrite Hid, Hsame, Hnone in Hup. cbn [is_some] in Hup. unfold stores in Hup. destruct (unique_ok _ _ _ _); destruct Hup as [-> Hr]; [|done].
  exists d. by rewrite lookup_insert_eq.
Qed.

(** The run is still stored with its interval and its count of windows; its
    state, its next index and its earliest time may have been rewritten. *)
Definition run_kept (run : string) (s s' : database) : Prop := forall d, s !! (RUNS_COLLECTION, run) = Some d ->
  exists d', s' !! (RUNS_COLLECTION, run) = Some d' /\ forall k, k ∈ ["start"; "end"; "window_count"]%string -> d' !! k = d !! k.

(** C38: A run of whole milliseconds is walked window by window.  On any later
    database that still stores the run with the interval and the count it was
    created with - its state, next index and earliest time rewritten or not -
    and stores one document at most per window, an owner whose lease holds reads
    the first window of its partition that is not stored as completed, and none
    when all are; the windows of the partition are consecutive, cover its
    interval and none is longer than ten days. *)
Theorem created_run_is_walked (clock clock' : nat -> Z) b o o' t n s n1 s1 n2 s2 r n3 s3 :
  start b < stop b -> floor_ms (start b) = start b -> floor_ms (stop b) = stop b ->
  s !! (RUNS_COLLECTION, run_id b) = None -> ids_ok RUNS_COLLECTION s -> create_tx clock b o t n s = Ok (true, n1, s1) ->
  run_kept (run_id b) s1 s2 -> ids_ok RUNS_COLLECTION s2 -> windows_distinct s2 ->
  read_next_tx clock' (run_id b) o' n2 s2 = Ok (r, n3, s3) ->
  tiles (run_id b) 0 (start b) (stop b) (partition_windows b) /\
  (first_open s2 (partition_windows b) r \/ r = None /\ exists now, none_selected now s2 DEVOLUCIONES_OPERATIONS_COLLECTION (operation_lease_guard o')).
Proof using Type.
  intros Hlt Hfs Hfe Hnone Hids Hcreate Hsame Hids2 Hdist Hread. pose proof (partition_tiles b Hlt) as Htiles. split; [done|].
  destruct (created_run _ _ _ _ _ _ _ _ Hcreate Hnone Hids) as (e1 & He1 & Hstart & Hend & Hcount). destruct (Hsame e1 He1) as (e & He & Hkept).
  rewrite <- Hkept in Hstart by set_solver. rewrite <- Hkept in Hend by set_solver. rewrite <- Hkept in Hcount by set_solver. rewrite Hfs in Hstart. rewrite Hfe in Hend.
  revert n2 r n3 s3 Hread. change (twp (read_next_tx clock' (run_id b) o') (fun r _ => first_open s2 (partition_windows b) r \/
    r = None /\ exists now, none_selected now s2 DEVOLUCIONES_OPERATIONS_COLLECTION (operation_lease_guard o')) s2).
  unfold read_next_tx, _guard. apply twp_bind, twp_bind, twp_call. intros now0 r0 s4 H04. apply twp_ret. destruct (matched_count r0 =? 1) eqn:Hheld.
  2: { apply twp_ret. right. split; [done|]. exists now0. destruct H04 as [(i & d & Hsel & Hup)|[Hn _]]; [|done]. exfalso. unfold updates in Hup.
       destruct (apply_update _ _ _ _); [|by destruct Hup]. destruct (decide _); [|by destruct Hup]. unfold stores in Hup. destruct (unique_ok _ _ _ _); [|by destruct Hup].
       destruct Hup as [_ [= ->]]. done. }
  assert (Hsame4 : forall c i, c <> DEVOLUCIONES_OPERATIONS_COLLECTION -> s4 !! (c, i) = s2 !! (c, i)) by (intros c i Hc; apply (mongo_spec_frame _ _ _ _ _ c i (or_introl H04)); by apply not_eq_sym).
  assert (Hsel4 : forall now i d f, selected now s4 RUN_WINDOWS_COLLECTION f i d <-> selected now s2 RUN_WINDOWS_COLLECTION f i d) by (intros now i d f; unfold selected; by rewrite Hsame4).
  tx_use call_find. intros found s5 [-> Hf]. destruct found as [d'|].
  - destruct Hf as (now & i & d & [Hd Hm] & ->). rewrite Hsame4 in Hd by done.
    assert (i = run_id b) as -> by (pose proof (Hids2 i d Hd) as Hi; symmetry; eapply match_str; [by apply doc_get_lookup|exact Hm]).
    rewrite He in Hd. injection Hd as <-. unfold mongo_utc, doc_at, dec, decode_doc. rewrite !lookup_fmap, Hstart, Hend, Hcount. cbn [option_map fmap option_fmap bson_decode result_bind py_int].
    repeat tx_step. repeat match goal with H : Ok _ = Ok _ |- _ => injection H as <- end. rewrite Nat2Z.id.
    eapply twp_mono; [apply next_window_spec; [|exact Htiles]|].
    { intros run index now1 now2 j k d e' f Hj Hk. eapply (Hdist run index); by apply Hsel4. }
    cbv beta. intros r s5 [-> Hr]. left. revert Hr. unfold first_open, finished.
    assert (Hfin : forall w, (exists i d now, selected now s4 RUN_WINDOWS_COLLECTION (FAnd (eqs [("run_id", VStr (w_run_id w)); ("index", VInt (w_index w))]%string)) i d /\ d !! "state"%string = Some (VStr "completed")) <->
      (exists i d now, selected now s2 RUN_WINDOWS_COLLECTION (FAnd (eqs [("run_id", VStr (w_run_id w)); ("index", VInt (w_index w))]%string)) i d /\ d !! "state"%string = Some (VStr "completed"))).
    { intros w. by setoid_rewrite Hsel4. }
    destruct r as [w|].
    + intros (before & after & Hp & Hb & Hw). exists before, after. split; [done|]. split; [|by rewrite <- Hfin]. eapply Forall_impl; [exact Hb|]. intros x. apply Hfin.
    + intros Hb. eapply Forall_impl; [exact Hb|]. intros x. apply Hfin.
  - exfalso. destruct Hf as [now Hn]. specialize (Hn (run_id b) e). rewrite Hsame4 in Hn by done. specialize (Hn He).
    pose proof (Hids2 _ _ He) as Hid. cbn in Hn. by rewrite (match_eq_text e _ _ Hid) in Hn.
Qed.
End Walk.

(** ** A small seller, for the witnesses *)

Module ReturnsDemo.
#[local] Instance plain : MongoConf := {| tz_aware := false; unique_ok := fun _ _ _ _ => true |}.
#[local] Instance repr : PyRepr := fun _ => EmptyString.
#[local] Instance sha : Sha256 := fun s => String "h" s.
(** Nobody else, no fault, and two hundred seconds between two visits. *)
#[local] Instance alone : Surrounding database := {| others := fun _ s => s; faults := fun _ => NoFault; readings := fun n _ => Z.of_nat n * 200 * second + 400 * day |}.

Lemma digests_are_texts s : blank (sha256_hex s) = false.
Proof.
  change (blank (String "h" s) = false). unfold blank, strip. change (lstrip (String "h" s)) with (String "h" s).
  cbn [rstrip]. destruct (rstrip s); reflexivity.
Qed.

(** The bindings of a database, one by one. *)
Lemma every_binding (P : string -> string -> doc -> Prop) (test : string -> string -> doc -> bool) (s : database) :
  (forall c i d, test c i d = true -> P c i d) -> forallb (fun x => test x.1.1 x.1.2 x.2) (map_to_list s) = true -> forall c i d, s !! (c, i) = Some d -> P c i d.
Proof. intros Ht Hs c i d Hd. rewrite forallb_forall in Hs. apply Ht. apply (Hs ((c, i), d)). by apply list_elem_of_In, elem_of_map_to_list. Qed.
Lemma ids_checked (k : string) (s : database) : forallb (fun x => negb (String.eqb x.1.1 k) || bool_decide (x.2 !! "_id"%string = Some (VStr x.1.2))) (map_to_list s) = true -> ids_ok k s.
Proof.
  intros Hs i d Hd. refine (every_binding (fun c i d => c = k -> d !! "_id"%string = Some (VStr i)) (fun c i d => negb (String.eqb c k) || bool_decide (d !! "_id"%string = Some (VStr i))) s _ Hs k i d Hd eq_refl).
  intros c j e Ht ->. rewrite String.eqb_refl in Ht. by apply bool_decide_eq_true in Ht.
Qed.

(** *** Certificates *)

Definition january (n : Z) : Z := n * day.
Definition evidence_of (source : string) (from to : Z) : evidence :=
  {| e_seller_id := "s"; e_kind := "quota_run"; e_source_identity := source; e_source_fingerprint := Some "f"%string; e_acquisition_fingerprint := "a";
     e_date_from := january from; e_date_to := january to; e_acquired_at := january 40; e_expected_count := 2; e_membership_hash := "m";
     e_read_model_fingerprint := "r"; e_coverage_epoch := 0 |}.
Definition certificate (source : string) (from to : Z) : doc := match make_certificate (evidence_of source from to) (january 41) with Ok d => d | Err _ => ∅ end.
Definition three : list doc := [stored false (certificate "x" 0 10); stored false (certificate "y" 5 20); stored false (certificate "z" 9 15)].

Lemma selection_covers_witness : exists selected reach, coverage_prefix three "s" (VDate true (january 1)) (VDate true (january 30)) (january 41) = Ok (selected, reach) /\
  covers selected (january 1) reach.
Proof.
  destruct (selection_covers three "s" (january 1) (january 30) (january 41) eq_refl) as (selected & reach & Hs & _ & _ & Hc & _).
  exists selected, reach. split; [exact Hs|exact Hc].
Defined.

Lemma made_certificate_serves_witness :
  select_coverage [stored false (certificate "x" 0 10)] "s" (VDate true (january 0)) (VDate true (january 10)) (january 41 + 10 * minute) = Ok [stored false (certificate "x" 0 10)].
Proof.
  refine (made_certificate_serves digests_are_texts (evidence_of "x" 0 10) (january 41) (certificate "x" 0 10) false (january 41 + 10 * minute) _ _ _).
  - unfold evidence_ok. repeat split; first [done|by_vm].
  - by_vm.
  - split; [discriminate|reflexivity].
Defined.

(** *** Owners *)

Definition nobody : DevolucionesOperationContext :=
  {| o_seller_id := "s"; o_scope := "devoluciones"; o_operation_id := "op"; o_attempt_token := "t"; o_fence := 1; o_owns_lease := true;
     o_source_fingerprint := None; o_required_coverage := None; o_checkpoint := ∅; o_lease_lost := false; o_coverage_mode := VStr "active"; o_coverage_epoch := 0 |}.
Definition owner_of (r : result DevolucionesOperationContext) : DevolucionesOperationContext := match r with Ok o => o | Err _ => nobody end.
Definition start_world : sworld database := {| w_store := ∅; w_turn := 0 |}.
Definition first_run := acquire_devoluciones_operation "s" "devoluciones" "op1" "t1" None true false start_world.
Definition old : DevolucionesOperationContext := owner_of first_run.1.
Definition idle (clock : nat -> Z) : dtx unit := tx_ret tt.
(** A writer that removes a certificate, as a publication may. *)
Definition retire (clock : nat -> Z) : dtx unit := fun n s => Ok (tt, n, delete (CERTIFICATES, "x"%string) s).
Lemma retire_lawful : lawful operations_kept (Write old "s" ∅ retire true).
Proof.
  intros clock s n [] n' s' [= <- <-] Hok. split.
  - intros j d Hd. apply Hok. by rewrite lookup_delete_ne in Hd.
  - intros a b f (d & z & Hd & Hrest). exists d, z. by rewrite lookup_delete_ne.
Qed.
Lemma alone_keeps_operations n s : operations_kept s (others n s).
Proof. by intros Hok. Qed.
Lemma alone_keeps_certificate i n s : certificate_kept i s (others n s).
Proof. intros d Hd. by exists d. Qed.

Definition second_run := acquire_devoluciones_operation "s" "devoluciones" "op2" "t2" None true false (run_steps [Heartbeat old; Write old "s" ∅ retire true] first_run.2).
Definition new : DevolucionesOperationContext := owner_of second_run.1.
Definition binding : RunBinding :=
  {| authorization_id := "a"; cohort_id := "c"; seller_id := "s"; scope := "devoluciones"; start := january 0; stop := january 25; partition_version := "v1";
     release_fingerprints := {["api"%string := "1"%string]} |}.
Definition window_zero : RunWindow := {| w_run_id := run_id binding; w_index := 0; w_start := january 0; w_end := january 10 |}.
Lemma superseded_operation_never_writes_witness : let w := run_steps [Finish old true None] second_run.2 in
  o_fence old < o_fence new /\ writes_nothing (guarded_devoluciones_write old "s" ∅ idle false) w /\
  writes_nothing (heartbeat_devoluciones_operation old) w /\ writes_nothing (finish_devoluciones_operation old true None) w /\
  declines false (create binding old None) w /\ declines false (prepare window_zero old "k") w /\ declines None (read_next (run_id binding) old) w.
Proof.
  refine (superseded_operation_never_writes alone_keeps_operations "s" "devoluciones" "op1" "t1" "op2" "t2" None None true false true false
    [Heartbeat old; Write old "s" ∅ retire true] [Finish old true None] start_world first_run.2 second_run.2 old new ∅ idle false true None
    binding None window_zero "k" (run_id binding) _ _ _ _ _).
  - intros i d Hd. discriminate Hd.
  - constructor; [done|]. constructor; [exact retire_lawful|done].
  - by repeat constructor.
  - by_vm.
  - by_vm.
Defined.

Definition certified : sworld database := {| w_store := {[(CERTIFICATES, "x"%string) := encode_doc (certificate "x" 0 10)]}; w_turn := 0 |}.
Lemma evidence_is_immutable_witness : exists d, w_store (run_steps [Acquire "s" "devoluciones" "op1" "t1" None true false; Invalidate old "operator"] certified) !! (CERTIFICATES, "x"%string) = Some d /\
  forall k, k ∈ evidence_fields -> d !! k = encode_doc (certificate "x" 0 10) !! k.
Proof.
  refine (evidence_is_immutable "x" (alone_keeps_certificate "x") [Acquire "s" "devoluciones" "op1" "t1" None true false; Invalidate old "operator"] certified (encode_doc (certificate "x" 0 10)) _ _).
  - by repeat constructor.
  - by_vm.
Defined.

(** *** A claim that changes *)

Definition now : Z := january 41.
Definition held_operation : doc :=
  mk_doc [("_id", VStr "s:devoluciones"); ("seller_id", VStr "s"); ("scope", VStr "devoluciones"); ("operation_id", VStr "op"); ("attempt_token", VStr "t");
          ("fence", VInt 1); ("coverage_mode", VStr "active"); ("coverage_epoch", VInt 0); ("coverage_ack_fence", VInt 1); ("state", VStr "running");
          ("lease_until", VDate true (january 42))]%string.
Definition open_claim : doc :=
  mk_doc [("_id", VStr "c1"); ("seller_id", VStr "s"); ("type", VStr "returns"); ("date_created", VDate true (january 3)); ("status", VStr "open")]%string.
Definition returns_db : database :=
  <[(DEVOLUCIONES_OPERATIONS_COLLECTION, "s:devoluciones"%string) := held_operation]> (<[("claims"%string, "c1"%string) := open_claim]>
    {[(CERTIFICATES, "x"%string) := encode_doc (certificate "x" 0 10)]}).
Definition still (n : nat) : Z := now.
Definition claim_checkpoint : doc := mk_doc [("claim_id"%string, VStr "c1")].
Definition close_claim : dtx update_result := call still (MUpdateOne "claims" (FEq ["_id"%string] (VStr "c1")) (UOps [USet ["status"%string] (VStr "closed")]) false).
Definition closing := guarded_write still nobody "s" claim_checkpoint close_claim false false 0%nat returns_db.
Definition committed {A : Type} (d : A) (r : result (A * nat * database)) : A * nat * database := match r with Ok x => x | Err _ => (d, O, ∅) end.
Definition closed : update_result * nat * database := committed (UpdateResult 0 0 false) closing.1.
Definition closed_claim : doc := match resource_at "claims" "s" "c1" closed.2 with Some c => c | None => ∅ end.
Definition certificate_left : doc := match closed.2 !! (CERTIFICATES, "x"%string) with Some d => d | None => ∅ end.

Lemma changed_claim_is_not_served_witness :
  match coverage_prefix [dec certificate_left] "s" (VDate true (january 1)) (VDate true (january 8)) now with Ok (_, reach) => reach <= january 3 | Err _ => True end.
Proof.
  destruct (coverage_prefix _ _ _ _ _) as [[selected reach]|e] eqn:E; [|exact I].
  refine (changed_claim_is_not_served still nobody "s" claim_checkpoint close_claim false 0%nat returns_db closed.1.1 closed.1.2 closed.2 false closed_claim (january 3)
    _ _ _ _ _ _ _ _ [dec certificate_left] (january 1) (january 8) now selected reach _ _ E).
  - by_vm.
  - apply ids_checked. by_vm.
  - apply ids_checked. by_vm.
  - apply ids_checked. by_vm.
  - apply ids_checked. by_vm.
  - by_vm.
  - apply (changed_claim nobody "s" claim_checkpoint returns_db closed.2 (VStr "c1") closed_claim); [by_vm|by_vm|].
    right. left.
  - split; [by_vm|]. split; [by_vm|]. exists false. by_vm.
  - intros c Hc. apply list_elem_of_singleton in Hc as ->. exists "x"%string, certificate_left. split; [by_vm|reflexivity].
  - discriminate.
Defined.

(** *** A run of three windows *)

Definition creation := create_tx still binding nobody now 0%nat returns_db.
Definition created : bool * nat * database := committed false creation.
(** The run after its first window was completed. *)
Definition rewritten : doc :=
  <["state"%string := VStr "active"]> (<["next_window_index"%string := VInt 1]> (<["not_before"%string := VDate true (now + hour)]>
    match created.2 !! (RUNS_COLLECTION, run_id binding) with Some d => d | None => ∅ end)).
Definition with_first_window : database :=
  <[(RUNS_COLLECTION, run_id binding) := rewritten]> (<[(RUN_WINDOWS_COLLECTION, "w0"%string) := mk_doc [("_id", VStr "w0"); ("run_id", VStr (run_id binding)); ("index", VInt 0); ("state", VStr "completed")]%string]> created.2).
Definition reading : option RunWindow * nat * database := committed None (read_next_tx still (run_id binding) nobody 0%nat with_first_window).

Lemma created_run_is_walked_witness : tiles (run_id binding) 0 (start binding) (stop binding) (partition_windows binding) /\
  (first_open with_first_window (partition_windows binding) reading.1.1 \/
   reading.1.1 = None /\ exists now, none_selected now with_first_window DEVOLUCIONES_OPERATIONS_COLLECTION (operation_lease_guard nobody)).
Proof.
  refine (created_run_is_walked still still binding nobody nobody now 0%nat returns_db created.1.2 created.2 0%nat with_first_window reading.1.1 reading.1.2 reading.2
    _ _ _ _ _ _ _ _ _ _).
  - reflexivity.
  - by_vm.
  - by_vm.
  - by_vm.
  - apply ids_checked. by_vm.
  - by_vm.
  - intros d Hd. exists rewritten. split; [by_vm|]. unfold rewritten. rewrite Hd. intros k Hk.
    rewrite !lookup_insert_ne; [done|intros <-; revert Hk; clear; set_solver..].
  - apply ids_checked. by_vm.
  - intros run index now1 now2 i j d e f [Hi _] [Hj _].
    assert (Hone : forall k x, with_first_window !! (RUN_WINDOWS_COLLECTION, k) = Some x -> k = "w0"%string).
    { intros k x Hx. refine (every_binding (fun c i _ => c = RUN_WINDOWS_COLLECTION -> i = "w0"%string) (fun c i _ => negb (String.eqb c RUN_WINDOWS_COLLECTION) || String.eqb i "w0") with_first_window _ _ _ k x Hx eq_refl); [|by_vm].
      intros c l y Ht ->. rewrite String.eqb_refl in Ht. by apply String.eqb_eq in Ht. }
    by rewrite (Hone _ _ Hi), (Hone _ _ Hj).
  - by_vm.
Defined.
End ReturnsDemo.
